(* ===== verification/_CoqProject ===== *)
-Q . S2P
Prelude.v
Riscv.v
Mem.v
Cstring.v
Kalloc.v
Vm.v
VmFacts.v
VmUser.v
VmProps.v
Kvm.v
Spinlock.v
Sleeplock.v
Block.v
Bio.v
BioFacts.v
BioProps.v
Log.v
LogFacts.v
LogExec.v
LogProps.v
LogTxn.v
Txn.v
Fs.v
FsBlocks.v
FsFile.v
FsIO.v
FsInode.v
FsTrunc.v
FsDir.v
FsNames.v
FsTable.v
FsProps.v
Pipe.v
File.v
Sysfile.v
Asm.v
Initcode.v
SysfileRefs.v
FileProps.v
Proc.v
Sleepwake.v
Sched.v
Thread.v
ProcInfo.v
ProcLife.v
ProcTree.v
Userinit.v
Report.v
Exec.v
Syscall.v
Console.v
Virtio.v
Trap.v
AsmProps.v
Grep.v
Umalloc.v
Printf.v
Ulib.v
Boot.v
BootProps.v
Bootstrap.v
Sh.v
Usys.v
Shrun.v
Coreutils.v
Mkfs.v
MkfsAppend.v
MkfsProps.v
Mount.v
