(* ===== verification/Prelude.v ===== *)
(** * xv6-riscv (threads, crash reports, CPU quotas): verification library

    The program is a teaching kernel for 64-bit RISC-V with the user programs
    it boots into and the tool that builds its disk image.  This fork adds user
    threads inside a process, crash reports kept in a ring and in a file,
    process deadlines, and a second scheduler with CPU quotas.  The library
    translates the C sources under src/ into executable definitions and proves
    what makes each part correct.

    ** Parts of the program and the files that model them

    Memory.  Riscv.v has the constants and the Sv39 macros (param.h,
    memlayout.h, riscv.h).  Mem.v and Cstring.v are string.c over a byte-wise
    memory.  Kalloc.v is kalloc.c, with the free list threaded through the free
    pages.  Vm.v is vm.c: page tables are pages of the same memory, walked as
    the code walks them.  VmFacts.v, VmUser.v and VmProps.v hold the proofs;
    Kvm.v proves what kvmmake maps.

    Machine and boot.  Asm.v has trampoline.S, swtch.S, kernelvec.S and entry.S
    as lists of instructions with an interpreter of the RV64 instructions they
    use; AsmProps.v joins them to the C code of Trap.v.  Initcode.v has the
    bytes of initcode in proc.c, initcode.S and the stubs of usys.pl.  Boot.v
    has the CSR accessors of riscv.h, start.c, plic.c, the initialisation of
    the devices, and main.c as the calls each hart makes; BootProps.v and
    Bootstrap.v prove what they do, Userinit.v what userinit leaves.  Mount.v
    is forkret, where the first process mounts the file system.

    Locks.  Spinlock.v runs acquire and release one memory access at a time
    over any number of harts; Sleeplock.v does the same for sleeplock.c over
    processes, and Sleepwake.v for sleep and wakeup of proc.c and the locks
    around them.  Elsewhere a critical section is one step.

    Storage.  Block.v states what the layers above expect of a buffer cache
    (class [BufOps] and its laws [BufLaws], with a reference implementation);
    Bio.v, BioFacts.v and BioProps.v are bio.c and the proof that it meets
    them.  Log.v, LogFacts.v, LogExec.v, LogProps.v and LogTxn.v are log.c with
    crashes at every disk write and with concurrent operations.  Txn.v states
    what a transaction offers to the file system ([TxnOps], [TxnLaws]) and
    derives it from the log.  Fs.v is fs.c over that interface; FsBlocks.v
    (bitmap), FsFile.v (block map), FsIO.v (readi, writei), FsInode.v,
    FsTrunc.v, FsDir.v, FsNames.v, FsTable.v and FsProps.v are its proofs.
    Virtio.v is virtio_disk.c against a device that completes requests in any
    order.  Mkfs.v is mkfs.c; MkfsAppend.v and MkfsProps.v prove that the image
    is a file system in the sense of the kernel proofs.

    Files.  Pipe.v is pipe.c; File.v is file.c and kfile.c; Sysfile.v is
    sysfile.c with the argument fetching of syscall.c; SysfileRefs.v and
    FileProps.v are the proofs about descriptors.

    Processes.  Proc.v is the process table of proc.c and proc.h; Sched.v the
    two schedulers, sched and the thread dispatch; Thread.v the thread calls;
    ProcLife.v fork, deadfork, exit, wait, reparent; ProcTree.v the process
    tree over all of them; ProcInfo.v top, child_processes and set_cpu_quota;
    Report.v the crash reports of trap.c with myrep and sysrep; Exec.v exec.c
    and elf.h; Syscall.v syscall.c and sysproc.c; Trap.v the rest of trap.c.

    Console.  Console.v is uart.c and console.c.

    User programs.  Printf.v is kernel/printf.c, user/printf.c and atoi;
    Ulib.v is the rest of ulib.c; Umalloc.v is umalloc.c; Grep.v is grep.c;
    Sh.v is the parser of sh.c.  Usys.v has programs as trees of the system
    calls they make, run by a pool of processes in any order; Shrun.v is the
    rest of sh.c, and init.c, in that form.  Coreutils.v has cat, wc, echo,
    fmtname of ls and the tables of top and children, and procdump.

    Traps enter through Trap.v, which calls the system calls of Syscall.v and
    the interrupt handlers of Console.v and Virtio.v; system calls run on the
    process table, the files and the memory in one state.

    ** How the code is modelled

    A C integer is a Z in the range of its type; arithmetic that can wrap is
    written with u8, u16, u32, u64, s32, s64.  A struct is a Record, an array a
    list, physical memory a finite map from addresses to bytes.  A pointer into
    a kernel table (proc, file, inode, buf) is its index.  A routine takes the
    state it uses and returns it; [res] says whether it returned, called panic,
    or sleeps with nobody to wake it.  Sleeping inside a longer operation is an
    outcome of the call, and the theorems range over all sequences of calls.
    What runs outside the C sources is a parameter: what user code does between
    traps, the device behind the disk driver, sbrk and read for the user
    programs, the addresses the linker chooses.  The hypotheses on these parameters are named
    ([UserMem], [read_ok] and the like) and each theorem that has one comes with
    a concrete instance.

    Loops that are not structural take fuel.  The fuel is computed from the
    arguments the way the loop counts (bytes left, pages left, blocks of the
    bitmap, the length of the line, the number of table entries), the theorems
    show that it suffices, and running out is the value [Block] or [None],
    never a wrong result.  The shell and init run for ever: their programs take
    the number of rounds, and the theorems hold for every number.  Table sizes are the ones of param.h; the file system
    is proved for every super block that satisfies [sb_ok], mkfs for the one it
    writes.

    ** What is proved

    Isolation and memory: copyout reaches user pages only; uvmalloc keeps
    frames of different owners apart and undoes a failed growth; kalloc and
    kfree behave as a stack of pages; the kernel's own map has every device,
    text, data, trampoline and stack page and nothing else.  Traps and
    switches, down to the instructions: an interrupt gives a user program all
    its registers back, the next trap finds the kernel stack and page table,
    swtch returns to its caller, kernelvec preserves the kernel's registers.
    Boot: every hart gets its own stack and reaches main in supervisor mode, no
    hart runs ahead of the initialisation, main runs to the scheduler without a
    panic, and the first process asks for /init.  Crash safety: a commit is atomic at
    every crash point, and recovery may itself be interrupted; the next boot
    mounts what it left; the space
    begin_op reserves suffices for a log with the header outside its size, and
    is one block short for the log mkfs lays out.  Refinement: bio.c implements
    the reference cache, the console a line editor over lists, kalloc a stack.
    File system: allocation, truncation, directories, and a file as an array of
    bytes through writei and readi; the image of mkfs satisfies the
    preconditions of these theorems, with every file under its name and with
    its bytes.  Concurrency: mutual exclusion of both locks, pipes and UART in
    FIFO order across counter wrap-around, every disk request transferred once,
    no wakeup lost and no deadlock between sleep and wakeup.
    Processes: unique pids and living parents, joined threads that exist, what
    the schedulers choose, registers preserved across a switch, deadlines
    enforced, returns to user space that are safe.  Reference counts: over any
    sequence of system calls the count of a file is the number of descriptors.
    The shell: every program it runs, in every interleaving and whichever calls
    fail, has exactly the descriptors its command line says, and init starts
    the shell on the console.  User programs: grep accepts the language of its pattern and prints the
    matching lines; malloc hands out disjoint blocks; the shell parses what
    commands print; printf reads as many arguments as the format names and atoi
    reads the decimals back; memmove of ulib.c agrees with the kernel's, gets
    reads a line, cat copies and wc counts.

    Some theorems pin down behaviour the code does not intend: error paths that
    keep a lock or a transaction, a result stored in the wrong thread, a quota
    ignored on ties, a walk that never ends, a number longer than its buffer.

    ** Not modelled

    The test programs (usertests.c, grind.c and the small ones) exercise the
    system and are not part of it; ln, kill, mkdir, rm and the like make a few
    system calls.  Of the other user programs the opening of the files named on
    the command line and the directory walk of ls are left out.  The schedulers
    are modelled by their rounds, not as loops that never end.  malloc failing
    inside the shell's parser, the lock of printf and the messages printed on a
    crash are left out.  Headers with prototypes only have nothing to model.
    Interleaving inside one critical section other than those above, memory
    ordering weaker than sequential consistency, and timing are outside the
    model; so are failures of the host that runs mkfs other than a file that
    cannot be opened or read past its end. *)

From Stdlib Require Export ZArith Lia.
From stdpp Require Export base gmap numbers strings option.
From stdpp Require Export list.

Declare Scope xv6_scope.
Delimit Scope xv6_scope with xv6.
#[global] Open Scope Z_scope.
#[global] Open Scope xv6_scope.

(** ** Outcomes

    A kernel routine either returns, calls [panic] (printf.c, never returns)
    or goes to sleep with nobody left to wake it. *)
Inductive res (A : Type) : Type :=
| Ok (a : A)
| Panic (msg : string)
| Block.
Arguments Ok {A} _.
Arguments Panic {A} _.
Arguments Block {A}.

Definition rbind {A B : Type} (m : res A) (k : A -> res B) : res B :=
  match m with
  | Ok a => k a
  | Panic s => Panic s
  | Block => Block
  end.

Notation "'let*' x := m 'in' k" := (rbind m (fun x => k))
  (at level 10, x pattern, m at level 100, k at level 200) : xv6_scope.

Definition is_ok {A} (r : res A) : bool :=
  match r with Ok _ => true | _ => false end.

Lemma rbind_Ok {A B} (m : res A) (k : A -> res B) b :
  rbind m k = Ok b <-> exists a, m = Ok a /\ k a = Ok b.
Proof.
  split; [destruct m; simpl; intros; simplify_eq; eauto|].
  by intros (a & -> & ?).
Qed.

Lemma rbind_assoc {A B C} (m : res A) (f : A -> res B) (g : B -> res C) :
  rbind (rbind m f) g = rbind m (fun a => rbind (f a) g).
Proof. by destruct m. Qed.

(** ** Machine integers

    A C value of width [w] is its representative in [0, 2^w) when unsigned and
    in [-2^(w-1), 2^(w-1)) when signed; arithmetic wraps. *)
Definition u8 (x : Z) : Z := x mod 2 ^ 8.
Definition u16 (x : Z) : Z := x mod 2 ^ 16.
Definition u32 (x : Z) : Z := x mod 2 ^ 32.
Definition u64 (x : Z) : Z := x mod 2 ^ 64.

Definition sgn (w x : Z) : Z :=
  let y := x mod 2 ^ w in if y <? 2 ^ (w - 1) then y else y - 2 ^ w.
Definition s8 (x : Z) : Z := sgn 8 x.
Definition s16 (x : Z) : Z := sgn 16 x.
Definition s32 (x : Z) : Z := sgn 32 x.
Definition s64 (x : Z) : Z := sgn 64 x.

Definition b2z (b : bool) : Z := if b then 1 else 0.

(** ** Tactics *)
(** Split every conjunction and existential in the context. *)
Ltac destruct_all :=
  repeat match goal with
  | H : _ /\ _ |- _ => destruct H
  | H : exists _, _ |- _ => destruct H
  | H : _ * _ |- _ => destruct H
  end.

(** Case analysis on boolean comparisons of integers. *)
Ltac bcase :=
  match goal with
  | |- context [?a <? ?b] => destruct (Z.ltb_spec a b)
  | |- context [?a <=? ?b] => destruct (Z.leb_spec a b)
  | |- context [?a =? ?b] => destruct (Z.eqb_spec a b)
  | H : context [?a <? ?b] |- _ => destruct (Z.ltb_spec a b)
  | H : context [?a <=? ?b] |- _ => destruct (Z.leb_spec a b)
  | H : context [?a =? ?b] |- _ => destruct (Z.eqb_spec a b)
  end.

(** Evaluate the powers of two written with literals, so that [lia] sees
    numbers. *)
Ltac pow2 :=
  repeat match goal with
  | |- context [Z.pow 2 (Zpos ?p)] =>
      let v := eval vm_compute in (Z.pow 2 (Zpos p)) in
      change (Z.pow 2 (Zpos p)) with v
  | H : context [Z.pow 2 (Zpos ?p)] |- _ =>
      let v := eval vm_compute in (Z.pow 2 (Zpos p)) in
      change (Z.pow 2 (Zpos p)) with v in H
  end.

(** Arithmetic with quotients and remainders by literals. *)
Ltac zsolve := pow2; Z.to_euclidean_division_equations; lia.

Ltac resolve_ok :=
  repeat match goal with
  | H : rbind _ _ = Ok _ |- _ => apply rbind_Ok in H; destruct H as (? & ? & ?)
  | H : Ok _ = Ok _ |- _ => injection H as H
  | H : Panic _ = Ok _ |- _ => discriminate H
  | H : Block = Ok _ |- _ => discriminate H
  | H : (_, _) = (_, _) |- _ => injection H as ? ?
  end; subst.

(** Discharge the premises of an instantiated lemma, one after the other. *)
Ltac feed H tac :=
  repeat match type of H with
  | ?P -> _ => let h := fresh in assert (h : P) by tac; specialize (H h); clear h
  end.

(** Closed arithmetic facts, by evaluation of the goal alone. *)
Ltac zcompute :=
  vm_compute; repeat split; first [reflexivity | discriminate | let h := fresh in intros h; discriminate h].

Create HintDb xv6.
Create Rewrite HintDb xv6_len.

Lemma u8_range x : 0 <= u8 x < 2 ^ 8.
Proof. apply Z.mod_pos_bound; lia. Qed.
Lemma u16_range x : 0 <= u16 x < 2 ^ 16.
Proof. apply Z.mod_pos_bound; lia. Qed.
Lemma u32_range x : 0 <= u32 x < 2 ^ 32.
Proof. apply Z.mod_pos_bound; lia. Qed.
Lemma u64_range x : 0 <= u64 x < 2 ^ 64.
Proof. apply Z.mod_pos_bound; lia. Qed.
#[export] Hint Resolve u8_range u16_range u32_range u64_range : xv6.

Lemma u32_small x : 0 <= x < 2 ^ 32 -> u32 x = x.
Proof. apply Z.mod_small. Qed.
Lemma u64_small x : 0 <= x < 2 ^ 64 -> u64 x = x.
Proof. apply Z.mod_small. Qed.
Lemma u8_small x : 0 <= x < 2 ^ 8 -> u8 x = x.
Proof. apply Z.mod_small. Qed.
Lemma s32_small x : - 2 ^ 31 <= x < 2 ^ 31 -> s32 x = x.
Proof.
  intros H. unfold s32, sgn. simpl (32 - 1).
  destruct (decide (0 <= x)).
  - rewrite Z.mod_small by lia. bcase; lia.
  - replace (x mod 2 ^ 32) with (x + 2 ^ 32); [bcase; lia|].
    symmetry. rewrite <- (Z.mod_add x 1) by lia. apply Z.mod_small. lia.
Qed.

(** ** Little-endian encodings *)
Fixpoint le_encode (n : nat) (x : Z) : list Z :=
  match n with
  | O => []
  | S n' => x mod 256 :: le_encode n' (x / 256)
  end.

Fixpoint le_decode (l : list Z) : Z :=
  match l with
  | [] => 0
  | b :: l' => b + 256 * le_decode l'
  end.

Definition is_byte (b : Z) : Prop := 0 <= b < 256.

Lemma length_le_encode n x : length (le_encode n x) = n.
Proof. revert x; induction n; intros; simpl; auto. Qed.
#[export] Hint Rewrite length_le_encode : xv6_len.

Lemma le_encode_bytes n x : Forall is_byte (le_encode n x).
Proof.
  revert x; induction n; intros; simpl; constructor; auto.
  apply Z.mod_pos_bound; lia.
Qed.
#[export] Hint Resolve le_encode_bytes : xv6.

Lemma pow256_S n : 2 ^ (8 * Z.of_nat (S n)) = 256 * 2 ^ (8 * Z.of_nat n).
Proof.
  replace (8 * Z.of_nat (S n)) with (8 + 8 * Z.of_nat n) by lia.
  rewrite Z.pow_add_r by lia. reflexivity.
Qed.

Lemma le_decode_encode n x :
  0 <= x < 2 ^ (8 * Z.of_nat n) -> le_decode (le_encode n x) = x.
Proof.
  revert x; induction n as [|n IH]; intros x Hx; simpl.
  - simpl in Hx. lia.
  - rewrite pow256_S in Hx.
    pose proof (Z.div_mod x 256 ltac:(lia)).
    rewrite IH; [lia|].
    split; [apply Z.div_pos; lia | apply Z.div_lt_upper_bound; lia].
Qed.

Lemma le_decode_range l :
  Forall is_byte l -> 0 <= le_decode l < 2 ^ (8 * Z.of_nat (length l)).
Proof.
  unfold is_byte. induction 1 as [|b l Hb Hl IH]; [simpl; lia|].
  cbn [length le_decode]. rewrite pow256_S. lia.
Qed.

Lemma le_encode_decode l :
  Forall is_byte l -> le_encode (length l) (le_decode l) = l.
Proof.
  unfold is_byte. induction 1 as [|b l Hb Hl IH]; [done|]. simpl.
  f_equal.
  - rewrite (Z.mul_comm 256), Z.mod_add by lia. apply Z.mod_small; lia.
  - rewrite (Z.mul_comm 256), Z.div_add, Z.div_small by lia. apply IH.
Qed.

(** ** Lists *)

(** [splice i new l]: overwrite [l] with [new] from position [i]. *)
Definition splice {A} (i : nat) (new l : list A) : list A :=
  take i l ++ new ++ drop (i + length new) l.

Lemma length_splice {A} i (new l : list A) :
  (i + length new <= length l)%nat -> length (splice i new l) = length l.
Proof. intros. unfold splice. rewrite !length_app, length_take, length_drop. lia. Qed.

Lemma splice_read {A} i (new l : list A) :
  (i + length new <= length l)%nat ->
  take (length new) (drop i (splice i new l)) = new.
Proof.
  intros. unfold splice.
  rewrite drop_app_le by (rewrite length_take; lia).
  rewrite drop_ge by (rewrite length_take; lia). simpl.
  by rewrite take_app_length.
Qed.

Lemma splice_lookup_out {A} i j (new l : list A) :
  (i + length new <= length l)%nat ->
  (j < i \/ i + length new <= j)%nat -> splice i new l !! j = l !! j.
Proof.
  intros Hl [Hj|Hj]; unfold splice.
  - rewrite lookup_app_l by (rewrite length_take; lia). by apply lookup_take_lt.
  - rewrite lookup_app_r by (rewrite length_take; lia).
    rewrite length_take, lookup_app_r by lia.
    rewrite lookup_drop. f_equal. lia.
Qed.

Lemma splice_lookup_in {A} i j (new l : list A) :
  (i + length new <= length l)%nat -> (j < length new)%nat ->
  splice i new l !! (i + j)%nat = new !! j.
Proof.
  intros. unfold splice.
  rewrite lookup_app_r by (rewrite length_take; lia).
  rewrite length_take, lookup_app_l by lia. f_equal. lia.
Qed.

(** Array read with a default, for arrays whose length is fixed by the type. *)
Definition nthZ (l : list Z) (i : Z) : Z := default 0 (l !! Z.to_nat i).
Definition setZ (l : list Z) (i x : Z) : list Z := <[Z.to_nat i := x]> l.

Lemma length_setZ l i x : length (setZ l i x) = length l.
Proof. apply length_insert. Qed.

Lemma nthZ_setZ_eq l i x :
  0 <= i < Z.of_nat (length l) -> nthZ (setZ l i x) i = x.
Proof. intros. unfold nthZ, setZ. rewrite list_lookup_insert_eq; [done|lia]. Qed.

Lemma nthZ_setZ_ne l i j x :
  0 <= i -> 0 <= j -> i <> j -> nthZ (setZ l i x) j = nthZ l j.
Proof. intros. unfold nthZ, setZ. rewrite list_lookup_insert_ne; [done|lia]. Qed.

(** First index whose element satisfies a test: the shape of every linear scan
    of a kernel table. *)
Fixpoint find_index {A} (f : A -> bool) (l : list A) : option nat :=
  match l with
  | [] => None
  | x :: l' => if f x then Some O else S <$> find_index f l'
  end.

Lemma find_index_Some {A} (f : A -> bool) l i :
  find_index f l = Some i <->
  (exists x, l !! i = Some x /\ f x = true) /\
  (forall j y, (j < i)%nat -> l !! j = Some y -> f y = false).
Proof.
  revert i. induction l as [|x l IH]; intros i; simpl.
  { split; [done|]. intros [(? & Hl & _) _]. by rewrite lookup_nil in Hl. }
  destruct (f x) eqn:Hx.
  - split.
    + intros [= <-]. split; [by exists x|]. intros; lia.
    + intros [_ H2]. destruct i as [|i]; [done|].
      specialize (H2 O x ltac:(lia) eq_refl). congruence.
  - destruct i as [|i]; simpl.
    + split; [by destruct (find_index f l)|]. intros [(? & [= ->] & ?) _]. congruence.
    + rewrite fmap_Some. split.
      * intros (k & Hk & [= <-]). apply IH in Hk as [? H2]. split; [done|].
        intros [|j] y Hj Hl; simplify_eq/=; [done|]. apply (H2 j); [lia|done].
      * intros [H1 H2]. exists i. split; [|done]. apply IH. split; [done|].
        intros j y Hj. apply (H2 (S j)). lia.
Qed.

Lemma find_index_None {A} (f : A -> bool) l :
  find_index f l = None <-> Forall (fun x => f x = false) l.
Proof.
  induction l as [|x l IH]; simpl; [by split|].
  rewrite Forall_cons. destruct (f x) eqn:Hx; [split; [done|naive_solver]|].
  rewrite fmap_None, IH. naive_solver.
Qed.

Lemma find_index_lt {A} (f : A -> bool) l i :
  find_index f l = Some i -> (i < length l)%nat.
Proof.
  intros H. apply find_index_Some in H as [(x & Hx & _) _].
  by apply lookup_lt_Some in Hx.
Qed.

(** ** A window of a circular array *)

(** [xs] lies in [buf] from index [start] on, wrapping around. *)
Record in_ring (n : Z) (buf : list Z) (start : Z) (xs : list Z) : Prop := {
  rg_size : Z.of_nat (length buf) = n;
  rg_start : 0 <= start;
  rg_fits : Z.of_nat (length xs) <= n;
  rg_at : forall i x, xs !! i = Some x -> nthZ buf ((start + Z.of_nat i) mod n) = x;
}.

Lemma mod_window n s i j : 0 < n -> 0 <= i < j -> j < n -> (s + i) mod n <> (s + j) mod n.
Proof.
  intros Hn Hi Hj E. assert (Hd : (j - i) mod n = 0).
  { replace (j - i) with ((s + j) - (s + i)) by lia. rewrite Zminus_mod, E, Z.sub_diag. apply Z.mod_0_l. lia. }
  rewrite Z.mod_small in Hd by lia. lia.
Qed.

Lemma ring_put n buf s xs x :
  0 < n -> in_ring n buf s xs -> Z.of_nat (length xs) < n ->
  in_ring n (setZ buf ((s + Z.of_nat (length xs)) mod n) x) s (xs ++ [x]).
Proof.
  intros Hn [H1 H2 H3 H4] Hl. pose proof (Z.mod_pos_bound (s + Z.of_nat (length xs)) n Hn). split; auto.
  - by rewrite length_setZ.
  - rewrite length_app. cbn. lia.
  - intros i y Hi. apply lookup_app_Some in Hi as [Hi|[Hge Hi]].
    + pose proof (lookup_lt_Some _ _ _ Hi). rewrite nthZ_setZ_ne; [by apply H4|lia|apply Z.mod_pos_bound; lia|].
      intros E. symmetry in E. revert E. apply mod_window; lia.
    + apply list_lookup_singleton_Some in Hi as [Hi <-]. replace i with (length xs) by lia. apply nthZ_setZ_eq. lia.
Qed.

Lemma ring_get n buf s x xs : in_ring n buf s (x :: xs) -> nthZ buf (s mod n) = x /\ in_ring n buf (s + 1) xs.
Proof.
  intros [H1 H2 H3 H4]. split.
  - specialize (H4 0%nat x eq_refl). by rewrite Z.add_0_r in H4.
  - split; auto; [lia|cbn in H3; lia|]. intros i y Hi. rewrite <- (H4 (S i) y Hi). do 2 f_equal. lia.
Qed.

Lemma ring_prefix n buf s xs ys : in_ring n buf s (xs ++ ys) -> in_ring n buf s xs.
Proof.
  intros [H1 H2 H3 H4]. rewrite length_app in H3. split; auto; [lia|]. intros i x Hi. apply H4. by apply lookup_app_l_Some.
Qed.

Lemma ring_last n buf s xs x : in_ring n buf s (xs ++ [x]) -> nthZ buf ((s + Z.of_nat (length xs)) mod n) = x.
Proof. intros [_ _ _ H]. apply H. rewrite lookup_app_r, Nat.sub_diag by lia. done. Qed.
