(* ===== verification/Riscv.v ===== *)
(** * Constants and macros: param.h, memlayout.h, riscv.h

    The Sv39 address macros of riscv.h, the physical and virtual layout of
    memlayout.h and the sizes of param.h, with the arithmetic facts the page
    table code relies on. *)

From S2P Require Import Prelude.

(** ** param.h *)
Definition MAX_THREAD : Z := 4.
Definition NPROC : Z := 64.
Definition NCPU : Z := 8.
Definition NOFILE : Z := 16.
Definition NFILE : Z := 100.
Definition NINODE : Z := 50.
Definition NDEV : Z := 10.
Definition ROOTDEV : Z := 1.
Definition MAXARG : Z := 32.
Definition MAXOPBLOCKS : Z := 10.
Definition LOGSIZE : Z := MAXOPBLOCKS * 3.
Definition NBUF : Z := MAXOPBLOCKS * 3.
Definition FSSIZE : Z := 2000.
Definition MAXPATH : Z := 128.
Definition USERSTACK : Z := 1.

(** ** riscv.h: pages and page-table entries *)
Definition PGSIZE : Z := 4096.
Definition PGSHIFT : Z := 12.

Definition PGROUNDUP (sz : Z) : Z :=
  Z.land (u64 (sz + PGSIZE - 1)) (Z.lnot (PGSIZE - 1)).
Definition PGROUNDDOWN (a : Z) : Z := Z.land a (Z.lnot (PGSIZE - 1)).

Definition PTE_V : Z := Z.shiftl 1 0.
Definition PTE_R : Z := Z.shiftl 1 1.
Definition PTE_W : Z := Z.shiftl 1 2.
Definition PTE_X : Z := Z.shiftl 1 3.
Definition PTE_U : Z := Z.shiftl 1 4.

Definition PA2PTE (pa : Z) : Z := u64 (Z.shiftl (Z.shiftr pa 12) 10).
Definition PTE2PA (pte : Z) : Z := u64 (Z.shiftl (Z.shiftr pte 10) 12).
Definition PTE_FLAGS (pte : Z) : Z := Z.land pte 1023.

Definition PXMASK : Z := 511.
Definition PXSHIFT (level : Z) : Z := PGSHIFT + 9 * level.
Definition PX (level va : Z) : Z := Z.land (Z.shiftr va (PXSHIFT level)) PXMASK.

Definition MAXVA : Z := Z.shiftl 1 (9 + 9 + 9 + 12 - 1).

Definition SATP_SV39 : Z := Z.shiftl 8 60.
Definition MAKE_SATP (pagetable : Z) : Z := Z.lor SATP_SV39 (Z.shiftr pagetable 12).

(** ** memlayout.h *)
Definition UART0 : Z := 268435456.
Definition UART0_IRQ : Z := 10.
Definition VIRTIO0 : Z := 268439552.
Definition VIRTIO0_IRQ : Z := 1.
Definition PLIC : Z := 201326592.
Definition KERNBASE : Z := 2147483648.
Definition PHYSTOP : Z := KERNBASE + 128 * 1024 * 1024.
Definition TRAMPOLINE : Z := MAXVA - PGSIZE.
Definition KSTACK (p : Z) : Z := TRAMPOLINE - (p + 1) * 2 * PGSIZE.
Definition TRAPFRAME : Z := TRAMPOLINE - PGSIZE.

Lemma land_lnot_ones x n : 0 <= n -> Z.land x (Z.lnot (Z.ones n)) = x / 2 ^ n * 2 ^ n.
Proof.
  intros Hn. rewrite <- Z.ldiff_land, Z.ldiff_ones_r, Z.shiftl_mul_pow2,
    Z.shiftr_div_pow2 by lia. reflexivity.
Qed.

Lemma PGROUNDDOWN_eq a : PGROUNDDOWN a = a / 4096 * 4096.
Proof. apply (land_lnot_ones a 12). lia. Qed.

Lemma PGROUNDUP_eq sz : PGROUNDUP sz = u64 (sz + 4095) / 4096 * 4096.
Proof.
  unfold PGROUNDUP, PGSIZE. replace (sz + 4096 - 1) with (sz + 4095) by lia.
  apply (land_lnot_ones _ 12). lia.
Qed.

Lemma PA2PTE_eq pa : 0 <= pa < 2 ^ 64 -> PA2PTE pa = pa / 4096 * 1024.
Proof.
  intros. unfold PA2PTE, u64.
  rewrite Z.shiftl_mul_pow2, Z.shiftr_div_pow2 by lia. zsolve.
Qed.

Lemma PTE2PA_eq pte : PTE2PA pte = u64 (pte / 1024 * 4096).
Proof.
  unfold PTE2PA. by rewrite Z.shiftl_mul_pow2, Z.shiftr_div_pow2 by lia.
Qed.

Lemma PTE_FLAGS_eq pte : PTE_FLAGS pte = pte mod 1024.
Proof. apply (Z.land_ones pte 10). lia. Qed.

Lemma PX_eq level va :
  0 <= level -> PX level va = va / 2 ^ (12 + 9 * level) mod 512.
Proof.
  intros. unfold PX, PXSHIFT, PGSHIFT, PXMASK.
  rewrite Z.shiftr_div_pow2 by lia. apply (Z.land_ones _ 9). lia.
Qed.

Lemma PX_range level va : 0 <= level -> 0 <= PX level va < 512.
Proof. intros. rewrite PX_eq by done. apply Z.mod_pos_bound. lia. Qed.

(** An address below MAXVA is determined by its three indices and offset. *)
Lemma PX_decompose va :
  0 <= va < MAXVA ->
  va = PX 2 va * 2 ^ 30 + PX 1 va * 2 ^ 21 + PX 0 va * 2 ^ 12 + va mod 4096.
Proof.
  intros H. rewrite !PX_eq by lia. change MAXVA with 274877906944 in H.
  change (12 + 9 * 2) with 30. change (12 + 9 * 1) with 21. change (12 + 9 * 0) with 12.
  zsolve.
Qed.

Lemma PX_inj va va' :
  0 <= va < MAXVA -> 0 <= va' < MAXVA -> va mod 4096 = va' mod 4096 ->
  PX 2 va = PX 2 va' -> PX 1 va = PX 1 va' -> PX 0 va = PX 0 va' -> va = va'.
Proof.
  intros H H' E0 E2 E1 E. rewrite (PX_decompose va), (PX_decompose va') by done.
  congruence.
Qed.

(** Fields in disjoint bit ranges: [lor] is addition. *)
Lemma lor_disjoint q n r :
  0 <= n -> 0 <= r < 2 ^ n -> Z.lor (q * 2 ^ n) r = q * 2 ^ n + r.
Proof.
  intros Hn Hr. rewrite <- Z.lxor_lor, <- Z.add_nocarry_lxor; [done| |];
    apply Z.bits_inj'; intros i Hi; rewrite Z.land_spec, Z.bits_0;
    (destruct (decide (i < n));
     [by rewrite Z.mul_pow2_bits_low by lia|]);
    rewrite <- (Z.mod_small r (2 ^ n)) by lia;
    rewrite Z.mod_pow2_bits_high by lia; apply andb_false_r.
Qed.

(** A flag test [pte & PTE_x] as arithmetic on the entry. *)
Lemma land_bit x n :
  0 <= n -> (Z.land x (Z.shiftl 1 n) =? 0) = negb (Z.testbit x n).
Proof.
  intros Hn. destruct (Z.testbit x n) eqn:Hb; simpl.
  - apply Z.eqb_neq. intros H. apply (f_equal (fun z => Z.testbit z n)) in H.
    rewrite Z.land_spec, Z.bits_0, Hb, Z.shiftl_spec, Z.sub_diag in H by lia.
    discriminate.
  - apply Z.eqb_eq, Z.bits_inj'. intros i Hi.
    rewrite Z.land_spec, Z.bits_0, Z.shiftl_1_l, Z.pow2_bits_eqb by lia.
    destruct (Z.eqb_spec n i) as [->|]; [by rewrite Hb|apply andb_false_r].
Qed.

Lemma PTE_V_small : 0 <= PTE_V < 1024.
Proof. by vm_compute. Qed.

Lemma lor_small a b : 0 <= a < 1024 -> 0 <= b < 1024 -> 0 <= Z.lor a b < 1024.
Proof.
  intros Ha Hb. split; [apply Z.lor_nonneg; lia|].
  replace (Z.lor a b) with (Z.land (Z.lor a b) (Z.ones 10)).
  - rewrite Z.land_ones by lia. apply Z.mod_pos_bound. lia.
  - rewrite Z.land_lor_distr_l, !Z.land_ones by lia.
    change (2 ^ 10) with 1024. by rewrite !Z.mod_small.
Qed.

Section pte.
Context (pa perm : Z).
Context (Hpa : 0 <= pa < 2 ^ 56) (Halign : pa mod PGSIZE = 0).
Context (Hperm : 0 <= perm < 1024).

Lemma pte_make_eq : Z.lor (PA2PTE pa) perm = pa / 4096 * 1024 + perm.
Proof. rewrite PA2PTE_eq by (pow2; lia). apply (lor_disjoint _ 10); pow2; lia. Qed.

Lemma PTE2PA_make : PTE2PA (Z.lor (PA2PTE pa) perm) = pa.
Proof.
  rewrite pte_make_eq, PTE2PA_eq, Z.div_add_l, (Z.div_small perm), Z.add_0_r by lia.
  rewrite u64_small; unfold PGSIZE in Halign; zsolve.
Qed.

Lemma PTE_FLAGS_make : PTE_FLAGS (Z.lor (PA2PTE pa) perm) = perm.
Proof.
  rewrite pte_make_eq, PTE_FLAGS_eq, Z.add_comm, Z.mod_add by lia.
  apply Z.mod_small. lia.
Qed.

Lemma pte_make_range : 0 <= Z.lor (PA2PTE pa) perm < 2 ^ 64.
Proof. rewrite pte_make_eq. zsolve. Qed.

Lemma pte_make_testbit n :
  0 <= n < 10 -> Z.testbit (Z.lor (PA2PTE pa) perm) n = Z.testbit perm n.
Proof.
  intros. rewrite <- PTE_FLAGS_make at 2. unfold PTE_FLAGS.
  rewrite Z.land_spec. change 1023 with (Z.ones 10).
  by rewrite Z.ones_spec_low, andb_true_r by lia.
Qed.
End pte.

(** Rounding facts for sizes far from the top of the address space. *)
Lemma PGROUNDUP_spec sz :
  0 <= sz <= 2 ^ 63 ->
  PGROUNDUP sz mod 4096 = 0 /\ sz <= PGROUNDUP sz < sz + 4096.
Proof. intros. rewrite PGROUNDUP_eq, u64_small; zsolve. Qed.

Lemma PGROUNDDOWN_spec a :
  PGROUNDDOWN a mod 4096 = 0 /\ PGROUNDDOWN a <= a < PGROUNDDOWN a + 4096.
Proof. rewrite PGROUNDDOWN_eq. zsolve. Qed.

Lemma PX_PGROUNDDOWN level a :
  0 <= level -> PX level (PGROUNDDOWN a) = PX level a.
Proof.
  intros. rewrite !PX_eq, PGROUNDDOWN_eq by done. f_equal.
  rewrite Z.pow_add_r by lia. change (2 ^ 12) with 4096.
  rewrite <- !Z.div_div by (try apply Z.pow_nonzero; lia).
  by rewrite Z.div_mul by lia.
Qed.

(** Kernel stacks of distinct processes are pages with a gap between any two,
    all below the trampoline. *)
Lemma KSTACK_guard p q :
  0 <= p < NPROC -> 0 <= q < NPROC -> p <> q ->
  KSTACK p mod PGSIZE = 0 /\ 0 <= KSTACK p /\ KSTACK p + 2 * PGSIZE <= TRAMPOLINE /\ (KSTACK p + 2 * PGSIZE <= KSTACK q \/ KSTACK q + 2 * PGSIZE <= KSTACK p).
Proof.
  unfold NPROC, KSTACK, PGSIZE. change TRAMPOLINE with 274877902848.
  intros. split_and!; zsolve.
Qed.
