(* ===== verification/Mem.v ===== *)
(** * Byte-addressed memory and the memory routines of kernel/string.c

    Physical memory is a finite map from addresses to bytes; an address that
    was never written reads as 0.  Two memories that agree on every read are
    interchangeable ([mem_eq]); the operations are [Proper] for it. *)

From S2P Require Import Prelude.

Abbreviation mem := (gmap Z Z).

Definition rd (m : mem) (a : Z) : Z := default 0 (m !! a).
Definition wr (m : mem) (a v : Z) : mem := <[a := v]> m.

Definition mem_eq (m m' : mem) : Prop := forall a, rd m a = rd m' a.
#[export] Instance mem_eq_equivalence : Equivalence mem_eq.
Proof. split; unfold mem_eq, Reflexive, Symmetric, Transitive; congruence. Qed.

Lemma rd_wr_eq m a v : rd (wr m a v) a = v.
Proof. unfold rd, wr. by rewrite lookup_insert_eq. Qed.
Lemma rd_wr_ne m a b v : a <> b -> rd (wr m a v) b = rd m b.
Proof. intros. unfold rd, wr. by rewrite lookup_insert_ne. Qed.
Lemma rd_wr m a b v : rd (wr m a v) b = if a =? b then v else rd m b.
Proof. bcase; [subst; apply rd_wr_eq | by apply rd_wr_ne]. Qed.

#[export] Instance rd_proper : Proper (mem_eq ==> eq ==> eq) rd.
Proof. intros m m' Hm a ? <-. apply Hm. Qed.
#[export] Instance wr_proper : Proper (mem_eq ==> eq ==> eq ==> mem_eq) wr.
Proof. intros m m' Hm a ? <- v ? <- b. rewrite !rd_wr. bcase; [done|apply Hm]. Qed.

(** A run of [n] bytes. *)
Fixpoint rd_bytes (m : mem) (a : Z) (n : nat) : list Z :=
  match n with
  | O => []
  | S n' => rd m a :: rd_bytes m (a + 1) n'
  end.

Fixpoint wr_bytes (m : mem) (a : Z) (l : list Z) : mem :=
  match l with
  | [] => m
  | b :: l' => wr_bytes (wr m a b) (a + 1) l'
  end.

Lemma length_rd_bytes m a n : length (rd_bytes m a n) = n.
Proof. revert a; induction n; intros; simpl; auto. Qed.
#[export] Hint Rewrite length_rd_bytes : xv6_len.

Lemma rd_bytes_lookup m a n i :
  (i < n)%nat -> rd_bytes m a n !! i = Some (rd m (a + Z.of_nat i)).
Proof.
  revert a i; induction n as [|n IH]; intros a i Hi; [lia|].
  destruct i as [|i]; simpl; [by rewrite Z.add_0_r|].
  rewrite IH by lia. do 2 f_equal. lia.
Qed.

Lemma rd_bytes_ext m m' a n :
  (forall b, a <= b < a + Z.of_nat n -> rd m b = rd m' b) ->
  rd_bytes m a n = rd_bytes m' a n.
Proof.
  revert a; induction n as [|n IH]; intros a H; [done|]. simpl.
  rewrite (H a) by lia. f_equal. apply IH. intros. apply H. lia.
Qed.

Lemma rd_wr_bytes m a l b :
  rd (wr_bytes m a l) b =
  if (a <=? b) && (b <? a + Z.of_nat (length l)) then nthZ l (b - a) else rd m b.
Proof.
  revert m a; induction l as [|x l IH]; intros m a; cbn [wr_bytes length].
  - repeat bcase; simpl; try done; lia.
  - rewrite IH, rd_wr. unfold nthZ.
    destruct (Z.eqb_spec a b) as [->|Hab].
    + rewrite Z.sub_diag. repeat bcase; simpl; try lia; done.
    + repeat bcase; cbn [andb]; try lia; try done.
      by replace (Z.to_nat (b - a)) with (S (Z.to_nat (b - (a + 1)))) by lia.
Qed.

Lemma rd_bytes_wr_bytes m a l : rd_bytes (wr_bytes m a l) a (length l) = l.
Proof.
  apply list_eq. intros i. destruct (decide (i < length l)%nat).
  - rewrite rd_bytes_lookup, rd_wr_bytes by done. unfold nthZ.
    repeat bcase; simpl; try lia.
    replace (Z.to_nat (a + Z.of_nat i - a)) with i by lia.
    destruct (l !! i) eqn:E; [done|]. apply lookup_ge_None_1 in E. lia.
  - rewrite !lookup_ge_None_2; [done| |rewrite length_rd_bytes]; lia.
Qed.

(** 64-bit loads and stores (page-table entries, free-list links). *)
Definition load64 (m : mem) (a : Z) : Z := le_decode (rd_bytes m a 8).
Definition store64 (m : mem) (a v : Z) : mem := wr_bytes m a (le_encode 8 (u64 v)).

Lemma load64_store64_eq m a v : 0 <= v < 2 ^ 64 -> load64 (store64 m a v) a = v.
Proof.
  intros. unfold load64, store64. rewrite u64_small by done.
  rewrite <- (length_le_encode 8 v) at 1. rewrite rd_bytes_wr_bytes.
  by apply le_decode_encode.
Qed.

Lemma rd_store64_ne m a v b : b < a \/ a + 8 <= b -> rd (store64 m a v) b = rd m b.
Proof.
  intros. unfold store64. rewrite rd_wr_bytes, length_le_encode.
  repeat bcase; simpl; try done; lia.
Qed.

Lemma load64_ext m m' a :
  (forall b, a <= b < a + 8 -> rd m b = rd m' b) -> load64 m a = load64 m' a.
Proof. intros H. unfold load64. f_equal. by apply rd_bytes_ext. Qed.

Lemma load64_store64_ne m a b v :
  a + 8 <= b \/ b + 8 <= a -> load64 (store64 m a v) b = load64 m b.
Proof. intros. apply load64_ext. intros. apply rd_store64_ne. lia. Qed.

(** Memories that hold only bytes. *)
Definition mem_bytes (m : mem) : Prop := forall a, is_byte (rd m a).

Lemma rd_bytes_is_byte m a n : mem_bytes m -> Forall is_byte (rd_bytes m a n).
Proof. intros H. revert a; induction n; intros; simpl; constructor; auto. Qed.

Lemma load64_range m a : mem_bytes m -> 0 <= load64 m a < 2 ^ 64.
Proof.
  intros H. pose proof (le_decode_range _ (rd_bytes_is_byte m a 8 H)) as Hr.
  rewrite length_rd_bytes in Hr. exact Hr.
Qed.

Lemma wr_bytes_mem_bytes m a l : mem_bytes m -> Forall is_byte l -> mem_bytes (wr_bytes m a l).
Proof.
  intros Hm Hl. revert m a Hm; induction Hl as [|b l Hb Hl IH]; intros m a Hm; simpl; [done|].
  apply IH. intros x. rewrite rd_wr. bcase; auto.
Qed.

Lemma store64_mem_bytes m a v : mem_bytes m -> mem_bytes (store64 m a v).
Proof. intros. apply wr_bytes_mem_bytes; auto with xv6. Qed.
#[export] Hint Resolve store64_mem_bytes wr_bytes_mem_bytes : xv6.

(** ** memset (string.c): for(i = 0; i < n; i++) cdst[i] = c; *)
Fixpoint memset_loop (k : nat) (i : Z) (m : mem) (dst c : Z) : mem :=
  match k with
  | O => m
  | S k' => memset_loop k' (i + 1) (wr m (dst + i) (u8 c)) dst c
  end.
Definition memset (m : mem) (dst c n : Z) : mem := memset_loop (Z.to_nat n) 0 m dst c.

(** ** memcmp: compare as unsigned chars *)
Fixpoint memcmp_loop (n : nat) (s1 s2 : Z -> Z) (i : Z) : Z :=
  match n with
  | O => 0
  | S n' => if negb (s1 i =? s2 i) then s1 i - s2 i else memcmp_loop n' s1 s2 (i + 1)
  end.
Definition memcmp (s1 s2 : Z -> Z) (n : Z) : Z := memcmp_loop (Z.to_nat n) s1 s2 0.

(** ** memmove: copies backwards when the destination overlaps the tail of
    the source, forwards otherwise. *)
Fixpoint copy_backward (n : nat) (m : mem) (d s : Z) : mem :=
  match n with
  | O => m
  | S n' => copy_backward n' (wr m (d - 1) (rd m (s - 1))) (d - 1) (s - 1)
  end.

Fixpoint copy_forward (n : nat) (m : mem) (d s : Z) : mem :=
  match n with
  | O => m
  | S n' => copy_forward n' (wr m d (rd m s)) (d + 1) (s + 1)
  end.

Definition memmove (m : mem) (dst src n : Z) : mem :=
  if n =? 0 then m
  else if (src <? dst) && (dst <? src + n)
  then copy_backward (Z.to_nat n) m (dst + n) (src + n)
  else copy_forward (Z.to_nat n) m dst src.

Definition memcpy (m : mem) (dst src n : Z) : mem := memmove m dst src n.

Lemma rd_memset_loop k i m dst c a :
  rd (memset_loop k i m dst c) a =
  if (dst + i <=? a) && (a <? dst + i + Z.of_nat k) then u8 c else rd m a.
Proof.
  revert i m; induction k as [|k IH]; intros i m; simpl.
  - repeat bcase; simpl; try done; lia.
  - rewrite IH, rd_wr.
    repeat bcase; simpl; try done; lia.
Qed.

Lemma rd_memset m dst c n a :
  rd (memset m dst c n) a = if (dst <=? a) && (a <? dst + n) then u8 c else rd m a.
Proof.
  unfold memset. rewrite rd_memset_loop. repeat bcase; simpl; try done; lia.
Qed.

Lemma memset_mem_bytes m dst c n : mem_bytes m -> mem_bytes (memset m dst c n).
Proof. intros H a. rewrite rd_memset. destruct (_ && _); [apply u8_range|apply H]. Qed.
#[export] Hint Resolve memset_mem_bytes : xv6.

Lemma rd_copy_backward n m d s a :
  s <= d ->
  rd (copy_backward n m d s) a =
  if (d - Z.of_nat n <=? a) && (a <? d) then rd m (a - d + s) else rd m a.
Proof.
  revert m d s; induction n as [|n IH]; intros m d s Hsd; cbn [copy_backward].
  - repeat bcase; simpl; try done; lia.
  - rewrite IH by lia. rewrite !rd_wr.
    replace (a - (d - 1) + (s - 1)) with (a - d + s) by lia.
    repeat bcase; simpl; try done; try lia; f_equal; lia.
Qed.

Lemma rd_copy_forward n m d s a :
  d <= s \/ s + Z.of_nat n <= d ->
  rd (copy_forward n m d s) a =
  if (d <=? a) && (a <? d + Z.of_nat n) then rd m (a - d + s) else rd m a.
Proof.
  revert m d s; induction n as [|n IH]; intros m d s Hsd; cbn [copy_forward].
  - repeat bcase; simpl; try done; lia.
  - rewrite IH by lia. rewrite !rd_wr.
    replace (a - (d + 1) + (s + 1)) with (a - d + s) by lia.
    repeat bcase; simpl; try done; try lia; f_equal; lia.
Qed.

(** memmove moves the bytes the source held before the call, whatever the
    overlap, and touches nothing else. *)
Lemma rd_memmove m dst src n a :
  0 <= n ->
  rd (memmove m dst src n) a =
  if (dst <=? a) && (a <? dst + n) then rd m (a - dst + src) else rd m a.
Proof.
  intros Hn. unfold memmove. destruct (Z.eqb_spec n 0) as [->|Hn0].
  { repeat bcase; simpl; try done; lia. }
  destruct ((src <? dst) && (dst <? src + n)) eqn:E.
  - apply andb_true_iff in E as [E1%Z.ltb_lt E2%Z.ltb_lt].
    rewrite rd_copy_backward by lia.
    replace (dst + n - Z.of_nat (Z.to_nat n)) with dst by lia.
    replace (a - (dst + n) + (src + n)) with (a - dst + src) by lia. done.
  - rewrite rd_copy_forward, Z2Nat.id by lia || (apply andb_false_iff in E as
      [E%Z.ltb_ge|E%Z.ltb_ge]; lia). done.
Qed.

Lemma memmove_mem_bytes m dst src n : 0 <= n -> mem_bytes m -> mem_bytes (memmove m dst src n).
Proof. intros Hn H a. rewrite rd_memmove by done. destruct (_ && _); apply H. Qed.
#[export] Hint Resolve memmove_mem_bytes : xv6.

#[export] Instance memset_proper : Proper (mem_eq ==> eq ==> eq ==> eq ==> mem_eq) memset.
Proof.
  intros m m' Hm d ? <- c ? <- n ? <- a. rewrite !rd_memset.
  destruct (_ && _); [done|apply Hm].
Qed.

(** From here on the routines are known by their lemmas ([rd_memset],
    [rd_memmove], [load64_store64_eq], ...); evaluation still unfolds them. *)
#[global] Opaque memset memmove store64.
