(* ===== verification/Cstring.v ===== *)
(** * The string routines of kernel/string.c

    A [char *] that is only read is a reader [Z -> Z] (offset to byte); a
    [char] array that is written is the list of its bytes.  Plain [char] is
    unsigned on RISC-V, so every byte is in [0, 256). *)

From S2P Require Import Prelude Mem.

(** The reader of an array, and of memory from an address on. *)
Definition arr (l : list Z) (i : Z) : Z := nthZ l i.
Definition at_addr (m : mem) (a i : Z) : Z := rd m (a + i).

(** while(n > 0 && *p && *p == *q) n--, p++, q++; *)
Fixpoint strncmp_loop (n : nat) (p q : Z -> Z) (i : Z) : Z :=
  match n with
  | O => 0
  | S n' =>
      if negb (p i =? 0) && (p i =? q i) then strncmp_loop n' p q (i + 1)
      else u8 (p i) - u8 (q i)
  end.
Definition strncmp (p q : Z -> Z) (n : Z) : Z := strncmp_loop (Z.to_nat n) p q 0.

(** while(n-- > 0 && ( *s++ = *t++ ) != 0); returns the array, the position
    reached and what is left of n. *)
Fixpoint strncpy_copy (n : nat) (i : Z) (s : list Z) (t : Z -> Z) : list Z * Z * nat :=
  match n with
  | O => (s, i, O)
  | S n' =>
      let s' := setZ s i (t i) in
      if t i =? 0 then (s', i + 1, n') else strncpy_copy n' (i + 1) s' t
  end.

(** while(n-- > 0) *s++ = 0; *)
Fixpoint strncpy_fill (n : nat) (i : Z) (s : list Z) : list Z :=
  match n with
  | O => s
  | S n' => strncpy_fill n' (i + 1) (setZ s i 0)
  end.

Definition strncpy (s : list Z) (t : Z -> Z) (n : Z) : list Z :=
  let '(s', i, n') := strncpy_copy (Z.to_nat n) 0 s t in strncpy_fill n' i s'.

(** while(--n > 0 && ( *s++ = *t++ ) != 0); *)
Fixpoint safestrcpy_loop (n : nat) (i : Z) (s : list Z) (t : Z -> Z) : list Z * Z :=
  match n with
  | O => (s, i)
  | S n' =>
      let s' := setZ s i (t i) in
      if t i =? 0 then (s', i + 1) else safestrcpy_loop n' (i + 1) s' t
  end.

Definition safestrcpy (s : list Z) (t : Z -> Z) (n : Z) : list Z :=
  if n <=? 0 then s
  else let '(s', i) := safestrcpy_loop (Z.to_nat (n - 1)) 0 s t in setZ s' i 0.

(** for(n = 0; s[n]; n++); with fuel for the length of the search. *)
Fixpoint strlen_loop (fuel : nat) (s : Z -> Z) (n : Z) : option Z :=
  match fuel with
  | O => None
  | S fuel' => if s n =? 0 then Some n else strlen_loop fuel' s (n + 1)
  end.
Definition strlen (fuel : nat) (s : Z -> Z) : option Z := strlen_loop fuel s 0.

(** ** Specification: what of [t] is part of the C string *)

(** No NUL among the first [j] bytes. *)
Definition live (t : Z -> Z) (j : Z) : Prop := forall k, 0 <= k < j -> t k <> 0.
#[export] Instance live_dec t j : Decision (live t j).
Proof.
  destruct (decide (Forall (fun k => t k <> 0) (seqZ 0 j))) as [H|H]; [left|right].
  - intros k Hk. rewrite Forall_forall in H. apply H, elem_of_seqZ. lia.
  - intros Hl. apply H, Forall_forall. intros k Hk%elem_of_seqZ. apply Hl. lia.
Defined.

(** The byte string [t] padded with zeros to any length. *)
Definition padded (t : Z -> Z) (j : Z) : Z := if decide (live t j) then t j else 0.

Lemma live_mono t j k : k <= j -> live t j -> live t k.
Proof. intros ? H x ?. apply H. lia. Qed.

Lemma live_S t j : live t j -> t j <> 0 -> live t (j + 1).
Proof. intros H Hj k Hk. destruct (decide (k = j)) as [->|]; [done|apply H; lia]. Qed.

Lemma padded_live t j : live t j -> padded t j = t j.
Proof. intros. unfold padded. by rewrite decide_True. Qed.

Lemma padded_dead t j k : 0 <= k < j -> t k = 0 -> padded t j = 0.
Proof. intros Hk H0. unfold padded. rewrite decide_False; [done|]. intros H. by apply (H k). Qed.

(** [padded] keeps the string. *)
Lemma live_padded t j : live (padded t) j <-> live t j.
Proof.
  split; intros H k Hk.
  - intros E. apply (H k Hk). unfold padded. by destruct (decide _).
  - rewrite padded_live; [by apply H|]. apply (live_mono t j); [lia|done].
Qed.

Lemma nthZ_strncpy_fill n i s j :
  0 <= i -> 0 <= j -> i + Z.of_nat n <= Z.of_nat (length s) ->
  nthZ (strncpy_fill n i s) j = if (i <=? j) && (j <? i + Z.of_nat n) then 0 else nthZ s j.
Proof.
  revert i s; induction n as [|n IH]; intros i s Hi Hj Hl; cbn [strncpy_fill].
  - repeat bcase; simpl; try done; lia.
  - rewrite IH by (rewrite ?length_setZ; lia).
    destruct (decide (i = j)) as [->|].
    + rewrite nthZ_setZ_eq by lia. repeat bcase; simpl; try done; lia.
    + rewrite nthZ_setZ_ne by lia. repeat bcase; simpl; try done; lia.
Qed.

Lemma length_strncpy_fill n i s : length (strncpy_fill n i s) = length s.
Proof.
  revert i s; induction n as [|n IH]; intros; simpl; [done|].
  by rewrite IH, length_setZ.
Qed.

(** Every byte of [s] below [j] not yet reached is as it was; the copied ones
    are those of [t]. *)
Lemma strncpy_copy_spec n i s t s' i' n' :
  0 <= i -> i + Z.of_nat n <= Z.of_nat (length s) -> live t i ->
  strncpy_copy n i s t = (s', i', n') ->
  i' + Z.of_nat n' = i + Z.of_nat n /\ i <= i' /\ length s' = length s /\
  (forall j, 0 <= j < i -> nthZ s' j = nthZ s j) /\
  (forall j, i <= j < i' -> nthZ s' j = t j) /\
  (forall j, i' <= j -> nthZ s' j = nthZ s j) /\
  (live t i' \/ (0 < i' /\ live t (i' - 1) /\ t (i' - 1) = 0)) /\
  (live t i' -> n' = O).
Proof.
  revert i s; induction n as [|n IH]; intros i s Hi Hl Hlive E; cbn [strncpy_copy] in E.
  { simplify_eq. split_and!; auto; try lia. }
  destruct (Z.eqb_spec (t i) 0) as [H0|H0]; simplify_eq.
  - split_and!; rewrite ?length_setZ; try lia.
    + intros. rewrite nthZ_setZ_ne; lia || done.
    + intros j Hj. replace j with i by lia. rewrite nthZ_setZ_eq; lia || done.
    + intros. rewrite nthZ_setZ_ne; lia || done.
    + right. replace (i + 1 - 1) with i by lia. auto with lia.
    + intros Hc. exfalso. apply (Hc i); [lia|done].
  - apply IH in E; rewrite ?length_setZ; [|lia..|by apply live_S].
    rewrite length_setZ in E. destruct E as (E1 & E2 & E3 & E4 & E5 & E6 & E7 & E8).
    split_and!; auto; try lia.
    + intros j Hj. rewrite E4 by lia. rewrite nthZ_setZ_ne; lia || done.
    + intros j Hj. destruct (decide (j = i)) as [->|]; [|apply E5; lia].
      rewrite E4 by lia. rewrite nthZ_setZ_eq; lia || done.
    + intros j Hj. rewrite E6 by lia. rewrite nthZ_setZ_ne; lia || done.
Qed.

(** strncpy writes exactly [n] bytes: the string, then zeros. *)
Lemma nthZ_strncpy s t n j :
  0 <= n <= Z.of_nat (length s) -> 0 <= j ->
  nthZ (strncpy s t n) j = if j <? n then padded t j else nthZ s j.
Proof.
  intros Hn Hj. unfold strncpy.
  destruct (strncpy_copy _ 0 s t) as [[s' i] n'] eqn:E.
  apply strncpy_copy_spec in E as (E1 & E2 & E3 & E4 & E5 & E6 & E7 & E8); try lia;
    [|intros k; lia].
  rewrite nthZ_strncpy_fill by lia.
  destruct E7 as [Hlive|(Hi & Hlive & H0)].
  - specialize (E8 Hlive). subst n'.
    repeat bcase; simpl; try lia.
    + rewrite E5, padded_live by lia || (apply (live_mono t i); [lia|done]). done.
    + apply E6. lia.
  - repeat bcase; simpl; try lia.
    + symmetry. apply (padded_dead _ _ (i - 1)); [lia|done].
    + rewrite E5, padded_live by lia || (apply (live_mono t (i - 1)); [lia|done]). done.
    + apply E6. lia.
Qed.

Lemma length_strncpy s t n :
  0 <= n <= Z.of_nat (length s) -> length (strncpy s t n) = length s.
Proof.
  intros. unfold strncpy. destruct (strncpy_copy _ 0 s t) as [[s' i] n'] eqn:E.
  rewrite length_strncpy_fill.
  apply strncpy_copy_spec in E; [tauto|lia..|intros k; lia].
Qed.

(** strncmp compares the strings, up to [n] bytes. *)
Lemma strncmp_loop_zero n p q i :
  (forall j, is_byte (p j)) -> (forall j, is_byte (q j)) -> 0 <= i -> live p i ->
  strncmp_loop n p q i = 0 <->
  (forall j, i <= j < i + Z.of_nat n -> live p j -> p j = q j).
Proof.
  intros Hp Hq. revert i; induction n as [|n IH]; intros i Hi0 Hi; cbn [strncmp_loop].
  { split; [intros _ j; lia|done]. }
  unfold is_byte in *.
  destruct (Z.eqb_spec (p i) 0) as [H0|H0]; cbn [negb andb].
  { rewrite !u8_small by apply Hp || apply Hq. split.
    - intros E j Hj Hlj. destruct (decide (j = i)) as [->|]; [lia|].
      exfalso. apply (Hlj i); [lia|done].
    - intros E. rewrite (E i) by (done || lia). lia. }
  destruct (Z.eqb_spec (p i) (q i)) as [H1|H1].
  - rewrite IH by (lia || by apply live_S). split; intros E j Hj Hlj.
    + destruct (decide (j = i)) as [->|]; [done|]. apply E; [lia|done].
    + apply E; [lia|done].
  - rewrite !u8_small by apply Hp || apply Hq. split; [lia|].
    intros E. rewrite (E i) by (done || lia). lia.
Qed.

Lemma strncmp_zero p q n :
  0 <= n -> (forall j, is_byte (p j)) -> (forall j, is_byte (q j)) ->
  strncmp p q n = 0 <-> (forall j, 0 <= j < n -> live p j -> p j = q j).
Proof.
  intros. unfold strncmp. rewrite strncmp_loop_zero by (done || lia || intros k; lia).
  by rewrite Z2Nat.id.
Qed.

(** The first NUL at or before a NUL. *)
Lemma first_nul p x : 0 <= x -> p x = 0 -> exists y, 0 <= y <= x /\ p y = 0 /\ live p y.
Proof.
  intros Hx. pattern x. apply Zlt_0_ind; [|done]. clear x Hx. intros x IH Hx Hpx.
  destruct (decide (Exists (fun k => p k = 0) (seqZ 0 x))) as [He|He].
  - apply Exists_exists in He as (k & Hk%elem_of_seqZ & Hpk).
    destruct (IH k ltac:(lia) Hpk) as (y & ? & ? & ?). exists y. auto with lia.
  - exists x. split_and!; [lia..|done|]. intros k Hk E. apply He, Exists_exists.
    exists k. split; [apply elem_of_seqZ; lia|done].
Qed.

(** The spec of strncmp in terms of zero-padded strings. *)
Lemma strncmp_padded p q n :
  0 <= n -> (forall j, is_byte (p j)) -> (forall j, is_byte (q j)) ->
  strncmp p q n = 0 <-> (forall j, 0 <= j < n -> padded p j = padded q j).
Proof.
  intros Hn Hp Hq. rewrite strncmp_zero by done. split.
  - intros E j Hj.
    assert (Hl : forall k, k <= j -> live p k <-> live q k).
    { intros k Hk; split; intros Hlk x Hx; pose proof (Hlk x Hx) as Hne.
      - rewrite <- E; [done|lia|apply (live_mono _ k); [lia|done]].
      - intros Hpx.
        destruct (first_nul p x ltac:(lia) Hpx) as (y & Hy & Hpy & Hly).
        apply (Hlk y ltac:(lia)). by rewrite <- E by (done || lia). }
    unfold padded. destruct (decide (live p j)) as [Hlp|Hlp].
    + rewrite decide_True by (by apply Hl). apply E; [lia|done].
    + rewrite decide_False; [done|]. intros ?. by apply Hlp, Hl.
  - intros E j Hj Hl. pose proof (E j Hj) as Ej.
    rewrite (padded_live p j Hl) in Ej. rewrite Ej. unfold padded.
    destruct (decide (live q j)) as [|Hd]; [done|]. exfalso. apply Hd.
    intros k Hk Hqk. apply (Hl k Hk).
    rewrite <- (padded_live p k) by (apply (live_mono p j); [lia|done]).
    rewrite E by lia. unfold padded. rewrite Hqk. by destruct (decide _).
Qed.

Lemma padded_idem t j : padded (padded t) j = padded t j.
Proof.
  unfold padded at 1. destruct (decide (live (padded t) j)) as [H|H]; [done|].
  unfold padded. rewrite decide_False; [done|]. by rewrite <- live_padded.
Qed.

(** A safestrcpy'd buffer of [n] bytes always holds a NUL in range. *)
Lemma safestrcpy_loop_spec n i s t s' i' :
  0 <= i -> safestrcpy_loop n i s t = (s', i') ->
  i <= i' <= i + Z.of_nat n /\ length s' = length s.
Proof.
  revert i s; induction n as [|n IH]; intros i s Hi E; cbn [safestrcpy_loop] in E.
  - simplify_eq. lia.
  - destruct (t i =? 0); simplify_eq; [rewrite length_setZ; lia|].
    apply IH in E; [|lia]. rewrite length_setZ in E. lia.
Qed.

Lemma safestrcpy_terminated s t n :
  0 < n <= Z.of_nat (length s) -> exists i, 0 <= i < n /\ nthZ (safestrcpy s t n) i = 0.
Proof.
  intros Hn. unfold safestrcpy. bcase; [lia|].
  destruct (safestrcpy_loop _ 0 s t) as [s' i] eqn:E.
  apply safestrcpy_loop_spec in E as [Hi Hl]; [|lia].
  exists i. split; [lia|]. apply nthZ_setZ_eq. lia.
Qed.

Lemma strlen_loop_spec fuel s n k :
  strlen_loop fuel s n = Some k ->
  n <= k < n + Z.of_nat fuel /\ s k = 0 /\ (forall j, n <= j < k -> s j <> 0).
Proof.
  revert n; induction fuel as [|fuel IH]; intros n E; cbn [strlen_loop] in E; [done|].
  destruct (Z.eqb_spec (s n) 0); simplify_eq; [split_and!; auto with lia|].
  apply IH in E as (? & ? & E3). split_and!; auto with lia.
  intros j Hj. destruct (decide (j = n)) as [->|]; [done|]. apply E3. lia.
Qed.
