(* ===== verification/Kalloc.v ===== *)
(** * The physical page allocator: kernel/kalloc.c

    The free pages form a linked list threaded through the pages themselves
    ([struct run] at the start of each free page), so the allocator's state is
    physical memory together with [kmem.freelist].  [end] comes from the
    linker script and is a parameter. *)

From S2P Require Import Prelude Riscv Mem.

(** struct { spinlock lock; struct run *freelist; } kmem, and the memory it
    threads through.  The lock makes each operation atomic (Spinlock.v). *)
Record kmem := mkKmem { kmem_mem : mem; kmem_freelist : Z }.

Section kalloc.
Context (kend : Z).

Definition kfree (pa : Z) (s : kmem) : res kmem :=
  if negb (pa mod PGSIZE =? 0) || (pa <? kend) || (PHYSTOP <=? pa)
  then Panic "kfree"
  else
    let m := memset (kmem_mem s) pa 1 PGSIZE in
    let m := store64 m pa (kmem_freelist s) in
    Ok (mkKmem m pa).

Definition kalloc (s : kmem) : Z * kmem :=
  let r := kmem_freelist s in
  let s := if negb (r =? 0) then mkKmem (kmem_mem s) (load64 (kmem_mem s) r) else s in
  let s := if negb (r =? 0)
           then mkKmem (memset (kmem_mem s) r 5 PGSIZE) (kmem_freelist s) else s in
  (r, s).

(** for(; p + PGSIZE <= pa_end; p += PGSIZE) kfree(p); *)
Fixpoint freerange_loop (fuel : nat) (p pa_end : Z) (s : kmem) : res kmem :=
  if p + PGSIZE <=? pa_end then
    match fuel with
    | O => Block
    | S fuel' => let* s := kfree p s in freerange_loop fuel' (p + PGSIZE) pa_end s
    end
  else Ok s.

Definition freerange (pa_start pa_end : Z) (s : kmem) : res kmem :=
  freerange_loop (Z.to_nat ((pa_end - PGROUNDUP pa_start) / PGSIZE))
    (PGROUNDUP pa_start) pa_end s.

Definition kinit (s : kmem) : res kmem := freerange kend PHYSTOP s.

(** ** Representation of the free list *)
Definition valid_page (p : Z) : Prop := p mod PGSIZE = 0 /\ kend <= p < PHYSTOP.

Fixpoint freelist_rep (m : mem) (head : Z) (l : list Z) : Prop :=
  match l with
  | [] => head = 0
  | p :: l' => head = p /\ freelist_rep m (load64 m p) l'
  end.

Record kmem_inv (s : kmem) (l : list Z) : Prop := {
  ki_rep : freelist_rep (kmem_mem s) (kmem_freelist s) l;
  ki_nodup : NoDup l;
  ki_valid : Forall valid_page l;
  ki_bytes : mem_bytes (kmem_mem s);
}.

Definition in_page (p a : Z) : Prop := p <= a < p + PGSIZE.

(** Two memories agree except on page [p]. *)
Definition same_except (p : Z) (m m' : mem) : Prop :=
  forall a, ~ in_page p a -> rd m' a = rd m a.

Hypothesis kend_pos : 0 < kend.

Lemma valid_page_range p : valid_page p -> 0 < p < 2 ^ 56 /\ p mod 4096 = 0.
Proof. intros [? ?]. change PHYSTOP with 2281701376 in *. change PGSIZE with 4096 in *. pow2. lia. Qed.

Lemma valid_pages_disjoint p q a :
  p mod 4096 = 0 -> q mod 4096 = 0 -> p <> q -> in_page p a -> ~ in_page q a.
Proof. unfold in_page, PGSIZE. intros. zsolve. Qed.

Lemma freelist_rep_frame m m' head l p :
  p mod 4096 = 0 -> same_except p m m' -> Forall valid_page l -> p ∉ l ->
  freelist_rep m head l -> freelist_rep m' head l.
Proof.
  intros Hp Hsame Hv. revert head.
  induction Hv as [|q l Hq Hv IH]; intros head Hni Hrep; [done|]. simpl in *.
  destruct Hrep as [-> Hrep]. apply not_elem_of_cons in Hni as [Hpq Hni]. split; [done|].
  destruct (valid_page_range q Hq) as [Hqr Hqa].
  replace (load64 m' q) with (load64 m q); [by apply IH|].
  apply load64_ext. intros b Hb. symmetry. apply Hsame.
  apply (valid_pages_disjoint q p); auto. unfold in_page, PGSIZE. lia.
Qed.

Lemma kfree_frame pa s s' :
  kfree pa s = Ok s' -> same_except pa (kmem_mem s) (kmem_mem s').
Proof.
  unfold kfree. destruct (_ || _); [done|]. intros [= <-] a Ha. simpl.
  unfold in_page, PGSIZE in *.
  rewrite rd_store64_ne by lia. rewrite rd_memset.
  repeat bcase; simpl; try done; lia.
Qed.

Lemma kfree_valid pa s :
  valid_page pa ->
  kfree pa s = Ok (mkKmem (store64 (memset (kmem_mem s) pa 1 PGSIZE) pa (kmem_freelist s)) pa).
Proof.
  intros [H1 H2]. unfold kfree.
  destruct (Z.eqb_spec (pa mod PGSIZE) 0), (Z.ltb_spec pa kend),
    (Z.leb_spec PHYSTOP pa); simpl; try done; lia.
Qed.

Lemma freelist_rep_range m head l :
  Forall valid_page l -> freelist_rep m head l -> 0 <= head < 2 ^ 64.
Proof.
  intros Hv Hrep. destruct Hv as [|p l Hp Hv]; simpl in Hrep.
  - subst. pow2. lia.
  - destruct Hrep as [-> _]. apply valid_page_range in Hp. pow2. lia.
Qed.

Lemma kfree_spec pa s l :
  kmem_inv s l -> valid_page pa -> pa ∉ l ->
  exists s', kfree pa s = Ok s' /\ kmem_inv s' (pa :: l) /\
             same_except pa (kmem_mem s) (kmem_mem s').
Proof.
  intros [Hrep Hnd Hv Hb] Hpa Hni. rewrite kfree_valid by done.
  eexists. split; [done|].
  destruct (valid_page_range pa Hpa) as [Hr Ha].
  assert (Hsame : same_except pa (kmem_mem s)
     (store64 (memset (kmem_mem s) pa 1 PGSIZE) pa (kmem_freelist s))).
  { eapply (kfree_frame pa s (mkKmem _ pa)), kfree_valid. done. }
  split; [|done].
  split; simpl; auto with xv6.
  - split; [done|]. rewrite load64_store64_eq by (by eapply freelist_rep_range).
    eapply freelist_rep_frame; eauto.
  - by constructor.
Qed.

Lemma kalloc_spec s l :
  kmem_inv s l ->
  match l with
  | [] => kalloc s = (0, s)
  | p :: l' =>
      exists s', kalloc s = (p, s') /\ kmem_inv s' l' /\
        same_except p (kmem_mem s) (kmem_mem s') /\
        (forall a, in_page p a -> rd (kmem_mem s') a = 5)
  end.
Proof.
  intros [Hrep Hnd Hv Hb]. destruct l as [|p l]; simpl in Hrep.
  - unfold kalloc. rewrite Hrep. done.
  - destruct Hrep as [Hp Hrep].
    apply NoDup_cons in Hnd as [Hni Hnd]. apply Forall_cons in Hv as [Hpv Hv].
    destruct (valid_page_range p Hpv) as [Hr Ha].
    unfold kalloc. rewrite Hp. destruct (Z.eqb_spec p 0); [lia|]. simpl.
    eexists. split; [done|]. simpl.
    assert (Hsame : same_except p (kmem_mem s) (memset (kmem_mem s) p 5 PGSIZE)).
    { intros a Hna. unfold in_page in Hna. rewrite rd_memset.
      repeat bcase; simpl; try done; lia. }
    split; [split; simpl; auto with xv6|split; [done|]].
    + eapply freelist_rep_frame; eauto.
    + intros a Hin. unfold in_page in Hin. rewrite rd_memset.
      repeat bcase; simpl; try lia. done.
Qed.

(** ** The abstract allocator

    What the rest of the kernel relies on: a stack of distinct free pages. *)
Inductive kop := KAlloc | KFree (pa : Z).

Definition kop_run (o : kop) (s : kmem) : res (Z * kmem) :=
  match o with
  | KAlloc => Ok (kalloc s)
  | KFree pa => let* s := kfree pa s in Ok (0, s)
  end.

Definition aop_run (o : kop) (l : list Z) : Z * list Z :=
  match o with
  | KAlloc => match l with [] => (0, []) | p :: l' => (p, l') end
  | KFree pa => (0, pa :: l)
  end.

(** The callers' discipline: free only pages of the range that are not free. *)
Definition kop_ok (o : kop) (l : list Z) : Prop :=
  match o with KAlloc => True | KFree pa => valid_page pa /\ pa ∉ l end.

Fixpoint kops_run (os : list kop) (s : kmem) : res (list Z * kmem) :=
  match os with
  | [] => Ok ([], s)
  | o :: os' =>
      let* (r, s) := kop_run o s in
      let* (rs, s) := kops_run os' s in Ok (r :: rs, s)
  end.

Fixpoint aops_run (os : list kop) (l : list Z) : list Z * list Z :=
  match os with
  | [] => ([], l)
  | o :: os' =>
      let '(r, l) := aop_run o l in
      let '(rs, l) := aops_run os' l in (r :: rs, l)
  end.

Fixpoint kops_ok (os : list kop) (l : list Z) : Prop :=
  match os with
  | [] => True
  | o :: os' => kop_ok o l /\ kops_ok os' (aop_run o l).2
  end.

Lemma kop_simulates o s l :
  kmem_inv s l -> kop_ok o l ->
  exists s', kop_run o s = Ok ((aop_run o l).1, s') /\ kmem_inv s' (aop_run o l).2.
Proof.
  intros Hi Hok. destruct o as [|pa]; simpl in *.
  - pose proof (kalloc_spec s l Hi) as Ha. destruct l as [|p l]; simpl.
    + rewrite Ha. eauto.
    + destruct Ha as (s' & -> & ? & _). eauto.
  - destruct Hok as [Hv Hn]. destruct (kfree_spec pa s l Hi Hv Hn) as (s' & E & ? & _).
    rewrite E. simpl. eauto.
Qed.

(** ** kinit *)
Fixpoint page_run (n : nat) (p : Z) (l : list Z) : list Z :=
  match n with
  | O => l
  | S n' => page_run n' (p + PGSIZE) (p :: l)
  end.

Lemma elem_of_page_run n p l a :
  a ∈ page_run n p l <-> a ∈ l \/ exists i, 0 <= i < Z.of_nat n /\ a = p + i * PGSIZE.
Proof.
  revert p l; induction n as [|n IH]; intros p l; cbn [page_run].
  - split; [by left|]. intros [?|(i & ? & _)]; [done|lia].
  - rewrite IH, elem_of_cons. split.
    + intros [[->|?]|(i & Hi & ->)].
      * right. exists 0. split; lia.
      * by left.
      * right. exists (i + 1). split; lia.
    + intros [?|(i & Hi & ->)]; [by left; right|].
      destruct (decide (i = 0)) as [->|].
      * left; left. lia.
      * right. exists (i - 1). split; lia.
Qed.

Lemma freerange_loop_spec n p pa_end s l :
  kmem_inv s l -> p mod PGSIZE = 0 -> kend <= p -> pa_end <= PHYSTOP ->
  (forall q, q ∈ l -> q < p) ->
  (pa_end - p) / PGSIZE = Z.of_nat n ->
  exists s', freerange_loop n p pa_end s = Ok s' /\ kmem_inv s' (page_run n p l).
Proof.
  revert p s l; induction n as [|n IH]; intros p s l Hi Hp Hk He Hl Hn; cbn [freerange_loop page_run].
  - destruct (Z.leb_spec (p + PGSIZE) pa_end); [|by eauto].
    exfalso. unfold PGSIZE in *. zsolve.
  - destruct (Z.leb_spec (p + PGSIZE) pa_end); [|exfalso; unfold PGSIZE in *; zsolve].
    destruct (kfree_spec p s l Hi) as (s1 & -> & Hi1 & _).
    { split; [done|]. unfold PGSIZE in *. lia. }
    { intros Hin. specialize (Hl p Hin). lia. }
    simpl. apply IH; auto; unfold PGSIZE in *; try zsolve.
    intros q [->|Hq]%elem_of_cons; [lia|]. specialize (Hl q Hq). lia.
Qed.

Lemma freerange_spec s l :
  kmem_inv s l -> l = [] -> kend <= PHYSTOP ->
  exists s' l', kinit s = Ok s' /\ kmem_inv s' l' /\
    (forall p, p ∈ l' <-> p mod PGSIZE = 0 /\ kend <= p /\ p + PGSIZE <= PHYSTOP).
Proof.
  intros Hi -> Hk. unfold kinit, freerange.
  change PHYSTOP with 2281701376 in *.
  destruct (PGROUNDUP_spec kend ltac:(lia)) as [Hr Hb].
  set (p0 := PGROUNDUP kend) in *.
  destruct (decide (p0 <= 2281701376)).
  - edestruct (freerange_loop_spec (Z.to_nat ((2281701376 - p0) / PGSIZE)) p0 2281701376 s [])
      as (s' & E & Hi'); eauto; try lia.
    { change PHYSTOP with 2281701376. lia. }
    { intros q Hq. by apply not_elem_of_nil in Hq. }
    { unfold PGSIZE. zsolve. }
    rewrite E. eexists _, _. split; [done|]. split; [exact Hi'|]. intros p.
    rewrite elem_of_page_run. unfold PGSIZE in *. split.
    + intros [Hc|(i & Hi0 & ->)]; [by apply not_elem_of_nil in Hc|]. zsolve.
    + intros (H1 & H2 & H3). right. exists ((p - p0) / 4096). zsolve.
  - exfalso. zsolve.
Qed.

End kalloc.

(** ** Theorems *)

(** C37: the allocator implements a stack of free pages: any sequence of
    kalloc and kfree calls that frees only allocated pages of the range runs
    without panic and returns what the stack returns, and the linked list
    threaded through the pages represents the stack at the end. *)
Theorem kmem_refines_stack kend os s l :
  0 < kend -> kmem_inv kend s l -> kops_ok kend os l ->
  exists s', kops_run kend os s = Ok ((aops_run os l).1, s') /\ kmem_inv kend s' (aops_run os l).2.
Proof.
  intros Hk. revert s l. induction os as [|o os IH]; intros s l Hi Hok; cbn [kops_run aops_run]; [eauto|].
  destruct Hok as [Ho Hos]. destruct (kop_simulates kend Hk o s l Hi Ho) as (s1 & -> & Hi1).
  cbn [rbind]. destruct (IH s1 (aop_run o l).2 Hi1 Hos) as (s2 & -> & Hi2). cbn [rbind].
  destruct (aop_run o l) as [r l1]. simpl in *. destruct (aops_run os l1) as [rs l2]. eauto.
Qed.

(** After kinit the free list holds exactly the page-aligned pages between
    the end of the kernel and PHYSTOP, each once. *)
Theorem kinit_frees_all kend m :
  0 < kend <= PHYSTOP -> mem_bytes m ->
  exists s l, kinit kend (mkKmem m 0) = Ok s /\ kmem_inv kend s l /\
    (forall p, p ∈ l <-> p mod PGSIZE = 0 /\ kend <= p /\ p + PGSIZE <= PHYSTOP).
Proof.
  intros Hk Hm. apply (freerange_spec kend) with (l := []); [lia| |done|lia].
  split; simpl; auto; constructor.
Qed.

Lemma mem_bytes_empty : mem_bytes ∅.
Proof. intros a. unfold rd. rewrite lookup_empty. unfold is_byte. simpl. lia. Qed.

Lemma kinit_frees_all_witness : exists s l,
  kinit (PHYSTOP - 10000) (mkKmem ∅ 0) = Ok s /\ kmem_inv (PHYSTOP - 10000) s l.
Proof.
  destruct (kinit_frees_all (PHYSTOP - 10000) ∅ ltac:(zcompute) mem_bytes_empty) as (s & l & E & Hi & _).
  exists s, l. split; [exact E|exact Hi].
Defined.

Lemma kmem_refines_stack_witness : exists s,
  kops_run 4096 [KFree 8192; KFree 4096; KAlloc; KAlloc; KAlloc] (mkKmem ∅ 0)
    = Ok ([0; 0; 4096; 8192; 0], s) /\ kmem_inv 4096 s [].
Proof.
  apply (kmem_refines_stack 4096 [KFree 8192; KFree 4096; KAlloc; KAlloc; KAlloc] (mkKmem ∅ 0) []).
  - lia.
  - split; simpl; auto using mem_bytes_empty; constructor.
  - simpl. unfold valid_page.
    split_and!; try done; rewrite ?elem_of_cons, ?elem_of_nil; intros Hc; destruct_or?; done.
Defined.
