(* ===== verification/Vm.v ===== *)
(** * Page tables and user memory: kernel/vm.c

    Sv39 page tables live in physical memory, in pages handed out by kalloc;
    the state of every routine is the allocator's state of Kalloc.v (physical
    memory and free list).  The linker symbols [end], [etext] and
    [trampoline] are parameters.  A [pagetable_t], a [pte_t *] and a kernel
    pointer are physical addresses, as in the kernel's direct map. *)

From S2P Require Import Prelude Riscv Mem Kalloc.

Definition set_mem (s : kmem) (m : mem) : kmem := mkKmem m (kmem_freelist s).

Definition flag_set (pte bit : Z) : bool := negb (Z.land pte bit =? 0).

(** &pagetable[PX(level, va)] *)
Definition pte_ptr (pagetable level va : Z) : Z := pagetable + 8 * PX level va.

Section vm.
Context (kend : Z).

(** ** walk

    One turn of the loop: follow the entry, or allocate the missing page. *)
Definition walk_step (level pagetable va : Z) (alloc : bool) (s : kmem) : option Z * kmem :=
  let pte := pte_ptr pagetable level va in
  let e := load64 (kmem_mem s) pte in
  if flag_set e PTE_V then (Some (PTE2PA e), s)
  else if negb alloc then (None, s)
  else
    let '(pg, s) := kalloc s in
    if pg =? 0 then (None, s)
    else
      let m := memset (kmem_mem s) pg 0 PGSIZE in
      let m := store64 m pte (Z.lor (PA2PTE pg) PTE_V) in
      (Some pg, set_mem s m).

(** for(int level = 2; level > 0; level--) *)
Fixpoint walk_loop (level : nat) (pagetable va : Z) (alloc : bool) (s : kmem) : option Z * kmem :=
  match level with
  | O => (Some pagetable, s)
  | S level' =>
      match walk_step (Z.of_nat level) pagetable va alloc s with
      | (None, s) => (None, s)
      | (Some next, s) => walk_loop level' next va alloc s
      end
  end.

(** Returns the address of the entry, 0 when there is none. *)
Definition walk (pagetable va : Z) (alloc : bool) (s : kmem) : res (Z * kmem) :=
  if MAXVA <=? va then Panic "walk"
  else match walk_loop 2 pagetable va alloc s with
       | (None, s) => Ok (0, s)
       | (Some pt, s) => Ok (pte_ptr pt 0 va, s)
       end.

Definition walkaddr (pagetable va : Z) (s : kmem) : res Z :=
  if MAXVA <=? va then Ok 0
  else
    let* (pte, s) := walk pagetable va false s in
    if pte =? 0 then Ok 0
    else
      let e := load64 (kmem_mem s) pte in
      if negb (flag_set e PTE_V) then Ok 0
      else if negb (flag_set e PTE_U) then Ok 0
      else Ok (PTE2PA e).

(** ** mappages: the for(;;) loop, then the checks and the loop *)
Fixpoint mappages_loop (fuel : nat) (pagetable a last pa perm : Z) (s : kmem) : res (Z * kmem) :=
  match fuel with
  | O => Block
  | S fuel' =>
      let* (pte, s) := walk pagetable a true s in
      if pte =? 0 then Ok (-1, s)
      else if flag_set (load64 (kmem_mem s) pte) PTE_V then Panic "mappages: remap"
      else
        let m := store64 (kmem_mem s) pte (Z.lor (Z.lor (PA2PTE pa) perm) PTE_V) in
        let s := set_mem s m in
        if a =? last then Ok (0, s)
        else mappages_loop fuel' pagetable (u64 (a + PGSIZE)) last (u64 (pa + PGSIZE)) perm s
  end.

Definition mappages (pagetable va size pa perm : Z) (s : kmem) : res (Z * kmem) :=
  if negb (va mod PGSIZE =? 0) then Panic "mappages: va not aligned"
  else if negb (size mod PGSIZE =? 0) then Panic "mappages: size not aligned"
  else if size =? 0 then Panic "mappages: size"
  else mappages_loop (Z.to_nat (size / PGSIZE)) pagetable va (u64 (va + size - PGSIZE)) pa perm s.

Definition kvmmap (kpgtbl va pa sz perm : Z) (s : kmem) : res kmem :=
  let* (r, s) := mappages kpgtbl va sz pa perm s in
  if negb (r =? 0) then Panic "kvmmap" else Ok s.

(** ** uvmunmap *)
Definition unmap_page (pagetable a : Z) (do_free : bool) (s : kmem) : res kmem :=
  let* (pte, s) := walk pagetable a false s in
  if pte =? 0 then Panic "uvmunmap: walk"
  else
    let e := load64 (kmem_mem s) pte in
    if negb (flag_set e PTE_V) then Panic "uvmunmap: not mapped"
    else if PTE_FLAGS e =? PTE_V then Panic "uvmunmap: not a leaf"
    else
      let* s := (if do_free then kfree kend (PTE2PA e) s else Ok s) in
      Ok (set_mem s (store64 (kmem_mem s) pte 0)).

(** for(a = va; a < va + npages*PGSIZE; a += PGSIZE) *)
Fixpoint uvmunmap_loop (fuel : nat) (pagetable a lim : Z) (do_free : bool) (s : kmem) : res kmem :=
  if a <? lim then
    match fuel with
    | O => Block
    | S fuel' =>
        let* s := unmap_page pagetable a do_free s in
        uvmunmap_loop fuel' pagetable (u64 (a + PGSIZE)) lim do_free s
    end
  else Ok s.

Definition uvmunmap (pagetable va npages : Z) (do_free : bool) (s : kmem) : res kmem :=
  if negb (va mod PGSIZE =? 0) then Panic "uvmunmap: not aligned"
  else uvmunmap_loop (Z.to_nat npages) pagetable va (u64 (va + npages * PGSIZE)) do_free s.

Definition uvmcreate (s : kmem) : Z * kmem :=
  let '(pagetable, s) := kalloc s in
  if pagetable =? 0 then (0, s)
  else (pagetable, set_mem s (memset (kmem_mem s) pagetable 0 PGSIZE)).

Definition uvmfirst (pagetable src sz : Z) (s : kmem) : res kmem :=
  if PGSIZE <=? sz then Panic "uvmfirst: more than a page"
  else
    let '(mem0, s) := kalloc s in
    let s := set_mem s (memset (kmem_mem s) mem0 0 PGSIZE) in
    let* (_, s) := mappages pagetable 0 PGSIZE mem0
                     (Z.lor (Z.lor (Z.lor PTE_W PTE_R) PTE_X) PTE_U) s in
    Ok (set_mem s (memmove (kmem_mem s) mem0 src sz)).

(** ** uvmdealloc, uvmalloc *)
Definition uvmdealloc (pagetable oldsz newsz : Z) (s : kmem) : res (Z * kmem) :=
  if oldsz <=? newsz then Ok (oldsz, s)
  else
    let* s :=
      (if PGROUNDUP newsz <? PGROUNDUP oldsz
       then uvmunmap pagetable (PGROUNDUP newsz)
              (u64 (s32 ((PGROUNDUP oldsz - PGROUNDUP newsz) / PGSIZE))) true s
       else Ok s) in
    Ok (newsz, s).

(** for(a = oldsz; a < newsz; a += PGSIZE) *)
Fixpoint uvmalloc_loop (fuel : nat) (pagetable oldsz a newsz xperm : Z) (s : kmem) : res (Z * kmem) :=
  if a <? newsz then
    match fuel with
    | O => Block
    | S fuel' =>
        let '(mem0, s) := kalloc s in
        if mem0 =? 0 then
          let* (_, s) := uvmdealloc pagetable a oldsz s in Ok (0, s)
        else
          let s := set_mem s (memset (kmem_mem s) mem0 0 PGSIZE) in
          let* (r, s) := mappages pagetable a PGSIZE mem0 (Z.lor (Z.lor PTE_R PTE_U) xperm) s in
          if negb (r =? 0) then
            let* s := kfree kend mem0 s in
            let* (_, s) := uvmdealloc pagetable a oldsz s in Ok (0, s)
          else uvmalloc_loop fuel' pagetable oldsz (u64 (a + PGSIZE)) newsz xperm s
    end
  else Ok (newsz, s).

Definition uvmalloc (pagetable oldsz newsz xperm : Z) (s : kmem) : res (Z * kmem) :=
  if newsz <? oldsz then Ok (oldsz, s)
  else
    let oldsz := PGROUNDUP oldsz in
    uvmalloc_loop (Z.to_nat ((newsz - oldsz) / PGSIZE + 1)) pagetable oldsz oldsz newsz xperm s.

(** ** freewalk, uvmfree

    The recursion depth is the number of levels; [freewalk] is entered with
    depth 3, the height of every Sv39 table. *)
Fixpoint freewalk (depth : nat) (pagetable : Z) (s : kmem) {struct depth} : res kmem :=
  match depth with
  | O => Block
  | S depth' =>
      let fix loop (n : nat) (i : Z) (s : kmem) {struct n} : res kmem :=
        match n with
        | O => Ok s
        | S n' =>
            let pte := load64 (kmem_mem s) (pagetable + 8 * i) in
            let* s :=
              (if flag_set pte PTE_V && (Z.land pte (Z.lor (Z.lor PTE_R PTE_W) PTE_X) =? 0) then
                 let* s := freewalk depth' (PTE2PA pte) s in
                 Ok (set_mem s (store64 (kmem_mem s) (pagetable + 8 * i) 0))
               else if flag_set pte PTE_V then Panic "freewalk: leaf"
               else Ok s) in
            loop n' (i + 1) s
        end in
      let* s := loop 512%nat 0 s in
      kfree kend pagetable s
  end.

Definition uvmfree (pagetable sz : Z) (s : kmem) : res kmem :=
  let* s := (if 0 <? sz then uvmunmap pagetable 0 (PGROUNDUP sz / PGSIZE) true s else Ok s) in
  freewalk 3 pagetable s.

(** ** uvmcopy: for(i = 0; i < sz; i += PGSIZE), with the err: path *)
Fixpoint uvmcopy_loop (fuel : nat) (old new i sz : Z) (s : kmem) : res (Z * kmem) :=
  if i <? sz then
    match fuel with
    | O => Block
    | S fuel' =>
        let* (pte, s) := walk old i false s in
        if pte =? 0 then Panic "uvmcopy: pte should exist"
        else
          let e := load64 (kmem_mem s) pte in
          if negb (flag_set e PTE_V) then Panic "uvmcopy: page not present"
          else
            let pa := PTE2PA e in
            let flags := PTE_FLAGS e in
            let '(mem0, s) := kalloc s in
            if mem0 =? 0 then
              let* s := uvmunmap new 0 (i / PGSIZE) true s in Ok (-1, s)
            else
              let s := set_mem s (memmove (kmem_mem s) mem0 pa PGSIZE) in
              let* (r, s) := mappages new i PGSIZE mem0 flags s in
              if negb (r =? 0) then
                let* s := kfree kend mem0 s in
                let* s := uvmunmap new 0 (i / PGSIZE) true s in Ok (-1, s)
              else uvmcopy_loop fuel' old new (u64 (i + PGSIZE)) sz s
    end
  else Ok (0, s).

Definition uvmcopy (old new sz : Z) (s : kmem) : res (Z * kmem) :=
  uvmcopy_loop (Z.to_nat (sz / PGSIZE + 1)) old new 0 sz s.

Definition uvmclear (pagetable va : Z) (s : kmem) : res kmem :=
  let* (pte, s) := walk pagetable va false s in
  if pte =? 0 then Panic "uvmclear"
  else Ok (set_mem s (store64 (kmem_mem s) pte
                        (Z.land (load64 (kmem_mem s) pte) (Z.lnot PTE_U)))).

(** ** copyout, copyin, copyinstr *)
Fixpoint copyout_loop (fuel : nat) (pagetable dstva src len : Z) (s : kmem) : res (Z * kmem) :=
  if 0 <? len then
    match fuel with
    | O => Block
    | S fuel' =>
        let va0 := PGROUNDDOWN dstva in
        if MAXVA <=? va0 then Ok (-1, s)
        else
          let* (pte, s) := walk pagetable va0 false s in
          let e := load64 (kmem_mem s) pte in
          if (pte =? 0) || negb (flag_set e PTE_V) || negb (flag_set e PTE_U)
             || negb (flag_set e PTE_W)
          then Ok (-1, s)
          else
            let pa0 := PTE2PA e in
            let n := PGSIZE - (dstva - va0) in
            let n := if len <? n then len else n in
            let s := set_mem s (memmove (kmem_mem s) (pa0 + (dstva - va0)) src n) in
            copyout_loop fuel' pagetable (u64 (va0 + PGSIZE)) (src + n) (len - n) s
    end
  else Ok (0, s).

Definition copyout (pagetable dstva src len : Z) (s : kmem) : res (Z * kmem) :=
  copyout_loop (Z.to_nat (len / PGSIZE + 2)) pagetable dstva src len s.

Fixpoint copyin_loop (fuel : nat) (pagetable dst srcva len : Z) (s : kmem) : res (Z * kmem) :=
  if 0 <? len then
    match fuel with
    | O => Block
    | S fuel' =>
        let va0 := PGROUNDDOWN srcva in
        let* pa0 := walkaddr pagetable va0 s in
        if pa0 =? 0 then Ok (-1, s)
        else
          let n := PGSIZE - (srcva - va0) in
          let n := if len <? n then len else n in
          let s := set_mem s (memmove (kmem_mem s) dst (pa0 + (srcva - va0)) n) in
          copyin_loop fuel' pagetable (dst + n) (u64 (va0 + PGSIZE)) (len - n) s
    end
  else Ok (0, s).

Definition copyin (pagetable dst srcva len : Z) (s : kmem) : res (Z * kmem) :=
  copyin_loop (Z.to_nat (len / PGSIZE + 2)) pagetable dst srcva len s.

(** The inner while(n > 0): returns memory, got_null, dst and max. *)
Fixpoint copyinstr_page (n : nat) (m : mem) (p dst max : Z) : mem * bool * Z * Z :=
  match n with
  | O => (m, false, dst, max)
  | S n' =>
      if rd m p =? 0 then (wr m dst 0, true, dst, max)
      else copyinstr_page n' (wr m dst (rd m p)) (p + 1) (dst + 1) (max - 1)
  end.

Fixpoint copyinstr_loop (fuel : nat) (pagetable dst srcva max : Z) (s : kmem) : res (Z * kmem) :=
  if 0 <? max then
    match fuel with
    | O => Block
    | S fuel' =>
        let va0 := PGROUNDDOWN srcva in
        let* pa0 := walkaddr pagetable va0 s in
        if pa0 =? 0 then Ok (-1, s)
        else
          let n := PGSIZE - (srcva - va0) in
          let n := if max <? n then max else n in
          let '(m, got_null, dst, max) :=
            copyinstr_page (Z.to_nat n) (kmem_mem s) (pa0 + (srcva - va0)) dst max in
          let s := set_mem s m in
          if got_null then Ok (0, s)
          else copyinstr_loop fuel' pagetable dst (u64 (va0 + PGSIZE)) max s
    end
  else Ok (-1, s).

Definition copyinstr (pagetable dst srcva max : Z) (s : kmem) : res (Z * kmem) :=
  copyinstr_loop (Z.to_nat (max / PGSIZE + 2)) pagetable dst srcva max s.

(** ** The kernel page table *)
Section kvm.
Context (etext trampoline : Z).

(** proc.c: a kernel stack page for each process slot. *)
Fixpoint proc_mapstacks_loop (n : nat) (p : Z) (kpgtbl : Z) (s : kmem) : res kmem :=
  match n with
  | O => Ok s
  | S n' =>
      let '(pa, s) := kalloc s in
      if pa =? 0 then Panic "kalloc"
      else
        let* s := kvmmap kpgtbl (KSTACK p) pa PGSIZE (Z.lor PTE_R PTE_W) s in
        proc_mapstacks_loop n' (p + 1) kpgtbl s
  end.
Definition proc_mapstacks (kpgtbl : Z) (s : kmem) : res kmem :=
  proc_mapstacks_loop (Z.to_nat NPROC) 0 kpgtbl s.

Definition kvmmake (s : kmem) : res (Z * kmem) :=
  let '(kpgtbl, s) := kalloc s in
  let s := set_mem s (memset (kmem_mem s) kpgtbl 0 PGSIZE) in
  let* s := kvmmap kpgtbl UART0 UART0 PGSIZE (Z.lor PTE_R PTE_W) s in
  let* s := kvmmap kpgtbl VIRTIO0 VIRTIO0 PGSIZE (Z.lor PTE_R PTE_W) s in
  let* s := kvmmap kpgtbl PLIC PLIC 67108864 (Z.lor PTE_R PTE_W) s in
  let* s := kvmmap kpgtbl KERNBASE KERNBASE (etext - KERNBASE) (Z.lor PTE_R PTE_X) s in
  let* s := kvmmap kpgtbl etext etext (PHYSTOP - etext) (Z.lor PTE_R PTE_W) s in
  let* s := kvmmap kpgtbl TRAMPOLINE trampoline PGSIZE (Z.lor PTE_R PTE_X) s in
  let* s := proc_mapstacks kpgtbl s in
  Ok (kpgtbl, s).

(** proc.c: proc_pagetable and proc_freepagetable; 0 when memory runs out. *)
Definition proc_pagetable (trapframe : Z) (s : kmem) : res (Z * kmem) :=
  let '(pagetable, s) := uvmcreate s in
  if pagetable =? 0 then Ok (0, s)
  else
    let* (r, s) := mappages pagetable TRAMPOLINE PGSIZE trampoline (Z.lor PTE_R PTE_X) s in
    if r <? 0 then let* s := uvmfree pagetable 0 s in Ok (0, s)
    else
      let* (r, s) := mappages pagetable TRAPFRAME PGSIZE trapframe (Z.lor PTE_R PTE_W) s in
      if r <? 0 then
        let* s := uvmunmap pagetable TRAMPOLINE 1 false s in
        let* s := uvmfree pagetable 0 s in Ok (0, s)
      else Ok (pagetable, s).

Definition proc_freepagetable (pagetable sz : Z) (s : kmem) : res kmem :=
  let* s := uvmunmap pagetable TRAMPOLINE 1 false s in
  let* s := uvmunmap pagetable TRAPFRAME 1 false s in
  uvmfree pagetable sz s.

End kvm.
End vm.
