(* ===== verification/VmFacts.v ===== *)
(** * Correctness of the page-table code of Vm.v

    A page table is described by the map [N] from index paths to the pages
    that hold its nodes: [[]] is the root, [[i2]] the level-1 page behind entry
    [i2], [[i2; i1]] the level-0 page.  [pt_wf] ties the bytes in memory to
    [N] and keeps the nodes apart from each other and from the free list. *)

From S2P Require Import Prelude Riscv Mem Kalloc Vm.

Abbreviation ptmap := (gmap (list Z) Z).

Section facts.
Context (kend : Z) (kend_pos : 0 < kend).

Definition idx (i : Z) : Prop := 0 <= i < 512.

Record pt_wf (s : kmem) (l : list Z) (root : Z) (N : ptmap) : Prop := {
  pw_kmem : kmem_inv kend s l;
  pw_root : N !! [] = Some root;
  pw_node : forall p a, N !! p = Some a ->
              (length p <= 2)%nat /\ valid_page kend a /\ a ∉ l;
  pw_inj : forall p q a, N !! p = Some a -> N !! q = Some a -> p = q;
  pw_closed : forall p i, is_Some (N !! (p ++ [i])) -> is_Some (N !! p);
  pw_edge : forall p a i, N !! p = Some a -> (length p < 2)%nat -> idx i ->
              let e := load64 (kmem_mem s) (a + 8 * i) in
              N !! (p ++ [i]) = if Z.testbit e 0 then Some (PTE2PA e) else None;
}.

(** The entry that translates [va], 0 (invalid) when its page is missing. *)
Definition leaf_page (N : ptmap) (va : Z) : option Z := N !! [PX 2 va; PX 1 va].
Definition entry (m : mem) (N : ptmap) (va : Z) : Z :=
  match leaf_page N va with
  | Some a => load64 m (a + 8 * PX 0 va)
  | None => 0
  end.

(** A page that belongs neither to the table nor to the free list. *)
Definition foreign (l : list Z) (N : ptmap) (q : Z) : Prop :=
  valid_page kend q /\ (q ∉ l) /\ (forall p, N !! p <> Some q).

Definition page_eq (q : Z) (m m' : mem) : Prop := forall a, in_page q a -> rd m' a = rd m a.

Lemma flag_set_V e : flag_set e PTE_V = Z.testbit e 0.
Proof. unfold flag_set, PTE_V. rewrite land_bit by lia. apply negb_involutive. Qed.
Lemma flag_set_W e : flag_set e PTE_W = Z.testbit e 2.
Proof. unfold flag_set, PTE_W. rewrite land_bit by lia. apply negb_involutive. Qed.
Lemma flag_set_U e : flag_set e PTE_U = Z.testbit e 4.
Proof. unfold flag_set, PTE_U. rewrite land_bit by lia. apply negb_involutive. Qed.

Lemma PX_idx level va : 0 <= level -> idx (PX level va).
Proof. apply PX_range. Qed.
#[local] Hint Resolve PX_idx : xv6.

(** *** Frame lemmas on 64-bit slots of pages *)
Lemma slot_in_page a i b : idx i -> a + 8 * i <= b < a + 8 * i + 8 -> in_page a b.
Proof. unfold idx, in_page, PGSIZE. lia. Qed.

Lemma load64_other_page a b i m m' :
  valid_page kend a -> valid_page kend b -> a <> b -> idx i ->
  same_except a m m' -> load64 m' (b + 8 * i) = load64 m (b + 8 * i).
Proof.
  intros Ha Hb Hne Hi Hs. apply load64_ext. intros x Hx. apply Hs.
  eapply (valid_pages_disjoint b a); [apply Hb|apply Ha|auto|by eapply slot_in_page].
Qed.

Lemma store64_same_except a i m v : idx i -> same_except a m (store64 m (a + 8 * i) v).
Proof.
  intros Hi x Hx. apply rd_store64_ne. unfold in_page, PGSIZE, idx in *. lia.
Qed.

Lemma same_except_trans a m1 m2 m3 :
  same_except a m1 m2 -> same_except a m2 m3 -> same_except a m1 m3.
Proof. intros H1 H2 x Hx. rewrite H2, H1; done. Qed.

Lemma page_eq_of_same_except a q m m' :
  valid_page kend a -> valid_page kend q -> a <> q -> same_except a m m' -> page_eq q m m'.
Proof.
  intros Ha Hq Hne Hs x Hx. apply Hs.
  eapply (valid_pages_disjoint q a); [apply Hq|apply Ha|auto|done].
Qed.

Lemma kmem_inv_frame s l a m' :
  kmem_inv kend s l -> valid_page kend a -> a ∉ l -> same_except a (kmem_mem s) m' ->
  mem_bytes m' -> kmem_inv kend (set_mem s m') l.
Proof.
  intros [Hr Hn Hv Hb] Ha Hnl Hs Hb'. split; simpl; auto.
  eapply freelist_rep_frame; eauto. apply Ha.
Qed.

Lemma freelist_rep_agree m m' h l :
  (forall q, q ∈ l -> page_eq q m m') -> freelist_rep m h l -> freelist_rep m' h l.
Proof.
  revert h; induction l as [|q l IH]; intros h Hl; simpl; [done|].
  intros [-> Hr]. split; [done|]. replace (load64 m' q) with (load64 m q).
  - apply IH; [|done]. intros; apply Hl; by right.
  - apply load64_ext. intros x Hx. symmetry. apply (Hl q); [left|].
    unfold in_page, PGSIZE. lia.
Qed.

(** Writing an entry of a level-0 page keeps the table well formed. *)
Lemma pt_wf_store_leaf s l root N p a i v :
  pt_wf s l root N -> N !! p = Some a -> length p = 2%nat -> idx i ->
  pt_wf (set_mem s (store64 (kmem_mem s) (a + 8 * i) v)) l root N.
Proof.
  intros Hwf Hp Hlen Hi. destruct (pw_node _ _ _ _ Hwf p a Hp) as (_ & Hva & Hnl).
  split; try apply Hwf.
  - eapply kmem_inv_frame; eauto; [apply Hwf|by apply store64_same_except|].
    apply store64_mem_bytes, (ki_bytes kend _ l), Hwf.
  - intros q b j Hq Hlq Hj. simpl.
    destruct (pw_node _ _ _ _ Hwf q b Hq) as (_ & Hvb & _).
    rewrite (load64_other_page a b j (kmem_mem s)); auto.
    + by apply (pw_edge _ _ _ _ Hwf).
    + intros ->. pose proof (pw_inj _ _ _ _ Hwf p q b Hp Hq). subst. lia.
    + by apply store64_same_except.
Qed.

Lemma leaf_page_inj s l root N va va' a :
  pt_wf s l root N -> leaf_page N va = Some a -> leaf_page N va' = Some a ->
  PX 2 va = PX 2 va' /\ PX 1 va = PX 1 va'.
Proof.
  intros Hwf H1 H2. pose proof (pw_inj _ _ _ _ Hwf _ _ _ H1 H2). by simplify_eq.
Qed.

(** Two addresses are on the same page when their three indices agree. *)
Definition same_vpage (va va' : Z) : Prop :=
  PX 2 va = PX 2 va' /\ PX 1 va = PX 1 va' /\ PX 0 va = PX 0 va'.

Lemma same_vpage_div va va' :
  0 <= va < MAXVA -> 0 <= va' < MAXVA -> same_vpage va va' -> va / 4096 = va' / 4096.
Proof.
  intros H H' (E2 & E1 & E0).
  pose proof (PX_decompose va H). pose proof (PX_decompose va' H').
  rewrite E2, E1, E0 in *. zsolve.
Qed.

(** What storing an entry does to every translation. *)
Lemma entry_store_leaf s l root N va a v va' :
  pt_wf s l root N -> leaf_page N va = Some a -> 0 <= v < 2 ^ 64 ->
  let m' := store64 (kmem_mem s) (a + 8 * PX 0 va) v in
  (same_vpage va va' -> entry m' N va' = v) /\
  (~ same_vpage va va' -> entry m' N va' = entry (kmem_mem s) N va').
Proof.
  intros Hwf Ha Hv m'. split.
  - intros (E2 & E1 & E0). unfold entry, leaf_page. rewrite <- E2, <- E1.
    change (N !! [PX 2 va; PX 1 va]) with (leaf_page N va). rewrite Ha.
    rewrite <- E0. by apply load64_store64_eq.
  - intros Hns. unfold entry. destruct (leaf_page N va') as [b|] eqn:Hb; [|done].
    destruct (decide (a = b)) as [<-|Hab].
    + destruct (leaf_page_inj _ _ _ _ _ _ _ Hwf Ha Hb) as [E2 E1].
      apply load64_store64_ne.
      pose proof (PX_range 0 va ltac:(lia)). pose proof (PX_range 0 va' ltac:(lia)).
      assert (PX 0 va <> PX 0 va') by (intros E; apply Hns; done). lia.
    + destruct (pw_node _ _ _ _ Hwf _ _ Ha) as (_ & Hva & _).
      destruct (pw_node _ _ _ _ Hwf _ _ Hb) as (_ & Hvb & _).
      apply (load64_other_page a b); auto with xv6; [apply PX_idx; lia|].
      apply store64_same_except, PX_idx. lia.
Qed.

(** *** Extension of a table by newly allocated nodes *)
Record pt_ext (s : kmem) (l : list Z) (N : ptmap) (s' : kmem) (l' : list Z) (N' : ptmap) : Prop := {
  pe_nodes : N ⊆ N';
  pe_free : exists c, l = c ++ l';
  pe_entry : forall va, entry (kmem_mem s') N' va = entry (kmem_mem s) N va;
  pe_foreign : forall q, foreign l N q ->
                 foreign l' N' q /\ page_eq q (kmem_mem s) (kmem_mem s');
  pe_low : forall x, x < kend -> rd (kmem_mem s') x = rd (kmem_mem s) x;
}.

Lemma pt_ext_refl s l N : pt_ext s l N s l N.
Proof.
  split; [done|by exists []|done| |done]. intros q Hq. split; [done|by intros x].
Qed.

Lemma pt_ext_trans s1 l1 N1 s2 l2 N2 s3 l3 N3 :
  pt_ext s1 l1 N1 s2 l2 N2 -> pt_ext s2 l2 N2 s3 l3 N3 -> pt_ext s1 l1 N1 s3 l3 N3.
Proof.
  intros [A1 [c1 B1] C1 D1 L1] [A2 [c2 B2] C2 D2 L2]. split.
  - by trans N2.
  - exists (c1 ++ c2). by rewrite B1, B2, app_assoc.
  - intros va. by rewrite C2, C1.
  - intros q Hq. destruct (D1 q Hq) as [Hq2 E1]. destruct (D2 q Hq2) as [Hq3 E2].
    split; [done|]. intros x Hx. by rewrite E2, E1.
  - intros x Hx. by rewrite L2, L1.
Qed.

Lemma entry_at_node s l root N va :
  pt_wf s l root N -> leaf_page N va = None -> entry (kmem_mem s) N va = 0.
Proof. intros _ H. unfold entry. by rewrite H. Qed.

(** The state after walk allocates page [q] under node [a] at index [i]. *)
Definition grow (s1 : kmem) (a i q : Z) : kmem :=
  set_mem s1 (store64 (memset (kmem_mem s1) q 0 PGSIZE) (a + 8 * i) (Z.lor (PA2PTE q) PTE_V)).

Section grow.
Context (s : kmem) (q : Z) (l : list Z) (root : Z) (N : ptmap) (p : list Z) (a i : Z).
Context (Hwf : pt_wf s (q :: l) root N) (Hp : N !! p = Some a) (Hlen : (length p < 2)%nat).
Context (Hi : idx i) (Hnone : N !! (p ++ [i]) = None).
Context (s1 : kmem) (Hi1 : kmem_inv kend s1 l).
Context (Hs1 : same_except q (kmem_mem s) (kmem_mem s1)).

#[local] Abbreviation N' := (<[p ++ [i] := q]> N).
#[local] Abbreviation m' := (kmem_mem (grow s1 a i q)).

Lemma grow_q_valid : valid_page kend q /\ (q ∉ l) /\ (forall r, N !! r <> Some q).
Proof.
  destruct (pw_kmem _ _ _ _ Hwf) as [_ Hnd Hv _].
  apply NoDup_cons in Hnd as [? _]. apply Forall_cons in Hv as [? _]. split_and!; auto.
  intros r Hr. destruct (pw_node _ _ _ _ Hwf r q Hr) as (_ & _ & Hc). apply Hc. left.
Qed.

Lemma grow_a_valid : valid_page kend a /\ (a ∉ l) /\ a <> q.
Proof.
  destruct (pw_node _ _ _ _ Hwf p a Hp) as (_ & ? & Hc).
  apply not_elem_of_cons in Hc as [? ?]. auto.
Qed.

(** Bytes outside the new page and its parent are those of [s]. *)
Lemma grow_frame x : ~ in_page q x -> ~ in_page a x -> rd m' x = rd (kmem_mem s) x.
Proof.
  intros Hq Ha. unfold grow. simpl.
  rewrite (store64_same_except a i _ _ Hi x Ha), rd_memset, Hs1 by done.
  unfold in_page in Hq. repeat bcase; simpl; try done; lia.
Qed.

Lemma grow_zero j : idx j -> load64 m' (q + 8 * j) = 0.
Proof.
  intros Hj. destruct grow_q_valid as [Hqv _]. destruct grow_a_valid as (Hav & _ & Haq).
  unfold grow. simpl.
  rewrite (load64_other_page a q j (memset (kmem_mem s1) q 0 PGSIZE)); auto;
    [|by apply store64_same_except].
  unfold load64.
  rewrite (rd_bytes_ext _ ∅).
  { by vm_compute. }
  intros b Hb. rewrite rd_memset. unfold idx, PGSIZE in *.
  repeat bcase; simpl; try lia. done.
Qed.

Lemma grow_other b j :
  valid_page kend b -> b <> q -> b <> a -> idx j ->
  load64 m' (b + 8 * j) = load64 (kmem_mem s) (b + 8 * j).
Proof.
  intros Hb Hbq Hba Hj. destruct grow_q_valid as [Hqv _]. destruct grow_a_valid as [Hav _].
  apply load64_ext. intros x Hx. pose proof (slot_in_page b j x Hj Hx) as Hin.
  apply grow_frame; eapply (valid_pages_disjoint b); eauto; try apply Hb; apply Hqv || apply Hav.
Qed.

Lemma grow_parent j :
  idx j -> load64 m' (a + 8 * j) =
           if decide (j = i) then Z.lor (PA2PTE q) PTE_V else load64 (kmem_mem s) (a + 8 * j).
Proof.
  intros Hj. destruct grow_q_valid as [Hqv _]. destruct grow_a_valid as (Hav & _ & Haq).
  destruct (valid_page_range kend kend_pos q Hqv) as [Hr Hal].
  unfold grow. simpl. case_decide as Hji.
  - subst. apply load64_store64_eq. apply pte_make_range; auto using PTE_V_small; lia.
  - rewrite load64_store64_ne by (unfold idx in *; lia).
    apply load64_ext. intros x Hx.
    assert (~ in_page q x).
    { eapply (valid_pages_disjoint a q); [apply Hav|apply Hqv|done|]. by eapply slot_in_page. }
    rewrite rd_memset, Hs1 by done. unfold in_page in *.
    repeat bcase; simpl; try done; lia.
Qed.

Lemma grow_wf : pt_wf (grow s1 a i q) l root N'.
Proof.
  destruct grow_q_valid as (Hqv & Hql & HqN). destruct grow_a_valid as (Hav & Hal & Haq).
  assert (Hne : p ++ [i] <> []) by by destruct p.
  split.
  - set (s2 := set_mem s1 (memset (kmem_mem s1) q 0 PGSIZE)).
    assert (Hi2 : kmem_inv kend s2 l).
    { apply (kmem_inv_frame s1 l q); auto.
      - intros x Hx. rewrite rd_memset. unfold in_page in Hx.
        repeat bcase; simpl; try done; lia.
      - apply memset_mem_bytes, (ki_bytes kend s1 l), Hi1. }
    apply (kmem_inv_frame s2 l a _ Hi2 Hav Hal); [apply store64_same_except, Hi|].
    apply store64_mem_bytes, (ki_bytes kend s2 l), Hi2.
  - rewrite lookup_insert_ne by done. apply Hwf.
  - intros r b Hr. rewrite lookup_insert in Hr. case_decide as E; simplify_eq.
    + rewrite length_app. simpl. split_and!; auto. lia.
    + destruct (pw_node _ _ _ _ Hwf r b Hr) as (? & ? & Hc).
      apply not_elem_of_cons in Hc. tauto.
  - intros r t b Hr Ht. rewrite lookup_insert in Hr, Ht.
    repeat case_decide; simplify_eq; auto; try (by exfalso; eapply HqN; eauto).
    by eapply (pw_inj _ _ _ _ Hwf).
  - intros r j. rewrite !lookup_insert. case_decide as E.
    + apply app_inj_tail in E as [-> ->]. intros _. case_decide; eauto.
    + intros Hs. apply (pw_closed _ _ _ _ Hwf) in Hs. case_decide; eauto.
  - intros r b j Hr Hlr Hj. cbv zeta. rewrite lookup_insert in Hr. case_decide as E.
    + injection Hr as <-. subst r. rewrite length_app in Hlr. simpl in Hlr.
      rewrite lookup_insert_ne by (intros E%(f_equal length); rewrite !length_app in E; simpl in E; lia).
      rewrite grow_zero by done.
      change (Z.testbit 0 0) with false. cbv iota.
      destruct (N !! ((p ++ [i]) ++ [j])) eqn:Hc; [|done].
      destruct (pw_closed _ _ _ _ Hwf (p ++ [i]) j) as [? Hx]; eauto. congruence.
    + destruct (pw_node _ _ _ _ Hwf r b Hr) as (_ & Hvb & Hbl).
      apply not_elem_of_cons in Hbl as [Hbq _].
      destruct (decide (b = a)) as [->|Hba].
      * assert (r = p) as -> by (by eapply (pw_inj _ _ _ _ Hwf)).
        rewrite grow_parent by done. case_decide as Hji.
        -- subst j. rewrite lookup_insert_eq.
           destruct (valid_page_range kend kend_pos q Hqv) as [Hr' Hal'].
           rewrite pte_make_testbit by (auto using PTE_V_small; lia).
           change (Z.testbit PTE_V 0) with true. cbv iota.
           rewrite PTE2PA_make; auto using PTE_V_small; lia.
        -- rewrite lookup_insert_ne by (intros E'; by apply app_inj_tail in E' as [_ ->]).
           by apply (pw_edge _ _ _ _ Hwf).
      * rewrite grow_other by done.
        rewrite lookup_insert_ne.
        { by apply (pw_edge _ _ _ _ Hwf). }
        intros E'. apply app_inj_tail in E' as [-> _]. congruence.
Qed.

Lemma grow_ext : pt_ext s (q :: l) N (grow s1 a i q) l N'.
Proof.
  destruct grow_q_valid as (Hqv & Hql & HqN). destruct grow_a_valid as (Hav & Hal & Haq).
  split.
  - by apply insert_subseteq.
  - by exists [q].
  - intros va. unfold entry, leaf_page. rewrite lookup_insert. case_decide as E.
    + rewrite <- E, Hnone. apply grow_zero, PX_idx. lia.
    + destruct (N !! [PX 2 va; PX 1 va]) as [b|] eqn:Hb; [|done].
      destruct (pw_node _ _ _ _ Hwf _ _ Hb) as (_ & Hvb & Hbl).
      apply not_elem_of_cons in Hbl as [Hbq _].
      apply grow_other; auto with xv6; [|apply PX_idx; lia].
      intros ->. pose proof (pw_inj _ _ _ _ Hwf _ _ _ Hp Hb). subst. simpl in Hlen. lia.
  - intros r (Hrv & Hrl & HrN). apply not_elem_of_cons in Hrl as [Hrq Hrl].
    assert (Hra : r <> a) by (intros ->; by apply (HrN p)).
    split.
    + split_and!; auto. intros t. rewrite lookup_insert. case_decide; [congruence|apply HrN].
    + intros x Hx. apply grow_frame; eapply (valid_pages_disjoint r); eauto;
        try apply Hrv; apply Hqv || apply Hav.
  - intros x Hx. destruct Hqv as (_ & Hqk & _), Hav as (_ & Hak & _). apply grow_frame; unfold in_page; lia.
Qed.
End grow.

(** What an extension allocates: one free page for each new node, and new
    nodes only at the paths [P]. *)
Record pt_grown (l : list Z) (N : ptmap) (l' : list Z) (N' : ptmap) (P : list Z -> Prop) : Prop := {
  pg_count : (size N + length l = size N' + length l')%nat;
  pg_new : forall p, is_Some (N' !! p) -> is_Some (N !! p) \/ P p;
}.

(** The nodes below the root on the way to [v]. *)
Definition path_of (v : Z) (p : list Z) : Prop := p = [PX 2 v] \/ p = [PX 2 v; PX 1 v].

Lemma pt_grown_refl l N P : pt_grown l N l N P.
Proof. split; auto. Qed.

Lemma pt_grown_trans l1 N1 l2 N2 l3 N3 (P1 P2 P : list Z -> Prop) :
  pt_grown l1 N1 l2 N2 P1 -> pt_grown l2 N2 l3 N3 P2 -> (forall p, P1 p \/ P2 p -> P p) -> pt_grown l1 N1 l3 N3 P.
Proof.
  intros [C1 D1] [C2 D2] H. split; [lia|]. intros p Hp. destruct (D2 p Hp) as [H2|H2]; [|auto].
  destruct (D1 p H2); auto.
Qed.

(** *** walk *)
Lemma walk_step_ro s l root N p a level va :
  pt_wf s l root N -> N !! p = Some a -> (length p < 2)%nat -> 0 <= level ->
  walk_step level a va false s = (N !! (p ++ [PX level va]), s).
Proof.
  intros Hwf Hp Hlen Hl. unfold walk_step, pte_ptr.
  rewrite (pw_edge _ _ _ _ Hwf p a (PX level va) Hp Hlen (PX_idx _ _ Hl)).
  rewrite flag_set_V. by destruct (Z.testbit _ 0).
Qed.

Lemma walk_step_alloc s l root N p a level va :
  pt_wf s l root N -> N !! p = Some a -> (length p < 2)%nat -> 0 <= level ->
  exists r s' l' N',
    walk_step level a va true s = (r, s') /\ pt_wf s' l' root N' /\ pt_ext s l N s' l' N' /\
    pt_grown l N l' N' (fun q => q = p ++ [PX level va]) /\
    ((r = None /\ l' = []) \/ (exists b, r = Some b /\ N' !! (p ++ [PX level va]) = Some b)).
Proof.
  intros Hwf Hp Hlen Hl.
  pose proof (PX_idx level va Hl) as Hi.
  pose proof (pw_edge _ _ _ _ Hwf p a (PX level va) Hp Hlen Hi) as He. cbv zeta in He.
  unfold walk_step, pte_ptr. rewrite flag_set_V.
  destruct (Z.testbit _ 0).
  { eexists _, s, l, N. split; [done|]. split; [done|].
    split; [apply pt_ext_refl|]. split; [apply pt_grown_refl|]. right. eauto. }
  pose proof (kalloc_spec kend kend_pos s l (pw_kmem _ _ _ _ Hwf)) as Hk.
  destruct l as [|q l'].
  { rewrite Hk. eexists _, s, [], N. split; [done|]. split; [done|].
    split; [apply pt_ext_refl|]. split; [apply pt_grown_refl|]. by left. }
  destruct Hk as (s1 & -> & Hi1 & Hs1 & _).
  destruct (Z.eqb_spec q 0) as [->|_].
  { destruct (pw_kmem _ _ _ _ Hwf) as [_ _ Hv _].
    apply Forall_cons in Hv as [Hv _]. apply valid_page_range in Hv; [lia|done]. }
  eexists _, (grow s1 a (PX level va) q), l', _. split; [done|].
  split; [eapply grow_wf; eauto|]. split; [eapply grow_ext; eauto|].
  split.
  { split.
    - rewrite map_size_insert_None by done. cbn [length]. lia.
    - intros r. rewrite lookup_insert. case_decide; auto. }
  right. exists q. split; [done|]. apply lookup_insert_eq.
Qed.

Lemma walk_ro_spec s l root N va :
  pt_wf s l root N -> va < MAXVA ->
  walk root va false s =
  Ok (match leaf_page N va with Some a => a + 8 * PX 0 va | None => 0 end, s).
Proof.
  intros Hwf Hva. unfold walk. destruct (Z.leb_spec MAXVA va); [lia|].
  cbn [walk_loop]. change (Z.of_nat 2) with 2. change (Z.of_nat 1) with 1.
  rewrite (walk_step_ro s l root N [] root) by (auto; simpl; try lia; apply Hwf).
  simpl ([] ++ _). unfold leaf_page.
  destruct (N !! [PX 2 va]) as [b|] eqn:Hb.
  - rewrite (walk_step_ro s l root N [PX 2 va] b) by (auto; simpl; lia).
    simpl ([PX 2 va] ++ _). by destruct (N !! [PX 2 va; PX 1 va]).
  - destruct (N !! [PX 2 va; PX 1 va]) eqn:Hc; [|done].
    destruct (pw_closed _ _ _ _ Hwf [PX 2 va] (PX 1 va)) as [x Hx]; [by eexists; exact Hc|].
    congruence.
Qed.

Lemma walk_alloc_spec s l root N va :
  pt_wf s l root N -> va < MAXVA ->
  exists r s' l' N',
    walk root va true s = Ok (r, s') /\ pt_wf s' l' root N' /\ pt_ext s l N s' l' N' /\ pt_grown l N l' N' (path_of va) /\
    ((r = 0 /\ l' = []) \/
     (exists a, leaf_page N' va = Some a /\ r = a + 8 * PX 0 va /\ r <> 0)).
Proof.
  intros Hwf Hva. unfold walk. destruct (Z.leb_spec MAXVA va); [lia|].
  cbn [walk_loop].
  destruct (walk_step_alloc s l root N [] root (Z.of_nat 2) va) as
    (r1 & s1 & l1 & N1 & -> & Hwf1 & Hext1 & Hg1 & Hr1); auto; try (simpl; lia); [apply Hwf|].
  destruct Hr1 as [[-> ->]|(b & -> & Hb)].
  { eexists _, s1, [], N1. split; [done|]. split_and!; auto.
    eapply pt_grown_trans; [exact Hg1|apply (pt_grown_refl _ _ (fun _ => False))|]. intros p [->|[]]. by left. }
  destruct (walk_step_alloc s1 l1 root N1 [PX 2 va] b (Z.of_nat 1) va) as
    (r2 & s2 & l2 & N2 & -> & Hwf2 & Hext2 & Hg2 & Hr2); auto; try (simpl; lia).
  assert (pt_grown l N l2 N2 (path_of va)).
  { eapply pt_grown_trans; [exact Hg1|exact Hg2|]. intros p [->| ->]; [by left|by right]. }
  assert (pt_ext s l N s2 l2 N2) by (by eapply pt_ext_trans).
  destruct Hr2 as [[-> ->]|(c & -> & Hc)].
  { eexists _, s2, [], N2. split; [done|]. split_and!; auto. }
  eexists _, s2, l2, N2. split; [done|]. split_and!; auto.
  right. exists c. split; [exact Hc|]. split; [done|].
  destruct (pw_node _ _ _ _ Hwf2 _ _ Hc) as (_ & Hv & _).
  apply valid_page_range in Hv; auto. pose proof (PX_range 0 va ltac:(lia)).
  unfold pte_ptr. lia.
Qed.

(** *** mappages *)
Record pt_keep (l : list Z) (N : ptmap) (m : mem) (l' : list Z) (N' : ptmap) (m' : mem) : Prop := {
  pk_nodes : N ⊆ N';
  pk_free : exists c, l = c ++ l';
  pk_foreign : forall q, foreign l N q -> foreign l' N' q /\ page_eq q m m';
  pk_low : forall x, x < kend -> rd m' x = rd m x;
}.

Lemma pt_keep_trans l1 N1 m1 l2 N2 m2 l3 N3 m3 :
  pt_keep l1 N1 m1 l2 N2 m2 -> pt_keep l2 N2 m2 l3 N3 m3 -> pt_keep l1 N1 m1 l3 N3 m3.
Proof.
  intros [A1 [c1 B1] D1 L1] [A2 [c2 B2] D2 L2]. split.
  - by trans N2.
  - exists (c1 ++ c2). by rewrite B1, B2, app_assoc.
  - intros q Hq. destruct (D1 q Hq) as [Hq2 E1]. destruct (D2 q Hq2) as [Hq3 E2].
    split; [done|]. intros x Hx. by rewrite E2, E1.
  - intros x Hx. by rewrite L2, L1.
Qed.

Lemma pt_ext_keep s l N s' l' N' :
  pt_ext s l N s' l' N' -> pt_keep l N (kmem_mem s) l' N' (kmem_mem s').
Proof. intros [A B _ D L]. by split. Qed.

Lemma pt_keep_store_leaf s l root N p a i v :
  pt_wf s l root N -> N !! p = Some a -> idx i ->
  pt_keep l N (kmem_mem s) l N (store64 (kmem_mem s) (a + 8 * i) v).
Proof.
  intros Hwf Hp Hi. destruct (pw_node _ _ _ _ Hwf p a Hp) as (_ & Hva & _). split; [done|by exists []| |].
  2: { intros x Hx. apply (store64_same_except a i); [done|]. destruct Hva as (_ & Hk & _). unfold in_page. lia. }
  intros q (Hqv & Hql & HqN). split; [done|].
  eapply page_eq_of_same_except; [exact Hva|exact Hqv| |by apply store64_same_except].
  intros ->. by apply (HqN p).
Qed.

Definition leaf_pte (pa perm : Z) : Z := Z.lor (Z.lor (PA2PTE pa) perm) PTE_V.

Lemma leaf_pte_facts pa perm :
  0 <= pa < 2 ^ 56 -> pa mod 4096 = 0 -> 0 <= perm < 1024 ->
  0 <= leaf_pte pa perm < 2 ^ 64 /\ PTE2PA (leaf_pte pa perm) = pa /\
  PTE_FLAGS (leaf_pte pa perm) = Z.lor perm PTE_V /\
  (forall n, 0 <= n < 10 -> Z.testbit (leaf_pte pa perm) n = Z.testbit (Z.lor perm PTE_V) n).
Proof.
  intros Hpa Ha Hp. unfold leaf_pte. rewrite <- Z.lor_assoc.
  pose proof (lor_small perm PTE_V Hp PTE_V_small).
  split_and!; [apply pte_make_range|apply pte_make_range|apply PTE2PA_make
    |apply PTE_FLAGS_make|intros; apply pte_make_testbit]; auto.
Qed.

Lemma same_vpage_aligned va va' :
  0 <= va < MAXVA -> va mod 4096 = 0 -> 0 <= va' < MAXVA ->
  (va <= va' < va + 4096 <-> same_vpage va va').
Proof.
  intros Hva Hal Hva'. split.
  - intros Hin. unfold same_vpage. rewrite !PX_eq by lia.
    change (12 + 9 * 2) with 30. change (12 + 9 * 1) with 21. change (12 + 9 * 0) with 12.
    split_and!; f_equal; zsolve.
  - intros Hs. apply same_vpage_div in Hs; auto. zsolve.
Qed.

Lemma mappages_loop_spec n s l root N a pa perm :
  pt_wf s l root N -> (0 < n)%nat ->
  0 <= a -> a mod 4096 = 0 -> a + 4096 * Z.of_nat n <= MAXVA ->
  0 <= pa -> pa mod 4096 = 0 -> pa + 4096 * Z.of_nat n <= 2 ^ 56 -> 0 <= perm < 1024 ->
  (forall va, a <= va < a + 4096 * Z.of_nat n -> Z.testbit (entry (kmem_mem s) N va) 0 = false) ->
  exists r s' l' N' k,
    mappages_loop n root a (a + 4096 * (Z.of_nat n - 1)) pa perm s = Ok (r, s') /\
    pt_wf s' l' root N' /\ pt_keep l N (kmem_mem s) l' N' (kmem_mem s') /\
    pt_grown l N l' N' (fun p => exists v, a <= v < a + 4096 * Z.of_nat n /\ path_of v p) /\
    0 <= k <= Z.of_nat n /\
    ((r = 0 /\ k = Z.of_nat n) \/ (r = -1 /\ k < Z.of_nat n /\ l' = [])) /\
    (forall va, 0 <= va < MAXVA -> entry (kmem_mem s') N' va =
       if (a <=? va) && (va <? a + 4096 * k)
       then leaf_pte (pa + (va - a) / 4096 * 4096) perm else entry (kmem_mem s) N va).
Proof.
  revert s l N a pa. induction n as [|n IH]; intros s l N a pa Hwf Hn Ha Hal Hmax Hpa Hpal Hpmax Hperm Hfree; [lia|].
  cbn [mappages_loop].
  assert (Hmv : a < MAXVA) by lia.
  destruct (walk_alloc_spec s l root N a Hwf Hmv) as (r & s1 & l1 & N1 & -> & Hwf1 & Hext & Hg1 & Hr).
  assert (Hg1' : pt_grown l N l1 N1 (fun p => exists v, a <= v < a + 4096 * Z.of_nat (S n) /\ path_of v p)).
  { eapply pt_grown_trans; [exact Hg1|apply (pt_grown_refl _ _ (fun _ => False))|]. intros p [Hp|[]]. exists a. split; [lia|done]. }
  cbn [rbind]. destruct Hr as [[-> ->]|(b & Hb & -> & Hnz)].
  { exists (-1), s1, [], N1, 0. split_and!; auto; try lia.
    - by apply pt_ext_keep.
    - right. split_and!; auto; lia.
    - intros va Hva. rewrite (pe_entry _ _ _ _ _ _ Hext). repeat bcase; simpl; try done; lia. }
  destruct (Z.eqb_spec (b + 8 * PX 0 a) 0); [done|].
  assert (He : load64 (kmem_mem s1) (b + 8 * PX 0 a) = entry (kmem_mem s1) N1 a).
  { unfold entry. by rewrite Hb. }
  rewrite flag_set_V, He, (pe_entry _ _ _ _ _ _ Hext), Hfree by lia.
  fold (leaf_pte pa perm).
  destruct (leaf_pte_facts pa perm) as (Hv & _); [pow2; lia|done|done|].
  set (s2 := set_mem s1 (store64 (kmem_mem s1) (b + 8 * PX 0 a) (leaf_pte pa perm))).
  assert (Hi0 : idx (PX 0 a)) by (apply PX_idx; lia).
  assert (Hwf2 : pt_wf s2 l1 root N1) by (eapply pt_wf_store_leaf; eauto).
  assert (Hk2 : pt_keep l N (kmem_mem s) l1 N1 (kmem_mem s2)).
  { eapply pt_keep_trans; [by apply pt_ext_keep|]. by eapply pt_keep_store_leaf. }
  assert (Hent : forall va, 0 <= va < MAXVA -> entry (kmem_mem s2) N1 va =
            if (a <=? va) && (va <? a + 4096) then leaf_pte pa perm else entry (kmem_mem s) N va).
  { intros va Hva. destruct (entry_store_leaf s1 l1 root N1 a b (leaf_pte pa perm) va Hwf1 Hb Hv) as [E1 E2].
    pose proof (same_vpage_aligned a va ltac:(lia) Hal Hva) as Hs.
    destruct (Z.leb_spec a va), (Z.ltb_spec va (a + 4096)); cbn [andb];
      try (apply E1, Hs; lia);
      (rewrite <- (pe_entry _ _ _ _ _ _ Hext); apply E2; rewrite <- Hs; lia). }
  destruct (Z.eqb_spec a (a + 4096 * (Z.of_nat (S n) - 1))) as [Hlast|Hlast].
  - assert (n = O) as -> by lia.
    exists 0, s2, l1, N1, 1. split_and!; auto; try lia.
    intros va Hva. rewrite Hent by done. rewrite Z.mul_1_r.
    destruct (Z.leb_spec a va), (Z.ltb_spec va (a + 4096)); cbn [andb]; try done.
    rewrite (Z.div_small (va - a)) by lia. by rewrite Z.add_0_r.
  - rewrite (u64_small (a + PGSIZE)), (u64_small (pa + PGSIZE))
      by (change MAXVA with 274877906944 in *; unfold PGSIZE; pow2; lia).
    change PGSIZE with 4096.
    replace (a + 4096 * (Z.of_nat (S n) - 1)) with ((a + 4096) + 4096 * (Z.of_nat n - 1)) by lia.
    destruct (IH s2 l1 N1 (a + 4096) (pa + 4096)) as
      (r & s' & l' & N' & k & -> & Hwf' & Hk' & Hg' & Hkr & Hr & Hent'); auto; try lia; try zsolve.
    { intros va Hva. rewrite Hent by lia. repeat bcase; cbn [andb]; try lia; apply Hfree; lia. }
    exists r, s', l', N', (k + 1). split_and!; auto; try lia.
    + by eapply pt_keep_trans.
    + eapply pt_grown_trans; [exact Hg1|exact Hg'|]. intros p [Hp|(v & Hv1 & Hp)]; [exists a|exists v]; (split; [lia|done]).
    + destruct Hr as [[-> ->]|(-> & ? & ->)]; [left; split; lia|right; split_and!; auto; lia].
    + intros va Hva. rewrite Hent', Hent by done.
      destruct (decide (a <= va < a + 4096)).
      * repeat bcase; cbn [andb]; try lia.
        rewrite (Z.div_small (va - a)) by lia. by rewrite Z.add_0_r.
      * repeat bcase; cbn [andb]; try lia; try done. f_equal. zsolve.
Qed.

Lemma mappages_grown s l root N va size pa perm :
  pt_wf s l root N ->
  0 <= va -> va mod PGSIZE = 0 -> 0 < size -> size mod PGSIZE = 0 -> va + size <= MAXVA ->
  0 <= pa -> pa mod PGSIZE = 0 -> pa + size <= 2 ^ 56 -> 0 <= perm < 1024 ->
  (forall v, va <= v < va + size -> Z.testbit (entry (kmem_mem s) N v) 0 = false) ->
  exists r s' l' N' k,
    mappages root va size pa perm s = Ok (r, s') /\
    pt_wf s' l' root N' /\ pt_keep l N (kmem_mem s) l' N' (kmem_mem s') /\
    pt_grown l N l' N' (fun p => exists v, va <= v < va + size /\ path_of v p) /\
    k mod 4096 = 0 /\ ((r = 0 /\ k = size) \/ (r = -1 /\ 0 <= k < size /\ l' = [])) /\
    (forall v, 0 <= v < MAXVA -> entry (kmem_mem s') N' v =
       if (va <=? v) && (v <? va + k)
       then leaf_pte (pa + (v - va) / 4096 * 4096) perm else entry (kmem_mem s) N v).
Proof.
  intros Hwf Hva Hval Hsz Hszal Hmax Hpa Hpal Hpmax Hperm Hfree. unfold mappages.
  rewrite Hval, Hszal. change (negb (0 =? 0)) with false. cbv iota.
  destruct (Z.eqb_spec size 0); [lia|]. change PGSIZE with 4096 in *.
  destruct (mappages_loop_spec (Z.to_nat (size / 4096)) s l root N va pa perm) as
    (r & s' & l' & N' & k & E & Hwf' & Hk & Hg & Hkr & Hr & Hent); auto; try zsolve.
  { intros v Hv. apply Hfree. zsolve. }
  replace (u64 (va + size - 4096)) with (va + 4096 * (Z.of_nat (Z.to_nat (size / 4096)) - 1)).
  2: { change MAXVA with 274877906944 in *. rewrite u64_small; zsolve. }
  rewrite E. exists r, s', l', N', (4096 * k). split_and!; auto; [|zsolve|].
  { eapply pt_grown_trans; [exact Hg|apply (pt_grown_refl _ _ (fun _ => False))|]. intros p [(v & Hv & Hp)|[]]. exists v. split; [zsolve|done]. }
  destruct Hr as [[-> ->]|(-> & ? & ->)]; [left; split; zsolve|right; split_and!; auto; zsolve].
Qed.

Lemma mappages_spec s l root N va size pa perm :
  pt_wf s l root N ->
  0 <= va -> va mod PGSIZE = 0 -> 0 < size -> size mod PGSIZE = 0 -> va + size <= MAXVA ->
  0 <= pa -> pa mod PGSIZE = 0 -> pa + size <= 2 ^ 56 -> 0 <= perm < 1024 ->
  (forall v, va <= v < va + size -> Z.testbit (entry (kmem_mem s) N v) 0 = false) ->
  exists r s' l' N' k,
    mappages root va size pa perm s = Ok (r, s') /\
    pt_wf s' l' root N' /\ pt_keep l N (kmem_mem s) l' N' (kmem_mem s') /\
    k mod 4096 = 0 /\ ((r = 0 /\ k = size) \/ (r = -1 /\ 0 <= k < size /\ l' = [])) /\
    (forall v, 0 <= v < MAXVA -> entry (kmem_mem s') N' v =
       if (va <=? v) && (v <? va + k)
       then leaf_pte (pa + (v - va) / 4096 * 4096) perm else entry (kmem_mem s) N v).
Proof.
  intros Hwf Hva Hval Hsz Hszal Hmax Hpa Hpal Hpmax Hperm Hfree.
  destruct (mappages_grown s l root N va size pa perm) as (r & s' & l' & N' & k & E & H1 & H2 & _ & H3); auto.
  by exists r, s', l', N', k.
Qed.

(** *** Data writes outside the table and the free list *)
Lemma pt_wf_agree s l root N m' :
  pt_wf s l root N ->
  (forall p a, N !! p = Some a -> page_eq a (kmem_mem s) m') ->
  (forall q, q ∈ l -> page_eq q (kmem_mem s) m') -> mem_bytes m' ->
  pt_wf (set_mem s m') l root N /\
  (forall va, entry m' N va = entry (kmem_mem s) N va).
Proof.
  intros Hwf HN Hl Hb.
  assert (Hld : forall p a i, N !! p = Some a -> idx i ->
            load64 m' (a + 8 * i) = load64 (kmem_mem s) (a + 8 * i)).
  { intros p a i Hp Hi. apply load64_ext. intros x Hx. apply (HN p a Hp). by eapply slot_in_page. }
  split; [split; try apply Hwf|].
  - destruct (pw_kmem _ _ _ _ Hwf) as [Hr Hn Hv _]. split; simpl; auto.
    by apply (freelist_rep_agree (kmem_mem s)).
  - intros p a i Hp Hlen Hi. cbv zeta. simpl. rewrite (Hld p a i) by done.
    by apply (pw_edge _ _ _ _ Hwf).
  - intros va. unfold entry. destruct (leaf_page N va) as [a|] eqn:Ha; [|done].
    apply (Hld _ _ _ Ha), PX_idx. lia.
Qed.

Lemma foreign_not_node l N q p : foreign l N q -> N !! p <> Some q.
Proof. intros (_ & _ & H). apply H. Qed.

(** A write confined to one foreign page keeps table, free list and entries. *)
Lemma foreign_write s l root N q m' :
  pt_wf s l root N -> foreign l N q -> same_except q (kmem_mem s) m' -> mem_bytes m' ->
  pt_wf (set_mem s m') l root N /\ (forall va, entry m' N va = entry (kmem_mem s) N va).
Proof.
  intros Hwf (Hqv & Hql & HqN) Hs Hb. apply pt_wf_agree; auto.
  - intros p b Hb'. destruct (pw_node _ _ _ _ Hwf p b Hb') as (_ & Hbv & _).
    apply (page_eq_of_same_except q); auto. intros ->. by apply (HqN p).
  - intros r Hr. destruct (pw_kmem _ _ _ _ Hwf) as [_ _ Hv _].
    rewrite Forall_forall in Hv. apply (page_eq_of_same_except q); auto.
    by intros ->.
Qed.

(** The free list changes, memory outside page [q] does not. *)
Lemma pt_wf_realloc s l root N s1 l1 q :
  pt_wf s l root N -> kmem_inv kend s1 l1 -> valid_page kend q ->
  (forall p, N !! p <> Some q) -> same_except q (kmem_mem s) (kmem_mem s1) ->
  (forall p a, N !! p = Some a -> a ∉ l1) ->
  pt_wf s1 l1 root N /\ (forall va, entry (kmem_mem s1) N va = entry (kmem_mem s) N va).
Proof.
  intros Hwf Hi1 Hqv HqN Hs Hl1.
  assert (Hld : forall p b i, N !! p = Some b -> idx i ->
            load64 (kmem_mem s1) (b + 8 * i) = load64 (kmem_mem s) (b + 8 * i)).
  { intros p b i Hp Hi. destruct (pw_node _ _ _ _ Hwf p b Hp) as (_ & Hbv & _).
    apply (load64_other_page q b); auto. intros ->. by apply (HqN p). }
  split; [split; try apply Hwf; auto|].
  - intros p b Hb. destruct (pw_node _ _ _ _ Hwf p b Hb) as (? & ? & _). eauto.
  - intros p b i Hb Hlen Hi. cbv zeta. rewrite (Hld p) by done. by apply (pw_edge _ _ _ _ Hwf).
  - intros va. unfold entry. destruct (leaf_page N va) as [b|] eqn:Hb; [|done].
    apply (Hld _ _ _ Hb), PX_idx. lia.
Qed.

Lemma pt_wf_kalloc s q l root N :
  pt_wf s (q :: l) root N ->
  exists s1, kalloc s = (q, s1) /\ pt_wf s1 l root N /\ foreign l N q /\ q <> 0 /\
    (forall va, entry (kmem_mem s1) N va = entry (kmem_mem s) N va) /\
    same_except q (kmem_mem s) (kmem_mem s1).
Proof.
  intros Hwf. destruct (kalloc_spec kend kend_pos s _ (pw_kmem _ _ _ _ Hwf)) as (s1 & E & Hi1 & Hs & _).
  destruct (pw_kmem _ _ _ _ Hwf) as [_ Hnd Hv _].
  apply NoDup_cons in Hnd as [Hql _]. apply Forall_cons in Hv as [Hqv _].
  assert (HqN : forall p, N !! p <> Some q).
  { intros p Hp. destruct (pw_node _ _ _ _ Hwf p q Hp) as (_ & _ & Hc). apply Hc. left. }
  destruct (pt_wf_realloc s (q :: l) root N s1 l q) as [Hwf1 He]; auto.
  { intros p a Hp. destruct (pw_node _ _ _ _ Hwf p a Hp) as (_ & _ & Hc).
    by apply not_elem_of_cons in Hc as [_ ?]. }
  exists s1. split_and!; auto; [by split|]. apply valid_page_range in Hqv; [lia|done].
Qed.

Lemma pt_wf_kalloc_none s root N : pt_wf s [] root N -> kalloc s = (0, s).
Proof. intros Hwf. apply (kalloc_spec kend kend_pos s [] (pw_kmem _ _ _ _ Hwf)). Qed.

Lemma pt_wf_kfree s l root N q :
  pt_wf s l root N -> foreign l N q ->
  exists s1, kfree kend q s = Ok s1 /\ pt_wf s1 (q :: l) root N /\
    (forall va, entry (kmem_mem s1) N va = entry (kmem_mem s) N va) /\
    same_except q (kmem_mem s) (kmem_mem s1).
Proof.
  intros Hwf (Hqv & Hql & HqN).
  destruct (kfree_spec kend kend_pos q s l (pw_kmem _ _ _ _ Hwf) Hqv Hql) as (s1 & E & Hi1 & Hs).
  exists s1. destruct (pt_wf_realloc s l root N s1 (q :: l) q) as [Hwf1 He]; auto.
  intros p a Hp. destruct (pw_node _ _ _ _ Hwf p a Hp) as (_ & _ & Hc).
  apply not_elem_of_cons. split; [|done]. intros ->. by apply (HqN p).
Qed.

(** *** Unmapping

    Entries of pages that leave the table; their frames go to the free list. *)
Lemma unmap_page_spec s l root N va e q :
  pt_wf s l root N -> 0 <= va < MAXVA -> va mod 4096 = 0 ->
  e = entry (kmem_mem s) N va -> Z.testbit e 0 = true -> PTE_FLAGS e <> PTE_V ->
  q = PTE2PA e -> foreign l N q ->
  exists s', unmap_page kend root va true s = Ok s' /\ pt_wf s' (q :: l) root N /\
    (forall v, 0 <= v < MAXVA -> entry (kmem_mem s') N v =
       if (va <=? v) && (v <? va + 4096) then 0 else entry (kmem_mem s) N v) /\
    (forall r, foreign (q :: l) N r -> page_eq r (kmem_mem s) (kmem_mem s')).
Proof.
  intros Hwf Hva Hal -> Hvalid Hflags -> Hq. set (q := PTE2PA _) in *.
  unfold unmap_page. rewrite (walk_ro_spec s l root N) by (done || lia). cbn [rbind].
  assert (Hent := eq_refl (entry (kmem_mem s) N va)). unfold entry at 1 in Hent.
  destruct (leaf_page N va) as [a|] eqn:Ha; [|rewrite <- Hent in Hvalid; done].
  destruct (pw_node _ _ _ _ Hwf _ _ Ha) as (_ & Hav & Hal').
  destruct (valid_page_range kend kend_pos a Hav) as [Har _].
  pose proof (PX_range 0 va ltac:(lia)) as Hpx.
  destruct (Z.eqb_spec (a + 8 * PX 0 va) 0); [lia|].
  rewrite Hent, flag_set_V, Hvalid. cbn [negb]. fold q.
  destruct (Z.eqb_spec (PTE_FLAGS (entry (kmem_mem s) N va)) PTE_V); [done|].
  destruct (pt_wf_kfree s l root N q Hwf Hq) as (s1 & -> & Hwf1 & He1 & Hs1).
  cbn [rbind]. eexists. split; [done|]. destruct Hq as (Hqv & Hql & HqN).
  split; [|split].
  - by eapply pt_wf_store_leaf; eauto.
  - intros v Hv. destruct (entry_store_leaf s1 (q :: l) root N va a 0 v Hwf1 Ha ltac:(pow2; lia)) as [E1 E2].
    pose proof (same_vpage_aligned va v Hva Hal Hv) as Hs.
    destruct (Z.leb_spec va v), (Z.ltb_spec v (va + 4096)); cbn [andb];
      try (apply E1, Hs; lia);
      (rewrite <- He1; apply E2; rewrite <- Hs; lia).
  - intros r (Hrv & Hrl & HrN). apply not_elem_of_cons in Hrl as [Hrq Hrl].
    intros x Hx. cbn [set_mem kmem_mem].
    rewrite (store64_same_except a (PX 0 va) _ _ (PX_idx 0 va ltac:(lia))).
    + apply (page_eq_of_same_except q r); auto.
    + eapply (valid_pages_disjoint r a); [apply Hrv|apply Hav| |done].
      intros ->. by apply (HrN [PX 2 va; PX 1 va]).
Qed.

(** The frames of [n] consecutive pages. *)
Fixpoint frames (E : Z -> Z) (a : Z) (n : nat) : list Z :=
  match n with
  | O => []
  | S n' => PTE2PA (E a) :: frames E (a + 4096) n'
  end.

Lemma frames_ext E E' a n :
  (forall k, 0 <= k < Z.of_nat n -> E (a + 4096 * k) = E' (a + 4096 * k)) ->
  frames E a n = frames E' a n.
Proof.
  revert a; induction n as [|n IH]; intros a H; simpl; [done|]. f_equal.
  - specialize (H 0 ltac:(lia)). by rewrite Z.mul_0_r, Z.add_0_r in H; rewrite H.
  - apply IH. intros k Hk. replace (a + 4096 + 4096 * k) with (a + 4096 * (k + 1)) by lia.
    apply H. lia.
Qed.

Lemma frames_snoc E a n :
  frames E a (S n) = frames E a n ++ [PTE2PA (E (a + 4096 * Z.of_nat n))].
Proof.
  revert a; induction n as [|n IH]; intros a.
  - cbn [frames app]. by rewrite Z.mul_0_r, Z.add_0_r.
  - change (frames E a (S (S n))) with (PTE2PA (E a) :: frames E (a + 4096) (S n)).
    rewrite IH. cbn [frames app].
    by replace (a + 4096 + 4096 * Z.of_nat n) with (a + 4096 * Z.of_nat (S n)) by lia.
Qed.

Lemma elem_of_frames E a n q :
  q ∈ frames E a n <-> exists k, 0 <= k < Z.of_nat n /\ q = PTE2PA (E (a + 4096 * k)).
Proof.
  induction n as [|n IH].
  - simpl. split; [intros H; by apply not_elem_of_nil in H|]. intros (k & Hk & _). lia.
  - rewrite frames_snoc, elem_of_app, list_elem_of_singleton, IH. split.
    + intros [(k & Hk & ->)| ->]; eexists; (split; [|done]); lia.
    + intros (k & Hk & ->). destruct (decide (k = Z.of_nat n)) as [->|]; [by right|].
      left. exists k. split; [lia|done].
Qed.

Lemma uvmunmap_loop_spec n s l root N a :
  pt_wf s l root N -> 0 <= a -> a mod 4096 = 0 -> a + 4096 * Z.of_nat n <= MAXVA ->
  (forall k, 0 <= k < Z.of_nat n ->
     Z.testbit (entry (kmem_mem s) N (a + 4096 * k)) 0 = true /\
     PTE_FLAGS (entry (kmem_mem s) N (a + 4096 * k)) <> PTE_V) ->
  NoDup (frames (entry (kmem_mem s) N) a n) ->
  Forall (foreign l N) (frames (entry (kmem_mem s) N) a n) ->
  exists s', uvmunmap_loop kend n root a (a + 4096 * Z.of_nat n) true s = Ok s' /\
    pt_wf s' (reverse (frames (entry (kmem_mem s) N) a n) ++ l) root N /\
    (forall v, 0 <= v < MAXVA -> entry (kmem_mem s') N v =
       if (a <=? v) && (v <? a + 4096 * Z.of_nat n) then 0 else entry (kmem_mem s) N v) /\
    (forall r, foreign (reverse (frames (entry (kmem_mem s) N) a n) ++ l) N r ->
       page_eq r (kmem_mem s) (kmem_mem s')).
Proof.
  revert s l a. induction n as [|n IH]; intros s l a Hwf Ha Hal Hmax Hmap Hnd Hfor; cbn [uvmunmap_loop frames].
  { destruct (Z.ltb_spec a (a + 4096 * Z.of_nat 0)); [lia|]. exists s. split_and!; auto.
    - intros v Hv. repeat bcase; simpl; try done; lia.
    - by intros r _ x. }
  destruct (Z.ltb_spec a (a + 4096 * Z.of_nat (S n))); [|lia].
  cbn [frames] in Hnd, Hfor. apply NoDup_cons in Hnd as [Hni Hnd].
  apply Forall_cons in Hfor as [Hq Hfor].
  destruct (Hmap 0 ltac:(lia)) as [Hv0 Hf0]. rewrite Z.mul_0_r, Z.add_0_r in Hv0, Hf0.
  set (q := PTE2PA (entry (kmem_mem s) N a)) in *.
  destruct (unmap_page_spec s l root N a _ q Hwf ltac:(lia) Hal eq_refl Hv0 Hf0 eq_refl Hq)
    as (s1 & -> & Hwf1 & Hent1 & Hfr1).
  cbn [rbind]. change PGSIZE with 4096.
  rewrite (u64_small (a + 4096)) by (change MAXVA with 274877906944 in *; pow2; lia).
  replace (a + 4096 * Z.of_nat (S n)) with ((a + 4096) + 4096 * Z.of_nat n) by lia.
  assert (Hsame : forall k, 0 <= k < Z.of_nat n ->
     entry (kmem_mem s1) N (a + 4096 + 4096 * k) = entry (kmem_mem s) N (a + 4096 + 4096 * k)).
  { intros k Hk. rewrite Hent1 by lia. repeat bcase; cbn [andb]; try done; lia. }
  assert (Hfe : frames (entry (kmem_mem s1) N) (a + 4096) n = frames (entry (kmem_mem s) N) (a + 4096) n).
  { by apply frames_ext. }
  destruct (IH s1 (q :: l) (a + 4096)) as (s' & -> & Hwf' & Hent' & Hfr'); auto; try lia; try zsolve.
  { intros k Hk. rewrite Hsame by done.
    replace (a + 4096 + 4096 * k) with (a + 4096 * (k + 1)) by lia. apply Hmap. lia. }
  { by rewrite Hfe. }
  { rewrite Hfe. apply Forall_forall. intros r Hr. rewrite Forall_forall in Hfor.
    destruct (Hfor r Hr) as (? & ? & ?). split_and!; auto.
    apply not_elem_of_cons. split; [|done]. by intros ->. }
  rewrite Hfe in Hwf', Hfr'.
  exists s'. rewrite reverse_cons, <- app_assoc. split_and!; auto.
  - intros v Hv. rewrite Hent', Hent1 by lia. repeat bcase; cbn [andb]; try done; lia.
  - intros r Hr x Hx. rewrite (Hfr' r Hr x Hx). apply (Hfr1 r); [|done].
    destruct Hr as (? & Hr & ?). split_and!; auto.
    rewrite elem_of_app in Hr. tauto.
Qed.

(** *** Copying between the kernel and user memory *)

Definition user_pte (e : Z) : bool := Z.testbit e 0 && Z.testbit e 4.

(** Physical address of a user byte. *)
Definition uaddr (E : Z -> Z) (va : Z) : Z := PTE2PA (E va) + va mod 4096.

(** The isolation invariant: a page a user may touch is a frame of its own,
    neither a page-table page nor a free page, and no two pages share one. *)
Record user_ok (E : Z -> Z) (l : list Z) (N : ptmap) : Prop := {
  uo_foreign : forall va, 0 <= va < MAXVA -> user_pte (E va) = true -> foreign l N (PTE2PA (E va));
  uo_inj : forall va va', 0 <= va < MAXVA -> 0 <= va' < MAXVA ->
             user_pte (E va) = true -> user_pte (E va') = true ->
             PTE2PA (E va) = PTE2PA (E va') -> va / 4096 = va' / 4096;
}.

(** A kernel buffer that is disjoint from every user frame. *)
Definition outside_user (E : Z -> Z) (src len : Z) : Prop :=
  forall va x, 0 <= va < MAXVA -> user_pte (E va) = true -> src <= x < src + len ->
    ~ in_page (PTE2PA (E va)) x.

Lemma entry_same_page m N va va' :
  0 <= va < MAXVA -> 0 <= va' < MAXVA -> va / 4096 = va' / 4096 ->
  entry m N va = entry m N va'.
Proof.
  intros H H' Hd. unfold entry, leaf_page.
  assert (Hs : same_vpage (va / 4096 * 4096) va /\ same_vpage (va / 4096 * 4096) va').
  { split; apply same_vpage_aligned; change MAXVA with 274877906944 in *; zsolve. }
  destruct Hs as [(A2 & A1 & A0) (B2 & B1 & B0)].
  by rewrite <- A2, <- A1, <- A0, B2, B1, B0.
Qed.

Lemma uaddr_in_page E va : 0 <= va -> in_page (PTE2PA (E va)) (uaddr E va).
Proof. intros. unfold in_page, uaddr, PGSIZE. zsolve. Qed.

Section copyout.
Context (root : Z) (N : ptmap) (l : list Z) (E : Z -> Z) (Huo : user_ok E l N).
Context (Esame : forall va va', 0 <= va < MAXVA -> 0 <= va' < MAXVA ->
                   va / 4096 = va' / 4096 -> E va = E va').

(** A user byte may be written by copyout. *)
Definition writable (va : Z) : Prop :=
  0 <= va < MAXVA /\ user_pte (E va) = true /\ Z.testbit (E va) 2 = true.

Lemma copyout_loop_spec fuel s dstva src len :
  pt_wf s l root N -> (forall va, entry (kmem_mem s) N va = E va) ->
  0 <= dstva < 2 ^ 64 -> dstva mod 4096 + len <= 4096 * Z.of_nat fuel ->
  exists r s',
    copyout_loop fuel root dstva src len s = Ok (r, s') /\ (r = 0 \/ r = -1) /\
    pt_wf s' l root N /\ (forall va, entry (kmem_mem s') N va = E va) /\
    (forall x, rd (kmem_mem s') x = rd (kmem_mem s) x \/
       exists va, dstva <= va < dstva + len /\ writable va /\ x = uaddr E va) /\
    (r = -1 -> exists i, 0 <= i < len /\ ~ writable (dstva + i)) /\
    (r = 0 -> outside_user E src len -> forall i, 0 <= i < len ->
       writable (dstva + i) /\ rd (kmem_mem s') (uaddr E (dstva + i)) = rd (kmem_mem s) (src + i)).
Proof.
  revert s dstva src len. induction fuel as [|fuel IH]; intros s dstva src len Hwf HE Hd Hf;
    cbn [copyout_loop].
  { destruct (Z.ltb_spec 0 len); [zsolve|]. exists 0, s. split_and!; auto; intros; lia. }
  destruct (Z.ltb_spec 0 len) as [Hlen|Hlen].
  2: { exists 0, s. split_and!; auto; intros; lia. }
  destruct (PGROUNDDOWN_spec dstva) as [Hal Hpd].
  assert (Hpd0 : dstva = PGROUNDDOWN dstva + dstva mod 4096) by (rewrite PGROUNDDOWN_eq; zsolve).
  set (va0 := PGROUNDDOWN dstva) in *.
  assert (Hva0 : 0 <= va0) by zsolve.
  assert (Hfail : ~ writable dstva -> exists i, 0 <= i < len /\ ~ writable (dstva + i)).
  { intros Hw. exists 0. rewrite Z.add_0_r. split; [lia|done]. }
  destruct (Z.leb_spec MAXVA va0).
  { exists (-1), s. split_and!; auto; try (intros; lia). intros _. apply Hfail.
    intros [? _]. lia. }
  assert (Hdm : dstva < MAXVA) by (change MAXVA with 274877906944 in *; zsolve).
  assert (HE0 : E dstva = E va0).
  { apply Esame; change MAXVA with 274877906944 in *; zsolve. }
  rewrite (walk_ro_spec s l root N) by done. cbn [rbind].
  assert (Hent := eq_refl (entry (kmem_mem s) N va0)). unfold entry at 1 in Hent.
  rewrite HE in Hent.
  destruct (leaf_page N va0) as [a|] eqn:Ha.
  2: { rewrite Z.eqb_refl. cbn [orb]. exists (-1), s. split_and!; auto; try (intros; lia).
       intros _. apply Hfail. intros (_ & Hu & _). rewrite HE0, <- Hent in Hu. done. }
  rewrite Hent, flag_set_V, flag_set_U, flag_set_W.
  destruct (pw_node _ _ _ _ Hwf _ _ Ha) as (_ & Hav & _).
  destruct (valid_page_range kend kend_pos a Hav) as [Har _].
  pose proof (PX_range 0 va0 ltac:(lia)) as Hpx.
  destruct (Z.eqb_spec (a + 8 * PX 0 va0) 0) as [|Hnz]; [lia|]. cbn [orb].
  destruct (Z.testbit (E va0) 0) eqn:HV; cbn [negb orb].
  2: { exists (-1), s. split_and!; auto; try (intros; lia). intros _. apply Hfail.
       intros (_ & Hu & _). rewrite HE0 in Hu. unfold user_pte in Hu.
       rewrite ?HV, ?andb_false_r in Hu. done. }
  destruct (Z.testbit (E va0) 4) eqn:HU; cbn [negb orb].
  2: { exists (-1), s. split_and!; auto; try (intros; lia). intros _. apply Hfail.
       intros (_ & Hu & _). rewrite HE0 in Hu. unfold user_pte in Hu.
       rewrite ?HU, ?andb_false_r in Hu. done. }
  destruct (Z.testbit (E va0) 2) eqn:HW; cbn [negb orb].
  2: { exists (-1), s. split_and!; auto; try (intros; lia). intros _. apply Hfail.
       intros (_ & _ & Hu). rewrite HE0 in Hu. unfold user_pte in Hu.
       rewrite ?HW, ?andb_false_r in Hu. done. }
  assert (Hpage : forall i, 0 <= i < va0 + 4096 - dstva -> E (dstva + i) = E va0).
  { intros i Hi. apply Esame; change MAXVA with 274877906944 in *; zsolve. }
  assert (Hup : user_pte (E va0) = true) by (unfold user_pte; by rewrite HV, HU).
  assert (Hq : foreign l N (PTE2PA (E va0))) by (apply Huo; auto; lia).
  change PGSIZE with 4096. set (q := PTE2PA (E va0)) in *.
  set (n := if len <? 4096 - (dstva - va0) then len else 4096 - (dstva - va0)).
  assert (Hn : 0 < n <= len /\ n <= 4096 - (dstva - va0) /\ (n = len \/ n = 4096 - (dstva - va0))).
  { unfold n. destruct (Z.ltb_spec len (4096 - (dstva - va0))); lia. }
  clearbody n.
  set (m1 := memmove (kmem_mem s) (q + (dstva - va0)) src n).
  assert (Hm1 : forall x, rd m1 x = if (q + (dstva - va0) <=? x) && (x <? q + (dstva - va0) + n)
                  then rd (kmem_mem s) (x - (q + (dstva - va0)) + src) else rd (kmem_mem s) x).
  { intros x. apply rd_memmove. lia. }
  assert (Hb1 : mem_bytes m1).
  { apply memmove_mem_bytes; [lia|]. apply (ki_bytes kend s l), Hwf. }
  destruct (foreign_write s l root N q m1 Hwf Hq) as [Hwf1 HE1]; auto.
  { intros x Hx. rewrite Hm1. unfold in_page, PGSIZE in Hx.
    repeat bcase; cbn [andb]; try done; lia. }
  rewrite (u64_small (va0 + 4096)) by (change MAXVA with 274877906944 in *; pow2; lia).
  assert (Hw : forall i, 0 <= i < n -> writable (dstva + i)).
  { intros i Hi. unfold writable. rewrite Hpage by lia. split_and!; auto; try lia.
    change MAXVA with 274877906944 in *; zsolve. }
  assert (Hua : forall i, 0 <= i < n -> uaddr E (dstva + i) = q + (dstva - va0) + i).
  { intros i Hi. unfold uaddr. rewrite Hpage by lia. fold q. zsolve. }
  destruct (IH (set_mem s m1) (va0 + 4096) (src + n) (len - n)) as
    (r & s' & -> & Hr & Hwf' & HE' & Hch & Hbad & Hfun); auto.
  { intros va. cbn [set_mem kmem_mem]. by rewrite HE1. }
  { change MAXVA with 274877906944 in *; pow2; lia. }
  { zsolve. }
  exists r, s'. split_and!; auto.
  - intros x. destruct (Hch x) as [->|(va & Hva & Hwr & ->)].
    + cbn [set_mem kmem_mem]. rewrite Hm1.
      destruct (Z.leb_spec (q + (dstva - va0)) x), (Z.ltb_spec x (q + (dstva - va0) + n)); cbn [andb]; auto.
      right. exists (dstva + (x - (q + (dstva - va0)))). split_and!; try lia.
      * apply Hw. lia.
      * rewrite Hua by lia. lia.
    + right. exists va. split_and!; auto; lia.
  - intros Hr1. destruct (Hbad Hr1) as (i & Hi & Hnw). exists (i + n).
    split; [lia|]. by replace (dstva + (i + n)) with (va0 + 4096 + i) by lia.
  - intros Hr0 Hout i Hi. destruct (decide (i < n)) as [Hin|Hin].
    + split; [apply Hw; lia|]. rewrite Hua by lia.
      destruct (Hch (q + (dstva - va0) + i)) as [->|(va & Hva & (Hvr & Hvu & _) & Hx)].
      * cbn [set_mem kmem_mem]. rewrite Hm1. repeat bcase; cbn [andb]; try lia.
        f_equal. lia.
      * exfalso.
        assert (Hin' : in_page q (q + (dstva - va0) + i)) by (unfold in_page, PGSIZE; lia).
        pose proof (uaddr_in_page E va ltac:(lia)) as Hin2. rewrite <- Hx in Hin2.
        destruct (uo_foreign _ _ _ Huo va Hvr Hvu) as (Hfv & _).
        destruct (decide (q = PTE2PA (E va))) as [Heq|Hne].
        -- pose proof (uo_inj _ _ _ Huo va0 va ltac:(lia) Hvr Hup Hvu Heq). zsolve.
        -- eapply (valid_pages_disjoint q (PTE2PA (E va))); eauto; [apply Hq|apply Hfv].
    + replace (dstva + i) with (va0 + 4096 + (i - n)) by lia.
      destruct (Hfun Hr0) with (i := i - n) as [Hw' Hrd]; [|lia|].
      * intros va x Hv1 Hv2 Hx. apply (Hout va); auto; lia.
      * split; [done|]. rewrite Hrd. cbn [set_mem kmem_mem]. rewrite Hm1.
        replace (src + n + (i - n)) with (src + i) by lia.
        assert (~ in_page q (src + i)) as Hno by (apply (Hout va0); auto; lia).
        unfold in_page, PGSIZE in Hno. repeat bcase; cbn [andb]; try done; lia.
Qed.
End copyout.

Lemma copyout_spec s l root N dstva src len :
  pt_wf s l root N -> user_ok (entry (kmem_mem s) N) l N ->
  0 <= dstva < 2 ^ 64 -> 0 <= len ->
  exists r s',
    copyout root dstva src len s = Ok (r, s') /\ (r = 0 \/ r = -1) /\
    pt_wf s' l root N /\ (forall va, entry (kmem_mem s') N va = entry (kmem_mem s) N va) /\
    (forall x, rd (kmem_mem s') x = rd (kmem_mem s) x \/
       exists va, dstva <= va < dstva + len /\ writable (entry (kmem_mem s) N) va /\
                  x = uaddr (entry (kmem_mem s) N) va) /\
    (r = -1 -> exists i, 0 <= i < len /\ ~ writable (entry (kmem_mem s) N) (dstva + i)) /\
    (r = 0 -> outside_user (entry (kmem_mem s) N) src len -> forall i, 0 <= i < len ->
       writable (entry (kmem_mem s) N) (dstva + i) /\
       rd (kmem_mem s') (uaddr (entry (kmem_mem s) N) (dstva + i)) = rd (kmem_mem s) (src + i)).
Proof.
  intros Hwf Huo Hd Hl. unfold copyout. eapply copyout_loop_spec; eauto.
  - intros. by apply entry_same_page.
  - unfold PGSIZE. zsolve.
Qed.

(** A kernel buffer apart from the table, the free list and user frames. *)
Record kbuf (E : Z -> Z) (l : list Z) (N : ptmap) (dst len : Z) : Prop := {
  kb_nodes : forall p a x, N !! p = Some a -> dst <= x < dst + len -> ~ in_page a x;
  kb_free : forall q x, q ∈ l -> dst <= x < dst + len -> ~ in_page q x;
  kb_user : outside_user E dst len;
}.

Lemma kbuf_sub E l N dst len dst' len' :
  kbuf E l N dst len -> dst <= dst' -> dst' + len' <= dst + len -> kbuf E l N dst' len'.
Proof.
  intros [A B C] H1 H2. split.
  - intros p a x Hp Hx. apply (A p); auto; lia.
  - intros q x Hq Hx. apply B; auto; lia.
  - intros va x Hv Hu Hx. apply (C va); auto; lia.
Qed.

Lemma walkaddr_spec s l root N va :
  pt_wf s l root N ->
  walkaddr root va s =
  Ok (if va <? MAXVA then if user_pte (entry (kmem_mem s) N va)
                          then PTE2PA (entry (kmem_mem s) N va) else 0 else 0).
Proof.
  intros Hwf. unfold walkaddr.
  destruct (Z.leb_spec MAXVA va), (Z.ltb_spec va MAXVA); try lia; [done|].
  rewrite (walk_ro_spec s l root N) by done. cbn [rbind].
  unfold entry. destruct (leaf_page N va) as [a|] eqn:Ha; [|done].
  destruct (pw_node _ _ _ _ Hwf _ _ Ha) as (_ & Hav & _).
  destruct (valid_page_range kend kend_pos a Hav) as [Har _].
  pose proof (PX_range 0 va ltac:(lia)).
  destruct (Z.eqb_spec (a + 8 * PX 0 va) 0); [lia|].
  rewrite flag_set_V, flag_set_U. unfold user_pte.
  by destruct (Z.testbit _ 0), (Z.testbit _ 4).
Qed.

Section copyin.
Context (root : Z) (N : ptmap) (l : list Z) (E : Z -> Z) (Huo : user_ok E l N).
Context (Esame : forall va va', 0 <= va < MAXVA -> 0 <= va' < MAXVA ->
                   va / 4096 = va' / 4096 -> E va = E va').

Definition readable (va : Z) : Prop := 0 <= va < MAXVA /\ user_pte (E va) = true.

Lemma copyin_loop_spec fuel s dst srcva len :
  pt_wf s l root N -> (forall va, entry (kmem_mem s) N va = E va) ->
  0 <= srcva < 2 ^ 64 -> srcva mod 4096 + len <= 4096 * Z.of_nat fuel ->
  kbuf E l N dst len ->
  exists r s',
    copyin_loop fuel root dst srcva len s = Ok (r, s') /\ (r = 0 \/ r = -1) /\
    pt_wf s' l root N /\ (forall va, entry (kmem_mem s') N va = E va) /\
    (forall x, ~ (dst <= x < dst + len) -> rd (kmem_mem s') x = rd (kmem_mem s) x) /\
    (r = -1 -> exists i, 0 <= i < len /\ ~ readable (srcva + i)) /\
    (r = 0 -> forall i, 0 <= i < len ->
       readable (srcva + i) /\ rd (kmem_mem s') (dst + i) = rd (kmem_mem s) (uaddr E (srcva + i))).
Proof.
  revert s dst srcva len. induction fuel as [|fuel IH]; intros s dst srcva len Hwf HE Hd Hf Hkb;
    cbn [copyin_loop].
  { destruct (Z.ltb_spec 0 len); [zsolve|]. exists 0, s. split_and!; auto; intros; lia. }
  destruct (Z.ltb_spec 0 len) as [Hlen|Hlen].
  2: { exists 0, s. split_and!; auto; intros; lia. }
  destruct (PGROUNDDOWN_spec srcva) as [Hal Hpd].
  assert (Hpd0 : srcva = PGROUNDDOWN srcva + srcva mod 4096) by (rewrite PGROUNDDOWN_eq; zsolve).
  set (va0 := PGROUNDDOWN srcva) in *.
  assert (Hva0 : 0 <= va0) by zsolve.
  rewrite (walkaddr_spec s l root N) by done. cbn [rbind]. rewrite HE.
  assert (Hfail : ~ readable srcva -> exists i, 0 <= i < len /\ ~ readable (srcva + i)).
  { intros Hw. exists 0. rewrite Z.add_0_r. split; [lia|done]. }
  destruct (Z.ltb_spec va0 MAXVA) as [Hmv|].
  2: { exists (-1), s. split_and!; auto; try (intros; lia). intros _. apply Hfail.
       intros [? _]. lia. }
  destruct (user_pte (E va0)) eqn:Hup.
  2: { exists (-1), s. split_and!; auto; try (intros; lia). intros _. apply Hfail.
       intros [Hx Hu]. rewrite (Esame srcva va0) in Hu; [congruence|..];
         change MAXVA with 274877906944 in *; zsolve. }
  assert (Hq : foreign l N (PTE2PA (E va0))) by (apply Huo; auto; lia).
  change PGSIZE with 4096. set (q := PTE2PA (E va0)) in *.
  destruct (valid_page_range kend kend_pos q ltac:(apply Hq)) as [Hqr _].
  destruct (Z.eqb_spec q 0) as [|Hq0]; [lia|].
  assert (Hdm : srcva < MAXVA) by (change MAXVA with 274877906944 in *; zsolve).
  assert (Hpage : forall i, 0 <= i < va0 + 4096 - srcva -> E (srcva + i) = E va0).
  { intros i Hi. apply Esame; change MAXVA with 274877906944 in *; zsolve. }
  set (n := if len <? 4096 - (srcva - va0) then len else 4096 - (srcva - va0)).
  assert (Hn : 0 < n <= len /\ n <= 4096 - (srcva - va0) /\ (n = len \/ n = 4096 - (srcva - va0))).
  { unfold n. destruct (Z.ltb_spec len (4096 - (srcva - va0))); lia. }
  clearbody n.
  set (m1 := memmove (kmem_mem s) dst (q + (srcva - va0)) n).
  assert (Hm1 : forall x, rd m1 x = if (dst <=? x) && (x <? dst + n)
                  then rd (kmem_mem s) (x - dst + (q + (srcva - va0))) else rd (kmem_mem s) x).
  { intros x. apply rd_memmove. lia. }
  assert (Hb1 : mem_bytes m1).
  { apply memmove_mem_bytes; [lia|]. apply (ki_bytes kend s l), Hwf. }
  destruct (pt_wf_agree s l root N m1 Hwf) as [Hwf1 HE1]; auto.
  { intros p a Hp x Hx. rewrite Hm1.
    repeat bcase; cbn [andb]; try done. exfalso. apply (kb_nodes _ _ _ _ _ Hkb p a x); auto; lia. }
  { intros r Hr x Hx. rewrite Hm1.
    repeat bcase; cbn [andb]; try done. exfalso. apply (kb_free _ _ _ _ _ Hkb r x); auto; lia. }
  rewrite (u64_small (va0 + 4096)) by (change MAXVA with 274877906944 in *; pow2; lia).
  destruct (IH (set_mem s m1) (dst + n) (va0 + 4096) (len - n)) as
    (r & s' & -> & Hr & Hwf' & HE' & Hch & Hbad & Hfun); auto.
  { intros va. cbn [set_mem kmem_mem]. by rewrite HE1. }
  { change MAXVA with 274877906944 in *; pow2; lia. }
  { zsolve. }
  { apply (kbuf_sub E l N dst len); auto; lia. }
  exists r, s'. split_and!; auto.
  - intros x Hx. rewrite Hch by lia. cbn [set_mem kmem_mem]. rewrite Hm1.
    repeat bcase; cbn [andb]; try done; lia.
  - intros Hr1. destruct (Hbad Hr1) as (i & Hi & Hnw). exists (i + n).
    split; [lia|]. by replace (srcva + (i + n)) with (va0 + 4096 + i) by lia.
  - intros Hr0 i Hi. destruct (decide (i < n)) as [Hin|Hin].
    + assert (Hrd : readable (srcva + i)).
      { unfold readable. rewrite Hpage by lia. split; [|done].
        change MAXVA with 274877906944 in *; zsolve. }
      split; [done|]. rewrite Hch by lia. cbn [set_mem kmem_mem]. rewrite Hm1.
      repeat bcase; cbn [andb]; try lia. f_equal.
      unfold uaddr. rewrite Hpage by lia. fold q. zsolve.
    + replace (srcva + i) with (va0 + 4096 + (i - n)) by lia.
      destruct (Hfun Hr0 (i - n) ltac:(lia)) as [Hrd Hv]. split; [done|].
      replace (dst + i) with (dst + n + (i - n)) by lia. rewrite Hv.
      cbn [set_mem kmem_mem]. rewrite Hm1.
      pose proof (uaddr_in_page E (va0 + 4096 + (i - n)) ltac:(lia)) as Hin2.
      repeat bcase; cbn [andb]; try done. exfalso.
      eapply (kb_user _ _ _ _ _ Hkb); [apply Hrd|apply Hrd| |exact Hin2]. lia.
Qed.
End copyin.

Lemma copyin_spec s l root N dst srcva len :
  pt_wf s l root N -> user_ok (entry (kmem_mem s) N) l N ->
  0 <= srcva < 2 ^ 64 -> 0 <= len -> kbuf (entry (kmem_mem s) N) l N dst len ->
  exists r s',
    copyin root dst srcva len s = Ok (r, s') /\ (r = 0 \/ r = -1) /\
    pt_wf s' l root N /\ (forall va, entry (kmem_mem s') N va = entry (kmem_mem s) N va) /\
    (forall x, ~ (dst <= x < dst + len) -> rd (kmem_mem s') x = rd (kmem_mem s) x) /\
    (r = -1 -> exists i, 0 <= i < len /\ ~ readable (entry (kmem_mem s) N) (srcva + i)) /\
    (r = 0 -> forall i, 0 <= i < len ->
       readable (entry (kmem_mem s) N) (srcva + i) /\
       rd (kmem_mem s') (dst + i) = rd (kmem_mem s) (uaddr (entry (kmem_mem s) N) (srcva + i))).
Proof.
  intros Hwf Huo Hd Hl Hkb. unfold copyin. eapply copyin_loop_spec; eauto.
  - intros. by apply entry_same_page.
  - unfold PGSIZE. zsolve.
Qed.
End facts.
