(* ===== verification/VmUser.v ===== *)
(** * Growing and shrinking user memory: uvmalloc and uvmdealloc

    uvmalloc maps fresh zeroed frames, or undoes everything and returns 0. *)

From S2P Require Import Prelude Riscv Mem Kalloc Vm VmFacts.

Section grow_user.
Context (kend : Z) (kend_pos : 0 < kend).
Context (root : Z).

#[local] Abbreviation pt_wf := (pt_wf kend).
#[local] Abbreviation foreign := (foreign kend).

(** Shrinking by whole pages is unmapping them. *)
Lemma uvmdealloc_pages k o s :
  0 <= o -> o mod 4096 = 0 -> o + 4096 * Z.of_nat k <= MAXVA -> (0 < k)%nat ->
  uvmdealloc kend root (o + 4096 * Z.of_nat k) o s =
  (let* s := uvmunmap_loop kend k root o (o + 4096 * Z.of_nat k) true s in Ok (o, s)).
Proof.
  intros Ho Hal Hmax Hk. change MAXVA with 274877906944 in *. unfold uvmdealloc.
  destruct (Z.leb_spec (o + 4096 * Z.of_nat k) o); [lia|].
  rewrite !PGROUNDUP_eq, !u64_small by (pow2; lia).
  replace ((o + 4095) / 4096 * 4096) with o by zsolve.
  replace ((o + 4096 * Z.of_nat k + 4095) / 4096 * 4096) with (o + 4096 * Z.of_nat k) by zsolve.
  destruct (Z.ltb_spec o (o + 4096 * Z.of_nat k)); [|lia].
  unfold uvmunmap. change PGSIZE with 4096. rewrite Hal. cbn [negb Z.eqb].
  replace ((o + 4096 * Z.of_nat k - o) / 4096) with (Z.of_nat k) by zsolve.
  rewrite s32_small, (u64_small (Z.of_nat k)), Nat2Z.id, u64_small by (pow2; lia).
  replace (o + Z.of_nat k * 4096) with (o + 4096 * Z.of_nat k) by lia. done.
Qed.

Section inv.
Context (o perm : Z) (Ho : 0 <= o) (Hoal : o mod 4096 = 0) (Hperm : 0 <= perm < 1024).
Context (Hleaf : Z.lor perm PTE_V <> PTE_V).
Context (m0 : mem) (l0 : list Z) (N0 : ptmap).

(** [k] pages from [o] on are mapped to zeroed frames of their own. *)
Record ua_inv (s : kmem) (l : list Z) (N : ptmap) (k : nat) : Prop := {
  ua_wf : pt_wf s l root N;
  ua_in : forall j, 0 <= j < Z.of_nat k -> exists q,
     entry (kmem_mem s) N (o + 4096 * j) = leaf_pte q perm /\ valid_page kend q /\
     (forall x, in_page q x -> rd (kmem_mem s) x = 0);
  ua_out : forall v, 0 <= v < MAXVA -> ~ (o <= v < o + 4096 * Z.of_nat k) ->
     entry (kmem_mem s) N v = entry m0 N0 v;
  ua_nodup : NoDup (frames (entry (kmem_mem s) N) o k);
  ua_foreign : Forall (foreign l N) (frames (entry (kmem_mem s) N) o k);
  ua_frame : forall q, foreign l0 N0 q ->
     foreign l N q /\ page_eq q m0 (kmem_mem s) /\
     q ∉ frames (entry (kmem_mem s) N) o k;
}.

Lemma leaf_pte_leaf q :
  valid_page kend q -> PTE2PA (leaf_pte q perm) = q /\
  Z.testbit (leaf_pte q perm) 0 = true /\ PTE_FLAGS (leaf_pte q perm) <> PTE_V.
Proof.
  intros Hq. destruct (valid_page_range kend kend_pos q Hq) as [Hr Ha].
  destruct (leaf_pte_facts q perm) as (_ & -> & -> & ->); auto; try lia.
  split_and!; auto. rewrite Z.lor_spec. apply orb_true_r.
Qed.

(** Undoing: the mapped pages are unmapped and their frames freed. *)
Lemma ua_undo s l N k :
  ua_inv s l N k -> o + 4096 * Z.of_nat k <= MAXVA ->
  (forall v, o <= v < o + 4096 * Z.of_nat k -> Z.testbit (entry m0 N0 v) 0 = false) ->
  exists x s' l', uvmdealloc kend root (o + 4096 * Z.of_nat k) o s = Ok (x, s') /\
    pt_wf s' l' root N /\
    (forall v, 0 <= v < MAXVA ->
       (o <= v < o + 4096 * Z.of_nat k /\ entry (kmem_mem s') N v = 0) \/
       entry (kmem_mem s') N v = entry m0 N0 v) /\
    (forall q, foreign l0 N0 q -> foreign l' N q /\ page_eq q m0 (kmem_mem s')).
Proof.
  intros Hinv Hmax Hfree. destruct k as [|k].
  - exists (o + 4096 * Z.of_nat 0), s, l. unfold uvmdealloc.
    destruct (Z.leb_spec (o + 4096 * Z.of_nat 0) o); [|lia].
    split_and!; auto; [apply Hinv| |intros q Hq; destruct (ua_frame _ _ _ _ Hinv q Hq) as (? & ? & _); auto].
    intros v Hv. right. apply (ua_out _ _ _ _ Hinv); auto. lia.
  - rewrite uvmdealloc_pages by (auto; lia).
    destruct (uvmunmap_loop_spec kend kend_pos (S k) s l root N o) as (s' & -> & Hwf' & Hent & Hfr);
      auto; try apply Hinv.
    { intros j Hj. destruct (ua_in _ _ _ _ Hinv j Hj) as (q & -> & Hq & _).
      split; by apply leaf_pte_leaf. }
    eexists _, s', _. split; [done|]. split; [exact Hwf'|].
    assert (Hfor : forall q, foreign l0 N0 q ->
        foreign (reverse (frames (entry (kmem_mem s) N) o (S k)) ++ l) N q).
    { intros q Hq. destruct (ua_frame _ _ _ _ Hinv q Hq) as ((? & ? & ?) & _ & Hnf).
      split_and!; auto. rewrite elem_of_app, elem_of_reverse. tauto. }
    split.
    + intros v Hv. rewrite Hent by done.
      destruct (Z.leb_spec o v), (Z.ltb_spec v (o + 4096 * Z.of_nat (S k))); cbn [andb];
        try (left; split; [lia|done]); right; apply (ua_out _ _ _ _ Hinv); auto; lia.
    + intros q Hq. split; [by apply Hfor|]. intros x Hx.
      rewrite (Hfr q (Hfor q Hq) x Hx). destruct (ua_frame _ _ _ _ Hinv q Hq) as (_ & Hpe & _).
      by apply Hpe.
Qed.

Lemma zero_page_fill s l N q :
  pt_wf s l root N -> foreign l N q ->
  let s1 := set_mem s (memset (kmem_mem s) q 0 PGSIZE) in
  pt_wf s1 l root N /\ (forall va, entry (kmem_mem s1) N va = entry (kmem_mem s) N va) /\
  same_except q (kmem_mem s) (kmem_mem s1) /\ (forall x, in_page q x -> rd (kmem_mem s1) x = 0).
Proof.
  intros Hwf Hq s1.
  assert (Hs : same_except q (kmem_mem s) (memset (kmem_mem s) q 0 PGSIZE)).
  { intros x Hx. rewrite rd_memset. unfold in_page in Hx. repeat bcase; cbn [andb]; try done; lia. }
  destruct (foreign_write kend s l root N q (memset (kmem_mem s) q 0 PGSIZE) Hwf Hq Hs) as [? ?].
  { apply memset_mem_bytes, (ki_bytes kend s l), Hwf. }
  split_and!; auto. intros x Hx. unfold s1. cbn [set_mem kmem_mem]. rewrite rd_memset.
  unfold in_page in Hx. repeat bcase; cbn [andb]; try lia. done.
Qed.

(** One more page, mapped to the frame [q] that kalloc returned. *)
Lemma ua_step s q l N k :
  ua_inv s (q :: l) N k -> o + 4096 * (Z.of_nat k + 1) <= MAXVA ->
  (forall v, o <= v < o + 4096 * (Z.of_nat k + 1) -> Z.testbit (entry m0 N0 v) 0 = false) ->
  exists s1 r s2 l2 N2,
    kalloc s = (q, s1) /\ q <> 0 /\
    mappages root (o + 4096 * Z.of_nat k) PGSIZE q perm
      (set_mem s1 (memset (kmem_mem s1) q 0 PGSIZE)) = Ok (r, s2) /\
    ((r = 0 /\ ua_inv s2 l2 N2 (S k)) \/
     (r = -1 /\ l2 = [] /\ ua_inv s2 l2 N2 k /\ foreign l2 N2 q /\
      (forall r', foreign l0 N0 r' -> r' <> q) /\
      q ∉ frames (entry (kmem_mem s2) N2) o k)).
Proof.
  intros Hinv Hmax Hfree.
  destruct (pt_wf_kalloc kend kend_pos s q l root N (ua_wf _ _ _ _ Hinv))
    as (s1 & E1 & Hwf1 & Hq1 & Hq0 & He1 & Hs1).
  destruct (zero_page_fill s1 l N q Hwf1 Hq1) as (Hwf1' & He1' & Hs1' & Hz).
  set (s1' := set_mem s1 (memset (kmem_mem s1) q 0 PGSIZE)) in *.
  destruct (valid_page_range kend kend_pos q) as [Hqr Hqal]; [apply Hq1|].
  assert (HeA : forall va, entry (kmem_mem s1') N va = entry (kmem_mem s) N va).
  { intros. by rewrite He1', He1. }
  assert (Hpg : forall r, foreign (q :: l) N r -> foreign l N r /\ r <> q /\ page_eq r (kmem_mem s) (kmem_mem s1')).
  { intros r (Hrv & Hrl & HrN). apply not_elem_of_cons in Hrl as [Hrq Hrl].
    split_and!; auto; [by split|]. intros x Hx.
    assert (~ in_page q x) by (eapply (valid_pages_disjoint r q); eauto; apply Hrv).
    by rewrite Hs1', Hs1. }
  assert (HoutA : forall v, o + 4096 * Z.of_nat k <= v < o + 4096 * Z.of_nat k + PGSIZE ->
            Z.testbit (entry (kmem_mem s1') N v) 0 = false).
  { unfold PGSIZE. intros v Hv. rewrite HeA, (ua_out _ _ _ _ Hinv) by lia. apply Hfree. lia. }
  destruct (mappages_spec kend kend_pos s1' l root N (o + 4096 * Z.of_nat k) PGSIZE q perm)
    as (r & s2 & l2 & N2 & kk & Em & Hwf2 & [_ _ Hkf] & Hkal & Hr & Hent); auto;
    try (unfold PGSIZE; zsolve).
  assert (Hfra : forall r, foreign (q :: l) N r ->
            foreign l2 N2 r /\ r <> q /\ page_eq r (kmem_mem s) (kmem_mem s2)).
  { intros r' Hr'. destruct (Hpg r' Hr') as (Hr1 & Hrq & Hp1). destruct (Hkf r' Hr1) as [Hr2 Hp2].
    split_and!; auto. intros x Hx. by rewrite Hp2, Hp1. }
  assert (Hkk : kk = 0 \/ kk = 4096) by (unfold PGSIZE in *; destruct Hr as [[_ ?]|(_ & ? & _)]; zsolve).
  assert (Hold : forall v, 0 <= v < MAXVA -> v < o + 4096 * Z.of_nat k \/ o + 4096 * (Z.of_nat k + 1) <= v ->
            entry (kmem_mem s2) N2 v = entry (kmem_mem s) N v).
  { intros v Hv Hv'. rewrite Hent, HeA by done. repeat bcase; cbn [andb]; try done; lia. }
  assert (Hfe : frames (entry (kmem_mem s2) N2) o k = frames (entry (kmem_mem s) N) o k).
  { apply frames_ext. intros j Hj. apply Hold; lia. }
  assert (Hin2 : forall j, 0 <= j < Z.of_nat k -> exists q',
     entry (kmem_mem s2) N2 (o + 4096 * j) = leaf_pte q' perm /\ valid_page kend q' /\
     (forall x, in_page q' x -> rd (kmem_mem s2) x = 0)).
  { intros j Hj. destruct (ua_in _ _ _ _ Hinv j Hj) as (q' & Eq & Hv' & Hz').
    exists q'. rewrite Hold by lia. split_and!; auto. intros x Hx.
    destruct (Hfra q') as (_ & _ & Hp); [|by rewrite Hp, Hz'].
    pose proof (ua_foreign _ _ _ _ Hinv) as Hf. rewrite Forall_forall in Hf.
    apply Hf, elem_of_frames. exists j. split; [done|]. rewrite Eq. symmetry. by apply leaf_pte_leaf. }
  assert (Hfor2 : Forall (foreign l2 N2) (frames (entry (kmem_mem s2) N2) o k)).
  { rewrite Hfe. apply (Forall_impl (foreign (q :: l) N)); [apply Hinv|].
    intros r' Hr'. by apply Hfra. }
  assert (Hnq : q ∉ frames (entry (kmem_mem s) N) o k).
  { intros Hc. pose proof (ua_foreign _ _ _ _ Hinv) as Hf. rewrite Forall_forall in Hf.
    destruct (Hf q Hc) as (_ & Hc' & _). apply Hc'. left. }
  assert (Hfr2 : forall r', foreign l0 N0 r' -> foreign l2 N2 r' /\ page_eq r' m0 (kmem_mem s2) /\
            r' <> q /\ r' ∉ frames (entry (kmem_mem s) N) o k).
  { intros r' Hr'. destruct (ua_frame _ _ _ _ Hinv r' Hr') as (Hf1 & Hp1 & Hn1).
    destruct (Hfra r' Hf1) as (Hf2 & Hne & Hp2). split_and!; auto.
    intros x Hx. by rewrite Hp2, Hp1. }
  exists s1, r, s2, l2, N2. split_and!; auto.
  destruct (Hkf q Hq1) as [Hq2 Hqp2].
  destruct Hr as [[-> ->]|(-> & Hlt & ->)].
  - left. split; [done|].
    assert (Enew : entry (kmem_mem s2) N2 (o + 4096 * Z.of_nat k) = leaf_pte q perm).
    { rewrite Hent by lia. unfold PGSIZE.
      destruct (Z.leb_spec (o + 4096 * Z.of_nat k) (o + 4096 * Z.of_nat k)), (Z.ltb_spec (o + 4096 * Z.of_nat k)
        (o + 4096 * Z.of_nat k + 4096)); cbn [andb]; try lia.
      rewrite Z.sub_diag, Z.div_0_l, Z.add_0_r by lia. done. }
    destruct (leaf_pte_leaf q) as [Epa _]; [apply Hq1|].
    split; auto.
    + intros j Hj. destruct (decide (j = Z.of_nat k)) as [->|]; [|apply Hin2; lia].
      exists q. split_and!; auto; [apply Hq1|]. intros x Hx. by rewrite Hqp2, Hz.
    + intros v Hv Hv'. rewrite Hold by lia. apply (ua_out _ _ _ _ Hinv); lia.
    + rewrite frames_snoc, Enew, Epa, Hfe. apply NoDup_app. split_and!; [apply Hinv| |apply NoDup_singleton].
      intros x Hx ->%list_elem_of_singleton. done.
    + rewrite frames_snoc, Enew, Epa. apply Forall_app. split; [done|]. by apply Forall_singleton.
    + intros r' Hr'. destruct (Hfr2 r' Hr') as (? & ? & ? & ?). split_and!; auto.
      rewrite frames_snoc, Enew, Epa, Hfe, elem_of_app, list_elem_of_singleton. tauto.
  - right. assert (kk = 0) as -> by (unfold PGSIZE in *; lia). split_and!; auto.
    + split; auto.
      * intros v Hv Hv'. rewrite Hent, HeA by done.
        repeat bcase; cbn [andb]; try lia; apply (ua_out _ _ _ _ Hinv); auto.
      * rewrite Hfe. apply Hinv.
      * intros r' Hr'. rewrite Hfe. destruct (Hfr2 r' Hr') as (? & ? & _ & ?). auto.
    + intros r' Hr'. by destruct (Hfr2 r' Hr') as (_ & _ & ? & _).
    + by rewrite Hfe.
Qed.

Lemma ua_kfree s l N k q :
  ua_inv s l N k -> foreign l N q -> (forall r', foreign l0 N0 r' -> r' <> q) ->
  q ∉ frames (entry (kmem_mem s) N) o k ->
  exists s3, kfree kend q s = Ok s3 /\ ua_inv s3 (q :: l) N k.
Proof.
  intros Hinv Hq Hne Hnq.
  destruct (pt_wf_kfree kend kend_pos s l root N q (ua_wf _ _ _ _ Hinv) Hq) as (s3 & E & Hwf3 & He3 & Hs3).
  exists s3. split; [done|].
  assert (Hfe : frames (entry (kmem_mem s3) N) o k = frames (entry (kmem_mem s) N) o k).
  { apply frames_ext. intros. apply He3. }
  assert (Hmore : forall r, foreign l N r -> r <> q ->
            foreign (q :: l) N r /\ page_eq r (kmem_mem s) (kmem_mem s3)).
  { intros r (Hrv & Hrl & HrN) Hrq. split; [split_and!; auto; by apply not_elem_of_cons|].
    eapply page_eq_of_same_except; [apply Hq|exact Hrv|auto|done]. }
  pose proof (ua_foreign _ _ _ _ Hinv) as Hf. rewrite Forall_forall in Hf.
  split; rewrite ?Hfe; auto; try apply Hinv.
  - intros j Hj. destruct (ua_in _ _ _ _ Hinv j Hj) as (q' & Eq & Hv' & Hz').
    assert (Hin : q' ∈ frames (entry (kmem_mem s) N) o k).
    { apply elem_of_frames. exists j. split; [done|]. rewrite Eq. symmetry. by apply leaf_pte_leaf. }
    destruct (Hmore q' (Hf q' Hin)) as [_ Hp]; [congruence|].
    exists q'. rewrite He3. split_and!; auto. intros x Hx. by rewrite Hp, Hz'.
  - intros v Hv Hv'. rewrite He3. by apply Hinv.
  - apply Forall_forall. intros r Hr. apply Hmore; [by apply Hf|congruence].
  - intros r Hr. destruct (ua_frame _ _ _ _ Hinv r Hr) as (Hf1 & Hp1 & Hn1).
    destruct (Hmore r Hf1 (Hne r Hr)) as [? Hp]. split_and!; auto.
    intros x Hx. by rewrite Hp, Hp1.
Qed.

Lemma uvmalloc_loop_spec xperm newsz fuel s l N k :
  perm = Z.lor (Z.lor PTE_R PTE_U) xperm ->
  ua_inv s l N k -> newsz <= MAXVA -> o + 4096 * Z.of_nat k < newsz + 4096 ->
  newsz - (o + 4096 * Z.of_nat k) <= 4096 * Z.of_nat fuel ->
  (forall v, o <= v < newsz + 4096 -> v < MAXVA -> Z.testbit (entry m0 N0 v) 0 = false) ->
  exists r s' l' N',
    uvmalloc_loop kend fuel root o (o + 4096 * Z.of_nat k) newsz xperm s = Ok (r, s') /\
    ((r = newsz /\ exists n, (k <= n)%nat /\ newsz <= o + 4096 * Z.of_nat n < newsz + 4096 /\
                             ua_inv s' l' N' n) \/
     (r = 0 /\ pt_wf s' l' root N' /\
      (forall v, 0 <= v < MAXVA ->
         (o <= v < newsz /\ entry (kmem_mem s') N' v = 0) \/ entry (kmem_mem s') N' v = entry m0 N0 v) /\
      (forall q, foreign l0 N0 q -> foreign l' N' q /\ page_eq q m0 (kmem_mem s')))).
Proof.
  intros Eperm. revert s l N k.
  induction fuel as [|fuel IH]; intros s l N k Hinv Hmax Hlt Hfuel Hfree; cbn [uvmalloc_loop].
  { destruct (Z.ltb_spec (o + 4096 * Z.of_nat k) newsz); [lia|].
    eexists newsz, s, l, N. split; [done|]. left. split; [done|]. exists k. split_and!; auto; lia. }
  destruct (Z.ltb_spec (o + 4096 * Z.of_nat k) newsz) as [Hk|Hk].
  2: { eexists newsz, s, l, N. split; [done|]. left. split; [done|]. exists k. split_and!; auto; lia. }
  assert (Hk1 : o + 4096 * (Z.of_nat k + 1) <= MAXVA) by (change MAXVA with 274877906944 in *; zsolve).
  assert (Hundo : forall s l N, ua_inv s l N k ->
    exists r s' l' N', (let* (_, s) := uvmdealloc kend root (o + 4096 * Z.of_nat k) o s in Ok (0, s)) = Ok (r, s') /\
     ((r = newsz /\ exists n, (k <= n)%nat /\ newsz <= o + 4096 * Z.of_nat n < newsz + 4096 /\
                             ua_inv s' l' N' n) \/
     (r = 0 /\ pt_wf s' l' root N' /\
      (forall v, 0 <= v < MAXVA ->
         (o <= v < newsz /\ entry (kmem_mem s') N' v = 0) \/ entry (kmem_mem s') N' v = entry m0 N0 v) /\
      (forall q, foreign l0 N0 q -> foreign l' N' q /\ page_eq q m0 (kmem_mem s'))))).
  { intros s3 l3 N3 Hinv3. destruct (ua_undo s3 l3 N3 k Hinv3) as (x & s' & l' & E & Hwf' & He & Hf); [lia| |].
    { intros v Hv. apply Hfree; lia. }
    rewrite E. eexists 0, s', l', N3. split; [done|]. right. split_and!; auto.
    intros v Hv. destruct (He v Hv) as [[? ?]|?]; [left; split; [lia|done]|by right]. }
  destruct l as [|q l].
  { rewrite (pt_wf_kalloc_none kend kend_pos s root N) by apply Hinv. rewrite Z.eqb_refl.
    by eapply Hundo. }
  destruct (ua_step s q l N k Hinv Hk1) as (s1 & r & s2 & l2 & N2 & Ek & Hq0 & Em & Hr).
  { intros v Hv. apply Hfree; lia. }
  rewrite Ek. destruct (Z.eqb_spec q 0) as [|Hqn]; [done|]. rewrite <- Eperm, Em. cbn [rbind].
  destruct Hr as [[-> Hinv2]|(-> & -> & Hinv2 & Hq2 & Hne & Hnq)].
  - rewrite Z.eqb_refl. cbn [negb]. change PGSIZE with 4096.
    rewrite u64_small by (change MAXVA with 274877906944 in *; pow2; lia).
    replace (o + 4096 * Z.of_nat k + 4096) with (o + 4096 * Z.of_nat (S k)) by lia.
    destruct (IH s2 l2 N2 (S k) Hinv2 Hmax ltac:(lia) ltac:(lia) Hfree) as (r & s' & l' & N' & E & Hr).
    eexists r, s', l', N'. split; [done|].
    destruct Hr as [(-> & n & Hn & ? & ?)|Hr]; [left|by right]. split; [done|].
    exists n. split_and!; auto; lia.
  - change (negb (-1 =? 0)) with true. cbv iota.
    destruct (ua_kfree s2 [] N2 k q Hinv2 Hq2 Hne Hnq) as (s3 & -> & Hinv3). cbn [rbind].
    by eapply Hundo.
Qed.
End inv.

(** The initial state satisfies the invariant with no page mapped. *)
Lemma ua_inv_0 o perm s l N :
  pt_wf s l root N -> ua_inv o perm (kmem_mem s) l N s l N 0.
Proof.
  intros Hwf. split; auto; try done.
  - intros j Hj. lia.
  - constructor.
  - intros q Hq. split_and!; auto; [by intros x|]. apply not_elem_of_nil.
Qed.

Lemma uvmalloc_spec s l N oldsz newsz xperm :
  pt_wf s l root N -> 0 <= oldsz <= newsz -> newsz <= MAXVA -> 0 <= xperm < 1024 ->
  (forall v, PGROUNDUP oldsz <= v < newsz + 4096 -> v < MAXVA ->
     Z.testbit (entry (kmem_mem s) N v) 0 = false) ->
  let perm := Z.lor (Z.lor PTE_R PTE_U) xperm in
  exists r s' l' N', uvmalloc kend root oldsz newsz xperm s = Ok (r, s') /\
    ((r = newsz /\ exists n, newsz <= PGROUNDUP oldsz + 4096 * Z.of_nat n < newsz + 4096 /\
        ua_inv (PGROUNDUP oldsz) perm (kmem_mem s) l N s' l' N' n) \/
     (r = 0 /\ pt_wf s' l' root N' /\
      (forall v, 0 <= v < MAXVA ->
         (PGROUNDUP oldsz <= v < newsz /\ entry (kmem_mem s') N' v = 0) \/
         entry (kmem_mem s') N' v = entry (kmem_mem s) N v) /\
      (forall q, foreign l N q -> foreign l' N' q /\ page_eq q (kmem_mem s) (kmem_mem s')))).
Proof.
  intros Hwf Hsz Hmax Hx Hfree perm. unfold uvmalloc.
  destruct (Z.ltb_spec newsz oldsz); [lia|]. change MAXVA with 274877906944 in Hmax.
  destruct (PGROUNDUP_spec oldsz) as [Hal Hup]; [pow2; lia|].
  assert (Hperm : 0 <= perm < 1024).
  { apply lor_small; [|done]. by vm_compute. }
  assert (Hleaf : Z.lor perm PTE_V <> PTE_V).
  { intros Hc. apply (f_equal (fun z => Z.testbit z 1)) in Hc. unfold perm in Hc.
    rewrite !Z.lor_spec in Hc. done. }
  edestruct (uvmalloc_loop_spec (PGROUNDUP oldsz) perm ltac:(lia) Hal Hperm Hleaf (kmem_mem s) l N
    xperm newsz (Z.to_nat ((newsz - PGROUNDUP oldsz) / PGSIZE + 1)) s l N 0)
    as (r & s' & l' & N' & E & Hr); auto using ua_inv_0; try lia; try (unfold PGSIZE; zsolve).
  rewrite Z.mul_0_r, Z.add_0_r in E. rewrite E. exists r, s', l', N'. split; [done|].
  destruct Hr as [(-> & n & _ & ? & ?)|?]; [left|by right]. eauto.
Qed.
End grow_user.
