(* ===== verification/VmProps.v ===== *)
(** * What the page-table code guarantees

    Theorems about kernel/vm.c in terms of the facts of VmFacts.v and
    VmUser.v, each evaluated on a small machine whose allocator manages the
    last eight pages of RAM. *)

From S2P Require Import Prelude Riscv Mem Kalloc Vm VmFacts VmUser.

Section create.
Context (kend : Z) (kend_pos : 0 < kend).

Lemma load64_zero m q x :
  (forall a, in_page q a -> rd m a = 0) -> q <= x -> x + 8 <= q + 4096 -> load64 m x = 0.
Proof.
  intros Hz H1 H2. unfold load64, in_page, PGSIZE in *. cbn [rd_bytes].
  repeat rewrite Hz by lia. done.
Qed.

(** A fresh page table is its zeroed root page. *)
Lemma uvmcreate_spec s q l :
  kmem_inv kend s (q :: l) ->
  exists s1, uvmcreate s = (q, s1) /\ pt_wf kend s1 l q {[ [] := q ]} /\
    (forall va, entry (kmem_mem s1) {[ [] := q ]} va = 0) /\
    same_except q (kmem_mem s) (kmem_mem s1).
Proof.
  intros Hi. destruct (kalloc_spec kend kend_pos s _ Hi) as (s1 & E & Hi1 & Hs & _).
  destruct Hi as [_ Hnd Hv _].
  apply NoDup_cons in Hnd as [Hql _]. apply Forall_cons in Hv as [Hqv _].
  destruct (valid_page_range kend kend_pos q Hqv) as [Hqr Hqa].
  unfold uvmcreate. rewrite E. destruct (Z.eqb_spec q 0); [lia|].
  assert (Hz : forall a, in_page q a -> rd (memset (kmem_mem s1) q 0 PGSIZE) a = 0).
  { intros a Ha. unfold in_page in Ha. rewrite rd_memset. repeat bcase; cbn [andb]; try lia. done. }
  assert (Hs1 : same_except q (kmem_mem s1) (memset (kmem_mem s1) q 0 PGSIZE)).
  { intros a Ha. unfold in_page in Ha. rewrite rd_memset. repeat bcase; cbn [andb]; try done; lia. }
  eexists. split; [done|]. split_and!.
  - split.
    + eapply kmem_inv_frame; eauto with xv6. apply memset_mem_bytes. apply Hi1.
    + apply lookup_singleton_eq.
    + intros p a Hp. apply lookup_singleton_Some in Hp as [<- <-]. split_and!; auto; simpl; lia.
    + intros p p' a Hp Hp'. apply lookup_singleton_Some in Hp as [<- _].
      by apply lookup_singleton_Some in Hp' as [<- _].
    + intros p i [a Hp]. apply lookup_singleton_Some in Hp as [Hp _]. by destruct p.
    + intros p a i Hp Hlen Hi0. apply lookup_singleton_Some in Hp as [<- <-]. cbv zeta.
      cbn [set_mem kmem_mem]. unfold idx in Hi0.
      rewrite (load64_zero _ q) by (done || lia). rewrite Z.bits_0.
      by apply lookup_singleton_ne.
  - intros va. unfold entry, leaf_page. by rewrite lookup_singleton_ne.
  - intros a Ha. cbn [set_mem kmem_mem]. by rewrite Hs1, Hs.
Qed.

(** *** The isolation invariant under growth *)
Lemma frames_lookup E a n i :
  (i < n)%nat -> frames E a n !! i = Some (PTE2PA (E (a + 4096 * Z.of_nat i))).
Proof.
  revert a i; induction n as [|n IH]; intros a i Hi; [lia|]. destruct i as [|i]; cbn [frames lookup list_lookup].
  - by rewrite Z.mul_0_r, Z.add_0_r.
  - change ((_ :: ?x) !! S i) with (x !! i). rewrite IH by lia. do 3 f_equal. lia.
Qed.

Section ua.
Context (root o perm : Z) (Ho : 0 <= o) (Hoal : o mod 4096 = 0) (Hperm : 0 <= perm < 1024).
Context (Hleaf : Z.lor perm PTE_V <> PTE_V).
Context (s0 s : kmem) (l0 l : list Z) (N0 N : ptmap) (n : nat).
Context (Hinv : ua_inv kend root o perm (kmem_mem s0) l0 N0 s l N n).
Context (Hmax : o + 4096 * Z.of_nat n <= MAXVA).

Lemma ua_index v : o <= v < o + 4096 * Z.of_nat n ->
  exists i, (i < n)%nat /\ (v - o) / 4096 = Z.of_nat i /\
    entry (kmem_mem s) N v = entry (kmem_mem s) N (o + 4096 * Z.of_nat i) /\
    frames (entry (kmem_mem s) N) o n !! i = Some (PTE2PA (entry (kmem_mem s) N v)).
Proof.
  intros Hv. exists (Z.to_nat ((v - o) / 4096)). rewrite Z2Nat.id by zsolve.
  assert (Hs : entry (kmem_mem s) N v = entry (kmem_mem s) N (o + 4096 * ((v - o) / 4096))).
  { apply entry_same_page; change MAXVA with 274877906944 in *; zsolve. }
  split_and!; auto; [zsolve|]. rewrite frames_lookup by zsolve. rewrite Z2Nat.id by zsolve. congruence.
Qed.

Lemma ua_in_out v v' :
  user_ok kend (entry (kmem_mem s0) N0) l0 N0 -> 0 <= v' < MAXVA ->
  o <= v < o + 4096 * Z.of_nat n -> ~ (o <= v' < o + 4096 * Z.of_nat n) ->
  user_pte (entry (kmem_mem s) N v') = true ->
  PTE2PA (entry (kmem_mem s) N v) <> PTE2PA (entry (kmem_mem s) N v').
Proof.
  intros Huo Hv' Hin Hout Hu Heq.
  destruct (ua_index v Hin) as (i & _ & _ & _ & Hl). apply list_elem_of_lookup_2 in Hl.
  rewrite (ua_out _ _ _ _ _ _ _ _ _ _ _ Hinv v' Hv' Hout) in Hu, Heq.
  destruct (ua_frame _ _ _ _ _ _ _ _ _ _ _ Hinv _ (uo_foreign _ _ _ _ Huo v' Hv' Hu)) as (_ & _ & Hn).
  apply Hn. by rewrite <- Heq.
Qed.

Lemma ua_user_ok :
  user_ok kend (entry (kmem_mem s0) N0) l0 N0 -> user_ok kend (entry (kmem_mem s) N) l N.
Proof.
  intros Huo. split.
  - intros v Hv Hu. destruct (decide (o <= v < o + 4096 * Z.of_nat n)) as [Hin|Hout].
    + destruct (ua_index v Hin) as (i & _ & _ & _ & Hl). apply list_elem_of_lookup_2 in Hl.
      pose proof (ua_foreign _ _ _ _ _ _ _ _ _ _ _ Hinv) as Hf. rewrite Forall_forall in Hf. auto.
    + rewrite (ua_out _ _ _ _ _ _ _ _ _ _ _ Hinv v Hv Hout) in *.
      apply (ua_frame _ _ _ _ _ _ _ _ _ _ _ Hinv). by apply Huo.
  - intros v v' Hv Hv' Hu Hu' Heq.
    destruct (decide (o <= v < o + 4096 * Z.of_nat n)) as [Hin|Hout],
      (decide (o <= v' < o + 4096 * Z.of_nat n)) as [Hin'|Hout'].
    + destruct (ua_index v Hin) as (i & _ & Hi & _ & Hl).
      destruct (ua_index v' Hin') as (i' & _ & Hi' & _ & Hl').
      rewrite Heq in Hl. assert (i = i') as ->.
      { eapply NoDup_lookup; [apply (ua_nodup _ _ _ _ _ _ _ _ _ _ _ Hinv)|exact Hl|exact Hl']. }
      zsolve.
    + by apply ua_in_out in Heq.
    + symmetry in Heq. by apply ua_in_out in Heq.
    + pose proof (ua_out _ _ _ _ _ _ _ _ _ _ _ Hinv v Hv Hout) as E1.
      pose proof (ua_out _ _ _ _ _ _ _ _ _ _ _ Hinv v' Hv' Hout') as E2.
      rewrite E1 in Hu, Heq. rewrite E2 in Hu', Heq. by apply (uo_inj _ _ _ _ Huo).
Qed.
End ua.
End create.

(** ** A machine with eight free pages *)
Definition demo_kend : Z := PHYSTOP - 8 * PGSIZE.
Definition demo_boot : kmem :=
  match kinit demo_kend (mkKmem ∅ 0) with Ok s => s | _ => mkKmem ∅ 0 end.
Definition demo_create : Z * kmem := uvmcreate demo_boot.

Lemma demo_pos : 0 < demo_kend.
Proof. by vm_compute. Qed.

Lemma demo_boot_inv : kmem_inv demo_kend demo_boot (page_run 8 demo_kend []).
Proof.
  assert (H : exists s', freerange_loop demo_kend 8 demo_kend PHYSTOP (mkKmem ∅ 0) = Ok s' /\
                         kmem_inv demo_kend s' (page_run 8 demo_kend [])).
  { apply (freerange_loop_spec demo_kend demo_pos 8 demo_kend PHYSTOP (mkKmem ∅ 0) []); try done.
    - split; simpl; auto using mem_bytes_empty; constructor.
    - intros q Hq. by apply not_elem_of_nil in Hq. }
  destruct H as (s' & E & Hi). unfold demo_boot, kinit, freerange.
  replace (Z.to_nat _) with 8%nat by (by vm_compute).
  replace (PGROUNDUP demo_kend) with demo_kend by (by vm_compute).
  rewrite E. exact Hi.
Qed.

Definition demo_root : Z := PHYSTOP - PGSIZE.
Definition demo_s : kmem := demo_create.2.
Definition demo_l : list Z := tail (page_run 8 demo_kend []).
Definition demo_N : ptmap := {[ [] := demo_root ]}.

Lemma demo_wf :
  pt_wf demo_kend demo_s demo_l demo_root demo_N /\
  (forall va, entry (kmem_mem demo_s) demo_N va = 0).
Proof.
  destruct (uvmcreate_spec demo_kend demo_pos demo_boot demo_root demo_l) as (s1 & E & H1 & H2 & _).
  { exact demo_boot_inv. }
  unfold demo_s, demo_create. rewrite E. auto.
Qed.

Lemma demo_user_ok : user_ok demo_kend (entry (kmem_mem demo_s) demo_N) demo_l demo_N.
Proof.
  destruct demo_wf as [_ He]. split; intros; rewrite He in *; done.
Qed.

#[local] Opaque demo_s demo_boot.

(** The same machine with one page of user memory. *)
Lemma demo_mapped : exists s l N,
  uvmalloc demo_kend demo_root 0 4096 PTE_W demo_s = Ok (4096, s) /\
  ua_inv demo_kend demo_root 0 (Z.lor (Z.lor PTE_R PTE_U) PTE_W) (kmem_mem demo_s) demo_l demo_N s l N 1.
Proof.
  destruct demo_wf as [Hwf He].
  pose proof (uvmalloc_spec demo_kend demo_pos demo_root demo_s demo_l demo_N 0 4096 PTE_W Hwf) as H.
  cbv zeta in H.
  feed H ltac:(idtac; lazymatch goal with
    | |- forall _, _ => intros v _ _; rewrite He; reflexivity | _ => zcompute end).
  destruct H as (r & s & l & N & E & Hr).
  assert (Hr0 : match uvmalloc demo_kend demo_root 0 4096 PTE_W demo_s with
                | Ok (r, _) => r =? 4096 | _ => false end = true) by (vm_compute; reflexivity).
  rewrite E in Hr0. apply Z.eqb_eq in Hr0. subst r.
  destruct Hr as [(_ & n & Hn & Hinv)|(Hc & _)]; [|discriminate Hc].
  change (PGROUNDUP 0) with 0 in *. replace n with 1%nat in Hinv by lia.
  exists s, l, N. split; [exact E|exact Hinv].
Qed.

Lemma demo_leaf s l N k :
  ua_inv demo_kend demo_root 0 (Z.lor (Z.lor PTE_R PTE_U) PTE_W) (kmem_mem demo_s) demo_l demo_N s l N 1 ->
  0 <= k < Z.of_nat 1 ->
  let e := entry (kmem_mem s) N (0 + 4096 * k) in
  Z.testbit e 0 = true /\ PTE_FLAGS e <> PTE_V /\ PTE_FLAGS e = 23.
Proof.
  intros Hinv Hk e. destruct (ua_in _ _ _ _ _ _ _ _ _ _ _ Hinv k Hk) as (q & Eq & Hv & _).
  unfold e. rewrite Eq. destruct (valid_page_range demo_kend demo_pos q Hv) as [Hq Ha].
  destruct (leaf_pte_facts q (Z.lor (Z.lor PTE_R PTE_U) PTE_W)) as (_ & _ & -> & ->);
    [lia|done|by vm_compute| |lia].
  clear. split_and!; by vm_compute.
Qed.

(** ** mappages *)

(** Mappages on a range with no valid entry never panics.  When it
    returns 0 every address of the range translates to the matching physical
    address with the flags asked for; when it returns -1 memory is exhausted
    and a prefix of the range is mapped.  In both cases every other
    translation, every page outside the table and the free list, and the shape
    of the table are as before. *)
Theorem mappages_maps kend s l root N va size pa perm :
  0 < kend -> pt_wf kend s l root N ->
  0 <= va -> va mod PGSIZE = 0 -> 0 < size -> size mod PGSIZE = 0 -> va + size <= MAXVA ->
  0 <= pa -> pa mod PGSIZE = 0 -> pa + size <= 2 ^ 56 -> 0 <= perm < 1024 ->
  (forall v, va <= v < va + size -> Z.testbit (entry (kmem_mem s) N v) 0 = false) ->
  exists r s' l' N' k,
    mappages root va size pa perm s = Ok (r, s') /\ pt_wf kend s' l' root N' /\
    pt_keep kend l N (kmem_mem s) l' N' (kmem_mem s') /\
    ((r = 0 /\ k = size) \/ (r = -1 /\ 0 <= k < size /\ l' = [])) /\
    (forall v, va <= v < va + k ->
       uaddr (entry (kmem_mem s') N') v = pa + (v - va) /\
       PTE_FLAGS (entry (kmem_mem s') N' v) = Z.lor perm PTE_V) /\
    (forall v, 0 <= v < MAXVA -> ~ (va <= v < va + k) ->
       entry (kmem_mem s') N' v = entry (kmem_mem s) N v).
Proof.
  intros Hk Hwf Hva Hval Hsz Hszal Hmax Hpa Hpal Hpmax Hperm Hfree.
  destruct (mappages_spec kend Hk s l root N va size pa perm) as
    (r & s' & l' & N' & k & E & Hwf' & Hkeep & Hkal & Hr & Hent); auto.
  exists r, s', l', N', k. split_and!; auto.
  - intros v Hv. change PGSIZE with 4096 in *. unfold uaddr. rewrite Hent by lia.
    destruct (leaf_pte_facts (pa + (v - va) / 4096 * 4096) perm) as (_ & H1 & H2 & _); auto; [zsolve..|].
    repeat bcase; cbn [andb]; try lia. rewrite H1, H2. split; [zsolve|done].
  - intros v Hv Hout. rewrite Hent by done. repeat bcase; cbn [andb]; try done; lia.
Qed.

Lemma mappages_maps_witness : exists r s' l' N' k,
  mappages demo_root 8192 8192 2147483648 6 demo_s = Ok (r, s') /\
  pt_wf demo_kend s' l' demo_root N' /\ (r = 0 /\ k = 8192 \/ r = -1 /\ 0 <= k < 8192 /\ l' = []).
Proof.
  destruct demo_wf as [Hwf He].
  pose proof (mappages_maps demo_kend demo_s demo_l demo_root demo_N 8192 8192 2147483648 6) as H.
  specialize (H demo_pos Hwf).
  feed H ltac:(idtac; lazymatch goal with |- forall _, _ => intros v _; rewrite He; reflexivity | _ => zcompute end).
  destruct H as (r & s' & l' & N' & k & E & Hwf' & _ & Hr & _).
  exists r, s', l', N', k. split_and!; [exact E|exact Hwf'|exact Hr].
Defined.

(** ** uvmunmap *)

(** Uvmunmap with do_free set, on a run of mapped leaf pages whose
    frames are distinct pages outside the table and the free list, does not
    panic: it clears exactly those entries, returns exactly those frames to
    the allocator and touches no other page. *)
Theorem uvmunmap_frees kend s l root N va n :
  0 < kend -> pt_wf kend s l root N ->
  0 <= va -> va mod PGSIZE = 0 -> va + PGSIZE * Z.of_nat n <= MAXVA ->
  (forall k, 0 <= k < Z.of_nat n ->
     Z.testbit (entry (kmem_mem s) N (va + 4096 * k)) 0 = true /\
     PTE_FLAGS (entry (kmem_mem s) N (va + 4096 * k)) <> PTE_V) ->
  NoDup (frames (entry (kmem_mem s) N) va n) ->
  Forall (foreign kend l N) (frames (entry (kmem_mem s) N) va n) ->
  let l' := reverse (frames (entry (kmem_mem s) N) va n) ++ l in
  exists s', uvmunmap kend root va (Z.of_nat n) true s = Ok s' /\ pt_wf kend s' l' root N /\
    (forall v, 0 <= v < MAXVA -> entry (kmem_mem s') N v =
       if (va <=? v) && (v <? va + 4096 * Z.of_nat n) then 0 else entry (kmem_mem s) N v) /\
    (forall r, foreign kend l' N r -> page_eq r (kmem_mem s) (kmem_mem s')).
Proof.
  intros Hk Hwf Hva Hal Hmax Hmap Hnd Hfor l'. unfold uvmunmap. rewrite Hal. cbn [negb Z.eqb].
  change PGSIZE with 4096 in *. rewrite Nat2Z.id, (Z.mul_comm (Z.of_nat n)).
  rewrite u64_small by (change MAXVA with 274877906944 in *; pow2; lia).
  by apply uvmunmap_loop_spec.
Qed.

Lemma uvmunmap_frees_witness : exists s l N s',
  uvmalloc demo_kend demo_root 0 4096 PTE_W demo_s = Ok (4096, s) /\
  uvmunmap demo_kend demo_root 0 1 true s = Ok s' /\ pt_wf demo_kend s' l demo_root N /\
  (forall v, 0 <= v < 4096 -> entry (kmem_mem s') N v = 0).
Proof.
  destruct demo_mapped as (s & l & N & E & Hinv).
  pose proof (uvmunmap_frees demo_kend s l demo_root N 0 1 demo_pos) as H. cbv zeta in H.
  feed H ltac:(idtac; lazymatch goal with
    | |- forall _, _ => intros k Hk; destruct (demo_leaf s l N k Hinv Hk) as (? & ? & ?); auto
    | |- pt_wf _ _ _ _ _ => apply Hinv | |- NoDup _ => apply (ua_nodup _ _ _ _ _ _ _ _ _ _ _ Hinv)
    | |- Forall _ _ => apply Hinv | _ => zcompute end).
  destruct H as (s' & E' & Hwf' & He & _).
  exists s, (reverse (frames (entry (kmem_mem s) N) 0 1) ++ l), N, s'.
  split_and!; [exact E|exact E'|exact Hwf'|]. intros v Hv. rewrite He by (change MAXVA with 274877906944; lia).
  destruct (Z.leb_spec 0 v), (Z.ltb_spec v (0 + 4096 * Z.of_nat 1)); cbn [andb]; try reflexivity; lia.
Defined.

(** ** uvmalloc *)

(** A failed growth leaves the isolation invariant intact. *)
Lemma user_ok_shrink kend E E' l N l' N' :
  user_ok kend E l N ->
  (forall v, 0 <= v < MAXVA -> E' v = 0 \/ E' v = E v) ->
  (forall q, foreign kend l N q -> foreign kend l' N' q) ->
  user_ok kend E' l' N'.
Proof.
  intros [H1 H2] HE Hf.
  assert (Hu : forall v, 0 <= v < MAXVA -> user_pte (E' v) = true -> E' v = E v).
  { intros v Hv Hu. destruct (HE v Hv) as [Hz|]; [|done]. by rewrite Hz in Hu. }
  split.
  - intros v Hv Huv. rewrite (Hu v) in * by done. auto.
  - intros v v' Hv Hv' Huv Huv' Heq. pose proof (Hu v Hv Huv) as E1. pose proof (Hu v' Hv' Huv') as E2.
    rewrite E1 in Huv, Heq. rewrite E2 in Huv', Heq. eauto.
Qed.

(** Growing a process from oldsz to newsz always returns, and preserves
    the isolation of user frames.  If it returns newsz, every new address maps
    to a byte that reads 0, with user, read and the requested flags, and no old
    translation changes; otherwise it returns 0 and no address translates that
    did not before.  Data in pages the allocator and the table do not own is
    untouched either way. *)
Theorem uvmalloc_grows kend root s l N oldsz newsz xperm :
  0 < kend -> pt_wf kend s l root N -> user_ok kend (entry (kmem_mem s) N) l N ->
  0 <= oldsz <= newsz -> newsz <= MAXVA -> 0 <= xperm < 1024 ->
  (forall v, PGROUNDUP oldsz <= v < newsz + 4096 -> v < MAXVA ->
     Z.testbit (entry (kmem_mem s) N v) 0 = false) ->
  exists r s' l' N', uvmalloc kend root oldsz newsz xperm s = Ok (r, s') /\
    pt_wf kend s' l' root N' /\ user_ok kend (entry (kmem_mem s') N') l' N' /\
    (forall q, foreign kend l N q -> page_eq q (kmem_mem s) (kmem_mem s')) /\
    ((r = newsz /\
      (forall v, PGROUNDUP oldsz <= v < newsz ->
         rd (kmem_mem s') (uaddr (entry (kmem_mem s') N') v) = 0 /\
         PTE_FLAGS (entry (kmem_mem s') N' v) = Z.lor (Z.lor (Z.lor PTE_R PTE_U) xperm) PTE_V) /\
      (forall v, 0 <= v < PGROUNDUP oldsz -> v < MAXVA ->
         entry (kmem_mem s') N' v = entry (kmem_mem s) N v)) \/
     (r = 0 /\ forall v, 0 <= v < MAXVA ->
         (PGROUNDUP oldsz <= v < newsz /\ entry (kmem_mem s') N' v = 0) \/
         entry (kmem_mem s') N' v = entry (kmem_mem s) N v)).
Proof.
  intros Hk Hwf Huo Hsz Hmax Hx Hfree.
  destruct (uvmalloc_spec kend Hk root s l N oldsz newsz xperm Hwf Hsz Hmax Hx Hfree)
    as (r & s' & l' & N' & E & Hr).
  exists r, s', l', N'. split; [done|].
  destruct (PGROUNDUP_spec oldsz) as [Hal Hup]; [change MAXVA with 274877906944 in *; pow2; lia|].
  assert (Hperm : 0 <= Z.lor (Z.lor PTE_R PTE_U) xperm < 1024) by (apply lor_small; [by vm_compute|done]).
  destruct Hr as [(-> & n & Hn & Hinv)|(-> & Hwf' & Hent & Hf)].
  - assert (Hnmax : PGROUNDUP oldsz + 4096 * Z.of_nat n <= MAXVA) by (change MAXVA with 274877906944 in *; zsolve).
    split_and!; [apply Hinv| |intros q Hq; by apply (ua_frame _ _ _ _ _ _ _ _ _ _ _ Hinv)|].
    { eapply (ua_user_ok kend root (PGROUNDUP oldsz)); eauto; lia. }
    left. split_and!; auto.
    + intros v Hv. destruct (ua_index (PGROUNDUP oldsz) 0 ltac:(lia) Hal ltac:(lia) s' N' n Hnmax v ltac:(lia))
        as (i & Hi & Hidx & He & _).
      destruct (ua_in _ _ _ _ _ _ _ _ _ _ _ Hinv (Z.of_nat i)) as (q & Eq & Hqv & Hz); [lia|].
      destruct (valid_page_range kend Hk q Hqv) as [Hqr Hqa].
      destruct (leaf_pte_facts q (Z.lor (Z.lor PTE_R PTE_U) xperm)) as (_ & H1 & H2 & _); auto; [lia|].
      unfold uaddr. rewrite He, Eq, H1, H2. split; [|done]. apply Hz. unfold in_page, PGSIZE. zsolve.
    + intros v Hv Hvm. apply (ua_out _ _ _ _ _ _ _ _ _ _ _ Hinv); lia.
  - split_and!; auto; [|intros q Hq; by apply Hf].
    eapply user_ok_shrink; eauto; [|intros q Hq; by apply Hf].
    intros v Hv. destruct (Hent v Hv) as [[_ ?]|?]; auto.
Qed.

Lemma uvmalloc_grows_witness : exists r s' l' N',
  uvmalloc demo_kend demo_root 0 5000 PTE_W demo_s = Ok (r, s') /\
  pt_wf demo_kend s' l' demo_root N' /\ user_ok demo_kend (entry (kmem_mem s') N') l' N'.
Proof.
  destruct demo_wf as [Hwf He].
  pose proof (uvmalloc_grows demo_kend demo_root demo_s demo_l demo_N 0 5000 PTE_W demo_pos Hwf demo_user_ok) as H.
  feed H ltac:(idtac; lazymatch goal with
    | |- forall _, _ => intros v _ _; rewrite He; reflexivity | _ => zcompute end).
  destruct H as (r & s & l & N & E & Hwf' & Huo' & _).
  exists r, s, l, N. split_and!; [exact E|exact Hwf'|exact Huo'].
Defined.

(** ** copyout and copyin *)

(** C1: copyout to any address, valid or not, never panics and changes no
    byte except user-writable bytes of the destination range; page tables, the
    free list and all other pages keep their contents.  It returns 0 exactly
    when every byte of the range is user-writable, and then each byte is the
    one the kernel buffer held. *)
Theorem copyout_isolated kend root s l N dstva src len :
  0 < kend -> pt_wf kend s l root N -> user_ok kend (entry (kmem_mem s) N) l N ->
  0 <= dstva < 2 ^ 64 -> 0 <= len -> outside_user (entry (kmem_mem s) N) src len ->
  let E := entry (kmem_mem s) N in
  exists r s', copyout root dstva src len s = Ok (r, s') /\ (r = 0 \/ r = -1) /\
    pt_wf kend s' l root N /\ (forall va, entry (kmem_mem s') N va = E va) /\
    (forall x, rd (kmem_mem s') x = rd (kmem_mem s) x \/
       exists va, dstva <= va < dstva + len /\ writable E va /\ x = uaddr E va) /\
    (r = 0 <-> forall i, 0 <= i < len -> writable E (dstva + i)) /\
    (r = 0 -> forall i, 0 <= i < len ->
       rd (kmem_mem s') (uaddr E (dstva + i)) = rd (kmem_mem s) (src + i)).
Proof.
  intros Hk Hwf Huo Hd Hl Hout E.
  destruct (copyout_spec kend Hk s l root N dstva src len Hwf Huo Hd Hl)
    as (r & s' & Er & Hr & Hwf' & HE & Hch & Hbad & Hfun).
  exists r, s'. split_and!; auto.
  - split; [intros Hr0 i Hi; by apply Hfun|]. intros Hall. destruct Hr as [|Hr]; [done|].
    destruct (Hbad Hr) as (i & Hi & Hnw). by destruct (Hnw (Hall i Hi)).
  - intros Hr0 i Hi. by apply Hfun.
Qed.

Lemma demo_mapped_ok s l N :
  ua_inv demo_kend demo_root 0 (Z.lor (Z.lor PTE_R PTE_U) PTE_W) (kmem_mem demo_s) demo_l demo_N s l N 1 ->
  user_ok demo_kend (entry (kmem_mem s) N) l N /\
  forall v, 0 <= v < 4096 -> writable (entry (kmem_mem s) N) v.
Proof.
  intros Hinv. split.
  - eapply (ua_user_ok demo_kend demo_root 0); [lia|done| |exact Hinv| |exact demo_user_ok];
      clear; zcompute.
  - intros v Hv. destruct (demo_leaf s l N 0 Hinv ltac:(lia)) as (_ & _ & Hf).
    assert (Hm : v < MAXVA) by (change MAXVA with 274877906944; lia).
    unfold writable, user_pte.
    rewrite (entry_same_page _ _ v (0 + 4096 * 0)) by (change MAXVA with 274877906944; zsolve).
    revert Hf. generalize (entry (kmem_mem s) N (0 + 4096 * 0)). intros e Hf.
    assert (Hb : forall n, 0 <= n < 10 -> Z.testbit e n = Z.testbit 23 n).
    { intros n Hn. rewrite <- Hf. unfold PTE_FLAGS. change 1023 with (Z.ones 10).
      by rewrite Z.land_spec, Z.ones_spec_low, andb_true_r by lia. }
    rewrite !Hb by lia. auto with lia.
Qed.

(** A kernel buffer below the allocator's range is a [kbuf]. *)
Lemma kbuf_below kend root s l N dst len :
  pt_wf kend s l root N -> user_ok kend (entry (kmem_mem s) N) l N -> dst + len <= kend ->
  kbuf (entry (kmem_mem s) N) l N dst len.
Proof.
  intros Hwf Huo Hle. split.
  - intros p a x Hp Hx Hin. destruct (pw_node _ _ _ _ _ Hwf p a Hp) as (_ & [_ Ha] & _).
    unfold in_page in Hin. lia.
  - intros q x Hq Hx Hin. destruct (pw_kmem _ _ _ _ _ Hwf) as [_ _ Hv _].
    rewrite Forall_forall in Hv. destruct (Hv q Hq) as [_ ?]. unfold in_page in Hin. lia.
  - intros va x Hva Hu Hx Hin. destruct (uo_foreign _ _ _ _ Huo va Hva Hu) as ([_ ?] & _).
    unfold in_page in Hin. lia.
Qed.

Lemma copyout_isolated_witness : exists s l N r s',
  uvmalloc demo_kend demo_root 0 4096 PTE_W demo_s = Ok (4096, s) /\
  copyout demo_root 4090 1000 6 s = Ok (r, s') /\ r = 0 /\ pt_wf demo_kend s' l demo_root N.
Proof.
  destruct demo_mapped as (s & l & N & E & Hinv). destruct (demo_mapped_ok s l N Hinv) as [Huo Hw].
  pose proof (copyout_isolated demo_kend demo_root s l N 4090 1000 6 demo_pos (ua_wf _ _ _ _ _ _ _ _ _ _ _ Hinv) Huo) as H.
  feed H ltac:(idtac; lazymatch goal with
    | |- outside_user _ _ _ => eapply kb_user, kbuf_below; [apply (ua_wf _ _ _ _ _ _ _ _ _ _ _ Hinv)|exact Huo|zcompute] | _ => zcompute end).
  destruct H as (r & s' & E' & _ & Hwf' & _ & _ & Hr & _).
  exists s, l, N, r, s'. split_and!; [exact E|exact E'| |exact Hwf'].
  apply Hr. intros i Hi. apply Hw. lia.
Defined.

(** What the kernel stores to user memory with copyout it reads back with
    copyin: the destination buffer ends up with the bytes of the source. *)
Theorem copyout_copyin_roundtrip kend root s l N va src dst len s1 :
  0 < kend -> pt_wf kend s l root N -> user_ok kend (entry (kmem_mem s) N) l N ->
  0 <= va < 2 ^ 64 -> 0 <= len ->
  kbuf (entry (kmem_mem s) N) l N src len -> kbuf (entry (kmem_mem s) N) l N dst len ->
  copyout root va src len s = Ok (0, s1) ->
  exists s2, copyin root dst va len s1 = Ok (0, s2) /\
    forall i, 0 <= i < len -> rd (kmem_mem s2) (dst + i) = rd (kmem_mem s) (src + i).
Proof.
  intros Hk Hwf Huo Hva Hlen Hsrc Hdst E1.
  destruct (copyout_spec kend Hk s l root N va src len Hwf Huo Hva Hlen)
    as (r & s' & Er & _ & Hwf' & HE & _ & _ & Hfun).
  rewrite E1 in Er. injection Er as <- <-.
  assert (Huo1 : user_ok kend (entry (kmem_mem s1) N) l N).
  { apply (user_ok_shrink kend (entry (kmem_mem s) N) _ l N); auto. }
  assert (Hdst1 : kbuf (entry (kmem_mem s1) N) l N dst len).
  { destruct Hdst as [A B C]. split; auto. intros v x Hv Hu. rewrite HE in *. by apply C. }
  destruct (copyin_spec kend Hk s1 l root N dst va len Hwf' Huo1 Hva Hlen Hdst1)
    as (r & s2 & E2 & Hr & _ & _ & _ & Hbad & Hread).
  assert (Hw : forall i, 0 <= i < len -> writable (entry (kmem_mem s) N) (va + i) /\
     rd (kmem_mem s1) (uaddr (entry (kmem_mem s) N) (va + i)) = rd (kmem_mem s) (src + i)).
  { intros i Hi. apply Hfun; auto. apply Hsrc. }
  assert (r = 0) as ->.
  { destruct Hr as [|Hr]; [done|]. destruct (Hbad Hr) as (i & Hi & Hn). destruct Hn.
    destruct (Hw i Hi) as [(? & ? & _) _]. split; rewrite ?HE; auto. }
  exists s2. split; [done|]. intros i Hi. destruct (Hread eq_refl i Hi) as [_ ->].
  unfold uaddr. rewrite HE. by apply Hw.
Qed.

Lemma copyout_copyin_roundtrip_witness : exists s s1 s2,
  uvmalloc demo_kend demo_root 0 4096 PTE_W demo_s = Ok (4096, s) /\
  copyout demo_root 7 1000 3 s = Ok (0, s1) /\ copyin demo_root 2000 7 3 s1 = Ok (0, s2) /\
  rd (kmem_mem s2) 2001 = rd (kmem_mem s) 1001.
Proof.
  destruct demo_mapped as (s & l & N & E & Hinv). destruct (demo_mapped_ok s l N Hinv) as [Huo Hw].
  pose proof (ua_wf _ _ _ _ _ _ _ _ _ _ _ Hinv) as Hwf.
  assert (Hb : forall a, a + 3 <= demo_kend -> kbuf (entry (kmem_mem s) N) l N a 3).
  { intros a Ha. by eapply kbuf_below. }
  destruct (copyout_spec demo_kend demo_pos s l demo_root N 7 1000 3 Hwf Huo ltac:(zcompute) ltac:(lia))
    as (r & s1 & E1 & Hr & _ & _ & _ & Hbad & _).
  assert (r = 0) as ->.
  { destruct Hr as [|Hr]; [assumption|]. destruct (Hbad Hr) as (i & Hi & Hn). destruct Hn. apply Hw. lia. }
  destruct (copyout_copyin_roundtrip demo_kend demo_root s l N 7 1000 2000 3 s1 demo_pos Hwf Huo
    ltac:(zcompute) ltac:(lia) (Hb 1000 ltac:(clear; zcompute)) (Hb 2000 ltac:(clear; zcompute)) E1) as (s2 & E2 & Hrd).
  exists s, s1, s2. split_and!; [exact E|exact E1|exact E2|exact (Hrd 1 ltac:(lia))].
Defined.
