(* ===== verification/Kvm.v ===== *)
(** * The kernel page table

    kvmmake of vm.c builds the table every hart runs the kernel on.  A table
    is described by its regions, and kvmmap adds one; the number of free pages
    the construction can need is bounded by counting the nodes of the table. *)

From S2P Require Import Prelude Riscv Mem Kalloc Vm VmFacts VmProps.

(** ** Tables as lists of regions *)
Record region := mkRegion { r_va : Z; r_size : Z; r_pa : Z; r_perm : Z }.

Definition in_region (r : region) (v : Z) : Prop := r_va r <= v < r_va r + r_size r.
Definition region_pte (r : region) (v : Z) : Z := leaf_pte (r_pa r + (v - r_va r) / 4096 * 4096) (r_perm r).

(** The entry for address [v]; the latest region comes first. *)
Fixpoint table (rs : list region) (v : Z) : Z :=
  match rs with
  | [] => 0
  | r :: rs => if (r_va r <=? v) && (v <? r_va r + r_size r) then region_pte r v else table rs v
  end.

Record region_ok (r : region) : Prop := {
  ro_va : 0 <= r_va r /\ r_va r mod PGSIZE = 0;
  ro_size : 0 < r_size r /\ r_size r mod PGSIZE = 0 /\ r_va r + r_size r <= MAXVA;
  ro_pa : 0 <= r_pa r /\ r_pa r mod PGSIZE = 0 /\ r_pa r + r_size r <= 2 ^ 56;
  ro_perm : 0 <= r_perm r < 1024;
}.

Lemma table_out rs v : (forall r, r ∈ rs -> ~ in_region r v) -> table rs v = 0.
Proof.
  induction rs as [|r rs IH]; intros H; [done|]. cbn [table]. assert (Hr : ~ in_region r v) by (apply H; left). unfold in_region in Hr.
  repeat bcase; cbn [andb]; try lia; apply IH; intros r' Hr'; apply H; by right.
Qed.

Lemma table_in rs r v : r ∈ rs -> in_region r v -> (forall r', r' ∈ rs -> in_region r' v -> r' = r) -> table rs v = region_pte r v.
Proof.
  induction rs as [|r0 rs IH]; intros Hr Hv Hu; [by apply not_elem_of_nil in Hr|]. cbn [table].
  destruct (decide (in_region r0 v)) as [H0|H0].
  - rewrite (Hu r0) by (done || left). unfold in_region in Hv. repeat bcase; cbn [andb]; try done; lia.
  - assert (Hin : r ∈ rs) by (apply elem_of_cons in Hr as [->|]; done). unfold in_region in H0.
    repeat bcase; cbn [andb]; try lia; apply IH; auto; intros r' Hr'; apply Hu; by right.
Qed.

Lemma table_cases rs v : table rs v = 0 \/ exists r, r ∈ rs /\ in_region r v /\ table rs v = region_pte r v.
Proof.
  induction rs as [|r rs IH]; [by left|]. cbn [table]. unfold in_region in *.
  repeat bcase; cbn [andb]; try (right; exists r; split_and!; [left|lia|lia|done]);
    (destruct IH as [IH|(r' & Hr' & Hv & E)]; [by left|right; exists r'; split_and!; [by right|lia|lia|done]]).
Qed.

Lemma region_pte_facts r v : region_ok r -> in_region r v ->
  PTE2PA (region_pte r v) + v mod 4096 = r_pa r + (v - r_va r) /\ PTE_FLAGS (region_pte r v) = Z.lor (r_perm r) PTE_V /\
  (forall n, 0 <= n < 10 -> Z.testbit (region_pte r v) n = Z.testbit (Z.lor (r_perm r) PTE_V) n).
Proof.
  intros [H1 H2 H3 H4] Hv. unfold in_region in Hv. change PGSIZE with 4096 in *. unfold region_pte.
  destruct (leaf_pte_facts (r_pa r + (v - r_va r) / 4096 * 4096) (r_perm r)) as (_ & E1 & E2 & E3); [zsolve|zsolve|done|].
  rewrite E1, E2. split_and!; [zsolve|done|done].
Qed.

(** ** The nodes of the kernel's table

    The devices lie behind entry 0 of the root, memory behind entry 2, and the
    trampoline and the stacks at the top. *)
Definition knodes : list (list Z) :=
  [[]; [0]; [2]; [255]; [255; 511]] ++ ((fun k => [0; k]) <$> seqZ 96 33) ++ ((fun k => [2; k]) <$> seqZ 0 64).

Definition knode_range (v : Z) : Prop :=
  PLIC <= v < VIRTIO0 + PGSIZE \/ KERNBASE <= v < PHYSTOP \/ KSTACK 63 <= v < MAXVA.

Lemma knode_path v p : knode_range v -> path_of v p -> p ∈ knodes.
Proof.
  assert (V1 : PLIC = 201326592) by reflexivity. assert (V2 : VIRTIO0 = 268439552) by reflexivity. assert (V3 : KERNBASE = 2147483648) by reflexivity.
  assert (V4 : PHYSTOP = 2281701376) by reflexivity. assert (V5 : KSTACK 63 = 274877378560) by reflexivity. assert (V6 : MAXVA = 274877906944) by reflexivity.
  intros Hv Hp. unfold knode_range, PGSIZE in Hv. unfold path_of in Hp. rewrite !PX_eq in Hp by lia.
  change (12 + 9 * 2) with 30 in Hp. change (12 + 9 * 1) with 21 in Hp. unfold knodes.
  destruct Hv as [Hv|[Hv|Hv]].
  - replace (v / 2 ^ 30 mod 512) with 0 in Hp by zsolve. assert (Hk : 96 <= v / 2 ^ 21 mod 512 < 129) by zsolve.
    destruct Hp as [-> | ->]; [apply (bool_decide_unpack _); vm_compute; exact I|]. apply elem_of_app. right. apply elem_of_app. left. apply list_elem_of_fmap.
    eexists. split; [done|]. apply elem_of_seqZ. lia.
  - replace (v / 2 ^ 30 mod 512) with 2 in Hp by zsolve. assert (Hk : 0 <= v / 2 ^ 21 mod 512 < 64) by zsolve.
    destruct Hp as [-> | ->]; [apply (bool_decide_unpack _); vm_compute; exact I|]. apply elem_of_app. right. apply elem_of_app. right. apply list_elem_of_fmap.
    eexists. split; [done|]. apply elem_of_seqZ. lia.
  - replace (v / 2 ^ 30 mod 512) with 255 in Hp by zsolve. replace (v / 2 ^ 21 mod 512) with 511 in Hp by zsolve.
    destruct Hp as [-> | ->]; apply (bool_decide_unpack _); vm_compute; exact I.
Qed.

Lemma nodes_size (nodes : list (list Z)) (N : ptmap) : (forall p, is_Some (N !! p) -> p ∈ nodes) -> (size N <= length nodes)%nat.
Proof.
  intros H. rewrite <- size_dom. assert (Hs : dom N ⊆ (list_to_set (remove_dups nodes) : gset (list Z))).
  { intros p Hp. apply elem_of_list_to_set, elem_of_remove_dups, H. by apply elem_of_dom. }
  apply subseteq_size in Hs. rewrite size_list_to_set in Hs by apply NoDup_remove_dups. etransitivity; [exact Hs|].
  apply submseteq_length, NoDup_submseteq; [apply NoDup_remove_dups|]. intros p. by rewrite elem_of_remove_dups.
Qed.

(** ** Building a table *)
Section build.
Context (kend : Z) (kend_pos : 0 < kend) (nodes : list (list Z)) (m0 : mem) (l0 : list Z).

(** The table at [root] has exactly the regions [rs]; its nodes are among
    [nodes] and, with the free pages, number [T]; the pages [st] are
    allocated and belong to nobody.  Since the construction began with memory
    [m0] and free pages [l0], only pages of [l0] have changed. *)
Record kvm_inv (root : Z) (rs : list region) (st : list Z) (T : nat) (s : kmem) (l : list Z) (N : ptmap) : Prop := {
  kv_wf : pt_wf kend s l root N;
  kv_table : forall v, 0 <= v < MAXVA -> entry (kmem_mem s) N v = table rs v;
  kv_nodes : forall p, is_Some (N !! p) -> p ∈ nodes;
  kv_count : (size N + length l = T)%nat;
  kv_stacks : Forall (foreign kend l N) st /\ NoDup st;
  kv_free : exists c, l0 = c ++ l;
  kv_low : forall x, x < kend -> rd (kmem_mem s) x = rd m0 x;
  kv_kept : forall q, valid_page kend q -> q ∉ l0 -> foreign kend l N q /\ page_eq q m0 (kmem_mem s);
}.

Lemma kvm_create s q l : kmem_inv kend s (q :: l) -> m0 = kmem_mem s -> l0 = q :: l -> [] ∈ nodes ->
  exists s1, uvmcreate s = (q, s1) /\ q <> 0 /\ kvm_inv q [] [] (length l0) s1 l {[ [] := q ]}.
Proof.
  intros Hi Em El Hroot. destruct (uvmcreate_spec kend kend_pos s q l Hi) as (s1 & E & Hwf & He & Hs).
  destruct Hi as [_ Hnd Hv _]. apply NoDup_cons in Hnd as [Hql _]. apply Forall_cons in Hv as [Hqv _].
  exists s1. split; [done|]. split; [apply valid_page_range in Hqv; [lia|done]|]. split; auto.
  - intros p [a Hp]. by apply lookup_singleton_Some in Hp as [<- _].
  - by rewrite El.
  - split; constructor.
  - by exists [q].
  - intros x Hx. rewrite Em. apply Hs. destruct Hqv as (_ & Hk & _). unfold in_page. lia.
  - intros r Hr Hrl. rewrite El in Hrl. apply not_elem_of_cons in Hrl as [Hne Hrl]. rewrite Em. split; [|by apply (page_eq_of_same_except kend q)].
    split_and!; auto. intros p Hp. apply lookup_singleton_Some in Hp as [_ <-]. done.
Qed.

Definition new_region (rs : list region) (r : region) : Prop :=
  region_ok r /\ (forall v p, in_region r v -> path_of v p -> p ∈ nodes) /\ (forall r' v, r' ∈ rs -> in_region r v -> ~ in_region r' v).

Lemma mappages_inv root rs st T s l N r :
  kvm_inv root rs st T s l N -> (length nodes < T)%nat -> new_region rs r ->
  exists s' l' N', mappages root (r_va r) (r_size r) (r_pa r) (r_perm r) s = Ok (0, s') /\ kvm_inv root (r :: rs) st T s' l' N' /\
    pt_keep kend l N (kmem_mem s) l' N' (kmem_mem s').
Proof.
  intros [Hwf Ht Hn Hc [Hf Hd] [c0 Hfr] Hlow Hkept] HT (Hr & Hk & Hdisj). destruct Hr as [[A1 A2] (B1 & B2 & B3) (C1 & C2 & C3) D].
  destruct (mappages_grown kend kend_pos s l root N (r_va r) (r_size r) (r_pa r) (r_perm r)) as
    (c & s' & l' & N' & k & E & Hwf' & Hkeep & [Hcnt Hnew] & _ & Hres & Hent); auto.
  { intros v Hv. rewrite Ht by lia. rewrite table_out by (intros r' Hr'; by apply Hdisj). apply Z.bits_0. }
  assert (Hn' : forall p, is_Some (N' !! p) -> p ∈ nodes).
  { intros p Hp. destruct (Hnew p Hp) as [Ho|(v & Hv & Hpv)]; [auto|]. by apply (Hk v). }
  destruct Hres as [[-> ->]|(_ & _ & ->)]; [|pose proof (nodes_size nodes N' Hn'); cbn [length] in Hcnt; lia].
  exists s', l', N'. split; [exact E|]. split; [|exact Hkeep]. split; auto.
  - intros v Hv. rewrite Hent, Ht by done. reflexivity.
  - lia.
  - split; [|done]. eapply Forall_impl; [exact Hf|]. intros q Hq. by apply (pk_foreign _ _ _ _ _ _ _ Hkeep).
  - destruct (pk_free _ _ _ _ _ _ _ Hkeep) as [c1 Hc1]. exists (c0 ++ c1). by rewrite Hfr, Hc1, app_assoc.
  - intros x Hx. by rewrite (pk_low _ _ _ _ _ _ _ Hkeep), Hlow.
  - intros q Hq Hql. destruct (Hkept q Hq Hql) as [K1 K2]. destruct (pk_foreign _ _ _ _ _ _ _ Hkeep q K1) as [K3 K4].
    split; [done|]. intros x Hx. by rewrite K4, K2.
Qed.

Lemma kvmmap_inv root rs st T s l N r :
  kvm_inv root rs st T s l N -> (length nodes < T)%nat -> new_region rs r ->
  exists s' l' N', kvmmap root (r_va r) (r_pa r) (r_size r) (r_perm r) s = Ok s' /\ kvm_inv root (r :: rs) st T s' l' N'.
Proof.
  intros Hi HT Hr. destruct (mappages_inv _ _ _ _ _ _ _ _ Hi HT Hr) as (s' & l' & N' & E & Hi' & _).
  exists s', l', N'. unfold kvmmap. rewrite E. by split.
Qed.

(** A page for a stack leaves the table and joins [st]. *)
Lemma kvm_kalloc root rs st T s l N : kvm_inv root rs st T s l N -> (length nodes < T)%nat ->
  exists q s' l', kalloc s = (q, s') /\ l = q :: l' /\ same_except q (kmem_mem s) (kmem_mem s') /\
    q <> 0 /\ 0 <= q < 2 ^ 55 /\ q mod PGSIZE = 0 /\ kvm_inv root rs (st ++ [q]) (T - 1) s' l' N.
Proof.
  intros [Hwf Ht Hn Hc [Hf Hd] [c0 Hfr] Hlow Hkept] HT. pose proof (nodes_size nodes N Hn). destruct l as [|q l]; [cbn [length] in Hc; lia|].
  destruct (pt_wf_kalloc kend kend_pos s q l root N Hwf) as (s1 & E & Hwf1 & Hfor & Hq0 & He & Hse).
  assert (Hv : valid_page kend q) by apply Hfor. destruct (valid_page_range kend kend_pos q Hv) as [Hr Ha].
  exists q, s1, l. split_and!; auto; [lia|destruct Hv as (_ & _ & Hv); change PHYSTOP with 2281701376 in Hv; pow2; lia|].
  split; auto.
  - intros v Hv'. by rewrite He, Ht.
  - cbn [length] in Hc. lia.
  - rewrite Forall_app, Forall_singleton. split; [split; [|done]|].
    + eapply Forall_impl; [exact Hf|]. intros a (F1 & F2 & F3). apply not_elem_of_cons in F2 as [_ F2]. by split.
    + apply NoDup_app. split_and!; [done|intros a Ha' ->%list_elem_of_singleton|apply NoDup_singleton].
      rewrite Forall_forall in Hf. destruct (Hf _ Ha') as (_ & F2 & _). apply not_elem_of_cons in F2 as [F2 _]. done.
  - exists (c0 ++ [q]). by rewrite Hfr, <- app_assoc.
  - intros x Hx. rewrite Hse; [by apply Hlow|]. destruct Hfor as ((_ & Hk & _) & _). unfold in_page. lia.
  - intros r Hr' Hrl. destruct (Hkept r Hr' Hrl) as [(K1 & K2 & K3) K4]. apply not_elem_of_cons in K2 as [K2 K2']. split; [by split|].
    intros x Hx. rewrite (page_eq_of_same_except kend q r _ _ (proj1 Hfor) Hr') by done. by apply K4.
Qed.

End build.

Section stacks.
Context (kend : Z) (kend_pos : 0 < kend) (m0 : mem) (l0 : list Z).
Abbreviation kvm_inv := (kvm_inv kend knodes m0 l0).
Abbreviation RW := (Z.lor PTE_R PTE_W).
Abbreviation RX := (Z.lor PTE_R PTE_X).
Definition stack_region (i : nat) (q : Z) : region := mkRegion (KSTACK (Z.of_nat i)) PGSIZE q RW.
Definition stack_regions (st : list Z) : list region := reverse (imap stack_region st).

Lemma elem_of_stack_regions r st : r ∈ stack_regions st <-> exists i q, st !! i = Some q /\ r = stack_region i q.
Proof.
  unfold stack_regions. rewrite elem_of_reverse, list_elem_of_lookup. split.
  - intros [i Hi]. rewrite list_lookup_imap in Hi. destruct (st !! i) as [q|] eqn:Eq; [|done]. injection Hi as <-. by exists i, q.
  - intros (i & q & Eq & ->). exists i. by rewrite list_lookup_imap, Eq.
Qed.

Lemma stack_regions_snoc st q : stack_regions (st ++ [q]) = stack_region (length st) q :: stack_regions st.
Proof. unfold stack_regions. rewrite imap_app. cbn [imap]. rewrite Nat.add_0_r. by rewrite reverse_snoc. Qed.

Lemma proc_mapstacks_loop_inv n root base st T s l N :
  kvm_inv root (stack_regions st ++ base) st T s l N -> (n + length st = 64)%nat -> (102 + n < T)%nat ->
  (forall r v, r ∈ base -> KSTACK 63 <= v < TRAMPOLINE -> ~ in_region r v) ->
  exists s' l' N' st', proc_mapstacks_loop n (Z.of_nat (length st)) root s = Ok s' /\ length st' = 64%nat /\
    kvm_inv root (stack_regions st' ++ base) st' (T - n) s' l' N'.
Proof.
  assert (Hkn : length knodes = 102%nat) by reflexivity.
  revert st T s l N. induction n as [|n IH]; intros st T s l N Hi Hn HT Hb; cbn [proc_mapstacks_loop].
  - exists s, l, N, st. split_and!; [done|lia|by rewrite Nat.sub_0_r].
  - destruct (kvm_kalloc kend kend_pos _ _ _ _ _ _ _ _ _ _ Hi ltac:(lia)) as (q & s1 & l1 & E & _ & _ & Hq & Hqr & Hqa & Hi1). rewrite E.
    destruct (Z.eqb_spec q 0); [done|].
    destruct (kvmmap_inv kend kend_pos _ _ _ _ _ _ _ _ _ _ (stack_region (length st) q) Hi1) as (s2 & l2 & N2 & E2 & Hi2); [lia| |].
    { assert (VT : TRAMPOLINE = 274877902848) by reflexivity. assert (VM : MAXVA = 274877906944) by reflexivity.
      unfold new_region, in_region. change (KSTACK 63) with 274877378560 in *. cbn [stack_region r_va r_size r_pa r_perm]. unfold KSTACK, PGSIZE in *. rewrite VT in *.
      split_and!.
      - split; cbn [stack_region r_va r_size r_pa r_perm]; unfold KSTACK, PGSIZE; rewrite ?VT, ?VM; split_and!; try lia; try zsolve; try done; by vm_compute.
      - intros v p Hv. apply knode_path. unfold knode_range. change (KSTACK 63) with 274877378560. rewrite VM. right. right. lia.
      - intros r' v Hr' Hv. apply elem_of_app in Hr' as [Hr'|Hr'].
        + apply elem_of_stack_regions in Hr' as (i & q' & Hi' & ->). apply lookup_lt_Some in Hi'.
          cbn [stack_region r_va r_size]. unfold KSTACK, PGSIZE. rewrite VT. lia.
        + apply (Hb r' v Hr'). lia. }
    cbn [stack_region r_va r_size r_pa r_perm] in E2. rewrite E2. cbn [rbind].
    destruct (IH (st ++ [q]) (T - 1)%nat s2 l2 N2) as (s' & l' & N' & st' & E' & Hl' & Hi'); [| |lia|done|].
    + by rewrite stack_regions_snoc.
    + rewrite length_app. cbn [length]. lia.
    + exists s', l', N', st'. rewrite length_app in E'. cbn [length] in E'. replace (Z.of_nat (length st) + 1) with (Z.of_nat (length st + 1)) by lia.
      split_and!; [exact E'|done|]. by replace (T - S n)%nat with (T - 1 - n)%nat by lia.
Qed.
End stacks.

(** ** kvmmake *)
Ltac kconst := change UART0 with 268435456 in *; change VIRTIO0 with 268439552 in *; change PLIC with 201326592 in *; change KERNBASE with 2147483648 in *;
  change PHYSTOP with 2281701376 in *; change TRAMPOLINE with 274877902848 in *; change MAXVA with 274877906944 in *; change PGSIZE with 4096 in *;
  change (KSTACK 63) with 274877378560 in *.

Section kvmmake.
Context (kend : Z) (kend_pos : 0 < kend) (etext trampoline : Z).
Abbreviation RW := (Z.lor PTE_R PTE_W).
Abbreviation RX := (Z.lor PTE_R PTE_X).

Definition uart_r : region := mkRegion UART0 PGSIZE UART0 RW.
Definition virtio_r : region := mkRegion VIRTIO0 PGSIZE VIRTIO0 RW.
Definition plic_r : region := mkRegion PLIC 67108864 PLIC RW.
Definition text_r : region := mkRegion KERNBASE (etext - KERNBASE) KERNBASE RX.
Definition data_r : region := mkRegion etext (PHYSTOP - etext) etext RW.
Definition tramp_r : region := mkRegion TRAMPOLINE PGSIZE trampoline RX.
Definition kernel_regions : list region := [tramp_r; data_r; text_r; plic_r; virtio_r; uart_r].

Context (Hetext : KERNBASE < etext < PHYSTOP) (Hetext_al : etext mod PGSIZE = 0).
Context (Htramp : KERNBASE <= trampoline < etext) (Htramp_al : trampoline mod PGSIZE = 0).

Lemma kernel_region_ok r : r ∈ kernel_regions -> region_ok r.
Proof.
  unfold kernel_regions. intros H. repeat (apply elem_of_cons in H as [->|H]); [..|by apply not_elem_of_nil in H];
    (split; cbn [tramp_r data_r text_r plic_r virtio_r uart_r r_va r_size r_pa r_perm]; kconst; split_and!; try lia; try zsolve; try done; by vm_compute).
Qed.

Lemma kernel_region_range r v : r ∈ kernel_regions -> in_region r v -> knode_range v.
Proof.
  unfold kernel_regions, in_region, knode_range. intros H Hv. repeat (apply elem_of_cons in H as [->|H]); [..|by apply not_elem_of_nil in H];
    cbn [tramp_r data_r text_r plic_r virtio_r uart_r r_va r_size] in Hv; kconst; lia.
Qed.

(** Two regions of the kernel, and its stacks, do not overlap. *)
Lemma kernel_regions_apart r r' v : r ∈ kernel_regions -> r' ∈ kernel_regions -> in_region r v -> in_region r' v -> r = r'.
Proof.
  unfold kernel_regions, in_region. intros H H' Hv Hv'.
  repeat (apply elem_of_cons in H as [->|H]); [..|by apply not_elem_of_nil in H];
    (repeat (apply elem_of_cons in H' as [->|H']); [..|by apply not_elem_of_nil in H']; first [done|exfalso];
     cbn [tramp_r data_r text_r plic_r virtio_r uart_r r_va r_size] in Hv, Hv'; kconst; lia).
Qed.

Lemma kernel_regions_stacks r v : r ∈ kernel_regions -> KSTACK 63 <= v < TRAMPOLINE -> ~ in_region r v.
Proof.
  unfold kernel_regions, in_region. intros H Hv. repeat (apply elem_of_cons in H as [->|H]); [..|by apply not_elem_of_nil in H];
    cbn [tramp_r data_r text_r plic_r virtio_r uart_r r_va r_size]; kconst; lia.
Qed.

(** Adding the regions in the order of the code *)
Lemma kernel_new_region pre r post : kernel_regions = pre ++ r :: post -> (r ∉ post) -> new_region knodes post r.
Proof.
  intros E Hn. assert (Hr : r ∈ kernel_regions) by (rewrite E; set_solver). split_and!.
  - by apply kernel_region_ok.
  - intros v p Hv. apply knode_path. by eapply kernel_region_range.
  - intros r' v Hr' Hv Hv'. assert (Hr2 : r' ∈ kernel_regions) by (rewrite E; set_solver). by rewrite (kernel_regions_apart r r' v) in Hn.
Qed.

Lemma kvmmake_inv s l : kmem_inv kend s l -> (167 <= length l)%nat ->
  exists root s' l' N st, kvmmake etext trampoline s = Ok (root, s') /\ length st = 64%nat /\
    kvm_inv kend knodes (kmem_mem s) l root (stack_regions st ++ kernel_regions) st (length l - 64) s' l' N.
Proof.
  intros Hi Hl. destruct l as [|q l]; [cbn [length] in Hl; lia|].
  destruct (kvm_create kend kend_pos knodes _ _ s q l Hi eq_refl eq_refl) as (s1 & E & Hq & H0); [left|].
  unfold uvmcreate in E. unfold kvmmake. destruct (kalloc s) as [q' s0]. destruct (Z.eqb_spec q' 0); [congruence|]. injection E as -> <-.
  set (s1 := set_mem s0 _) in *. set (T := length (q :: l)) in *.
  assert (Hne : NoDup kernel_regions).
  { unfold kernel_regions, tramp_r, data_r, text_r, plic_r, virtio_r, uart_r.
    repeat (apply NoDup_cons; split; [|]); try apply NoDup_nil; try done;
    (intros H; repeat (apply elem_of_cons in H as [[=]|H]); [..|by apply not_elem_of_nil in H]; kconst; lia). }
  assert (Hstep : forall pre r post s2 l2 N2, kernel_regions = pre ++ r :: post -> kvm_inv kend knodes (kmem_mem s) (q :: l) q post [] T s2 l2 N2 ->
            exists s' l' N', kvmmap q (r_va r) (r_pa r) (r_size r) (r_perm r) s2 = Ok s' /\ kvm_inv kend knodes (kmem_mem s) (q :: l) q (r :: post) [] T s' l' N').
  { intros pre r post s2 l2 N2 Er H2. apply (kvmmap_inv kend kend_pos knodes _ _ q post [] T s2 l2 N2 r H2); [change (length knodes) with 102%nat; lia|].
    apply (kernel_new_region pre); [done|]. rewrite Er in Hne. apply NoDup_app in Hne as (_ & _ & Hne). by apply NoDup_cons in Hne as [? _]. }
  destruct (Hstep [tramp_r; data_r; text_r; plic_r; virtio_r] uart_r [] _ _ _ eq_refl H0) as (s2 & l2 & N2 & E2 & H2).
  destruct (Hstep [tramp_r; data_r; text_r; plic_r] virtio_r [uart_r] _ _ _ eq_refl H2) as (s3 & l3 & N3 & E3 & H3).
  destruct (Hstep [tramp_r; data_r; text_r] plic_r [virtio_r; uart_r] _ _ _ eq_refl H3) as (s4 & l4 & N4 & E4 & H4).
  destruct (Hstep [tramp_r; data_r] text_r [plic_r; virtio_r; uart_r] _ _ _ eq_refl H4) as (s5 & l5 & N5 & E5 & H5).
  destruct (Hstep [tramp_r] data_r [text_r; plic_r; virtio_r; uart_r] _ _ _ eq_refl H5) as (s6 & l6 & N6 & E6 & H6).
  destruct (Hstep [] tramp_r [data_r; text_r; plic_r; virtio_r; uart_r] _ _ _ eq_refl H6) as (s7 & l7 & N7 & E7 & H7).
  cbn [tramp_r data_r text_r plic_r virtio_r uart_r r_va r_size r_pa r_perm] in *.
  rewrite E2. cbn [rbind]. rewrite E3. cbn [rbind]. rewrite E4. cbn [rbind]. rewrite E5. cbn [rbind]. rewrite E6. cbn [rbind]. rewrite E7. cbn [rbind].
  destruct (proc_mapstacks_loop_inv kend kend_pos _ _ 64 q kernel_regions [] T s7 l7 N7 H7) as (s8 & l8 & N8 & st & E8 & Hst & H8); [done|lia|apply kernel_regions_stacks|].
  unfold proc_mapstacks. change (Z.to_nat NPROC) with 64%nat. change (Z.of_nat (length [])) with 0 in E8. rewrite E8. cbn [rbind].
  exists q, s8, l8, N8, st. split; [reflexivity|]. split; [exact Hst|exact H8].
Qed.

Context (st : list Z) (Hst : length st = 64%nat).
Abbreviation all_regions := (stack_regions st ++ kernel_regions).

Lemma stack_region_spot i q v : st !! i = Some q -> in_region (stack_region i q) v ->
  KSTACK 63 <= v < TRAMPOLINE /\ 0 <= v - KSTACK (Z.of_nat i) < 4096.
Proof.
  intros Hi Hv. apply lookup_lt_Some in Hi. unfold in_region in Hv. cbn [stack_region r_va r_size] in Hv. unfold KSTACK in *. kconst. lia.
Qed.

Lemma all_regions_apart r r' v : r ∈ all_regions -> r' ∈ all_regions -> in_region r v -> in_region r' v -> r = r'.
Proof.
  intros H H' Hv Hv'. apply elem_of_app in H as [H|H], H' as [H'|H'].
  - apply elem_of_stack_regions in H as (i & q & Hi & ->), H' as (j & q' & Hj & ->).
    destruct (stack_region_spot _ _ _ Hi Hv) as [_ H1], (stack_region_spot _ _ _ Hj Hv') as [_ H2].
    assert (i = j) as -> by (unfold KSTACK in *; kconst; lia). congruence.
  - apply elem_of_stack_regions in H as (i & q & Hi & ->). destruct (stack_region_spot _ _ _ Hi Hv) as [H1 _].
    by destruct (kernel_regions_stacks r' v H' H1).
  - apply elem_of_stack_regions in H' as (i & q & Hi & ->). destruct (stack_region_spot _ _ _ Hi Hv') as [H1 _].
    by destruct (kernel_regions_stacks r v H H1).
  - by apply (kernel_regions_apart r r' v).
Qed.

Lemma all_region_ok r : Forall (fun q => 0 <= q < 2 ^ 55 /\ q mod PGSIZE = 0) st -> r ∈ all_regions ->
  region_ok r /\ (r_perm r = RW \/ r_perm r = RX).
Proof.
  intros Hq [H|H]%elem_of_app.
  - apply elem_of_stack_regions in H as (i & q & Hi & ->). rewrite Forall_forall in Hq. destruct (Hq q) as [H1 H2]; [by eapply list_elem_of_lookup_2|].
    split; [|by left]. apply lookup_lt_Some in Hi.
    split; cbn [stack_region r_va r_size r_pa r_perm]; unfold KSTACK; kconst; split_and!; try lia; try zsolve; try done; by vm_compute.
  - split; [by apply kernel_region_ok|]. unfold kernel_regions in H.
    repeat (apply elem_of_cons in H as [->|H]); [..|by apply not_elem_of_nil in H]; cbn; auto.
Qed.

(** What the table says about an address of one region. *)
Lemma all_regions_entry r v : Forall (fun q => 0 <= q < 2 ^ 55 /\ q mod PGSIZE = 0) st -> r ∈ all_regions -> in_region r v ->
  PTE2PA (table all_regions v) + v mod 4096 = r_pa r + (v - r_va r) /\ PTE_FLAGS (table all_regions v) = Z.lor (r_perm r) PTE_V.
Proof.
  intros Hq Hr Hv. rewrite (table_in _ r v Hr Hv) by (intros r' Hr' Hv'; by apply (all_regions_apart r' r v)).
  destruct (all_region_ok r Hq Hr) as [Hok _]. by destruct (region_pte_facts r v Hok Hv) as (H1 & H2 & _).
Qed.

Lemma all_regions_guard i q o : st !! i = Some q -> 0 <= o < PGSIZE -> table all_regions (KSTACK (Z.of_nat i) - PGSIZE + o) = 0.
Proof.
  intros Hi Ho. apply table_out. apply lookup_lt_Some in Hi as Hi'. intros r [H|H]%elem_of_app Hv.
  - apply elem_of_stack_regions in H as (j & q' & Hj & ->). destruct (stack_region_spot _ _ _ Hj Hv) as [_ H2]. unfold KSTACK in *. kconst. lia.
  - revert H Hv. unfold kernel_regions, in_region. intros H Hv. repeat (apply elem_of_cons in H as [->|H]); [..|by apply not_elem_of_nil in H];
      cbn [tramp_r data_r text_r plic_r virtio_r uart_r r_va r_size] in Hv; unfold KSTACK in *; kconst; lia.
Qed.

Lemma all_regions_bits v : Forall (fun q => 0 <= q < 2 ^ 55 /\ q mod PGSIZE = 0) st ->
  Z.testbit (table all_regions v) 4 = false /\ Z.testbit (table all_regions v) 2 && Z.testbit (table all_regions v) 3 = false.
Proof.
  intros Hq. destruct (table_cases all_regions v) as [->|(r & Hr & Hv & ->)]; [by rewrite !Z.bits_0|].
  destruct (all_region_ok r Hq Hr) as [Hok Hp]. destruct (region_pte_facts r v Hok Hv) as (_ & _ & Hb).
  rewrite !Hb by lia. destruct Hp as [-> | ->]; by vm_compute.
Qed.
End kvmmake.

(** What the kernel's table translates, for stacks on the pages [st]. *)
Record kernel_map (etext trampoline : Z) (st : list Z) (E : Z -> Z) : Prop := {
  km_direct : forall v, UART0 <= v < UART0 + PGSIZE \/ VIRTIO0 <= v < VIRTIO0 + PGSIZE \/ PLIC <= v < PLIC + 67108864 \/ etext <= v < PHYSTOP ->
    uaddr E v = v /\ PTE_FLAGS (E v) = Z.lor (Z.lor PTE_R PTE_W) PTE_V;
  km_text : forall v, KERNBASE <= v < etext -> uaddr E v = v /\ PTE_FLAGS (E v) = Z.lor (Z.lor PTE_R PTE_X) PTE_V;
  km_trampoline : forall o, 0 <= o < PGSIZE ->
    uaddr E (TRAMPOLINE + o) = trampoline + o /\ PTE_FLAGS (E (TRAMPOLINE + o)) = Z.lor (Z.lor PTE_R PTE_X) PTE_V;
  km_stacks : forall i q o, st !! i = Some q -> 0 <= o < PGSIZE ->
    uaddr E (KSTACK (Z.of_nat i) + o) = q + o /\ PTE_FLAGS (E (KSTACK (Z.of_nat i) + o)) = Z.lor (Z.lor PTE_R PTE_W) PTE_V /\
    Z.testbit (E (KSTACK (Z.of_nat i) - PGSIZE + o)) 0 = false;
  km_safe : forall v, 0 <= v < MAXVA -> Z.testbit (E v) 4 = false /\ Z.testbit (E v) 2 && Z.testbit (E v) 3 = false;
}.

Lemma kernel_map_regions etext trampoline st E :
  KERNBASE < etext < PHYSTOP -> etext mod PGSIZE = 0 -> KERNBASE <= trampoline < etext -> trampoline mod PGSIZE = 0 ->
  Forall (fun q => 0 <= q < 2 ^ 55 /\ q mod PGSIZE = 0) st -> length st = 64%nat ->
  (forall v, 0 <= v < MAXVA -> E v = table (stack_regions st ++ kernel_regions etext trampoline) v) -> kernel_map etext trampoline st E.
Proof.
  intros H1 H2 H3 H4 Hq Hst Ht.
  assert (Hin : forall r v, r ∈ stack_regions st ++ kernel_regions etext trampoline -> in_region r v -> 0 <= v < MAXVA ->
            uaddr E v = r_pa r + (v - r_va r) /\ PTE_FLAGS (E v) = Z.lor (r_perm r) PTE_V).
  { intros r v Hr Hv Hm. unfold uaddr. rewrite Ht by done. by apply all_regions_entry. }
  assert (Hker : forall r, r ∈ kernel_regions etext trampoline -> r ∈ stack_regions st ++ kernel_regions etext trampoline) by (intros r Hr; apply elem_of_app; by right).
  split.
  - assert (Hid : forall k r v, kernel_regions etext trampoline !! k = Some r -> in_region r v -> 0 <= v < MAXVA -> r_pa r = r_va r -> r_perm r = Z.lor PTE_R PTE_W ->
              uaddr E v = v /\ PTE_FLAGS (E v) = Z.lor (Z.lor PTE_R PTE_W) PTE_V).
    { intros k r v Hr Hv Hm Ea Ep. destruct (Hin r v) as [-> ->]; [apply Hker; by eapply list_elem_of_lookup_2|done|done|]. rewrite Ea, Ep. split; [lia|done]. }
    intros v [Hv|[Hv|[Hv|Hv]]]; [apply (Hid 5%nat uart_r)|apply (Hid 4%nat virtio_r)|apply (Hid 3%nat plic_r)|apply (Hid 1%nat (data_r etext))];
      try reflexivity; unfold in_region; cbn [uart_r virtio_r plic_r data_r r_va r_size]; kconst; lia.
  - intros v Hv. destruct (Hin (text_r etext) v) as [-> ->]; [apply Hker, (list_elem_of_lookup_2 _ 2); reflexivity|unfold in_region; cbn [text_r r_va r_size]; kconst; lia|kconst; lia|].
    split; [cbn [text_r r_pa r_va]; lia|done].
  - intros o Ho. destruct (Hin (tramp_r trampoline) (TRAMPOLINE + o)) as [-> ->]; [apply Hker; left|unfold in_region; cbn [tramp_r r_va r_size]; kconst; lia|kconst; lia|].
    split; [cbn [tramp_r r_pa r_va]; lia|done].
  - intros i q o Hi' Ho. apply lookup_lt_Some in Hi' as Hlt.
    destruct (Hin (stack_region i q) (KSTACK (Z.of_nat i) + o)) as [-> ->]; [apply elem_of_app; left; apply elem_of_stack_regions; eauto|..].
    1,2: unfold in_region; cbn [stack_region r_va r_size]; unfold KSTACK; kconst; lia.
    split_and!; [cbn [stack_region r_pa r_va]; lia|done|]. rewrite Ht by (unfold KSTACK; kconst; lia).
    by rewrite (all_regions_guard etext trampoline H1 st Hst i q o Hi' Ho).
  - intros v Hv. rewrite Ht by done. by apply all_regions_bits.
Qed.

Lemma foreign_small kend l N st : 0 < kend -> Forall (foreign kend l N) st -> Forall (fun q => 0 <= q < 2 ^ 55 /\ q mod PGSIZE = 0) st.
Proof. intros Hk Hf. eapply Forall_impl; [exact Hf|]. intros q ((Hv1 & Hv2 & Hv3) & _). kconst. pow2. split; [lia|done]. Qed.

(** A table keeps its shape and its entries when only pages that are neither
    its nodes nor on the free list change, and pages leave the free list. *)
Lemma pt_wf_other kend s l root N s' l' : pt_wf kend s l root N -> kmem_inv kend s' l' -> (forall q, q ∈ l' -> q ∈ l) ->
  (forall p a, N !! p = Some a -> page_eq a (kmem_mem s) (kmem_mem s')) ->
  pt_wf kend s' l' root N /\ (forall va, entry (kmem_mem s') N va = entry (kmem_mem s) N va).
Proof.
  intros Hwf Hi Hl Hp.
  assert (Hld : forall p a i, N !! p = Some a -> idx i -> load64 (kmem_mem s') (a + 8 * i) = load64 (kmem_mem s) (a + 8 * i)).
  { intros p a i Ha Hi'. apply load64_ext. intros x Hx. apply (Hp p a Ha). by eapply slot_in_page. }
  split; [split; try apply Hwf; auto|].
  - intros p a Ha. destruct (pw_node _ _ _ _ _ Hwf p a Ha) as (? & ? & Hn). split_and!; auto.
  - intros p a i Ha Hlen Hi'. cbv zeta. rewrite (Hld p a i) by done. by apply (pw_edge _ _ _ _ _ Hwf).
  - intros va. unfold entry. destruct (leaf_page N va) as [a|] eqn:Ha; [|done]. apply (Hld _ _ _ Ha), PX_idx. lia.
Qed.


(** A machine with 200 pages *)
Definition small_kend : Z := PHYSTOP - 200 * PGSIZE.
Lemma small_kend_pos : 0 < small_kend.
Proof. by vm_compute. Qed.
Lemma small_kinit : exists s, kinit small_kend (mkKmem ∅ 0) = Ok s /\ kmem_inv small_kend s (page_run 200 small_kend []).
Proof.
  destruct (freerange_loop_spec small_kend small_kend_pos 200 small_kend PHYSTOP (mkKmem ∅ 0) []) as (s & E & Hi).
  - split; simpl; auto using mem_bytes_empty; constructor.
  - by vm_compute.
  - lia.
  - lia.
  - intros q Hq. by apply not_elem_of_nil in Hq.
  - by vm_compute.
  - exists s. split; [|exact Hi]. unfold kinit, freerange. replace (Z.to_nat _) with 200%nat by (by vm_compute).
    replace (PGROUNDUP small_kend) with small_kend by (by vm_compute). exact E.
Qed.

