(* ===== verification/Spinlock.v ===== *)
(** * Spin locks and sleep locks: kernel/spinlock.c, kernel/sleeplock.c

    Every CPU runs acquire and release one memory access at a time and the
    accesses of different CPUs interleave arbitrarily.  The theorems justify
    treating a critical section as one step in the rest of the development. *)

From S2P Require Import Prelude Riscv.

(** ** push_off and pop_off (struct cpu: noff, intena; sstatus.SIE) *)
Record cpu := mkCpu { noff : Z; intena : bool; intr : bool }.

Definition push_off (c : cpu) : cpu :=
  let old := intr c in
  mkCpu (noff c + 1) (if noff c =? 0 then old else intena c) false.

Definition pop_off (c : cpu) : res cpu :=
  if intr c then Panic "pop_off - interruptible"
  else if noff c <? 1 then Panic "pop_off"
  else
    let n := noff c - 1 in
    Ok (mkCpu n (intena c) (if (n =? 0) && intena c then true else intr c)).

(** ** The lock word, and the accesses of acquire and release *)
Record spinlock := mkLk { locked : Z; lk_cpu : option nat }.

Definition initlock : spinlock := mkLk 0 None.

Definition holding (lk : spinlock) (me : nat) : bool :=
  negb (locked lk =? 0) && bool_decide (lk_cpu lk = Some me).

(** Where a CPU is inside acquire or release. *)
Inductive pc :=
| Idle      (* outside *)
| Test      (* acquire: after push_off, about to test holding() *)
| Spin      (* acquire: in the test-and-set loop *)
| Got       (* acquire: swapped 0 for 1, about to set lk->cpu *)
| Crit      (* acquire returned *)
| Clear     (* release: after the holding() test, about to clear lk->cpu *)
| Unlock    (* release: about to clear lk->locked *)
| Pop.      (* release: about to pop_off *)
#[export] Instance pc_eq_dec : EqDecision pc.
Proof. solve_decision. Defined.

Record machine := mkM { m_lk : spinlock; m_cpus : list (cpu * pc) }.

(** The next access of CPU [me]: an idle CPU calls acquire, a CPU in its
    critical section calls release. *)
Definition cpu_step (me : nat) (m : machine) : res machine :=
  match m_cpus m !! me with
  | None => Ok m
  | Some (c, p) =>
      let go lk c p := Ok (mkM lk (<[me := (c, p)]> (m_cpus m))) in
      let lk := m_lk m in
      match p with
      | Idle => go lk (push_off c) Test
      | Test => if holding lk me then Panic "acquire" else go lk c Spin
      | Spin => let old := locked lk in
                go (mkLk 1 (lk_cpu lk)) c (if negb (old =? 0) then Spin else Got)
      | Got => go (mkLk (locked lk) (Some me)) c Crit
      | Crit => if negb (holding lk me) then Panic "release" else go lk c Clear
      | Clear => go (mkLk (locked lk) None) c Unlock
      | Unlock => go (mkLk 0 (lk_cpu lk)) c Pop
      | Pop => let* c := pop_off c in go lk c Idle
      end
  end.

Fixpoint schedule (ids : list nat) (m : machine) : res machine :=
  match ids with
  | [] => Ok m
  | me :: ids' => let* m := cpu_step me m in schedule ids' m
  end.

(** ** Invariant *)
Definition owns (p : pc) : bool :=
  match p with Got | Crit | Clear | Unlock => true | _ => false end.
Definition named (p : pc) : bool :=
  match p with Crit | Clear => true | _ => false end.

(** Interrupt state of a CPU that had [c0] before acquire. *)
Definition cpu_ok (x : cpu * pc) : Prop :=
  match x.2 with
  | Idle => noff x.1 = 0
  | _ => noff x.1 = 1 /\ intr x.1 = false
  end.

Record mutex_inv (m : machine) : Prop := {
  mi_one : forall i j x y, m_cpus m !! i = Some x -> m_cpus m !! j = Some y ->
             owns x.2 = true -> owns y.2 = true -> i = j;
  mi_locked : locked (m_lk m) = 0 \/ locked (m_lk m) = 1;
  mi_owner : locked (m_lk m) = 1 <-> exists i x, m_cpus m !! i = Some x /\ owns x.2 = true;
  mi_named : forall i x, m_cpus m !! i = Some x ->
             (lk_cpu (m_lk m) = Some i <-> named x.2 = true);
  mi_cpu : Forall cpu_ok (m_cpus m);
}.

Lemma holding_exact m i x : mutex_inv m -> m_cpus m !! i = Some x ->
  holding (m_lk m) i = named x.2.
Proof.
  intros Hi Hx. unfold holding. destruct (named x.2) eqn:Hn.
  - apply (mi_named _ Hi i x Hx) in Hn as Hc. rewrite Hc, bool_decide_true by done.
    assert (Hl : locked (m_lk m) = 1).
    { apply (mi_owner _ Hi). exists i, x. split; [done|]. by destruct x as [? []]. }
    by rewrite Hl.
  - rewrite bool_decide_false, andb_false_r; [done|]. intros Hc.
    apply (mi_named _ Hi i x Hx) in Hc. congruence.
Qed.

(** One CPU changes place; what it must respect. *)
Lemma mutex_inv_update m i c p lk' c' p' :
  mutex_inv m -> m_cpus m !! i = Some (c, p) ->
  (owns p = owns p' /\ locked lk' = locked (m_lk m) \/
   owns p = false /\ owns p' = true /\ locked (m_lk m) = 0 /\ locked lk' = 1 \/
   owns p = true /\ owns p' = false /\ locked lk' = 0) ->
  (named p = named p' /\ lk_cpu lk' = lk_cpu (m_lk m) \/
   owns p = true /\ lk_cpu lk' = (if named p' then Some i else None)) ->
  cpu_ok (c', p') ->
  mutex_inv (mkM lk' (<[i := (c', p')]> (m_cpus m))).
Proof.
  intros [H1 H2 H3 H4 H5] Hi Hown Hname Hok.
  assert (Hlen : (i < length (m_cpus m))%nat) by (by apply lookup_lt_Some in Hi).
  assert (Hlk : forall j y, <[i := (c', p')]> (m_cpus m) !! j = Some y ->
            (j = i /\ y = (c', p')) \/ (j <> i /\ m_cpus m !! j = Some y)).
  { intros j y Hj. destruct (decide (j = i)) as [->|].
    - rewrite list_lookup_insert_eq in Hj by done. left. by simplify_eq.
    - rewrite list_lookup_insert_ne in Hj by done. by right. }
  assert (Hfree : owns p = false -> owns p' = true -> forall j y, m_cpus m !! j = Some y -> owns y.2 = false).
  { intros Hp Hp' j y Hj. destruct (owns y.2) eqn:E; [|done]. exfalso.
    assert (locked (m_lk m) = 1) by (apply H3; eauto). destruct_or! Hown; destruct_and? Hown; congruence. }
  split; simpl.
  - intros a b x y Ha Hb Hx Hy. apply Hlk in Ha as [[-> ->]|[Hai Ha]], Hb as [[-> ->]|[Hbi Hb]]; auto; simpl in *.
    + destruct (owns p) eqn:Ep; [by apply (H1 i b (c, p) y)|]. rewrite (Hfree eq_refl Hx b y Hb) in Hy. done.
    + destruct (owns p) eqn:Ep; [by apply (H1 a i x (c, p))|]. rewrite (Hfree eq_refl Hy a x Ha) in Hx. done.
    + by apply (H1 a b x y).
  - destruct_or! Hown; destruct_and? Hown; lia.
  - split.
    + intros Hl. destruct (owns p') eqn:Ep'.
      { exists i, (c', p'). by rewrite list_lookup_insert_eq. }
      destruct Hown as [[Hp Hll]|[(?&?&?)|(?&?&?)]]; try congruence.
      rewrite Hll in Hl. apply H3 in Hl as (j & y & Hj & Hy). exists j, y. split; [|done].
      rewrite list_lookup_insert_ne; [done|]. intros <-. rewrite Hi in Hj. simplify_eq. simpl in *. congruence.
    + intros (j & y & Hj & Hy). apply Hlk in Hj as [[-> ->]|[Hji Hj]]; simpl in *.
      * destruct Hown as [[Hp Hll]|[(?&?&?&?)|(?&?&?)]]; try congruence.
        rewrite Hll. apply H3. exists i, (c, p). simpl. by rewrite Hp.
      * assert (Hl : locked (m_lk m) = 1) by (apply H3; eauto).
        destruct Hown as [[Hp Hll]|[(?&?&?&?)|(Hp&?&?)]]; try congruence.
        exfalso. apply Hji. by apply (H1 j i y (c, p)).
  - intros j y Hj. apply Hlk in Hj as [[-> ->]|[Hji Hj]]; simpl.
    + destruct Hname as [[Hn Hc]|[Hp Hc]]; rewrite Hc.
      * rewrite (H4 i (c, p) Hi). simpl. by rewrite Hn.
      * destruct (named p'); by split.
    + destruct Hname as [[Hn Hc]|[Hp Hc]]; rewrite Hc; [by apply H4|].
      assert (Hno : named y.2 = false).
      { destruct (named y.2) eqn:En; [|done]. exfalso. apply Hji.
        apply (H1 j i y (c, p)); auto. by destruct y as [? []]. }
      rewrite Hno. destruct (named p'); split; congruence.
  - by apply Forall_insert.
Qed.

Lemma mutex_step me m : mutex_inv m -> exists m', cpu_step me m = Ok m' /\ mutex_inv m' /\
  length (m_cpus m') = length (m_cpus m).
Proof.
  intros Hi. unfold cpu_step. destruct (m_cpus m !! me) as [[c p]|] eqn:Hme; [|eauto].
  pose proof (holding_exact m me (c, p) Hi Hme) as Hh. simpl in Hh.
  pose proof (Forall_lookup_1 _ _ _ _ (mi_cpu _ Hi) Hme) as Hc. unfold cpu_ok in Hc. simpl in Hc.
  pose proof (mi_locked _ Hi) as Hl.
  assert (Hown : owns p = true -> locked (m_lk m) = 1) by (intros; apply (mi_owner _ Hi); exists me, (c, p); auto).
  cbv zeta. destruct p; rewrite ?Hh; cbn [negb named];
    try (eexists; split; [reflexivity|]; split; [|simpl; by rewrite length_insert];
         apply (mutex_inv_update m me c _ _ _ _ Hi Hme); simpl; auto; fail).
  - eexists. split; [reflexivity|]. split; [|simpl; by rewrite length_insert].
    apply (mutex_inv_update m me c _ _ _ _ Hi Hme); simpl; auto.
    unfold cpu_ok. simpl. lia.
  - eexists. split; [reflexivity|]. split; [|simpl; by rewrite length_insert].
    apply (mutex_inv_update m me c _ _ _ _ Hi Hme); simpl.
    + destruct Hl as [Hl|Hl]; rewrite Hl; simpl; [right; left|left]; auto.
    + left. by destruct Hl as [Hl|Hl]; rewrite Hl.
    + by destruct (negb _).
  - destruct Hc as [Hn Hi0]. unfold pop_off. rewrite Hi0, Hn. simpl.
    eexists. split; [reflexivity|]. split; [|simpl; by rewrite length_insert].
    apply (mutex_inv_update m me c _ _ _ _ Hi Hme); simpl; auto. done.
Qed.

(** Machines on which nobody has touched the lock. *)
Definition boot (cs : list cpu) : machine := mkM initlock ((fun c => (c, Idle)) <$> cs).

Lemma boot_inv cs : Forall (fun c => noff c = 0) cs -> mutex_inv (boot cs).
Proof.
  intros Hc.
  assert (Hidle : forall i x, m_cpus (boot cs) !! i = Some x -> x.2 = Idle).
  { intros i x Hx. apply list_lookup_fmap_Some in Hx as (c & -> & _). done. }
  split; simpl; auto.
  - intros i j x y Hx _ Ho. by rewrite (Hidle i x Hx) in Ho.
  - split; [done|]. intros (i & x & Hx & Ho). by rewrite (Hidle i x Hx) in Ho.
  - intros i x Hx. by rewrite (Hidle i x Hx).
  - apply Forall_fmap. eapply Forall_impl; [exact Hc|]. done.
Qed.

Lemma schedule_inv ids m : mutex_inv m ->
  exists m', schedule ids m = Ok m' /\ mutex_inv m' /\ length (m_cpus m') = length (m_cpus m).
Proof.
  revert m. induction ids as [|me ids IH]; intros m Hi; simpl; [eauto|].
  destruct (mutex_step me m Hi) as (m1 & -> & Hi1 & Hl1). simpl.
  destruct (IH m1 Hi1) as (m2 & -> & ? & ?). exists m2. split_and!; auto; congruence.
Qed.

(** C21: for any number of CPUs and any interleaving of their accesses, acquire
    and release never panic, at most one CPU is between the end of its acquire
    and the start of its release, that CPU's holding() is true and every other
    CPU's is false, and its interrupts are off. *)
Theorem spinlock_mutual_exclusion cs ids :
  Forall (fun c => noff c = 0) cs ->
  exists m, schedule ids (boot cs) = Ok m /\
    forall i x, m_cpus m !! i = Some x ->
      (x.2 = Crit -> holding (m_lk m) i = true /\ intr x.1 = false /\
         forall j y, m_cpus m !! j = Some y -> j <> i -> y.2 <> Crit /\ holding (m_lk m) j = false) /\
      (x.2 = Idle -> holding (m_lk m) i = false).
Proof.
  intros Hc. destruct (schedule_inv ids (boot cs) (boot_inv cs Hc)) as (m & E & Hi & _).
  exists m. split; [done|]. intros i [c p] Hx. pose proof (holding_exact m i _ Hi Hx) as Hh. simpl in *.
  split; [intros ->; simpl in Hh|by intros ->].
  pose proof (Forall_lookup_1 _ _ _ _ (mi_cpu _ Hi) Hx) as [_ Hoff].
  split_and!; auto. intros j [c' p'] Hy Hne. rewrite (holding_exact m j _ Hi Hy). simpl.
  destruct (owns p') eqn:Ho.
  - destruct Hne. apply (mi_one _ Hi j i _ _ Hy Hx); done.
  - by destruct p'.
Qed.

Lemma spinlock_mutual_exclusion_witness : exists m,
  schedule [0; 1; 0; 1; 0; 1; 0; 1; 1]%nat (boot [mkCpu 0 false true; mkCpu 0 false true]) = Ok m /\
  (m_cpus m !! 0%nat = Some (mkCpu 1 true false, Crit) -> holding (m_lk m) 1 = false).
Proof.
  destruct (spinlock_mutual_exclusion [mkCpu 0 false true; mkCpu 0 false true] [0; 1; 0; 1; 0; 1; 0; 1; 1]%nat)
    as (m & E & H).
  - repeat constructor.
  - exists m. split; [exact E|]. intros H0.
    vm_compute in E. injection E as <-.
    apply (proj1 (H 0%nat _ H0) eq_refl) with (y := (mkCpu 1 true false, Spin)); [reflexivity|congruence].
Defined.

(** ** Nested push_off/pop_off *)
Inductive off_op := Push | PopOp.

Fixpoint off_run (ops : list off_op) (c : cpu) : res cpu :=
  match ops with
  | [] => Ok c
  | Push :: ops' => off_run ops' (push_off c)
  | PopOp :: ops' => let* c := pop_off c in off_run ops' c
  end.

(** Depth after a sequence, [None] when a pop has no push. *)
Fixpoint off_depth (ops : list off_op) (d : nat) : option nat :=
  match ops with
  | [] => Some d
  | Push :: ops' => off_depth ops' (S d)
  | PopOp :: ops' => match d with O => None | S d' => off_depth ops' d' end
  end.

(** Matched push_off/pop_off pairs, nested in any way, restore the
    interrupt state: a sequence that never pops more than it pushed does not
    panic; interrupts are off while any push is pending and are back to what
    they were when none is. *)
Theorem push_pop_balanced ops i0 ie d :
  off_depth ops 0 = Some d ->
  exists c, off_run ops (mkCpu 0 ie i0) = Ok c /\ noff c = Z.of_nat d /\
    intr c = if decide (d = 0%nat) then i0 else false.
Proof.
  set (inv := fun (c : cpu) (n : nat) => noff c = Z.of_nat n /\
    match n with O => intr c = i0 | _ => intr c = false /\ intena c = i0 end).
  assert (Hgen : forall ops c n d, inv c n -> off_depth ops n = Some d ->
            exists c', off_run ops c = Ok c' /\ inv c' d).
  { clear. induction ops as [|[] ops IH]; intros c n d Hc Hd; simpl in *.
    - simplify_eq. eauto.
    - apply (IH _ (S n) d); [|done]. unfold inv in *. simpl. destruct Hc as [Hn Hc]. rewrite Hn.
      destruct n as [|n]; simpl; split; auto; try lia. by destruct Hc.
    - destruct n as [|n]; [done|]. destruct Hc as (Hn & Hi & He). unfold pop_off. rewrite Hi, Hn.
      destruct (Z.ltb_spec (Z.of_nat (S n)) 1); [lia|]. cbn [rbind]. apply (IH _ n d); [|done].
      unfold inv. simpl. split; [lia|]. destruct (Z.eqb_spec (Z.of_nat (S n) - 1) 0).
      + replace n with 0%nat by lia. rewrite He. by destruct i0.
      + destruct n; [lia|]. auto. }
  intros Hd. destruct (Hgen ops (mkCpu 0 ie i0) 0%nat d) as (c & E & Hn & Hc); [done|done|].
  exists c. split_and!; auto. destruct d; simpl; [done|]. by destruct Hc.
Qed.

Lemma push_pop_balanced_witness : exists c,
  off_run [Push; Push; PopOp; Push; PopOp; PopOp] (mkCpu 0 false true) = Ok c /\ intr c = true.
Proof.
  destruct (push_pop_balanced [Push; Push; PopOp; Push; PopOp; PopOp] true false 0 eq_refl)
    as (c & E & _ & Hi).
  exists c. split; [exact E|exact Hi].
Defined.
