(* ===== verification/Sleeplock.v ===== *)
(** * Sleep locks: kernel/sleeplock.c

    The body of each routine runs under lk->lk and is one step; a process
    that finds the lock taken sleeps on it until a wakeup makes it try
    again. *)

From S2P Require Import Prelude.

Record sleeplock := mkSl { sl_locked : Z; sl_pid : Z }.

Definition initsleeplock : sleeplock := mkSl 0 0.

(** [Block]: the caller sleeps on the lock. *)
Definition acquiresleep (me : Z) (lk : sleeplock) : res sleeplock :=
  if negb (sl_locked lk =? 0) then Block else Ok (mkSl 1 me).
Definition releasesleep (lk : sleeplock) : sleeplock := mkSl 0 0.
Definition holdingsleep (me : Z) (lk : sleeplock) : bool :=
  negb (sl_locked lk =? 0) && (sl_pid lk =? me).

(** ** Processes contending for one lock *)
Inductive spc := Out | Asleep | Woken | In.
#[export] Instance spc_eq_dec : EqDecision spc.
Proof. solve_decision. Defined.

Record slsys := mkSys { ss_lk : sleeplock; ss_procs : list spc }.

Section sys.
Context (pid : nat -> Z) (pid_inj : forall i j, pid i = pid j -> i = j).

(** releasesleep's wakeup(lk) *)
Definition wake (p : spc) : spc := match p with Asleep => Woken | _ => p end.

Inductive sl_step : slsys -> slsys -> Prop :=
| sl_acquire i lk lk' ps :
    (ps !! i = Some Out \/ ps !! i = Some Woken) -> acquiresleep (pid i) lk = Ok lk' ->
    sl_step (mkSys lk ps) (mkSys lk' (<[i := In]> ps))
| sl_sleep i lk ps :
    (ps !! i = Some Out \/ ps !! i = Some Woken) -> acquiresleep (pid i) lk = Block ->
    sl_step (mkSys lk ps) (mkSys lk (<[i := Asleep]> ps))
| sl_release i lk ps :
    ps !! i = Some In -> holdingsleep (pid i) lk = true ->
    sl_step (mkSys lk ps) (mkSys (releasesleep lk) (wake <$> <[i := Out]> ps)).

Inductive sl_reach (x0 : slsys) : slsys -> Prop :=
| sr_start : sl_reach x0 x0
| sr_step x y : sl_reach x0 x -> sl_step x y -> sl_reach x0 y.

Record sl_inv (x : slsys) : Prop := {
  si_bool : sl_locked (ss_lk x) = 0 \/ sl_locked (ss_lk x) = 1;
  si_in : forall i, ss_procs x !! i = Some In ->
            sl_locked (ss_lk x) = 1 /\ sl_pid (ss_lk x) = pid i;
  si_held : sl_locked (ss_lk x) = 1 -> exists i, ss_procs x !! i = Some In;
  si_asleep : forall i, ss_procs x !! i = Some Asleep -> sl_locked (ss_lk x) = 1;
}.

Lemma acquiresleep_Ok me lk lk' : acquiresleep me lk = Ok lk' -> sl_locked lk = 0 /\ lk' = mkSl 1 me.
Proof. unfold acquiresleep. destruct (Z.eqb_spec (sl_locked lk) 0); simpl; intros; by simplify_eq. Qed.
Lemma acquiresleep_Block me lk : acquiresleep me lk = Block -> sl_locked lk <> 0.
Proof. unfold acquiresleep. by destruct (Z.eqb_spec (sl_locked lk) 0). Qed.

Lemma sl_inv_step x y : sl_inv x -> sl_step x y -> sl_inv y.
Proof.
  intros [H1 H2 H3 H4] Hs.
  destruct Hs as [i lk lk' ps Hi E|i lk ps Hi E|i lk ps Hi E]; simpl in *.
  - apply acquiresleep_Ok in E as [E ->].
    assert (Hlen : (i < length ps)%nat) by (destruct Hi as [Hi|Hi]; by apply lookup_lt_Some in Hi).
    split; simpl; auto.
    + intros j Hj. split; [done|]. destruct (decide (i = j)) as [->|Hne]; [done|].
      rewrite list_lookup_insert_ne in Hj by done. apply H2 in Hj as [? _]. lia.
    + intros _. exists i. by apply list_lookup_insert_eq.
  - apply acquiresleep_Block in E. assert (Hl : sl_locked lk = 1) by lia.
    split; simpl; auto.
    + intros j Hj. destruct (decide (i = j)) as [->|Hne].
      * rewrite list_lookup_insert_eq in Hj; [done|]. destruct Hi as [Hi|Hi]; by apply lookup_lt_Some in Hi.
      * rewrite list_lookup_insert_ne in Hj by done. auto.
    + intros _. destruct (H3 Hl) as (j & Hj). exists j. rewrite list_lookup_insert_ne; [done|].
      intros ->. destruct Hi; congruence.
  - assert (Hlen : (i < length ps)%nat) by (by apply lookup_lt_Some in Hi).
    assert (Hno : forall j p, (wake <$> <[i := Out]> ps) !! j = Some p -> p <> Asleep /\ p <> In).
    { intros j p Hj. apply list_lookup_fmap_Some in Hj as (q & -> & Hq).
      destruct (decide (i = j)) as [->|Hne].
      - rewrite list_lookup_insert_eq in Hq by done. by simplify_eq.
      - rewrite list_lookup_insert_ne in Hq by done. split; [by destruct q|].
        intros Hw. assert (q = In) as -> by (by destruct q).
        apply H2 in Hi as [_ Hi], Hq as [_ Hq]. apply Hne, pid_inj. congruence. }
    split; simpl; auto; [|done|].
    + intros j Hj. by apply Hno in Hj as [_ ?].
    + intros j Hj. by apply Hno in Hj as [? _].
Qed.

Lemma sl_inv_reach x0 x : sl_inv x0 -> sl_reach x0 x -> sl_inv x.
Proof. intros H0 Hr. induction Hr; [done|]. by eapply sl_inv_step. Qed.

Lemma sl_inv_start n : sl_inv (mkSys initsleeplock (replicate n Out)).
Proof.
  assert (Hout : forall i p, replicate n Out !! i = Some p -> p = Out).
  { intros i p Hp. by apply lookup_replicate in Hp as [-> _]. }
  split; simpl; auto; [|done|]; intros i Hi; by apply Hout in Hi.
Qed.
End sys.

(** C22: a sleep lock is held by at most one process, holdingsleep is true for
    exactly that process, and no wakeup is lost: whenever the lock is free,
    no process is asleep on it. *)
Theorem sleeplock_safe (pid : nat -> Z) n x :
  (forall i j, pid i = pid j -> i = j) ->
  sl_reach pid (mkSys initsleeplock (replicate n Out)) x ->
  (forall i j, ss_procs x !! i = Some In -> ss_procs x !! j = Some In -> i = j) /\
  (forall i p, ss_procs x !! i = Some p -> holdingsleep (pid i) (ss_lk x) = bool_decide (p = In)) /\
  (sl_locked (ss_lk x) = 0 -> forall i, ss_procs x !! i <> Some Asleep).
Proof.
  intros Hinj Hr. pose proof (sl_inv_reach pid Hinj _ _ (sl_inv_start pid n) Hr) as [H1 H2 H3 H4].
  split_and!.
  - intros i j Hi Hj. apply Hinj. apply H2 in Hi as [_ <-], Hj as [_ <-]. done.
  - intros i p Hp. unfold holdingsleep. destruct (decide (p = In)) as [->|Hne].
    + destruct (H2 i Hp) as [-> ->]. rewrite Z.eqb_refl, bool_decide_true; done.
    + rewrite bool_decide_false by done. destruct H1 as [->| Hl]; [done|]. rewrite Hl. simpl.
      destruct (H3 Hl) as (j & Hj). destruct (H2 j Hj) as [_ ->].
      apply Z.eqb_neq. intros E%Hinj. congruence.
  - intros Hl i Hi. apply H4 in Hi. lia.
Qed.

Lemma sleeplock_safe_witness :
  let x := mkSys (mkSl 1 1) [In; Asleep] in
  sl_reach (fun i => Z.of_nat i + 1) (mkSys initsleeplock (replicate 2 Out)) x /\
  holdingsleep 2 (ss_lk x) = false.
Proof.
  assert (Hinj : forall i j, Z.of_nat i + 1 = Z.of_nat j + 1 -> i = j) by (intros; lia).
  assert (Hr : sl_reach (fun i => Z.of_nat i + 1) (mkSys initsleeplock (replicate 2 Out)) (mkSys (mkSl 1 1) [In; Asleep])).
  { eapply sr_step; [eapply sr_step; [apply sr_start|]|].
    - apply (sl_acquire _ 0 initsleeplock (mkSl 1 1) [Out; Out]); [left|]; reflexivity.
    - apply (sl_sleep _ 1 (mkSl 1 1) [In; Out]); [left|]; reflexivity. }
  split; [exact Hr|].
  destruct (sleeplock_safe (fun i => Z.of_nat i + 1) 2 _ Hinj Hr) as (_ & H & _).
  exact (H 1%nat Asleep eq_refl).
Defined.
