(* ===== verification/Block.v ===== *)
(** * Disk blocks and the buffer-cache interface

    What log.c and fs.c see of the block layer: a [struct buf] locked for a
    block number, whose data is read and written in memory and goes to disk
    with bwrite.  [BufOps] is the interface; [acache] is its reference
    implementation, a store of referenced buffers over the disk, and
    [BufLaws] says that an implementation behaves like it.  Bio.v discharges
    the laws for the code of bio.c. *)

From S2P Require Import Prelude Riscv.

Definition BSIZE : Z := 1024.
Abbreviation block := (list Z).
Definition zero_block : block := replicate (Z.to_nat BSIZE) 0.
Definition is_block (d : block) : Prop := length d = 1024%nat.

(** ** 32-bit fields of a block *)
Definition get32 (d : block) (off : Z) : Z :=
  s32 (le_decode (take 4 (drop (Z.to_nat off) d))).
Definition put32 (d : block) (off v : Z) : block :=
  splice (Z.to_nat off) (le_encode 4 (u32 v)) d.

Lemma length_put32 d off v :
  0 <= off -> off + 4 <= Z.of_nat (length d) -> length (put32 d off v) = length d.
Proof. intros. apply length_splice. rewrite length_le_encode. lia. Qed.

Lemma get32_put32_eq d off v :
  0 <= off -> off + 4 <= Z.of_nat (length d) -> - 2 ^ 31 <= v < 2 ^ 31 ->
  get32 (put32 d off v) off = v.
Proof.
  intros H1 H2 Hv. unfold get32, put32.
  pose proof (splice_read (Z.to_nat off) (le_encode 4 (u32 v)) d) as Hs.
  rewrite length_le_encode in Hs. rewrite Hs by lia.
  rewrite le_decode_encode by apply u32_range.
  unfold s32, u32, sgn. rewrite Z.mod_mod by lia. by apply s32_small.
Qed.

Lemma take_drop_splice_out {A} i n j (new d : list A) :
  (i + length new <= length d)%nat -> (j + n <= i \/ i + length new <= j)%nat ->
  take n (drop j (splice i new d)) = take n (drop j d).
Proof.
  intros Hl Ho. apply list_eq. intros k. destruct (decide (k < n)%nat).
  - rewrite !lookup_take_lt, !lookup_drop by done. apply splice_lookup_out; [done|lia].
  - rewrite !lookup_take_ge by lia. done.
Qed.

Lemma get32_put32_ne d off v off' :
  0 <= off -> off + 4 <= Z.of_nat (length d) -> 0 <= off' ->
  off' + 4 <= off \/ off + 4 <= off' -> get32 (put32 d off v) off' = get32 d off'.
Proof.
  intros. unfold get32, put32. f_equal. f_equal.
  apply take_drop_splice_out; rewrite length_le_encode; lia.
Qed.

(** ** Disks *)
Abbreviation disk := (gmap Z block).
Definition dget (D : disk) (b : Z) : block := default zero_block (D !! b).

Lemma dget_insert D b d b' : dget (<[b := d]> D) b' = if decide (b = b') then d else dget D b'.
Proof. unfold dget. destruct (decide _) as [->|]; [by rewrite lookup_insert_eq|by rewrite lookup_insert_ne]. Qed.

(** The disk after a sequence of block writes. *)
Definition dapply (D : disk) (t : list (Z * block)) : disk :=
  foldl (fun D w => <[w.1 := w.2]> D) D t.

Lemma dapply_app D t1 t2 : dapply D (t1 ++ t2) = dapply (dapply D t1) t2.
Proof. apply foldl_app. Qed.

(** ** The interface: a buffer is named by the block it is locked for *)
Class BufOps (S : Type) := {
  buf_read : Z -> S -> res S;
  buf_data : Z -> S -> block;
  buf_store : Z -> block -> S -> S;
  buf_write : Z -> S -> res S;
  buf_relse : Z -> S -> res S;
  buf_pin : Z -> S -> res S;
  buf_unpin : Z -> S -> res S;
}.

(** ** The reference implementation *)
Record rbuf := mkR { r_cnt : nat; r_held : bool; r_data : block }.
Record acache := mkA { a_disk : disk; a_refs : gmap Z rbuf; a_trace : list (Z * block) }.

Definition set_refs (a : acache) (m : gmap Z rbuf) : acache := mkA (a_disk a) m (a_trace a).

Definition a_read (b : Z) (a : acache) : res acache :=
  match a_refs a !! b with
  | Some r => if r_held r then Block
              else Ok (set_refs a (<[b := mkR (S (r_cnt r)) true (r_data r)]> (a_refs a)))
  | None => if decide (Z.of_nat (size (a_refs a)) < NBUF)
            then Ok (set_refs a (<[b := mkR 1 true (dget (a_disk a) b)]> (a_refs a)))
            else Panic "bget: no buffers"
  end.

Definition a_data (b : Z) (a : acache) : block :=
  match a_refs a !! b with Some r => r_data r | None => dget (a_disk a) b end.

Definition a_store (b : Z) (d : block) (a : acache) : acache :=
  match a_refs a !! b with
  | Some r => set_refs a (<[b := mkR (r_cnt r) (r_held r) d]> (a_refs a))
  | None => a
  end.

Definition a_write (b : Z) (a : acache) : res acache :=
  match a_refs a !! b with
  | Some r => if r_held r
              then Ok (mkA (<[b := r_data r]> (a_disk a)) (a_refs a) (a_trace a ++ [(b, r_data r)]))
              else Panic "bwrite"
  | None => Panic "bwrite"
  end.

(** Dropping a reference; dropping the last one of a buffer that differs from
    the disk would lose data and is an error of the caller. *)
Definition a_unref (b : Z) (r : rbuf) (held : bool) (a : acache) : res acache :=
  match r_cnt r with
  | O => Panic "refcnt"
  | 1%nat => if decide (r_data r = dget (a_disk a) b)
             then Ok (set_refs a (delete b (a_refs a))) else Panic "dirty"
  | S c => Ok (set_refs a (<[b := mkR c held (r_data r)]> (a_refs a)))
  end.

Definition a_relse (b : Z) (a : acache) : res acache :=
  match a_refs a !! b with
  | Some r => if r_held r then a_unref b r false a else Panic "brelse"
  | None => Panic "brelse"
  end.

Definition a_pin (b : Z) (a : acache) : res acache :=
  match a_refs a !! b with
  | Some r => Ok (set_refs a (<[b := mkR (S (r_cnt r)) (r_held r) (r_data r)]> (a_refs a)))
  | None => Panic "bpin"
  end.

(** A buffer that is still locked is still referenced by its holder. *)
Definition a_unpin (b : Z) (a : acache) : res acache :=
  match a_refs a !! b with
  | Some r => if r_held r && (r_cnt r =? 1)%nat then Panic "bunpin" else a_unref b r (r_held r) a
  | None => Panic "bunpin"
  end.

#[export] Instance acache_ops : BufOps acache := {
  buf_read := a_read; buf_data := a_data; buf_store := a_store; buf_write := a_write;
  buf_relse := a_relse; buf_pin := a_pin; buf_unpin := a_unpin }.

(** ** The laws: whatever the reference does, the implementation does *)
Class BufLaws (S : Type) `{BufOps S} := {
  buf_rel : S -> acache -> Prop;
  bl_read : forall s a b a', buf_rel s a -> a_read b a = Ok a' ->
    exists s', buf_read b s = Ok s' /\ buf_rel s' a';
  bl_data : forall s a b r, buf_rel s a -> a_refs a !! b = Some r -> r_held r = true ->
    buf_data b s = r_data r;
  bl_store : forall s a b d r, buf_rel s a -> a_refs a !! b = Some r -> r_held r = true ->
    buf_rel (buf_store b d s) (a_store b d a);
  bl_write : forall s a b a', buf_rel s a -> a_write b a = Ok a' ->
    exists s', buf_write b s = Ok s' /\ buf_rel s' a';
  bl_relse : forall s a b a', buf_rel s a -> a_relse b a = Ok a' ->
    exists s', buf_relse b s = Ok s' /\ buf_rel s' a';
  bl_pin : forall s a b a', buf_rel s a -> a_pin b a = Ok a' ->
    exists s', buf_pin b s = Ok s' /\ buf_rel s' a';
  bl_unpin : forall s a b a', buf_rel s a -> a_unpin b a = Ok a' ->
    exists s', buf_unpin b s = Ok s' /\ buf_rel s' a';
}.

#[export] Instance acache_laws : BufLaws acache.
Proof.
  refine {| buf_rel := eq |}; intros; subst; simpl; eauto.
  unfold a_data. by simplify_map_eq.
Defined.
