(* ===== verification/Bio.v ===== *)
(** * The buffer cache: kernel/bio.c

    The buffers form a doubly linked list in order of use, through prev and
    next, with bcache.head as its sentinel; a pointer to a buffer is its index
    in bcache.buf, and [HEAD] is the sentinel's.  The disk is what
    disk_transfer reads and writes; the trace records its writes in order.
    [me] is the pid of the running process. *)

From S2P Require Import Prelude Riscv Block Sleeplock.

Record buf := mkBuf {
  b_valid : bool;
  b_dev : Z;
  b_blockno : Z;
  b_lock : sleeplock;
  b_refcnt : Z;
  b_prev : nat;
  b_next : nat;
  b_data : block;
}.

Record bcache := mkBc { bc_buf : list buf; bc_disk : disk; bc_trace : list (Z * block) }.

Definition HEAD : nat := 30.

Definition buf0 : buf := mkBuf false 0 0 initsleeplock 0 0 0 zero_block.
Definition getb (bs : list buf) (i : nat) : buf := default buf0 (bs !! i).
Definition updb (f : buf -> buf) (i : nat) (bs : list buf) : list buf := alter f i bs.

Definition set_next (v : nat) (b : buf) : buf :=
  mkBuf (b_valid b) (b_dev b) (b_blockno b) (b_lock b) (b_refcnt b) (b_prev b) v (b_data b).
Definition set_prev (v : nat) (b : buf) : buf :=
  mkBuf (b_valid b) (b_dev b) (b_blockno b) (b_lock b) (b_refcnt b) v (b_next b) (b_data b).
Definition set_refcnt (v : Z) (b : buf) : buf :=
  mkBuf (b_valid b) (b_dev b) (b_blockno b) (b_lock b) v (b_prev b) (b_next b) (b_data b).
Definition set_block (valid : bool) (dev blockno refcnt : Z) (b : buf) : buf :=
  mkBuf valid dev blockno (b_lock b) refcnt (b_prev b) (b_next b) (b_data b).
Definition set_lock (lk : sleeplock) (b : buf) : buf :=
  mkBuf (b_valid b) (b_dev b) (b_blockno b) lk (b_refcnt b) (b_prev b) (b_next b) (b_data b).
Definition set_data (valid : bool) (d : block) (b : buf) : buf :=
  mkBuf valid (b_dev b) (b_blockno b) (b_lock b) (b_refcnt b) (b_prev b) (b_next b) d.

Definition set_bufs (s : bcache) (bs : list buf) : bcache := mkBc bs (bc_disk s) (bc_trace s).

(** ** binit *)

(** Insert buffer [b] after the head. *)
Definition link_front (b : nat) (bs : list buf) : list buf :=
  let bs := updb (set_next (b_next (getb bs HEAD))) b bs in
  let bs := updb (set_prev HEAD) b bs in
  let bs := updb (set_prev b) (b_next (getb bs HEAD)) bs in
  updb (set_next b) HEAD bs.

(** for(b = bcache.buf; b < bcache.buf+NBUF; b++) *)
Fixpoint binit_loop (n : nat) (b : nat) (bs : list buf) : list buf :=
  match n with
  | O => bs
  | S n' => binit_loop n' (S b) (updb (set_lock initsleeplock) b (link_front b bs))
  end.

Definition binit (s : bcache) : bcache :=
  let bs := updb (set_prev HEAD) HEAD (bc_buf s) in
  let bs := updb (set_next HEAD) HEAD bs in
  set_bufs s (binit_loop (Z.to_nat NBUF) 0 bs).

(** ** bget *)

(** for(b = bcache.head.next; b != &bcache.head; b = b->next) *)
Fixpoint scan_next (fuel : nat) (f : buf -> bool) (b : nat) (bs : list buf) : res (option nat) :=
  if decide (b = HEAD) then Ok None
  else if f (getb bs b) then Ok (Some b)
  else match fuel with
       | O => Block
       | S fuel' => scan_next fuel' f (b_next (getb bs b)) bs
       end.

(** for(b = bcache.head.prev; b != &bcache.head; b = b->prev) *)
Fixpoint scan_prev (fuel : nat) (f : buf -> bool) (b : nat) (bs : list buf) : res (option nat) :=
  if decide (b = HEAD) then Ok None
  else if f (getb bs b) then Ok (Some b)
  else match fuel with
       | O => Block
       | S fuel' => scan_prev fuel' f (b_prev (getb bs b)) bs
       end.

Section bio.
Context (me : Z).

Definition lock_buf (b : nat) (s : bcache) : res bcache :=
  let* lk := acquiresleep me (b_lock (getb (bc_buf s) b)) in
  Ok (set_bufs s (updb (set_lock lk) b (bc_buf s))).

Definition bget (dev blockno : Z) (s : bcache) : res (nat * bcache) :=
  let bs := bc_buf s in
  let* c := scan_next (Z.to_nat NBUF) (fun x => (b_dev x =? dev) && (b_blockno x =? blockno))
              (b_next (getb bs HEAD)) bs in
  match c with
  | Some b =>
      let s := set_bufs s (updb (fun x => set_refcnt (b_refcnt x + 1) x) b bs) in
      let* s := lock_buf b s in Ok (b, s)
  | None =>
      let* c := scan_prev (Z.to_nat NBUF) (fun x => b_refcnt x =? 0) (b_prev (getb bs HEAD)) bs in
      match c with
      | Some b =>
          let s := set_bufs s (updb (set_block false dev blockno 1) b bs) in
          let* s := lock_buf b s in Ok (b, s)
      | None => Panic "bget: no buffers"
      end
  end.

(** What a completed disk request does (virtio_disk.c ignores b->dev). *)
Definition disk_transfer (b : nat) (write : bool) (s : bcache) : bcache :=
  let x := getb (bc_buf s) b in
  if write
  then mkBc (bc_buf s) (<[b_blockno x := b_data x]> (bc_disk s)) (bc_trace s ++ [(b_blockno x, b_data x)])
  else set_bufs s (updb (set_data (b_valid x) (dget (bc_disk s) (b_blockno x))) b (bc_buf s)).

Definition bread (dev blockno : Z) (s : bcache) : res (nat * bcache) :=
  let* (b, s) := bget dev blockno s in
  if negb (b_valid (getb (bc_buf s) b)) then
    let s := disk_transfer b false s in
    Ok (b, set_bufs s (updb (fun x => set_data true (b_data x) x) b (bc_buf s)))
  else Ok (b, s).

Definition bwrite (b : nat) (s : bcache) : res bcache :=
  if negb (holdingsleep me (b_lock (getb (bc_buf s) b))) then Panic "bwrite"
  else Ok (disk_transfer b true s).

(** Unlink [b] and put it after the head. *)
Definition move_front (b : nat) (bs : list buf) : list buf :=
  let bs := updb (set_prev (b_prev (getb bs b))) (b_next (getb bs b)) bs in
  let bs := updb (set_next (b_next (getb bs b))) (b_prev (getb bs b)) bs in
  link_front b bs.

Definition brelse (b : nat) (s : bcache) : res bcache :=
  if negb (holdingsleep me (b_lock (getb (bc_buf s) b))) then Panic "brelse"
  else
    let bs := updb (fun x => set_lock (releasesleep (b_lock x)) x) b (bc_buf s) in
    let bs := updb (fun x => set_refcnt (b_refcnt x - 1) x) b bs in
    let bs := if b_refcnt (getb bs b) =? 0 then move_front b bs else bs in
    Ok (set_bufs s bs).

Definition bpin (b : nat) (s : bcache) : bcache :=
  set_bufs s (updb (fun x => set_refcnt (b_refcnt x + 1) x) b (bc_buf s)).
Definition bunpin (b : nat) (s : bcache) : bcache :=
  set_bufs s (updb (fun x => set_refcnt (b_refcnt x - 1) x) b (bc_buf s)).

End bio.
