(* ===== verification/BioFacts.v ===== *)
(** * Correctness of the buffer cache

    The linked list represents the order of use, and the cache as a whole
    implements the reference store of Block.v: a buffer that nobody references
    either holds what is on disk or is not valid. *)

From S2P Require Import Prelude Riscv Block Sleeplock Bio.

(** ** Doubly linked lists with a sentinel *)
Section links.
Context (nx pv : nat -> nat).

(** From [a] through [l] to [z], linked both ways. *)
Fixpoint links (a : nat) (l : list nat) (z : nat) : Prop :=
  match l with
  | [] => nx a = z /\ pv z = a
  | x :: l' => nx a = x /\ pv x = a /\ links x l' z
  end.

Lemma links_app a l1 x l2 z : links a (l1 ++ x :: l2) z <-> links a l1 x /\ links x l2 z.
Proof.
  revert a. induction l1 as [|y l1 IH]; intros a; simpl; [tauto|]. rewrite IH. tauto.
Qed.
End links.

Definition upd (f : nat -> nat) (i v j : nat) : nat := if decide (j = i) then v else f j.

Lemma links_ext nx pv nx' pv' a l z :
  (forall i, i = a \/ i ∈ l -> nx' i = nx i) -> (forall i, i ∈ l \/ i = z -> pv' i = pv i) ->
  links nx pv a l z -> links nx' pv' a l z.
Proof.
  revert a. induction l as [|x l IH]; intros a Hn Hp; simpl.
  - rewrite Hn, Hp by auto. done.
  - intros (H1 & H2 & H3). assert (E1 : nx' a = nx a) by auto.
    assert (E2 : pv' x = pv x) by (apply Hp; left; left). rewrite E1, E2.
    split_and!; auto. apply IH; auto; intros i Hi.
    + apply Hn. right. destruct Hi as [->|Hi]; [left|by right].
    + apply Hp. destruct Hi as [Hi|Hi]; [left; by right|by right].
Qed.

(** Redirecting the end of a list from [z] to [z']. *)
Lemma links_retarget nx pv a l z z' :
  links nx pv a l z -> NoDup (a :: l) -> z' ∉ l ->
  links (upd nx (pv z) z') (upd pv z' (pv z)) a l z'.
Proof.
  revert a. induction l as [|x l IH]; intros a; simpl.
  - intros [_ Hp] _ _. rewrite Hp. unfold upd. by rewrite !decide_True.
  - intros (H1 & H2 & H3) Hnd Hz. apply NoDup_cons in Hnd as [Ha Hnd].
    apply not_elem_of_cons in Hz as [Hzx Hz].
    assert (Hlast : pv z ∈ x :: l).
    { clear -H3. revert x H3. induction l as [|y l IH]; intros x; simpl.
      - intros [_ ->]. left.
      - intros (_ & _ & H). right. by apply IH. }
    split_and!.
    + unfold upd. rewrite decide_False; [done|]. intros ->. done.
    + unfold upd. rewrite decide_False; [done|]. congruence.
    + by apply IH.
Qed.

(** Unlinking [b], then linking it after the sentinel [h]. *)
Lemma links_unlink nx pv h l1 b l2 :
  links nx pv h (l1 ++ b :: l2) h -> NoDup (h :: l1 ++ b :: l2) ->
  let nx1 := upd nx (pv b) (nx b) in let pv1 := upd pv (nx b) (pv b) in
  links nx1 pv1 h (l1 ++ l2) h.
Proof.
  intros Hl Hnd nx1 pv1. apply links_app in Hl as [H1 H2].
  assert (Hnd' := Hnd). apply NoDup_cons in Hnd' as [Hh Hnd'].
  apply NoDup_app in Hnd' as (N1 & N12 & N2). apply NoDup_cons in N2 as [Nb N2].
  rewrite elem_of_app, elem_of_cons in Hh.
  assert (Hnb : nx b ∉ l1).
  { destruct l2 as [|y l2]; simpl in H2.
    - destruct H2 as [-> _]. tauto.
    - destruct H2 as [-> _]. intros Hy. apply (N12 y Hy). right. left. }
  assert (Hseg1 : links nx1 pv1 h l1 (nx b)).
  { apply (links_retarget nx pv h l1 b); auto. apply NoDup_cons. split; [tauto|done]. }
  destruct l2 as [|y l2]; simpl in H2.
  - rewrite app_nil_r. destruct H2 as [Hnx _]. by rewrite Hnx in Hseg1.
  - destruct H2 as (Hy & Hpy & H2). apply links_app. rewrite Hy in Hseg1. split; [done|].
    assert (Hpl : forall i, i = y \/ i ∈ l2 -> i <> pv b).
    { intros i Hi ->.
      assert (Hin : pv b ∈ h :: l1).
      { clear -H1. revert H1. generalize h. induction l1 as [|x l1 IH]; intros h0; simpl.
        - intros [_ ->]. left.
        - intros (_ & _ & H). right. by apply IH. }
      apply elem_of_cons in Hin as [Hin|Hin].
      - apply Hh. right. right. rewrite <- Hin. destruct Hi as [->|Hi]; [left|by right].
      - apply (N12 _ Hin). right. destruct Hi as [->|Hi]; [left|by right]. }
    apply NoDup_cons in N2 as [Ny N2].
    eapply links_ext; [| |exact H2]; unfold nx1, pv1, upd; rewrite ?Hy; intros i Hi; rewrite decide_False; auto.
    intros ->. destruct Hi as [Hi| ->]; [done|]. apply Hh. right. right. left.
Qed.

Lemma links_front nx pv h l b :
  links nx pv h l h -> NoDup (h :: l) -> b <> h -> b ∉ l ->
  let nx2 := upd (upd nx b (nx h)) h b in let pv2 := upd (upd pv b h) (nx h) b in
  links nx2 pv2 h (b :: l) h.
Proof.
  intros Hl Hnd Hbh Hbl nx2 pv2. apply NoDup_cons in Hnd as [Hh Hnd].
  assert (Hf : nx h <> b).
  { destruct l as [|x l]; simpl in Hl; destruct Hl as [-> _]; [done|].
    intros ->. apply Hbl. left. }
  assert (E1 : nx2 h = b) by (unfold nx2, upd; by rewrite decide_True).
  assert (E2 : nx2 b = nx h) by (unfold nx2, upd; rewrite decide_False by done; by rewrite decide_True).
  assert (E3 : pv2 b = h) by (unfold pv2, upd; rewrite decide_False by done; by rewrite decide_True).
  assert (E4 : pv2 (nx h) = b) by (unfold pv2, upd; by rewrite decide_True).
  simpl. split_and!; auto.
  destruct l as [|x l]; simpl in Hl |- *.
  - destruct Hl as [Hx _]. rewrite E2. rewrite Hx in E4. auto.
  - destruct Hl as (Hx & Hpx & Hl). rewrite Hx in *. split_and!; auto.
    apply not_elem_of_cons in Hbl as [Hbx Hbl]. apply not_elem_of_cons in Hh as [Hhx Hh].
    apply NoDup_cons in Hnd as [Hxl Hnd].
    eapply links_ext; [| |exact Hl].
    + intros i Hi. unfold nx2, upd. rewrite !decide_False; [done| |].
      * intros ->. destruct Hi as [Hi|Hi]; [done|]. by apply Hbl.
      * intros ->. destruct Hi as [Hi|Hi]; [done|]. by apply Hh.
    + intros i Hi. unfold pv2, upd. rewrite !decide_False; [done| |].
      * intros ->. destruct Hi as [Hi|Hi]; [by apply Hbl|done].
      * rewrite Hx. intros ->. destruct Hi as [Hi|Hi]; [by apply Hxl|congruence].
Qed.

(** ** The list in the cache *)
Definition nxf (bs : list buf) (i : nat) : nat := b_next (getb bs i).
Definition pvf (bs : list buf) (i : nat) : nat := b_prev (getb bs i).

(** Everything in a buffer but its links. *)
Definition core (b : buf) : bool * Z * Z * sleeplock * Z * block :=
  (b_valid b, b_dev b, b_blockno b, b_lock b, b_refcnt b, b_data b).

Lemma length_updb f i bs : length (updb f i bs) = length bs.
Proof. apply length_alter. Qed.

Lemma getb_updb f i bs j : (i < length bs)%nat ->
  getb (updb f i bs) j = if decide (j = i) then f (getb bs i) else getb bs j.
Proof.
  intros Hi. unfold getb, updb. destruct (decide (j = i)) as [->|].
  - rewrite list_lookup_alter_eq. destruct (lookup_lt_is_Some_2 bs i Hi) as [x ->]. done.
  - by rewrite list_lookup_alter_ne.
Qed.

Lemma updb_updb f g i bs : updb f i (updb g i bs) = updb (fun x => f (g x)) i bs.
Proof.
  unfold updb. revert i. induction bs as [|x bs IH]; intros [|i]; try done.
  exact (f_equal (cons x) (IH i)).
Qed.

Lemma nxf_set_next v i bs j : (i < length bs)%nat -> nxf (updb (set_next v) i bs) j = upd (nxf bs) i v j.
Proof. intros. unfold nxf, upd. rewrite getb_updb by done. by destruct (decide _). Qed.
Lemma pvf_set_prev v i bs j : (i < length bs)%nat -> pvf (updb (set_prev v) i bs) j = upd (pvf bs) i v j.
Proof. intros. unfold pvf, upd. rewrite getb_updb by done. by destruct (decide _). Qed.
Lemma nxf_set_prev v i bs j : (i < length bs)%nat -> nxf (updb (set_prev v) i bs) j = nxf bs j.
Proof. intros. unfold nxf. rewrite getb_updb by done. destruct (decide _) as [->|]; done. Qed.
Lemma pvf_set_next v i bs j : (i < length bs)%nat -> pvf (updb (set_next v) i bs) j = pvf bs j.
Proof. intros. unfold pvf. rewrite getb_updb by done. destruct (decide _) as [->|]; done. Qed.

Lemma core_updb f i bs j :
  (i < length bs)%nat -> (forall b, core (f b) = core b) -> core (getb (updb f i bs) j) = core (getb bs j).
Proof. intros Hi Hf. rewrite getb_updb by done. destruct (decide _) as [->|]; auto. Qed.

(** [l] is the order of use: a linked permutation of the buffers. *)
Record lru (bs : list buf) (l : list nat) : Prop := {
  lru_len : length bs = 31%nat;
  lru_links : links (nxf bs) (pvf bs) HEAD l HEAD;
  lru_nodup : NoDup l;
  lru_all : forall i, i ∈ l <-> (i < 30)%nat;
}.

Lemma lru_not_head bs l : lru bs l -> HEAD ∉ l.
Proof. intros H Hin. apply (lru_all _ _ H) in Hin. unfold HEAD in Hin. lia. Qed.

Lemma links_range nx pv a l z (P : nat -> Prop) :
  links nx pv a l z -> (forall i, i ∈ l -> P i) -> P z -> P (nx a).
Proof. destruct l as [|x l]; simpl; intros [-> _] Hl Hz; auto. apply Hl. left. Qed.

Lemma link_front_links bs l b :
  length bs = 31%nat -> links (nxf bs) (pvf bs) HEAD l HEAD -> NoDup (HEAD :: l) ->
  (forall i, i ∈ l -> (i < 30)%nat) -> (b < 30)%nat -> b ∉ l ->
  links (nxf (link_front b bs)) (pvf (link_front b bs)) HEAD (b :: l) HEAD /\
  length (link_front b bs) = 31%nat /\
  (forall i, core (getb (link_front b bs) i) = core (getb bs i)).
Proof.
  intros Hlen Hl Hnd Hr Hb Hbl.
  assert (Hbh : b <> HEAD) by (unfold HEAD; lia).
  assert (Hnx : (nxf bs HEAD < 31)%nat).
  { apply (links_range _ _ _ _ _ (fun i => (i < 31)%nat) Hl); [|unfold HEAD; lia].
    intros i Hi. apply Hr in Hi. lia. }
  unfold link_front.
  set (bs1 := updb _ b bs). set (bs2 := updb _ b bs1). fold (nxf bs2 HEAD).
  assert (L1 : length bs1 = 31%nat) by (unfold bs1; by rewrite length_updb).
  assert (L2 : length bs2 = 31%nat) by (unfold bs2; by rewrite length_updb).
  assert (E2 : nxf bs2 HEAD = nxf bs HEAD).
  { unfold bs2. rewrite nxf_set_prev by lia. unfold bs1. rewrite nxf_set_next by lia.
    unfold upd. by rewrite decide_False. }
  rewrite E2. set (bs3 := updb _ (nxf bs HEAD) bs2).
  assert (L3 : length bs3 = 31%nat) by (unfold bs3; by rewrite length_updb).
  split_and!.
  - eapply links_ext; [| |exact (links_front _ _ HEAD l b Hl Hnd Hbh Hbl)]; intros i _.
    + rewrite nxf_set_next by (unfold HEAD; lia). unfold upd. destruct (decide (i = HEAD)); [done|].
      unfold bs3. rewrite nxf_set_prev by lia. unfold bs2. rewrite nxf_set_prev by lia.
      unfold bs1. rewrite nxf_set_next by lia. done.
    + rewrite pvf_set_next by (unfold HEAD; lia). unfold bs3. rewrite pvf_set_prev by lia. unfold upd.
      destruct (decide (i = nxf bs HEAD)); [done|]. unfold bs2. rewrite pvf_set_prev by lia. unfold upd.
      destruct (decide (i = b)); [done|]. unfold bs1. by rewrite pvf_set_next by lia.
  - by rewrite length_updb.
  - intros i. rewrite core_updb by (done || unfold HEAD; lia).
    unfold bs3. rewrite core_updb by (done || lia). unfold bs2. rewrite core_updb by (done || lia).
    unfold bs1. by rewrite core_updb by (done || lia).
Qed.

Lemma move_front_lru bs l1 b l2 :
  lru bs (l1 ++ b :: l2) ->
  lru (move_front b bs) (b :: l1 ++ l2) /\
  (forall i, core (getb (move_front b bs) i) = core (getb bs i)).
Proof.
  intros Hlru. pose proof (lru_not_head _ _ Hlru) as Hh. destruct Hlru as [Hlen Hl Hnd Hall].
  assert (Hndh : NoDup (HEAD :: l1 ++ b :: l2)) by (by apply NoDup_cons).
  assert (Hr : forall i, i ∈ l1 ++ b :: l2 -> (i < 31)%nat) by (intros i Hi; apply Hall in Hi; lia).
  assert (Hb : (b < 30)%nat) by (apply Hall; rewrite elem_of_app, elem_of_cons; auto).
  assert (Hhd : (HEAD < 31)%nat) by (unfold HEAD; lia).
  pose proof (proj1 (links_app _ _ _ _ _ _ _) Hl) as [H1 H2].
  assert (Hnb : (nxf bs b < 31)%nat).
  { apply (links_range _ _ _ _ _ (fun i => (i < 31)%nat) H2); [|done]. intros i Hi. apply Hr, elem_of_app. right. by right. }
  assert (Hpb : (pvf bs b < 31)%nat).
  { clear -H1 Hr Hhd. assert (Hin : pvf bs b ∈ HEAD :: l1).
    { revert H1. generalize HEAD. induction l1 as [|x l1 IH]; intros h0; simpl.
      - intros [_ ->]. left.
      - intros (_ & _ & H). right. apply IH; [|done]. intros i Hi. apply Hr. by right. }
    apply elem_of_cons in Hin as [->|Hin]; [done|]. apply Hr, elem_of_app. by left. }
  apply NoDup_app in Hnd as Hnd'. destruct Hnd' as (N1 & N12 & N2). apply NoDup_cons in N2 as [Nb N2].
  assert (Hnbb : nxf bs b <> b).
  { destruct l2 as [|y l2]; simpl in H2; destruct H2 as [-> _].
    - unfold HEAD. lia.
    - intros ->. apply Nb. left. }
  unfold move_front. fold (nxf bs b) (pvf bs b). set (bs1 := updb _ (nxf bs b) bs).
  assert (L1 : length bs1 = 31%nat) by (unfold bs1; by rewrite length_updb).
  fold (nxf bs1 b) (pvf bs1 b).
  assert (E1 : nxf bs1 b = nxf bs b) by (unfold bs1; by rewrite nxf_set_prev by lia).
  assert (E2 : pvf bs1 b = pvf bs b).
  { unfold bs1. rewrite pvf_set_prev by lia. unfold upd. by rewrite decide_False by done. }
  rewrite E1, E2. set (bs2 := updb _ (pvf bs b) bs1).
  assert (L2 : length bs2 = 31%nat) by (unfold bs2; by rewrite length_updb).
  assert (Hl2 : links (nxf bs2) (pvf bs2) HEAD (l1 ++ l2) HEAD).
  { eapply links_ext; [| |exact (links_unlink _ _ _ _ _ _ Hl Hndh)]; intros i _.
    - unfold bs2. rewrite nxf_set_next by lia. unfold upd. destruct (decide _); [done|].
      unfold bs1. by rewrite nxf_set_prev by lia.
    - unfold bs2. rewrite pvf_set_next by lia. unfold bs1. by rewrite pvf_set_prev by lia. }
  assert (Hin : forall i, i ∈ l1 ++ l2 -> i ∈ l1 ++ b :: l2).
  { intros i. rewrite !elem_of_app, elem_of_cons. tauto. }
  destruct (link_front_links bs2 (l1 ++ l2) b) as (H3 & H4 & H5); auto.
  - apply NoDup_cons. split; [intros Hc; by apply Hh, Hin|]. apply NoDup_app. split_and!; auto.
    intros i Hi Hi2. apply (N12 i Hi). by right.
  - intros i Hi. by apply Hall, Hin.
  - rewrite elem_of_app. intros [Hc|Hc]; [|done]. apply (N12 b Hc). left.
  - split; [split|]; auto.
    + apply NoDup_cons. rewrite elem_of_app. split.
      * intros [Hc|Hc]; [|done]. apply (N12 b Hc). left.
      * apply NoDup_app. split_and!; auto. intros i Hi Hi2. apply (N12 i Hi). by right.
    + intros i. rewrite <- Hall, elem_of_cons, !elem_of_app, elem_of_cons. tauto.
    + intros i. rewrite H5. unfold bs2. rewrite core_updb by (done || lia).
      unfold bs1. by rewrite core_updb by (done || lia).
Qed.

(** ** Scans *)
Fixpoint lfind (f : nat -> bool) (l : list nat) : option nat :=
  match l with
  | [] => None
  | x :: l' => if f x then Some x else lfind f l'
  end.

Lemma lfind_spec f l :
  match lfind f l with
  | Some x => x ∈ l /\ f x = true
  | None => forall x, x ∈ l -> f x = false
  end.
Proof.
  induction l as [|x l IH]; simpl; [by intros x Hx%not_elem_of_nil|].
  destruct (f x) eqn:E; [split; [left|done]|]. destruct (lfind f l) as [y|].
  - destruct IH. split; [by right|done].
  - intros y [->|Hy]%elem_of_cons; auto.
Qed.

Lemma links_rev nx pv a l z : links nx pv a l z -> links pv nx z (reverse l) a.
Proof.
  revert a. induction l as [|x l IH]; intros a; simpl; [intros [? ?]; auto|].
  intros (H1 & H2 & H3). rewrite reverse_cons. apply links_app. split; [by apply IH|]. simpl. auto.
Qed.

Lemma scan_next_links fuel f bs pv a l :
  links (nxf bs) pv a l HEAD -> HEAD ∉ l -> (length l <= fuel)%nat ->
  scan_next fuel f (nxf bs a) bs = Ok (lfind (fun i => f (getb bs i)) l).
Proof.
  revert fuel a. induction l as [|x l IH]; intros fuel a Hl Hh Hf; simpl in Hl.
  - destruct Hl as [-> _]. destruct fuel; cbn [scan_next scan_prev]; by rewrite decide_True.
  - destruct Hl as (-> & _ & Hl). apply not_elem_of_cons in Hh as [Hx Hh].
    destruct fuel as [|fuel]; cbn [length] in Hf; [lia|]. cbn [scan_next scan_prev lfind]. rewrite decide_False by done.
    destruct (f (getb bs x)); [done|]. apply IH; [done|done|lia].
Qed.

Lemma scan_prev_links fuel f bs nx a l :
  links (pvf bs) nx a l HEAD -> HEAD ∉ l -> (length l <= fuel)%nat ->
  scan_prev fuel f (pvf bs a) bs = Ok (lfind (fun i => f (getb bs i)) l).
Proof.
  revert fuel a. induction l as [|x l IH]; intros fuel a Hl Hh Hf; simpl in Hl.
  - destruct Hl as [-> _]. destruct fuel; cbn [scan_next scan_prev]; by rewrite decide_True.
  - destruct Hl as (-> & _ & Hl). apply not_elem_of_cons in Hh as [Hx Hh].
    destruct fuel as [|fuel]; cbn [length] in Hf; [lia|]. cbn [scan_next scan_prev lfind]. rewrite decide_False by done.
    destruct (f (getb bs x)); [done|]. apply IH; [done|done|lia].
Qed.

Lemma lru_length bs l : lru bs l -> length l = 30%nat.
Proof.
  intros [_ _ Hnd Hall]. assert (Hp : l ≡ₚ seq 0 30).
  { apply NoDup_Permutation; auto; [apply NoDup_seq|]. intros i. rewrite Hall, elem_of_seq. lia. }
  rewrite Hp. apply length_seq.
Qed.

(** The scans are linear searches of the order of use, from either end. *)
Lemma scan_next_lru bs l f : lru bs l ->
  scan_next (Z.to_nat NBUF) f (b_next (getb bs HEAD)) bs = Ok (lfind (fun i => f (getb bs i)) l).
Proof.
  intros H. apply (scan_next_links _ f bs (pvf bs)); [apply H|by apply (lru_not_head bs)|].
  rewrite (lru_length bs l H). by vm_compute.
Qed.

Lemma scan_prev_lru bs l f : lru bs l ->
  scan_prev (Z.to_nat NBUF) f (b_prev (getb bs HEAD)) bs = Ok (lfind (fun i => f (getb bs i)) (reverse l)).
Proof.
  intros H. apply (scan_prev_links _ f bs (nxf bs)); [apply links_rev, H| |].
  - rewrite elem_of_reverse. by apply (lru_not_head bs).
  - rewrite length_reverse, (lru_length bs l H). by vm_compute.
Qed.

(** ** The cache against the reference store *)
Section rel.
Context (me dev : Z).

Definition held (b : buf) : bool := negb (sl_locked (b_lock b) =? 0).

(** A referenced buffer, and a free one. *)
Record buf_used (a : acache) (b : buf) : Prop := {
  bu_cnt : 0 < b_refcnt b;
  bu_dev : b_dev b = dev;
  bu_valid : b_valid b = true;
  bu_mine : held b = true -> holdingsleep me (b_lock b) = true;
  bu_ref : a_refs a !! b_blockno b = Some (mkR (Z.to_nat (b_refcnt b)) (held b) (b_data b));
}.
Record buf_free (a : acache) (b : buf) : Prop := {
  bf_cnt : b_refcnt b = 0;
  bf_lock : held b = false;
  bf_clean : b_dev b = dev -> a_refs a !! b_blockno b = None /\
               (b_valid b = true -> b_data b = dget (a_disk a) (b_blockno b));
}.

Record bio_rel (s : bcache) (a : acache) : Prop := {
  br_lru : exists l, lru (bc_buf s) l;
  br_disk : a_disk a = bc_disk s;
  br_trace : a_trace a = bc_trace s;
  br_uniq : forall i j, (i < 30)%nat -> (j < 30)%nat ->
    b_dev (getb (bc_buf s) i) = dev -> b_dev (getb (bc_buf s) j) = dev ->
    b_blockno (getb (bc_buf s) i) = b_blockno (getb (bc_buf s) j) -> i = j;
  br_buf : forall i, (i < 30)%nat ->
    buf_used a (getb (bc_buf s) i) \/ buf_free a (getb (bc_buf s) i);
  br_back : forall b r, a_refs a !! b = Some r -> exists i, (i < 30)%nat /\
    b_dev (getb (bc_buf s) i) = dev /\ b_blockno (getb (bc_buf s) i) = b;
}.

Lemma core_inj_fields b b' : core b = core b' ->
  b_valid b = b_valid b' /\ b_dev b = b_dev b' /\ b_blockno b = b_blockno b' /\
  b_lock b = b_lock b' /\ b_refcnt b = b_refcnt b' /\ b_data b = b_data b'.
Proof. unfold core. intros [=]. split_and!; auto. Qed.

Lemma buf_used_core a b b' : core b = core b' -> buf_used a b -> buf_used a b'.
Proof.
  intros Hc%core_inj_fields [H1 H2 H3 H4 H5]. destruct Hc as (E1 & E2 & E3 & E4 & E5 & E6).
  unfold held in *. split; unfold held; rewrite <- ?E1, <- ?E2, <- ?E3, <- ?E4, <- ?E5, <- ?E6; auto.
Qed.
Lemma buf_free_core a b b' : core b = core b' -> buf_free a b -> buf_free a b'.
Proof.
  intros Hc%core_inj_fields [H1 H2 H3]. destruct Hc as (E1 & E2 & E3 & E4 & E5 & E6).
  unfold held in *. split; unfold held; rewrite <- ?E1, <- ?E2, <- ?E3, <- ?E4, <- ?E5, <- ?E6; auto.
Qed.

(** One buffer changes, everything else stays. *)
Lemma bio_rel_update s a i s' a' :
  bio_rel s a -> (i < 30)%nat -> (exists l, lru (bc_buf s') l) ->
  (forall j, j <> i -> core (getb (bc_buf s') j) = core (getb (bc_buf s) j)) ->
  a_disk a' = bc_disk s' -> a_trace a' = bc_trace s' ->
  let x := getb (bc_buf s) i in let x' := getb (bc_buf s') i in
  b_dev x' = dev ->
  (b_blockno x' = b_blockno x /\ b_dev x = dev \/
   b_refcnt x = 0 /\ (forall j, (j < 30)%nat -> b_dev (getb (bc_buf s) j) = dev ->
                        b_blockno (getb (bc_buf s) j) <> b_blockno x')) ->
  (forall b, b <> b_blockno x' -> a_refs a' !! b = a_refs a !! b /\ dget (a_disk a') b = dget (a_disk a) b) ->
  (buf_used a' x' \/ buf_free a' x') ->
  bio_rel s' a'.
Proof.
  intros [Hl Hd Ht Hu Hb Hk] Hi Hl' Hcore Hd' Ht' x x' Hdev Hblk Hrefs Hx'.
  assert (Hother : forall j, (j < 30)%nat -> j <> i -> b_dev (getb (bc_buf s) j) = dev ->
            b_blockno (getb (bc_buf s) j) <> b_blockno x').
  { intros j Hj Hji Hjd. destruct Hblk as [[E Hxd]|[_ Hne]]; [|by apply Hne].
    rewrite E. intros Ec. apply Hji. by apply Hu. }
  assert (Hfld : forall j, j <> i ->
     b_dev (getb (bc_buf s') j) = b_dev (getb (bc_buf s) j) /\
     b_blockno (getb (bc_buf s') j) = b_blockno (getb (bc_buf s) j)).
  { intros j Hji. destruct (core_inj_fields _ _ (Hcore j Hji)) as (_ & ? & ? & _). auto. }
  split; auto.
  - intros j k Hj Hk' Hjd Hkd Heq.
    destruct (decide (j = i)) as [->|Hji], (decide (k = i)) as [->|Hki]; auto.
    + destruct (Hfld k Hki) as [E1 E2]. rewrite E1 in Hkd. rewrite E2 in Heq.
      exfalso. by apply (Hother k).
    + destruct (Hfld j Hji) as [E1 E2]. rewrite E1 in Hjd. rewrite E2 in Heq.
      exfalso. by apply (Hother j).
    + destruct (Hfld k Hki) as [E1 E2], (Hfld j Hji) as [E3 E4].
      rewrite E1 in Hkd. rewrite E3 in Hjd. rewrite E2, E4 in Heq. by apply Hu.
  - intros j Hj. destruct (decide (j = i)) as [->|Hji]; [done|].
    destruct (Hb j Hj) as [Huse|Hfree].
    + left. eapply buf_used_core; [symmetry; by apply Hcore|]. destruct Huse as [U1 U2 U3 U4 U5].
      split; auto. by rewrite (proj1 (Hrefs _ (Hother j Hj Hji U2))).
    + right. eapply buf_free_core; [symmetry; by apply Hcore|]. destruct Hfree as [F1 F2 F3].
      split; auto. intros Hjd. destruct (Hrefs _ (Hother j Hj Hji Hjd)) as [-> ->]. by apply F3.
  - intros b r Hbr. destruct (decide (b = b_blockno x')) as [->|Hne]; [by exists i|].
    rewrite (proj1 (Hrefs b Hne)) in Hbr. destruct (Hk b r Hbr) as (j & Hj & Hjd & Hjb).
    destruct (decide (j = i)) as [->|Hji].
    + exfalso. destruct Hblk as [[E _]|[E _]]; [by rewrite E in Hne; fold x in Hjb|].
      destruct (Hb i Hi) as [Huse|Hfree]; [destruct Huse as [Hc _ _ _ _]; fold x in Hc; lia|].
      destruct (bf_clean _ _ Hfree Hjd) as [Hn _]. congruence.
    + destruct (Hfld j Hji) as [E1 E2]. exists j. by rewrite E1, E2.
Qed.

Lemma lru_updb bs l f i :
  lru bs l -> (i < 30)%nat -> (forall b, b_next (f b) = b_next b /\ b_prev (f b) = b_prev b) ->
  lru (updb f i bs) l.
Proof.
  intros [H1 H2 H3 H4] Hi Hf. split; auto; [by rewrite length_updb|].
  eapply links_ext; [| |exact H2]; intros j _; unfold nxf, pvf; rewrite getb_updb by lia;
    (destruct (decide (j = i)) as [->|]; [|done]); apply Hf.
Qed.

Lemma bio_lt s a i : bio_rel s a -> (i < 30)%nat -> (i < length (bc_buf s))%nat.
Proof. intros [(l & Hl) _ _ _ _ _]. rewrite (lru_len _ _ Hl). lia. Qed.

(** The buffer of a referenced block. *)
Lemma bio_find s a b r : bio_rel s a -> a_refs a !! b = Some r ->
  exists i, (i < 30)%nat /\ b_blockno (getb (bc_buf s) i) = b /\ buf_used a (getb (bc_buf s) i) /\
    r = mkR (Z.to_nat (b_refcnt (getb (bc_buf s) i))) (held (getb (bc_buf s) i)) (b_data (getb (bc_buf s) i)).
Proof.
  intros Hr Hb. destruct (br_back _ _ Hr b r Hb) as (i & Hi & Hd & Hbn). exists i.
  destruct (br_buf _ _ Hr i Hi) as [Hu|Hf].
  - split_and!; auto. pose proof (bu_ref _ _ Hu) as E. rewrite Hbn in E. congruence.
  - destruct (bf_clean _ _ Hf Hd) as [Hn _]. congruence.
Qed.

(** Which buffer is locked for a block: the client's pointer. *)
Definition is_buf (b : Z) (x : buf) : bool := (b_dev x =? dev) && (b_blockno x =? b).
Definition handle (b : Z) (s : bcache) : option nat := find_index (is_buf b) (take 30 (bc_buf s)).

Lemma is_buf_true b x : is_buf b x = true <-> b_dev x = dev /\ b_blockno x = b.
Proof. unfold is_buf. by rewrite andb_true_iff, !Z.eqb_eq. Qed.

Lemma handle_eq s a i : bio_rel s a -> (i < 30)%nat -> b_dev (getb (bc_buf s) i) = dev ->
  handle (b_blockno (getb (bc_buf s) i)) s = Some i.
Proof.
  intros Hr Hi Hd. pose proof (bio_lt s a i Hr Hi) as Hlt. unfold handle. apply find_index_Some.
  assert (Hget : forall j x, take 30 (bc_buf s) !! j = Some x -> (j < 30)%nat /\ getb (bc_buf s) j = x).
  { intros j x Hj. apply lookup_take_Some in Hj as [Hj ?]. split; [done|]. unfold getb. by rewrite Hj. }
  split.
  - exists (getb (bc_buf s) i). rewrite lookup_take_lt by done. split; [|by apply is_buf_true].
    unfold getb. destruct (lookup_lt_is_Some_2 _ _ Hlt) as [x ->]. done.
  - intros j y Hj Hy. apply Hget in Hy as [Hj30 <-]. apply not_true_iff_false.
    rewrite is_buf_true. intros [Hjd Hjb]. assert (j = i); [|lia]. by apply (br_uniq _ _ Hr).
Qed.

(** ** Taking a buffer *)

(** A free buffer in the list, when fewer blocks are referenced than there are
    buffers. *)
Lemma bio_room s a : bio_rel s a -> Z.of_nat (size (a_refs a)) < NBUF ->
  exists i, (i < 30)%nat /\ b_refcnt (getb (bc_buf s) i) = 0.
Proof.
  intros Hr Hsz. destruct (decide (Exists (fun i => b_refcnt (getb (bc_buf s) i) = 0) (seq 0 30))) as [He|Hn].
  { apply Exists_exists in He as (i & Hi%elem_of_seq & Hc). exists i. split; [lia|done]. }
  exfalso. assert (Hall : forall i, (i < 30)%nat -> buf_used a (getb (bc_buf s) i)).
  { intros i Hi. destruct (br_buf _ _ Hr i Hi) as [|Hf]; [done|]. exfalso. apply Hn, Exists_exists.
    exists i. split; [apply elem_of_seq; lia|apply Hf]. }
  set (bl := (fun i => b_blockno (getb (bc_buf s) i)) <$> seq 0 30).
  assert (Hnd : NoDup bl).
  { apply NoDup_fmap_2_strong; [|apply NoDup_seq]. intros i j Hi%elem_of_seq Hj%elem_of_seq Hij.
    apply (br_uniq _ _ Hr); auto; try lia; apply Hall; lia. }
  assert (Hsub : list_to_set bl ⊆ dom (a_refs a)).
  { intros b Hb%elem_of_list_to_set. apply list_elem_of_fmap in Hb as (i & -> & Hi%elem_of_seq).
    apply elem_of_dom. rewrite (bu_ref _ _ (Hall i ltac:(lia))). by eexists. }
  apply subseteq_size in Hsub. rewrite size_list_to_set in Hsub by done.
  unfold bl in Hsub. rewrite length_fmap, length_seq, size_dom in Hsub. change NBUF with 30 in Hsz. lia.
Qed.

(** Locking a free-standing buffer and filling it from disk if needed. *)
Lemma lock_buf_eq i bs D T :
  (i < length bs)%nat -> held (getb bs i) = false ->
  lock_buf me i (mkBc bs D T) = Ok (mkBc (updb (set_lock (mkSl 1 me)) i bs) D T).
Proof.
  intros Hi Hh. unfold lock_buf. cbn [bc_buf]. unfold acquiresleep. unfold held in Hh. by rewrite Hh.
Qed.

(** The buffer bread returns, from the buffer bget chose. *)
Definition loaded (D : disk) (x : buf) : buf :=
  let x := set_lock (mkSl 1 me) x in
  if b_valid x then x else set_data true (dget D (b_blockno x)) x.

Lemma bread_finish i bs D T :
  (i < length bs)%nat -> held (getb bs i) = false ->
  (let* (b, s) := (let* s := lock_buf me i (mkBc bs D T) in Ok (i, s)) in
   if negb (b_valid (getb (bc_buf s) b)) then
     let s := disk_transfer b false s in
     Ok (b, set_bufs s (updb (fun x => set_data true (b_data x) x) b (bc_buf s)))
   else Ok (b, s)) = Ok (i, mkBc (updb (loaded D) i bs) D T).
Proof.
  intros Hi Hh. rewrite lock_buf_eq by done. cbn [rbind bc_buf].
  rewrite getb_updb, decide_True by done. unfold set_lock at 1. cbn [b_valid].
  destruct (b_valid (getb bs i)) eqn:Hv; cbn [negb].
  - do 3 f_equal. unfold updb. apply list_alter_ext; [|done]. intros x Hx. unfold loaded.
    unfold getb in Hv. rewrite Hx in Hv. simpl in Hv. simpl. by rewrite Hv.
  - do 3 f_equal. unfold disk_transfer, set_bufs. cbn [bc_buf bc_disk bc_trace].
    rewrite getb_updb, decide_True by done. rewrite !updb_updb. unfold updb.
    f_equal. apply list_alter_ext; [|done]. intros x Hx. unfold loaded. unfold getb in *. rewrite Hx in *. simpl in *.
    rewrite Hv. done.
Qed.
End rel.
