(* ===== verification/BioProps.v ===== *)
(** * The buffer cache implements the reference store

    [bio_laws]: bio.c satisfies the interface the log and the file system are
    verified against. *)

From S2P Require Import Prelude Riscv Block Sleeplock Bio BioFacts.

Section laws.
Context (me dev : Z).
#[local] Abbreviation bio_rel := (bio_rel me dev).
#[local] Abbreviation buf_used := (buf_used me dev).
#[local] Abbreviation buf_free := (buf_free dev).

(** ** bread *)
Lemma holding_mine : holdingsleep me (mkSl 1 me) = true.
Proof. unfold holdingsleep. simpl. apply Z.eqb_refl. Qed.

(** A buffer loaded for block [b] with one more reference. *)
Lemma loaded_used a x (c : Z) d (D : disk) :
  b_refcnt x = c -> 0 < c -> b_dev x = dev ->
  a_refs a !! b_blockno x = Some (mkR (Z.to_nat c) true d) ->
  (b_valid x = true -> b_data x = d) -> (b_valid x = false -> dget D (b_blockno x) = d) ->
  buf_used a (loaded me D x).
Proof.
  intros Hc Hc0 Hd Hr Hv Hnv. unfold loaded. simpl. destruct (b_valid x) eqn:Ev.
  - split; simpl; rewrite ?Hc; auto using holding_mine. unfold held. simpl. by rewrite Hr, Hv.
  - split; simpl; rewrite ?Hc; auto using holding_mine. unfold held. simpl. by rewrite Hr, Hnv.
Qed.

(** bget's choice of buffer [i], renamed by [f] to block [b], then loaded. *)
Lemma take_rel s a i f b d :
  bio_rel s a -> (i < 30)%nat -> let x := f (getb (bc_buf s) i) in
  (forall y, b_next (f y) = b_next y /\ b_prev (f y) = b_prev y) ->
  b_dev x = dev -> b_blockno x = b -> 0 < b_refcnt x ->
  (b_valid x = true -> b_data x = d) -> (b_valid x = false -> dget (bc_disk s) b = d) ->
  (b = b_blockno (getb (bc_buf s) i) /\ b_dev (getb (bc_buf s) i) = dev \/
   b_refcnt (getb (bc_buf s) i) = 0 /\ forall j, (j < 30)%nat ->
     b_dev (getb (bc_buf s) j) = dev -> b_blockno (getb (bc_buf s) j) <> b) ->
  let s' := mkBc (updb (loaded me (bc_disk s)) i (updb f i (bc_buf s))) (bc_disk s) (bc_trace s) in
  bio_rel s' (mkA (a_disk a) (<[b := mkR (Z.to_nat (b_refcnt x)) true d]> (a_refs a)) (a_trace a)) /\
  handle dev b s' = Some i.
Proof.
  intros Hr Hi x Hf Hdv Hbn Hcnt Hv Hnv Hold s'. destruct (br_lru _ _ _ _ Hr) as (l & Hl).
  pose proof (bio_lt _ _ _ _ _ Hr Hi) as Hlt. unfold s'. rewrite updb_updb.
  assert (Hg : getb (updb (fun y => loaded me (bc_disk s) (f y)) i (bc_buf s)) i = loaded me (bc_disk s) x).
  { by rewrite getb_updb, decide_True. }
  assert (Hlb : b_blockno (loaded me (bc_disk s) x) = b /\ b_dev (loaded me (bc_disk s) x) = dev).
  { unfold loaded. simpl. destruct (b_valid x); simpl; auto. }
  destruct Hlb as [Hl1 Hl2].
  assert (Hrel : bio_rel (mkBc (updb (fun y => loaded me (bc_disk s) (f y)) i (bc_buf s)) (bc_disk s) (bc_trace s))
    (mkA (a_disk a) (<[b := mkR (Z.to_nat (b_refcnt x)) true d]> (a_refs a)) (a_trace a))).
  { apply (bio_rel_update me dev s a i); simpl; rewrite ?Hg, ?Hl1; auto; try apply Hr.
    - exists l. apply lru_updb; auto. intros y. destruct (Hf y) as (<- & <-).
      unfold loaded. simpl. by destruct (b_valid (f y)).
    - intros j Hj. by rewrite getb_updb, decide_False.
    - intros b' Hb'. by rewrite lookup_insert_ne.
    - left. apply (loaded_used _ _ (b_refcnt x) d); rewrite ?Hbn; auto. simpl. by simplify_map_eq. }
  split; [done|]. pose proof (handle_eq me dev _ _ i Hrel Hi) as Hhd. simpl in Hhd.
  rewrite Hg, Hl1 in Hhd. by apply Hhd.
Qed.

Lemma bread_rel s a b a' : bio_rel s a -> a_read b a = Ok a' ->
  exists i s', bread me dev b s = Ok (i, s') /\ bio_rel s' a' /\ handle dev b s' = Some i.
Proof.
  intros Hr Ea. destruct (br_lru _ _ _ _ Hr) as (l & Hl). destruct s as [bs D T].
  unfold bread, bget. cbn [bc_buf]. cbn [bc_buf] in Hl. rewrite (scan_next_lru _ l) by done. cbn [rbind].
  pose proof (lfind_spec (fun i => (b_dev (getb bs i) =? dev) && (b_blockno (getb bs i) =? b)) l) as Hfind.
  unfold a_read in Ea. destruct (lfind _ l) as [i|].
  - destruct Hfind as [Hi Hb]. apply (lru_all _ _ Hl) in Hi. apply andb_true_iff in Hb as [Hdv%Z.eqb_eq Hbn%Z.eqb_eq].
    pose proof (bio_lt _ _ _ _ _ Hr Hi) as Hlt. cbn [bc_buf] in Hlt.
    set (f := fun x => set_refcnt (b_refcnt x + 1) x). unfold set_bufs. cbn [bc_disk bc_trace].
    assert (Hh : held (getb (updb f i bs) i) = held (getb bs i)) by (by rewrite getb_updb, decide_True).
    assert (Hunheld : held (getb bs i) = false /\
      exists d, a' = mkA (a_disk a) (<[b := mkR (Z.to_nat (b_refcnt (getb bs i) + 1)) true d]> (a_refs a)) (a_trace a) /\
        0 <= b_refcnt (getb bs i) /\ (b_valid (getb bs i) = true -> b_data (getb bs i) = d) /\
        (b_valid (getb bs i) = false -> dget D b = d)).
    { pose proof (br_disk _ _ _ _ Hr) as HD. simpl in HD.
      destruct (br_buf _ _ _ _ Hr i Hi) as [[U1 U2 U3 U4 U5]|[F1 F2 F3]]; cbn [bc_buf] in *.
      - rewrite Hbn in U5. rewrite U5 in Ea. cbn [r_held r_cnt r_data] in Ea.
        destruct (held (getb bs i)); [done|]. injection Ea as <-. split; [done|]. eexists. split_and!; auto.
        + unfold set_refs. do 3 f_equal. lia.
        + lia.
        + congruence.
      - destruct (F3 Hdv) as [Hn Hc]. rewrite Hbn in Hn, Hc. rewrite Hn in Ea.
        destruct (decide _); [|done]. injection Ea as <-. split; [done|]. exists (dget (a_disk a) b).
        split_and!; auto; try lia; [by rewrite F1|by rewrite HD]. }
    destruct Hunheld as [Hfree (d & -> & Hc0 & Hv & Hnv)].
    exists i. eexists. split; [apply bread_finish; [by rewrite length_updb|by rewrite Hh]|].
    apply (take_rel (mkBc bs D T) a i f b d); simpl; auto. lia.
  - assert (Hnone : a_refs a !! b = None).
    { destruct (a_refs a !! b) as [r|] eqn:Eb; [|done]. exfalso.
      destruct (br_back _ _ _ _ Hr b r Eb) as (i & Hi & Hdv & Hbn). simpl in *.
      specialize (Hfind i (proj2 (lru_all _ _ Hl i) Hi)). by rewrite Hdv, Hbn, !Z.eqb_refl in Hfind. }
    rewrite Hnone in Ea. destruct (decide _) as [Hsz|]; [|done]. injection Ea as <-.
    rewrite (scan_prev_lru _ l) by done. cbn [rbind].
    pose proof (lfind_spec (fun i => b_refcnt (getb bs i) =? 0) (reverse l)) as Hfree.
    destruct (lfind _ (reverse l)) as [i|].
    2: { exfalso. destruct (bio_room _ _ _ _ Hr Hsz) as (i & Hi & Hc). simpl in Hc.
         specialize (Hfree i). rewrite elem_of_reverse, (lru_all _ _ Hl), Hc in Hfree. by specialize (Hfree Hi). }
    destruct Hfree as [Hi Hc%Z.eqb_eq]. rewrite elem_of_reverse, (lru_all _ _ Hl) in Hi.
    pose proof (bio_lt _ _ _ _ _ Hr Hi) as Hlt. cbn [bc_buf] in Hlt.
    destruct (br_buf _ _ _ _ Hr i Hi) as [[U1 _ _ _ _]|[F1 F2 F3]]; cbn [bc_buf] in *; [lia|].
    unfold set_bufs. cbn [bc_disk bc_trace]. exists i. eexists.
    split; [apply bread_finish; [by rewrite length_updb|by rewrite getb_updb, decide_True]|].
    apply (take_rel (mkBc bs D T) a i (set_block false dev b 1) b (dget (a_disk a) b)); simpl; auto; try done.
    + intros _. by rewrite (br_disk _ _ _ _ Hr).
    + right. split; [done|]. intros j Hj Hdj Hbj.
      specialize (Hfind j (proj2 (lru_all _ _ Hl j) Hj)). by rewrite Hdj, Hbj, !Z.eqb_refl in Hfind.
Qed.

(** ** Operations on a buffer that is already referenced *)

(** A change of the fields of buffer [i], keeping its block and links. *)
Lemma change_rel s a i f r' :
  bio_rel s a -> (i < 30)%nat -> let x := getb (bc_buf s) i in
  buf_used a x ->
  (forall y, b_next (f y) = b_next y /\ b_prev (f y) = b_prev y /\ b_dev (f y) = b_dev y /\
     b_blockno (f y) = b_blockno y) ->
  b_valid (f x) = true -> 0 < b_refcnt (f x) ->
  (held (f x) = true -> holdingsleep me (b_lock (f x)) = true) ->
  r' = mkR (Z.to_nat (b_refcnt (f x))) (held (f x)) (b_data (f x)) ->
  bio_rel (set_bufs s (updb f i (bc_buf s))) (set_refs a (<[b_blockno x := r']> (a_refs a))).
Proof.
  intros Hr Hi x Hu Hf Hv Hc Hm ->. destruct (br_lru _ _ _ _ Hr) as (l & Hl).
  pose proof (bio_lt _ _ _ _ _ Hr Hi) as Hlt. destruct (Hf x) as (_ & _ & Hfd & Hfb).
  assert (Hg : getb (updb f i (bc_buf s)) i = f x) by (by rewrite getb_updb, decide_True).
  apply (bio_rel_update me dev s a i); simpl; rewrite ?Hg; auto; try apply Hr.
  - exists l. apply lru_updb; auto. intros y. destruct (Hf y) as (? & ? & _). auto.
  - intros j Hj. by rewrite getb_updb, decide_False.
  - rewrite Hfd. apply Hu.
  - left. split; [done|apply Hu].
  - rewrite Hfb. intros b Hb. by rewrite lookup_insert_ne.
  - left. split; auto; [rewrite Hfd; apply Hu|]. rewrite Hfb. simpl. by simplify_map_eq.
Qed.

(** The last reference goes away. *)
Lemma drop_rel s a i f bs' :
  bio_rel s a -> (i < 30)%nat -> let x := getb (bc_buf s) i in
  buf_used a x -> (exists l, lru bs' l) ->
  (forall j, core (getb bs' j) = core (getb (updb f i (bc_buf s)) j)) ->
  b_dev (f x) = b_dev x -> b_blockno (f x) = b_blockno x -> b_data (f x) = b_data x ->
  b_refcnt (f x) = 0 -> held (f x) = false -> b_data x = dget (a_disk a) (b_blockno x) ->
  bio_rel (set_bufs s bs') (set_refs a (delete (b_blockno x) (a_refs a))).
Proof.
  intros Hr Hi x Hu Hl' Hcore Hfd Hfb Hfdt Hc Hh Hcl.
  pose proof (bio_lt _ _ _ _ _ Hr Hi) as Hlt.
  assert (Hg : getb (updb f i (bc_buf s)) i = f x) by (by rewrite getb_updb, decide_True).
  pose proof (Hcore i) as Hci. rewrite Hg in Hci. apply core_inj_fields in Hci as (E1 & E2 & E3 & E4 & E5 & E6).
  apply (bio_rel_update me dev s a i); simpl; rewrite ?E2, ?E3; auto; try apply Hr.
  - intros j Hj. rewrite Hcore, getb_updb, decide_False by done. done.
  - rewrite Hfd. apply Hu.
  - left. split; [done|apply Hu].
  - rewrite Hfb. intros b Hb. by rewrite lookup_delete_ne.
  - right. split; unfold held in *; rewrite ?E4, ?E5; auto.
    intros _. rewrite E3, E6, Hfb, Hfdt. simpl. by rewrite lookup_delete_eq.
Qed.

Lemma bwrite_rel s a i b a' : bio_rel s a -> (i < 30)%nat -> b_blockno (getb (bc_buf s) i) = b ->
  buf_used a (getb (bc_buf s) i) -> a_write b a = Ok a' ->
  exists s', bwrite me i s = Ok s' /\ bio_rel s' a'.
Proof.
  intros Hr Hi Hb Hu Ea. pose proof (bu_ref _ _ _ _ Hu) as Href. unfold a_write in Ea. rewrite <- Hb, Href in Ea.
  cbn [r_held r_data] in Ea. destruct (held _) eqn:Hh; [|done]. injection Ea as <-.
  unfold bwrite. rewrite (bu_mine _ _ _ _ Hu Hh). cbn [negb]. eexists. split; [done|].
  unfold disk_transfer. destruct (br_lru _ _ _ _ Hr) as (l & Hl).
  apply (bio_rel_update me dev s a i); simpl; auto; try (by rewrite (br_disk _ _ _ _ Hr));
    try (by rewrite (br_trace _ _ _ _ Hr)); eauto.
  - apply Hu.
  - left. split; [done|apply Hu].
  - intros b' Hb'. split; [done|]. rewrite dget_insert. by rewrite decide_False by done.
  - left. destruct Hu. by split.
Qed.

Lemma brelse_rel s a i b a' : bio_rel s a -> (i < 30)%nat -> b_blockno (getb (bc_buf s) i) = b ->
  buf_used a (getb (bc_buf s) i) -> a_relse b a = Ok a' ->
  exists s', brelse me i s = Ok s' /\ bio_rel s' a'.
Proof.
  intros Hr Hi Hb Hu Ea. pose proof (bu_ref _ _ _ _ Hu) as Href. pose proof (bu_cnt _ _ _ _ Hu) as Hc.
  pose proof (bu_valid _ _ _ _ Hu) as Hv. pose proof (bio_lt _ _ _ _ _ Hr Hi) as Hlt.
  unfold a_relse in Ea. rewrite <- Hb, Href in Ea.
  cbn [r_held r_data] in Ea. destruct (held _) eqn:Hh; [|done]. unfold a_unref in Ea. cbn [r_cnt r_data] in Ea.
  unfold brelse. rewrite (bu_mine _ _ _ _ Hu Hh). cbn [negb]. rewrite updb_updb.
  set (f := fun x => set_refcnt (b_refcnt (set_lock (releasesleep (b_lock x)) x) - 1) (set_lock (releasesleep (b_lock x)) x)).
  assert (Hg : getb (updb f i (bc_buf s)) i = f (getb (bc_buf s) i)) by (by rewrite getb_updb, decide_True).
  rewrite Hg. change (b_refcnt (f ?x)) with (b_refcnt x - 1).
  eexists. split; [done|].
  destruct (br_lru _ _ _ _ Hr) as (l & Hl).
  assert (Hlf : lru (updb f i (bc_buf s)) l) by (apply lru_updb; auto).
  destruct (Z.to_nat (b_refcnt (getb (bc_buf s) i))) as [|[|c]] eqn:En; [lia| |].
  - destruct (decide _) as [Hcl|]; [|done]. injection Ea as <-. replace (b_refcnt (getb (bc_buf s) i) - 1) with 0 by lia. cbn [Z.eqb].
    assert (Hil : i ∈ l) by (by apply (lru_all _ _ Hl)). apply list_elem_of_split in Hil as (l1 & l2 & ->).
    destruct (move_front_lru _ _ _ _ Hlf) as [Hlm Hcm].
    apply (drop_rel s a i f); auto; [by eexists|change (b_refcnt (getb (bc_buf s) i) - 1 = 0); lia].
  - injection Ea as <-. destruct (Z.eqb_spec (b_refcnt (getb (bc_buf s) i) - 1) 0); [lia|].
    apply (change_rel s a i f); auto; simpl; try done; try lia.
    f_equal. lia.
Qed.

Lemma bpin_rel s a i b a' : bio_rel s a -> (i < 30)%nat -> b_blockno (getb (bc_buf s) i) = b ->
  buf_used a (getb (bc_buf s) i) -> a_pin b a = Ok a' -> bio_rel (bpin i s) a'.
Proof.
  intros Hr Hi Hb Hu Ea. pose proof (bu_ref _ _ _ _ Hu) as Href. pose proof (bu_cnt _ _ _ _ Hu) as Hc.
  unfold a_pin in Ea. rewrite <- Hb, Href in Ea. injection Ea as <-. cbn [r_cnt r_held r_data].
  apply (change_rel s a i); auto; simpl; try done; try apply Hu; try lia. f_equal. lia.
Qed.

Lemma bunpin_rel s a i b a' : bio_rel s a -> (i < 30)%nat -> b_blockno (getb (bc_buf s) i) = b ->
  buf_used a (getb (bc_buf s) i) -> a_unpin b a = Ok a' -> bio_rel (bunpin i s) a'.
Proof.
  intros Hr Hi Hb Hu Ea. pose proof (bu_ref _ _ _ _ Hu) as Href. pose proof (bu_cnt _ _ _ _ Hu) as Hc.
  pose proof (bio_lt _ _ _ _ _ Hr Hi) as Hlt.
  unfold a_unpin, a_unref in Ea. rewrite <- Hb, Href in Ea. cbn [r_cnt r_held r_data] in Ea.
  unfold bunpin. set (f := fun x => set_refcnt (b_refcnt x - 1) x).
  destruct (Z.to_nat (b_refcnt (getb (bc_buf s) i))) as [|[|c]] eqn:En; [lia| |].
  - destruct (held (getb (bc_buf s) i)) eqn:Hh; [done|]. cbn [andb] in Ea. destruct (decide _) as [Hcl|]; [|done]. injection Ea as <-.
    destruct (br_lru _ _ _ _ Hr) as (l & Hl).
    apply (drop_rel s a i f); auto; [exists l; by apply lru_updb|change (b_refcnt (getb (bc_buf s) i) - 1 = 0); lia].
  - rewrite andb_false_r in Ea. injection Ea as <-.
    apply (change_rel s a i f); auto; simpl; try done; try apply Hu; try lia. f_equal. lia.
Qed.

(** ** The interface *)
Definition with_handle (b : Z) (s : bcache) (k : nat -> res bcache) : res bcache :=
  match handle dev b s with Some i => k i | None => Panic "no buffer" end.

Definition bio_ops : BufOps bcache := {|
  buf_read b s := let* (_, s) := bread me dev b s in Ok s;
  buf_data b s := match handle dev b s with Some i => b_data (getb (bc_buf s) i) | None => zero_block end;
  buf_store b d s := match handle dev b s with
                     | Some i => set_bufs s (updb (set_data true d) i (bc_buf s)) | None => s end;
  buf_write b s := with_handle b s (fun i => bwrite me i s);
  buf_relse b s := with_handle b s (fun i => brelse me i s);
  buf_pin b s := with_handle b s (fun i => Ok (bpin i s));
  buf_unpin b s := with_handle b s (fun i => Ok (bunpin i s)) |}.

(** A referenced block has its buffer, which [handle] finds. *)
Lemma bio_handle s a b r : bio_rel s a -> a_refs a !! b = Some r -> exists i,
  handle dev b s = Some i /\ (i < 30)%nat /\ b_blockno (getb (bc_buf s) i) = b /\
  buf_used a (getb (bc_buf s) i) /\
  r = mkR (Z.to_nat (b_refcnt (getb (bc_buf s) i))) (held (getb (bc_buf s) i)) (b_data (getb (bc_buf s) i)).
Proof.
  intros Hr Hb. destruct (bio_find me dev s a b r Hr Hb) as (i & Hi & Hbn & Hu & ->). exists i. split_and!; auto.
  rewrite <- Hbn. apply (handle_eq me dev s a); auto. apply Hu.
Qed.

Definition bio_laws : @BufLaws bcache bio_ops.
Proof.
  refine (@Build_BufLaws bcache bio_ops bio_rel _ _ _ _ _ _ _); intros s a b.
  - intros a' Hr Ea. destruct (bread_rel s a b a' Hr Ea) as (i & s' & E & Hr' & _). simpl. rewrite E. simpl. eauto.
  - intros r Hr Hb Hh. destruct (bio_handle s a b r Hr Hb) as (i & E & _ & _ & _ & ->). simpl. by rewrite E.
  - intros d r Hr Hb Hh. destruct (bio_handle s a b r Hr Hb) as (i & E & Hi & Hbn & Hu & ->).
    simpl. rewrite E. unfold a_store. rewrite Hb. cbn [r_cnt r_held]. rewrite <- Hbn.
    apply (change_rel s a i); auto; simpl; try done; apply Hu.
  - intros a' Hr Ea. unfold a_write in Ea. destruct (a_refs a !! b) as [r|] eqn:Hb; [|done].
    destruct (bio_handle s a b r Hr Hb) as (i & E & Hi & Hbn & Hu & _). simpl. unfold with_handle. rewrite E.
    apply (bwrite_rel s a i b); auto. unfold a_write. by rewrite Hb.
  - intros a' Hr Ea. unfold a_relse in Ea. destruct (a_refs a !! b) as [r|] eqn:Hb; [|done].
    destruct (bio_handle s a b r Hr Hb) as (i & E & Hi & Hbn & Hu & _). simpl. unfold with_handle. rewrite E.
    apply (brelse_rel s a i b); auto. unfold a_relse. by rewrite Hb.
  - intros a' Hr Ea. unfold a_pin in Ea. destruct (a_refs a !! b) as [r|] eqn:Hb; [|done].
    destruct (bio_handle s a b r Hr Hb) as (i & E & Hi & Hbn & Hu & _). simpl. unfold with_handle. rewrite E.
    eexists. split; [done|]. apply (bpin_rel s a i b); auto. unfold a_pin. by rewrite Hb.
  - intros a' Hr Ea. unfold a_unpin in Ea. destruct (a_refs a !! b) as [r|] eqn:Hb; [|done].
    destruct (bio_handle s a b r Hr Hb) as (i & E & Hi & Hbn & Hu & _). simpl. unfold with_handle. rewrite E.
    eexists. split; [done|]. apply (bunpin_rel s a i b); auto. unfold a_unpin. by rewrite Hb.
Defined.
End laws.

(** ** Boot *)

(** The zeroed cache the kernel starts with. *)
Definition bcache0 (D : disk) (T : list (Z * block)) : bcache := mkBc (replicate 31 buf0) D T.

Lemma binit_buf D T : bc_buf (binit (bcache0 D T)) = bc_buf (binit (bcache0 ∅ [])).
Proof. unfold binit, set_bufs, bcache0. cbn [bc_buf]. reflexivity. Qed.

Lemma binit_lru D T : lru (bc_buf (binit (bcache0 D T))) (reverse (seq 0 30)).
Proof.
  rewrite binit_buf. split.
  - by vm_compute.
  - vm_compute. repeat split.
  - rewrite reverse_Permutation. apply NoDup_seq.
  - intros i. rewrite elem_of_reverse, elem_of_seq. lia.
Qed.

Lemma binit_core D T i : core (getb (bc_buf (binit (bcache0 D T))) i) = core buf0.
Proof.
  rewrite binit_buf. unfold getb. destruct (decide (i < 31)%nat) as [Hi|Hi].
  - assert (Hall : Forall (fun x => core x = core buf0) (bc_buf (binit (bcache0 ∅ [])))).
    { vm_compute. repeat constructor. }
    destruct (bc_buf (binit (bcache0 ∅ [])) !! i) as [x|] eqn:E; [|done].
    exact (Forall_lookup_1 _ _ _ _ Hall E).
  - rewrite lookup_ge_None_2; [done|]. rewrite (lru_len _ _ (binit_lru ∅ [])). lia.
Qed.

Lemma binit_rel me dev D T : dev <> 0 -> bio_rel me dev (binit (bcache0 D T)) (mkA D ∅ T).
Proof.
  intros Hdev.
  assert (Hd : forall i, b_dev (getb (bc_buf (binit (bcache0 D T))) i) = 0).
  { intros i. by destruct (core_inj_fields _ _ (binit_core D T i)) as (_ & ? & _). }
  split; auto.
  - eexists. apply binit_lru.
  - intros i j _ _ Hi. rewrite Hd in Hi. congruence.
  - intros i _. right. eapply buf_free_core; [symmetry; apply binit_core|]. by split.
  - intros b r Hb. cbn [a_refs] in Hb. by rewrite lookup_empty in Hb.
Qed.

(** ** Sequences of operations *)
Inductive bop := BRead (b : Z) | BStore (b : Z) (d : block) | BWrite (b : Z)
               | BRelse (b : Z) | BPin (b : Z) | BUnpin (b : Z).

(** Run a client; the result lists the data seen by each BRead.  A store is
    only made to a buffer the client holds. *)
Fixpoint bops_run {S} `{BufOps S} (os : list bop) (s : S) : res (list block * S) :=
  match os with
  | [] => Ok ([], s)
  | BRead b :: os' =>
      let* s := buf_read b s in
      let* (ds, s') := bops_run os' s in Ok (buf_data b s :: ds, s')
  | BStore b d :: os' => bops_run os' (buf_store b d s)
  | BWrite b :: os' => let* s := buf_write b s in bops_run os' s
  | BRelse b :: os' => let* s := buf_relse b s in bops_run os' s
  | BPin b :: os' => let* s := buf_pin b s in bops_run os' s
  | BUnpin b :: os' => let* s := buf_unpin b s in bops_run os' s
  end.

(** Stores go to held buffers. *)
Fixpoint bops_ok (os : list bop) (a : acache) : Prop :=
  match os with
  | [] => True
  | BRead b :: os' => forall a', a_read b a = Ok a' -> bops_ok os' a'
  | BStore b d :: os' =>
      (exists r, a_refs a !! b = Some r /\ r_held r = true) /\ bops_ok os' (a_store b d a)
  | BWrite b :: os' => forall a', a_write b a = Ok a' -> bops_ok os' a'
  | BRelse b :: os' => forall a', a_relse b a = Ok a' -> bops_ok os' a'
  | BPin b :: os' => forall a', a_pin b a = Ok a' -> bops_ok os' a'
  | BUnpin b :: os' => forall a', a_unpin b a = Ok a' -> bops_ok os' a'
  end.

Lemma bops_follow me dev os s a ds a' :
  bio_rel me dev s a -> bops_ok os a -> bops_run os a = Ok (ds, a') ->
  exists s', @bops_run _ (bio_ops me dev) os s = Ok (ds, s') /\ bio_rel me dev s' a'.
Proof.
  revert s a ds. induction os as [|o os IH]; intros s a ds Hr Hok E.
  { cbn [bops_run] in *. injection E as <- <-. eauto. }
  destruct o as [b|b d|b|b|b|b]; cbn [bops_run bops_ok] in *.
  - apply rbind_Ok in E as (a1 & E1 & E). apply rbind_Ok in E as ([ds1 a2] & E2 & E). injection E as <- <-.
    destruct (@bl_read _ _ (bio_laws me dev) s a b a1 Hr E1) as (s1 & -> & Hr1). cbn [rbind].
    destruct (IH s1 a1 ds1 Hr1 (Hok a1 E1) E2) as (s2 & -> & Hr2). cbn [rbind].
    assert (Hd : exists r, a_refs a1 !! b = Some r /\ r_held r = true).
    { cbn [buf_read acache_ops] in E1. unfold a_read in E1. destruct (a_refs a !! b) as [r|].
      - destruct (r_held r); [done|]. injection E1 as <-. simpl. simplify_map_eq. eauto.
      - destruct (decide _); [|done]. injection E1 as <-. simpl. simplify_map_eq. eauto. }
    destruct Hd as (r & Hb & Hh).
    rewrite (@bl_data _ _ (bio_laws me dev) s1 a1 b r Hr1 Hb Hh).
    exists s2. split; [|done]. do 3 f_equal. simpl. unfold a_data. by rewrite Hb.
  - destruct Hok as [(r & Hb & Hh) Hok].
    apply (IH _ _ _ (@bl_store _ _ (bio_laws me dev) s a b d r Hr Hb Hh) Hok E).
  - apply rbind_Ok in E as (a1 & E1 & E).
    destruct (@bl_write _ _ (bio_laws me dev) s a b a1 Hr E1) as (s1 & -> & Hr1). cbn [rbind]. eauto.
  - apply rbind_Ok in E as (a1 & E1 & E).
    destruct (@bl_relse _ _ (bio_laws me dev) s a b a1 Hr E1) as (s1 & -> & Hr1). cbn [rbind]. eauto.
  - apply rbind_Ok in E as (a1 & E1 & E).
    destruct (@bl_pin _ _ (bio_laws me dev) s a b a1 Hr E1) as (s1 & -> & Hr1). cbn [rbind]. eauto.
  - apply rbind_Ok in E as (a1 & E1 & E).
    destruct (@bl_unpin _ _ (bio_laws me dev) s a b a1 Hr E1) as (s1 & -> & Hr1). cbn [rbind]. eauto.
Qed.

(** C7: the buffer cache, with its linked list, recycling and lazy reads, is
    indistinguishable from a store that keeps referenced blocks in memory and
    everything else on disk: from boot, any sequence of operations the store
    accepts runs in the cache without panic or deadlock, sees the same data
    and issues the same disk writes. *)
Theorem bio_refines_store me dev D os ds a :
  dev <> 0 -> bops_ok os (mkA D ∅ []) -> bops_run os (mkA D ∅ []) = Ok (ds, a) ->
  exists s, @bops_run _ (bio_ops me dev) os (binit (bcache0 D [])) = Ok (ds, s) /\
    bc_disk s = a_disk a /\ bc_trace s = a_trace a.
Proof.
  intros Hdev Hok E.
  destruct (bops_follow me dev os _ _ ds a (binit_rel me dev D [] Hdev) Hok E) as (s & Es & Hr).
  exists s. split_and!; [done|by rewrite (br_disk _ _ _ _ Hr)|by rewrite (br_trace _ _ _ _ Hr)].
Qed.

Definition demo_bops : list bop :=
  [BRead 5; BStore 5 (replicate 1024 1); BPin 5; BRelse 5; BRead 5; BWrite 5; BUnpin 5; BRelse 5; BRead 5].

Lemma bio_refines_store_witness : exists ds a s,
  bops_run demo_bops (mkA ∅ ∅ []) = Ok (ds, a) /\
  @bops_run _ (bio_ops 7 1) demo_bops (binit (bcache0 ∅ [])) = Ok (ds, s) /\ bc_disk s = a_disk a.
Proof.
  destruct (bops_run demo_bops (mkA ∅ ∅ [])) as [[ds a]| |] eqn:E; [|vm_compute in E; discriminate E..].
  destruct (bio_refines_store 7 1 ∅ demo_bops ds a) as (s & Es & Hd & _).
  - lia.
  - unfold demo_bops. cbn [bops_ok]. intros a1 E1. vm_compute in E1. injection E1 as <-.
    split; [eexists; split; reflexivity|].
    intros a2 E2. vm_compute in E2. injection E2 as <-. intros a3 E3. vm_compute in E3. injection E3 as <-.
    intros a4 E4. vm_compute in E4. injection E4 as <-. intros a5 E5. vm_compute in E5. injection E5 as <-.
    intros a6 E6. vm_compute in E6. injection E6 as <-. intros a7 E7. vm_compute in E7. injection E7 as <-.
    intros a8 E8. exact I.
  - exact E.
  - exists ds, a, s. split_and!; [reflexivity|exact Es|exact Hd].
Defined.
