(* ===== verification/Log.v ===== *)
(** * The redo log: kernel/log.c

    The code over any buffer cache ([BufOps]).  A transaction's blocks are
    pinned in the cache by log_write; commit copies them to the log area,
    writes the header (the commit point), installs them at home and clears the
    header; recovery installs whatever a valid header names.  Block numbers
    are the non-negative [int]s the header stores. *)

From S2P Require Import Prelude Riscv Block.

(** struct log with its struct logheader lh *)
Record log := mkLog {
  lg_start : Z;
  lg_size : Z;
  lg_outstanding : Z;
  lg_committing : Z;
  lg_dev : Z;
  lh_n : Z;
  lh_block : list Z;
}.

Definition set_lh (lg : log) (n : Z) (bs : list Z) : log :=
  mkLog (lg_start lg) (lg_size lg) (lg_outstanding lg) (lg_committing lg) (lg_dev lg) n bs.
Definition set_ops (lg : log) (outstanding committing : Z) : log :=
  mkLog (lg_start lg) (lg_size lg) outstanding committing (lg_dev lg) (lh_n lg) (lh_block lg).

Section log.
Context {S : Type} `{BufOps S}.

(** for (tail = 0; tail < log.lh.n; tail++): copy log block to its home. *)
Fixpoint install_loop (k : nat) (tail : Z) (recovering : bool) (lg : log) (s : S) : res S :=
  match k with
  | O => Ok s
  | Datatypes.S k' =>
      let lblk := lg_start lg + tail + 1 in
      let dblk := nthZ (lh_block lg) tail in
      let* s := buf_read lblk s in
      let* s := buf_read dblk s in
      let s := buf_store dblk (buf_data lblk s) s in
      let* s := buf_write dblk s in
      let* s := (if recovering then Ok s else buf_unpin dblk s) in
      let* s := buf_relse lblk s in
      let* s := buf_relse dblk s in
      install_loop k' (tail + 1) recovering lg s
  end.
Definition install_trans (recovering : bool) (lg : log) (s : S) : res S :=
  install_loop (Z.to_nat (lh_n lg)) 0 recovering lg s.

(** log.lh.block[i] = lh->block[i]; an index past the array is an overflow. *)
Fixpoint read_head_loop (k : nat) (i : Z) (d : block) (bs : list Z) : res (list Z) :=
  match k with
  | O => Ok bs
  | Datatypes.S k' =>
      if LOGSIZE <=? i then Panic "read_head: overflow"
      else read_head_loop k' (i + 1) d (setZ bs i (get32 d (4 + 4 * i)))
  end.
Definition read_head (lg : log) (s : S) : res (log * S) :=
  let* s := buf_read (lg_start lg) s in
  let d := buf_data (lg_start lg) s in
  let n := get32 d 0 in
  let* bs := read_head_loop (Z.to_nat n) 0 d (lh_block lg) in
  let* s := buf_relse (lg_start lg) s in
  Ok (set_lh lg n bs, s).

(** hb->block[i] = log.lh.block[i]; *)
Fixpoint write_head_loop (k : nat) (i : Z) (bs : list Z) (d : block) : block :=
  match k with
  | O => d
  | Datatypes.S k' => write_head_loop k' (i + 1) bs (put32 d (4 + 4 * i) (nthZ bs i))
  end.
Definition write_head (lg : log) (s : S) : res S :=
  let* s := buf_read (lg_start lg) s in
  let d := put32 (buf_data (lg_start lg) s) 0 (lh_n lg) in
  let d := write_head_loop (Z.to_nat (lh_n lg)) 0 (lh_block lg) d in
  let s := buf_store (lg_start lg) d s in
  let* s := buf_write (lg_start lg) s in
  buf_relse (lg_start lg) s.

Definition recover_from_log (lg : log) (s : S) : res (log * S) :=
  let* (lg, s) := read_head lg s in
  let* s := install_trans true lg s in
  let lg := set_lh lg 0 (lh_block lg) in
  let* s := write_head lg s in
  Ok (lg, s).

Definition initlog (dev logstart nlog : Z) (lg : log) (s : S) : res (log * S) :=
  recover_from_log (mkLog logstart nlog (lg_outstanding lg) (lg_committing lg) dev (lh_n lg) (lh_block lg)) s.

(** One turn of begin_op's loop: admitted, or asleep on &log. *)
Definition begin_op (lg : log) : res log :=
  if negb (lg_committing lg =? 0) then Block
  else if LOGSIZE <? lh_n lg + (lg_outstanding lg + 1) * MAXOPBLOCKS then Block
  else Ok (set_ops lg (lg_outstanding lg + 1) (lg_committing lg)).

Fixpoint write_log_loop (k : nat) (tail : Z) (lg : log) (s : S) : res S :=
  match k with
  | O => Ok s
  | Datatypes.S k' =>
      let to := lg_start lg + tail + 1 in
      let from := nthZ (lh_block lg) tail in
      let* s := buf_read to s in
      let* s := buf_read from s in
      let s := buf_store to (buf_data from s) s in
      let* s := buf_write to s in
      let* s := buf_relse from s in
      let* s := buf_relse to s in
      write_log_loop k' (tail + 1) lg s
  end.
Definition write_log (lg : log) (s : S) : res S :=
  write_log_loop (Z.to_nat (lh_n lg)) 0 lg s.

Definition commit (lg : log) (s : S) : res (log * S) :=
  if 0 <? lh_n lg then
    let* s := write_log lg s in
    let* s := write_head lg s in
    let* s := install_trans false lg s in
    let lg := set_lh lg 0 (lh_block lg) in
    let* s := write_head lg s in
    Ok (lg, s)
  else Ok (lg, s).

(** end_op's first critical section: the flag says that the caller commits. *)
Definition end_op_enter (lg : log) : res (log * bool) :=
  let lg := set_ops lg (lg_outstanding lg - 1) (lg_committing lg) in
  if negb (lg_committing lg =? 0) then Panic "log.committing"
  else if lg_outstanding lg =? 0 then Ok (set_ops lg (lg_outstanding lg) 1, true)
  else Ok (lg, false).

(** Its second one, after the commit. *)
Definition end_op_leave (lg : log) : log := set_ops lg (lg_outstanding lg) 0.

Definition end_op (lg : log) (s : S) : res (log * S) :=
  let* (lg, do_commit) := end_op_enter lg in
  if do_commit : bool then
    let* (lg, s) := commit lg s in
    Ok (end_op_leave lg, s)
  else Ok (lg, s).

Definition log_write (b : Z) (lg : log) (s : S) : res (log * S) :=
  if (LOGSIZE <=? lh_n lg) || (lg_size lg - 1 <=? lh_n lg) then Panic "too big a transaction"
  else if lg_outstanding lg <? 1 then Panic "log_write outside of trans"
  else
    let i := match find_index (fun x => x =? b) (take (Z.to_nat (lh_n lg)) (lh_block lg)) with
             | Some i => Z.of_nat i
             | None => lh_n lg
             end in
    let bs := setZ (lh_block lg) i b in
    if i =? lh_n lg then
      let* s := buf_pin b s in Ok (set_lh lg (lh_n lg + 1) bs, s)
    else Ok (set_lh lg (lh_n lg) bs, s).

End log.
