(* ===== verification/LogFacts.v ===== *)
(** * Crash safety of the log

    [log_view] is the disk as the log presents it: the home copy of a block,
    unless the header on disk names the block, in which case the log's copy.
    Every write that commit or recovery issues is followed through to show
    when the view changes. *)

From S2P Require Import Prelude Riscv Block Log.

(** ** Sequences of disk writes *)
Lemma dget_dapply_ne D t b : b ∉ t.*1 -> dget (dapply D t) b = dget D b.
Proof.
  revert D. induction t as [|[c d] t IH]; intros D Hb; [done|]. simpl in *.
  apply not_elem_of_cons in Hb as [Hne Hb]. rewrite IH by done. rewrite dget_insert.
  by rewrite decide_False.
Qed.

Lemma dget_dapply_in D t b d : NoDup t.*1 -> (b, d) ∈ t -> dget (dapply D t) b = d.
Proof.
  revert D. induction t as [|[c e] t IH]; intros D Hnd Hin; [by apply not_elem_of_nil in Hin|].
  simpl in *. apply NoDup_cons in Hnd as [Hc Hnd]. apply elem_of_cons in Hin as [[= <- <-]|Hin].
  - rewrite dget_dapply_ne by done. rewrite dget_insert. by rewrite decide_True.
  - by apply IH.
Qed.

Lemma elem_of_take_fst {A B} k (t : list (A * B)) b : b ∈ (take k t).*1 -> b ∈ t.*1.
Proof. rewrite fmap_take. intros H. by eapply elem_of_take in H as (i & ? & _); eapply list_elem_of_lookup_2. Qed.

(** ** The header block *)
Definition hdr_blocks (d : block) : list Z :=
  (fun i => get32 d (4 + 4 * Z.of_nat i)) <$> seq 0 (Z.to_nat (get32 d 0)).

Lemma write_head_loop_spec k i bs d :
  is_block d -> 0 <= i -> i + Z.of_nat k <= LOGSIZE ->
  (forall j, i <= j < i + Z.of_nat k -> - 2 ^ 31 <= nthZ bs j < 2 ^ 31) ->
  is_block (write_head_loop k i bs d) /\
  (forall off, 0 <= off -> off + 4 <= 4 + 4 * i -> get32 (write_head_loop k i bs d) off = get32 d off) /\
  (forall j, i <= j < i + Z.of_nat k -> get32 (write_head_loop k i bs d) (4 + 4 * j) = nthZ bs j).
Proof.
  unfold is_block. change LOGSIZE with 30. revert i d. induction k as [|k IH]; intros i d Hd Hi Hk Hr; cbn [write_head_loop].
  { split_and!; auto. intros j. lia. }
  destruct (IH (i + 1) (put32 d (4 + 4 * i) (nthZ bs i))) as (H1 & H2 & H3); try lia.
  { rewrite length_put32; lia. }
  { intros j Hj. apply Hr. lia. }
  split_and!; auto.
  - intros off Ho1 Ho2. rewrite H2 by lia. apply get32_put32_ne; lia.
  - intros j Hj. destruct (decide (j = i)) as [->|]; [|apply H3; lia].
    rewrite H2 by lia. apply get32_put32_eq; [lia..|]. apply Hr. lia.
Qed.

(** The header write_head stores for the first [n] of [bs]. *)
Definition hdr_make (d : block) (n : Z) (bs : list Z) : block :=
  write_head_loop (Z.to_nat n) 0 bs (put32 d 0 n).

Lemma take_nthZ n (bs : list Z) : (n <= length bs)%nat -> (fun i => nthZ bs (Z.of_nat i)) <$> seq 0 n = take n bs.
Proof.
  intros Hn. apply list_eq. intros i. rewrite list_lookup_fmap.
  destruct (decide (i < n)%nat).
  - rewrite lookup_seq_lt, lookup_take_lt by done. simpl. unfold nthZ. rewrite Nat2Z.id.
    destruct (lookup_lt_is_Some_2 bs i) as [x ->]; [lia|done].
  - rewrite lookup_seq_ge, lookup_take_ge by lia. done.
Qed.

Lemma hdr_make_spec d n bs :
  is_block d -> 0 <= n <= LOGSIZE -> length bs = Z.to_nat LOGSIZE ->
  (forall j, 0 <= j < n -> 0 <= nthZ bs j < 2 ^ 31) ->
  is_block (hdr_make d n bs) /\ get32 (hdr_make d n bs) 0 = n /\
  hdr_blocks (hdr_make d n bs) = take (Z.to_nat n) bs.
Proof.
  intros Hd Hn Hl Hr. unfold hdr_make. change LOGSIZE with 30 in *.
  assert (Hd' : is_block (put32 d 0 n)) by (unfold is_block in *; rewrite length_put32; lia).
  destruct (write_head_loop_spec (Z.to_nat n) 0 bs (put32 d 0 n) Hd') as (H1 & H2 & H3);
    [lia|change LOGSIZE with 30; lia|intros j Hj; specialize (Hr j ltac:(lia)); pow2; lia|].
  assert (Hg : get32 (write_head_loop (Z.to_nat n) 0 bs (put32 d 0 n)) 0 = n).
  { rewrite H2 by lia. unfold is_block in Hd. apply get32_put32_eq; pow2; lia. }
  split_and!; auto. unfold hdr_blocks. rewrite Hg, <- take_nthZ by lia.
  apply list_fmap_ext. intros i j Hj. apply lookup_seq in Hj. apply H3. lia.
Qed.

(** ** The disk as the log presents it *)
Section view.
Context (start lsize : Z) (Hlsize : 0 < lsize).

Definition log_area (b : Z) : Prop := start <= b < start + lsize.

Definition log_view (D : disk) (b : Z) : block :=
  match find_index (fun x => x =? b) (hdr_blocks (dget D start)) with
  | Some i => dget D (start + 1 + Z.of_nat i)
  | None => dget D b
  end.

Record hdr_ok (D : disk) : Prop := {
  ho_block : is_block (dget D start);
  ho_n : 0 <= get32 (dget D start) 0 <= LOGSIZE;
  ho_fits : get32 (dget D start) 0 < lsize;
  ho_nodup : NoDup (hdr_blocks (dget D start));
  ho_home : forall b, b ∈ hdr_blocks (dget D start) -> 0 <= b < 2 ^ 31 /\ ~ log_area b;
}.

Lemma length_hdr_blocks d : length (hdr_blocks d) = Z.to_nat (get32 d 0).
Proof. unfold hdr_blocks. by rewrite length_fmap, length_seq. Qed.

Lemma find_index_eqb l b :
  match find_index (fun x => x =? b) l with
  | Some i => l !! i = Some b
  | None => b ∉ l
  end.
Proof.
  destruct (find_index _ l) as [i|] eqn:E.
  - apply find_index_Some in E as [(x & Hx & Hb%Z.eqb_eq) _]. by subst.
  - apply find_index_None in E. intros Hin. rewrite Forall_forall in E.
    apply E in Hin. by rewrite Z.eqb_refl in Hin.
Qed.

(** A clear header: the view is the home copies. *)
Lemma log_view_clear D b : get32 (dget D start) 0 = 0 -> log_view D b = dget D b.
Proof. intros H. unfold log_view, hdr_blocks. by rewrite H. Qed.

(** A header naming [B], whose log copies hold [data]. *)
Lemma log_view_named D B data b :
  hdr_blocks (dget D start) = B ->
  (forall i x, B !! i = Some x -> dget D (start + 1 + Z.of_nat i) = data x) ->
  log_view D b = if decide (b ∈ B) then data b else dget D b.
Proof.
  intros HB Hd. unfold log_view. rewrite HB. pose proof (find_index_eqb B b) as Hf.
  destruct (find_index _ B) as [i|].
  - rewrite (Hd i b Hf), decide_True; [done|]. by eapply list_elem_of_lookup_2.
  - by rewrite decide_False.
Qed.

(** Writes of log copies, of home copies. *)
Fixpoint log_writes (i : Z) (l : list Z) (data : Z -> block) : list (Z * block) :=
  match l with
  | [] => []
  | b :: l' => (start + i + 1, data b) :: log_writes (i + 1) l' data
  end.
Definition home_writes (l : list Z) (data : Z -> block) : list (Z * block) :=
  (fun b => (b, data b)) <$> l.

Lemma log_writes_fst i l data b :
  b ∈ (log_writes i l data).*1 -> start + i + 1 <= b < start + i + 1 + Z.of_nat (length l).
Proof.
  revert i. induction l as [|x l IH]; intros i Hb; simpl in *; [by apply not_elem_of_nil in Hb|].
  apply elem_of_cons in Hb as [->|Hb]; [lia|]. apply IH in Hb. lia.
Qed.

Lemma log_writes_nodup i l data : NoDup (log_writes i l data).*1.
Proof.
  revert i. induction l as [|x l IH]; intros i; simpl; constructor; auto.
  intros Hb. apply log_writes_fst in Hb. lia.
Qed.

Lemma log_writes_elem i l data j x :
  l !! j = Some x -> (start + i + 1 + Z.of_nat j, data x) ∈ log_writes i l data.
Proof.
  revert i j. induction l as [|y l IH]; intros i j Hj; [done|]. destruct j as [|j]; simpl in *.
  - simplify_eq. apply elem_of_cons. left. f_equal. lia.
  - apply elem_of_cons. right. replace (start + i + 1 + Z.of_nat (S j)) with (start + (i + 1) + 1 + Z.of_nat j) by lia. eauto.
Qed.

Lemma home_writes_fst l data : (home_writes l data).*1 = l.
Proof. unfold home_writes. rewrite <- list_fmap_compose. apply list_fmap_id. Qed.

(** After any number of home writes the header and the log copies are intact. *)
Lemma home_prefix_frame D B data k b :
  (forall x, x ∈ B -> ~ log_area x) -> log_area b ->
  dget (dapply D (take k (home_writes B data))) b = dget D b.
Proof.
  intros Hh Hb. apply dget_dapply_ne. intros Hin%elem_of_take_fst.
  rewrite home_writes_fst in Hin. by apply (Hh b).
Qed.

Lemma home_prefix_view D B data k b :
  hdr_blocks (dget D start) = B -> Z.of_nat (length B) < lsize ->
  (forall x, x ∈ B -> ~ log_area x) ->
  (forall i x, B !! i = Some x -> dget D (start + 1 + Z.of_nat i) = data x) ->
  log_view (dapply D (take k (home_writes B data))) b = if decide (b ∈ B) then data b else dget D b.
Proof.
  intros HB Hl Hh Hd. rewrite (log_view_named _ B data).
  - destruct (decide (b ∈ B)) as [|Hb]; [done|]. apply dget_dapply_ne.
    intros Hin%elem_of_take_fst. by rewrite home_writes_fst in Hin.
  - rewrite home_prefix_frame; auto. unfold log_area. lia.
  - intros i x Hx. rewrite home_prefix_frame; auto. unfold log_area.
    apply lookup_lt_Some in Hx. lia.
Qed.

Lemma dget_home_all D B data b :
  NoDup B -> dget (dapply D (home_writes B data)) b = if decide (b ∈ B) then data b else dget D b.
Proof.
  intros Hnd. destruct (decide (b ∈ B)) as [Hb|Hb].
  - apply dget_dapply_in; [by rewrite home_writes_fst|]. apply list_elem_of_fmap. eauto.
  - apply dget_dapply_ne. by rewrite home_writes_fst.
Qed.

Lemma area_start : log_area start.
Proof. unfold log_area. lia. Qed.

Section traces.
Context (D0 : disk) (B : list Z) (data : Z -> block) (h1 h2 : block).
Context (HBlen : Z.of_nat (length B) < lsize) (HBnd : NoDup B).
Context (HBhome : forall b, b ∈ B -> ~ log_area b).
Context (Hh1 : hdr_blocks h1 = B) (Hh2 : get32 h2 0 = 0).

Definition commit_trace : list (Z * block) :=
  log_writes 0 B data ++ [(start, h1)] ++ home_writes B data ++ [(start, h2)].

Lemma log_prefix_frame k b :
  b = start \/ ~ log_area b -> dget (dapply D0 (take k (log_writes 0 B data))) b = dget D0 b.
Proof.
  intros Hb. apply dget_dapply_ne. intros Hin%elem_of_take_fst%log_writes_fst.
  unfold log_area in *. lia.
Qed.

(** The disk once the header is written. *)
Definition committed_disk : disk := <[start := h1]> (dapply D0 (log_writes 0 B data)).

Lemma committed_named : hdr_blocks (dget committed_disk start) = B.
Proof. unfold committed_disk. by rewrite dget_insert, decide_True. Qed.

Lemma committed_copies i x :
  B !! i = Some x -> dget committed_disk (start + 1 + Z.of_nat i) = data x.
Proof.
  intros Hx. unfold committed_disk. rewrite dget_insert, decide_False by lia.
  apply dget_dapply_in; [apply log_writes_nodup|].
  pose proof (log_writes_elem 0 B data i x Hx) as Hin.
  by replace (start + 0 + 1 + Z.of_nat i) with (start + 1 + Z.of_nat i) in Hin by lia.
Qed.

Lemma committed_home b : ~ log_area b -> dget committed_disk b = dget D0 b.
Proof.
  intros Hb. unfold committed_disk. rewrite dget_insert, decide_False.
  - rewrite <- (firstn_all (log_writes 0 B data)). apply log_prefix_frame. auto.
  - intros <-. by apply Hb, area_start.
Qed.

(** The view changes exactly at the header write. *)
Lemma commit_trace_view k b :
  get32 (dget D0 start) 0 = 0 -> ~ log_area b ->
  log_view (dapply D0 (take k commit_trace)) b =
  if decide (k <= length B)%nat then dget D0 b
  else if decide (b ∈ B) then data b else dget D0 b.
Proof.
  intros H0 Hb.
  assert (Hlen : length (log_writes 0 B data) = length B).
  { clear. generalize 0. induction B as [|x l IH]; intros i; simpl; auto. }
  unfold commit_trace. rewrite take_app, dapply_app, Hlen. destruct (decide _) as [Hk|Hk].
  - replace (k - length B)%nat with 0%nat by lia. rewrite take_0. simpl.
    rewrite log_view_clear; rewrite log_prefix_frame; auto.
  - rewrite (take_ge (log_writes 0 B data)) by (rewrite Hlen; lia).
    destruct (k - length B)%nat as [|k1] eqn:Ek; [lia|]. cbn [app take].
    change (dapply ?D ((start, h1) :: ?t)) with (dapply (<[start := h1]> D) t).
    fold committed_disk. rewrite take_app, dapply_app. set (n3 := length (home_writes B data)).
    destruct (k1 - n3)%nat as [|k2] eqn:Ek2; cbn [take].
    + change (dapply ?D []) with D.
      rewrite (home_prefix_view _ B data) by auto using committed_named, committed_copies.
      by rewrite committed_home.
    + rewrite (take_ge (home_writes B data)) by lia. rewrite take_nil.
      change (dapply ?D [(start, h2)]) with (<[start := h2]> D).
      rewrite log_view_clear by (by rewrite dget_insert, decide_True).
      rewrite dget_insert, decide_False by (intros <-; by apply Hb, area_start).
      rewrite dget_home_all by done. by rewrite committed_home.
Qed.

(** Every disk on the way has a header recovery can use. *)
Lemma commit_trace_hdr k :
  hdr_ok D0 -> is_block h1 -> is_block h2 -> 0 <= get32 h1 0 <= LOGSIZE -> get32 h1 0 < lsize ->
  (forall b, b ∈ B -> 0 <= b < 2 ^ 31) -> hdr_ok (dapply D0 (take k commit_trace)).
Proof.
  intros Hok Hb1 Hb2 Hn Hfit HB.
  assert (Hh : exists h, dget (dapply D0 (take k commit_trace)) start = h /\
    (h = dget D0 start \/ h = h1 \/ h = h2)).
  { eexists. split; [done|]. unfold commit_trace. rewrite !take_app, !dapply_app.
    set (D1 := dapply D0 (take k (log_writes 0 B data))).
    assert (HD1 : dget D1 start = dget D0 start) by (unfold D1; apply log_prefix_frame; auto).
    destruct (k - _)%nat as [|k1]; cbn [take].
    { left. simpl. rewrite ?take_nil. exact HD1. }
    set (D2 := dapply (dapply D1 _) _).
    assert (HD2 : dget D2 start = h1).
    { unfold D2. rewrite home_prefix_frame by auto using area_start.
      rewrite ?take_nil. simpl. by rewrite dget_insert, decide_True. }
    destruct (_ - length (home_writes B data))%nat; cbn [take]; [by right; left|]. right; right.
    rewrite ?take_nil. simpl. by rewrite dget_insert, decide_True. }
  destruct Hh as (h & Eh & [-> | [-> | ->]]); split; rewrite ?Eh; auto; try apply Hok.
  - by rewrite Hh1.
  - rewrite Hh1. auto.
  - rewrite Hh2. change LOGSIZE with 30. lia.
  - by rewrite Hh2.
  - unfold hdr_blocks. rewrite Hh2. constructor.
  - unfold hdr_blocks. rewrite Hh2. intros x Hx. by apply not_elem_of_nil in Hx.
Qed.

Lemma commit_final b :
  ~ log_area b -> dget (dapply D0 commit_trace) b = if decide (b ∈ B) then data b else dget D0 b.
Proof.
  intros Hb. unfold commit_trace. rewrite !dapply_app.
  change (dapply ?D [(start, ?h)]) with (<[start := h]> D). fold committed_disk.
  rewrite dget_insert, decide_False by (intros <-; by apply Hb, area_start).
  rewrite dget_home_all by done. by rewrite committed_home.
Qed.
End traces.

(** Recovery: home writes from the log copies, then a clear header. *)
Lemma recover_trace_view D h2 k b :
  hdr_ok D -> get32 h2 0 = 0 -> is_block h2 -> ~ log_area b ->
  let B := hdr_blocks (dget D start) in
  let D' := dapply D (take k (home_writes B (log_view D) ++ [(start, h2)])) in
  log_view D' b = log_view D b /\ hdr_ok D'.
Proof.
  intros [Hbk Hn Hfit Hnd Hh] Hh2 Hb2 Hb B D'.
  assert (HBlen : Z.of_nat (length B) < lsize) by (unfold B; rewrite length_hdr_blocks; lia).
  assert (Hcopy : forall i x, B !! i = Some x -> dget D (start + 1 + Z.of_nat i) = log_view D x).
  { intros i x Hx. unfold log_view. fold B. pose proof (find_index_eqb B x) as Hf.
    destruct (find_index _ B) as [j|]; [by rewrite (NoDup_lookup _ _ _ _ Hnd Hx Hf)|].
    destruct Hf. by eapply list_elem_of_lookup_2. }
  assert (Hhome : forall x, x ∈ B -> ~ log_area x) by (intros; by apply Hh).
  assert (Hview : log_view D b = if decide (b ∈ B) then log_view D b else dget D b).
  { exact (log_view_named D B (log_view D) b eq_refl Hcopy). }
  unfold D'. rewrite take_app, dapply_app.
  destruct (k - length (home_writes B (log_view D)))%nat as [|k2] eqn:Ek2.
  - rewrite take_0. change (dapply ?D []) with D. rewrite (home_prefix_view _ B (log_view D)) by auto.
    pose proof (home_prefix_frame D B (log_view D) k start Hhome area_start) as Hfr.
    split; [done|]. split; rewrite Hfr; auto.
  - rewrite (take_ge (home_writes _ _)) by lia. cbn [take]. rewrite take_nil.
    change (dapply ?D [(start, h2)]) with (<[start := h2]> D).
    assert (Hg : dget (<[start:=h2]> (dapply D (home_writes B (log_view D)))) start = h2).
    { by rewrite dget_insert, decide_True. }
    rewrite log_view_clear by (by rewrite Hg).
    rewrite dget_insert, decide_False by (intros <-; by apply Hb, area_start).
    rewrite dget_home_all by done. split; [done|].
    assert (Hz : hdr_blocks h2 = []) by (unfold hdr_blocks; by rewrite Hh2).
    split; rewrite Hg; auto.
    + rewrite Hh2. change LOGSIZE with 30. lia.
    + by rewrite Hh2.
    + rewrite Hz. constructor.
    + rewrite Hz. intros x Hx. by apply not_elem_of_nil in Hx.
Qed.

End view.
