(* ===== verification/LogExec.v ===== *)
(** * Running the log on the reference cache

    The effect of write_log, write_head, install_trans and recovery on the
    reference buffer cache: which writes they issue, in which order, and which
    buffers stay referenced. *)

From S2P Require Import Prelude Riscv Block Log LogFacts.

(** ** One operation on a known buffer *)
Section ops.
Context (D : disk) (R : gmap Z rbuf) (T : list (Z * block)) (b : Z).

Lemma read_new : R !! b = None -> Z.of_nat (size R) < NBUF ->
  buf_read b (mkA D R T) = Ok (mkA D (<[b := mkR 1 true (dget D b)]> R) T).
Proof. intros H1 H2. simpl. unfold a_read. simpl. rewrite H1, decide_True by done. done. Qed.

Lemma read_old c d : R !! b = Some (mkR c false d) ->
  buf_read b (mkA D R T) = Ok (mkA D (<[b := mkR (S c) true d]> R) T).
Proof. intros H. simpl. unfold a_read. simpl. by rewrite H. Qed.

Lemma data_eq r : R !! b = Some r -> buf_data b (mkA D R T) = r_data r.
Proof. intros H. simpl. unfold a_data. simpl. by rewrite H. Qed.

Lemma store_eq c h d d' : R !! b = Some (mkR c h d') ->
  buf_store b d (mkA D R T) = mkA D (<[b := mkR c h d]> R) T.
Proof. intros H. simpl. unfold a_store. simpl. by rewrite H. Qed.

Lemma write_eq c d : R !! b = Some (mkR c true d) ->
  buf_write b (mkA D R T) = Ok (mkA (<[b := d]> D) R (T ++ [(b, d)])).
Proof. intros H. simpl. unfold a_write. simpl. by rewrite H. Qed.

Lemma relse_last d : R !! b = Some (mkR 1 true d) -> dget D b = d ->
  buf_relse b (mkA D R T) = Ok (mkA D (delete b R) T).
Proof.
  intros H Hd. simpl. unfold a_relse, a_unref. simpl. rewrite H. simpl.
  by rewrite decide_True by congruence.
Qed.

Lemma relse_more c d : R !! b = Some (mkR (S (S c)) true d) ->
  buf_relse b (mkA D R T) = Ok (mkA D (<[b := mkR (S c) false d]> R) T).
Proof. intros H. simpl. unfold a_relse, a_unref. simpl. by rewrite H. Qed.

Lemma unpin_more c h d : R !! b = Some (mkR (S (S c)) h d) ->
  buf_unpin b (mkA D R T) = Ok (mkA D (<[b := mkR (S c) h d]> R) T).
Proof. intros H. simpl. unfold a_unpin, a_unref. simpl. rewrite H. simpl. by rewrite andb_false_r. Qed.

Lemma pin_eq c h d : R !! b = Some (mkR c h d) ->
  buf_pin b (mkA D R T) = Ok (mkA D (<[b := mkR (S c) h d]> R) T).
Proof. intros H. simpl. unfold a_pin. simpl. by rewrite H. Qed.
End ops.

(** Equality of reference maps that differ in the order of updates. *)
Ltac refs_eq x y :=
  let i := fresh "i" in
  apply map_eq; intros i;
  destruct (decide (x = i)), (decide (y = i)); simplify_map_eq; done.

(** The references left when a transaction's pin of [b] is dropped. *)
Definition unpin (R : gmap Z rbuf) (b : Z) : gmap Z rbuf :=
  match R !! b with
  | Some (mkR (S (S c)) h d) => <[b := mkR (S c) h d]> R
  | _ => delete b R
  end.

Section steps.
Context (lg : log) (D : disk) (R : gmap Z rbuf) (T : list (Z * block)).
Context (Hroom : Z.of_nat (size R) < NBUF).

Lemma write_log_step tail from c d k :
  let to := lg_start lg + tail + 1 in
  nthZ (lh_block lg) tail = from -> to <> from ->
  R !! to = None -> R !! from = Some (mkR (S c) false d) ->
  write_log_loop (S k) tail lg (mkA D R T) =
  write_log_loop k (tail + 1) lg (mkA (<[to := d]> D) R (T ++ [(to, d)])).
Proof.
  intros to Hfrom Hne Hto Hfr. cbn [write_log_loop]. fold to. rewrite Hfrom.
  rewrite read_new by done. cbn [rbind].
  rewrite (read_old _ _ _ _ (S c) d) by (by simplify_map_eq). cbn [rbind].
  erewrite data_eq by (by simplify_map_eq). cbn [r_data].
  erewrite store_eq by (by simplify_map_eq).
  erewrite write_eq by (by simplify_map_eq). cbn [rbind].
  erewrite relse_more by (by simplify_map_eq). cbn [rbind].
  erewrite relse_last; [|by simplify_map_eq|by rewrite dget_insert, decide_True].
  cbn [rbind]. do 2 f_equal. refs_eq to from.
Qed.

Lemma install_step_pinned tail dst c d0 k :
  let from := lg_start lg + tail + 1 in
  let d := dget D from in
  nthZ (lh_block lg) tail = dst -> from <> dst ->
  R !! from = None -> R !! dst = Some (mkR (S c) false d0) -> d0 = d ->
  install_loop (S k) tail false lg (mkA D R T) =
  install_loop k (tail + 1) false lg (mkA (<[dst := d]> D) (unpin R dst) (T ++ [(dst, d)])).
Proof.
  intros from d Hdst Hne Hfrom Hd Hd0. cbn [install_loop]. fold from. rewrite Hdst.
  rewrite read_new by done. cbn [rbind].
  rewrite (read_old _ _ _ _ (S c) d0) by (by simplify_map_eq). cbn [rbind].
  erewrite data_eq by (by simplify_map_eq). cbn [r_data].
  erewrite store_eq by (by simplify_map_eq).
  erewrite write_eq by (by simplify_map_eq). cbn [rbind].
  erewrite unpin_more by (by simplify_map_eq). cbn [rbind].
  erewrite relse_last; [|by simplify_map_eq|rewrite dget_insert; by rewrite decide_False by done].
  cbn [rbind]. unfold unpin. rewrite Hd. destruct c as [|c].
  - erewrite relse_last; [|by simplify_map_eq|by rewrite dget_insert, decide_True].
    cbn [rbind]. do 2 f_equal. refs_eq from dst.
  - erewrite relse_more by (by simplify_map_eq). cbn [rbind]. subst d0. do 2 f_equal. refs_eq from dst.
Qed.

Lemma install_step_recover tail dst k :
  let from := lg_start lg + tail + 1 in
  let d := dget D from in
  nthZ (lh_block lg) tail = dst -> from <> dst -> R = ∅ ->
  install_loop (S k) tail true lg (mkA D R T) =
  install_loop k (tail + 1) true lg (mkA (<[dst := d]> D) R (T ++ [(dst, d)])).
Proof.
  intros from d Hdst Hne HR. cbn [install_loop]. fold from. rewrite Hdst, HR.
  rewrite read_new by done. cbn [rbind].
  rewrite read_new; [|by simplify_map_eq|rewrite insert_empty, map_size_singleton; done]. cbn [rbind].
  erewrite data_eq by (by simplify_map_eq). cbn [r_data].
  erewrite store_eq by (by simplify_map_eq).
  erewrite write_eq by (by simplify_map_eq). cbn [rbind].
  erewrite relse_last; [|by simplify_map_eq|rewrite dget_insert; by rewrite decide_False by done].
  cbn [rbind].
  erewrite relse_last; [|by simplify_map_eq|by rewrite dget_insert, decide_True].
  cbn [rbind]. do 2 f_equal. refs_eq from dst.
Qed.

Lemma write_head_exec :
  let h := hdr_make (dget D (lg_start lg)) (lh_n lg) (lh_block lg) in
  R !! lg_start lg = None ->
  write_head lg (mkA D R T) = Ok (mkA (<[lg_start lg := h]> D) R (T ++ [(lg_start lg, h)])).
Proof.
  intros h Hs. unfold write_head. rewrite read_new by done. cbn [rbind].
  erewrite data_eq by (by simplify_map_eq). cbn [r_data]. fold (hdr_make (dget D (lg_start lg)) (lh_n lg) (lh_block lg)). fold h.
  erewrite store_eq by (by simplify_map_eq).
  erewrite write_eq by (by simplify_map_eq). cbn [rbind].
  erewrite relse_last; [|by simplify_map_eq|by rewrite dget_insert, decide_True].
  do 2 f_equal. refs_eq (lg_start lg) (lg_start lg).
Qed.
End steps.

(** ** The loops *)
Lemma unpin_ne R b b' : b <> b' -> unpin R b !! b' = R !! b'.
Proof. intros. unfold unpin. destruct (R !! b) as [[[|[|c]] h d]|]; by simplify_map_eq. Qed.

Lemma unpin_None R b b' : R !! b' = None -> unpin R b !! b' = None.
Proof.
  intros H. destruct (decide (b = b')) as [->|]; [|by rewrite unpin_ne].
  unfold unpin. rewrite H. by simplify_map_eq.
Qed.

Lemma unpin_size R b : (size (unpin R b) <= size R)%nat.
Proof.
  unfold unpin. destruct (R !! b) as [r|] eqn:E.
  - assert (Hd : size (delete b R) = pred (size R)) by (rewrite map_size_delete_Some; [done|by eexists]).
    assert (Hi : forall r', size (<[b := r']> R) = size R).
    { intros r'. rewrite map_size_insert_Some; [done|by eexists]. }
    destruct r as [[|[|c]] h d]; rewrite ?Hi; lia.
  - rewrite map_size_delete_None; done.
Qed.

Section loops.
Context (lg : log).
#[local] Abbreviation start := (lg_start lg).

(** The first [length l] entries of the header from [tail] on are [l]. *)
Definition hdr_at (tail : Z) (l : list Z) : Prop :=
  forall j x, l !! j = Some x -> nthZ (lh_block lg) (tail + Z.of_nat j) = x.

Lemma hdr_at_cons tail x l : hdr_at tail (x :: l) ->
  nthZ (lh_block lg) tail = x /\ hdr_at (tail + 1) l.
Proof.
  intros H. split.
  - rewrite <- (Z.add_0_r tail). by apply (H 0%nat).
  - intros j y Hy. rewrite <- (H (S j) y Hy). f_equal. lia.
Qed.

Definition pinned (R : gmap Z rbuf) (data : Z -> block) (x : Z) : Prop :=
  exists c, R !! x = Some (mkR (S c) false (data x)).

Lemma write_log_exec l tail D R T data :
  hdr_at tail l -> 0 <= tail -> tail + Z.of_nat (length l) < lg_size lg ->
  Z.of_nat (size R) < NBUF -> (forall b, log_area start (lg_size lg) b -> R !! b = None) ->
  (forall x, x ∈ l -> ~ log_area start (lg_size lg) x /\ pinned R data x) ->
  let W := log_writes start tail l data in
  write_log_loop (length l) tail lg (mkA D R T) = Ok (mkA (dapply D W) R (T ++ W)).
Proof.
  revert tail D T. induction l as [|x l IH]; intros tail D T Hh Ht Hl Hroom Harea Hx; cbn [length].
  { simpl. by rewrite app_nil_r. }
  apply hdr_at_cons in Hh as [Hx0 Hh]. cbn [length] in Hl.
  destruct (Hx x) as [Hxa (c & Hxc)]; [left|].
  assert (Hto : log_area start (lg_size lg) (start + tail + 1)) by (unfold log_area; lia).
  rewrite (write_log_step lg D R T Hroom tail x c (data x)); auto.
  2: { intros E. apply Hxa. by rewrite <- E. }
  rewrite IH; auto; [|lia..|by intros; apply Hx; right].
  cbn [log_writes]. by rewrite <- app_assoc.
Qed.

Lemma install_exec l tail D R T data :
  hdr_at tail l -> 0 <= tail -> tail + Z.of_nat (length l) < lg_size lg -> NoDup l ->
  Z.of_nat (size R) < NBUF -> (forall b, log_area start (lg_size lg) b -> R !! b = None) ->
  (forall x, x ∈ l -> ~ log_area start (lg_size lg) x /\ pinned R data x) ->
  (forall j x, l !! j = Some x -> dget D (start + (tail + Z.of_nat j) + 1) = data x) ->
  let W := home_writes l data in
  install_loop (length l) tail false lg (mkA D R T) = Ok (mkA (dapply D W) (foldl unpin R l) (T ++ W)).
Proof.
  revert tail D R T. induction l as [|x l IH]; intros tail D R T Hh Ht Hl Hnd Hroom Harea Hx Hd; cbn [length].
  { simpl. by rewrite app_nil_r. }
  apply hdr_at_cons in Hh as [Hx0 Hh]. cbn [length] in Hl. apply NoDup_cons in Hnd as [Hxl Hnd].
  destruct (Hx x) as [Hxa (c & Hxc)]; [left|].
  assert (Hto : log_area start (lg_size lg) (start + tail + 1)) by (unfold log_area; lia).
  assert (Hne : start + tail + 1 <> x) by (intros E; apply Hxa; by rewrite <- E).
  assert (Hdx : dget D (start + tail + 1) = data x).
  { specialize (Hd O x eq_refl). by replace (start + (tail + Z.of_nat 0) + 1) with (start + tail + 1) in Hd by lia. }
  rewrite (install_step_pinned lg D R T Hroom tail x c (data x)); auto. rewrite Hdx.
  rewrite IH; auto; try lia.
  - cbn. by rewrite <- app_assoc.
  - pose proof (unpin_size R x). lia.
  - intros b Hb. apply unpin_None. auto.
  - intros y Hy. destruct (Hx y) as [? (c' & Hc')]; [by right|]. split; [done|].
    exists c'. rewrite unpin_ne; [done|]. by intros ->.
  - intros j y Hy. rewrite dget_insert, decide_False.
    + rewrite <- (Hd (S j) y Hy). f_equal. lia.
    + intros ->. apply Hxa. unfold log_area. apply lookup_lt_Some in Hy. lia.
Qed.

Lemma recover_exec l tail D T data :
  hdr_at tail l -> 0 <= tail -> tail + Z.of_nat (length l) < lg_size lg -> NoDup l ->
  (forall x, x ∈ l -> ~ log_area start (lg_size lg) x) ->
  (forall j x, l !! j = Some x -> dget D (start + (tail + Z.of_nat j) + 1) = data x) ->
  let W := home_writes l data in
  install_loop (length l) tail true lg (mkA D ∅ T) = Ok (mkA (dapply D W) ∅ (T ++ W)).
Proof.
  revert tail D T. induction l as [|x l IH]; intros tail D T Hh Ht Hl Hnd Hx Hd; cbn [length].
  { simpl. by rewrite app_nil_r. }
  apply hdr_at_cons in Hh as [Hx0 Hh]. cbn [length] in Hl. apply NoDup_cons in Hnd as [Hxl Hnd].
  assert (Hto : log_area start (lg_size lg) (start + tail + 1)) by (unfold log_area; lia).
  assert (Hxa : ~ log_area start (lg_size lg) x) by (apply Hx; left).
  assert (Hdx : dget D (start + tail + 1) = data x).
  { specialize (Hd O x eq_refl). by replace (start + (tail + Z.of_nat 0) + 1) with (start + tail + 1) in Hd by lia. }
  rewrite (install_step_recover lg D ∅ T ltac:(done) tail x); auto.
  2: { intros E. apply Hxa. by rewrite <- E. }
  rewrite Hdx. rewrite IH; auto; try lia.
  - cbn. by rewrite <- app_assoc.
  - intros y Hy. apply Hx. by right.
  - intros j y Hy. rewrite dget_insert, decide_False.
    + rewrite <- (Hd (S j) y Hy). f_equal. lia.
    + intros ->. apply Hxa. unfold log_area. apply lookup_lt_Some in Hy. lia.
Qed.
End loops.
