(* ===== verification/LogProps.v ===== *)
(** * What the log guarantees

    Commit is atomic at every crash point and recovery restores exactly the
    committed state, over any buffer cache that satisfies [BufLaws]. *)

From S2P Require Import Prelude Riscv Block Log LogFacts LogExec.

(** ** The log over an implementation follows the log over the reference *)
Lemma a_read_held b a a' : a_read b a = Ok a' ->
  (exists r, a_refs a' !! b = Some r /\ r_held r = true) /\
  (forall b', b <> b' -> a_refs a' !! b' = a_refs a !! b').
Proof.
  unfold a_read. destruct (a_refs a !! b) as [r|] eqn:E.
  - destruct (r_held r); [done|]. intros [= <-]. simpl. split; [eexists; by simplify_map_eq|].
    intros. by simplify_map_eq.
  - destruct (decide _); [|done]. intros [= <-]. simpl. split; [eexists; by simplify_map_eq|].
    intros. by simplify_map_eq.
Qed.

Lemma a_read_twice b b' a a1 a2 : a_read b a = Ok a1 -> a_read b' a1 = Ok a2 ->
  b <> b' /\ (exists r, a_refs a2 !! b = Some r /\ r_held r = true) /\
  (exists r, a_refs a2 !! b' = Some r /\ r_held r = true).
Proof.
  intros H1 H2. destruct (a_read_held _ _ _ H1) as [(r & Hr & Hh) _].
  destruct (a_read_held _ _ _ H2) as [Hb' Ho]. assert (b <> b').
  { intros <-. unfold a_read in H2. rewrite Hr, Hh in H2. done. }
  split_and!; auto. rewrite Ho by done. eauto.
Qed.

Section sim.
Context {S : Type} `{BufLaws S}.

(** [s] can follow whatever the reference does from [a]. *)
Definition follows {A} (m : S -> res (A * S)) (ma : acache -> res (A * acache)) : Prop :=
  forall s a x a', buf_rel s a -> ma a = Ok (x, a') ->
    exists s', m s = Ok (x, s') /\ buf_rel s' a'.

Ltac follow_step :=
  match goal with
  | H : rbind _ _ = Ok _ |- _ => apply rbind_Ok in H; destruct H as (? & ? & ?)
  | R : buf_rel ?s ?a, H : a_read _ ?a = Ok _ |- context [buf_read _ ?s] =>
      destruct (bl_read _ _ _ _ R H) as (? & -> & ?); cbn [rbind]
  | R : buf_rel ?s ?a, H : a_write _ ?a = Ok _ |- context [buf_write _ ?s] =>
      destruct (bl_write _ _ _ _ R H) as (? & -> & ?); cbn [rbind]
  | R : buf_rel ?s ?a, H : a_relse _ ?a = Ok _ |- context [buf_relse _ ?s] =>
      destruct (bl_relse _ _ _ _ R H) as (? & -> & ?); cbn [rbind]
  | R : buf_rel ?s ?a, H : a_pin _ ?a = Ok _ |- context [buf_pin _ ?s] =>
      destruct (bl_pin _ _ _ _ R H) as (? & -> & ?); cbn [rbind]
  | R : buf_rel ?s ?a, H : a_unpin _ ?a = Ok _ |- context [buf_unpin _ ?s] =>
      destruct (bl_unpin _ _ _ _ R H) as (? & -> & ?); cbn [rbind]
  end.

(** The copy between two held buffers. *)
Lemma copy_follows s a b b' r r' :
  buf_rel s a -> a_refs a !! b = Some r -> r_held r = true ->
  a_refs a !! b' = Some r' -> r_held r' = true ->
  buf_rel (buf_store b' (buf_data b s) s) (a_store b' (a_data b a) a).
Proof.
  intros R Hr Hh Hr' Hh'. rewrite (bl_data s a b r) by done.
  replace (a_data b a) with (r_data r); [by eapply bl_store|]. unfold a_data. by rewrite Hr.
Qed.

Lemma write_log_follows k tail lg s a a' :
  buf_rel s a -> write_log_loop k tail lg a = Ok a' ->
  exists s', write_log_loop k tail lg s = Ok s' /\ buf_rel s' a'.
Proof.
  revert tail s a. induction k as [|k IH]; intros tail s a R E; cbn [write_log_loop] in *.
  { injection E as <-. eauto. }
  cbn [buf_read buf_data buf_store buf_write buf_relse acache_ops] in E. cbv zeta in *.
  repeat follow_step.
  match goal with H1 : a_read _ a = Ok ?a1, H2 : a_read _ ?a1 = Ok _ |- _ =>
    destruct (a_read_twice _ _ _ _ _ H1 H2) as (_ & (r & Hr & Hh) & (r' & Hr' & Hh')) end.
  match goal with R : buf_rel ?s2 ?a2, Hr : a_refs ?a2 !! _ = Some r |- _ =>
    pose proof (copy_follows s2 a2 _ _ r' r R Hr' Hh' Hr Hh) as R2 end.
  repeat follow_step. eauto.
Qed.

Lemma install_follows k tail recovering lg s a a' :
  buf_rel s a -> install_loop k tail recovering lg a = Ok a' ->
  exists s', install_loop k tail recovering lg s = Ok s' /\ buf_rel s' a'.
Proof.
  revert tail s a. induction k as [|k IH]; intros tail s a R E; cbn [install_loop] in *.
  { injection E as <-. eauto. }
  cbn [buf_read buf_data buf_store buf_write buf_relse buf_unpin acache_ops] in E. cbv zeta in *.
  repeat follow_step.
  match goal with H1 : a_read _ a = Ok ?a1, H2 : a_read _ ?a1 = Ok _ |- _ =>
    destruct (a_read_twice _ _ _ _ _ H1 H2) as (_ & (r & Hr & Hh) & (r' & Hr' & Hh')) end.
  match goal with R : buf_rel ?s2 ?a2, Hr : a_refs ?a2 !! _ = Some r |- _ =>
    pose proof (copy_follows s2 a2 _ _ r r' R Hr Hh Hr' Hh') as R2 end.
  destruct recovering; simplify_eq; repeat follow_step; eauto.
Qed.

Lemma write_head_follows lg s a a' :
  buf_rel s a -> write_head lg a = Ok a' -> exists s', write_head lg s = Ok s' /\ buf_rel s' a'.
Proof.
  intros R E. unfold write_head in *.
  cbn [buf_read buf_data buf_store buf_write buf_relse acache_ops] in E. cbv zeta in *.
  repeat follow_step.
  match goal with H1 : a_read _ a = Ok ?a1 |- _ =>
    destruct (a_read_held _ _ _ H1) as [(r & Hr & Hh) _] end.
  match goal with R : buf_rel ?s2 ?a2, Hr : a_refs ?a2 !! _ = Some r |- _ =>
    assert (Hd : a_data (lg_start lg) a2 = r_data r) by (unfold a_data; by rewrite Hr);
    rewrite Hd in *; rewrite (bl_data s2 a2 _ r R Hr Hh);
    pose proof (fun d => bl_store s2 a2 _ d r R Hr Hh) as R2 end.
  match goal with W : a_write _ (a_store _ ?d _) = Ok _ |- _ => specialize (R2 d) end.
  repeat follow_step. eauto.
Qed.

Lemma commit_follows lg : follows (commit lg) (commit lg).
Proof.
  intros s a lg' a' R E. unfold commit, write_log, install_trans in *.
  destruct (0 <? lh_n lg); [|injection E as <- <-; eauto].
  apply rbind_Ok in E as (a1 & E1 & E). destruct (write_log_follows _ _ _ _ _ _ R E1) as (s1 & -> & R1).
  apply rbind_Ok in E as (a2 & E2 & E). destruct (write_head_follows _ _ _ _ R1 E2) as (s2 & Es2 & R2).
  apply rbind_Ok in E as (a3 & E3 & E). destruct (install_follows _ _ _ _ _ _ _ R2 E3) as (s3 & Es3 & R3).
  apply rbind_Ok in E as (a4 & E4 & E). destruct (write_head_follows _ _ _ _ R3 E4) as (s4 & Es4 & R4).
  injection E as <- <-. cbn [rbind]. rewrite Es2. cbn [rbind]. rewrite Es3. cbn [rbind].
  rewrite Es4. cbn [rbind]. eauto.
Qed.

Lemma recover_follows lg : follows (recover_from_log lg) (recover_from_log lg).
Proof.
  intros s a lg' a' R E. unfold recover_from_log, read_head, install_trans in *.
  cbn [buf_read buf_data buf_relse acache_ops] in E.
  apply rbind_Ok in E as ([lg1 a1] & E1 & E). repeat follow_step.
  match goal with H1 : a_read _ a = Ok ?a1 |- _ =>
    destruct (a_read_held _ _ _ H1) as [(r & Hr & Hh) _] end.
  match goal with R : buf_rel ?s2 ?a2, Hr : a_refs ?a2 !! _ = Some r |- _ =>
    assert (Hd : a_data (lg_start lg) a2 = r_data r) by (unfold a_data; by rewrite Hr);
    rewrite Hd in *; rewrite (bl_data s2 a2 _ r R Hr Hh) end.
  match goal with H : read_head_loop _ _ _ _ = Ok _ |- _ => rewrite H; cbn [rbind] end.
  repeat follow_step. simplify_eq.
  match goal with H : install_loop _ _ _ _ _ = Ok ?a3, R : buf_rel ?s3 _ |- context [install_loop _ _ _ _ ?s3] =>
    destruct (install_follows _ _ _ _ _ _ _ R H) as (s4 & E4 & R4) end.
  match goal with H : write_head _ _ = Ok ?a5 |- _ =>
    destruct (write_head_follows _ _ _ _ R4 H) as (s5 & E5 & R5) end.
  rewrite E4. cbn [rbind]. rewrite E5. cbn [rbind]. eauto.
Qed.
End sim.

(** ** Commit on the reference cache *)
Section commit.
Context (lg : log) (a : acache).
#[local] Abbreviation start := (lg_start lg).
#[local] Abbreviation B := (take (Z.to_nat (lh_n lg)) (lh_block lg)).

(** The state end_op finds when the last operation ends. *)
Record commit_ready : Prop := {
  cr_n : 0 < lh_n lg <= LOGSIZE /\ lh_n lg < lg_size lg;
  cr_len : length (lh_block lg) = Z.to_nat LOGSIZE;
  cr_nodup : NoDup B;
  cr_home : forall b, b ∈ B -> 0 <= b < 2 ^ 31 /\ ~ log_area start (lg_size lg) b;
  cr_pinned : forall b, b ∈ B -> pinned (a_refs a) (fun b => a_data b a) b;
  cr_area : forall b, log_area start (lg_size lg) b -> a_refs a !! b = None;
  cr_room : Z.of_nat (size (a_refs a)) < NBUF;
  cr_clear : is_block (dget (a_disk a) start) /\ get32 (dget (a_disk a) start) 0 = 0;
}.

Context (Hcr : commit_ready).

Definition h_commit : block := hdr_make (dget (a_disk a) start) (lh_n lg) (lh_block lg).
Definition h_clear : block := hdr_make h_commit 0 (lh_block lg).
Definition ctrace : list (Z * block) :=
  commit_trace start B (fun b => a_data b a) h_commit h_clear.

Lemma length_B : length B = Z.to_nat (lh_n lg).
Proof. rewrite length_take. pose proof (cr_n Hcr). rewrite (cr_len Hcr). lia. Qed.

Lemma hdr_at_B : hdr_at lg 0 B.
Proof.
  intros j x Hj. rewrite Z.add_0_l. unfold nthZ. rewrite Nat2Z.id.
  apply lookup_take_Some in Hj as [-> _]. done.
Qed.

Lemma h_commit_spec : is_block h_commit /\ get32 h_commit 0 = lh_n lg /\ hdr_blocks h_commit = B.
Proof.
  apply hdr_make_spec; [apply Hcr|destruct (cr_n Hcr); lia|apply Hcr|].
  intros j Hj. apply (cr_home Hcr). apply list_elem_of_lookup. exists (Z.to_nat j).
  rewrite lookup_take_lt by lia. unfold nthZ.
  destruct (lookup_lt_is_Some_2 (lh_block lg) (Z.to_nat j)) as [x ->]; [|done].
  rewrite (cr_len Hcr). pose proof (cr_n Hcr). lia.
Qed.

Lemma h_clear_spec : is_block h_clear /\ get32 h_clear 0 = 0.
Proof.
  destruct h_commit_spec as (H1 & _). unfold h_clear.
  destruct (hdr_make_spec h_commit 0 (lh_block lg)) as (? & ? & _); auto.
  - change LOGSIZE with 30. lia.
  - apply Hcr.
  - intros; lia.
Qed.

Lemma unpins_None l : forall (R : gmap Z rbuf) b, R !! b = None -> foldl unpin R l !! b = None.
Proof. induction l as [|x l IH]; intros R b HR; [done|]. simpl. by apply IH, unpin_None. Qed.

Lemma unpins_size l : forall (R : gmap Z rbuf), (size (foldl unpin R l) <= size R)%nat.
Proof.
  induction l as [|x l IH]; intros R; [done|]. simpl.
  pose proof (IH (unpin R x)). pose proof (unpin_size R x). lia.
Qed.

Lemma commit_exec :
  commit lg a = Ok (set_lh lg 0 (lh_block lg),
    mkA (dapply (a_disk a) ctrace) (foldl unpin (a_refs a) B) (a_trace a ++ ctrace)).
Proof.
  destruct Hcr as [Hn Hlen Hnd Hhome Hpin Harea Hroom Hclr].
  unfold commit, write_log, install_trans. destruct (Z.ltb_spec 0 (lh_n lg)); [|lia].
  rewrite <- length_B. assert (Ha : a = mkA (a_disk a) (a_refs a) (a_trace a)) by (by destruct a).
  rewrite Ha at 1. set (D := a_disk a) in *. set (R := a_refs a) in *. set (T := a_trace a) in *.
  assert (Hx : forall x, x ∈ B -> ~ log_area start (lg_size lg) x /\ pinned R (fun b => a_data b a) x).
  { intros x Hx. split; [by apply Hhome|by apply Hpin]. }
  rewrite (write_log_exec lg B 0 D R T (fun b => a_data b a)); auto using hdr_at_B; try lia; try (rewrite length_B; lia).
  assert (Hst : log_area start (lg_size lg) start) by (apply area_start; lia).
  cbn [rbind]. rewrite write_head_exec by auto. cbn [rbind].
  set (D1 := dapply D (log_writes start 0 B (fun b => a_data b a))).
  assert (Hd1 : dget D1 start = dget D start).
  { unfold D1. rewrite <- (firstn_all (log_writes _ _ _ _)). eapply (log_prefix_frame start (lg_size lg)); auto. rewrite length_B. lia. }
  assert (Hh : hdr_make (dget D1 start) (lh_n lg) (lh_block lg) = h_commit).
  { by rewrite Hd1. }
  rewrite Hh. rewrite (install_exec lg B 0 _ R _ (fun b => a_data b a)); auto using hdr_at_B; try lia; try (rewrite length_B; lia).
  - cbn [rbind].
    assert (Hd2 : dget (dapply (<[start:=h_commit]> D1) (home_writes B (fun b => a_data b a))) start = h_commit).
    { rewrite <- (firstn_all (home_writes _ _)). rewrite (home_prefix_frame start (lg_size lg)); [|by intros; apply Hhome|done].
      by rewrite dget_insert, decide_True. }
    rewrite write_head_exec; cbn [set_lh lg_start lh_n lh_block].
    + rewrite Hd2. fold h_clear. cbn [rbind]. unfold ctrace, commit_trace.
      rewrite !dapply_app, <- !app_assoc, ?length_B. done.
    + pose proof (unpins_size B R). lia.
    + by apply unpins_None, Harea.
  - intros j x Hj. pose proof (committed_copies start D B (fun b => a_data b a) h_commit) as Hc.
    unfold committed_disk in Hc. fold D1 in Hc.
    replace (start + (0 + Z.of_nat j) + 1) with (start + 1 + Z.of_nat j) by lia. eapply Hc; eauto.
Qed.
End commit.

(** ** Recovery on the reference cache *)
Lemma read_head_loop_spec k i d bs :
  0 <= i -> i + Z.of_nat k <= LOGSIZE -> length bs = Z.to_nat LOGSIZE ->
  exists bs', read_head_loop k i d bs = Ok bs' /\ length bs' = length bs /\
    (forall j, 0 <= j < i -> nthZ bs' j = nthZ bs j) /\
    (forall j, i <= j < i + Z.of_nat k -> nthZ bs' j = get32 d (4 + 4 * j)).
Proof.
  revert i bs. induction k as [|k IH]; intros i bs Hi Hk Hl; cbn [read_head_loop].
  { exists bs. split_and!; auto. intros; lia. }
  destruct (Z.leb_spec LOGSIZE i); [lia|].
  destruct (IH (i + 1) (setZ bs i (get32 d (4 + 4 * i)))) as (bs' & -> & H1 & H2 & H3);
    rewrite ?length_setZ; try lia.
  exists bs'. rewrite length_setZ in H1. split_and!; auto.
  - intros j Hj. rewrite H2 by lia. apply nthZ_setZ_ne; lia.
  - intros j Hj. destruct (decide (j = i)) as [->|]; [|apply H3; lia].
    rewrite H2 by lia. apply nthZ_setZ_eq. lia.
Qed.

Section recover.
Context (lg : log) (D : disk) (T : list (Z * block)).
#[local] Abbreviation start := (lg_start lg).
Context (Hlen : length (lh_block lg) = Z.to_nat LOGSIZE) (Hok : hdr_ok start (lg_size lg) D).

Lemma read_head_exec : exists bs,
  read_head lg (mkA D ∅ T) = Ok (set_lh lg (get32 (dget D start) 0) bs, mkA D ∅ T) /\
  length bs = Z.to_nat LOGSIZE /\
  hdr_at (set_lh lg (get32 (dget D start) 0) bs) 0 (hdr_blocks (dget D start)).
Proof.
  destruct Hok as [Hb Hn _ _ _]. unfold read_head.
  rewrite read_new by done. cbn [rbind]. erewrite data_eq by (by simplify_map_eq). cbn [r_data].
  destruct (read_head_loop_spec (Z.to_nat (get32 (dget D start) 0)) 0 (dget D start) (lh_block lg))
    as (bs & -> & H1 & _ & H3); auto; try lia.
  cbn [rbind]. erewrite relse_last; [|by simplify_map_eq|done]. cbn [rbind].
  exists bs. rewrite delete_insert_id by done. split_and!; [done|lia|].
  intros j x Hj. cbn [set_lh lh_block]. unfold hdr_blocks in Hj. apply list_lookup_fmap_Some in Hj as (i & -> & Hi).
  apply lookup_seq in Hi as [-> Hi]. rewrite Z.add_0_l. apply H3. lia.
Qed.

Lemma recover_run : exists bs h2,
  let t := home_writes (hdr_blocks (dget D start)) (log_view start D) ++ [(start, h2)] in
  recover_from_log lg (mkA D ∅ T) = Ok (set_lh lg 0 bs, mkA (dapply D t) ∅ (T ++ t)) /\
  length bs = Z.to_nat LOGSIZE /\ get32 h2 0 = 0 /\ is_block h2.
Proof.
  destruct read_head_exec as (bs & E & Hbs & Hat). set (n := get32 (dget D start) 0) in *.
  set (B := hdr_blocks (dget D start)) in *. destruct Hok as [Hb Hn Hfit Hnd Hh]. fold n B in Hn, Hfit, Hnd, Hh.
  assert (Hst : log_area start (lg_size lg) start) by (apply area_start; lia).
  assert (HlB : length B = Z.to_nat n) by apply length_hdr_blocks.
  unfold recover_from_log. rewrite E. cbn [rbind]. unfold install_trans. cbn [set_lh lh_n]. rewrite <- HlB.
  assert (Hcopy : forall j x, B !! j = Some x ->
            dget D (lg_start (set_lh lg n bs) + (0 + Z.of_nat j) + 1) = log_view start D x).
  { intros j x Hx. cbn [set_lh lg_start]. unfold log_view. fold B. pose proof (find_index_eqb B x) as Hf.
    destruct (find_index _ B) as [i|].
    - rewrite (NoDup_lookup _ _ _ _ Hnd Hx Hf). f_equal. lia.
    - destruct Hf. by eapply list_elem_of_lookup_2. }
  rewrite (recover_exec (set_lh lg n bs) B 0 D T (log_view start D)); auto; cbn [set_lh lg_size lg_start]; try lia; [|by intros; apply Hh].
  cbn [rbind]. rewrite write_head_exec by (done || by simplify_map_eq). cbn [set_lh lg_start lh_n lh_block rbind].
  set (D2 := dapply D (home_writes B (log_view start D))).
  assert (Hd2 : dget D2 start = dget D start).
  { unfold D2. apply dget_dapply_ne. rewrite home_writes_fst. intros Hin. by apply (Hh start Hin). }
  exists bs, (hdr_make (dget D2 start) 0 bs). rewrite dapply_app, <- app_assoc. split; [done|].
  destruct (hdr_make_spec (dget D2 start) 0 bs) as (? & ? & _); rewrite ?Hd2; auto; [change LOGSIZE with 30; lia|lia|].
  by rewrite <- Hd2.
Qed.
End recover.

Lemma recover_content start lsize D h2 b :
  0 < lsize -> hdr_ok start lsize D -> get32 h2 0 = 0 -> is_block h2 -> ~ log_area start lsize b ->
  dget (dapply D (home_writes (hdr_blocks (dget D start)) (log_view start D) ++ [(start, h2)])) b =
  log_view start D b.
Proof.
  intros Hsz Hok Hh2 Hb2 Hb. set (t := _ ++ _).
  destruct (recover_trace_view start lsize Hsz D h2 (length t) b Hok Hh2 Hb2 Hb) as [<- _].
  fold t. rewrite firstn_all. rewrite log_view_clear; [done|].
  unfold t. rewrite dapply_app. simpl. by rewrite dget_insert, decide_True.
Qed.

(** ** Theorems *)

(** What the log holds for block [b] once the transaction commits. *)
Definition txn_data (lg : log) (a : acache) (b : Z) : block :=
  if decide (b ∈ take (Z.to_nat (lh_n lg)) (lh_block lg)) then a_data b a else dget (a_disk a) b.

Lemma commit_crash lg a k b :
  commit_ready lg a -> ~ log_area (lg_start lg) (lg_size lg) b ->
  let D := dapply (a_disk a) (take k (ctrace lg a)) in
  hdr_ok (lg_start lg) (lg_size lg) D /\
  log_view (lg_start lg) D b =
    if decide (k <= Z.to_nat (lh_n lg))%nat then dget (a_disk a) b else txn_data lg a b.
Proof.
  intros Hcr Hb D. destruct (h_commit_spec lg a Hcr) as (H1 & H2 & H3).
  destruct (h_clear_spec lg a Hcr) as (H4 & H5). destruct (cr_n _ _ Hcr) as [Hn Hfit].
  pose proof (length_B lg a Hcr) as Hlen.
  assert (HB : forall x, x ∈ take (Z.to_nat (lh_n lg)) (lh_block lg) -> ~ log_area (lg_start lg) (lg_size lg) x)
    by (intros x Hx; by apply (cr_home _ _ Hcr)).
  destruct (cr_clear _ _ Hcr) as [Hclr Hclr0]. split.
  - unfold D, ctrace. apply commit_trace_hdr; auto; try lia; try apply Hcr.
    split; rewrite ?Hclr0; auto; try lia.
    + unfold hdr_blocks. rewrite Hclr0. constructor.
    + unfold hdr_blocks. rewrite Hclr0. intros x Hx. by apply not_elem_of_nil in Hx.
  - unfold D, ctrace. rewrite (commit_trace_view (lg_start lg) (lg_size lg)); auto; try lia; [|apply Hcr].
    rewrite Hlen. done.
Qed.

(** C2: commit is atomic.  If the machine stops after any prefix of the disk
    writes commit issues and then restarts, recovery from that disk (with an
    empty cache) succeeds and every block outside the log is either as before
    the transaction, if the header write was not reached, or as the
    transaction left it; without a crash commit itself installs the
    transaction and empties the log. *)
Theorem commit_crash_recover {S : Type} `{BufLaws S} (lg : log) (s : S) (a : acache) :
  buf_rel s a -> commit_ready lg a ->
  exists lg' s' a' t,
    commit lg s = Ok (lg', s') /\ buf_rel s' a' /\ lh_n lg' = 0 /\
    a_trace a' = a_trace a ++ t /\
    (forall b, ~ log_area (lg_start lg) (lg_size lg) b -> dget (a_disk a') b = txn_data lg a b) /\
    forall k (s0 : S) T, buf_rel s0 (mkA (dapply (a_disk a) (take k t)) ∅ T) ->
      exists lg2 s2 a2, recover_from_log lg s0 = Ok (lg2, s2) /\ buf_rel s2 a2 /\ lh_n lg2 = 0 /\
        forall b, ~ log_area (lg_start lg) (lg_size lg) b -> dget (a_disk a2) b =
          if decide (k <= Z.to_nat (lh_n lg))%nat then dget (a_disk a) b else txn_data lg a b.
Proof.
  intros R Hcr. destruct (cr_n _ _ Hcr) as [Hn Hfit].
  destruct (commit_follows lg s a _ _ R (commit_exec lg a Hcr)) as (s' & E & R').
  eexists (set_lh lg 0 (lh_block lg)), s', _, (ctrace lg a). split_and!; [done|exact R'|done|done| |].
  - intros b Hb. cbn [a_disk]. unfold ctrace. erewrite commit_final; eauto; try lia; try apply Hcr.
    rewrite (length_B _ _ Hcr). lia.
  - intros k s0 T R0.
    assert (Hok : hdr_ok (lg_start lg) (lg_size lg) (dapply (a_disk a) (take k (ctrace lg a)))).
    { apply (commit_crash lg a k (lg_start lg + lg_size lg)); [done|]. unfold log_area. lia. }
    destruct (recover_run lg _ T (cr_len _ _ Hcr) Hok) as (bs & h2 & E0 & _ & Hh2 & Hb2).
    destruct (recover_follows lg s0 _ _ _ R0 E0) as (s2 & E2 & R2).
    eexists _, s2, _. split_and!; [exact E2|exact R2|done|]. intros b Hb. cbn [a_disk].
    rewrite (recover_content (lg_start lg) (lg_size lg)) by (done || lia).
    by apply commit_crash.
Qed.

Definition demo_log (n : Z) : log := mkLog 2 30 0 0 1 n (100 :: replicate 29 0).
Definition demo_cache : acache :=
  mkA ∅ {[ 100 := mkR 1 false (replicate 1024 7) ]} [].

Lemma demo_ready : commit_ready (demo_log 1) demo_cache.
Proof.
  split; [zcompute|reflexivity| | | | |zcompute|split; zcompute].
  - apply NoDup_singleton.
  - intros b Hb. change (b ∈ [100]) in Hb. apply list_elem_of_singleton in Hb as ->.
    unfold log_area. simpl. pow2. lia.
  - intros b Hb. change (b ∈ [100]) in Hb. apply list_elem_of_singleton in Hb as ->.
    exists 0%nat. unfold a_data. simpl. by rewrite lookup_singleton_eq.
  - intros b Hb. unfold log_area in Hb. simpl in *. apply lookup_singleton_ne. lia.
Qed.

Lemma commit_crash_recover_witness : exists lg' a' t,
  commit (demo_log 1) demo_cache = Ok (lg', a') /\ a_trace a' = t /\
  dget (a_disk a') 100 = replicate 1024 7 /\
  (exists lg2 a2, recover_from_log (demo_log 1) (mkA (dapply ∅ (take 1 t)) ∅ []) = Ok (lg2, a2) /\
     dget (a_disk a2) 100 = zero_block) /\
  (exists lg2 a2, recover_from_log (demo_log 1) (mkA (dapply ∅ (take 2 t)) ∅ []) = Ok (lg2, a2) /\
     dget (a_disk a2) 100 = replicate 1024 7).
Proof.
  assert (H100 : ~ log_area 2 30 100) by (unfold log_area; lia).
  assert (R0 : buf_rel demo_cache demo_cache) by reflexivity.
  destruct (commit_crash_recover (demo_log 1) demo_cache demo_cache R0 demo_ready)
    as (lg' & s' & a' & t & E & R & _ & Ht & Hfin & Hrec).
  simpl in R. subst a'. exists lg', s', t. split_and!; [exact E|exact Ht|exact (Hfin 100 H100)| |].
  - destruct (Hrec 1%nat _ [] eq_refl) as (lg2 & s2 & a2 & E2 & R2 & _ & Hc). simpl in R2. subst a2.
    exists lg2, s2. split; [exact E2|exact (Hc 100 H100)].
  - destruct (Hrec 2%nat _ [] eq_refl) as (lg2 & s2 & a2 & E2 & R2 & _ & Hc). simpl in R2. subst a2.
    exists lg2, s2. split; [exact E2|exact (Hc 100 H100)].
Defined.

(** Recovery can itself be interrupted: from any disk whose log header is
    well formed it succeeds and yields the disk the log presents, and after any
    prefix of the writes it issues the header is still well formed and the log
    still presents the same disk, so that a second recovery completes it. *)
Theorem recover_interruptible {S : Type} `{BufLaws S} (lg : log) (s : S) D T :
  length (lh_block lg) = Z.to_nat LOGSIZE -> hdr_ok (lg_start lg) (lg_size lg) D ->
  buf_rel s (mkA D ∅ T) ->
  exists lg' s' t, recover_from_log lg s = Ok (lg', s') /\
    buf_rel s' (mkA (dapply D t) ∅ (T ++ t)) /\ lh_n lg' = 0 /\
    forall b, ~ log_area (lg_start lg) (lg_size lg) b ->
      dget (dapply D t) b = log_view (lg_start lg) D b /\
      forall k, hdr_ok (lg_start lg) (lg_size lg) (dapply D (take k t)) /\
        log_view (lg_start lg) (dapply D (take k t)) b = log_view (lg_start lg) D b.
Proof.
  intros Hlen Hok R. assert (Hsz : 0 < lg_size lg) by (destruct Hok; lia).
  destruct (recover_run lg D T Hlen Hok) as (bs & h2 & E0 & _ & Hh2 & Hb2).
  destruct (recover_follows lg s _ _ _ R E0) as (s2 & E2 & R2).
  eexists _, s2, _. split_and!; [exact E2|exact R2|done|]. intros b Hb. split.
  - by apply (recover_content (lg_start lg) (lg_size lg)).
  - intros k. destruct (recover_trace_view (lg_start lg) (lg_size lg) Hsz D h2 k b Hok Hh2 Hb2 Hb). auto.
Qed.

Lemma recover_interruptible_witness : exists lg' s',
  recover_from_log (demo_log 0) (mkA {[ 2 := h_commit (demo_log 1) demo_cache ]} ∅ []) = Ok (lg', s') /\ lh_n lg' = 0.
Proof.
  pose proof (h_commit_spec (demo_log 1) demo_cache demo_ready) as (H1 & H2 & H3).
  destruct (recover_interruptible (demo_log 0) (mkA {[ 2 := h_commit (demo_log 1) demo_cache ]} ∅ [])
    {[ 2 := h_commit (demo_log 1) demo_cache ]} []) as (lg' & s' & t & E & _ & Hn & _).
  - reflexivity.
  - assert (Hg : dget {[ 2 := h_commit (demo_log 1) demo_cache ]} (lg_start (demo_log 0)) = h_commit (demo_log 1) demo_cache).
    { unfold dget. simpl. rewrite lookup_singleton_eq. reflexivity. }
    split; rewrite Hg; rewrite ?H2, ?H3; [exact H1|zcompute|zcompute|apply (cr_nodup _ _ demo_ready)|].
    intros b Hb. exact (cr_home _ _ demo_ready b Hb).
  - reflexivity.
  - exists lg', s'. split; [exact E|exact Hn].
Defined.
