(* ===== verification/LogTxn.v ===== *)
(** * Concurrent transactions: begin_op, log_write, end_op

    Any number of processes run file-system operations at once; each critical
    section under log.lock is one step.  The second component of the state is
    the number of log_write calls each running operation has made. *)

From S2P Require Import Prelude Riscv Block Log LogFacts LogExec.

Inductive txn_act :=
| ABegin                    (* begin_op passes its tests *)
| AWrite (i : nat) (b : Z)  (* the i-th running operation calls log_write *)
| AEnter (i : nat)          (* its end_op runs the first critical section *)
| ACommit                   (* commit empties the log *)
| ALeave.                   (* end_op's second critical section *)

Record txn := mkTxn { t_log : log; t_ops : list Z; t_cache : acache }.

(** The step an action makes; [Block] when it is not enabled. *)
Definition txn_step (x : txn_act) (t : txn) : res txn :=
  match x with
  | ABegin => let* lg := begin_op (t_log t) in Ok (mkTxn lg (0 :: t_ops t) (t_cache t))
  | AWrite i b =>
      match t_ops t !! i with
      | Some w =>
          if w <? MAXOPBLOCKS then
            let* (lg, c) := log_write b (t_log t) (t_cache t) in
            Ok (mkTxn lg (<[i := w + 1]> (t_ops t)) c)
          else Block
      | None => Block
      end
  | AEnter i =>
      match t_ops t !! i with
      | Some _ => let* (lg, _) := end_op_enter (t_log t) in Ok (mkTxn lg (delete i (t_ops t)) (t_cache t))
      | None => Block
      end
  | ACommit =>
      if negb (lg_committing (t_log t) =? 0)
      then Ok (mkTxn (set_lh (t_log t) 0 (lh_block (t_log t))) (t_ops t) (t_cache t)) else Block
  | ALeave =>
      if negb (lg_committing (t_log t) =? 0) && (lh_n (t_log t) =? 0)
      then Ok (mkTxn (end_op_leave (t_log t)) (t_ops t) (t_cache t)) else Block
  end.

Inductive txn_reach (t0 : txn) : txn -> Prop :=
| tr_start : txn_reach t0 t0
| tr_step t x t' : txn_reach t0 t -> txn_step x t = Ok t' -> txn_reach t0 t'.

(** Log space still reserved for the running operations. *)
Definition reserved (ws : list Z) : Z := foldr (fun w r => (MAXOPBLOCKS - w) + r) 0 ws.

Record resv_inv (t : txn) : Prop := {
  ti_out : lg_outstanding (t_log t) = Z.of_nat (length (t_ops t));
  ti_w : Forall (fun w => 0 <= w <= MAXOPBLOCKS) (t_ops t);
  ti_n : 0 <= lh_n (t_log t);
  ti_res : lh_n (t_log t) + reserved (t_ops t) <= LOGSIZE;
  ti_commit : lg_committing (t_log t) <> 0 -> t_ops t = [];
}.

Lemma reserved_bound ws : Forall (fun w => 0 <= w <= MAXOPBLOCKS) ws ->
  0 <= reserved ws <= MAXOPBLOCKS * Z.of_nat (length ws).
Proof. change MAXOPBLOCKS with 10. induction 1; simpl; change MAXOPBLOCKS with 10 in *; lia. Qed.

Lemma reserved_insert ws i w v : ws !! i = Some w ->
  reserved (<[i := v]> ws) = reserved ws + w - v.
Proof.
  revert i. induction ws as [|x ws IH]; intros i Hi; [done|]. destruct i as [|i]; simpl in *.
  - simplify_eq. lia.
  - rewrite (IH i Hi). lia.
Qed.

Lemma reserved_delete ws i w : ws !! i = Some w ->
  reserved (delete i ws) = reserved ws - (MAXOPBLOCKS - w).
Proof.
  revert i. induction ws as [|x ws IH]; intros i Hi; [done|]. destruct i as [|i]; simpl in *.
  - simplify_eq. lia.
  - rewrite (IH i Hi). lia.
Qed.

(** Effect of log_write on the counters. *)
Lemma log_write_n b lg c lg' c' : log_write b lg c = Ok (lg', c') ->
  lh_n lg <= lh_n lg' <= lh_n lg + 1 /\ lg_outstanding lg' = lg_outstanding lg /\
  lg_committing lg' = lg_committing lg /\ lg_size lg' = lg_size lg.
Proof.
  unfold log_write. destruct (_ || _); [done|]. destruct (_ <? 1); [done|]. cbv zeta.
  destruct (_ =? lh_n lg); intros E.
  - apply rbind_Ok in E as (? & _ & E). injection E as <- _. simpl. lia.
  - injection E as <- _. simpl. lia.
Qed.

Lemma txn_inv_step x t t' : resv_inv t -> txn_step x t = Ok t' -> resv_inv t'.
Proof.
  intros [Hout Hw Hn Hres Hcm] E. pose proof (reserved_bound _ Hw) as Hrb.
  destruct x as [|i b|i| |]; simpl in E.
  - apply rbind_Ok in E as (lg & Eb & [= <-]). unfold begin_op in Eb.
    destruct (Z.eqb_spec (lg_committing (t_log t)) 0) as [E0|]; [|done]. simpl in Eb.
    destruct (Z.ltb_spec LOGSIZE (lh_n (t_log t) + (lg_outstanding (t_log t) + 1) * MAXOPBLOCKS)); [done|].
    injection Eb as <-. change MAXOPBLOCKS with 10 in *. split; simpl; try lia.
    + constructor; [change MAXOPBLOCKS with 10; lia|done].
    + change MAXOPBLOCKS with 10. lia.
  - destruct (t_ops t !! i) as [w|] eqn:Hi; [|done].
    destruct (Z.ltb_spec w MAXOPBLOCKS) as [Hwlt|]; [|done].
    apply rbind_Ok in E as ([lg c] & El & [= <-]). apply log_write_n in El as (H1 & H2 & H3 & _).
    assert (0 <= w <= MAXOPBLOCKS) by exact (Forall_lookup_1 _ _ _ _ Hw Hi).
    split; simpl; rewrite ?length_insert, ?(reserved_insert _ _ _ _ Hi); try lia.
    + apply Forall_insert; [done|lia].
    + intros Hc. rewrite H3 in Hc. rewrite (Hcm Hc) in Hi. done.
  - destruct (t_ops t !! i) as [w|] eqn:Hi; [|done].
    assert (0 <= w <= MAXOPBLOCKS) by exact (Forall_lookup_1 _ _ _ _ Hw Hi).
    pose proof (lookup_lt_Some _ _ _ Hi) as Hlen.
    apply rbind_Ok in E as ([lg dc] & El & [= <-]). unfold end_op_enter in El. simpl in El.
    destruct (Z.eqb_spec (lg_committing (t_log t)) 0) as [E0|]; [|done]. simpl in El.
    assert (Hd : length (delete i (t_ops t)) = (length (t_ops t) - 1)%nat) by (apply length_delete; by eexists).
    assert (HF : Forall (fun w => 0 <= w <= MAXOPBLOCKS) (delete i (t_ops t))) by by apply Forall_delete.
    destruct (Z.eqb_spec (lg_outstanding (t_log t) - 1) 0) as [E1|E1]; injection El as <- <-;
      split; simpl; rewrite ?(reserved_delete _ _ _ Hi), ?Hd; auto; try lia; intros _.
    apply nil_length_inv. lia.
  - destruct (negb _); [|done]. injection E as <-. split; simpl; auto; lia.
  - destruct (_ && _); [|done]. injection E as <-. split; simpl; auto; done.
Qed.

Lemma txn_inv_reach t0 t : resv_inv t0 -> txn_reach t0 t -> resv_inv t.
Proof. intros H0 Hr. induction Hr; [done|]. by eapply txn_inv_step. Qed.

(** A log that has just been recovered, with no operation running. *)
Definition txn_init (lg : log) (c : acache) : Prop :=
  lh_n lg = 0 /\ lg_outstanding lg = 0 /\ lg_committing lg = 0.

Lemma txn_init_inv lg c : txn_init lg c -> resv_inv (mkTxn lg [] c).
Proof. intros (H1 & H2 & H3). split; simpl; auto; rewrite ?H1; done || lia. Qed.

Lemma txn_size_step x t t' : txn_step x t = Ok t' -> lg_size (t_log t') = lg_size (t_log t).
Proof.
  destruct x as [|i b|i| |]; simpl; intros E.
  - apply rbind_Ok in E as (lg & Eb & [= <-]). unfold begin_op in Eb. destruct (negb _); [done|].
    destruct (_ <? _); [done|]. by injection Eb as <-.
  - destruct (_ !! i); [|done]. destruct (_ <? _); [|done].
    apply rbind_Ok in E as ([lg c] & El & [= <-]). apply log_write_n in El as (_ & _ & _ & ?). done.
  - destruct (_ !! i); [|done]. apply rbind_Ok in E as ([lg dc] & El & [= <-]).
    unfold end_op_enter in El. simpl in El. destruct (negb _); [done|].
    destruct (_ =? 0); injection El as <- <-; done.
  - destruct (negb _); [|done]. by injection E as <-.
  - destruct (_ && _); [|done]. by injection E as <-.
Qed.

Lemma txn_size_reach t0 t : txn_reach t0 t -> lg_size (t_log t) = lg_size (t_log t0).
Proof. induction 1; [done|]. by erewrite txn_size_step. Qed.

(** C20: under every interleaving of any number of operations that each call
    log_write at most MAXOPBLOCKS times, on a log with LOGSIZE data blocks:
    log_write on a referenced buffer never panics, and while a commit is in
    progress no operation is running, so commit sees only finished
    operations. *)
Theorem reservation_suffices lg c t :
  txn_init lg c -> LOGSIZE < lg_size lg -> txn_reach (mkTxn lg [] c) t ->
  (forall i w b, t_ops t !! i = Some w -> w < MAXOPBLOCKS -> is_Some (a_refs (t_cache t) !! b) ->
     exists lg' c', log_write b (t_log t) (t_cache t) = Ok (lg', c')) /\
  (lg_committing (t_log t) <> 0 -> t_ops t = [] /\ lg_outstanding (t_log t) = 0).
Proof.
  intros Hi Hsz Hr. pose proof (txn_inv_reach _ _ (txn_init_inv _ _ Hi) Hr) as [Hout Hw Hn Hres Hcm].
  split.
  - intros i w b Hiw Hlt [r Hb]. pose proof (txn_size_reach _ _ Hr) as Hs. simpl in Hs.
    assert (Hin : lh_n (t_log t) < LOGSIZE).
    { pose proof (reserved_delete _ _ _ Hiw) as Hd.
      pose proof (reserved_bound _ (Forall_delete _ _ i Hw)). lia. }
    assert (Hlen : (0 < length (t_ops t))%nat) by (apply lookup_lt_Some in Hiw; lia).
    unfold log_write. rewrite Hs.
    destruct (Z.leb_spec LOGSIZE (lh_n (t_log t))), (Z.leb_spec (lg_size lg - 1) (lh_n (t_log t)));
      cbn [orb]; try lia.
    destruct (Z.ltb_spec (lg_outstanding (t_log t)) 1); [lia|]. cbv zeta.
    destruct (_ =? lh_n (t_log t)); [|eauto].
    simpl. unfold a_pin. rewrite Hb. simpl. eauto.
  - intros Hc. rewrite (Hcm Hc) in Hout. split; [by apply Hcm|]. rewrite Hout. done.
Qed.

Definition demo_txn_log (size : Z) : log := mkLog 2 size 0 0 1 0 (replicate 30 0).
Definition demo_txn_cache : acache := mkA ∅ {[ 100 := mkR 1 true zero_block ]} [].

Lemma reservation_suffices_witness : exists t lg' c',
  txn_reach (mkTxn (demo_txn_log 31) [] demo_txn_cache) t /\
  log_write 100 (t_log t) (t_cache t) = Ok (lg', c').
Proof.
  assert (Hr : txn_reach (mkTxn (demo_txn_log 31) [] demo_txn_cache)
                 (mkTxn (mkLog 2 31 1 0 1 0 (replicate 30 0)) [0] demo_txn_cache)).
  { apply (tr_step _ _ ABegin _ (tr_start _)). reflexivity. }
  destruct (reservation_suffices (demo_txn_log 31) demo_txn_cache _
    ltac:(repeat split) ltac:(zcompute) Hr) as [H _].
  destruct (H 0%nat 0 100 eq_refl ltac:(zcompute) (ex_intro _ _ eq_refl)) as (lg' & c' & E).
  exists (mkTxn (mkLog 2 31 1 0 1 0 (replicate 30 0)) [0] demo_txn_cache), lg', c'. split; [exact Hr|exact E].
Defined.

(** *** The log mkfs makes is one block short

    mkfs sets nlog to LOGSIZE, header included. *)
Fixpoint txn_run (xs : list txn_act) (t : txn) : res txn :=
  match xs with
  | [] => Ok t
  | x :: xs' => let* t := txn_step x t in txn_run xs' t
  end.

Lemma txn_run_reach xs t0 t t' : txn_reach t0 t -> txn_run xs t = Ok t' -> txn_reach t0 t'.
Proof.
  revert t. induction xs as [|x xs IH]; intros t Hr E; simpl in E; [by injection E as <-|].
  apply rbind_Ok in E as (t1 & E1 & E). eapply IH; [|exact E]. by eapply tr_step.
Qed.

(** Three operations, of which two make ten writes and one makes nine. *)
Definition heavy_run : list txn_act :=
  [ABegin; ABegin; ABegin] ++
  ((fun k => AWrite (k / 10) (100 + Z.of_nat k)) <$> seq 0 29).
Definition heavy_cache : acache :=
  mkA ∅ (list_to_map ((fun k => (100 + Z.of_nat k, mkR 1 true zero_block)) <$> seq 0 30)) [].
Definition heavy_state : res txn := txn_run heavy_run (mkTxn (demo_txn_log LOGSIZE) [] heavy_cache).

(** With the log size mkfs writes (nlog = LOGSIZE) the reservation of
    begin_op is not sufficient: a reachable state exists in which an admitted
    operation that made nine of its ten log_write calls panics on the tenth. *)
Theorem reservation_short : exists t,
  txn_reach (mkTxn (demo_txn_log LOGSIZE) [] heavy_cache) t /\
  t_ops t !! 2%nat = Some 9 /\ a_refs (t_cache t) !! 129 = Some (mkR 1 true zero_block) /\
  log_write 129 (t_log t) (t_cache t) = Panic "too big a transaction".
Proof.
  destruct heavy_state as [t| |] eqn:E; [|by vm_compute in E..].
  exists t. split_and!.
  - exact (txn_run_reach heavy_run _ _ _ (tr_start _) E).
  - assert (H : (let* t := heavy_state in Ok (t_ops t !! 2%nat)) = Ok (Some 9)) by (by vm_compute).
    rewrite E in H. by injection H.
  - assert (H : (let* t := heavy_state in Ok (a_refs (t_cache t) !! 129)) = Ok (Some (mkR 1 true zero_block)))
      by (by vm_compute).
    rewrite E in H. by injection H.
  - assert (H : (let* t := heavy_state in
                 Ok (match log_write 129 (t_log t) (t_cache t) with Panic m => m | _ => ""%string end))
                = Ok "too big a transaction"%string) by (by vm_compute).
    rewrite E in H. clear E. cbn [rbind] in H. injection H as H.
    destruct (log_write 129 _ _); [discriminate H|by rewrite H|discriminate H].
Qed.
