(* ===== verification/Txn.v ===== *)
(** * The transaction interface

    What fs.c uses of bio.c and log.c inside a transaction: bread, log_write
    and brelse.  [TxnOps] is the interface and [TxnLaws] its contract, in terms
    of the disk the transaction sees ([v_disk]), the buffers it holds and the
    blocks it has logged.  The log over any buffer cache implements it. *)

From S2P Require Import Prelude Riscv Block Log LogFacts LogExec LogProps.

Class TxnOps (T : Type) := {
  tread : Z -> T -> res T;
  tdata : Z -> T -> block;
  tstore : Z -> block -> T -> T;
  tlog : Z -> T -> res T;
  trelse : Z -> T -> res T;
}.

Record txv := mkV {
  v_disk : Z -> block;
  v_held : gset Z;     (* buffers locked by the transaction *)
  v_dirty : gset Z;    (* of these, modified since the last log_write *)
  v_log : gset Z;      (* blocks logged since the last commit *)
  v_open : bool;       (* between begin_op and end_op: log_write is allowed *)
}.

Definition fupd (L : Z -> block) (b : Z) (d : block) (x : Z) : block :=
  if decide (x = b) then d else L x.

Class TxnLaws (T : Type) `{TxnOps T} := {
  tcap : Z;   (* how many blocks the log can hold *)
  tcap_small : tcap < NBUF;
  tx : T -> txv -> Prop;
  tx_ext : forall t v L, tx t v -> (forall b, L b = v_disk v b) ->
    tx t (mkV L (v_held v) (v_dirty v) (v_log v) (v_open v));
  tx_read : forall t v b, tx t v -> b ∉ v_held v ->
    Z.of_nat (size (v_log v ∪ v_held v)) < NBUF ->
    exists t', tread b t = Ok t' /\ tdata b t' = v_disk v b /\
      tx t' (mkV (v_disk v) ({[b]} ∪ v_held v) (v_dirty v) (v_log v) (v_open v));
  tx_data : forall t v b, tx t v -> b ∈ v_held v -> tdata b t = v_disk v b;
  tx_store : forall t v b d, tx t v -> b ∈ v_held v ->
    tx (tstore b d t) (mkV (fupd (v_disk v) b d) (v_held v) ({[b]} ∪ v_dirty v) (v_log v) (v_open v));
  tx_log : forall t v b, tx t v -> v_open v = true -> b ∈ v_held v -> Z.of_nat (size (v_log v)) < tcap ->
    exists t', tlog b t = Ok t' /\
      tx t' (mkV (v_disk v) (v_held v) (v_dirty v ∖ {[b]}) ({[b]} ∪ v_log v) (v_open v));
  tx_relse : forall t v b, tx t v -> b ∈ v_held v -> b ∉ v_dirty v ->
    exists t', trelse b t = Ok t' /\
      tx t' (mkV (v_disk v) (v_held v ∖ {[b]}) (v_dirty v) (v_log v) (v_open v));
}.

(** ** The log implements the interface *)
Section impl.
Context {C : Type} `{BufLaws C}.

#[global] Instance log_txn_ops : TxnOps (log * C) := {
  tread b t := let* c := buf_read b t.2 in Ok (t.1, c);
  tdata b t := buf_data b t.2;
  tstore b d t := (t.1, buf_store b d t.2);
  tlog b t := log_write b t.1 t.2;
  trelse b t := let* c := buf_relse b t.2 in Ok (t.1, c);
}.

(** Blocks logged so far. *)
Definition logged (lg : log) : list Z := take (Z.to_nat (lh_n lg)) (lh_block lg).

Record txn_inv (lsize : Z) (lg : log) (a : acache) (v : txv) : Prop := {
  xi_size : lg_size lg = lsize /\ 0 <= lh_n lg <= LOGSIZE /\ length (lh_block lg) = Z.to_nat LOGSIZE;
  xi_out : v_open v = true -> 1 <= lg_outstanding lg;
  xi_disk : forall b, a_data b a = v_disk v b;
  xi_log : v_log v = list_to_set (logged lg) /\ NoDup (logged lg);
  xi_dom : dom (a_refs a) = v_log v ∪ v_held v;
  xi_held : forall b r, a_refs a !! b = Some r -> r_held r = bool_decide (b ∈ v_held v);
  xi_cnt : forall b r, a_refs a !! b = Some r ->
    r_cnt r = ((if decide (b ∈ v_log v) then 1 else 0) + (if decide (b ∈ v_held v) then 1 else 0))%nat;
  xi_clean : forall b, b ∉ v_log v -> b ∉ v_dirty v -> a_data b a = dget (a_disk a) b;
}.

Lemma logged_length lsize lg a v : txn_inv lsize lg a v -> Z.of_nat (size (v_log v)) = lh_n lg.
Proof.
  intros Hi. destruct (xi_log _ _ _ _ Hi) as [-> Hnd]. rewrite size_list_to_set by done.
  destruct (xi_size _ _ _ _ Hi) as (_ & Hn & Hl). unfold logged. rewrite length_take. lia.
Qed.

Lemma size_refs lsize lg a v : txn_inv lsize lg a v -> size (a_refs a) = size (v_log v ∪ v_held v).
Proof. intros Hi. rewrite <- (xi_dom _ _ _ _ Hi). by rewrite size_dom. Qed.

Lemma refs_Some lsize lg a v b : txn_inv lsize lg a v ->
  b ∈ v_log v ∪ v_held v <-> is_Some (a_refs a !! b).
Proof. intros Hi. rewrite <- (xi_dom _ _ _ _ Hi). apply elem_of_dom. Qed.

(** The reference a member of the two sets has. *)
Lemma refs_at lsize lg a v b : txn_inv lsize lg a v -> b ∈ v_log v ∪ v_held v ->
  a_refs a !! b = Some (mkR ((if decide (b ∈ v_log v) then 1 else 0) + (if decide (b ∈ v_held v) then 1 else 0))
                            (bool_decide (b ∈ v_held v)) (v_disk v b)).
Proof.
  intros Hi Hb. apply (refs_Some _ _ _ _ b Hi) in Hb as [r Hr]. rewrite Hr. f_equal.
  destruct r as [c h d]. pose proof (xi_cnt _ _ _ _ Hi b _ Hr) as Hc. pose proof (xi_held _ _ _ _ Hi b _ Hr) as Hh.
  simpl in Hc, Hh. subst. f_equal. rewrite <- (xi_disk _ _ _ _ Hi). unfold a_data. by rewrite Hr.
Qed.

Lemma a_data_set a b r b' :
  a_data b' (set_refs a (<[b := r]> (a_refs a))) = if decide (b' = b) then r_data r else a_data b' a.
Proof.
  unfold a_data. simpl. destruct (decide (b' = b)) as [->|]; [by rewrite lookup_insert_eq|].
  by rewrite lookup_insert_ne.
Qed.

Lemma inv_read lsize lg a v b :
  txn_inv lsize lg a v -> b ∉ v_held v -> Z.of_nat (size (v_log v ∪ v_held v)) < NBUF ->
  exists a', a_read b a = Ok a' /\
    txn_inv lsize lg a' (mkV (v_disk v) ({[b]} ∪ v_held v) (v_dirty v) (v_log v) (v_open v)).
Proof.
  intros Hi Hb Hsz.
  assert (Hgen : forall c, c = (if decide (b ∈ v_log v) then 2 else 1)%nat ->
    txn_inv lsize lg (set_refs a (<[b := mkR c true (v_disk v b)]> (a_refs a)))
      (mkV (v_disk v) ({[b]} ∪ v_held v) (v_dirty v) (v_log v) (v_open v))).
  { intros c Hc. split; simpl; try apply Hi.
    - intros b'. rewrite a_data_set. destruct (decide (b' = b)) as [->|]; [done|apply Hi].
    - rewrite dom_insert_L, (xi_dom _ _ _ _ Hi). set_solver.
    - intros b' r Hr. destruct (decide (b' = b)) as [->|Hne].
      + rewrite lookup_insert_eq in Hr. injection Hr as <-. simpl. rewrite bool_decide_true; [done|set_solver].
      + rewrite lookup_insert_ne in Hr by done. rewrite (xi_held _ _ _ _ Hi b' r Hr).
        apply bool_decide_ext. set_solver.
    - intros b' r Hr. destruct (decide (b' = b)) as [->|Hne].
      + rewrite lookup_insert_eq in Hr. injection Hr as <-. simpl. rewrite Hc.
        rewrite (decide_True (P := b ∈ {[b]} ∪ v_held v)) by set_solver. by destruct (decide _).
      + rewrite lookup_insert_ne in Hr by done. rewrite (xi_cnt _ _ _ _ Hi b' r Hr). f_equal.
        destruct (decide (b' ∈ v_held v)), (decide (b' ∈ {[b]} ∪ v_held v)); set_solver.
    - intros b' H1 H2. rewrite a_data_set. destruct (decide (b' = b)) as [->|]; simpl.
      + rewrite <- (xi_disk _ _ _ _ Hi). by apply Hi.
      + by apply Hi. }
  unfold a_read. destruct (decide (b ∈ v_log v)) as [Hl|Hl].
  - rewrite (refs_at _ _ _ _ b Hi) by set_solver. rewrite (decide_True (P := b ∈ v_log v)) by done.
    rewrite (decide_False (P := b ∈ v_held v)), bool_decide_false by done. simpl. eauto.
  - assert (Hn : a_refs a !! b = None).
    { apply not_elem_of_dom. rewrite (xi_dom _ _ _ _ Hi). set_solver. }
    rewrite Hn, decide_True by (by rewrite (size_refs _ _ _ _ Hi)).
    assert (Hd : dget (a_disk a) b = v_disk v b).
    { rewrite <- (xi_disk _ _ _ _ Hi). unfold a_data. by rewrite Hn. }
    rewrite Hd. eauto.
Qed.

Lemma inv_store lsize lg a v b d :
  txn_inv lsize lg a v -> b ∈ v_held v ->
  txn_inv lsize lg (a_store b d a) (mkV (fupd (v_disk v) b d) (v_held v) ({[b]} ∪ v_dirty v) (v_log v) (v_open v)).
Proof.
  intros Hi Hb. unfold a_store. rewrite (refs_at _ _ _ _ b Hi) by set_solver. cbn [r_cnt r_held].
  split; simpl; try apply Hi.
  - intros b'. rewrite a_data_set. unfold fupd. destruct (decide (b' = b)); [done|apply Hi].
  - rewrite dom_insert_L, (xi_dom _ _ _ _ Hi). set_solver.
  - intros b' r Hr. destruct (decide (b' = b)) as [->|Hne].
    + rewrite lookup_insert_eq in Hr. by injection Hr as <-.
    + rewrite lookup_insert_ne in Hr by done. by apply Hi.
  - intros b' r Hr. destruct (decide (b' = b)) as [->|Hne].
    + rewrite lookup_insert_eq in Hr. by injection Hr as <-.
    + rewrite lookup_insert_ne in Hr by done. by apply Hi.
  - intros b' H1 H2. rewrite a_data_set. rewrite decide_False by set_solver. apply Hi; set_solver.
Qed.

Lemma inv_relse lsize lg a v b :
  txn_inv lsize lg a v -> b ∈ v_held v -> b ∉ v_dirty v ->
  exists a', a_relse b a = Ok a' /\
    txn_inv lsize lg a' (mkV (v_disk v) (v_held v ∖ {[b]}) (v_dirty v) (v_log v) (v_open v)).
Proof.
  intros Hi Hb Hd. unfold a_relse. pose proof (refs_at _ _ _ _ b Hi ltac:(set_solver)) as Hr. rewrite Hr.
  cbn [r_held]. rewrite bool_decide_true by done. unfold a_unref. cbn [r_cnt r_data].
  rewrite (decide_True (P := b ∈ v_held v)) in * by done.
  destruct (decide (b ∈ v_log v)) as [Hl|Hl]; simpl.
  - eexists. split; [done|]. split; simpl; try apply Hi.
    + intros b'. rewrite a_data_set. destruct (decide (b' = b)) as [->|]; [done|apply Hi].
    + rewrite dom_insert_L, (xi_dom _ _ _ _ Hi). apply set_eq. intros x.
      destruct (decide (x = b)); set_solver.
    + intros b' r Hb'. destruct (decide (b' = b)) as [->|Hne].
      * rewrite lookup_insert_eq in Hb'. injection Hb' as <-. simpl. rewrite bool_decide_false; [done|set_solver].
      * rewrite lookup_insert_ne in Hb' by done. rewrite (xi_held _ _ _ _ Hi b' r Hb').
        apply bool_decide_ext. set_solver.
    + intros b' r Hb'. destruct (decide (b' = b)) as [->|Hne].
      * rewrite lookup_insert_eq in Hb'. injection Hb' as <-. simpl.
        rewrite (decide_True (P := b ∈ v_log v)) by done. rewrite decide_False; [done|set_solver].
      * rewrite lookup_insert_ne in Hb' by done. rewrite (xi_cnt _ _ _ _ Hi b' r Hb'). f_equal.
        destruct (decide (b' ∈ v_held v)), (decide (b' ∈ v_held v ∖ {[b]})); set_solver.
    + intros b' H1 H2. rewrite a_data_set. destruct (decide (b' = b)) as [->|]; [set_solver|]. by apply Hi.
  - assert (Hcl : v_disk v b = dget (a_disk a) b).
    { rewrite <- (xi_disk _ _ _ _ Hi). by apply Hi. }
    rewrite decide_True by done. eexists. split; [done|].
    assert (Hdata : forall b', a_data b' (set_refs a (delete b (a_refs a))) = a_data b' a).
    { intros b'. unfold a_data. simpl. destruct (decide (b' = b)) as [->|]; [|by rewrite lookup_delete_ne].
      rewrite lookup_delete_eq, Hr. done. }
    split; simpl; try apply Hi.
    + intros b'. rewrite Hdata. apply Hi.
    + rewrite dom_delete_L, (xi_dom _ _ _ _ Hi). apply set_eq. intros x. destruct (decide (x = b)); set_solver.
    + intros b' r Hb'. apply lookup_delete_Some in Hb' as [Hne Hb']. rewrite (xi_held _ _ _ _ Hi b' r Hb').
      apply bool_decide_ext. set_solver.
    + intros b' r Hb'. apply lookup_delete_Some in Hb' as [Hne Hb']. rewrite (xi_cnt _ _ _ _ Hi b' r Hb'). f_equal.
      destruct (decide (b' ∈ v_held v)), (decide (b' ∈ v_held v ∖ {[b]})); set_solver.
    + intros b' H1 H2. rewrite Hdata. by apply Hi.
Qed.

Lemma lookup_logged lg i b : logged lg !! i = Some b -> lh_block lg !! i = Some b /\ (i < Z.to_nat (lh_n lg))%nat.
Proof. intros H1. by apply lookup_take_Some in H1. Qed.

Lemma inv_log lsize lg a v b :
  txn_inv lsize lg a v -> v_open v = true -> b ∈ v_held v -> Z.of_nat (size (v_log v)) < Z.min 29 (lsize - 1) ->
  exists lg' a', log_write b lg a = Ok (lg', a') /\
    txn_inv lsize lg' a' (mkV (v_disk v) (v_held v) (v_dirty v ∖ {[b]}) ({[b]} ∪ v_log v) (v_open v)).
Proof.
  intros Hi Ho Hb Hsz. rewrite (logged_length _ _ _ _ Hi) in Hsz.
  destruct (xi_size _ _ _ _ Hi) as (Hls & Hn & Hlen). destruct (xi_log _ _ _ _ Hi) as [Hlog Hnd].
  pose proof (xi_out _ _ _ _ Hi Ho) as Hout. unfold log_write. fold (logged lg). rewrite Hls.
  change LOGSIZE with 30 in *. destruct (Z.leb_spec 30 (lh_n lg)), (Z.leb_spec (lsize - 1) (lh_n lg)); cbn [orb]; try lia.
  destruct (Z.ltb_spec (lg_outstanding lg) 1); [lia|].
  pose proof (find_index_eqb (logged lg) b) as Hf. destruct (find_index _ (logged lg)) as [i|].
  - pose proof (lookup_logged _ _ _ Hf) as [Hbi Hin]. destruct (Z.eqb_spec (Z.of_nat i) (lh_n lg)); [lia|].
    assert (Hset : setZ (lh_block lg) (Z.of_nat i) b = lh_block lg).
    { unfold setZ. rewrite Nat2Z.id. by apply list_insert_id. }
    rewrite Hset. eexists _, _. split; [done|].
    assert (HbP : b ∈ v_log v) by (rewrite Hlog; apply elem_of_list_to_set; by eapply list_elem_of_lookup_2).
    assert (HP : {[b]} ∪ v_log v = v_log v) by set_solver. rewrite HP.
    split; simpl; try apply Hi. intros b' Hb1 Hb2. apply Hi; set_solver.
  - rewrite Z.eqb_refl. cbn [buf_pin acache_ops]. unfold a_pin.
    assert (HbP : b ∉ v_log v) by (rewrite Hlog; by rewrite elem_of_list_to_set).
    pose proof (refs_at _ _ _ _ b Hi ltac:(set_solver)) as Hr. rewrite Hr. cbn [rbind r_cnt r_held r_data].
    rewrite (decide_False (P := b ∈ v_log v)), (decide_True (P := b ∈ v_held v)), bool_decide_true by done.
    eexists _, _. split; [done|].
    assert (Hlogged : logged (set_lh lg (lh_n lg + 1) (setZ (lh_block lg) (lh_n lg) b)) = logged lg ++ [b]).
    { unfold logged. cbn [set_lh lh_n lh_block]. unfold setZ. replace (Z.to_nat (lh_n lg + 1)) with (S (Z.to_nat (lh_n lg))) by lia.
      rewrite (take_S_r _ _ b) by (apply list_lookup_insert_eq; lia). by rewrite take_insert_ge. }
    split; simpl; try apply Hi.
    + change LOGSIZE with 30. rewrite length_setZ. split_and!; auto; lia.
    + intros b'. rewrite a_data_set. destruct (decide (b' = b)) as [->|]; [done|apply Hi].
    + rewrite Hlogged. split.
      * rewrite list_to_set_app_L, Hlog. simpl. set_solver.
      * apply NoDup_app. split_and!; [done| |apply NoDup_singleton].
        intros x Hx ->%list_elem_of_singleton. done.
    + rewrite dom_insert_L, (xi_dom _ _ _ _ Hi). set_solver.
    + intros b' r Hb'. destruct (decide (b' = b)) as [->|Hne].
      * rewrite lookup_insert_eq in Hb'. injection Hb' as <-. simpl. by rewrite bool_decide_true.
      * rewrite lookup_insert_ne in Hb' by done. by apply Hi.
    + intros b' r Hb'. destruct (decide (b' = b)) as [->|Hne].
      * rewrite lookup_insert_eq in Hb'. injection Hb' as <-. simpl.
        rewrite (decide_True (P := b ∈ {[b]} ∪ v_log v)) by set_solver. by rewrite (decide_True (P := b ∈ v_held v)).
      * rewrite lookup_insert_ne in Hb' by done. rewrite (xi_cnt _ _ _ _ Hi b' r Hb'). f_equal.
        destruct (decide (b' ∈ v_log v)), (decide (b' ∈ {[b]} ∪ v_log v)); set_solver.
    + intros b' Hb1 Hb2. rewrite a_data_set. rewrite decide_False by set_solver. apply Hi; set_solver.
Qed.

(** log_write over any cache follows log_write over the reference. *)
Lemma log_write_follows b lg (c : C) a lg' a' :
  buf_rel c a -> log_write b lg a = Ok (lg', a') ->
  exists c', log_write b lg c = Ok (lg', c') /\ buf_rel c' a'.
Proof.
  intros R E. unfold log_write in *. destruct (_ || _); [done|]. destruct (_ <? 1); [done|]. cbv zeta in *.
  destruct (_ =? lh_n lg); [|injection E as <- <-; eauto].
  apply rbind_Ok in E as (a1 & E1 & E). injection E as <- <-.
  destruct (bl_pin _ _ _ _ R E1) as (c' & -> & R'). simpl. eauto.
Qed.

#[global] Instance log_txn_laws (lsize : Z) : TxnLaws (log * C).
Proof.
  refine {| tcap := Z.min 29 (lsize - 1);
            tx t v := exists a, buf_rel t.2 a /\ txn_inv lsize t.1 a v |}.
  - change NBUF with 30. lia.
  - intros [lg c] v L (a & R & Hi) HL. simpl in R, Hi. exists a. split; [done|]. destruct Hi as [I1 I2 I3 I4 I5 I6 I7 I8].
    split; simpl; auto. intros b. by rewrite HL, I3.
  - intros [lg c] v b (a & R & Hi) Hb Hsz. simpl in R, Hi. destruct (inv_read _ _ _ _ b Hi Hb Hsz) as (a' & Ea & Hi').
    destruct (bl_read _ _ _ _ R Ea) as (c' & Ec & R'). simpl. rewrite Ec. simpl. eexists. split; [done|]. split.
    + simpl. rewrite (bl_data c' a' b _ R' (refs_at _ _ _ _ b Hi' ltac:(set_solver))); [done|].
      simpl. apply bool_decide_true. set_solver.
    + exists a'. auto.
  - intros [lg c] v b (a & R & Hi) Hb. simpl in R, Hi. simpl.
    rewrite (bl_data c a b _ R (refs_at _ _ _ _ b Hi ltac:(set_solver))); [done|]. simpl. by apply bool_decide_true.
  - intros [lg c] v b d (a & R & Hi) Hb. simpl in R, Hi. exists (a_store b d a). split; [|by apply inv_store].
    simpl. eapply bl_store; [done|apply (refs_at _ _ _ _ b Hi); set_solver|]. simpl. by apply bool_decide_true.
  - intros [lg c] v b (a & R & Hi) Ho Hb Hsz. simpl in R, Hi. destruct (inv_log _ _ _ _ b Hi Ho Hb Hsz) as (lg' & a' & E & Hi').
    destruct (log_write_follows b lg c a lg' a' R E) as (c' & Ec & R'). simpl. rewrite Ec.
    eexists. split; [done|]. exists a'. auto.
  - intros [lg c] v b (a & R & Hi) Hb Hd. simpl in R, Hi. destruct (inv_relse _ _ _ _ b Hi Hb Hd) as (a' & Ea & Hi').
    destruct (bl_relse _ _ _ _ R Ea) as (c' & Ec & R'). simpl. rewrite Ec. simpl. eexists. split; [done|]. exists a'. auto.
Defined.
End impl.
