(* ===== verification/Fs.v ===== *)
(** * The file system: kernel/fs.c, kernel/fs.h, kernel/stat.h

    The code above the log, over any transaction interface ([TxnOps]).  A
    [struct inode *] into itable is its index; the routines that work on the
    content of one inode take and return its value, the ones that touch the
    table take the table.  The data copied by either_copyout/either_copyin
    goes through a callback of the caller, which says whether the copy
    succeeded and, for input, how many bytes arrived. *)

From S2P Require Import Prelude Riscv Cstring Sleeplock Block Log Txn.

(** ** fs.h *)
Definition ROOTINO : Z := 1.
Definition FSMAGIC : Z := 0x10203040.
Definition NDIRECT : Z := 12.
Definition NINDIRECT : Z := BSIZE / 4.
Definition MAXFILE : Z := NDIRECT + NINDIRECT.
Definition DINODE_SIZE : Z := 64.
Definition IPB : Z := BSIZE / DINODE_SIZE.
Definition BPB : Z := BSIZE * 8.
Definition DIRSIZ : Z := 14.
Definition DIRENT_SIZE : Z := 16.

(** stat.h *)
Definition T_DIR : Z := 1.
Definition T_FILE : Z := 2.
Definition T_DEVICE : Z := 3.

Record superblock := mkSb {
  sb_magic : Z; sb_size : Z; sb_nblocks : Z; sb_ninodes : Z;
  sb_nlog : Z; sb_logstart : Z; sb_inodestart : Z; sb_bmapstart : Z;
}.

Definition IBLOCK (i : Z) (sb : superblock) : Z := i / IPB + sb_inodestart sb.
Definition BBLOCK (b : Z) (sb : superblock) : Z := b / BPB + sb_bmapstart sb.

(** struct stat *)
Record stat := mkStat { st_dev : Z; st_ino : Z; st_type : Z; st_nlink : Z; st_size : Z }.

(** struct inode (file.h) *)
Record inode := mkInode {
  i_dev : Z; i_inum : Z; i_ref : Z; i_lock : sleeplock; i_valid : bool;
  i_type : Z; i_major : Z; i_minor : Z; i_nlink : Z; i_size : Z; i_addrs : list Z;
}.
Definition set_ref (ip : inode) (r : Z) : inode :=
  mkInode (i_dev ip) (i_inum ip) r (i_lock ip) (i_valid ip) (i_type ip) (i_major ip) (i_minor ip) (i_nlink ip) (i_size ip) (i_addrs ip).
Definition set_ilock (ip : inode) (lk : sleeplock) : inode :=
  mkInode (i_dev ip) (i_inum ip) (i_ref ip) lk (i_valid ip) (i_type ip) (i_major ip) (i_minor ip) (i_nlink ip) (i_size ip) (i_addrs ip).
Definition set_valid (ip : inode) (v : bool) : inode :=
  mkInode (i_dev ip) (i_inum ip) (i_ref ip) (i_lock ip) v (i_type ip) (i_major ip) (i_minor ip) (i_nlink ip) (i_size ip) (i_addrs ip).
Definition set_meta (ip : inode) (ty mj mn nl : Z) : inode :=
  mkInode (i_dev ip) (i_inum ip) (i_ref ip) (i_lock ip) (i_valid ip) ty mj mn nl (i_size ip) (i_addrs ip).
Definition set_nlink (ip : inode) (nl : Z) : inode := set_meta ip (i_type ip) (i_major ip) (i_minor ip) nl.
Definition set_type (ip : inode) (ty : Z) : inode := set_meta ip ty (i_major ip) (i_minor ip) (i_nlink ip).
Definition set_size (ip : inode) (n : Z) : inode :=
  mkInode (i_dev ip) (i_inum ip) (i_ref ip) (i_lock ip) (i_valid ip) (i_type ip) (i_major ip) (i_minor ip) (i_nlink ip) n (i_addrs ip).
Definition set_addrs (ip : inode) (a : list Z) : inode :=
  mkInode (i_dev ip) (i_inum ip) (i_ref ip) (i_lock ip) (i_valid ip) (i_type ip) (i_major ip) (i_minor ip) (i_nlink ip) (i_size ip) a.

(** ** Fields of a block *)
Definition getu32 (d : block) (off : Z) : Z := le_decode (take 4 (drop (Z.to_nat off) d)).
Definition getu16 (d : block) (off : Z) : Z := le_decode (take 2 (drop (Z.to_nat off) d)).
Definition get16 (d : block) (off : Z) : Z := s16 (getu16 d off).
Definition put16 (d : block) (off v : Z) : block := splice (Z.to_nat off) (le_encode 2 (u16 v)) d.

(** struct dinode at [off]: short type, major, minor, nlink; uint size;
    uint addrs[NDIRECT+1]. *)
Definition get_addrs (d : block) (off : Z) : list Z :=
  (fun i => getu32 d (off + 12 + 4 * i)) <$> seqZ 0 (NDIRECT + 1).
Definition put_addrs (d : block) (off : Z) (a : list Z) : block :=
  splice (Z.to_nat (off + 12)) (concat ((fun x => le_encode 4 (u32 x)) <$> a)) d.
Definition dip (inum : Z) : Z := (inum mod IPB) * DINODE_SIZE.

Section fs.
Context {T : Type} `{TxnOps T}.
Context (sb : superblock).

(** ** Blocks *)
Definition bzero (bno : Z) (t : T) : res T :=
  let* t := tread bno t in
  let t := tstore bno (replicate (Z.to_nat BSIZE) 0) t in
  let* t := tlog bno t in
  trelse bno t.

(** The bit of block [bi] in a bitmap block. *)
Definition bit_clear (d : block) (bi : Z) : bool :=
  Z.land (nthZ d (bi / 8)) (Z.shiftl 1 (bi mod 8)) =? 0.
Definition bit_set (d : block) (bi : Z) : block :=
  setZ d (bi / 8) (Z.lor (nthZ d (bi / 8)) (Z.shiftl 1 (bi mod 8))).
Definition bit_unset (d : block) (bi : Z) : block :=
  setZ d (bi / 8) (Z.land (nthZ d (bi / 8)) (Z.lnot (Z.shiftl 1 (bi mod 8)))).

(** for(bi = 0; bi < BPB && b + bi < sb.size; bi++), as far as the first
    clear bit *)
Fixpoint balloc_scan (k : nat) (bi : Z) (d : block) : option Z :=
  match k with
  | O => None
  | S k' => if bit_clear d bi then Some bi else balloc_scan k' (bi + 1) d
  end.

Fixpoint balloc_loop (k : nat) (b : Z) (t : T) : res (Z * T) :=
  if b <? sb_size sb then
    match k with
    | O => Block
    | S k' =>
        let bno := BBLOCK b sb in
        let* t := tread bno t in
        match balloc_scan (Z.to_nat (Z.min BPB (sb_size sb - b))) 0 (tdata bno t) with
        | Some bi =>
            let t := tstore bno (bit_set (tdata bno t) bi) t in
            let* t := tlog bno t in
            let* t := trelse bno t in
            let* t := bzero (b + bi) t in
            Ok (b + bi, t)
        | None =>
            let* t := trelse bno t in
            balloc_loop k' (b + BPB) t
        end
    end
  else Ok (0, t).
Definition balloc (t : T) : res (Z * T) :=
  balloc_loop (Z.to_nat (sb_size sb / BPB + 1)) 0 t.

Definition bfree (b : Z) (t : T) : res T :=
  let bno := BBLOCK b sb in
  let* t := tread bno t in
  let bi := b mod BPB in
  if bit_clear (tdata bno t) bi then Panic "freeing free block"
  else
    let t := tstore bno (bit_unset (tdata bno t) bi) t in
    let* t := tlog bno t in
    trelse bno t.

(** ** Inodes: one in-memory inode and the disk *)

(** iupdate's assignments to the dinode *)
Definition dinode_put (d : block) (ip : inode) : block :=
  let o := dip (i_inum ip) in
  let d := put16 d o (i_type ip) in
  let d := put16 d (o + 2) (i_major ip) in
  let d := put16 d (o + 4) (i_minor ip) in
  let d := put16 d (o + 6) (i_nlink ip) in
  let d := put32 d (o + 8) (i_size ip) in
  put_addrs d o (i_addrs ip).

Definition iupdate (ip : inode) (t : T) : res T :=
  let bno := IBLOCK (i_inum ip) sb in
  let* t := tread bno t in
  let t := tstore bno (dinode_put (tdata bno t) ip) t in
  let* t := tlog bno t in
  trelse bno t.

(** The copy from the dinode to the locked inode in ilock. *)
Definition iload (ip : inode) (d : block) : inode :=
  let o := dip (i_inum ip) in
  set_valid (set_addrs (set_size (set_meta ip (get16 d o) (get16 d (o + 2)) (get16 d (o + 4)) (get16 d (o + 6)))
    (getu32 d (o + 8))) (get_addrs d o)) true.

(** ** Inode content *)

(** bmap's work on entry [bn] of the indirect block *)
Definition bmap_entry (ind bn : Z) (t : T) : res (Z * T) :=
  let* t := tread ind t in
  let addr := getu32 (tdata ind t) (4 * bn) in
  let* (addr, t) :=
    (if addr =? 0 then
       let* (addr, t) := balloc t in
       if negb (addr =? 0) then
         let t := tstore ind (put32 (tdata ind t) (4 * bn) addr) t in
         let* t := tlog ind t in Ok (addr, t)
       else Ok (addr, t)
     else Ok (addr, t)) in
  let* t := trelse ind t in
  Ok (addr, t).

Definition bmap (ip : inode) (bn : Z) (t : T) : res (Z * inode * T) :=
  if bn <? NDIRECT then
    let addr := nthZ (i_addrs ip) bn in
    if addr =? 0 then
      let* (addr, t) := balloc t in
      if addr =? 0 then Ok (0, ip, t)
      else Ok (addr, set_addrs ip (setZ (i_addrs ip) bn addr), t)
    else Ok (addr, ip, t)
  else
    let bn := bn - NDIRECT in
    if bn <? NINDIRECT then
      let addr := nthZ (i_addrs ip) NDIRECT in
      if addr =? 0 then
        let* (addr, t) := balloc t in
        if addr =? 0 then Ok (0, ip, t)
        else
          let ip := set_addrs ip (setZ (i_addrs ip) NDIRECT addr) in
          let* (addr, t) := bmap_entry addr bn t in Ok (addr, ip, t)
      else
        let* (addr, t) := bmap_entry addr bn t in Ok (addr, ip, t)
    else Panic "bmap: out of range".

(** for(i = 0; i < NDIRECT; i++) *)
Fixpoint itrunc_direct (k : nat) (i : Z) (ip : inode) (t : T) : res (inode * T) :=
  match k with
  | O => Ok (ip, t)
  | S k' =>
      let a := nthZ (i_addrs ip) i in
      if negb (a =? 0) then
        let* t := bfree a t in
        itrunc_direct k' (i + 1) (set_addrs ip (setZ (i_addrs ip) i 0)) t
      else itrunc_direct k' (i + 1) ip t
  end.

(** for(j = 0; j < NINDIRECT; j++), reading the locked indirect block *)
Fixpoint itrunc_indirect (k : nat) (j : Z) (ind : Z) (t : T) : res T :=
  match k with
  | O => Ok t
  | S k' =>
      let a := getu32 (tdata ind t) (4 * j) in
      let* t := (if negb (a =? 0) then bfree a t else Ok t) in
      itrunc_indirect k' (j + 1) ind t
  end.

Definition itrunc (ip : inode) (t : T) : res (inode * T) :=
  let* (ip, t) := itrunc_direct (Z.to_nat NDIRECT) 0 ip t in
  let ind := nthZ (i_addrs ip) NDIRECT in
  let* (ip, t) :=
    (if negb (ind =? 0) then
       let* t := tread ind t in
       let* t := itrunc_indirect (Z.to_nat NINDIRECT) 0 ind t in
       let* t := trelse ind t in
       let* t := bfree ind t in
       Ok (set_addrs ip (setZ (i_addrs ip) NDIRECT 0), t)
     else Ok (ip, t)) in
  let ip := set_size ip 0 in
  let* t := iupdate ip t in
  Ok (ip, t).

Definition stati (ip : inode) : stat :=
  mkStat (i_dev ip) (i_inum ip) (i_type ip) (i_nlink ip) (i_size ip).

(** readi's for loop; [cp u dst bytes] is either_copyout. *)
Fixpoint readi_loop {U} (fuel : nat) (cp : U -> Z -> list Z -> res (U * bool))
    (ip : inode) (dst off n tot : Z) (u : U) (t : T) : res (Z * inode * U * T) :=
  if tot <? n then
    match fuel with
    | O => Block
    | S fuel' =>
        let* (addr, ip, t) := bmap ip (off / BSIZE) t in
        if addr =? 0 then Ok (tot, ip, u, t)
        else
          let* t := tread addr t in
          let m := Z.min (n - tot) (BSIZE - off mod BSIZE) in
          let* (u, ok) := cp u dst (take (Z.to_nat m) (drop (Z.to_nat (off mod BSIZE)) (tdata addr t))) in
          let* t := trelse addr t in
          if ok : bool then readi_loop fuel' cp ip (dst + m) (off + m) n (tot + m) u t
          else Ok (-1, ip, u, t)
    end
  else Ok (tot, ip, u, t).

Definition readi {U} (cp : U -> Z -> list Z -> res (U * bool))
    (ip : inode) (dst off n : Z) (u : U) (t : T) : res (Z * inode * U * T) :=
  if (i_size ip <? off) || (u32 (off + n) <? off) then Ok (0, ip, u, t)
  else
    let n := if i_size ip <? u32 (off + n) then i_size ip - off else n in
    let* (tot, ip, u, t) := readi_loop (Z.to_nat (n / BSIZE + 2)) cp ip dst off n 0 u t in
    Ok (s32 tot, ip, u, t).

(** writei's for loop; [ci src m] is either_copyin: the bytes that reached the
    buffer, all [m] of them when it succeeds. *)
Fixpoint writei_loop (fuel : nat) (ci : Z -> Z -> res (list Z * bool))
    (ip : inode) (src off n tot : Z) (t : T) : res (Z * Z * inode * T) :=
  if tot <? n then
    match fuel with
    | O => Block
    | S fuel' =>
        let* (addr, ip, t) := bmap ip (off / BSIZE) t in
        if addr =? 0 then Ok (tot, off, ip, t)
        else
          let* t := tread addr t in
          let m := Z.min (n - tot) (BSIZE - off mod BSIZE) in
          let* (bytes, ok) := ci src m in
          let t := tstore addr (splice (Z.to_nat (off mod BSIZE)) bytes (tdata addr t)) t in
          if ok : bool then
            let* t := tlog addr t in
            let* t := trelse addr t in
            writei_loop fuel' ci ip (src + m) (off + m) n (tot + m) t
          else
            let* t := trelse addr t in
            Ok (tot, off, ip, t)
    end
  else Ok (tot, off, ip, t).

Definition writei (ci : Z -> Z -> res (list Z * bool))
    (ip : inode) (src off n : Z) (t : T) : res (Z * inode * T) :=
  if (i_size ip <? off) || (u32 (off + n) <? off) then Ok (-1, ip, t)
  else if MAXFILE * BSIZE <? u32 (off + n) then Ok (-1, ip, t)
  else
    let* (tot, off, ip, t) := writei_loop (Z.to_nat (n / BSIZE + 2)) ci ip src off n 0 t in
    let ip := if i_size ip <? off then set_size ip off else ip in
    let* t := iupdate ip t in
    Ok (s32 tot, ip, t).

(** ** Directories *)

(** either_copyout and either_copyin on a local variable of the kernel: the
    address is relative to the variable. *)
Definition local_out (u : list Z) (dst : Z) (bytes : list Z) : res (list Z * bool) :=
  Ok (splice (Z.to_nat dst) bytes u, true).
Definition local_in (u : list Z) (src m : Z) : res (list Z * bool) :=
  Ok (take (Z.to_nat m) (drop (Z.to_nat src) u), true).

(** struct dirent *)
Definition de_inum (de : list Z) : Z := getu16 de 0.
Definition de_name (de : list Z) : list Z := drop 2 de.

Definition namecmp (s t : list Z) : Z := strncmp (arr s) (arr t) DIRSIZ.

(** readi(dp, 0, (uint64)&de, off, sizeof(de)) != sizeof(de) panics. *)
Definition read_dirent (msg : string) (dp : inode) (off : Z) (de : list Z) (t : T) : res (list Z * inode * T) :=
  let* (r, dp, de, t) := readi local_out dp 0 off DIRENT_SIZE de t in
  if negb (r =? DIRENT_SIZE) then Panic msg else Ok (de, dp, t).

(** The loop of dirlookup: offset and inum of the entry found. *)
Fixpoint dirlookup_loop (fuel : nat) (dp : inode) (name : list Z) (off : Z) (de : list Z) (t : T)
    : res (option (Z * Z) * inode * T) :=
  if off <? i_size dp then
    match fuel with
    | O => Block
    | S fuel' =>
        let* (de, dp, t) := read_dirent "dirlookup read" dp off de t in
        if de_inum de =? 0 then dirlookup_loop fuel' dp name (off + DIRENT_SIZE) de t
        else if namecmp name (de_name de) =? 0 then Ok (Some (off, de_inum de), dp, t)
        else dirlookup_loop fuel' dp name (off + DIRENT_SIZE) de t
    end
  else Ok (None, dp, t).

(** The second loop of dirlink: where to write the new entry. *)
Fixpoint dirlink_loop (fuel : nat) (dp : inode) (off : Z) (de : list Z) (t : T)
    : res (Z * list Z * inode * T) :=
  if off <? i_size dp then
    match fuel with
    | O => Block
    | S fuel' =>
        let* (de, dp, t) := read_dirent "dirlink read" dp off de t in
        if de_inum de =? 0 then Ok (off, de, dp, t)
        else dirlink_loop fuel' dp (off + DIRENT_SIZE) de t
    end
  else Ok (off, de, dp, t).

Definition dir_fuel (dp : inode) : nat := Z.to_nat (i_size dp / DIRENT_SIZE + 1).

Definition dirent0 : list Z := replicate (Z.to_nat DIRENT_SIZE) 0.

(** strncpy(de.name, name, DIRSIZ); de.inum = inum; *)
Definition fill_dirent (de name : list Z) (inum : Z) : list Z :=
  splice 0 (le_encode 2 (u16 inum)) (splice 2 (strncpy (de_name de) (arr name) DIRSIZ) de).

(** ** The inode table *)
Record fs := mkFs { fs_t : T; fs_itable : list inode }.

Definition inode0 : inode := mkInode 0 0 0 initsleeplock false 0 0 0 0 0 (replicate 13 0).
Definition getip (s : fs) (i : nat) : inode := default inode0 (fs_itable s !! i).
Definition setip (s : fs) (i : nat) (ip : inode) : fs := mkFs (fs_t s) (<[i := ip]> (fs_itable s)).
Definition set_t (s : fs) (t : T) : fs := mkFs t (fs_itable s).

Context (me : Z).

(** itable is static: all zero before iinit. *)
Definition iinit (s : fs) : fs :=
  mkFs (fs_t s) ((fun ip => set_ilock ip initsleeplock) <$> fs_itable s).

Definition iget (dev inum : Z) (s : fs) : res (nat * fs) :=
  match find_index (fun ip => (0 <? i_ref ip) && (i_dev ip =? dev) && (i_inum ip =? inum)) (fs_itable s) with
  | Some i => Ok (i, setip s i (set_ref (getip s i) (i_ref (getip s i) + 1)))
  | None =>
      match find_index (fun ip => i_ref ip =? 0) (fs_itable s) with
      | None => Panic "iget: no inodes"
      | Some i =>
          let ip := getip s i in
          Ok (i, setip s i (mkInode dev inum 1 (i_lock ip) false (i_type ip) (i_major ip) (i_minor ip)
                              (i_nlink ip) (i_size ip) (i_addrs ip)))
      end
  end.

Fixpoint ialloc_loop (fuel : nat) (dev inum type : Z) (s : fs) : res (option nat * fs) :=
  if inum <? sb_ninodes sb then
    match fuel with
    | O => Block
    | S fuel' =>
        let bno := IBLOCK inum sb in
        let* t := tread bno (fs_t s) in
        let d := tdata bno t in
        if get16 d (dip inum) =? 0 then
          let d := splice (Z.to_nat (dip inum)) (replicate (Z.to_nat DINODE_SIZE) 0) d in
          let d := put16 d (dip inum) type in
          let t := tstore bno d t in
          let* t := tlog bno t in
          let* t := trelse bno t in
          let* (i, s) := iget dev inum (set_t s t) in
          Ok (Some i, s)
        else
          let* t := trelse bno t in
          ialloc_loop fuel' dev (inum + 1) type (set_t s t)
    end
  else Ok (None, s).
Definition ialloc (dev type : Z) (s : fs) : res (option nat * fs) :=
  ialloc_loop (Z.to_nat (sb_ninodes sb)) dev 1 type s.

Definition idup (i : nat) (s : fs) : fs := setip s i (set_ref (getip s i) (i_ref (getip s i) + 1)).

Definition ilock (ptr : option nat) (s : fs) : res fs :=
  match ptr with
  | None => Panic "ilock"
  | Some i =>
      let ip := getip s i in
      if i_ref ip <? 1 then Panic "ilock"
      else
        let* lk := acquiresleep me (i_lock ip) in
        let ip := set_ilock ip lk in
        if i_valid ip then Ok (setip s i ip)
        else
          let bno := IBLOCK (i_inum ip) sb in
          let* t := tread bno (fs_t s) in
          let ip := iload ip (tdata bno t) in
          let* t := trelse bno t in
          if i_type ip =? 0 then Panic "ilock: no type" else Ok (setip (set_t s t) i ip)
  end.

Definition iunlock (ptr : option nat) (s : fs) : res fs :=
  match ptr with
  | None => Panic "iunlock"
  | Some i =>
      let ip := getip s i in
      if negb (holdingsleep me (i_lock ip)) || (i_ref ip <? 1) then Panic "iunlock"
      else Ok (setip s i (set_ilock ip (releasesleep (i_lock ip))))
  end.

Definition iput (i : nat) (s : fs) : res fs :=
  let ip := getip s i in
  let* s :=
    (if (i_ref ip =? 1) && i_valid ip && (i_nlink ip =? 0) then
       let* lk := acquiresleep me (i_lock ip) in
       let ip := set_ilock ip lk in
       let* (ip, t) := itrunc ip (fs_t s) in
       let ip := set_type ip 0 in
       let* t := iupdate ip t in
       let ip := set_valid ip false in
       let ip := set_ilock ip (releasesleep (i_lock ip)) in
       Ok (setip (set_t s t) i ip)
     else Ok s) in
  let ip := getip s i in
  Ok (setip s i (set_ref ip (i_ref ip - 1))).

Definition iunlockput (i : nat) (s : fs) : res fs :=
  let* s := iunlock (Some i) s in iput i s.

Definition dirlookup (i : nat) (name : list Z) (s : fs) : res (option (nat * Z) * fs) :=
  let dp := getip s i in
  if negb (i_type dp =? T_DIR) then Panic "dirlookup not DIR"
  else
    let* (r, dp, t) := dirlookup_loop (dir_fuel dp) dp name 0 dirent0 (fs_t s) in
    let s := setip (set_t s t) i dp in
    match r with
    | None => Ok (None, s)
    | Some (off, inum) => let* (j, s) := iget (i_dev dp) inum s in Ok (Some (j, off), s)
    end.

Definition dirlink (i : nat) (name : list Z) (inum : Z) (s : fs) : res (Z * fs) :=
  let* (r, s) := dirlookup i name s in
  match r with
  | Some (j, _) => let* s := iput j s in Ok (-1, s)
  | None =>
      let dp := getip s i in
      let* (off, de, dp, t) := dirlink_loop (dir_fuel dp) dp 0 dirent0 (fs_t s) in
      let de := fill_dirent de name inum in
      let* (r, dp, t) := writei (local_in de) dp 0 off DIRENT_SIZE t in
      let s := setip (set_t s t) i dp in
      if negb (r =? DIRENT_SIZE) then Ok (-1, s) else Ok (0, s)
  end.

(** ** Paths: a C string is the list of its bytes; its end reads as NUL. *)
Definition slash : Z := 47.

Fixpoint skip_slashes (path : list Z) : list Z :=
  match path with
  | c :: path' => if c =? slash then skip_slashes path' else path
  | [] => []
  end.
Fixpoint span_elem (path : list Z) : list Z * list Z :=
  match path with
  | c :: path' =>
      if (c =? slash) || (c =? 0) then ([], path)
      else let '(e, rest) := span_elem path' in (c :: e, rest)
  | [] => ([], [])
  end.
Definition at_end (path : list Z) : bool := nthZ path 0 =? 0.

Definition skipelem (path name : list Z) : option (list Z * list Z) :=
  let path := skip_slashes path in
  if at_end path then None
  else
    let '(elem, path) := span_elem path in
    let name := if DIRSIZ <=? Z.of_nat (length elem)
                then splice 0 (take (Z.to_nat DIRSIZ) elem) name
                else splice 0 (elem ++ [0]) name in
    Some (skip_slashes path, name).

Fixpoint namex_loop (fuel : nat) (path : list Z) (nameiparent : bool) (name : list Z) (i : nat) (s : fs)
    : res (option nat * list Z * fs) :=
  match skipelem path name with
  | None =>
      if nameiparent then let* s := iput i s in Ok (None, name, s) else Ok (Some i, name, s)
  | Some (path, name) =>
      match fuel with
      | O => Block
      | S fuel' =>
          let* s := ilock (Some i) s in
          if negb (i_type (getip s i) =? T_DIR) then
            let* s := iunlockput i s in Ok (None, name, s)
          else if nameiparent && at_end path then
            let* s := iunlock (Some i) s in Ok (Some i, name, s)
          else
            let* (next, s) := dirlookup i name s in
            let* s := iunlockput i s in
            match next with
            | None => Ok (None, name, s)
            | Some (next, _) => namex_loop fuel' path nameiparent name next s
            end
      end
  end.

(** [cwd]: myproc()->cwd *)
Definition namex (cwd : nat) (path : list Z) (nameiparent : bool) (name : list Z) (s : fs)
    : res (option nat * list Z * fs) :=
  let* (i, s) := (if nthZ path 0 =? slash then iget ROOTDEV ROOTINO s else Ok (cwd, idup cwd s)) in
  namex_loop (length path) path nameiparent name i s.

Definition namei (cwd : nat) (path : list Z) (s : fs) : res (option nat * fs) :=
  let* (r, _, s) := namex cwd path false (replicate (Z.to_nat DIRSIZ) 0) s in Ok (r, s).
Definition nameiparent (cwd : nat) (path name : list Z) (s : fs) : res (option nat * list Z * fs) :=
  namex cwd path true name s.

End fs.
Arguments fs : clear implicits.

(** ** Start: the super block, before there is a log *)
Section init.
Context {C : Type} `{BufOps C}.

Definition readsb (c : C) : res (superblock * C) :=
  let* c := buf_read 1 c in
  let d := buf_data 1 c in
  let* c := buf_relse 1 c in
  Ok (mkSb (getu32 d 0) (getu32 d 4) (getu32 d 8) (getu32 d 12)
           (getu32 d 16) (getu32 d 20) (getu32 d 24) (getu32 d 28), c).

Definition fsinit (dev : Z) (lg : log) (c : C) : res (superblock * log * C) :=
  let* (sb, c) := readsb c in
  if negb (sb_magic sb =? FSMAGIC) then Panic "invalid file system"
  else
    let* (lg, c) := initlog dev (sb_logstart sb) (sb_nlog sb) lg c in
    Ok (sb, lg, c).
End init.
