(* ===== verification/FsBlocks.v ===== *)
(** * Block allocation: correctness of balloc and bfree

    [used L b] reads the free bitmap of a disk [L].  balloc returns a block
    that was free, zeroed, and changes no other bit and no block but that one
    and a bitmap block; it fails only when every block is used.  The log
    space it needs is accounted for against a set [R] of blocks reserved in
    advance (here the bitmap). *)

From S2P Require Import Prelude Riscv Block Log Txn Fs.

(** The layout mkfs writes: boot and super block, log, inodes, bitmap, data. *)
Definition datastart (sb : superblock) : Z := sb_bmapstart sb + sb_size sb / BPB + 1.
Record sb_ok (sb : superblock) : Prop := {
  so_inodes : 2 <= sb_inodestart sb;
  so_ninodes : 0 <= sb_ninodes sb;
  so_bmap : sb_inodestart sb + sb_ninodes sb / IPB < sb_bmapstart sb;
  so_size : datastart sb <= sb_size sb < 2 ^ 31;
}.

Definition is_bmap (sb : superblock) (b : Z) : Prop := sb_bmapstart sb <= b < datastart sb.
Definition used (sb : superblock) (L : Z -> block) (b : Z) : bool :=
  negb (bit_clear (L (BBLOCK b sb)) (b mod BPB)).
Definition disk_ok (L : Z -> block) : Prop := forall b, is_block (L b) /\ Forall is_byte (L b).
Definition meta_used (sb : superblock) (L : Z -> block) : Prop :=
  forall b, 0 <= b < datastart sb -> used sb L b = true.

Lemma sb_pos sb : sb_ok sb -> 3 <= sb_bmapstart sb < datastart sb /\ 0 < sb_size sb.
Proof.
  intros [H1 H2 H3 H4]. unfold datastart in *. change BPB with 8192 in *. change IPB with 16 in *. zsolve.
Qed.

(** ** Bits *)
Lemma bit_clear_testbit d bi : bit_clear d bi = negb (Z.testbit (nthZ d (bi / 8)) (bi mod 8)).
Proof.
  unfold bit_clear. set (x := nthZ d (bi / 8)). pose proof (Z.mod_pos_bound bi 8 ltac:(lia)) as Hm.
  set (m := bi mod 8) in *. rewrite Z.shiftl_1_l.
  destruct (Z.testbit x m) eqn:E; simpl.
  - apply Z.eqb_neq. intros H0. apply (f_equal (fun y => Z.testbit y m)) in H0.
    rewrite Z.land_spec, E, Z.pow2_bits_true, Z.bits_0 in H0 by lia. done.
  - apply Z.eqb_eq. apply Z.bits_inj'. intros n Hn. rewrite Z.land_spec, Z.bits_0.
    destruct (decide (n = m)) as [->|]; [by rewrite E|].
    rewrite Z.pow2_bits_false by lia. by rewrite andb_false_r.
Qed.

Lemma bit_split bi bj : 0 <= bi -> 0 <= bj -> bi / 8 = bj / 8 -> bi mod 8 = bj mod 8 -> bi = bj.
Proof. intros. rewrite (Z.div_mod bi 8), (Z.div_mod bj 8) by lia. congruence. Qed.

(** Changing the byte of bit [bi] to one that differs only in that bit. *)
Lemma bit_clear_setZ d bi bj x v :
  0 <= bi < 8 * Z.of_nat (length d) -> 0 <= bj ->
  (forall m, 0 <= m -> Z.testbit x m = if decide (m = bi mod 8) then v else Z.testbit (nthZ d (bi / 8)) m) ->
  bit_clear (setZ d (bi / 8) x) bj = if decide (bj = bi) then negb v else bit_clear d bj.
Proof.
  intros Hi Hj Hx. rewrite !bit_clear_testbit.
  assert (bi / 8 < Z.of_nat (length d)) by (apply Z.div_lt_upper_bound; lia).
  pose proof (Z.div_pos bi 8 ltac:(lia) ltac:(lia)). pose proof (Z.div_pos bj 8 ltac:(lia) ltac:(lia)).
  pose proof (Z.mod_pos_bound bj 8 ltac:(lia)).
  destruct (decide (bi / 8 = bj / 8)) as [Hq|Hq].
  - rewrite <- Hq, nthZ_setZ_eq, Hx by lia. destruct (decide (bj mod 8 = bi mod 8)) as [Hm|Hm].
    + rewrite decide_True; [done|]. apply bit_split; lia || congruence.
    + by rewrite decide_False by congruence.
  - rewrite nthZ_setZ_ne by lia. by rewrite decide_False by congruence.
Qed.

Lemma bit_clear_set d bi bj :
  0 <= bi < 8 * Z.of_nat (length d) -> 0 <= bj ->
  bit_clear (bit_set d bi) bj = if decide (bj = bi) then false else bit_clear d bj.
Proof.
  intros Hi Hj. unfold bit_set. apply (bit_clear_setZ d bi bj _ true); auto.
  intros m Hm. pose proof (Z.mod_pos_bound bi 8 ltac:(lia)).
  rewrite Z.lor_spec, Z.shiftl_1_l. destruct (decide _) as [->|].
  - by rewrite Z.pow2_bits_true, orb_true_r by lia.
  - by rewrite Z.pow2_bits_false, orb_false_r by lia.
Qed.

Lemma bit_clear_unset d bi bj :
  0 <= bi < 8 * Z.of_nat (length d) -> 0 <= bj ->
  bit_clear (bit_unset d bi) bj = if decide (bj = bi) then true else bit_clear d bj.
Proof.
  intros Hi Hj. unfold bit_unset. apply (bit_clear_setZ d bi bj _ false); auto.
  intros m Hm. pose proof (Z.mod_pos_bound bi 8 ltac:(lia)).
  rewrite Z.land_spec, Z.lnot_spec, Z.shiftl_1_l by lia. destruct (decide _) as [->|].
  - by rewrite Z.pow2_bits_true, andb_false_r by lia.
  - by rewrite Z.pow2_bits_false, andb_true_r by lia.
Qed.

(** A byte changed bitwise with a byte mask is a byte. *)
Lemma testbit_byte x : is_byte x <-> 0 <= x /\ forall m, 8 <= m -> Z.testbit x m = false.
Proof.
  unfold is_byte. split.
  - intros Hx. split; [lia|]. intros m Hm. destruct (decide (x = 0)) as [->|]; [apply Z.bits_0|].
    apply Z.bits_above_log2; [lia|]. assert (Z.log2 x < 8) by (apply Z.log2_lt_pow2; lia). lia.
  - intros [H0 Hm]. destruct (Z.ltb_spec x 256); [lia|]. exfalso.
    assert (8 <= Z.log2 x) by (apply Z.log2_le_pow2; lia).
    specialize (Hm (Z.log2 x) ltac:(lia)). rewrite Z.bit_log2 in Hm by lia. done.
Qed.

Lemma Forall_setZ (P : Z -> Prop) d i x : Forall P d -> P x -> Forall P (setZ d i x).
Proof. intros. by apply Forall_insert. Qed.

Lemma nthZ_byte d i : Forall is_byte d -> is_byte (nthZ d i).
Proof.
  intros H. unfold nthZ. destruct (d !! Z.to_nat i) eqn:E; simpl; [|unfold is_byte; lia].
  by eapply Forall_lookup in E.
Qed.

Lemma bit_set_byte d bi : 0 <= bi -> Forall is_byte d -> Forall is_byte (bit_set d bi).
Proof.
  intros Hb Hd. apply Forall_setZ; [done|]. pose proof (Z.mod_pos_bound bi 8 ltac:(lia)).
  pose proof (proj1 (testbit_byte _) (nthZ_byte d (bi / 8) Hd)) as [H0 H1]. apply testbit_byte. split.
  - apply Z.lor_nonneg. split; [done|]. rewrite Z.shiftl_1_l. lia.
  - intros m Hm. rewrite Z.lor_spec, H1, Z.shiftl_1_l, Z.pow2_bits_false by lia. done.
Qed.

Lemma bit_unset_byte d bi : Forall is_byte d -> Forall is_byte (bit_unset d bi).
Proof.
  intros Hd. apply Forall_setZ; [done|].
  pose proof (proj1 (testbit_byte _) (nthZ_byte d (bi / 8) Hd)) as [H0 H1]. apply testbit_byte. split.
  - apply Z.land_nonneg. by left.
  - intros m Hm. by rewrite Z.land_spec, H1.
Qed.

(** ** The scan of one bitmap block *)
Lemma balloc_scan_Some k bi d r :
  balloc_scan k bi d = Some r -> bi <= r < bi + Z.of_nat k /\ bit_clear d r = true.
Proof.
  revert bi. induction k as [|k IH]; intros bi E; cbn [balloc_scan] in E; [done|].
  destruct (bit_clear d bi) eqn:Hb; [injection E as <-; split; [lia|done]|].
  apply IH in E as [? ?]. split; [lia|done].
Qed.

Lemma balloc_scan_None k bi d :
  balloc_scan k bi d = None -> forall j, bi <= j < bi + Z.of_nat k -> bit_clear d j = false.
Proof.
  revert bi. induction k as [|k IH]; intros bi E j Hj; cbn [balloc_scan] in E; [lia|].
  destruct (bit_clear d bi) eqn:Hb; [done|].
  destruct (decide (j = bi)) as [->|]; [done|]. apply (IH (bi + 1)); [done|lia].
Qed.

(** ** Transaction steps

    [stx t L B P]: inside a transaction that sees disk [L], holds the buffers
    [B], none of them modified but unlogged, and has logged [P].  [stxo false]
    is the same outside a transaction, where blocks can only be read. *)
Section blocks.
Context {T : Type} `{TO : TxnOps T} `{TL : !TxnLaws T} (sb : superblock).

Definition stxo (o : bool) (t : T) (L : Z -> block) (B P : gset Z) : Prop := tx t (mkV L B ∅ P o).
Abbreviation stx := (stxo true).

(** The log has room for [k] blocks outside [R]. *)
Definition room (R P : gset Z) (k : Z) : Prop := Z.of_nat (size (P ∪ R)) + k < tcap.

Lemma room_log R P k : 0 <= k -> room R P k -> Z.of_nat (size P) < tcap.
Proof.
  unfold room. intros Hk Hr. assert (size P <= size (P ∪ R))%nat by (apply subseteq_size; set_solver). lia.
Qed.

Lemma size_add (b : Z) (X : gset Z) : (size ({[b]} ∪ X) <= 1 + size X)%nat.
Proof. rewrite size_union_alt, size_singleton. assert (size (X ∖ {[b]}) <= size X)%nat by (apply subseteq_size; set_solver). lia. Qed.

Lemma room_cache R P B k : 0 <= k -> (size B <= 1)%nat -> room R P k -> Z.of_nat (size (P ∪ B)) < NBUF.
Proof.
  intros Hk Hh Hr. pose proof (room_log R P k Hk Hr). pose proof tcap_small.
  rewrite size_union_alt. assert (size (B ∖ P) <= size B)%nat by (apply subseteq_size; set_solver). lia.
Qed.

(** bread ... brelse *)
Lemma stx_read o t L B P b :
  stxo o t L B P -> b ∉ B -> Z.of_nat (size (P ∪ B)) < NBUF ->
  exists t', tread b t = Ok t' /\ tdata b t' = L b /\ stxo o t' L ({[b]} ∪ B) P.
Proof. intros Ht Hb Hn. by apply (tx_read t (mkV L B ∅ P o) b). Qed.

Lemma stx_relse o t L B P b :
  stxo o t L ({[b]} ∪ B) P -> b ∉ B -> exists t', trelse b t = Ok t' /\ stxo o t' L B P.
Proof.
  intros Ht Hb. destruct (tx_relse t _ b Ht) as (t' & E & Ht'); simpl; [set_solver..|].
  exists t'. split; [done|]. simpl in Ht'. by replace (({[b]} ∪ B) ∖ {[b]}) with B in Ht' by set_solver.
Qed.

(** store, log_write *)
Lemma stx_update t L B P b d :
  stx t L B P -> b ∈ B -> Z.of_nat (size P) < tcap ->
  exists t', tlog b (tstore b d t) = Ok t' /\ stx t' (fupd L b d) B ({[b]} ∪ P).
Proof.
  intros Ht Hb Hs. pose proof (tx_store t _ b d Ht Hb) as Ht1. simpl in Ht1.
  destruct (tx_log _ _ b Ht1) as (t' & E & Ht'); [done..|]. exists t'. split; [done|]. simpl in Ht'.
  by replace (({[b]} ∪ ∅) ∖ {[b]}) with (∅ : gset Z) in Ht' by set_solver.
Qed.

(** bread; modify; log_write; brelse *)
Lemma stx_modify t L B P b :
  stx t L B P -> b ∉ B -> Z.of_nat (size (P ∪ B)) < NBUF -> Z.of_nat (size P) < tcap ->
  exists t1, tread b t = Ok t1 /\ tdata b t1 = L b /\
    forall d, exists t2 t3, tlog b (tstore b d t1) = Ok t2 /\ trelse b t2 = Ok t3 /\
      stx t3 (fupd L b d) B ({[b]} ∪ P).
Proof.
  intros Ht Hb Hn Hs. destruct (stx_read true t L B P b) as (t1 & E1 & D1 & Ht1); [done..|].
  exists t1. do 2 (split; [done|]). intros d.
  destruct (stx_update t1 L ({[b]} ∪ B) P b d) as (t2 & E2 & Ht2); [done|set_solver|done|].
  destruct (stx_relse true t2 (fupd L b d) B ({[b]} ∪ P) b) as (t3 & E3 & Ht3); [done..|]. eauto.
Qed.

Lemma fupd_eq L b d : fupd L b d b = d.
Proof. unfold fupd. by rewrite decide_True. Qed.
Lemma fupd_ne L b d x : x <> b -> fupd L b d x = L x.
Proof. intros. unfold fupd. by rewrite decide_False. Qed.

Lemma disk_ok_fupd L b d : disk_ok L -> is_block d -> Forall is_byte d -> disk_ok (fupd L b d).
Proof. intros HL ? ? x. unfold fupd. by destruct (decide _). Qed.

Lemma zero_block_ok : is_block zero_block /\ Forall is_byte zero_block.
Proof. split; [done|]. apply Forall_replicate. unfold is_byte. lia. Qed.

Lemma bzero_spec t L B P b :
  stx t L B P -> b ∉ B -> Z.of_nat (size (P ∪ B)) < NBUF -> Z.of_nat (size P) < tcap ->
  exists t', bzero b t = Ok t' /\ stx t' (fupd L b zero_block) B ({[b]} ∪ P).
Proof.
  intros Ht Hb Hn Hs. destruct (stx_modify t L B P b) as (t1 & E1 & _ & H1); [done..|].
  unfold bzero. fold zero_block. rewrite E1. cbn [rbind]. destruct (H1 zero_block) as (t2 & t3 & E2 & E3 & H3).
  rewrite E2. cbn [rbind]. rewrite E3. eauto.
Qed.

(** ** balloc *)

(** What a successful allocation of [r] does to the disk. *)
Record alloc_step (L : Z -> block) (r : Z) (L' : Z -> block) : Prop := {
  al_range : datastart sb <= r < sb_size sb;
  al_free : used sb L r = false;
  al_used : forall b, 0 <= b < sb_size sb -> used sb L' b = if decide (b = r) then true else used sb L b;
  al_zero : L' r = zero_block;
  al_frame : forall b, b <> r -> ~ is_bmap sb b -> L' b = L b;
  al_ok : disk_ok L';
}.

Lemma bblock_bmap b : 0 <= b < sb_size sb -> is_bmap sb (BBLOCK b sb).
Proof.
  intros Hb. unfold is_bmap, BBLOCK, datastart.
  pose proof (Z.div_pos b BPB ltac:(lia) ltac:(done)).
  pose proof (Z.div_le_mono b (sb_size sb) BPB ltac:(done) ltac:(lia)). lia.
Qed.

Lemma bblock_offset b bi : b mod BPB = 0 -> 0 <= bi < BPB -> BBLOCK (b + bi) sb = BBLOCK b sb /\ (b + bi) mod BPB = bi.
Proof.
  intros Hb Hi. unfold BBLOCK. change BPB with 8192 in *. zsolve.
Qed.

(** Setting or clearing a bit of the bitmap. *)
Lemma used_fupd L b d v x :
  0 <= b -> 0 <= x ->
  (forall bj, 0 <= bj < BPB -> bit_clear d bj = if decide (bj = b mod BPB) then v else bit_clear (L (BBLOCK b sb)) bj) ->
  used sb (fupd L (BBLOCK b sb) d) x = if decide (x = b) then negb v else used sb L x.
Proof.
  intros Hb Hx Hd. unfold used. pose proof (Z.mod_pos_bound x BPB ltac:(done)) as Hm.
  destruct (decide (BBLOCK x sb = BBLOCK b sb)) as [E|E].
  - rewrite E, fupd_eq, Hd by done. assert (x / BPB = b / BPB) by (unfold BBLOCK in E; lia).
    destruct (decide (x mod BPB = b mod BPB)).
    + rewrite decide_True; [done|]. rewrite (Z.div_mod x BPB), (Z.div_mod b BPB) by done. congruence.
    + rewrite decide_False by congruence. done.
  - rewrite fupd_ne by done. rewrite decide_False by congruence. done.
Qed.

Lemma used_off_bmap L b d x : ~ is_bmap sb b -> 0 <= x < sb_size sb -> used sb (fupd L b d) x = used sb L x.
Proof. intros Hb Hx. unfold used. rewrite fupd_ne; [done|]. intros <-. by apply Hb, bblock_bmap. Qed.

Lemma bitmap_bits L b : disk_ok L -> 0 <= b mod BPB < 8 * Z.of_nat (length (L (BBLOCK b sb))).
Proof. intros HL. destruct (HL (BBLOCK b sb)) as [-> _]. apply Z.mod_pos_bound. done. Qed.

(** The state of the loop when it finds a clear bit. *)
Lemma alloc_step_found L b bi :
  sb_ok sb -> disk_ok L -> meta_used sb L -> b mod BPB = 0 -> 0 <= b -> 0 <= bi < BPB -> b + bi < sb_size sb ->
  bit_clear (L (BBLOCK b sb)) bi = true ->
  alloc_step L (b + bi) (fupd (fupd L (BBLOCK b sb) (bit_set (L (BBLOCK b sb)) bi)) (b + bi) zero_block).
Proof.
  intros Hsb HL Hm Hb0 Hb Hbi Hsz Hc. destruct (bblock_offset b bi Hb0 Hbi) as [E1 E2].
  assert (Hfree : used sb L (b + bi) = false) by (unfold used; by rewrite E1, E2, Hc).
  assert (Hrange : datastart sb <= b + bi).
  { destruct (Z.ltb_spec (b + bi) (datastart sb)); [|done]. rewrite Hm in Hfree by lia. done. }
  assert (Hnb : ~ is_bmap sb (b + bi)) by (unfold is_bmap; lia).
  pose proof (HL (BBLOCK b sb)) as [Hlen Hbytes]. pose proof zero_block_ok as [Hz1 Hz2].
  split; try done; try lia.
  - intros x Hx. rewrite used_off_bmap by done. rewrite <- E1 at 1.
    apply (used_fupd L (b + bi) _ false); [lia..|]. intros bj Hbj. rewrite E1, E2.
    apply bit_clear_set; [|lia]. rewrite Hlen. done.
  - apply fupd_eq.
  - intros x Hx Hnx. rewrite fupd_ne, fupd_ne; [done| |done]. intros ->. by apply Hnx, bblock_bmap; lia.
  - apply disk_ok_fupd; [apply disk_ok_fupd|..]; try done.
    + unfold is_block, bit_set. by rewrite length_setZ.
    + apply bit_set_byte; [lia|done].
Qed.

(** Buffers held across an allocation: data blocks in use. *)
Definition held_ok (L : Z -> block) (B : gset Z) : Prop :=
  (size B <= 1)%nat /\ forall x, x ∈ B -> datastart sb <= x < sb_size sb /\ used sb L x = true.

Definition bmap_in (R : gset Z) : Prop := forall x, is_bmap sb x -> x ∈ R.

Lemma held_not_bmap L B x : held_ok L B -> is_bmap sb x -> x ∉ B.
Proof. intros [_ Hh] Hx Hin. apply Hh in Hin. unfold is_bmap in Hx. lia. Qed.

Lemma room_in R P k b : b ∈ R -> room R P k -> room R ({[b]} ∪ P) k.
Proof. unfold room. intros Hb. by replace (({[b]} ∪ P) ∪ R) with (P ∪ R) by set_solver. Qed.

Lemma balloc_loop_spec k b t L B P R :
  sb_ok sb -> disk_ok L -> meta_used sb L -> stx t L B P -> held_ok L B -> bmap_in R -> room R P 1 ->
  b mod BPB = 0 -> 0 <= b -> sb_size sb - b <= Z.of_nat k * BPB ->
  exists r t' L' P', balloc_loop sb k b t = Ok (r, t') /\ stx t' L' B P' /\
    ((r = 0 /\ L' = L /\ P' = P /\ forall x, b <= x < sb_size sb -> used sb L x = true) \/
     (alloc_step L r L' /\ P' = {[r]} ∪ ({[BBLOCK r sb]} ∪ P))).
Proof.
  intros Hsb HL Hm Ht Hh HR Hr. pose proof Hh as [Hh1 Hh2]. revert b t Ht.
  induction k as [|k IH]; intros b t Ht Hb0 Hb Hk; cbn [balloc_loop];
    (destruct (Z.ltb_spec b (sb_size sb)) as [Hlt|Hge];
      [|exists 0, t, L, P; repeat split; auto; left; repeat split; auto; lia]); [lia|].
  pose proof (bblock_bmap b ltac:(lia)) as Hbm. pose proof (HR _ Hbm) as HbR.
  assert (Hrd : BBLOCK b sb ∉ B) by by eapply held_not_bmap.
  destruct (stx_modify t L B P (BBLOCK b sb)) as (t1 & E1 & D1 & Hmod);
    [done|done|by apply (room_cache R P B 1)|by apply (room_log R P 1)|]. rewrite E1. cbn [rbind]. rewrite D1.
  destruct (balloc_scan _ 0 _) as [bi|] eqn:Escan.
  - apply balloc_scan_Some in Escan as [Hbi Hc]. assert (0 <= bi < BPB /\ b + bi < sb_size sb) as [Hbi' Hbs] by lia.
    destruct (Hmod (bit_set (L (BBLOCK b sb)) bi)) as (t2 & t3 & E2 & E3 & Ht3). rewrite E2. cbn [rbind]. rewrite E3. cbn [rbind].
    pose proof (alloc_step_found L b bi Hsb HL Hm Hb0 Hb Hbi' Hbs Hc) as Hal.
    pose proof (room_in R P 1 _ HbR Hr) as Hr'.
    edestruct (bzero_spec t3 _ B ({[BBLOCK b sb]} ∪ P) (b + bi) Ht3) as (t4 & E4 & Ht4).
    + intros Hin. apply Hh2 in Hin as [_ Hu]. rewrite (al_free _ _ _ Hal) in Hu. done.
    + by apply (room_cache R _ B 1).
    + by apply (room_log R _ 1).
    + rewrite E4. cbn [rbind]. eexists _, _, _, _. split; [done|]. split; [done|]. right. split; [done|].
      by rewrite (proj1 (bblock_offset b bi Hb0 Hbi')).
  - destruct (stx_read true t L B P (BBLOCK b sb)) as (t1' & E1' & _ & Ht1); [done|done|by apply (room_cache R P B 1)|].
    rewrite E1 in E1'. injection E1' as <-.
    destruct (stx_relse true t1 L B P (BBLOCK b sb) Ht1 Hrd) as (t2 & E2 & Ht2). rewrite E2. cbn [rbind].
    destruct (IH (b + BPB) t2 Ht2) as (r & t' & L' & P' & E & Ht' & Hres);
      [change BPB with 8192 in *; zsolve|change BPB with 8192; lia|lia|].
    exists r, t', L', P'. split; [done|]. split; [done|]. destruct Hres as [(Hr0 & HL' & HP' & Hall)|Hal]; [left|by right].
    repeat split; auto. intros x Hx. destruct (Z.ltb_spec x (b + BPB)); [|apply Hall; lia].
    replace x with (b + (x - b)) by lia. destruct (bblock_offset b (x - b) Hb0 ltac:(lia)) as [E1' E2'].
    unfold used. rewrite E1', E2'. rewrite (balloc_scan_None _ _ _ Escan); [done|lia].
Qed.

(** Bounded log use, zeroed fresh block, or a full disk. *)
Lemma balloc_spec t L B P R :
  sb_ok sb -> disk_ok L -> meta_used sb L -> stx t L B P -> held_ok L B -> bmap_in R -> room R P 1 ->
  exists r t' L' P', balloc sb t = Ok (r, t') /\ stx t' L' B P' /\
    ((r = 0 /\ L' = L /\ P' = P /\ forall x, 0 <= x < sb_size sb -> used sb L x = true) \/
     (alloc_step L r L' /\ P' = {[r]} ∪ ({[BBLOCK r sb]} ∪ P))).
Proof.
  intros Hsb. intros. unfold balloc. apply (balloc_loop_spec _ 0 t L B P R); auto; [lia|].
  pose proof (sb_pos sb Hsb) as [_ Hs]. change BPB with 8192. zsolve.
Qed.

(** ** bfree *)
Record free_step (L : Z -> block) (b : Z) (L' : Z -> block) : Prop := {
  fr_used : forall x, 0 <= x < sb_size sb -> used sb L' x = if decide (x = b) then false else used sb L x;
  fr_frame : forall x, ~ is_bmap sb x -> L' x = L x;
  fr_ok : disk_ok L';
}.

Lemma bfree_spec t L B P R b :
  disk_ok L -> stx t L B P -> (forall x, is_bmap sb x -> x ∉ B) -> (size B <= 1)%nat -> bmap_in R -> room R P 0 ->
  0 <= b < sb_size sb -> used sb L b = true ->
  exists t' L', bfree sb b t = Ok t' /\ stx t' L' B ({[BBLOCK b sb]} ∪ P) /\ free_step L b L'.
Proof.
  intros HL Ht Hh Hh1 HR Hr Hb Hu. pose proof (bblock_bmap b Hb) as Hbm.
  destruct (stx_modify t L B P (BBLOCK b sb)) as (t1 & E1 & D1 & Hmod);
    [done|by apply Hh|by apply (room_cache R P B 0)|by apply (room_log R P 0)|].
  unfold bfree. rewrite E1. cbn [rbind]. rewrite D1. unfold used in Hu. apply negb_true_iff in Hu. rewrite Hu.
  destruct (Hmod (bit_unset (L (BBLOCK b sb)) (b mod BPB))) as (t2 & t3 & E2 & E3 & Ht3).
  rewrite E2. cbn [rbind]. rewrite E3. eexists _, _. split; [done|]. split; [done|].
  pose proof (HL (BBLOCK b sb)) as [Hlen Hbytes]. split.
  - intros x Hx. apply (used_fupd L b _ true); [lia..|]. intros bj Hbj.
    apply bit_clear_unset; [by apply bitmap_bits|lia].
  - intros x Hx. apply fupd_ne. by intros ->.
  - apply disk_ok_fupd; [done|unfold is_block, bit_unset; by rewrite length_setZ|by apply bit_unset_byte].
Qed.

Lemma bfree_free t L B P b :
  disk_ok L -> stx t L B P -> (forall x, is_bmap sb x -> x ∉ B) -> Z.of_nat (size (P ∪ B)) < NBUF ->
  0 <= b < sb_size sb -> used sb L b = false -> bfree sb b t = Panic "freeing free block".
Proof.
  intros HL Ht Hh Hn Hb Hu. unfold bfree.
  destruct (stx_read true t L B P (BBLOCK b sb)) as (t1 & E1 & D1 & _); [done|by apply Hh, bblock_bmap|done|].
  rewrite E1. cbn [rbind]. rewrite D1. unfold used in Hu. apply negb_false_iff in Hu. by rewrite Hu.
Qed.
End blocks.
Abbreviation stx := (stxo true).
