(* ===== verification/FsFile.v ===== *)
(** * Files: bmap

    The block map of an inode is read through 269 slots: the 13 entries of
    ip->addrs and the 256 of the indirect block.  [file_ok] says that the slots
    in use hold different allocated data blocks; [grow] relates the states
    before and after an operation on the file: blocks keep their place, blocks
    of other files keep their contents, and what was allocated belongs to the
    file. *)

From S2P Require Import Prelude Riscv Block Log Txn Fs FsBlocks.

Definition NSLOT : Z := NDIRECT + 1 + NINDIRECT.

(** ** Words of a block *)
Lemma getu32_range d off : Forall is_byte d -> 0 <= getu32 d off < 2 ^ 32.
Proof.
  intros Hd. unfold getu32. set (l := take 4 _).
  assert (Hl : Forall is_byte l) by (by apply Forall_take, Forall_drop).
  pose proof (le_decode_range l Hl). assert (length l <= 4)%nat by (unfold l; rewrite length_take; lia).
  assert (2 ^ (8 * Z.of_nat (length l)) <= 2 ^ 32) by (apply Z.pow_le_mono_r; lia). lia.
Qed.

Lemma getu32_put32_eq d off v :
  0 <= off -> off + 4 <= Z.of_nat (length d) -> 0 <= v < 2 ^ 32 -> getu32 (put32 d off v) off = v.
Proof.
  intros H1 H2 Hv. unfold getu32, put32.
  pose proof (splice_read (Z.to_nat off) (le_encode 4 (u32 v)) d) as Hs.
  rewrite length_le_encode in Hs. rewrite Hs by lia. rewrite le_decode_encode by apply u32_range. by apply u32_small.
Qed.

Lemma getu32_put32_ne d off v off' :
  0 <= off -> off + 4 <= Z.of_nat (length d) -> 0 <= off' -> off' + 4 <= off \/ off + 4 <= off' ->
  getu32 (put32 d off v) off' = getu32 d off'.
Proof. intros. unfold getu32, put32. f_equal. apply take_drop_splice_out; rewrite length_le_encode; lia. Qed.

Lemma getu32_zero off : getu32 zero_block off = 0.
Proof.
  unfold getu32, zero_block. rewrite drop_replicate, take_replicate. generalize (4 `min` (Z.to_nat BSIZE - Z.to_nat off))%nat.
  intros n. induction n; simpl; lia.
Qed.

Lemma splice_bytes i new l : Forall is_byte new -> Forall is_byte l -> Forall is_byte (splice i new l).
Proof. intros. unfold splice. apply Forall_app. split; [by apply Forall_take|]. apply Forall_app. split; [done|by apply Forall_drop]. Qed.

Lemma put32_ok d off v : is_block d -> Forall is_byte d -> 0 <= off -> off + 4 <= BSIZE ->
  is_block (put32 d off v) /\ Forall is_byte (put32 d off v).
Proof.
  unfold is_block. change BSIZE with 1024. intros Hl Hd H1 H2. split.
  - rewrite length_put32; [done|lia|rewrite Hl; lia].
  - apply splice_bytes; [apply le_encode_bytes|done].
Qed.

(** ** Slots *)
Definition slot (L : Z -> block) (a : list Z) (i : Z) : Z :=
  if i <? NDIRECT + 1 then nthZ a i
  else if nthZ a NDIRECT =? 0 then 0 else getu32 (L (nthZ a NDIRECT)) (4 * (i - (NDIRECT + 1))).

(** The slot of file block [bn]. *)
Definition bslot (bn : Z) : Z := if bn <? NDIRECT then bn else bn + 1.
Definition blk (L : Z -> block) (a : list Z) (bn : Z) : Z := slot L a (bslot bn).

Definition own (L : Z -> block) (a : list Z) (x : Z) : Prop := exists i, 0 <= i < NSLOT /\ slot L a i = x /\ x <> 0.

Section file.
Context (sb : superblock).

Record file_ok (L : Z -> block) (a : list Z) : Prop := {
  fo_len : length a = 13%nat;
  fo_slot : forall i, 0 <= i < NSLOT -> slot L a i <> 0 ->
    datastart sb <= slot L a i < sb_size sb /\ used sb L (slot L a i) = true;
  fo_inj : forall i j, 0 <= i < NSLOT -> 0 <= j < NSLOT -> slot L a i <> 0 -> slot L a i = slot L a j -> i = j;
}.

Record grow (L : Z -> block) (a : list Z) (L' : Z -> block) (a' : list Z) : Prop := {
  gr_slots : forall i, 0 <= i < NSLOT -> slot L a i <> 0 -> slot L' a' i = slot L a i;
  gr_fresh : forall i, 0 <= i < NSLOT -> slot L a i = 0 -> slot L' a' i <> 0 ->
    datastart sb <= slot L' a' i < sb_size sb /\ used sb L (slot L' a' i) = false;
  gr_used : forall x, 0 <= x < sb_size sb -> used sb L x = true -> used sb L' x = true;
  gr_new : forall x, 0 <= x < sb_size sb -> used sb L' x = true -> used sb L x = true \/ own L' a' x;
  gr_frame : forall x, 0 <= x < sb_size sb -> used sb L x = true -> ~ is_bmap sb x -> ~ own L a x -> L' x = L x;
}.

Lemma grow_refl L a : grow L a L a.
Proof. split; auto. congruence. Qed.

Lemma grow_own L a L' a' x : grow L a L' a' -> own L a x -> own L' a' x.
Proof. intros Hg (i & Hi & Hs & Hx). exists i. split; [done|]. split; [|done]. rewrite <- Hs. apply Hg; [done|congruence]. Qed.

Lemma grow_own_inv L a L' a' x : grow L a L' a' -> used sb L x = true -> own L' a' x -> own L a x.
Proof.
  intros Hg Hu (i & Hi & Hs & Hx). exists i. split; [done|]. split; [|done].
  destruct (decide (slot L a i = 0)) as [E|E].
  - pose proof (gr_fresh _ _ _ _ Hg i Hi E ltac:(congruence)) as [_ Hf]. rewrite Hs in Hf. congruence.
  - rewrite <- Hs. symmetry. by apply Hg.
Qed.

Lemma grow_trans L a L1 a1 L2 a2 : sb_ok sb -> grow L a L1 a1 -> grow L1 a1 L2 a2 -> grow L a L2 a2.
Proof.
  intros Hsb G1 G2. pose proof (sb_pos sb Hsb) as [Hp _]. split.
  - intros i Hi Hs. rewrite (gr_slots _ _ _ _ G2), (gr_slots _ _ _ _ G1); auto. by rewrite (gr_slots _ _ _ _ G1).
  - intros i Hi Hs Hs2. destruct (decide (slot L1 a1 i = 0)) as [E|E].
    + destruct (gr_fresh _ _ _ _ G2 i Hi E Hs2) as [Hr Hu]. split; [done|].
      destruct (used sb L (slot L2 a2 i)) eqn:E2; [|done]. by rewrite (gr_used _ _ _ _ G1) in Hu by (done || lia).
    + rewrite (gr_slots _ _ _ _ G2) by done. apply (gr_fresh _ _ _ _ G1); done.
  - intros x Hx Hu. apply G2; [done|]. by apply G1.
  - intros x Hx Hu. destruct (gr_new _ _ _ _ G2 x Hx Hu) as [Hu1|Ho]; [|by right].
    destruct (gr_new _ _ _ _ G1 x Hx Hu1) as [?|Ho]; [by left|right]. by eapply grow_own.
  - intros x Hx Hu Hb Ho. rewrite (gr_frame _ _ _ _ G2), (gr_frame _ _ _ _ G1); auto.
    + by apply (gr_used _ _ _ _ G1).
    + intros Ho1. apply Ho. by eapply grow_own_inv.
Qed.

(** One slot filled with a fresh block. *)
Lemma fill_slot L a L' a' i r :
  sb_ok sb -> file_ok L a -> 0 <= i < NSLOT -> slot L a i = 0 -> slot L' a' i = r ->
  (forall j, 0 <= j < NSLOT -> j <> i -> slot L' a' j = slot L a j) -> length a' = 13%nat ->
  datastart sb <= r < sb_size sb -> used sb L r = false ->
  (forall x, 0 <= x < sb_size sb -> used sb L' x = if decide (x = r) then true else used sb L x) ->
  (forall x, 0 <= x < sb_size sb -> used sb L x = true -> ~ is_bmap sb x -> ~ own L a x -> L' x = L x) ->
  file_ok L' a' /\ grow L a L' a'.
Proof.
  intros Hsb Hf Hi H0 Hr Hj Hl Hrng Hfree Hu Hfr. pose proof (sb_pos sb Hsb) as [Hp _].
  assert (Hmono : forall x, 0 <= x < sb_size sb -> used sb L x = true -> used sb L' x = true).
  { intros x Hx Hux. rewrite Hu by done. by destruct (decide _). }
  assert (Hnr : forall j, 0 <= j < NSLOT -> slot L a j <> r).
  { intros j Hjr E. destruct (fo_slot _ _ Hf j Hjr) as [_ Hu']; [lia|]. congruence. }
  split; split; auto.
  - intros j Hj0 Hs. destruct (decide (j = i)) as [->|Hne].
    + rewrite Hr. split; [done|]. rewrite Hu by lia. by rewrite decide_True.
    + rewrite Hj in * by done. destruct (fo_slot _ _ Hf j Hj0 Hs). split; [done|]. apply Hmono; [lia|done].
  - intros j k Hj0 Hk Hs E. destruct (decide (j = i)) as [->|Hne], (decide (k = i)) as [->|Hne']; [done| | |].
    + rewrite Hr, Hj in E by done. by destruct (Hnr k Hk).
    + rewrite Hr, Hj in E by done. by destruct (Hnr j Hj0).
    + rewrite !Hj in * by done. by apply (fo_inj _ _ Hf).
  - intros j Hj0 Hs. apply Hj; [done|congruence].
  - intros j Hj0 Hs Hs'. destruct (decide (j = i)) as [->|Hne]; [by rewrite Hr|]. rewrite Hj in Hs' by done. done.
  - intros x Hx Hux. rewrite Hu in Hux by done. destruct (decide (x = r)) as [->|]; [right|by left].
    exists i. split; [done|]. split; [done|lia].
Qed.

Lemma slot_low L a i : i < NDIRECT + 1 -> slot L a i = nthZ a i.
Proof. intros. unfold slot. by destruct (Z.ltb_spec i (NDIRECT + 1)); [|lia]. Qed.
Lemma slot_high L a i : NDIRECT + 1 <= i -> nthZ a NDIRECT <> 0 ->
  slot L a i = getu32 (L (nthZ a NDIRECT)) (4 * (i - (NDIRECT + 1))).
Proof. intros. unfold slot. destruct (Z.ltb_spec i (NDIRECT + 1)); [lia|]. by destruct (Z.eqb_spec (nthZ a NDIRECT) 0). Qed.
Lemma slot_high_0 L a i : NDIRECT + 1 <= i -> nthZ a NDIRECT = 0 -> slot L a i = 0.
Proof. intros ? E. unfold slot. destruct (Z.ltb_spec i (NDIRECT + 1)); [lia|]. by rewrite E. Qed.

(** Slots depend on the indirect block only. *)
Lemma slot_ext L L' a i : (nthZ a NDIRECT <> 0 -> L' (nthZ a NDIRECT) = L (nthZ a NDIRECT)) -> slot L' a i = slot L a i.
Proof.
  intros Hd. unfold slot. destruct (i <? NDIRECT + 1); [done|].
  destruct (Z.eqb_spec (nthZ a NDIRECT) 0); [done|]. by rewrite Hd.
Qed.

(** A block of the file is not touched by an allocation. *)
Lemma alloc_keeps L a r L' i :
  sb_ok sb -> file_ok L a -> alloc_step sb L r L' -> 0 <= i < NSLOT -> slot L a i <> 0 ->
  slot L a i <> r /\ L' (slot L a i) = L (slot L a i).
Proof.
  intros Hsb Hf Ha Hi Hs. destruct (fo_slot _ _ Hf i Hi Hs) as [Hr Hu].
  assert (slot L a i <> r) by (intros E; rewrite E, (al_free _ _ _ _ Ha) in Hu; done).
  split; [done|]. apply Ha; [done|]. unfold is_bmap. lia.
Qed.

Lemma alloc_frame L r L' x :
  alloc_step sb L r L' -> used sb L x = true -> ~ is_bmap sb x -> L' x = L x.
Proof. intros Ha Hu Hb. apply Ha; [|done]. intros ->. rewrite (al_free _ _ _ _ Ha) in Hu. done. Qed.

Lemma fill_low L a r L' i :
  sb_ok sb -> file_ok L a -> alloc_step sb L r L' -> 0 <= i < NDIRECT + 1 -> nthZ a i = 0 ->
  let a' := setZ a i r in
  file_ok L' a' /\ grow L a L' a' /\ slot L' a' i = r /\
  (forall j, 0 <= j < NSLOT -> j <> i -> slot L' a' j = slot L a j).
Proof.
  intros Hsb Hf Ha Hi H0 a'. pose proof (fo_len _ _ Hf) as Hl. pose proof (sb_pos sb Hsb) as [Hp _].
  change (NDIRECT + 1) with 13 in Hi. assert (Hl' : length a' = 13%nat) by (unfold a'; by rewrite length_setZ).
  assert (Hr : slot L' a' i = r).
  { rewrite slot_low by (change NDIRECT with 12; lia). apply nthZ_setZ_eq. lia. }
  assert (Hj : forall j, 0 <= j < NSLOT -> j <> i -> slot L' a' j = slot L a j).
  { intros j Hj Hne. destruct (Z.ltb_spec j (NDIRECT + 1)) as [Hlt|Hge].
    { rewrite !slot_low by done. apply nthZ_setZ_ne; lia. }
    destruct (decide (i = NDIRECT)) as [->|Hi12].
    - rewrite slot_high; [|done|unfold a'; rewrite nthZ_setZ_eq by (change NDIRECT with 12; lia); destruct Ha; lia].
      unfold a'. rewrite nthZ_setZ_eq by (change NDIRECT with 12; lia).
      rewrite (al_zero _ _ _ _ Ha), getu32_zero. symmetry. by apply slot_high_0.
    - assert (E12 : nthZ a' NDIRECT = nthZ a NDIRECT) by (apply nthZ_setZ_ne; [lia|done|done]).
      unfold slot. destruct (Z.ltb_spec j (NDIRECT + 1)); [lia|]. rewrite E12.
      destruct (Z.eqb_spec (nthZ a NDIRECT) 0) as [|Hn0]; [done|].
      destruct (alloc_keeps L a r L' NDIRECT Hsb Hf Ha) as [_ Hk]; [done|by rewrite slot_low|].
      rewrite slot_low in Hk by done. by rewrite Hk. }
  destruct (fill_slot L a L' a' i r) as [Hf' Hg]; auto; try apply Ha.
  - change NSLOT with 269. lia.
  - by rewrite slot_low by (change NDIRECT with 12; lia).
  - intros x Hx Hu Hb _. by eapply alloc_frame.
Qed.

Lemma fill_high L a r L' j :
  sb_ok sb -> file_ok L a -> disk_ok L -> alloc_step sb L r L' -> 0 <= j < NINDIRECT ->
  nthZ a NDIRECT <> 0 -> slot L a (NDIRECT + 1 + j) = 0 ->
  let ind := nthZ a NDIRECT in let L2 := fupd L' ind (put32 (L' ind) (4 * j) r) in
  file_ok L2 a /\ grow L a L2 a /\ disk_ok L2 /\ slot L2 a (NDIRECT + 1 + j) = r /\
  (forall k, 0 <= k < NSLOT -> k <> NDIRECT + 1 + j -> slot L2 a k = slot L a k).
Proof.
  intros Hsb Hf HL Ha Hj Hn0 H0 ind L2. pose proof (sb_pos sb Hsb) as [Hp _]. change NINDIRECT with 256 in Hj.
  destruct (alloc_keeps L a r L' NDIRECT Hsb Hf Ha) as [Hir Hk]; [done|by rewrite slot_low|].
  destruct (fo_slot _ _ Hf NDIRECT) as [Hrng Hu]; [done|by rewrite slot_low|]. rewrite slot_low in Hrng, Hu, Hk, Hir by done. fold ind in Hrng, Hu, Hk, Hir.
  assert (Hnb : ~ is_bmap sb ind) by (unfold is_bmap; lia).
  pose proof (al_ok _ _ _ _ Ha ind) as [Hlen Hbytes]. pose proof (al_range _ _ _ _ Ha) as Hr. pose proof (so_size _ Hsb) as Hsz.
  assert (HrS : slot L2 a (NDIRECT + 1 + j) = r).
  { rewrite slot_high by (change NDIRECT with 12; done || lia). fold ind. unfold L2. rewrite fupd_eq.
    replace (NDIRECT + 1 + j - (NDIRECT + 1)) with j by lia. apply getu32_put32_eq; [lia|rewrite Hlen; lia|lia]. }
  assert (Hoth : forall k, 0 <= k < NSLOT -> k <> NDIRECT + 1 + j -> slot L2 a k = slot L a k).
  { intros k Hkr Hne. change NSLOT with 269 in Hkr. destruct (Z.ltb_spec k (NDIRECT + 1)) as [Hlt|Hge]; [by rewrite !slot_low|].
    rewrite !slot_high by done. fold ind. unfold L2. rewrite fupd_eq, getu32_put32_ne; [by rewrite Hk|lia|rewrite Hlen; lia|lia|lia]. }
  assert (Hd2 : disk_ok L2).
  { destruct (put32_ok (L' ind) (4 * j) r Hlen Hbytes ltac:(lia) ltac:(change BSIZE with 1024; lia)). apply disk_ok_fupd; [apply Ha|done..]. }
  destruct (fill_slot L a L2 a (NDIRECT + 1 + j) r) as [Hf' Hg]; auto; try apply Ha; try apply Hf.
  - change NSLOT with 269. change NDIRECT with 12. lia.
  - intros x Hx. unfold L2. rewrite used_off_bmap by done. by apply Ha.
  - intros x Hx Hux Hb Ho. unfold L2. rewrite fupd_ne; [by eapply alloc_frame|]. intros ->. apply Ho.
    exists NDIRECT. split; [done|]. split; [by rewrite slot_low|done].
Qed.
End file.

(** ** bmap *)
Record bmap_post (sb : superblock) (R : gset Z) (L : Z -> block) (a : list Z) (P : gset Z) (bn addr : Z)
    (L' : Z -> block) (a' : list Z) (P' : gset Z) : Prop := {
  bp_ok : file_ok sb L' a';
  bp_grow : grow sb L a L' a';
  bp_disk : disk_ok L';
  bp_addr : blk L' a' bn = addr;
  bp_other : forall bn', 0 <= bn' < MAXFILE -> bn' <> bn -> blk L' a' bn' = blk L a bn';
  bp_data : forall x, 0 <= x < sb_size sb -> used sb L x = true -> ~ is_bmap sb x -> x <> nthZ a NDIRECT -> L' x = L x;
  bp_hit : blk L a bn <> 0 -> L' = L /\ a' = a /\ P' = P;
  bp_zero : blk L a bn = 0 -> addr <> 0 -> L' addr = zero_block;
  bp_full : addr = 0 -> forall x, 0 <= x < sb_size sb -> used sb L' x = true;
  bp_log : P ⊆ P' /\ P' ⊆ P ∪ R ∪ {[addr; nthZ a' NDIRECT]};
}.

Lemma bslot_range bn : 0 <= bn < MAXFILE -> 0 <= bslot bn < NSLOT /\ bslot bn <> NDIRECT.
Proof. unfold bslot. change MAXFILE with 268. change NSLOT with 269. change NDIRECT with 12. intros. bcase; lia. Qed.
Lemma bslot_inj b1 b2 : 0 <= b1 < MAXFILE -> 0 <= b2 < MAXFILE -> bslot b1 = bslot b2 -> b1 = b2.
Proof. unfold bslot. change NDIRECT with 12. intros. repeat bcase; lia. Qed.

Lemma meta_used_mono sb L L' :
  sb_ok sb -> (forall x, 0 <= x < sb_size sb -> used sb L x = true -> used sb L' x = true) -> meta_used sb L -> meta_used sb L'.
Proof. intros Hsb Hm HM b Hb. apply Hm; [destruct (so_size _ Hsb); lia|by apply HM]. Qed.

Section bmap.
Context {T : Type} `{TO : TxnOps T} `{TL : !TxnLaws T} (sb : superblock).

(** Nothing to do, or no block left. *)
Lemma bmap_same R L a P bn :
  file_ok sb L a -> disk_ok L -> (blk L a bn = 0 -> forall x, 0 <= x < sb_size sb -> used sb L x = true) ->
  bmap_post sb R L a P bn (blk L a bn) L a P.
Proof. intros Hf HL Hfull. split; auto; [apply grow_refl|congruence|set_solver]. Qed.

Lemma bmap_filled R L a P bn r L' a' P' :
  0 <= bn < MAXFILE -> file_ok sb L' a' -> grow sb L a L' a' -> disk_ok L' -> blk L a bn = 0 -> r <> 0 ->
  slot L' a' (bslot bn) = r -> (forall j, 0 <= j < NSLOT -> j <> bslot bn -> j <> NDIRECT -> slot L' a' j = slot L a j) ->
  (forall x, 0 <= x < sb_size sb -> used sb L x = true -> ~ is_bmap sb x -> x <> nthZ a NDIRECT -> L' x = L x) ->
  L' r = zero_block -> P ⊆ P' -> P' ⊆ P ∪ R ∪ {[r; nthZ a' NDIRECT]} ->
  bmap_post sb R L a P bn r L' a' P'.
Proof.
  intros Hbn Hf Hg HL H0 Hr Hs Ho Hd Hz HP1 HP2. split; auto; try done.
  intros bn' Hb' Hne. unfold blk. apply Ho; [by apply bslot_range| |by apply bslot_range].
  intros E. by apply Hne, bslot_inj.
Qed.

Lemma held_nil L : held_ok sb L ∅.
Proof. split; [rewrite size_empty; lia|set_solver]. Qed.

Lemma bmap_direct_spec R ip bn t L P :
  sb_ok sb -> disk_ok L -> meta_used sb L -> file_ok sb L (i_addrs ip) -> stx t L ∅ P -> bmap_in sb R -> room R P 1 ->
  0 <= bn < NDIRECT ->
  exists addr a' t' L' P', bmap sb ip bn t = Ok (addr, set_addrs ip a', t') /\ stx t' L' ∅ P' /\
    bmap_post sb R L (i_addrs ip) P bn addr L' a' P'.
Proof.
  intros Hsb HL Hm Hf Ht HR Hroom Hbn. unfold bmap. destruct (Z.ltb_spec bn NDIRECT); [|lia]. cbv zeta.
  assert (Hip : set_addrs ip (i_addrs ip) = ip) by by destruct ip.
  assert (Hblk : blk L (i_addrs ip) bn = nthZ (i_addrs ip) bn).
  { unfold blk, bslot. destruct (Z.ltb_spec bn NDIRECT); [|lia]. apply slot_low. lia. }
  destruct (Z.eqb_spec (nthZ (i_addrs ip) bn) 0) as [E0|E0].
  - destruct (balloc_spec sb t L ∅ P R) as (r & t' & L' & P' & E & Ht' & Hres); auto using held_nil.
    rewrite E. cbn [rbind]. destruct Hres as [(-> & -> & -> & Hfull)|[Ha ->]].
    + exists 0, (i_addrs ip), t', L, P. rewrite Hip. split; [done|]. split; [done|].
      rewrite <- E0, <- Hblk. by apply bmap_same.
    + pose proof (al_range _ _ _ _ Ha) as Hr. pose proof (sb_pos sb Hsb) as [Hp _].
      destruct (Z.eqb_spec r 0); [lia|].
      destruct (fill_low sb L (i_addrs ip) r L' bn) as (Hf' & Hg & Hs & Ho); auto; [lia|].
      eexists _, _, _, _, _. split; [done|]. split; [done|].
      assert (Hbs : bslot bn = bn) by (unfold bslot; by destruct (Z.ltb_spec bn NDIRECT); [|lia]).
      apply bmap_filled; auto; try rewrite Hbs; auto; try apply Ha; try congruence.
      * change MAXFILE with 268. change NDIRECT with 12 in *. lia.
      * intros x Hx Hu Hb _. by eapply alloc_frame.
      * set_solver.
      * pose proof (HR _ (bblock_bmap sb r ltac:(lia))). set_solver.
  - exists (nthZ (i_addrs ip) bn), (i_addrs ip), t, L, P. rewrite Hip. split; [done|]. split; [done|].
    rewrite <- Hblk. apply bmap_same; auto. congruence.
Qed.

Lemma bmap_entry_spec R a j t L P :
  sb_ok sb -> disk_ok L -> meta_used sb L -> file_ok sb L a -> stx t L ∅ P -> bmap_in sb R -> room R P 1 ->
  0 <= j < NINDIRECT -> nthZ a NDIRECT <> 0 ->
  exists addr t' L' P', bmap_entry sb (nthZ a NDIRECT) j t = Ok (addr, t') /\ stx t' L' ∅ P' /\
    bmap_post sb R L a P (NDIRECT + j) addr L' a P'.
Proof.
  intros Hsb HL Hm Hf Ht HR Hroom Hj Hn0. pose proof (sb_pos sb Hsb) as [Hp _]. set (ind := nthZ a NDIRECT) in *.
  assert (Hb : bslot (NDIRECT + j) = NDIRECT + 1 + j) by (unfold bslot; destruct (Z.ltb_spec (NDIRECT + j) NDIRECT); lia).
  assert (Hblk : blk L a (NDIRECT + j) = getu32 (L ind) (4 * j)).
  { unfold blk. rewrite Hb, slot_high by lia || done. f_equal. lia. }
  destruct (fo_slot _ _ _ Hf NDIRECT) as [Hrng Hu]; [done|by rewrite slot_low|]. rewrite slot_low in Hrng, Hu by done. fold ind in Hrng, Hu.
  unfold bmap_entry. destruct (stx_read true t L ∅ P ind) as (t1 & E1 & D1 & Ht1); [done|set_solver|apply (room_cache R P ∅ 1); [lia|rewrite size_empty; lia|done]|].
  rewrite E1. cbn [rbind]. rewrite D1, <- Hblk. cbv zeta.
  assert (Hh : held_ok sb L ({[ind]} ∪ ∅)).
  { split; [rewrite union_empty_r_L, size_singleton; lia|]. intros x. rewrite union_empty_r_L. by intros ->%elem_of_singleton. }
  destruct (Z.eqb_spec (blk L a (NDIRECT + j)) 0) as [E0|E0].
  2: { cbn [rbind]. destruct (stx_relse true t1 L ∅ P ind Ht1) as (t2 & E2 & Ht2); [set_solver|]. rewrite E2. cbn [rbind].
       eexists _, _, _, _. split; [done|]. split; [done|]. apply bmap_same; auto; congruence. }
  destruct (balloc_spec sb t1 L ({[ind]} ∪ ∅) P R) as (r & t2 & L1 & P1 & E & Ht2 & Hres); auto.
  rewrite E. cbn [rbind]. destruct Hres as [(-> & -> & -> & Hfull)|[Ha ->]].
  { cbn [negb Z.eqb rbind]. destruct (stx_relse true t2 L ∅ P ind Ht2) as (t3 & E3 & Ht3); [set_solver|]. rewrite E3. cbn [rbind].
    eexists _, _, _, _. split; [done|]. split; [done|]. rewrite <- E0. by apply bmap_same. }
  pose proof (al_range _ _ _ _ Ha) as Hr. destruct (Z.eqb_spec r 0); [lia|]. cbn [negb].
  destruct (fill_high sb L a r L1 j) as (Hf' & Hg & HL' & Hs & Ho); auto.
  { unfold blk in E0. by rewrite Hb in E0. }
  fold ind in Hf', Hg, HL', Hs, Ho. pose proof (HR _ (bblock_bmap sb r ltac:(lia))) as HbR.
  pose proof (tx_data t2 _ ind Ht2 ltac:(set_solver)) as D2. simpl in D2. rewrite D2.
  destruct (stx_update t2 L1 ({[ind]} ∪ ∅) ({[r]} ∪ ({[BBLOCK r sb]} ∪ P)) ind (put32 (L1 ind) (4 * j) r)) as (t3 & E3 & Ht3);
    [done|set_solver| |].
  { assert (room R ({[r]} ∪ ({[BBLOCK r sb]} ∪ P)) 0); [|by apply (room_log R _ 0)]. unfold room in *.
    pose proof (size_add r (P ∪ R)). replace ({[r]} ∪ ({[BBLOCK r sb]} ∪ P) ∪ R) with ({[r]} ∪ (P ∪ R)) by set_solver. lia. }
  rewrite E3. cbn [rbind]. destruct (stx_relse true t3 _ ∅ _ ind Ht3) as (t4 & E4 & Ht4); [set_solver|]. rewrite E4. cbn [rbind].
  eexists _, _, _, _. split; [done|]. split; [done|].
  assert (r <> ind) by (intros ->; rewrite (al_free _ _ _ _ Ha) in Hu; done).
  apply bmap_filled; auto.
  - change MAXFILE with 268. change NDIRECT with 12. change NINDIRECT with 256 in Hj. lia.
  - by rewrite Hb.
  - rewrite Hb. auto.
  - intros x Hx Hux Hbx Hne. rewrite fupd_ne by done. by eapply alloc_frame.
  - rewrite fupd_ne by done. apply Ha.
  - set_solver.
  - fold ind. set_solver.
Qed.

(** The indirect block was allocated first. *)
Lemma bmap_after_ind R L a P L1 r P1 bn addr L' P' :
  sb_ok sb -> file_ok sb L a -> alloc_step sb L r L1 -> nthZ a NDIRECT = 0 -> NDIRECT <= bn < MAXFILE ->
  P1 = {[r]} ∪ ({[BBLOCK r sb]} ∪ P) -> bmap_in sb R ->
  bmap_post sb R L1 (setZ a NDIRECT r) P1 bn addr L' (setZ a NDIRECT r) P' ->
  bmap_post sb R L a P bn addr L' (setZ a NDIRECT r) P'.
Proof.
  intros Hsb Hf Ha H0 Hbn -> HR [Q1 Q2 Q3 Q4 Q5 Q6 Q7 Q8 Q9 Q10]. pose proof (sb_pos sb Hsb) as [Hp _].
  destruct (fill_low sb L a r L1 NDIRECT) as (Hf1 & Hg1 & Hs1 & Ho1); auto; [done|].
  pose proof (al_range _ _ _ _ Ha) as Hr. pose proof (HR _ (bblock_bmap sb r ltac:(lia))) as HbR.
  assert (Hz : blk L a bn = 0) by (unfold blk; apply slot_high_0; [unfold bslot; destruct (Z.ltb_spec bn NDIRECT); lia|done]).
  assert (E12 : nthZ (setZ a NDIRECT r) NDIRECT = r) by (apply nthZ_setZ_eq; by rewrite (fo_len _ _ _ Hf)).
  rewrite E12 in *. destruct Q10 as [Q10 Q11].
  split; auto; try done.
  - by eapply grow_trans.
  - intros bn' Hb' Hne. rewrite Q5 by done. unfold blk. apply Ho1; by apply bslot_range.
  - intros x Hx Hu Hb Hne. rewrite Q6; auto; [by eapply alloc_frame|by apply Hg1|].
    intros ->. rewrite (al_free _ _ _ _ Ha) in Hu. done.
  - intros _. apply Q8. unfold blk. rewrite Ho1; [done|by apply bslot_range; change NDIRECT with 12 in *; lia..].
  - rewrite E12. set_solver.
Qed.

Lemma bmap_spec R ip bn t L P :
  sb_ok sb -> disk_ok L -> meta_used sb L -> file_ok sb L (i_addrs ip) -> stx t L ∅ P -> bmap_in sb R ->
  room R P (if nthZ (i_addrs ip) NDIRECT =? 0 then 2 else 1) ->
  0 <= bn < MAXFILE ->
  exists addr a' t' L' P', bmap sb ip bn t = Ok (addr, set_addrs ip a', t') /\ stx t' L' ∅ P' /\
    bmap_post sb R L (i_addrs ip) P bn addr L' a' P'.
Proof.
  intros Hsb HL Hm Hf Ht HR Hroom Hbn. assert (Hroom1 : room R P 1) by (unfold room in *; destruct (_ =? 0); lia).
  destruct (Z.ltb_spec bn NDIRECT) as [Hlt|Hge]; [apply bmap_direct_spec; auto; lia|].
  assert (Hip : set_addrs ip (i_addrs ip) = ip) by by destruct ip.
  unfold bmap. destruct (Z.ltb_spec bn NDIRECT); [lia|]. cbv zeta.
  assert (Hj : 0 <= bn - NDIRECT < NINDIRECT) by (unfold MAXFILE in Hbn; lia).
  destruct (Z.ltb_spec (bn - NDIRECT) NINDIRECT); [|lia]. pose proof (sb_pos sb Hsb) as [Hp _].
  destruct (Z.eqb_spec (nthZ (i_addrs ip) NDIRECT) 0) as [E0|E0].
  - assert (Hz : blk L (i_addrs ip) bn = 0) by (unfold blk; apply slot_high_0; [unfold bslot; destruct (Z.ltb_spec bn NDIRECT); lia|done]).
    destruct (balloc_spec sb t L ∅ P R) as (r & t1 & L1 & P1 & E & Ht1 & Hres); auto using held_nil.
    rewrite E. cbn [rbind]. destruct Hres as [(-> & -> & -> & Hfull)|[Ha HP1]].
    + exists 0, (i_addrs ip), t1, L, P. rewrite Hip. split; [done|]. split; [done|]. rewrite <- Hz. by apply bmap_same.
    + pose proof (al_range _ _ _ _ Ha) as Hr. destruct (Z.eqb_spec r 0); [lia|].
      destruct (fill_low sb L (i_addrs ip) r L1 NDIRECT) as (Hf1 & Hg1 & _ & _); auto; [done|].
      assert (E12 : nthZ (setZ (i_addrs ip) NDIRECT r) NDIRECT = r) by (apply nthZ_setZ_eq; by rewrite (fo_len _ _ _ Hf)).
      pose proof (HR _ (bblock_bmap sb r ltac:(lia))) as HbR.
      destruct (bmap_entry_spec R (setZ (i_addrs ip) NDIRECT r) (bn - NDIRECT) t1 L1 P1) as (addr & t2 & L2 & P2 & E2 & Ht2 & Hpost);
        rewrite ?E12; auto; [apply Ha|eapply meta_used_mono; [done|apply Hg1|done]| |].
      { unfold room in *. cbn in Hroom. subst P1. pose proof (size_add r (P ∪ R)).
        replace ({[r]} ∪ ({[BBLOCK r sb]} ∪ P) ∪ R) with ({[r]} ∪ (P ∪ R)) by set_solver. lia. }
      rewrite E12 in E2. rewrite E2. cbn [rbind]. eexists _, _, _, _, _. split; [done|]. split; [done|].
      replace (NDIRECT + (bn - NDIRECT)) with bn in Hpost by lia. eapply (bmap_after_ind R L _ P L1 r P1); auto; lia.
  - destruct (bmap_entry_spec R (i_addrs ip) (bn - NDIRECT) t L P) as (addr & t2 & L2 & P2 & E2 & Ht2 & Hpost); auto.
    rewrite E2. cbn [rbind]. exists addr, (i_addrs ip), t2, L2, P2. rewrite Hip. split; [done|]. split; [done|].
    by replace (NDIRECT + (bn - NDIRECT)) with bn in Hpost by lia.
Qed.
End bmap.
