(* ===== verification/FsIO.v ===== *)
(** * File contents: readi and writei

    The bytes of a file are read through its block map ([fbyte]).  readi
    delivers exactly the bytes of the file in the range asked for; writei
    changes exactly the bytes of the range, keeps the map well formed, touches
    no other file, and logs one block per file block written plus the bitmap,
    the inode and the indirect block. *)

From S2P Require Import Prelude Riscv Block Log Txn Fs FsBlocks FsFile.

Definition fbyte (L : Z -> block) (a : list Z) (o : Z) : Z := nthZ (L (blk L a (o / BSIZE))) (o mod BSIZE).
Definition fbytes (L : Z -> block) (a : list Z) (o n : Z) : list Z := fbyte L a <$> seqZ o n.

Lemma seqZ_split o m n : 0 <= m <= n -> seqZ o n = seqZ o m ++ seqZ (o + m) (n - m).
Proof. intros. rewrite <- seqZ_app by lia. f_equal. lia. Qed.

Lemma fbytes_split L a o m n : 0 <= m <= n -> fbytes L a o n = fbytes L a o m ++ fbytes L a (o + m) (n - m).
Proof. intros. unfold fbytes. by rewrite (seqZ_split o m n), fmap_app. Qed.

Lemma slice_seqZ (d : list Z) i m :
  0 <= i -> 0 <= m -> i + m <= Z.of_nat (length d) -> take (Z.to_nat m) (drop (Z.to_nat i) d) = nthZ d <$> seqZ i m.
Proof.
  intros Hi Hm Hl. apply list_eq. intros k. rewrite list_lookup_fmap.
  destruct (decide (Z.of_nat k < m)) as [Hk|Hk].
  - rewrite lookup_take_lt, lookup_drop, lookup_seqZ_lt by lia. simpl. unfold nthZ.
    replace (Z.to_nat (i + Z.of_nat k)) with (Z.to_nat i + k)%nat by lia.
    destruct (lookup_lt_is_Some_2 d (Z.to_nat i + k)) as [x ->]; [lia|done].
  - rewrite lookup_take_ge by lia. by rewrite lookup_seqZ_ge by lia.
Qed.

Lemma div_same_block o m k : 0 <= k < m -> o mod BSIZE + m <= BSIZE -> (o + k) / BSIZE = o / BSIZE /\ (o + k) mod BSIZE = o mod BSIZE + k.
Proof. change BSIZE with 1024. intros. zsolve. Qed.

(** The part of a block that lies in the file range. *)
Lemma fbytes_block L a o m :
  disk_ok L -> 0 <= m -> o mod BSIZE + m <= BSIZE ->
  take (Z.to_nat m) (drop (Z.to_nat (o mod BSIZE)) (L (blk L a (o / BSIZE)))) = fbytes L a o m.
Proof.
  intros HL Hm Hb. destruct (HL (blk L a (o / BSIZE))) as [Hlen _]. pose proof (Z.mod_pos_bound o BSIZE ltac:(done)).
  rewrite slice_seqZ; [|lia|lia|rewrite Hlen; done]. unfold fbytes. apply list_eq. intros k. rewrite !list_lookup_fmap.
  destruct (decide (Z.of_nat k < m)) as [Hk|Hk]; [|by rewrite !lookup_seqZ_ge by lia].
  rewrite !lookup_seqZ_lt by lia. simpl. f_equal. unfold fbyte.
  by destruct (div_same_block o m (Z.of_nat k) ltac:(lia) Hb) as [-> ->].
Qed.

(** What readi needs of a destination: copies that fit succeed, and
    consecutive ones compose. *)
Class Sink {U : Type} (cp : U -> Z -> list Z -> res (U * bool)) := {
  sk_put : U -> Z -> list Z -> U;
  sk_fits : U -> Z -> Z -> Prop;
  sk_ok : forall u d bs, sk_fits u d (Z.of_nat (length bs)) -> cp u d bs = Ok (sk_put u d bs, true);
  sk_nil : forall u d, sk_put u d [] = u;
  sk_split : forall u d b1 n, sk_fits u d n -> Z.of_nat (length b1) <= n ->
    sk_fits u d (Z.of_nat (length b1)) /\
    sk_fits (sk_put u d b1) (d + Z.of_nat (length b1)) (n - Z.of_nat (length b1));
  sk_app : forall u d b1 b2, sk_fits u d (Z.of_nat (length (b1 ++ b2))) ->
    sk_put (sk_put u d b1) (d + Z.of_nat (length b1)) b2 = sk_put u d (b1 ++ b2);
}.

Lemma splice_app_l {A} i (n1 n2 l : list A) :
  (i + length n1 + length n2 <= length l)%nat -> splice (i + length n1) n2 (splice i n1 l) = splice i (n1 ++ n2) l.
Proof.
  intros Hl. unfold splice. rewrite take_app_ge by (rewrite length_take; lia).
  rewrite length_take, Nat.min_l by lia. replace (i + length n1 - i)%nat with (length n1) by lia.
  rewrite take_app_length, <- !app_assoc. do 3 f_equal. rewrite drop_app_ge by (rewrite length_take; lia).
  rewrite length_take, Nat.min_l by lia. rewrite drop_app_ge by lia. rewrite drop_drop. f_equal. rewrite length_app. lia.
Qed.

(** A local variable of the kernel. *)
#[export] Instance local_sink : Sink local_out.
Proof.
  refine {| sk_put u d bs := splice (Z.to_nat d) bs u; sk_fits u d n := 0 <= d /\ 0 <= n /\ d + n <= Z.of_nat (length u) |}.
  - done.
  - intros u d. unfold splice. rewrite app_nil_l, Nat.add_0_r. apply take_drop.
  - intros u d b1 n Hf Hl. rewrite length_splice by lia. lia.
  - intros u d b1 b2 Hf. rewrite length_app in Hf. rewrite <- splice_app_l by lia. f_equal. lia.
Defined.

Section io.
Context {T : Type} `{TO : TxnOps T} `{TL : !TxnLaws T} (sb : superblock).

(** ** Reading *)

(** bmap on a block that is there: also outside a transaction. *)
Lemma bmap_hit o ip bn t L P :
  stxo o t L ∅ P -> Z.of_nat (size P) < NBUF -> 0 <= bn < MAXFILE -> blk L (i_addrs ip) bn <> 0 ->
  exists t', bmap sb ip bn t = Ok (blk L (i_addrs ip) bn, ip, t') /\ stxo o t' L ∅ P.
Proof.
  intros Ht Hn Hbn H0. unfold bmap. unfold blk, bslot in *. destruct (Z.ltb_spec bn NDIRECT) as [Hlt|Hge].
  - rewrite slot_low in * by lia. cbv zeta. destruct (Z.eqb_spec (nthZ (i_addrs ip) bn) 0); [done|]. eauto.
  - cbv zeta. destruct (Z.ltb_spec (bn - NDIRECT) NINDIRECT); [|unfold MAXFILE in Hbn; lia].
    assert (Hi0 : nthZ (i_addrs ip) NDIRECT <> 0) by (intros E; rewrite slot_high_0 in H0; lia || done).
    destruct (Z.eqb_spec (nthZ (i_addrs ip) NDIRECT) 0); [done|]. rewrite slot_high in * by lia || done.
    unfold bmap_entry. set (ind := nthZ _ _) in *.
    destruct (stx_read o t L ∅ P ind) as (t1 & E1 & D1 & Ht1); [done|set_solver|by rewrite union_empty_r_L|].
    rewrite E1. cbn [rbind]. rewrite D1. cbv zeta. replace (bn + 1 - (NDIRECT + 1)) with (bn - NDIRECT) in H0 |- * by lia.
    destruct (Z.eqb_spec (getu32 (L ind) (4 * (bn - NDIRECT))) 0); [done|]. cbn [rbind].
    destruct (stx_relse o t1 L ∅ P ind Ht1) as (t2 & E2 & Ht2); [set_solver|]. rewrite E2. cbn [rbind]. eauto.
Qed.

Section read.
Context {U : Type} (cp : U -> Z -> list Z -> res (U * bool)) `{SK : !Sink cp}.

Lemma readi_loop_spec fuel o ip dst off n tot u t L P :
  disk_ok L -> stxo o t L ∅ P -> Z.of_nat (size P) < NBUF -> 0 <= off -> tot <= n ->
  (forall bn, off / BSIZE <= bn -> bn * BSIZE < off + (n - tot) -> bn < MAXFILE /\ blk L (i_addrs ip) bn <> 0) ->
  (tot < n -> off mod BSIZE + (n - tot) <= Z.of_nat fuel * BSIZE) -> sk_fits u dst (n - tot) ->
  exists t', readi_loop sb fuel cp ip dst off n tot u t =
      Ok (n, ip, sk_put u dst (fbytes L (i_addrs ip) off (n - tot)), t') /\ stxo o t' L ∅ P.
Proof.
  intros HL. revert dst off tot u t. induction fuel as [|fuel IH]; intros dst off tot u t Ht Hn Hoff Htot Hblk Hfuel Hfit;
    pose proof (Z.mod_pos_bound off BSIZE ltac:(done)) as Hmod; cbn [readi_loop];
    (destruct (Z.ltb_spec tot n) as [Hlt|Hge];
      [specialize (Hfuel Hlt)|assert (tot = n) as -> by lia; rewrite Z.sub_diag; unfold fbytes; rewrite sk_nil; eauto]); [lia|].
  pose proof (Z.div_pos off BSIZE Hoff ltac:(done)) as Hq.
  destruct (Hblk (off / BSIZE)) as [Hb1 Hb2]; [done| |].
  { pose proof (Z.mul_div_le off BSIZE ltac:(done)). lia. }
  destruct (bmap_hit o ip (off / BSIZE) t L P) as (t1 & E1 & Ht1); auto. rewrite E1. cbn [rbind].
  destruct (Z.eqb_spec (blk L (i_addrs ip) (off / BSIZE)) 0); [done|].
  set (x := blk L (i_addrs ip) (off / BSIZE)) in *.
  destruct (stx_read o t1 L ∅ P x) as (t2 & E2 & D2 & Ht2); [done|set_solver|by rewrite union_empty_r_L|].
  rewrite E2. cbn [rbind]. rewrite D2. cbv zeta. set (m := Z.min (n - tot) (BSIZE - off mod BSIZE)).
  assert (Hm : 0 < m /\ m <= n - tot /\ off mod BSIZE + m <= BSIZE) by lia. destruct Hm as (Hm1 & Hm2 & Hm3).
  replace (take _ (drop _ (L x))) with (fbytes L (i_addrs ip) off m) by (symmetry; apply fbytes_block; done || lia).
  assert (Hlen : Z.of_nat (length (fbytes L (i_addrs ip) off m)) = m).
  { unfold fbytes. rewrite length_fmap, length_seqZ. lia. }
  destruct (sk_split u dst (fbytes L (i_addrs ip) off m) (n - tot) Hfit) as [Hf1 Hf2]; [lia|].
  rewrite sk_ok by done. cbn [rbind]. rewrite Hlen in Hf2.
  destruct (stx_relse o t2 L ∅ P x Ht2) as (t3 & E3 & Ht3); [set_solver|]. rewrite E3. cbn [rbind].
  destruct (IH (dst + m) (off + m) (tot + m) (sk_put u dst (fbytes L (i_addrs ip) off m)) t3) as (t' & E & Ht'); auto; [lia|lia| | | |].
  - intros bn Hbn Hbn2. apply Hblk; [|lia]. etransitivity; [|apply Hbn]. apply Z.div_le_mono; [done|lia].
  - intros Hlt2. assert (m = BSIZE - off mod BSIZE) as E by lia. rewrite E in Hlt2 |- *. change BSIZE with 1024 in *. zsolve.
  - by replace (n - (tot + m)) with (n - tot - m) by lia.
  - exists t'. split; [|done]. rewrite E. do 3 f_equal. rewrite (fbytes_split L (i_addrs ip) off m (n - tot)) by lia.
    rewrite <- sk_app, Hlen; [by replace (n - tot - m) with (n - (tot + m)) by lia|].
    rewrite length_app, Nat2Z.inj_add, Hlen. unfold fbytes. rewrite length_fmap, length_seqZ.
    by replace (m + Z.of_nat (Z.to_nat (n - tot - m))) with (n - tot) by lia.
Qed.

(** readi of [n] bytes at [off]: what of the range is in the file. *)
Lemma readi_spec o ip dst off n u t L P :
  disk_ok L -> stxo o t L ∅ P -> Z.of_nat (size P) < NBUF -> 0 <= off -> 0 <= n -> off + n < 2 ^ 32 ->
  0 <= i_size ip <= MAXFILE * BSIZE ->
  (forall bn, 0 <= bn -> bn * BSIZE < i_size ip -> blk L (i_addrs ip) bn <> 0) ->
  let k := Z.max 0 (Z.min n (i_size ip - off)) in
  sk_fits u dst k ->
  exists t', readi sb cp ip dst off n u t = Ok (k, ip, sk_put u dst (fbytes L (i_addrs ip) off k), t') /\ stxo o t' L ∅ P.
Proof.
  intros HL Ht Hn Hoff Hn0 Hov Hsz Hblk k Hfit. unfold readi. rewrite u32_small by lia. change (MAXFILE * BSIZE) with 274432 in Hsz.
  destruct (Z.ltb_spec (i_size ip) off); cbn [orb].
  { exists t. assert (k = 0) as -> by lia. unfold fbytes. by rewrite sk_nil. }
  destruct (Z.ltb_spec (off + n) off); [lia|]. cbv zeta.
  set (n' := if i_size ip <? off + n then i_size ip - off else n).
  assert (Ek : k = n') by (unfold n', k; bcase; lia). rewrite Ek in *. assert (Hn' : 0 <= n' <= i_size ip - off) by (unfold n'; bcase; lia).
  destruct (readi_loop_spec (Z.to_nat (n' / BSIZE + 2)) o ip dst off n' 0 u t L P) as (t' & E & Ht'); auto; [lia| | |by rewrite Z.sub_0_r|].
  - intros bn Hb1 Hb2. pose proof (Z.div_pos off BSIZE Hoff ltac:(done)). change MAXFILE with 268. change BSIZE with 1024 in *.
    split; [lia|apply Hblk; lia].
  - change BSIZE with 1024. zsolve.
  - rewrite E. cbn [rbind]. rewrite Z.sub_0_r. exists t'. split; [|done]. by rewrite s32_small by lia.
Qed.
End read.

(** ** Writing *)

(** New contents for one data block of the file. *)
Lemma data_update L a i d :
  sb_ok sb -> file_ok sb L a -> disk_ok L -> 0 <= i < NSLOT -> i <> NDIRECT -> slot L a i <> 0 -> is_block d -> Forall is_byte d ->
  let L2 := fupd L (slot L a i) d in
  file_ok sb L2 a /\ grow sb L a L2 a /\ disk_ok L2 /\ (forall j, slot L2 a j = slot L a j) /\
  (forall x, 0 <= x < sb_size sb -> used sb L2 x = used sb L x).
Proof.
  intros Hsb Hf HL Hi Hne H0 Hd1 Hd2 L2. destruct (fo_slot _ _ _ Hf i Hi H0) as [Hr Hu].
  assert (Hu2 : forall x, 0 <= x < sb_size sb -> used sb L2 x = used sb L x).
  { intros x Hx. apply used_off_bmap; [|done]. unfold is_bmap. lia. }
  assert (Hs2 : forall j, slot L2 a j = slot L a j).
  { intros j. apply slot_ext. intros Hn0. unfold L2. apply fupd_ne. intros E. apply Hne. symmetry.
    apply (fo_inj _ _ _ Hf); [done|done|by rewrite slot_low|by rewrite slot_low]. }
  pose proof (sb_pos sb Hsb) as [Hp _]. split_and!; auto.
  - split; [apply Hf| |].
    + intros j Hj Hjn. rewrite Hs2 in *. destruct (fo_slot _ _ _ Hf j Hj Hjn). split; [done|]. rewrite Hu2 by lia. done.
    + intros j k Hj Hk. rewrite !Hs2. by apply (fo_inj _ _ _ Hf).
  - split.
    + intros j _ _. apply Hs2.
    + intros j _ E. rewrite Hs2. congruence.
    + intros x Hx Hux. by rewrite Hu2.
    + intros x Hx Hux. rewrite Hu2 in Hux by done. by left.
    + intros x Hx _ _ Ho. unfold L2. apply fupd_ne. intros ->. apply Ho. by exists i.
  - by apply disk_ok_fupd.
Qed.

(** Log budget for [k] more file blocks: they, the indirect block, and [R]. *)
Definition lbudget (R P : gset Z) (a : list Z) (k : Z) : Prop :=
  Z.of_nat (size (P ∪ R ∪ {[nthZ a NDIRECT]})) + (if nthZ a NDIRECT =? 0 then 1 else 0) + k < tcap.

Lemma lbudget_room R P a k : 0 <= k -> lbudget R P a (k + 1) -> room R P (if nthZ a NDIRECT =? 0 then 2 else 1).
Proof.
  unfold lbudget, room. intros Hk Hb.
  assert (size (P ∪ R) <= size (P ∪ R ∪ {[nthZ a NDIRECT]}))%nat by (apply subseteq_size; set_solver).
  destruct (_ =? 0); lia.
Qed.

Lemma lbudget_step R P a k addr a' P' :
  lbudget R P a (k + 1) -> P' ⊆ P ∪ R ∪ {[addr; nthZ a' NDIRECT]} ->
  (nthZ a NDIRECT <> 0 -> nthZ a' NDIRECT = nthZ a NDIRECT) -> lbudget R ({[addr]} ∪ P') a' k.
Proof.
  unfold lbudget. intros Hb HP' Hi. set (x := nthZ a NDIRECT) in *. set (y := nthZ a' NDIRECT) in *.
  destruct (Z.eqb_spec x 0) as [Ex|Ex]; [|specialize (Hi Ex)].
  - assert (size ({[addr]} ∪ P' ∪ R ∪ {[y]}) <= size ({[addr]} ∪ ({[y]} ∪ (P ∪ R ∪ {[x]}))))%nat by (apply subseteq_size; set_solver).
    destruct (Z.eqb_spec y 0) as [Ey|Ey].
    + assert (size ({[addr]} ∪ ({[y]} ∪ (P ∪ R ∪ {[x]}))) <= size ({[addr]} ∪ (P ∪ R ∪ {[x]})))%nat
        by (apply subseteq_size; rewrite Ex, Ey; set_solver).
      pose proof (size_add addr (P ∪ R ∪ {[x]})). lia.
    + pose proof (size_add addr ({[y]} ∪ (P ∪ R ∪ {[x]}))). pose proof (size_add y (P ∪ R ∪ {[x]})). lia.
  - rewrite Hi. assert (size ({[addr]} ∪ P' ∪ R ∪ {[x]}) <= size ({[addr]} ∪ (P ∪ R ∪ {[x]})))%nat
      by (apply subseteq_size; rewrite Hi in HP'; set_solver).
    pose proof (size_add addr (P ∪ R ∪ {[x]})). destruct (Z.eqb_spec x 0); [done|]. lia.
Qed.

(** What is known of the file after part of a write: bytes [lo, hi) are new. *)
Record wrote (L : Z -> block) (a : list Z) (L' : Z -> block) (a' : list Z) (gb : Z -> Z) (lo hi : Z) : Prop := {
  wr_ok : file_ok sb L' a';
  wr_grow : grow sb L a L' a';
  wr_disk : disk_ok L';
  wr_in : forall o, lo <= o < hi -> blk L' a' (o / BSIZE) <> 0 /\ fbyte L' a' o = gb (o - lo);
  wr_out : forall o, 0 <= o < MAXFILE * BSIZE -> ~ (lo <= o < hi) -> blk L a (o / BSIZE) <> 0 -> fbyte L' a' o = fbyte L a o;
}.

Lemma wrote_nil L a gb lo : file_ok sb L a -> disk_ok L -> wrote L a L a gb lo lo.
Proof. intros. split; auto; [apply grow_refl|lia]. Qed.

Lemma wrote_ext L a L' a' gb gb' lo hi :
  wrote L a L' a' gb lo hi -> (forall k, gb k = gb' k) -> wrote L a L' a' gb' lo hi.
Proof. intros [] Hg. split; auto. intros o Ho. rewrite <- Hg. auto. Qed.

Lemma wrote_blk L a L' a' gb lo hi bn :
  wrote L a L' a' gb lo hi -> 0 <= bn < MAXFILE -> blk L a bn <> 0 -> blk L' a' bn = blk L a bn.
Proof. intros Hw Hb H0. apply (gr_slots _ _ _ _ _ (wr_grow _ _ _ _ _ _ _ Hw)); [by apply bslot_range|done]. Qed.

Lemma wrote_app L a L1 a1 L2 a2 gb lo mid hi :
  sb_ok sb -> wrote L a L1 a1 gb lo mid -> wrote L1 a1 L2 a2 (fun k => gb (k + (mid - lo))) mid hi ->
  0 <= lo <= mid -> mid <= hi -> hi <= MAXFILE * BSIZE -> wrote L a L2 a2 gb lo hi.
Proof.
  intros Hsb W1 W2 Hlo Hmid Hhi.
  assert (Hdiv : forall o, 0 <= o < MAXFILE * BSIZE -> 0 <= o / BSIZE < MAXFILE).
  { intros o Ho. split; [apply Z.div_pos; done || lia|apply Z.div_lt_upper_bound; [done|lia]]. }
  assert (Hmid' : mid <= MAXFILE * BSIZE) by lia.
  split; try apply W2; [by eapply grow_trans; [done|apply W1|apply W2]| |].
  - intros o Ho. destruct (Z.ltb_spec o mid).
    + destruct (wr_in _ _ _ _ _ _ _ W1 o ltac:(lia)) as [Hb1 Hv1].
      rewrite (wrote_blk _ _ _ _ _ _ _ _ W2) by (done || apply Hdiv; lia). split; [done|].
      rewrite (wr_out _ _ _ _ _ _ _ W2 o) by (lia || done). done.
    + destruct (wr_in _ _ _ _ _ _ _ W2 o ltac:(lia)) as [Hb2 Hv2]. split; [done|]. rewrite Hv2. f_equal. lia.
  - intros o Ho Hn Hb0. rewrite (wr_out _ _ _ _ _ _ _ W2), (wr_out _ _ _ _ _ _ _ W1); auto; try lia.
    by rewrite (wrote_blk _ _ _ _ _ _ _ _ W1) by (done || apply Hdiv; lia).
Qed.

Lemma div_file o : 0 <= o < MAXFILE * BSIZE -> 0 <= o / BSIZE < MAXFILE.
Proof. intros Ho. split; [apply Z.div_pos; done || lia|apply Z.div_lt_upper_bound; [done|lia]]. Qed.

Lemma bmap_wrote R L a P bn addr L' a' P' gb lo :
  sb_ok sb -> file_ok sb L a -> bmap_post sb R L a P bn addr L' a' P' -> wrote L a L' a' gb lo lo.
Proof.
  intros Hsb Hf Hb. split; try apply Hb; [lia|]. intros o Ho _ H0. unfold fbyte.
  pose proof (sb_pos sb Hsb) as [Hp _]. pose proof (div_file o Ho) as Hd. pose proof (bslot_range _ Hd) as [Hs Hs'].
  destruct (fo_slot _ _ _ Hf _ Hs H0) as [Hr Hu]. unfold blk.
  rewrite (gr_slots _ _ _ _ _ (bp_grow _ _ _ _ _ _ _ _ _ _ Hb)) by done.
  rewrite (bp_data _ _ _ _ _ _ _ _ _ _ Hb); auto; [lia|unfold is_bmap; lia|].
  intros E. apply Hs'. apply (fo_inj _ _ _ Hf); auto; rewrite ?slot_low; done.
Qed.

Lemma nthZ_splice i new l o :
  (i + length new <= length l)%nat -> 0 <= o ->
  nthZ (splice i new l) o = if (Z.of_nat i <=? o) && (o <? Z.of_nat (i + length new)) then nthZ new (o - Z.of_nat i) else nthZ l o.
Proof.
  intros Hl Ho. unfold nthZ. destruct (Z.leb_spec (Z.of_nat i) o), (Z.ltb_spec o (Z.of_nat (i + length new))); simpl.
  - replace (Z.to_nat o) with (i + Z.to_nat (o - Z.of_nat i))%nat by lia. by rewrite splice_lookup_in by lia.
  - by rewrite splice_lookup_out by lia.
  - by rewrite splice_lookup_out by lia.
  - by rewrite splice_lookup_out by lia.
Qed.

Lemma data_wrote L a off m bs gb :
  sb_ok sb -> file_ok sb L a -> disk_ok L -> 0 <= off -> off / BSIZE < MAXFILE -> 0 <= m -> off mod BSIZE + m <= BSIZE ->
  let addr := blk L a (off / BSIZE) in
  addr <> 0 -> Z.of_nat (length bs) = m -> Forall is_byte bs -> (forall k, 0 <= k < m -> nthZ bs k = gb k) ->
  wrote L a (fupd L addr (splice (Z.to_nat (off mod BSIZE)) bs (L addr))) a gb off (off + m).
Proof.
  intros Hsb Hf HL Hoff Hbn Hm Hb addr H0 Hlen Hbytes Hgb. destruct (HL addr) as [Hl1 Hl2]. unfold is_block in Hl1.
  pose proof (Z.mod_pos_bound off BSIZE ltac:(done)) as Hmod. pose proof (Z.div_pos off BSIZE Hoff ltac:(done)) as Hq.
  assert (Hfit : (Z.to_nat (off mod BSIZE) + length bs <= length (L addr))%nat) by (change BSIZE with 1024 in *; lia).
  pose proof (bslot_range (off / BSIZE) ltac:(lia)) as [Hs Hs'].
  destruct (data_update L a (bslot (off / BSIZE)) (splice (Z.to_nat (off mod BSIZE)) bs (L addr))) as (W1 & W2 & W3 & W4 & W5); auto.
  { unfold is_block. by rewrite length_splice. }
  { by apply splice_bytes. }
  change (slot L a (bslot (off / BSIZE))) with addr in *. set (L2 := fupd L addr _) in *.
  assert (Hblk : forall bn, blk L2 a bn = blk L a bn) by (intros; apply W4).
  split; auto.
  - intros o Ho. destruct (div_same_block off m (o - off) ltac:(lia) Hb) as [E1 E2]. replace (off + (o - off)) with o in E1, E2 by lia.
    rewrite Hblk, E1. split; [done|]. unfold fbyte. rewrite Hblk, E1, E2. unfold L2. fold addr. rewrite fupd_eq, nthZ_splice by lia || done.
    destruct (Z.leb_spec (Z.of_nat (Z.to_nat (off mod BSIZE))) (off mod BSIZE + (o - off))); [|lia].
    destruct (Z.ltb_spec (off mod BSIZE + (o - off)) (Z.of_nat (Z.to_nat (off mod BSIZE) + length bs))); [|lia]. cbn [andb].
    rewrite Hgb by lia. f_equal. lia.
  - intros o Ho Hn Hb0. unfold fbyte. rewrite Hblk. pose proof (div_file o Ho) as Hd.
    destruct (decide (o / BSIZE = off / BSIZE)) as [E|E].
    + rewrite E. fold addr. unfold L2. rewrite fupd_eq, nthZ_splice by (done || apply Z.mod_pos_bound; done).
      destruct (Z.leb_spec (Z.of_nat (Z.to_nat (off mod BSIZE))) (o mod BSIZE)); [|done].
      destruct (Z.ltb_spec (o mod BSIZE) (Z.of_nat (Z.to_nat (off mod BSIZE) + length bs))); [|done]. exfalso. apply Hn.
      change BSIZE with 1024 in *. zsolve.
    + unfold L2. rewrite fupd_ne; [done|]. intros E'. apply E, bslot_inj; [done|lia|].
      apply (fo_inj _ _ _ Hf); auto. by apply bslot_range.
Qed.

Lemma lbudget_mono R P P' a k k' : P' ⊆ P -> k' <= k -> lbudget R P a k -> lbudget R P' a k'.
Proof.
  unfold lbudget. intros HP Hk Hb.
  assert (size (P' ∪ R ∪ {[nthZ a NDIRECT]}) <= size (P ∪ R ∪ {[nthZ a NDIRECT]}))%nat by (apply subseteq_size; set_solver). lia.
Qed.

Lemma lbudget_log R P a k : 0 <= k -> lbudget R P a k -> room R P 0 /\ Z.of_nat (size P) < tcap.
Proof.
  intros Hk Hb. assert (room R P 0).
  { unfold lbudget, room in *.
    assert (size (P ∪ R) <= size (P ∪ R ∪ {[nthZ a NDIRECT]}))%nat by (apply subseteq_size; set_solver).
    destruct (_ =? 0); lia. }
  split; [done|]. by apply (room_log R P 0).
Qed.

Lemma grow_ind L a L' a' : grow sb L a L' a' -> nthZ a NDIRECT <> 0 -> nthZ a' NDIRECT = nthZ a NDIRECT.
Proof.
  intros Hg H0. pose proof (gr_slots _ _ _ _ _ Hg NDIRECT ltac:(done)) as E. rewrite !slot_low in E by done. by apply E.
Qed.

Section write.
(** A source that provides every byte of [slo, shi). *)
Context (ci : Z -> Z -> res (list Z * bool)) (gb : Z -> Z) (slo shi : Z).
Context (ci_ok : forall s m, slo <= s -> 0 <= m -> s + m <= shi -> ci s m = Ok (gb <$> seqZ s m, true)).
Context (gb_byte : forall x, is_byte (gb x)).

Lemma nthZ_fmap_seqZ (f : Z -> Z) s m k : 0 <= k < m -> nthZ (f <$> seqZ s m) k = f (s + k).
Proof.
  intros Hk. unfold nthZ. rewrite list_lookup_fmap, lookup_seqZ_lt by lia. simpl. f_equal. lia.
Qed.

Lemma writei_loop_spec fuel R ip src off n tot t L P k :
  sb_ok sb -> disk_ok L -> meta_used sb L -> file_ok sb L (i_addrs ip) -> stx t L ∅ P -> bmap_in sb R ->
  0 <= off -> tot <= n -> off + (n - tot) <= MAXFILE * BSIZE -> slo <= src -> src + (n - tot) <= shi ->
  0 <= k <= Z.of_nat fuel -> (tot < n -> off mod BSIZE + (n - tot) <= k * BSIZE) -> lbudget R P (i_addrs ip) k ->
  exists d a' t' L' P', writei_loop sb fuel ci ip src off n tot t = Ok (tot + d, off + d, set_addrs ip a', t') /\
    0 <= d <= n - tot /\ stx t' L' ∅ P' /\ wrote L (i_addrs ip) L' a' (fun j => gb (src + j)) off (off + d) /\
    (d < n - tot -> (d = 0 \/ (off + d) mod BSIZE = 0) /\ forall x, 0 <= x < sb_size sb -> used sb L' x = true) /\ lbudget R P' a' 0.
Proof.
  intros Hsb. revert ip src off tot t L P k.
  induction fuel as [|fuel IH]; intros ip src off tot t L P k HL Hm Hf Ht HR Hoff Htot Hmax Hslo Hshi Hk Hfuel Hbud;
    assert (Hip : set_addrs ip (i_addrs ip) = ip) by (by destruct ip);
    pose proof (Z.mod_pos_bound off BSIZE ltac:(done)) as Hmod; cbn [writei_loop];
    (destruct (Z.ltb_spec tot n) as [Hlt|Hge];
      [specialize (Hfuel Hlt)|exists 0, (i_addrs ip), t, L, P; rewrite !Z.add_0_r, Hip; split_and!; auto; try lia;
         [by apply wrote_nil|eapply lbudget_mono; [done| |exact Hbud]; lia]]); [change BSIZE with 1024 in *; lia|].
  assert (Hk1 : 1 <= k) by (change BSIZE with 1024 in *; lia).
  replace k with ((k - 1) + 1) in Hbud by lia. pose proof (lbudget_room R P _ (k - 1) ltac:(lia) Hbud) as Hroom.
  pose proof (div_file off ltac:(lia)) as Hdiv.
  destruct (bmap_spec sb R ip (off / BSIZE) t L P) as (addr & a1 & t1 & L1 & P1 & E1 & Ht1 & Hpost); auto.
  rewrite E1. cbn [rbind]. pose proof (bmap_wrote R L _ P _ addr L1 a1 P1 (fun j => gb (src + j)) off Hsb Hf Hpost) as W1.
  destruct (bp_log _ _ _ _ _ _ _ _ _ _ Hpost) as [HP1 HP2].
  pose proof (lbudget_step R P _ _ addr a1 P1 Hbud HP2 (grow_ind _ _ _ _ (wr_grow _ _ _ _ _ _ _ W1))) as Hbud1.
  destruct (Z.eqb_spec addr 0) as [Ea|Ea].
  { exists 0, a1, t1, L1, P1. rewrite !Z.add_0_r. split_and!; auto; try lia.
    - intros _. split; [by left|]. by apply Hpost.
    - eapply lbudget_mono; [|  |exact Hbud1]; [set_solver|lia]. }
  pose proof (wr_ok _ _ _ _ _ _ _ W1) as Hf1. pose proof (wr_disk _ _ _ _ _ _ _ W1) as HL1.
  pose proof (bp_addr _ _ _ _ _ _ _ _ _ _ Hpost) as Haddr.
  destruct (lbudget_log R P1 a1 (k - 1)) as [Hr1 Hc1]; [lia|eapply lbudget_mono; [| |exact Hbud1]; [set_solver|lia]|].
  destruct (stx_modify t1 L1 ∅ P1 addr) as (t2 & E2 & D2 & Hmd);
    [done|set_solver|pose proof tcap_small; rewrite union_empty_r_L; lia|done|].
  rewrite E2. cbn [rbind]. rewrite D2. cbv zeta. set (m := Z.min (n - tot) (BSIZE - off mod BSIZE)).
  assert (Hm' : 0 < m /\ m <= n - tot /\ off mod BSIZE + m <= BSIZE) by lia. destruct Hm' as (Hm1 & Hm2 & Hm3).
  rewrite ci_ok by lia. cbn [rbind]. set (bs := gb <$> seqZ src m).
  destruct (Hmd (splice (Z.to_nat (off mod BSIZE)) bs (L1 addr))) as (t3 & t4 & E3 & E4 & Ht4). rewrite E3. cbn [rbind]. rewrite E4. cbn [rbind].
  assert (W2 : wrote L1 a1 (fupd L1 addr (splice (Z.to_nat (off mod BSIZE)) bs (L1 addr))) a1 (fun j => gb (src + (j + (off - off)))) off (off + m)).
  { rewrite <- Haddr. apply data_wrote; auto; try lia; try congruence.
    - unfold bs. rewrite length_fmap, length_seqZ. lia.
    - apply Forall_fmap, Forall_true. intros; apply gb_byte.
    - intros j Hj. unfold bs. rewrite nthZ_fmap_seqZ by lia. f_equal. lia. }
  pose proof (wrote_app _ _ _ _ _ _ (fun j => gb (src + j)) off off (off + m) Hsb W1 W2 ltac:(lia) ltac:(lia) ltac:(lia)) as W.
  set (L2 := fupd L1 addr _) in *.
  destruct (IH (set_addrs ip a1) (src + m) (off + m) (tot + m) t4 L2 ({[addr]} ∪ P1) (k - 1)) as (d & a' & t' & L' & P' & E & Hd & Ht' & Wd & Hfull & Hb');
    cbn [i_addrs set_addrs]; auto; try lia; try apply W.
  - eapply meta_used_mono; [done|exact (gr_used _ _ _ _ _ (wr_grow _ _ _ _ _ _ _ W))|done].
  - intros Hlt2. assert (m = BSIZE - off mod BSIZE) as Em by lia. rewrite Em in Hlt2 |- *. change BSIZE with 1024 in *. zsolve.
  - exists (m + d), a', t', L', P'. rewrite !Z.add_assoc. split_and!; auto; try lia.
    + eapply wrote_app; [done|exact W| |lia|lia|lia]. eapply wrote_ext; [exact Wd|]. intros j. simpl. f_equal. lia.
    + intros Hd2. destruct (Hfull ltac:(lia)) as [Hst Hall]. split; [|done]. right. destruct Hst as [->|Hst]; [rewrite Z.add_0_r|done].
      assert (m = BSIZE - off mod BSIZE) as Em by lia. rewrite Em. change BSIZE with 1024 in *. zsolve.
Qed.
End write.
End io.
