(* ===== verification/FsInode.v ===== *)
(** * Inodes on disk: iupdate, ilock's load and whole-file operations

    The encoding of a dinode in its block, and [writei]/[readi] as operations
    on the byte array a file stands for. *)

From S2P Require Import Prelude Riscv Block Log Txn Fs FsBlocks FsFile FsIO.

(** ** Splices *)
Lemma splice_field {A} i k n (e l : list A) :
  (i + length e <= length l)%nat -> (k + n <= length e)%nat ->
  take n (drop (i + k) (splice i e l)) = take n (drop k e).
Proof.
  intros Hl Hk. apply list_eq. intros j. destruct (decide (j < n)%nat); [|by rewrite !lookup_take_ge by lia].
  rewrite !lookup_take_lt, !lookup_drop, <- Nat.add_assoc by lia. by apply splice_lookup_in; lia.
Qed.

Lemma concat_field (l : list Z) i x (rest : list Z) :
  l !! i = Some x ->
  take 4 (drop (4 * i) (concat ((fun y => le_encode 4 (u32 y)) <$> l) ++ rest)) = le_encode 4 (u32 x).
Proof.
  revert i. induction l as [|y l IH]; intros i Hi; [done|]. destruct i as [|i].
  - injection Hi as ->. done.
  - replace (4 * S i)%nat with (4 + 4 * i)%nat by lia. apply IH. done.
Qed.

(** ** dinodes *)
Definition dinode_at (d : block) (inum : Z) : Z * Z * Z * Z * Z * list Z :=
  let o := dip inum in (get16 d o, get16 d (o + 2), get16 d (o + 4), get16 d (o + 6), getu32 d (o + 8), get_addrs d o).
Definition dinode_of (ip : inode) : Z * Z * Z * Z * Z * list Z :=
  (i_type ip, i_major ip, i_minor ip, i_nlink ip, i_size ip, i_addrs ip).

Definition is_s16 (x : Z) : Prop := - 2 ^ 15 <= x < 2 ^ 15.
Definition is_u32 (x : Z) : Prop := 0 <= x < 2 ^ 32.
Record meta_ok (ip : inode) : Prop := {
  mo_type : is_s16 (i_type ip); mo_major : is_s16 (i_major ip); mo_minor : is_s16 (i_minor ip);
  mo_nlink : is_s16 (i_nlink ip); mo_size : is_u32 (i_size ip);
  mo_len : length (i_addrs ip) = 13%nat; mo_addrs : Forall is_u32 (i_addrs ip);
}.

Definition dinode_bytes (ip : inode) : list Z :=
  le_encode 2 (u16 (i_type ip)) ++ le_encode 2 (u16 (i_major ip)) ++ le_encode 2 (u16 (i_minor ip)) ++
  le_encode 2 (u16 (i_nlink ip)) ++ le_encode 4 (u32 (i_size ip)) ++ concat ((fun x => le_encode 4 (u32 x)) <$> i_addrs ip).

Lemma length_addr_bytes l : length (concat ((fun x => le_encode 4 (u32 x)) <$> l)) = (4 * length l)%nat.
Proof. induction l as [|x l IH]; [done|]. cbn [fmap list_fmap concat]. rewrite length_app, length_le_encode. simpl in *. lia. Qed.

Lemma length_dinode_bytes ip : length (i_addrs ip) = 13%nat -> length (dinode_bytes ip) = 64%nat.
Proof. intros Hl. unfold dinode_bytes. rewrite !length_app, !length_le_encode, length_addr_bytes, Hl. done. Qed.

Lemma dip_range inum : exists j, dip inum = 64 * Z.of_nat j /\ (j < 16)%nat /\ inum mod IPB = Z.of_nat j.
Proof.
  exists (Z.to_nat (inum mod IPB)). pose proof (Z.mod_pos_bound inum IPB ltac:(done)) as Hm. unfold dip.
  change IPB with 16 in *. change DINODE_SIZE with 64. lia.
Qed.

(** The next field of the encoding starts where the last one ends. *)
#[local] Ltac next_field n :=
  match goal with |- context [splice (Z.to_nat n) _ (splice ?o ?x _)] =>
    replace (Z.to_nat n) with (o + length x)%nat by (rewrite ?length_app, ?length_le_encode; lia) end.

Lemma dinode_put_splice d ip :
  is_block d -> length (i_addrs ip) = 13%nat -> dinode_put d ip = splice (Z.to_nat (dip (i_inum ip))) (dinode_bytes ip) d.
Proof.
  unfold is_block. intros Hd Hl. destruct (dip_range (i_inum ip)) as (j & E & Hj & _). unfold dinode_put, put16, put32, put_addrs. rewrite E. cbv zeta.
  set (o := (64 * j)%nat). replace (Z.to_nat (64 * Z.of_nat j)) with o by lia.
  replace (Z.to_nat (64 * Z.of_nat j + 2)) with (o + length (le_encode 2 (u16 (i_type ip))))%nat by (rewrite length_le_encode; lia).
  pose proof (length_addr_bytes (i_addrs ip)) as Hal. rewrite Hl in Hal.
  unfold dinode_bytes. rewrite !app_assoc.
  rewrite splice_app_l by (rewrite ?length_app, ?length_le_encode; lia).
  next_field (64 * Z.of_nat j + 4). rewrite splice_app_l by (rewrite ?length_app, ?length_le_encode; lia).
  next_field (64 * Z.of_nat j + 6). rewrite splice_app_l by (rewrite ?length_app, ?length_le_encode; lia).
  next_field (64 * Z.of_nat j + 8). rewrite splice_app_l by (rewrite ?length_app, ?length_le_encode; lia).
  next_field (64 * Z.of_nat j + 12). rewrite splice_app_l by (rewrite ?length_app, ?length_le_encode, ?Hal; lia). done.
Qed.

Lemma s16_u16 x : is_s16 x -> s16 (le_decode (le_encode 2 (u16 x))) = x.
Proof.
  unfold is_s16. intros Hx. rewrite le_decode_encode by apply u16_range. unfold s16, sgn, u16. rewrite Z.mod_mod by lia.
  destruct (decide (0 <= x)).
  - rewrite Z.mod_small by lia. bcase; simpl in *; lia.
  - replace (x mod 2 ^ 16) with (x + 2 ^ 16); [bcase; simpl in *; lia|].
    symmetry. rewrite <- (Z.mod_add x 1) by lia. apply Z.mod_small. lia.
Qed.

(** What iupdate stores, ilock loads. *)
Lemma dinode_put_eq d ip : is_block d -> meta_ok ip -> dinode_at (dinode_put d ip) (i_inum ip) = dinode_of ip.
Proof.
  intros Hd Hm. pose proof (mo_len _ Hm) as Hl. rewrite dinode_put_splice by done.
  destruct (dip_range (i_inum ip)) as (j & E & Hj & _). unfold dinode_at, dinode_of. rewrite E. cbv zeta.
  pose proof (length_dinode_bytes ip Hl) as Hb. unfold is_block in Hd. set (o := (64 * j)%nat).
  replace (Z.to_nat (64 * Z.of_nat j)) with o by lia.
  assert (F : forall k n, (k + n <= 64)%nat -> take n (drop (Z.to_nat (64 * Z.of_nat j + Z.of_nat k)) (splice o (dinode_bytes ip) d)) = take n (drop k (dinode_bytes ip))).
  { intros k n Hk. replace (Z.to_nat (64 * Z.of_nat j + Z.of_nat k)) with (o + k)%nat by lia. apply splice_field; lia. }
  destruct Hm as [M1 M2 M3 M4 M5 _ M7]. set (D := splice o (dinode_bytes ip) d) in *.
  assert (G : forall k x, (k + 2 <= 64)%nat -> take 2 (drop k (dinode_bytes ip)) = le_encode 2 (u16 x) -> is_s16 x ->
    get16 D (64 * Z.of_nat j + Z.of_nat k) = x).
  { intros k x Hk Hx Hs. unfold get16, getu16. rewrite F, Hx by lia. by apply s16_u16. }
  assert (E0 : get16 D (64 * Z.of_nat j) = i_type ip).
  { rewrite <- (Z.add_0_r (64 * Z.of_nat j)). by apply (G 0%nat); [lia| |]. }
  assert (E2 : get16 D (64 * Z.of_nat j + 2) = i_major ip) by (by apply (G 2%nat); [lia| |]).
  assert (E4 : get16 D (64 * Z.of_nat j + 4) = i_minor ip) by (by apply (G 4%nat); [lia| |]).
  assert (E6 : get16 D (64 * Z.of_nat j + 6) = i_nlink ip) by (by apply (G 6%nat); [lia| |]).
  rewrite E0, E2, E4, E6. f_equal; [f_equal|].
  - unfold getu32. change 8 with (Z.of_nat 8). rewrite F by lia. transitivity (le_decode (le_encode 4 (u32 (i_size ip)))); [done|].
    rewrite le_decode_encode by apply u32_range. by apply u32_small.
  - unfold get_addrs. apply list_eq. intros i. rewrite list_lookup_fmap. destruct (decide (i < 13)%nat) as [Hi|Hi].
    + rewrite lookup_seqZ_lt by (change NDIRECT with 12; lia). cbn [fmap option_fmap option_map].
      destruct (lookup_lt_is_Some_2 (i_addrs ip) i ltac:(lia)) as [x Hx]. rewrite Hx. f_equal. unfold getu32.
      replace (64 * Z.of_nat j + 12 + 4 * (0 + Z.of_nat i)) with (64 * Z.of_nat j + Z.of_nat (12 + 4 * i)) by lia.
      rewrite F by lia. unfold dinode_bytes. rewrite <- drop_drop.
      pose proof (concat_field (i_addrs ip) i x [] Hx) as Hc. rewrite app_nil_r in Hc.
      transitivity (le_decode (le_encode 4 (u32 x))).
      * f_equal. rewrite <- Hc. reflexivity.
      * rewrite le_decode_encode by apply u32_range. apply u32_small. by eapply Forall_lookup in M7.
    + rewrite lookup_seqZ_ge by (change NDIRECT with 12; lia). symmetry. apply lookup_ge_None. lia.
Qed.

Lemma dinode_put_ne d ip inum :
  is_block d -> length (i_addrs ip) = 13%nat -> inum mod IPB <> i_inum ip mod IPB ->
  dinode_at (dinode_put d ip) inum = dinode_at d inum.
Proof.
  intros Hd Hl Hne. rewrite dinode_put_splice by done. pose proof (length_dinode_bytes ip Hl) as Hb. unfold is_block in Hd.
  destruct (dip_range (i_inum ip)) as (j & E & Hj & Ej), (dip_range inum) as (j' & E' & Hj' & Ej').
  unfold dinode_at. rewrite E, E'. cbv zeta. set (D := splice _ _ d).
  assert (F : forall k n, (k + n <= 64)%nat -> take n (drop (Z.to_nat (64 * Z.of_nat j' + Z.of_nat k)) D) =
    take n (drop (Z.to_nat (64 * Z.of_nat j' + Z.of_nat k)) d)).
  { intros k n Hk. apply take_drop_splice_out; [lia|]. rewrite Hb. assert (j <> j') by congruence. lia. }
  unfold get16, getu16, getu32, get_addrs.
  pose proof (F 0%nat 2%nat) as F0. pose proof (F 2%nat 2%nat) as F2. pose proof (F 4%nat 2%nat) as F4.
  pose proof (F 6%nat 2%nat) as F6. pose proof (F 8%nat 4%nat) as F8. 
  change (Z.of_nat 0) with 0 in F0. change (Z.of_nat 2) with 2 in F2. change (Z.of_nat 4) with 4 in F4.
  change (Z.of_nat 6) with 6 in F6. change (Z.of_nat 8) with 8 in F8.
  rewrite Z.add_0_r in F0. rewrite F0, F2, F4, F6, F8 by lia. f_equal. apply list_fmap_ext. intros i x Hx.
  apply lookup_seqZ in Hx as [-> Hi]. change (NDIRECT + 1) with 13 in Hi. unfold getu32. f_equal.
  replace (64 * Z.of_nat j' + 12 + 4 * (0 + Z.of_nat i)) with (64 * Z.of_nat j' + Z.of_nat (12 + 4 * i)) by lia.
  apply F. lia.
Qed.

Lemma concat_bytes l : Forall is_byte (concat ((fun x => le_encode 4 (u32 x)) <$> l)).
Proof. induction l as [|x l IH]; [constructor|]. cbn [fmap list_fmap concat]. apply Forall_app. split; [apply le_encode_bytes|done]. Qed.

Lemma dinode_put_ok d ip :
  is_block d -> Forall is_byte d -> length (i_addrs ip) = 13%nat -> is_block (dinode_put d ip) /\ Forall is_byte (dinode_put d ip).
Proof.
  intros Hd Hb Hl. rewrite dinode_put_splice by done. pose proof (length_dinode_bytes ip Hl) as Hlb.
  destruct (dip_range (i_inum ip)) as (j & E & Hj & _). unfold is_block in *. split.
  - rewrite length_splice; lia.
  - apply splice_bytes; [|done]. unfold dinode_bytes. repeat (apply Forall_app; split; [apply le_encode_bytes|]). apply concat_bytes.
Qed.

Lemma iload_dinode ip d : dinode_of (iload ip d) = dinode_at d (i_inum ip) /\ i_valid (iload ip d) = true /\
  (i_dev (iload ip d), i_inum (iload ip d), i_ref (iload ip d), i_lock (iload ip d)) = (i_dev ip, i_inum ip, i_ref ip, i_lock ip).
Proof. done. Qed.

Section inode.
Context {T : Type} `{TO : TxnOps T} `{TL : !TxnLaws T} (sb : superblock).

Definition dinode_on (L : Z -> block) (inum : Z) := dinode_at (L (IBLOCK inum sb)) inum.

Lemma iblock_range inum : sb_ok sb -> 0 <= inum < sb_ninodes sb -> 2 <= IBLOCK inum sb < sb_bmapstart sb.
Proof.
  intros [H1 H2 H3 H4] Hi. unfold IBLOCK. pose proof (Z.div_pos inum IPB ltac:(lia) ltac:(done)).
  pose proof (Z.div_le_mono inum (sb_ninodes sb) IPB ltac:(done) ltac:(lia)). lia.
Qed.

Lemma iblock_data inum x : sb_ok sb -> 0 <= inum < sb_ninodes sb -> datastart sb <= x -> x <> IBLOCK inum sb.
Proof. intros Hsb Hi Hx. pose proof (iblock_range inum Hsb Hi). pose proof (sb_pos sb Hsb). lia. Qed.

Lemma iupdate_spec R ip t L B P :
  stx t L B P -> IBLOCK (i_inum ip) sb ∉ B -> (size B <= 1)%nat -> room R P 0 ->
  exists t', iupdate sb ip t = Ok t' /\
    stx t' (fupd L (IBLOCK (i_inum ip) sb) (dinode_put (L (IBLOCK (i_inum ip) sb)) ip)) B ({[IBLOCK (i_inum ip) sb]} ∪ P).
Proof.
  intros Ht Hb HB Hr. unfold iupdate.
  destruct (stx_modify t L B P (IBLOCK (i_inum ip) sb)) as (t1 & E1 & D1 & Hm);
    [done|done|by apply (room_cache R P B 0)|by apply (room_log R P 0)|].
  rewrite E1. cbn [rbind]. rewrite D1. destruct (Hm (dinode_put (L (IBLOCK (i_inum ip) sb)) ip)) as (t2 & t3 & E2 & E3 & Ht3).
  rewrite E2. cbn [rbind]. rewrite E3. eauto.
Qed.

Lemma dinode_on_put L ip inum :
  disk_ok L -> meta_ok ip -> 0 <= inum -> 0 <= i_inum ip ->
  dinode_on (fupd L (IBLOCK (i_inum ip) sb) (dinode_put (L (IBLOCK (i_inum ip) sb)) ip)) inum =
  if decide (inum = i_inum ip) then dinode_of ip else dinode_on L inum.
Proof.
  intros HL Hm Hi Hi'. destruct (HL (IBLOCK (i_inum ip) sb)) as [Hl _]. unfold dinode_on. destruct (decide (inum = i_inum ip)) as [->|Hne].
  - rewrite fupd_eq. by apply dinode_put_eq.
  - destruct (decide (IBLOCK inum sb = IBLOCK (i_inum ip) sb)) as [E|E]; [|by rewrite fupd_ne].
    rewrite E, fupd_eq. apply dinode_put_ne; [done|apply Hm|]. intros E2. apply Hne.
    rewrite (Z.div_mod inum IPB), (Z.div_mod (i_inum ip) IPB) by done. unfold IBLOCK in E. rewrite E2. f_equal. f_equal. lia.
Qed.

(** ** Whole files *)
Record ip_ok (L : Z -> block) (ip : inode) : Prop := {
  io_file : file_ok sb L (i_addrs ip);
  io_size : 0 <= i_size ip <= MAXFILE * BSIZE;
  io_blk : forall bn, 0 <= bn -> bn * BSIZE < i_size ip -> blk L (i_addrs ip) bn <> 0;
  io_meta : meta_ok ip;
  io_inum : 0 <= i_inum ip < sb_ninodes sb;
}.
Definition fcontent (L : Z -> block) (ip : inode) : list Z := fbytes L (i_addrs ip) 0 (i_size ip).

Record fs_disk (L : Z -> block) : Prop := { fd_ok : disk_ok L; fd_meta : meta_used sb L }.

Lemma file_ok_u32 L a : sb_ok sb -> file_ok sb L a -> Forall is_u32 a.
Proof.
  intros Hsb Hf. apply Forall_lookup. intros i x Hx. pose proof (lookup_lt_Some _ _ _ Hx) as Hi. rewrite (fo_len _ _ _ Hf) in Hi.
  assert (Hs : slot L a (Z.of_nat i) = x).
  { rewrite slot_low by (change NDIRECT with 12; lia). unfold nthZ. by rewrite Nat2Z.id, Hx. }
  destruct (decide (x = 0)) as [->|Hn]; [unfold is_u32; lia|].
  destruct (fo_slot _ _ _ Hf (Z.of_nat i)) as [Hr _]; [change NSLOT with 269; lia|congruence|].
  rewrite Hs in Hr. pose proof (sb_pos sb Hsb). destruct (so_size _ Hsb). unfold is_u32. lia.
Qed.

(** Blocks below the data area matter to no file. *)
Lemma file_ok_meta L a b d :
  sb_ok sb -> file_ok sb L a -> b < sb_bmapstart sb -> 
  file_ok sb (fupd L b d) a /\ (forall i, 0 <= i < NSLOT -> slot (fupd L b d) a i = slot L a i) /\
  (forall x, 0 <= x < sb_size sb -> used sb (fupd L b d) x = used sb L x).
Proof.
  intros Hsb Hf Hb. pose proof (sb_pos sb Hsb) as [Hp _].
  assert (Hu : forall x, 0 <= x < sb_size sb -> used sb (fupd L b d) x = used sb L x).
  { intros x Hx. apply used_off_bmap; [unfold is_bmap; lia|done]. }
  assert (Hs : forall i, 0 <= i < NSLOT -> slot (fupd L b d) a i = slot L a i).
  { intros i Hi. apply slot_ext. intros Hn. apply fupd_ne. intros E.
    destruct (fo_slot _ _ _ Hf NDIRECT) as [Hr _]; [done|by rewrite slot_low|]. rewrite slot_low in Hr by done. lia. }
  split; [|done]. split; [apply Hf| |].
  - intros i Hi Hn. rewrite Hs in * by done. destruct (fo_slot _ _ _ Hf i Hi Hn). rewrite Hu by lia. done.
  - intros i j Hi Hj. rewrite !Hs by done. by apply Hf.
Qed.

Lemma fbyte_meta L a b d o :
  sb_ok sb -> file_ok sb L a -> b < sb_bmapstart sb -> 0 <= o < MAXFILE * BSIZE -> blk L a (o / BSIZE) <> 0 ->
  fbyte (fupd L b d) a o = fbyte L a o.
Proof.
  intros Hsb Hf Hb Ho H0. destruct (file_ok_meta L a b d Hsb Hf Hb) as (_ & Hs & _). unfold fbyte, blk.
  pose proof (bslot_range _ (div_file o Ho)) as [Hr _]. rewrite Hs by done. rewrite fupd_ne; [done|].
  destruct (fo_slot _ _ _ Hf _ Hr H0). pose proof (sb_pos sb Hsb). lia.
Qed.

(** The byte array after a write of [d] bytes at [off]. *)
Lemma fcontent_splice L ip L' ip' gb off d :
  0 <= off <= i_size ip -> 0 <= d -> off + d <= MAXFILE * BSIZE -> i_size ip <= MAXFILE * BSIZE -> i_size ip' = Z.max (i_size ip) (off + d) ->
  (forall o, off <= o < off + d -> fbyte L' (i_addrs ip') o = gb (o - off)) ->
  (forall o, 0 <= o < i_size ip -> ~ (off <= o < off + d) -> fbyte L' (i_addrs ip') o = fbyte L (i_addrs ip) o) ->
  fcontent L' ip' = splice (Z.to_nat off) (gb <$> seqZ 0 d) (fcontent L ip).
Proof.
  intros Hoff Hd Hmax Hsz Hsz' Hin Hout. unfold fcontent, fbytes, splice. rewrite Hsz'. set (sz := i_size ip) in *.
  rewrite (seqZ_split 0 off (Z.max sz (off + d))), (seqZ_split (0 + off) d (Z.max sz (off + d) - off)) by lia. rewrite !fmap_app. f_equal; [|f_equal].
  - rewrite (seqZ_split 0 off sz), fmap_app by lia. rewrite take_app_le by (rewrite length_fmap, length_seqZ; lia).
    rewrite take_ge by (rewrite length_fmap, length_seqZ; lia). apply list_fmap_ext. intros i x Hx.
    apply lookup_seqZ in Hx as [-> Hi]. apply Hout; lia.
  - apply list_eq. intros i. rewrite !list_lookup_fmap. destruct (decide (Z.of_nat i < d)); [|by rewrite !lookup_seqZ_ge by lia].
    rewrite !lookup_seqZ_lt by lia. simpl. f_equal. rewrite Hin by lia. f_equal. lia.
  - rewrite length_fmap, length_seqZ. apply list_eq. intros i. rewrite lookup_drop, !list_lookup_fmap.
    destruct (decide (off + d + Z.of_nat i < sz)).
    + rewrite !lookup_seqZ_lt by lia. simpl. f_equal. rewrite Hout by lia. f_equal. lia.
    + by rewrite !lookup_seqZ_ge by lia.
Qed.

(** File blocks touched by [n] bytes at [off]. *)
Definition wblocks (off n : Z) : Z := (off mod BSIZE + n + BSIZE - 1) / BSIZE.

Lemma own_data L a x : sb_ok sb -> file_ok sb L a -> own L a x -> datastart sb <= x < sb_size sb.
Proof. intros Hsb Hf (i & Hi & <- & Hn). by apply (fo_slot _ _ _ Hf). Qed.

(** Meta-data blocks other than the bitmap survive the growth of a file. *)
Lemma grow_meta L a L' a' x :
  sb_ok sb -> file_ok sb L a -> meta_used sb L -> grow sb L a L' a' -> 0 <= x < sb_bmapstart sb -> L' x = L x.
Proof.
  intros Hsb Hf Hm Hg Hx. pose proof (sb_pos sb Hsb) as [Hp _]. destruct (so_size _ Hsb). apply Hg; [lia| | |].
  - apply Hm. lia.
  - unfold is_bmap. lia.
  - intros Ho. apply (own_data L a x Hsb Hf) in Ho. lia.
Qed.

Record writei_post (R : gset Z) (L : Z -> block) (ip : inode) (data : list Z) (off n d : Z)
    (L' : Z -> block) (ip' : inode) (P' : gset Z) : Prop := {
  wp_len : 0 <= d <= n;
  wp_disk : fs_disk L';
  wp_ip : ip_ok L' ip';
  wp_dinode : dinode_on L' (i_inum ip) = dinode_of ip';
  wp_content : fcontent L' ip' = splice (Z.to_nat off) data (fcontent L ip);
  wp_stop : d < n -> d = 0 \/ (off + d) mod BSIZE = 0;
  wp_full : d < n -> forall x, 0 <= x < sb_size sb -> used sb L' x = true;
  wp_inodes : forall j, 0 <= j < sb_ninodes sb -> j <> i_inum ip -> dinode_on L' j = dinode_on L j;
  wp_frame : forall x, datastart sb <= x < sb_size sb -> used sb L x = true -> ~ own L (i_addrs ip) x ->
    L' x = L x /\ used sb L' x = true /\ ~ own L' (i_addrs ip') x;
  wp_new : forall x, 0 <= x < sb_size sb -> used sb L' x = true -> used sb L x = true \/ own L' (i_addrs ip') x;
  wp_log : lbudget R P' (i_addrs ip') 0;
}.

Lemma writei_spec R ci gb ip src off n t L P :
  (forall s m, src <= s -> 0 <= m -> s + m <= src + n -> ci s m = Ok (gb <$> seqZ s m, true)) -> (forall x, is_byte (gb x)) ->
  sb_ok sb -> fs_disk L -> ip_ok L ip -> stx t L ∅ P -> bmap_in sb R -> IBLOCK (i_inum ip) sb ∈ R ->
  0 <= off <= i_size ip -> 0 <= n -> off + n <= MAXFILE * BSIZE -> lbudget R P (i_addrs ip) (wblocks off n) ->
  exists d ip' t' L' P', writei sb ci ip src off n t = Ok (d, ip', t') /\ stx t' L' ∅ P' /\
    ip' = set_size (set_addrs ip (i_addrs ip')) (Z.max (i_size ip) (off + d)) /\
    writei_post R L ip ((fun j => gb (src + j)) <$> seqZ 0 d) off n d L' ip' P'.
Proof.
  intros Hci Hgb Hsb [HL Hm] [F1 F2 F3 F4 F5] Ht HR HIR Hoff Hn Hmax Hbud.
  assert (Hmb : MAXFILE * BSIZE = 274432) by done. pose proof (sb_pos sb Hsb) as [Hp _]. destruct (so_size _ Hsb) as [Hs1 Hs2].
  pose proof (iblock_range (i_inum ip) Hsb F5) as Hib. set (IB := IBLOCK (i_inum ip) sb) in *.
  assert (Hk : 0 <= wblocks off n <= Z.of_nat (Z.to_nat (n / BSIZE + 2)) /\ off mod BSIZE + n <= wblocks off n * BSIZE).
  { unfold wblocks. change BSIZE with 1024. zsolve. }
  destruct (writei_loop_spec sb ci gb src (src + n) Hci Hgb (Z.to_nat (n / BSIZE + 2)) R ip src off n 0 t L P (wblocks off n))
    as (d & a' & t1 & L1 & P1 & E1 & Hd & Ht1 & W & Hfull & Hb1); auto; try lia.
  unfold writei. rewrite u32_small by lia. destruct (Z.ltb_spec (i_size ip) off); [lia|]. destruct (Z.ltb_spec (off + n) off); [lia|]. cbn [orb].
  destruct (Z.ltb_spec (MAXFILE * BSIZE) (off + n)); [lia|]. rewrite E1. cbn [rbind]. cbv zeta.
  set (ip' := set_size (set_addrs ip a') (Z.max (i_size ip) (off + d))).
  replace (if i_size (set_addrs ip a') <? off + d then set_size (set_addrs ip a') (off + d) else set_addrs ip a') with ip'
    by (unfold ip'; cbn [set_addrs i_size]; bcase; [by rewrite Z.max_r by lia|rewrite Z.max_l by lia; by destruct ip]).
  pose proof (wr_ok _ _ _ _ _ _ _ _ W) as Wok. pose proof (wr_grow _ _ _ _ _ _ _ _ W) as Wg. pose proof (wr_disk _ _ _ _ _ _ _ _ W) as Wd.
  destruct (lbudget_log R P1 a' 0 ltac:(lia) Hb1) as [Hr1 _].
  destruct (iupdate_spec R ip' t1 L1 ∅ P1) as (t2 & E2 & Ht2); [done|set_solver|rewrite size_empty; lia|done|].
  rewrite E2. cbn [rbind]. change (IBLOCK (i_inum ip') sb) with IB in Ht2. set (L2 := fupd L1 IB _) in *.
  destruct (file_ok_meta L1 a' IB (dinode_put (L1 IB) ip') Hsb Wok ltac:(lia)) as (Wok2 & Hs & Hu2). fold L2 in Wok2, Hs, Hu2.
  assert (Hmeta : meta_ok ip').
  { destruct F4. split; cbn; auto; [unfold is_u32; lia|apply Wok|by eapply file_ok_u32]. }
  assert (Hblk1 : forall bn, 0 <= bn -> bn * BSIZE < i_size ip' -> bn < MAXFILE /\ blk L1 a' bn <> 0).
  { intros bn Hbn Hlt. cbn in Hlt. assert (bn < MAXFILE) by (change MAXFILE with 268; change BSIZE with 1024 in *; lia). split; [done|].
    destruct (Z.ltb_spec (bn * BSIZE) (i_size ip)).
    - rewrite (wrote_blk _ _ _ _ _ _ _ _ _ W); auto.
    - destruct (wr_in _ _ _ _ _ _ _ _ W (bn * BSIZE)) as [Hnz _]; [lia|]. by rewrite Z.div_mul in Hnz by done. }
  assert (Hdiv : forall o, 0 <= o < i_size ip' -> blk L1 a' (o / BSIZE) <> 0 /\ 0 <= o < MAXFILE * BSIZE).
  { intros o Ho. cbn in Ho. split; [|lia]. apply Hblk1; [apply Z.div_pos; [lia|done]|]. pose proof (Z.mul_div_le o BSIZE ltac:(done)). cbn. lia. }
  exists d, ip', t2, L2, ({[IB]} ∪ P1). split; [by rewrite s32_small by lia|]. split; [done|]. split; [done|].
  destruct (dinode_put_ok (L1 IB) ip') as [Hpo1 Hpo2]; [apply Wd|apply Wd|apply Wok|].
  split.
  - lia.
  - split; [by apply disk_ok_fupd|]. eapply meta_used_mono; [done| |exact Hm]. intros x Hx Hux. rewrite Hu2 by done. by apply Wg.
  - split; cbn; auto; [lia|]. intros bn Hbn Hlt. destruct (Hblk1 bn Hbn Hlt) as [? Hnz]. unfold blk. rewrite Hs; [done|by apply bslot_range].
  - pose proof (dinode_on_put L1 ip' (i_inum ip') Wd Hmeta ltac:(cbn; lia) ltac:(cbn; lia)) as E. by rewrite decide_True in E by done.
  - apply fcontent_splice; cbn [i_size ip' i_addrs set_size set_addrs]; auto; try lia.
    + intros o Ho. destruct (Hdiv o) as [Hnz Hr]; [cbn; lia|]. unfold L2. rewrite fbyte_meta by (done || lia).
      destruct (wr_in _ _ _ _ _ _ _ _ W o Ho) as [_ ->]. done.
    + intros o Ho Hno. destruct (Hdiv o) as [Hnz Hr]; [cbn; lia|]. unfold L2. rewrite fbyte_meta by (done || lia).
      apply (wr_out _ _ _ _ _ _ _ _ W); auto. apply F3; [apply Z.div_pos; [lia|done]|]. pose proof (Z.mul_div_le o BSIZE ltac:(done)). lia.
  - intros Hlt. apply Hfull. lia.
  - intros Hlt x Hx. rewrite Hu2 by done. apply Hfull; [lia|done].
  - intros j Hj Hne. transitivity (dinode_on L1 j).
    { pose proof (dinode_on_put L1 ip' j Wd Hmeta ltac:(lia) ltac:(cbn; lia)) as E. by rewrite decide_False in E by done. }
    unfold dinode_on. pose proof (iblock_range j Hsb Hj). f_equal. eapply grow_meta; eauto. lia.
  - intros x Hx Hux Hno. assert (Hx' : 0 <= x < sb_size sb) by lia. split_and!.
    + unfold L2. rewrite fupd_ne by lia. apply Wg; auto. unfold is_bmap. lia.
    + rewrite Hu2 by done. by apply Wg.
    + intros (i & Hi & Hsl & Hn0). rewrite Hs in Hsl by done. apply Hno. eapply grow_own_inv; [exact Wg|done|]. by exists i.
  - intros x Hx Hux. rewrite Hu2 in Hux by done. destruct (gr_new _ _ _ _ _ Wg x Hx Hux) as [|(i & Hi & Hsl & Hn0)]; [by left|right].
    exists i. split; [done|]. by rewrite Hs.
  - unfold lbudget in *. replace ({[IB]} ∪ P1 ∪ R) with (P1 ∪ R) by set_solver. done.
Qed.
End inode.
