(* ===== verification/FsTrunc.v ===== *)
(** * Truncation: itrunc returns every block of the file to the bitmap

    [freed L X L']: from [L] to [L'] exactly the blocks of [X] became free and
    nothing but the bitmap changed. *)

From S2P Require Import Prelude Riscv Block Log Txn Fs FsBlocks FsFile FsIO FsInode.

(** The nonzero values of [g] on [i, i+k). *)
Definition fset (g : Z -> Z) (i k : Z) : gset Z := list_to_set (g <$> seqZ i k) ∖ {[0]}.

Lemma elem_fset g i k x : x ∈ fset g i k <-> x <> 0 /\ exists j, i <= j < i + k /\ g j = x.
Proof.
  unfold fset. rewrite elem_of_difference, elem_of_list_to_set, list_elem_of_fmap, elem_of_singleton. split.
  - intros [(j & -> & Hj%elem_of_seqZ) Hx]. split; [done|]. exists j. split; [lia|done].
  - intros [Hx (j & Hj & <-)]. split; [|done]. exists j. split; [done|]. apply elem_of_seqZ. lia.
Qed.

Lemma fset_step g i k : 0 <= k ->
  fset g i (k + 1) = (if decide (g i = 0) then fset g (i + 1) k else {[g i]} ∪ fset g (i + 1) k).
Proof.
  intros Hk. apply set_eq. intros x. rewrite elem_fset. destruct (decide (g i = 0)) as [E|E].
  - rewrite elem_fset. split; intros [Hx (j & Hj & Hg)]; (split; [done|]); exists j; (split; [|done]); [|lia].
    destruct (decide (j = i)) as [->|]; [congruence|lia].
  - rewrite elem_of_union, elem_of_singleton, elem_fset. split.
    + intros [Hx (j & Hj & Hg)]. destruct (decide (j = i)) as [->|]; [by left|right]. split; [done|]. exists j. split; [lia|done].
    + intros [->|[Hx (j & Hj & Hg)]]; (split; [done|]); [exists i|exists j]; (split; [lia|done]).
Qed.

Lemma fset_0 g i : fset g i 0 = ∅.
Proof. apply set_eq. intros x. rewrite elem_fset. set_solver by lia. Qed.

Lemma sub_chain (P P1 P2 R : gset Z) : P1 ⊆ P ∪ R -> P2 ⊆ P1 ∪ R -> P2 ⊆ P ∪ R.
Proof. set_solver. Qed.

Section trunc.
Context {T : Type} `{TO : TxnOps T} `{TL : !TxnLaws T} (sb : superblock).

Record freed (L : Z -> block) (X : gset Z) (L' : Z -> block) : Prop := {
  fd_used : forall x, 0 <= x < sb_size sb -> used sb L' x = used sb L x && negb (bool_decide (x ∈ X));
  fd_frame : forall x, ~ is_bmap sb x -> L' x = L x;
  fd_disk : disk_ok L';
}.

Lemma freed_nil L : disk_ok L -> freed L ∅ L.
Proof. intros HL. split; auto. intros x Hx. rewrite bool_decide_false by set_solver. by rewrite andb_true_r. Qed.

(** One bfree inside a truncation. *)
Lemma bfree_freed R t L0 L B P X b :
  freed L0 X L -> stx t L B P -> (forall x, is_bmap sb x -> x ∉ B) -> (size B <= 1)%nat -> bmap_in sb R -> room R P 0 ->
  0 <= b < sb_size sb -> used sb L0 b = true -> b ∉ X ->
  exists t' L' P', bfree sb b t = Ok t' /\ stx t' L' B P' /\ freed L0 ({[b]} ∪ X) L' /\ room R P' 0 /\ P ⊆ P' /\ P' ⊆ P ∪ R.
Proof.
  intros Hf Ht HB HB1 HR Hr Hb Hu HX.
  destruct (bfree_spec sb t L B P R b) as (t' & L' & E & Ht' & [F1 F2 F3]); auto; [apply Hf| |].
  { rewrite (fd_used _ _ _ Hf) by done. rewrite bool_decide_false by done. by rewrite Hu. }
  pose proof (HR _ (bblock_bmap sb b Hb)) as HbR.
  exists t', L', ({[BBLOCK b sb]} ∪ P). split; [done|]. split; [done|]. split_and!; [|by apply room_in|set_solver|set_solver].
  split; [|intros x Hx; by rewrite F2, (fd_frame _ _ _ Hf)|done].
  intros x Hx. rewrite F1 by done. destruct (decide (x = b)) as [->|Hne].
  - rewrite bool_decide_true by set_solver. by rewrite andb_false_r.
  - rewrite (fd_used _ _ _ Hf) by done. f_equal. f_equal. apply bool_decide_ext. set_solver.
Qed.

(** Addresses that may be freed one after the other. *)
Definition freeable (L0 : Z -> block) (X : gset Z) (g : Z -> Z) (i k : Z) : Prop :=
  (forall j, i <= j < i + k -> g j <> 0 -> 0 <= g j < sb_size sb /\ used sb L0 (g j) = true /\ g j ∉ X) /\
  (forall j j', i <= j < i + k -> i <= j' < i + k -> g j <> 0 -> g j = g j' -> j = j').

Lemma freeable_step L0 X g i k :
  0 <= k -> freeable L0 X g i (k + 1) -> freeable L0 (if decide (g i = 0) then X else {[g i]} ∪ X) g (i + 1) k.
Proof.
  intros Hk [H1 H2]. split; [|intros j j' Hj Hj'; apply H2; lia]. intros j Hj Hn.
  destruct (H1 j ltac:(lia) Hn) as (? & ? & ?). split_and!; auto; try lia. destruct (decide _); [done|].
  apply not_elem_of_union. split; [|done]. apply not_elem_of_singleton. intros E.
  assert (j = i) by (apply H2; auto; lia). lia.
Qed.

Lemma itrunc_indirect_spec R k j ind t L0 L P X :
  let g := fun j => getu32 (L0 ind) (4 * j) in
  freed L0 X L -> stx t L {[ind]} P -> ~ is_bmap sb ind -> bmap_in sb R -> room R P 0 -> freeable L0 X g j (Z.of_nat k) ->
  exists t' L' P', itrunc_indirect sb k j ind t = Ok t' /\ stx t' L' {[ind]} P' /\ freed L0 (fset g j (Z.of_nat k) ∪ X) L' /\
    room R P' 0 /\ P ⊆ P' /\ P' ⊆ P ∪ R.
Proof.
  intros g Hf Ht Hnb HR Hr. revert j t L P X Hf Ht Hr.
  induction k as [|k IH]; intros j t L P X Hf Ht Hr Hfr; cbn [itrunc_indirect].
  { exists t, L, P. change (Z.of_nat 0) with 0. rewrite fset_0, union_empty_l_L. split_and!; auto; set_solver. }
  rewrite Nat2Z.inj_succ, <- Z.add_1_r in *. pose proof (freeable_step _ _ _ _ (Z.of_nat k) ltac:(lia) Hfr) as Hfr'.
  pose proof (tx_data t _ ind Ht ltac:(set_solver)) as D. simpl in D. rewrite D, (fd_frame _ _ _ Hf) by done.
  change (getu32 (L0 ind) (4 * j)) with (g j). rewrite fset_step by lia.
  destruct (Z.eqb_spec (g j) 0) as [E0|E0]; cbn [negb rbind].
  - rewrite decide_True in Hfr' |- * by done. by apply (IH (j + 1) t L P X).
  - rewrite decide_False in Hfr' |- * by done. destruct (proj1 Hfr j ltac:(lia) E0) as (Hrg & Hu & HX).
    destruct (bfree_freed R t L0 L {[ind]} P X (g j)) as (t1 & L1 & P1 & E1 & Ht1 & Hf1 & Hr1 & HP1 & HP1'); auto.
    { intros x Hx ->%elem_of_singleton. done. }
    { rewrite size_singleton. lia. }
    rewrite E1. cbn [rbind]. destruct (IH (j + 1) t1 L1 P1 _ Hf1 Ht1 Hr1 Hfr') as (t' & L' & P' & E & Ht' & Hf' & Hr' & HP' & HP'').
    exists t', L', P'. split_and!; auto; [|by etransitivity; [|eassumption]|by eapply sub_chain].
    by rewrite (union_comm_L {[g j]}), <- union_assoc_L.
Qed.

(** ip->addrs after the loop: entries [i, i+k) cleared. *)
Definition cleared (a : list Z) (i k : Z) (a' : list Z) : Prop :=
  length a' = length a /\ forall j, 0 <= j -> nthZ a' j = if decide (i <= j < i + k) then 0 else nthZ a j.

Lemma itrunc_direct_spec R k i ip t L0 L P X :
  let a := i_addrs ip in
  freed L0 X L -> stx t L ∅ P -> bmap_in sb R -> room R P 0 -> 0 <= i -> i + Z.of_nat k <= Z.of_nat (length a) ->
  freeable L0 X (nthZ a) i (Z.of_nat k) ->
  exists a' t' L' P', itrunc_direct sb k i ip t = Ok (set_addrs ip a', t') /\ stx t' L' ∅ P' /\ cleared a i (Z.of_nat k) a' /\
    freed L0 (fset (nthZ a) i (Z.of_nat k) ∪ X) L' /\ room R P' 0 /\ P ⊆ P' /\ P' ⊆ P ∪ R.
Proof.
  intros a Hf Ht HR Hr. subst a. revert i ip t L P X Hf Ht Hr.
  induction k as [|k IH]; intros i ip t L P X Hf Ht Hr Hi Hl Hfr; cbn [itrunc_direct].
  { exists (i_addrs ip), t, L, P. change (Z.of_nat 0) with 0. rewrite fset_0, union_empty_l_L. split_and!; auto; [by destruct ip| |set_solver].
    split; [done|]. intros j Hj. by rewrite decide_False by lia. }
  rewrite Nat2Z.inj_succ, <- Z.add_1_r in *. pose proof (freeable_step _ _ _ _ (Z.of_nat k) ltac:(lia) Hfr) as Hfr'.
  rewrite fset_step by lia. destruct (Z.eqb_spec (nthZ (i_addrs ip) i) 0) as [E0|E0]; cbn [negb rbind].
  - rewrite decide_True in Hfr' |- * by done.
    destruct (IH (i + 1) ip t L P X) as (a' & t' & L' & P' & E & Ht' & [C1 C2] & Hrest); auto; try lia.
    exists a', t', L', P'. split_and!; auto; try apply Hrest. split; [done|]. intros j Hj. rewrite C2 by done.
    destruct (decide (j = i)) as [->|]; [rewrite decide_False, decide_True by lia; done|].
    destruct (decide (i + 1 <= j < i + 1 + Z.of_nat k)); [by rewrite decide_True by lia|by rewrite decide_False by lia].
  - rewrite decide_False in Hfr' |- * by done. destruct (proj1 Hfr i ltac:(lia) E0) as (Hrg & Hu & HX).
    assert (HB0 : (size (∅ : gset Z) <= 1)%nat) by (rewrite size_empty; lia).
    assert (HB1 : forall x, is_bmap sb x -> x ∉ (∅ : gset Z)) by (intros; apply not_elem_of_empty).
    destruct (bfree_freed R t L0 L ∅ P X (nthZ (i_addrs ip) i)) as (t1 & L1 & P1 & E1 & Ht1 & Hf1 & Hr1 & HP1 & HP1'); auto.
    rewrite E1. cbn [rbind]. set (ip1 := set_addrs ip (setZ (i_addrs ip) i 0)).
    assert (Hne : forall j, i + 1 <= j < i + 1 + Z.of_nat k -> nthZ (i_addrs ip1) j = nthZ (i_addrs ip) j).
    { intros j Hj. cbn. apply nthZ_setZ_ne; lia. }
    assert (Hfs : fset (nthZ (i_addrs ip1)) (i + 1) (Z.of_nat k) = fset (nthZ (i_addrs ip)) (i + 1) (Z.of_nat k)).
    { apply set_eq. intros x. rewrite !elem_fset. split; intros [Hx (j & Hj & Hg)]; (split; [done|]); exists j; (split; [done|]); rewrite Hne in *; done. }
    destruct (IH (i + 1) ip1 t1 L1 P1 _ Hf1 Ht1 Hr1) as (a' & t' & L' & P' & E & Ht' & [C1 C2] & Hf' & Hr' & HP' & HP'');
      [lia|cbn; rewrite length_setZ; lia| |].
    { destruct Hfr' as [G1 G2]. split; [intros j Hj|intros j j' Hj Hj']; rewrite !Hne by done; auto. }
    exists a', t', L', P'. rewrite E. split_and!; auto; [| |by etransitivity; [|eassumption]|by eapply sub_chain].
    + cbn in C1. rewrite length_setZ in C1. split; [done|]. intros j Hj. rewrite C2 by done.
      destruct (decide (j = i)) as [->|].
      * rewrite decide_False, decide_True by lia. apply nthZ_setZ_eq. lia.
      * cbn. rewrite nthZ_setZ_ne by lia. destruct (decide (i + 1 <= j < i + 1 + Z.of_nat k)); [by rewrite decide_True by lia|by rewrite decide_False by lia].
    + rewrite Hfs in Hf'. by rewrite (union_comm_L {[nthZ (i_addrs ip) i]}), <- union_assoc_L.
Qed.

Lemma cleared_all a a' : length a = 13%nat -> cleared a 0 13 a' -> a' = replicate 13 0.
Proof.
  intros Hl [C1 C2]. apply list_eq. intros i. destruct (decide (i < 13)%nat) as [Hi|Hi].
  - rewrite lookup_replicate_2 by done. specialize (C2 (Z.of_nat i) ltac:(lia)). rewrite decide_True in C2 by lia.
    unfold nthZ in C2. rewrite Nat2Z.id in C2. destruct (lookup_lt_is_Some_2 a' i ltac:(lia)) as [x Hx]. rewrite Hx in *. simpl in C2. congruence.
  - rewrite !lookup_ge_None_2; [done|rewrite length_replicate; lia|lia].
Qed.

(** The indirect half of itrunc, and ip->addrs[NDIRECT] = 0. *)
Definition itrunc_tail (ip : inode) (t : T) : res (inode * T) :=
  let ind := nthZ (i_addrs ip) NDIRECT in
  if negb (ind =? 0) then
    let* t := tread ind t in
    let* t := itrunc_indirect sb (Z.to_nat NINDIRECT) 0 ind t in
    let* t := trelse ind t in
    let* t := bfree sb ind t in
    Ok (set_addrs ip (setZ (i_addrs ip) NDIRECT 0), t)
  else Ok (ip, t).

Lemma itrunc_unfold ip t :
  itrunc sb ip t =
  (let* (ip, t) := itrunc_direct sb (Z.to_nat NDIRECT) 0 ip t in
   let* (ip, t) := itrunc_tail ip t in
   let* t := iupdate sb (set_size ip 0) t in Ok (set_size ip 0, t)).
Proof. done. Qed.

Lemma freeable_indirect L a X :
  sb_ok sb -> file_ok sb L a -> nthZ a NDIRECT <> 0 -> (forall x, x ∈ X <-> exists j, 0 <= j < NDIRECT /\ nthZ a j = x /\ x <> 0) ->
  let g := fun j => getu32 (L (nthZ a NDIRECT)) (4 * j) in
  freeable L X g 0 NINDIRECT /\ nthZ a NDIRECT ∉ fset g 0 NINDIRECT ∪ X.
Proof.
  intros Hsb Hf Hn HX g. pose proof (sb_pos sb Hsb) as [Hp _]. change NDIRECT with 12 in *. change NINDIRECT with 256.
  assert (Hg : forall j, 0 <= j < 256 -> slot L a (13 + j) = g j).
  { intros j Hj. rewrite slot_high by (change NDIRECT with 12; done || lia). unfold g. do 2 f_equal. change NDIRECT with 12. lia. }
  assert (Hlow : forall j, 0 <= j < 13 -> slot L a j = nthZ a j) by (intros; apply slot_low; change NDIRECT with 12; lia).
  split; [split|].
  - intros j Hj Hnz. rewrite <- Hg in * by lia. destruct (fo_slot _ _ _ Hf (13 + j)) as [Hr Hu]; [change NSLOT with 269; lia|done|].
    split_and!; auto; [lia|lia|]. intros (i & Hi & E & _)%HX. rewrite <- Hlow in E by lia.
    assert (13 + j = i) by (apply (fo_inj _ _ _ Hf); auto; change NSLOT with 269; lia). lia.
  - intros j j' Hj Hj' Hnz E. rewrite <- !Hg in * by lia.
    assert (13 + j = 13 + j') by (apply (fo_inj _ _ _ Hf); auto; change NSLOT with 269; lia). lia.
  - intros [[_ (j & Hj & E)]%elem_fset|(i & Hi & E & _)%HX]%elem_of_union.
    + rewrite <- Hg in E by lia. rewrite <- Hlow in E by lia.
      assert (12 = 13 + j) by (apply (fo_inj _ _ _ Hf); auto; try (change NSLOT with 269; lia); by rewrite Hlow by lia). lia.
    + rewrite <- !Hlow in E by lia. assert (12 = i) by (apply (fo_inj _ _ _ Hf); auto; try (change NSLOT with 269; lia); by rewrite Hlow by lia). lia.
Qed.

Lemma itrunc_tail_spec R ip t L0 L P X a :
  sb_ok sb -> file_ok sb L0 a -> cleared a 0 12 (i_addrs ip) -> freed L0 X L -> stx t L ∅ P -> bmap_in sb R -> room R P 0 ->
  (forall x, x ∈ X <-> exists j, 0 <= j < NDIRECT /\ nthZ a j = x /\ x <> 0) ->
  exists t' L' P' X', itrunc_tail ip t = Ok (set_addrs ip (replicate 13 0), t') /\ stx t' L' ∅ P' /\ freed L0 X' L' /\
    room R P' 0 /\ P ⊆ P' /\ P' ⊆ P ∪ R /\ (forall x, x ∈ X' <-> own L0 a x).
Proof.
  intros Hsb Hf [C1 C2] Hfr Ht HR Hr HX. pose proof (fo_len _ _ _ Hf) as Hl. pose proof (sb_pos sb Hsb) as [Hp _].
  assert (E12 : nthZ (i_addrs ip) NDIRECT = nthZ a NDIRECT) by (change NDIRECT with 12; rewrite C2 by lia; by rewrite decide_False by lia).
  unfold itrunc_tail. rewrite E12. assert (Hlow : forall j, 0 <= j < 13 -> slot L0 a j = nthZ a j) by (intros; apply slot_low; change NDIRECT with 12; lia).
  destruct (Z.eqb_spec (nthZ a NDIRECT) 0) as [E0|E0]; cbn [negb].
  - exists t, L, P, X. split_and!; auto; [| |].
    + replace (replicate 13 0) with (i_addrs ip); [by destruct ip|]. apply (cleared_all a); [done|]. split; [done|].
      intros j Hj. rewrite C2 by done. destruct (decide (j = 12)) as [->|]; [by rewrite decide_False, decide_True by lia|].
      destruct (decide (0 <= j < 0 + 12)); [by rewrite decide_True by lia|by rewrite decide_False by lia].
    + set_solver.
    + intros x. rewrite HX. split.
      * intros (j & Hj & E & Hn). change NDIRECT with 12 in Hj. exists j. split; [change NSLOT with 269; lia|]. by rewrite Hlow by lia.
      * intros (j & Hj & E & Hn). destruct (Z.ltb_spec j 13).
        -- rewrite Hlow in E by lia. exists j. split; [|done]. change NDIRECT with 12 in *. destruct (decide (j = 12)) as [->|]; [congruence|lia].
        -- rewrite slot_high_0 in E by (done || (change NDIRECT with 12; lia)). congruence.
  - set (ind := nthZ a NDIRECT) in *. destruct (freeable_indirect L0 a X Hsb Hf E0 HX) as [Hfi Hni]. fold ind in Hfi, Hni.
    destruct (fo_slot _ _ _ Hf NDIRECT) as [Hri Hui]; [done|by rewrite slot_low|]. rewrite slot_low in Hri, Hui by done. fold ind in Hri, Hui.
    assert (Hnb : ~ is_bmap sb ind) by (unfold is_bmap; lia).
    destruct (stx_read true t L ∅ P ind) as (t1 & E1 & _ & Ht1); [done|apply not_elem_of_empty|apply (room_cache R P ∅ 0); [lia|rewrite size_empty; lia|done]|].
    rewrite E1. cbn [rbind]. rewrite union_empty_r_L in Ht1.
    destruct (itrunc_indirect_spec R (Z.to_nat NINDIRECT) 0 ind t1 L0 L P X) as (t2 & L2 & P2 & E2 & Ht2 & Hf2 & Hr2 & HP2 & HP2'); auto.
    rewrite E2. cbn [rbind]. rewrite <- (union_empty_r_L {[ind]}) in Ht2. destruct (stx_relse true t2 L2 ∅ P2 ind Ht2) as (t3 & E3 & Ht3); [apply not_elem_of_empty|].
    rewrite E3. cbn [rbind]. change (Z.of_nat (Z.to_nat NINDIRECT)) with NINDIRECT in Hf2.
    assert (HB0 : (size (∅ : gset Z) <= 1)%nat) by (rewrite size_empty; lia).
    assert (HB1 : forall x, is_bmap sb x -> x ∉ (∅ : gset Z)) by (intros; apply not_elem_of_empty).
    destruct (bfree_freed R t3 L0 L2 ∅ P2 _ ind Hf2 Ht3 HB1 HB0 HR Hr2 ltac:(lia) Hui Hni) as (t4 & L4 & P4 & E4 & Ht4 & Hf4 & Hr4 & HP4 & HP4').
    rewrite E4. cbn [rbind]. eexists t4, L4, P4, _. split_and!; [| exact Ht4|exact Hf4|done|by etransitivity; [|eassumption]|by eapply sub_chain|].
    + do 3 f_equal. apply (cleared_all a); [done|]. split; [by rewrite length_setZ|]. intros j Hj. change NDIRECT with 12.
      destruct (decide (j = 12)) as [->|]; [rewrite nthZ_setZ_eq by lia; by rewrite decide_True by lia|]. rewrite nthZ_setZ_ne, C2 by lia.
      destruct (decide (0 <= j < 0 + 12)); [by rewrite decide_True by lia|by rewrite decide_False by lia].
    + intros x. rewrite !elem_of_union, elem_of_singleton, elem_fset, HX. change NINDIRECT with 256. change NDIRECT with 12. split.
      * intros [->|[[Hn (j & Hj & E)]|(j & Hj & E & Hn)]].
        -- exists NDIRECT. split; [done|]. by rewrite slot_low.
        -- exists (13 + j). split; [change NSLOT with 269; lia|]. split; [|done]. rewrite slot_high by (done || (change NDIRECT with 12; lia)).
           rewrite <- E. fold ind. do 2 f_equal. change NDIRECT with 12. lia.
        -- exists j. split; [change NSLOT with 269; lia|]. by rewrite Hlow by lia.
      * intros (j & Hj & E & Hn). change NSLOT with 269 in Hj. destruct (Z.ltb_spec j 13).
        -- rewrite Hlow in E by lia. destruct (decide (j = 12)) as [->|]; [by left|]. right. right. exists j. split; [lia|done].
        -- right. left. split; [done|]. exists (j - 13). split; [lia|]. rewrite slot_high in E by (done || (change NDIRECT with 12; lia)).
           rewrite <- E. fold ind. do 2 f_equal.
Qed.

Record itrunc_post (R : gset Z) (L : Z -> block) (ip : inode) (P : gset Z) (L' : Z -> block) (P' : gset Z) : Prop := {
  tp_used : forall x, 0 <= x < sb_size sb -> used sb L' x = true <-> used sb L x = true /\ ~ own L (i_addrs ip) x;
  tp_frame : forall x, ~ is_bmap sb x -> x <> IBLOCK (i_inum ip) sb -> L' x = L x;
  tp_dinode : dinode_on sb L' (i_inum ip) = (i_type ip, i_major ip, i_minor ip, i_nlink ip, 0, replicate 13 0);
  tp_inodes : forall j, 0 <= j < sb_ninodes sb -> j <> i_inum ip -> dinode_on sb L' j = dinode_on sb L j;
  tp_disk : disk_ok L';
  tp_log : room R P' 0 /\ P ⊆ P' /\ P' ⊆ P ∪ R;
}.

Lemma itrunc_spec R ip t L P :
  sb_ok sb -> disk_ok L -> file_ok sb L (i_addrs ip) -> meta_ok ip -> 0 <= i_inum ip < sb_ninodes sb ->
  stx t L ∅ P -> bmap_in sb R -> IBLOCK (i_inum ip) sb ∈ R -> room R P 0 ->
  exists t' L' P', itrunc sb ip t = Ok (set_size (set_addrs ip (replicate 13 0)) 0, t') /\ stx t' L' ∅ P' /\ itrunc_post R L ip P L' P'.
Proof.
  intros Hsb HL Hf Hm Hin Ht HR HIR Hr. rewrite itrunc_unfold. pose proof (fo_len _ _ _ Hf) as Hl. pose proof (sb_pos sb Hsb) as [Hp _].
  assert (Hlow : forall j, 0 <= j < 13 -> slot L (i_addrs ip) j = nthZ (i_addrs ip) j) by (intros; apply slot_low; change NDIRECT with 12; lia).
  destruct (itrunc_direct_spec R (Z.to_nat NDIRECT) 0 ip t L L P ∅) as (a1 & t1 & L1 & P1 & E1 & Ht1 & C1 & Hf1 & Hr1 & HP1 & HP1'); auto.
  { by apply freed_nil. } { lia. } { rewrite Hl. done. }
  { change (Z.of_nat (Z.to_nat NDIRECT)) with 12. split.
    - intros j Hj Hn. rewrite <- Hlow in * by lia. destruct (fo_slot _ _ _ Hf j) as [? ?]; [change NSLOT with 269; lia|done|]. split_and!; auto; [lia|lia|set_solver].
    - intros j j' Hj Hj' Hn E. rewrite <- !Hlow in * by lia. apply (fo_inj _ _ _ Hf); auto; change NSLOT with 269; lia. }
  rewrite E1. cbn [rbind]. change (Z.of_nat (Z.to_nat NDIRECT)) with 12 in *. rewrite union_empty_r_L in Hf1.
  destruct (itrunc_tail_spec R (set_addrs ip a1) t1 L L1 P1 (fset (nthZ (i_addrs ip)) 0 12) (i_addrs ip)) as (t2 & L2 & P2 & X & E2 & Ht2 & Hf2 & Hr2 & HP2 & HP2' & HX); auto.
  { intros x. rewrite elem_fset. change (0 + 12) with NDIRECT. split; [intros (? & j & ? & ?)|intros (j & ? & ? & ?)]; eauto. }
  rewrite E2. cbn [rbind]. change (set_addrs (set_addrs ip a1) (replicate 13 0)) with (set_addrs ip (replicate 13 0)).
  set (ip' := set_size (set_addrs ip (replicate 13 0)) 0).
  destruct (iupdate_spec sb R ip' t2 L2 ∅ P2) as (t3 & E3 & Ht3); [done|apply not_elem_of_empty|rewrite size_empty; lia|done|].
  rewrite E3. cbn [rbind]. eexists t3, _, _. split; [done|]. split; [exact Ht3|]. change (IBLOCK (i_inum ip') sb) with (IBLOCK (i_inum ip) sb).
  pose proof (iblock_range sb _ Hsb Hin) as Hib. pose proof (fd_disk _ _ _ Hf2) as HL2.
  assert (Hm' : meta_ok ip').
  { destruct Hm. split; cbn; auto; [unfold is_u32; lia|]. repeat constructor; unfold is_u32; lia. }
  assert (Hd : forall j, 0 <= j -> dinode_on sb (fupd L2 (IBLOCK (i_inum ip) sb) (dinode_put (L2 (IBLOCK (i_inum ip) sb)) ip')) j =
    if decide (j = i_inum ip) then dinode_of ip' else dinode_on sb L2 j).
  { intros j Hj. apply (dinode_on_put sb L2 ip' j HL2 Hm' Hj). cbn. lia. }
  split.
  - intros x Hx. rewrite used_off_bmap by (done || (unfold is_bmap; lia)). rewrite (fd_used _ _ _ Hf2) by done. rewrite <- HX.
    rewrite andb_true_iff, negb_true_iff, bool_decide_eq_false. done.
  - intros x Hx Hne. rewrite fupd_ne by done. by apply Hf2.
  - rewrite Hd by lia. by rewrite decide_True.
  - intros j Hj Hne. rewrite Hd, decide_False by (done || lia). unfold dinode_on. f_equal. apply Hf2.
    pose proof (iblock_range sb j Hsb Hj). unfold is_bmap. lia.
  - destruct (HL2 (IBLOCK (i_inum ip) sb)). destruct (dinode_put_ok (L2 (IBLOCK (i_inum ip) sb)) ip'); auto using disk_ok_fupd.
  - split_and!; [by apply room_in|clear -HP1 HP2; set_solver|clear -HIR HP1' HP2'; set_solver].
Qed.
End trunc.
