(* ===== verification/FsDir.v ===== *)
(** * Directories: dirlookup and dirlink

    A directory file is a list of 16-byte entries.  dirlookup finds the first
    used entry whose name is equal up to DIRSIZ bytes; dirlink adds an entry
    in the first free place, so that looking the name up finds it and every
    other name is where it was. *)

From S2P Require Import Prelude Riscv Cstring Sleeplock Block Log Txn Fs FsBlocks FsFile FsIO FsInode.

(** ** Entries of a byte string *)
Definition entries (c : list Z) : list (list Z) := (fun j => take 16 (drop (16 * j) c)) <$> seq 0 (length c / 16).

Lemma length_entries c : length (entries c) = (length c / 16)%nat.
Proof. unfold entries. by rewrite length_fmap, length_seq. Qed.

Lemma lookup_entries (c : list Z) (j : nat) : (j < length c / 16)%nat -> entries c !! j = Some (take 16 (drop (16 * j) c)).
Proof. intros Hj. unfold entries. rewrite list_lookup_fmap, lookup_seq_lt by done. done. Qed.

Lemma entry_fits (c : list Z) (j : nat) : (j < length c / 16)%nat -> (16 * j + 16 <= length c)%nat.
Proof. intros Hj. pose proof (Nat.Div0.mul_div_le (length c) 16). lia. Qed.

Lemma entries_splice (c de : list Z) (j : nat) :
  length de = 16%nat -> (j < length c / 16)%nat -> entries (splice (16 * j) de c) = <[j := de]> (entries c).
Proof.
  intros Hd Hj. pose proof (entry_fits c j Hj) as Hfit.
  assert (Hl : length (splice (16 * j) de c) = length c) by (apply length_splice; lia).
  apply list_eq. intros i. destruct (decide (i < length c / 16)%nat) as [Hi|Hi].
  - rewrite lookup_entries by (rewrite Hl; done). destruct (decide (i = j)) as [->|Hne].
    + rewrite list_lookup_insert_eq by (rewrite length_entries; done). f_equal. rewrite <- Hd at 1. apply splice_read. lia.
    + rewrite list_lookup_insert_ne, lookup_entries by done. f_equal. apply take_drop_splice_out; lia.
  - rewrite !lookup_ge_None_2; [done|rewrite length_insert, length_entries; lia|rewrite length_entries, Hl; lia].
Qed.

Lemma entries_snoc (c de : list Z) : length de = 16%nat -> (length c mod 16 = 0)%nat -> entries (c ++ de) = entries c ++ [de].
Proof.
  intros Hd Hc. assert (Hq : (length (c ++ de) / 16 = length c / 16 + 1)%nat).
  { rewrite length_app, Hd. replace (length c + 16)%nat with (length c + 1 * 16)%nat by lia. by rewrite Nat.div_add by lia. }
  assert (Hlen : length c = (16 * (length c / 16))%nat) by (pose proof (Nat.div_mod (length c) 16 ltac:(lia)); lia).
  apply list_eq. intros i. destruct (decide (i < length c / 16)%nat) as [Hi|Hi].
  - rewrite lookup_app_l by (by rewrite length_entries). rewrite !lookup_entries by lia. f_equal.
    pose proof (entry_fits c i Hi). rewrite drop_app_le, take_app_le by (rewrite ?length_drop; lia). done.
  - destruct (decide (i = length c / 16)%nat) as [->|Hne].
    + rewrite lookup_app_r by (rewrite length_entries; lia). rewrite length_entries, Nat.sub_diag, lookup_entries by lia.
      change ([de] !! O) with (Some de). f_equal.
      rewrite <- Hlen, drop_app_length. apply take_ge. lia.
    + rewrite !lookup_ge_None_2; [done|rewrite length_app, length_entries; cbn [length]; lia|rewrite length_entries; lia].
Qed.

(** ** Looking a name up *)
Definition de_match (name de : list Z) : bool := negb (de_inum de =? 0) && (namecmp name (de_name de) =? 0).
Definition dir_lookup (c name : list Z) : option (Z * Z) :=
  match find_index (de_match name) (entries c) with
  | Some j => Some (16 * Z.of_nat j, de_inum (default [] (entries c !! j)))
  | None => None
  end.

Lemma find_index_drop {A} (f : A -> bool) l j x :
  l !! j = Some x -> find_index f (drop j l) = if f x then Some O else S <$> find_index f (drop (S j) l).
Proof. intros Hx. by rewrite (drop_S _ x) by done. Qed.

(** ** Adding an entry *)
Lemma find_index_bools {A} (f : A -> bool) l : find_index f l = find_index id (f <$> l).
Proof. induction l as [|x l IH]; simpl; [done|]. rewrite IH. by destruct (f x). Qed.

Lemma find_index_app {A} (f : A -> bool) l x :
  find_index f (l ++ [x]) = match find_index f l with Some i => Some i | None => if f x then Some (length l) else None end.
Proof.
  induction l as [|y l IH]; simpl; [by destruct (f x)|]. destruct (f y); [done|]. rewrite IH.
  destruct (find_index f l); simpl; [done|]. by destruct (f x).
Qed.

(** [es'] is [es] with [de] put in a place [i] that was free or at the end. *)
Definition added (es : list (list Z)) (i : nat) (de : list Z) (es' : list (list Z)) : Prop :=
  (exists e, es !! i = Some e /\ de_inum e = 0 /\ es' = <[i := de]> es) \/ (i = length es /\ es' = es ++ [de]).

Lemma added_lookup es i de es' : added es i de es' ->
  es' !! i = Some de /\ (forall j, j <> i -> es' !! j = es !! j).
Proof.
  intros [(e & He & _ & ->)|[-> ->]].
  - apply lookup_lt_Some in He as Hl. split; [by apply list_lookup_insert_eq|]. intros j Hj. by apply list_lookup_insert_ne.
  - split; [by rewrite lookup_app_r, Nat.sub_diag by lia|]. intros j Hj.
    destruct (decide (j < length es)%nat); [by apply lookup_app_l|]. rewrite !lookup_ge_None_2; [done|lia|]. rewrite length_app. simpl. lia.
Qed.

Lemma added_miss es i de es' name : added es i de es' -> de_match name de = false ->
  find_index (de_match name) es' = find_index (de_match name) es.
Proof.
  intros [(e & He & H0 & ->)|[-> ->]] Hm.
  - rewrite !(find_index_bools _ (<[_:=_]> _)), (find_index_bools _ es), list_fmap_insert, Hm. f_equal. apply list_insert_id.
    rewrite list_lookup_fmap, He. simpl. f_equal. unfold de_match. by rewrite H0.
  - rewrite find_index_app, Hm. by destruct (find_index _ es).
Qed.

Lemma added_hit es i de es' name : added es i de es' -> de_match name de = true -> find_index (de_match name) es = None ->
  find_index (de_match name) es' = Some i.
Proof.
  intros Ha Hm Hn. destruct (added_lookup _ _ _ _ Ha) as [Hi Hj]. apply find_index_Some. split; [by exists de|].
  intros j e Hlt He. rewrite Hj in He by lia. apply find_index_None in Hn. by eapply Forall_lookup in Hn.
Qed.

Lemma added_dir_lookup c c' i de name :
  added (entries c) i de (entries c') -> 
  (de_match name de = false -> dir_lookup c' name = dir_lookup c name) /\
  (de_match name de = true -> dir_lookup c name = None -> dir_lookup c' name = Some (16 * Z.of_nat i, de_inum de)).
Proof.
  intros Ha. destruct (added_lookup _ _ _ _ Ha) as [Hi Hj]. unfold dir_lookup. split.
  - intros Hm. rewrite (added_miss _ _ _ _ _ Ha Hm). destruct (find_index _ (entries c)) as [j|] eqn:E; [|done].
    do 3 f_equal. apply find_index_Some in E as [(e & He & Hme) _]. destruct (decide (j = i)) as [->|]; [|by rewrite Hj].
    exfalso. destruct Ha as [(e' & He' & H0 & _)|[-> _]]; [|by rewrite lookup_ge_None_2 in He by lia].
    rewrite He in He'. injection He' as <-. unfold de_match in Hme. by rewrite H0 in Hme.
  - intros Hm Hnone. destruct (find_index _ (entries c)) eqn:E; [done|]. rewrite (added_hit _ _ _ _ _ Ha Hm E). by rewrite Hi.
Qed.

(** Writing 16 bytes at a free entry or at the end. *)
Lemma dirlink_added c k e c' :
  length e = 16%nat -> (length c mod 16 = 0)%nat -> (k <= length (entries c))%nat -> (forall x, entries c !! k = Some x -> de_inum x = 0) ->
  c' = splice (16 * k) e c -> added (entries c) k e (entries c').
Proof.
  intros He Hc Hk Hfree ->. rewrite length_entries in Hk. destruct (decide (k < length c / 16)%nat) as [Hlt|Hge].
  - left. destruct (lookup_lt_is_Some_2 (entries c) k) as [x Hx]; [by rewrite length_entries|]. exists x. split_and!; auto. by apply entries_splice.
  - right. assert (k = (length c / 16)%nat) as -> by lia. rewrite length_entries. split; [done|]. rewrite <- entries_snoc by done. f_equal.
    assert (Hlen : length c = (16 * (length c / 16))%nat) by (pose proof (Nat.div_mod (length c) 16 ltac:(lia)); lia).
    unfold splice. rewrite <- Hlen. rewrite take_ge, (drop_ge c), app_nil_r by lia. done.
Qed.

(** ** The entry dirlink writes *)
Definition is_name (name : list Z) : Prop := Forall is_byte name.

Lemma arr_byte name j : is_name name -> is_byte (arr name j).
Proof.
  intros Hn. unfold arr, nthZ. destruct (name !! Z.to_nat j) eqn:E; simpl; [|unfold is_byte; lia]. by eapply Forall_lookup in E.
Qed.

Lemma length_fill_dirent de name inum : length de = 16%nat -> length (fill_dirent de name inum) = 16%nat.
Proof.
  intros Hl. assert (Hn : length (strncpy (de_name de) (arr name) DIRSIZ) = 14%nat).
  { rewrite length_strncpy; unfold de_name; rewrite length_drop, Hl; done. }
  unfold fill_dirent. rewrite length_splice; rewrite length_splice; rewrite ?length_le_encode, ?Hn, ?Hl; lia.
Qed.

Lemma fill_dirent_eq de name inum : length de = 16%nat ->
  fill_dirent de name inum = le_encode 2 (u16 inum) ++ strncpy (de_name de) (arr name) DIRSIZ.
Proof.
  intros Hl. assert (Hn : length (strncpy (de_name de) (arr name) DIRSIZ) = 14%nat).
  { rewrite length_strncpy; unfold de_name; rewrite length_drop, Hl; done. }
  unfold fill_dirent. unfold splice at 1. rewrite take_0, app_nil_l, length_le_encode. f_equal. unfold splice.
  rewrite drop_app_ge by (rewrite length_take; lia). rewrite length_take, Hl. change (0 + 2 - 2 `min` 16)%nat with O. rewrite drop_0.
  rewrite Hn, (drop_ge de) by lia. by rewrite app_nil_r.
Qed.

Lemma fill_dirent_inum de name inum : length de = 16%nat -> 0 <= inum < 2 ^ 16 -> de_inum (fill_dirent de name inum) = inum.
Proof.
  intros Hl Hi. rewrite fill_dirent_eq by done. unfold de_inum, getu16. change (Z.to_nat 0) with O. rewrite drop_0.
  rewrite <- (length_le_encode 2 (u16 inum)) at 1. rewrite take_app_length, le_decode_encode by apply u16_range. by apply Z.mod_small.
Qed.

Lemma namecmp_refl name : is_name name -> namecmp name name = 0.
Proof. intros Hn. unfold namecmp. apply strncmp_padded; [done|intros; by apply arr_byte..|done]. Qed.

(** The name field: the name, padded with NULs. *)
Lemma strncpy_name old name j : length old = 14%nat -> 0 <= j < DIRSIZ -> nthZ (strncpy old (arr name) DIRSIZ) j = padded (arr name) j.
Proof. intros Hl Hj. rewrite nthZ_strncpy by (rewrite ?Hl; done || lia). by destruct (Z.ltb_spec j DIRSIZ); [|lia]. Qed.

Lemma strncpy_name_bytes old name : length old = 14%nat -> is_name name -> Forall is_byte (strncpy old (arr name) DIRSIZ).
Proof.
  intros Hl Hn. apply Forall_lookup. intros i x Hx. apply lookup_lt_Some in Hx as Hi. rewrite length_strncpy, Hl in Hi by (rewrite Hl; done).
  pose proof (strncpy_name old name (Z.of_nat i) Hl) as E. unfold nthZ in E. rewrite Nat2Z.id, Hx in E. simpl in E.
  rewrite E by (change DIRSIZ with 14; lia). unfold padded. destruct (decide _); [by apply arr_byte|unfold is_byte; lia].
Qed.

Lemma fill_dirent_bytes de name inum : length de = 16%nat -> is_name name -> is_name (fill_dirent de name inum).
Proof.
  intros Hl Hn. rewrite fill_dirent_eq by done. apply Forall_app. split; [apply le_encode_bytes|].
  apply strncpy_name_bytes; [|done]. unfold de_name. rewrite length_drop. lia.
Qed.

Lemma fill_dirent_name de name inum name2 : length de = 16%nat -> is_name name -> is_name name2 ->
  namecmp name2 (de_name (fill_dirent de name inum)) = 0 <-> namecmp name2 name = 0.
Proof.
  intros Hl H1 H2. rewrite fill_dirent_eq by done. unfold namecmp. unfold de_name at 1.
  change 2%nat with (length (le_encode 2 (u16 inum))). rewrite drop_app_length.
  assert (Hlen : length (de_name de) = 14%nat) by (unfold de_name; rewrite length_drop; lia).
  pose proof (strncpy_name_bytes (de_name de) name Hlen H1) as Hnb. pose proof (fun j => strncpy_name (de_name de) name j Hlen) as Hnm.
  set (nm := strncpy _ _ _) in *. rewrite !strncmp_padded by (done || intros; by apply arr_byte).
  assert (Hpad : forall j, 0 <= j < DIRSIZ -> padded (arr nm) j = padded (arr name) j).
  { intros j Hj. rewrite <- (padded_idem (arr name) j). unfold padded at 1 2.
    assert (Hlv : live (arr nm) j <-> live (padded (arr name)) j).
    { unfold arr in *. split; intros Hl' k Hk; [rewrite <- Hnm by lia|rewrite Hnm by lia]; by apply Hl'. }
    destruct (decide (live (arr nm) j)), (decide (live (padded (arr name)) j)); try tauto; try done. by apply Hnm. }
  split; intros Hall j Hj; rewrite (Hall j Hj); [by apply Hpad|by rewrite Hpad].
Qed.

Section dir.
Context {T : Type} `{TO : TxnOps T} `{TL : !TxnLaws T} (sb : superblock).

Lemma length_fcontent L ip : 0 <= i_size ip -> Z.of_nat (length (fcontent L ip)) = i_size ip.
Proof. intros. unfold fcontent, fbytes. rewrite length_fmap, length_seqZ. lia. Qed.

(** The slice of a file's content. *)
Lemma fbytes_content L ip off k :
  0 <= off -> 0 <= k -> off + k <= i_size ip -> fbytes L (i_addrs ip) off k = take (Z.to_nat k) (drop (Z.to_nat off) (fcontent L ip)).
Proof.
  intros Ho Hk Hs. unfold fcontent, fbytes. rewrite (seqZ_split 0 off (i_size ip)) by lia. rewrite (seqZ_split (0 + off) k (i_size ip - off)) by lia.
  rewrite !fmap_app, drop_app_ge by (rewrite length_fmap, length_seqZ; lia). rewrite length_fmap, length_seqZ.
  replace (Z.to_nat off - Z.to_nat off)%nat with O by lia. rewrite drop_0, take_app_le by (rewrite length_fmap, length_seqZ; lia).
  rewrite take_ge by (rewrite length_fmap, length_seqZ; lia). done.
Qed.

(** A directory inode that can be read. *)
Record dir_ok (L : Z -> block) (dp : inode) : Prop := {
  dk_disk : disk_ok L;
  dk_size : 0 <= i_size dp <= MAXFILE * BSIZE;
  dk_mod : i_size dp mod 16 = 0;
  dk_blk : forall bn, 0 <= bn -> bn * BSIZE < i_size dp -> blk L (i_addrs dp) bn <> 0;
}.

Lemma read_dirent_spec o msg dp j de t L P :
  dir_ok L dp -> stxo o t L ∅ P -> Z.of_nat (size P) < NBUF -> length de = 16%nat -> (j < length (entries (fcontent L dp)))%nat ->
  exists e t', entries (fcontent L dp) !! j = Some e /\ length e = 16%nat /\
    read_dirent sb msg dp (16 * Z.of_nat j) de t = Ok (e, dp, t') /\ stxo o t' L ∅ P.
Proof.
  intros [D1 D2 D3 D4] Ht Hn Hde Hj. rewrite length_entries in Hj. pose proof (entry_fits _ j Hj) as Hfit.
  pose proof (length_fcontent L dp ltac:(lia)) as Hlen. change (MAXFILE * BSIZE) with 274432 in D2.
  exists (take 16 (drop (16 * j) (fcontent L dp))). rewrite lookup_entries by done.
  destruct (readi_spec sb local_out o dp 0 (16 * Z.of_nat j) DIRENT_SIZE de t L P) as (t' & E & Ht');
    try done; try (change DIRENT_SIZE with 16; lia).
  { cbn. rewrite Hde. change DIRENT_SIZE with 16. lia. }
  exists t'. split; [done|]. split; [rewrite length_take, length_drop; lia|]. unfold read_dirent. rewrite E. cbn [rbind].
  change DIRENT_SIZE with 16 in *. replace (Z.max 0 (Z.min 16 (i_size dp - 16 * Z.of_nat j))) with 16 by lia. cbn [Z.eqb Pos.eqb negb].
  split; [|done]. do 3 f_equal. cbn [sk_put local_sink]. rewrite fbytes_content by lia.
  replace (Z.to_nat (16 * Z.of_nat j)) with (16 * j)%nat by lia. change (Z.to_nat 16) with 16%nat. change (Z.to_nat 0) with O.
  unfold splice. rewrite take_0, app_nil_l. rewrite (drop_ge de); [by rewrite app_nil_r|]. rewrite length_take, length_drop. lia.
Qed.

Lemma dirlookup_loop_spec o fuel dp name j de t L P :
  dir_ok L dp -> stxo o t L ∅ P -> Z.of_nat (size P) < NBUF -> length de = 16%nat ->
  let es := entries (fcontent L dp) in (j <= length es)%nat -> (length es - j < fuel)%nat ->
  exists t', dirlookup_loop sb fuel dp name (16 * Z.of_nat j) de t =
      Ok ((fun i => (16 * Z.of_nat (j + i), de_inum (default [] (es !! (j + i)%nat)))) <$> find_index (de_match name) (drop j es), dp, t') /\
    stxo o t' L ∅ P.
Proof.
  intros Hd Ht Hn Hde es. pose proof Hd as [D1 D2 D3 D4]. pose proof (length_fcontent L dp ltac:(lia)) as Hlen.
  assert (Hes : i_size dp = 16 * Z.of_nat (length es)).
  { unfold es. rewrite length_entries. rewrite <- Hlen in D3 |- *. rewrite Nat2Z.inj_div. change (Z.of_nat 16) with 16. zsolve. }
  revert j de t Ht Hde. induction fuel as [|fuel IH]; intros j de t Ht Hde Hj Hf; cbn [dirlookup_loop]; [lia|].
  destruct (Z.ltb_spec (16 * Z.of_nat j) (i_size dp)) as [Hlt|Hge].
  - destruct (read_dirent_spec o "dirlookup read" dp j de t L P) as (e & t1 & He & Hel & E1 & Ht1); auto; [unfold es in *; lia|].
    rewrite E1. cbn [rbind]. fold es in He. rewrite (find_index_drop _ _ _ e) by done. unfold de_match at 1.
    assert (Hnext : exists t', dirlookup_loop sb fuel dp name (16 * Z.of_nat j + DIRENT_SIZE) e t1 =
      Ok ((fun i => (16 * Z.of_nat (j + i), de_inum (default [] (es !! (j + i)%nat)))) <$> (S <$> find_index (de_match name) (drop (S j) es)), dp, t') /\ stxo o t' L ∅ P).
    { destruct (IH (S j) e t1) as (t' & E & Ht'); auto; [lia|lia|]. exists t'. split; [|done].
      replace (16 * Z.of_nat j + DIRENT_SIZE) with (16 * Z.of_nat (S j)) by (change DIRENT_SIZE with 16; lia). rewrite E. f_equal. f_equal. f_equal.
      destruct (find_index _ _) as [i|]; [|done]. simpl. by rewrite <- !plus_n_Sm. }
    destruct (Z.eqb_spec (de_inum e) 0); cbn [negb andb]; [done|]. destruct (Z.eqb_spec (namecmp name (de_name e)) 0); [|done].
    exists t1. split; [|done]. cbn [fmap option_fmap option_map]. rewrite Nat.add_0_r, He. done.
  - assert (j = length es) as -> by lia. rewrite drop_all. exists t. done.
Qed.

Lemma dirlink_loop_spec o fuel dp j de t L P :
  dir_ok L dp -> stxo o t L ∅ P -> Z.of_nat (size P) < NBUF -> length de = 16%nat ->
  let es := entries (fcontent L dp) in (j <= length es)%nat -> (length es - j < fuel)%nat ->
  exists i de' t', dirlink_loop sb fuel dp (16 * Z.of_nat j) de t = Ok (16 * Z.of_nat i, de', dp, t') /\ stxo o t' L ∅ P /\
    length de' = 16%nat /\ (i <= length es)%nat /\ (forall e, es !! i = Some e -> de_inum e = 0).
Proof.
  intros Hd Ht Hn Hde es. pose proof Hd as [D1 D2 D3 D4]. pose proof (length_fcontent L dp ltac:(lia)) as Hlen.
  assert (Hes : i_size dp = 16 * Z.of_nat (length es)).
  { unfold es. rewrite length_entries. rewrite <- Hlen in D3 |- *. rewrite Nat2Z.inj_div. change (Z.of_nat 16) with 16. zsolve. }
  revert j de t Ht Hde. induction fuel as [|fuel IH]; intros j de t Ht Hde Hj Hf; cbn [dirlink_loop]; [lia|].
  destruct (Z.ltb_spec (16 * Z.of_nat j) (i_size dp)) as [Hlt|Hge].
  - destruct (read_dirent_spec o "dirlink read" dp j de t L P) as (e & t1 & He & Hel & E1 & Ht1); auto; [unfold es in *; lia|].
    rewrite E1. cbn [rbind]. destruct (Z.eqb_spec (de_inum e) 0).
    + exists j, e, t1. split_and!; auto. intros e' He'. fold es in He. congruence.
    + destruct (IH (S j) e t1) as (i & de' & t' & E & Hrest); auto; [lia|lia|]. exists i, de', t'. split; [|done].
      rewrite <- E. f_equal. change DIRENT_SIZE with 16. lia.
  - assert (j = length es) as -> by lia. exists (length es), de, t. split_and!; auto. intros e He. apply lookup_lt_Some in He. lia.
Qed.

(** ** The routines, on the inode table *)
Lemma setip_id (s : fs T) (i : nat) : (i < length (fs_itable s))%nat -> setip s i (getip s i) = s.
Proof.
  intros Hi. unfold setip, getip. destruct (lookup_lt_is_Some_2 _ _ Hi) as [ip Hip]. rewrite Hip. simpl.
  rewrite list_insert_id by done. by destruct s.
Qed.

Lemma getip_setip (s : fs T) (i : nat) ip : (i < length (fs_itable s))%nat -> getip (setip s i ip) i = ip.
Proof. intros Hi. unfold setip, getip. simpl. by rewrite list_lookup_insert_eq. Qed.

Lemma dirlookup_spec o i name (s : fs T) L P :
  let dp := getip s i in
  (i < length (fs_itable s))%nat -> i_type dp = T_DIR -> dir_ok L dp -> stxo o (fs_t s) L ∅ P -> Z.of_nat (size P) < NBUF ->
  exists t', stxo o t' L ∅ P /\
    dirlookup sb i name s =
      match dir_lookup (fcontent L dp) name with
      | None => Ok (None, set_t s t')
      | Some (off, inum) => let* (j, s) := iget (i_dev dp) inum (set_t s t') in Ok (Some (j, off), s)
      end.
Proof.
  intros dp Hi Hty Hd Ht Hn. unfold dirlookup. fold dp. rewrite Hty. cbn [negb Z.eqb Pos.eqb T_DIR].
  pose proof Hd as [D1 D2 D3 D4]. pose proof (length_fcontent L dp ltac:(lia)) as Hlen.
  destruct (dirlookup_loop_spec o (dir_fuel dp) dp name 0 dirent0 (fs_t s) L P) as (t' & E & Ht'); auto; [lia| |].
  { rewrite length_entries. unfold dir_fuel. change DIRENT_SIZE with 16. rewrite <- Hlen.
    pose proof (Nat2Z.inj_div (length (fcontent L dp)) 16) as E. change (Z.of_nat 16) with 16 in E. lia. }
  exists t'. split; [done|]. change (16 * Z.of_nat 0) with 0 in E. rewrite E. cbn [rbind].
  assert (Hs : setip (set_t s t') i dp = set_t s t') by (apply (setip_id (set_t s t') i); done). rewrite Hs.
  unfold dir_lookup. rewrite drop_0. destruct (find_index _ _) as [j|]; done.
Qed.

Lemma wblocks_dirent j : wblocks (16 * Z.of_nat j) 16 = 1.
Proof. unfold wblocks. change BSIZE with 1024. zsolve. Qed.

(** dirlink of a name that is not there: the entry is added, or there is no
    disk block left for it. *)
Lemma dirlink_spec me R i name inum (s : fs T) L P :
  let dp := getip s i in
  (i < length (fs_itable s))%nat -> i_type dp = T_DIR -> sb_ok sb -> fs_disk sb L -> ip_ok sb L dp -> i_size dp mod 16 = 0 ->
  i_size dp + 16 <= MAXFILE * BSIZE -> stx (fs_t s) L ∅ P -> bmap_in sb R -> IBLOCK (i_inum dp) sb ∈ R -> lbudget R P (i_addrs dp) 1 ->
  is_name name -> 0 < inum < 2 ^ 16 -> dir_lookup (fcontent L dp) name = None ->
  exists r s' L' P', dirlink sb me i name inum s = Ok (r, s') /\ stx (fs_t s') L' ∅ P' /\ ip_ok sb L' (getip s' i) /\
    ((r = 0 /\ exists off, dir_lookup (fcontent L' (getip s' i)) name = Some (off, inum) /\
        forall name2, is_name name2 -> namecmp name2 name <> 0 ->
          dir_lookup (fcontent L' (getip s' i)) name2 = dir_lookup (fcontent L dp) name2) \/
     (r = -1 /\ fcontent L' (getip s' i) = fcontent L dp /\ forall x, 0 <= x < sb_size sb -> used sb L' x = true)).
Proof.
  intros dp Hi Hty Hsb Hfd Hip Hmod Hmax Ht HR HIR Hbud Hname Hinum Hnone.
  destruct (lbudget_log R P _ 1 ltac:(lia) Hbud) as [Hroom Hcap]. pose proof tcap_small as Htc.
  assert (Hd : dir_ok L dp) by (destruct Hfd, Hip; split; auto).
  destruct (dirlookup_spec true i name s L P) as (t1 & Ht1 & E1); auto; [lia|]. fold dp in E1. rewrite Hnone in E1.
  unfold dirlink. rewrite E1. cbn [rbind]. change (getip (set_t s t1) i) with dp.
  pose proof (length_fcontent L dp ltac:(apply Hip)) as Hlen.
  assert (Hes : i_size dp = 16 * Z.of_nat (length (entries (fcontent L dp)))).
  { rewrite length_entries. rewrite <- Hlen in Hmod |- *. rewrite Nat2Z.inj_div. change (Z.of_nat 16) with 16. zsolve. }
  destruct (dirlink_loop_spec true (dir_fuel dp) dp 0 dirent0 t1 L P) as (k & de & t2 & E2 & Ht2 & Hde & Hk & Hfree); auto; [lia|lia| |].
  { unfold dir_fuel. change DIRENT_SIZE with 16. rewrite Hes. rewrite Z.mul_comm, Z.div_mul by lia. lia. }
  change (16 * Z.of_nat 0) with 0 in E2. cbn [fs_t set_t]. rewrite E2. cbn [rbind].
  set (e := fill_dirent de name inum). pose proof (length_fill_dirent de name inum Hde) as Hel. fold e in Hel.
  assert (Heb : is_name e) by by apply fill_dirent_bytes.
  destruct (writei_spec sb R (local_in e) (arr e) dp 0 (16 * Z.of_nat k) 16 t2 L P) as (d & dp' & t3 & L' & P' & E3 & Ht3 & Edp & Hpost); auto; try lia.
  { intros s0 m Hs0 Hm Hsm. unfold local_in. by rewrite slice_seqZ by lia. }
  { intros x. by apply arr_byte. }
  { by rewrite wblocks_dirent. }
  change DIRENT_SIZE with 16. rewrite E3. cbn [rbind]. pose proof (getip_setip (set_t (set_t s t1) t3) i dp' Hi) as Hg.
  pose proof (wp_content _ _ _ _ _ _ _ _ _ _ _ Hpost) as Hc. pose proof (wp_len _ _ _ _ _ _ _ _ _ _ _ Hpost) as Hdl.
  destruct (Z.eqb_spec d 16) as [->|Hne]; cbn [negb].
  - eexists 0, _, L', P'. split; [done|]. split; [done|]. rewrite Hg. split; [apply Hpost|]. left. split; [done|].
    assert (Ha : added (entries (fcontent L dp)) k e (entries (fcontent L' dp'))).
    { apply (dirlink_added _ k); auto; [apply Nat2Z.inj; by rewrite Nat2Z.inj_mod, Hlen|]. rewrite Hc.
      replace (Z.to_nat (16 * Z.of_nat k)) with (16 * k)%nat by lia. f_equal.
      transitivity (take 16 (drop 0 e)); [|by rewrite drop_0, take_ge by lia]. symmetry. apply (slice_seqZ e 0 16); lia. }
    exists (16 * Z.of_nat k). pose proof (fill_dirent_inum de name inum Hde ltac:(lia)) as Hin. fold e in Hin.
    pose proof (fun n2 => fill_dirent_name de name inum n2 Hde Hname) as Hnm. fold e in Hnm. split.
    + rewrite <- Hin. apply (added_dir_lookup _ _ _ _ name Ha); [|done]. unfold de_match. rewrite Hin.
      destruct (Z.eqb_spec inum 0); [lia|]. apply Z.eqb_eq. apply Hnm; [done|]. apply namecmp_refl. done.
    + intros name2 Hn2 Hne. apply (added_dir_lookup _ _ _ _ name2 Ha). unfold de_match. apply andb_false_iff. right.
      apply Z.eqb_neq. by rewrite Hnm.
  - eexists (-1), _, L', P'. split; [done|]. split; [done|]. rewrite Hg. split; [apply Hpost|]. right. split; [done|].
    split; [|apply Hpost; lia]. assert (d = 0) as ->.
    { destruct (wp_stop _ _ _ _ _ _ _ _ _ _ _ Hpost) as [|Hst]; [lia|done|]. change BSIZE with 1024 in Hst. clear -Hst Hdl Hne. zsolve. }
    rewrite Hc. apply (sk_nil (Sink := local_sink)).
Qed.
End dir.
