(* ===== verification/FsNames.v ===== *)
(** * Path names: skipelem against a reference splitter

    Calling skipelem until it returns 0, as namex does, yields the non-empty
    components of the path between slashes, each cut to DIRSIZ bytes. *)

From S2P Require Import Prelude Riscv Cstring Block Fs.

(** ** Reference: split on slashes, drop the empty pieces *)
Fixpoint split_slash (p : list Z) : list (list Z) :=
  match p with
  | [] => [[]]
  | c :: p' =>
      if c =? slash then [] :: split_slash p'
      else match split_slash p' with
           | [] => [[c]]
           | e :: es => (c :: e) :: es
           end
  end.
Definition nonempty (e : list Z) : bool := match e with [] => false | _ => true end.
Definition components (p : list Z) : list (list Z) := base.filter (fun e => nonempty e = true) (split_slash p).

(** The C string in a buffer of DIRSIZ bytes. *)
Fixpoint until_nul (l : list Z) : list Z :=
  match l with
  | [] => []
  | c :: l' => if c =? 0 then [] else c :: until_nul l'
  end.

(** The names namex sees. *)
Fixpoint path_elems (fuel : nat) (path name : list Z) : option (list (list Z)) :=
  match skipelem path name with
  | None => Some []
  | Some (path, name) =>
      match fuel with
      | O => None
      | S fuel' => (fun es => until_nul name :: es) <$> path_elems fuel' path name
      end
  end.

Definition no_nul (p : list Z) : Prop := Forall (fun c => c <> 0) p.

Lemma split_slash_nonnil p : split_slash p <> [].
Proof. destruct p as [|c p]; simpl; [done|]. destruct (c =? slash); [done|]. by destruct (split_slash p). Qed.

Lemma components_skip p : components p = components (skip_slashes p).
Proof.
  induction p as [|c p IH]; simpl; [done|]. destruct (Z.eqb_spec c slash) as [->|Hc]; [|done].
  rewrite <- IH. unfold components. simpl. done.
Qed.

Lemma skip_slashes_head p : match skip_slashes p with c :: _ => c <> slash | [] => True end.
Proof. induction p as [|c p IH]; simpl; [done|]. destruct (Z.eqb_spec c slash); done. Qed.

Lemma skip_slashes_suffix p : exists q, p = q ++ skip_slashes p.
Proof.
  induction p as [|c p [q IH]]; simpl; [by exists []|]. destruct (c =? slash); [|by exists []].
  exists (c :: q). simpl. by rewrite <- IH.
Qed.

Lemma no_nul_skip p : no_nul p -> no_nul (skip_slashes p).
Proof. intros Hp. destruct (skip_slashes_suffix p) as [q E]. rewrite E in Hp. by apply Forall_app in Hp as [_ ?]. Qed.

Lemma length_skip p : (length (skip_slashes p) <= length p)%nat.
Proof. destruct (skip_slashes_suffix p) as [q E]. rewrite E at 2. rewrite length_app. lia. Qed.

(** One component: everything up to the next slash. *)
Lemma span_elem_spec p e rest :
  no_nul p -> span_elem p = (e, rest) ->
  p = e ++ rest /\ Forall (fun c => c <> slash) e /\ no_nul e /\ match rest with c :: _ => c = slash | [] => True end.
Proof.
  revert e rest. induction p as [|c p IH]; intros e rest Hp E; simpl in E; [injection E as <- <-; repeat split; constructor|].
  apply Forall_cons in Hp as [Hc Hp]. destruct (Z.eqb_spec c slash) as [->|Hs]; simpl in E.
  { injection E as <- <-. repeat split; constructor. }
  destruct (Z.eqb_spec c 0); [done|]. simpl in E. destruct (span_elem p) as [e' r'] eqn:E'. injection E as <- <-.
  destruct (IH e' r' Hp eq_refl) as (-> & H1 & H2 & H3). repeat split; auto; by constructor.
Qed.

Lemma split_slash_elem e rest :
  Forall (fun c => c <> slash) e -> match rest with c :: _ => c = slash | [] => True end ->
  split_slash (e ++ rest) = e :: match rest with [] => [] | _ :: r => split_slash r end.
Proof.
  intros He Hr. induction He as [|c e Hc He IH]; simpl.
  - destruct rest as [|x r]; simpl; [done|]. subst x. done.
  - destruct (Z.eqb_spec c slash); [done|]. by rewrite IH.
Qed.

Lemma components_elem e rest :
  e <> [] -> Forall (fun c => c <> slash) e -> match rest with c :: _ => c = slash | [] => True end ->
  components (e ++ rest) = e :: components rest.
Proof.
  intros Hne He Hr. unfold components. rewrite split_slash_elem by done. rewrite filter_cons_True by (by destruct e). f_equal.
  destruct rest as [|x r]; [done|]. subst x. done.
Qed.

Lemma until_nul_app e l : no_nul e -> until_nul (e ++ 0 :: l) = e.
Proof. induction 1 as [|c e Hc He IH]; simpl; [done|]. destruct (Z.eqb_spec c 0); [done|]. by rewrite IH. Qed.
Lemma until_nul_all e : no_nul e -> until_nul e = e.
Proof. induction 1 as [|c e Hc He IH]; simpl; [done|]. destruct (Z.eqb_spec c 0); [done|]. by rewrite IH. Qed.

(** skipelem takes off one component. *)
Lemma skipelem_spec p name :
  no_nul p -> length name = 14%nat ->
  match skipelem p name with
  | None => components p = []
  | Some (p', name') => exists e, components p = e :: components p' /\ until_nul name' = take 14 e /\
      no_nul p' /\ length name' = 14%nat /\ (length p' < length p)%nat
  end.
Proof.
  intros Hp Hl. unfold skipelem. rewrite components_skip. pose proof (no_nul_skip p Hp) as Hq. pose proof (skip_slashes_head p) as Hh.
  pose proof (length_skip p) as Hlen. destruct (skip_slashes p) as [|c q] eqn:Eq.
  { done. }
  assert (Hend : at_end (c :: q) = false).
  { unfold at_end, nthZ. simpl. apply Forall_cons in Hq as [Hc _]. by apply Z.eqb_neq. }
  rewrite Hend. destruct (span_elem (c :: q)) as [e rest] eqn:Es.
  destruct (span_elem_spec _ _ _ Hq Es) as (E & H1 & H2 & H3).
  assert (He : e <> []). { intros ->. simpl in E. subst rest. done. }
  exists e. rewrite E, components_elem by done. rewrite <- components_skip. split; [done|]. change DIRSIZ with 14.
  assert (Hn' : no_nul rest) by (rewrite E in Hq; by apply Forall_app in Hq as [_ ?]).
  split; [|split; [by apply no_nul_skip|split]].
  - destruct (Z.leb_spec 14 (Z.of_nat (length e))); unfold splice.
    + rewrite take_0, app_nil_l. change (Z.to_nat 14) with 14%nat. rewrite length_take, (drop_ge name), app_nil_r by lia. apply until_nul_all. by apply Forall_take.
    + rewrite take_0, app_nil_l, <- app_assoc. simpl. rewrite until_nul_app by done. by rewrite take_ge by lia.
  - destruct (Z.leb_spec 14 (Z.of_nat (length e))); rewrite length_splice; auto; rewrite ?length_take, ?length_app; cbn [length]; lia.
  - pose proof (length_skip rest). assert (length (c :: q) = length e + length rest)%nat by (rewrite E; apply length_app).
    destruct e; [done|]. simpl in *. lia.
Qed.

Lemma path_elems_spec fuel p name :
  no_nul p -> length name = 14%nat -> (length p <= fuel)%nat -> path_elems fuel p name = Some (take 14 <$> components p).
Proof.
  revert p name. induction fuel as [|fuel IH]; intros p name Hp Hl Hf; cbn [path_elems];
    pose proof (skipelem_spec p name Hp Hl) as Hs; destruct (skipelem p name) as [[p' name']|]; try (by rewrite Hs).
  - destruct Hs as (e & _ & _ & _ & _ & ?). lia.
  - destruct Hs as (e & -> & -> & Hp' & Hl' & ?). rewrite IH by (done || lia). done.
Qed.
