(* ===== verification/FsTable.v ===== *)
(** * The inode table: references and locks

    Between two operations every (dev, inum) has at most one entry with
    references; [itab] reads the table as a map from inodes to reference
    counts, on which iget and idup add one and iput takes one off. *)

From S2P Require Import Prelude Riscv Sleeplock Block Log Txn Fs FsBlocks FsFile FsIO FsInode FsTrunc FsDir.

Definition live_at (ip : inode) (dev inum : Z) : bool := (0 <? i_ref ip) && (i_dev ip =? dev) && (i_inum ip =? inum).

Lemma live_at_spec ip dev inum : live_at ip dev inum = true <-> 0 < i_ref ip /\ i_dev ip = dev /\ i_inum ip = inum.
Proof. unfold live_at. rewrite !andb_true_iff, Z.ltb_lt, !Z.eqb_eq. tauto. Qed.

Record itable_ok (l : list inode) : Prop := {
  it_ref : forall i ip, l !! i = Some ip -> 0 <= i_ref ip;
  it_one : forall i j ip jp, l !! i = Some ip -> l !! j = Some jp -> 0 < i_ref ip -> 0 < i_ref jp ->
    i_dev ip = i_dev jp -> i_inum ip = i_inum jp -> i = j;
}.

(** References to (dev, inum) held anywhere in the kernel. *)
Definition itab (l : list inode) (dev inum : Z) : Z :=
  match find_index (fun ip => live_at ip dev inum) l with
  | Some i => i_ref (default inode0 (l !! i))
  | None => 0
  end.

Lemma itab_Some l dev inum i ip :
  itable_ok l -> l !! i = Some ip -> 0 < i_ref ip -> i_dev ip = dev -> i_inum ip = inum -> itab l dev inum = i_ref ip.
Proof.
  intros Hok Hi Hr <- <-. unfold itab. destruct (find_index _ l) as [j|] eqn:E.
  - apply find_index_Some in E as [(jp & Hj & Hl%live_at_spec) _]. destruct Hl as (? & Hd & Hn).
    assert (j = i) as -> by (by apply (it_one _ Hok j i jp ip)). by rewrite Hi.
  - apply find_index_None in E. eapply Forall_lookup in E; [|exact Hi]. simpl in E.
    assert (live_at ip (i_dev ip) (i_inum ip) = true) by (by apply live_at_spec). congruence.
Qed.

Lemma itab_None l dev inum :
  (forall i ip, l !! i = Some ip -> live_at ip dev inum = false) -> itab l dev inum = 0.
Proof. intros Hn. unfold itab. rewrite (proj2 (find_index_None _ _)); [done|]. apply Forall_lookup. done. Qed.

Lemma itab_pos l dev inum :
  itable_ok l -> 0 < itab l dev inum <-> exists i ip, l !! i = Some ip /\ live_at ip dev inum = true.
Proof.
  intros Hok. unfold itab. destruct (find_index _ l) as [j|] eqn:E.
  - apply find_index_Some in E as [(jp & Hj & Hl) _]. rewrite Hj. simpl. pose proof (proj1 (live_at_spec _ _ _) Hl). split; [eauto|lia].
  - apply find_index_None in E. split; [lia|]. intros (i & ip & Hi & Hl). eapply Forall_lookup in E; [|exact Hi]. simpl in E. congruence.
Qed.

Lemma itab_nonneg l dev inum : itable_ok l -> 0 <= itab l dev inum.
Proof.
  intros Hok. unfold itab. destruct (find_index _ l) as [j|] eqn:E; [|lia].
  apply find_index_Some in E as [(jp & Hj & _) _]. rewrite Hj. by apply (it_ref _ Hok j).
Qed.

(** Changing one entry. *)
Definition same_inode (ip ip' : inode) : Prop := i_dev ip' = i_dev ip /\ i_inum ip' = i_inum ip.

Lemma itable_update l i ip ip' :
  itable_ok l -> l !! i = Some ip -> 0 <= i_ref ip' ->
  (0 < i_ref ip' -> forall j jp, j <> i -> l !! j = Some jp -> 0 < i_ref jp -> ~ (i_dev jp = i_dev ip' /\ i_inum jp = i_inum ip')) ->
  itable_ok (<[i := ip']> l).
Proof.
  intros Hok Hi Hr Hd. apply lookup_lt_Some in Hi as Hlt. split.
  - intros j jp Hj. destruct (decide (j = i)) as [->|].
    + rewrite list_lookup_insert_eq in Hj by done. congruence.
    + rewrite list_lookup_insert_ne in Hj by done. by apply (it_ref _ Hok j).
  - intros j k jp kp Hj Hk Hrj Hrk Hdev Hinum.
    destruct (decide (j = i)) as [->|Hji], (decide (k = i)) as [->|Hki]; [done| | |].
    + rewrite list_lookup_insert_eq in Hj by done. injection Hj as <-. rewrite list_lookup_insert_ne in Hk by done.
      exfalso. by apply (Hd Hrj k kp).
    + rewrite list_lookup_insert_eq in Hk by done. injection Hk as <-. rewrite list_lookup_insert_ne in Hj by done.
      exfalso. by apply (Hd Hrk j jp).
    + rewrite list_lookup_insert_ne in Hj, Hk by done. eapply it_one; eauto.
Qed.

(** An entry that keeps its inode: the map changes at that inode only. *)
Lemma itab_keep l i ip ip' dev inum :
  itable_ok l -> l !! i = Some ip -> 0 < i_ref ip -> 0 <= i_ref ip' -> same_inode ip ip' ->
  itable_ok (<[i := ip']> l) /\
  itab (<[i := ip']> l) dev inum = if decide (dev = i_dev ip /\ inum = i_inum ip) then i_ref ip' else itab l dev inum.
Proof.
  intros Hok Hi Hr Hr' [Hd Hn]. apply lookup_lt_Some in Hi as Hlt.
  assert (Hok' : itable_ok (<[i := ip']> l)).
  { eapply itable_update; eauto. intros _ j jp Hji Hj Hrj [E1 E2]. apply Hji. apply (it_one _ Hok j i jp ip); auto; congruence. }
  split; [done|]. destruct (decide _) as [[-> ->]|Hne].
  - destruct (decide (0 < i_ref ip')) as [Hp|Hp].
    + eapply itab_Some; eauto. by apply list_lookup_insert_eq.
    + rewrite itab_None; [lia|]. intros j jp Hj. apply not_true_is_false. intros (? & E1 & E2)%live_at_spec.
      destruct (decide (j = i)) as [->|Hji]; [rewrite list_lookup_insert_eq in Hj by done; injection Hj as <-; lia|].
      rewrite list_lookup_insert_ne in Hj by done. apply Hji. by apply (it_one _ Hok j i jp ip).
  - unfold itab. assert (E : find_index (fun p => live_at p dev inum) (<[i:=ip']> l) = find_index (fun p => live_at p dev inum) l).
    { rewrite !(find_index_bools (fun p => live_at p dev inum)), list_fmap_insert. f_equal. apply list_insert_id. rewrite list_lookup_fmap, Hi. simpl. f_equal.
      transitivity false; [|symmetry]; apply not_true_is_false; intros (? & ? & ?)%live_at_spec; apply Hne; split; congruence. }
    rewrite E. destruct (find_index _ l) as [j|] eqn:Ej; [|done]. apply find_index_Some in Ej as [(jp & Hj & (_ & E1 & E2)%live_at_spec) _].
    rewrite list_lookup_insert_ne; [done|]. intros <-. apply Hne. rewrite Hi in Hj. injection Hj as <-. split; congruence.
Qed.

Section table.
Context {T : Type} `{TO : TxnOps T}.

Lemma getip_lookup (s : fs T) i ip : fs_itable s !! i = Some ip -> getip s i = ip.
Proof. intros Hi. unfold getip. by rewrite Hi. Qed.

(** iget: one more reference, through the entry that is there if there is one. *)
Lemma iget_spec dev inum (s : fs T) :
  itable_ok (fs_itable s) ->
  (exists i ip, fs_itable s !! i = Some ip /\ (i_ref ip = 0 \/ live_at ip dev inum = true)) ->
  exists i ip', iget dev inum s = Ok (i, setip s i ip') /\ (i < length (fs_itable s))%nat /\
    i_dev ip' = dev /\ i_inum ip' = inum /\ i_ref ip' = itab (fs_itable s) dev inum + 1 /\
    itable_ok (fs_itable (setip s i ip')) /\
    (forall d n, itab (fs_itable (setip s i ip')) d n = itab (fs_itable s) d n + if decide (d = dev /\ n = inum) then 1 else 0).
Proof.
  intros Hok Hex. unfold iget. change (fun ip => (0 <? i_ref ip) && (i_dev ip =? dev) && (i_inum ip =? inum)) with (fun ip => live_at ip dev inum).
  destruct (find_index (fun ip => live_at ip dev inum) (fs_itable s)) as [i|] eqn:E.
  - apply find_index_Some in E as [(ip & Hi & Hl) _]. apply live_at_spec in Hl as (Hr & <- & <-). apply lookup_lt_Some in Hi as Hlt.
    rewrite (getip_lookup s i ip Hi). exists i, (set_ref ip (i_ref ip + 1)). split; [done|]. split; [done|].
    rewrite (itab_Some _ _ _ i ip) by done. cbn. split_and!; auto.
    + eapply (itab_keep _ i ip _ 0 0); eauto; [cbn; lia|done].
    + intros d n. edestruct (itab_keep (fs_itable s) i ip (set_ref ip (i_ref ip + 1)) d n) as [_ ->]; eauto; [cbn; lia|done|].
      destruct (decide (d = i_dev ip /\ n = i_inum ip)) as [[-> ->]|]; [by rewrite (itab_Some _ _ _ i ip)|lia].
  - assert (Hnl : forall i ip, fs_itable s !! i = Some ip -> live_at ip dev inum = false).
    { intros i ip Hi. apply find_index_None in E. by eapply Forall_lookup in E. }
    destruct (find_index (fun ip => i_ref ip =? 0) (fs_itable s)) as [i|] eqn:E0.
    2: { exfalso. destruct Hex as (i & ip & Hi & [Hz|Hl]); [|by rewrite (Hnl i) in Hl]. apply find_index_None in E0.
         eapply Forall_lookup in E0; [|exact Hi]. simpl in E0. by apply Z.eqb_neq in E0. }
    apply find_index_Some in E0 as [(ip & Hi & Hz%Z.eqb_eq) _]. apply lookup_lt_Some in Hi as Hlt. rewrite (getip_lookup s i ip Hi).
    eexists i, _. split; [done|]. split; [done|]. cbn. rewrite itab_None by done. set (ip' := mkInode dev inum 1 _ _ _ _ _ _ _ _).
    assert (Hok' : itable_ok (<[i := ip']> (fs_itable s))).
    { eapply itable_update; eauto; [cbn; lia|]. intros _ j jp Hji Hj Hrj [E1 E2]. specialize (Hnl j jp Hj).
      assert (live_at jp dev inum = true) by (by apply live_at_spec). congruence. }
    split_and!; auto. intros d n. destruct (decide (d = dev /\ n = inum)) as [[-> ->]|Hne].
    + rewrite (itab_None (fs_itable s)) by done. rewrite (itab_Some _ _ _ i ip'); auto; [|done]. by apply list_lookup_insert_eq.
    + unfold itab. assert (Ef : find_index (fun p => live_at p d n) (<[i:=ip']> (fs_itable s)) = find_index (fun p => live_at p d n) (fs_itable s)).
      { rewrite !(find_index_bools (fun p => live_at p d n)), list_fmap_insert. f_equal. apply list_insert_id. rewrite list_lookup_fmap, Hi. simpl. f_equal.
        transitivity false; [|symmetry]; apply not_true_is_false; intros (? & ? & ?)%live_at_spec; [lia|]. apply Hne. cbn in *. split; congruence. }
      rewrite Ef. destruct (find_index (fun p => live_at p d n) (fs_itable s)) as [j|] eqn:Ej; [|done]. apply find_index_Some in Ej as [(jp & Hj & (Hp & _)%live_at_spec) _].
      rewrite list_lookup_insert_ne; [lia|]. intros <-. rewrite Hi in Hj. injection Hj as <-. lia.
Qed.

Lemma iget_full dev inum (s : fs T) :
  (forall i ip, fs_itable s !! i = Some ip -> i_ref ip <> 0 /\ live_at ip dev inum = false) -> iget dev inum s = Panic "iget: no inodes".
Proof.
  intros Hn. unfold iget. change (fun ip => (0 <? i_ref ip) && (i_dev ip =? dev) && (i_inum ip =? inum)) with (fun ip => live_at ip dev inum).
  rewrite (proj2 (find_index_None _ _)) by (apply Forall_lookup; intros i ip Hi; by apply (Hn i)).
  rewrite (proj2 (find_index_None _ _)); [done|]. apply Forall_lookup. intros i ip Hi. apply Z.eqb_neq. by apply (Hn i).
Qed.
End table.

(** ** iput *)
Section iput.
Context {T : Type} `{TO : TxnOps T} `{TL : !TxnLaws T} (sb : superblock).

(** Not the last reference, or the file still has links. *)
Lemma iput_keep me i (s : fs T) ip :
  fs_itable s !! i = Some ip -> (i_ref ip =? 1) && i_valid ip && (i_nlink ip =? 0) = false ->
  iput sb me i s = Ok (setip s i (set_ref ip (i_ref ip - 1))).
Proof. intros Hi Hc. unfold iput. rewrite (getip_lookup s i ip Hi), Hc. cbn [rbind]. by rewrite (getip_lookup s i ip Hi). Qed.

Lemma getip_set_t (s : fs T) t i ip : (i < length (fs_itable s))%nat -> getip (setip (set_t s t) i ip) i = ip.
Proof. intros Hi. unfold getip, setip. simpl. by rewrite list_lookup_insert_eq. Qed.

(** The last reference to a file without links: contents and inode are freed. *)
Lemma iput_free me R i (s : fs T) ip L P :
  fs_itable s !! i = Some ip -> i_ref ip = 1 -> i_valid ip = true -> i_nlink ip = 0 -> sl_locked (i_lock ip) = 0 ->
  sb_ok sb -> disk_ok L -> file_ok sb L (i_addrs ip) -> meta_ok ip -> 0 <= i_inum ip < sb_ninodes sb ->
  stx (fs_t s) L ∅ P -> bmap_in sb R -> IBLOCK (i_inum ip) sb ∈ R -> room R P 0 ->
  exists s' L' P' ip', iput sb me i s = Ok s' /\ stx (fs_t s') L' ∅ P' /\ fs_itable s' = <[i := ip']> (fs_itable s) /\
    (i_ref ip' = 0 /\ i_valid ip' = false /\ sl_locked (i_lock ip') = 0 /\ i_inum ip' = i_inum ip) /\
    (forall x, 0 <= x < sb_size sb -> used sb L' x = true <-> used sb L x = true /\ ~ own L (i_addrs ip) x) /\
    dinode_on sb L' (i_inum ip) = (0, i_major ip, i_minor ip, 0, 0, replicate 13 0) /\
    (forall j, 0 <= j < sb_ninodes sb -> j <> i_inum ip -> dinode_on sb L' j = dinode_on sb L j) /\
    (forall x, datastart sb <= x -> L' x = L x) /\ P' ⊆ P ∪ R.
Proof.
  intros Hi Hr Hv Hn Hlk Hsb HL Hf Hm Hin Ht HR HIR Hroom. apply lookup_lt_Some in Hi as Hlt.
  unfold iput. rewrite (getip_lookup s i ip Hi), Hr, Hv, Hn. cbn [Z.eqb Pos.eqb andb]. unfold acquiresleep. rewrite Hlk. cbn [Z.eqb negb rbind].
  set (ip1 := set_ilock ip (mkSl 1 me)).
  destruct (itrunc_spec sb R ip1 (fs_t s) L P) as (t1 & L1 & P1 & E1 & Ht1 & Hp); auto; [by destruct Hm; split|].
  rewrite E1. cbn [rbind]. set (ip2 := set_type (set_size (set_addrs ip1 (replicate 13 0)) 0) 0).
  destruct (iupdate_spec sb R ip2 t1 L1 ∅ P1) as (t2 & E2 & Ht2);
    [done|apply not_elem_of_empty|rewrite size_empty; lia|apply Hp|].
  rewrite E2. cbn [rbind]. rewrite getip_set_t by done. eexists _, _, _, _. split; [done|].
  split; [exact Ht2|]. split; [cbn; by rewrite list_insert_insert_eq|]. split; [cbn; repeat split; lia|].
  assert (Hm2 : meta_ok ip2).
  { destruct Hm. split; cbn; auto; try (unfold is_s16, is_u32; lia). repeat constructor; unfold is_u32; lia. }
  pose proof (tp_disk _ _ _ _ _ _ _ Hp) as HL1. change (IBLOCK (i_inum ip2) sb) with (IBLOCK (i_inum ip) sb).
  pose proof (iblock_range sb _ Hsb Hin) as Hib. pose proof (sb_pos sb Hsb) as [Hps _].
  assert (Hd : forall j, 0 <= j -> dinode_on sb (fupd L1 (IBLOCK (i_inum ip) sb) (dinode_put (L1 (IBLOCK (i_inum ip) sb)) ip2)) j =
    if decide (j = i_inum ip) then dinode_of ip2 else dinode_on sb L1 j).
  { intros j Hj. apply (dinode_on_put sb L1 ip2 j HL1 Hm2 Hj). cbn. lia. }
  split_and!.
  - intros x Hx. rewrite used_off_bmap by (done || (unfold is_bmap; lia)). by apply (tp_used _ _ _ _ _ _ _ Hp).
  - rewrite Hd by lia. rewrite decide_True by done. unfold dinode_of. cbn. by rewrite Hn.
  - intros j Hj Hne. rewrite Hd, decide_False by (done || lia). by apply (tp_inodes _ _ _ _ _ _ _ Hp).
  - intros x Hx. rewrite fupd_ne by lia. apply (tp_frame _ _ _ _ _ _ _ Hp); [unfold is_bmap; lia|cbn; lia].
  - destruct (tp_log _ _ _ _ _ _ _ Hp) as (_ & _ & Hlog). clear -HIR Hlog. set_solver.
Qed.

(** ** ilock and iunlock *)
Lemma ilock_spec o me i (s : fs T) ip L P :
  fs_itable s !! i = Some ip -> 1 <= i_ref ip -> sl_locked (i_lock ip) = 0 -> stxo o (fs_t s) L ∅ P -> Z.of_nat (size P) < NBUF ->
  (i_valid ip = false -> get16 (L (IBLOCK (i_inum ip) sb)) (dip (i_inum ip)) <> 0) ->
  exists s' ip', ilock sb me (Some i) s = Ok s' /\ stxo o (fs_t s') L ∅ P /\ fs_itable s' = <[i := ip']> (fs_itable s) /\
    i_valid ip' = true /\ holdingsleep me (i_lock ip') = true /\ i_ref ip' = i_ref ip /\ same_inode ip ip' /\
    dinode_of ip' = (if i_valid ip then dinode_of ip else dinode_on sb L (i_inum ip)).
Proof.
  intros Hi Hr Hlk Ht Hn Hty. unfold ilock. rewrite (getip_lookup s i ip Hi). destruct (Z.ltb_spec (i_ref ip) 1); [lia|].
  unfold acquiresleep. rewrite Hlk. cbn [Z.eqb negb rbind]. cbn [i_valid set_ilock]. destruct (i_valid ip) eqn:Hv.
  - exists (setip s i (set_ilock ip (mkSl 1 me))), (set_ilock ip (mkSl 1 me)). split; [done|]. cbn [fs_t setip fs_itable]. split_and!; try done. apply Z.eqb_refl.
  - cbn [i_inum set_ilock]. set (b := IBLOCK (i_inum ip) sb) in *.
    destruct (stx_read o (fs_t s) L ∅ P b) as (t1 & E1 & D1 & Ht1); [done|apply not_elem_of_empty|by rewrite union_empty_r_L|].
    rewrite E1. cbn [rbind]. rewrite D1. destruct (stx_relse o t1 L ∅ P b Ht1) as (t2 & E2 & Ht2); [apply not_elem_of_empty|].
    rewrite E2. cbn [rbind]. change (i_type (iload (set_ilock ip (mkSl 1 me)) (L b))) with (get16 (L b) (dip (i_inum ip))).
    destruct (Z.eqb_spec (get16 (L b) (dip (i_inum ip))) 0); [by destruct (Hty eq_refl)|].
    eexists _, _. split; [done|]. split; [done|]. split; [done|]. split_and!; try done. apply Z.eqb_refl.
Qed.

Lemma iunlock_spec me i (s : fs T) ip :
  fs_itable s !! i = Some ip -> 1 <= i_ref ip -> holdingsleep me (i_lock ip) = true ->
  iunlock me (Some i) s = Ok (setip s i (set_ilock ip (mkSl 0 0))).
Proof.
  intros Hi Hr Hh. unfold iunlock. rewrite (getip_lookup s i ip Hi), Hh. destruct (Z.ltb_spec (i_ref ip) 1); [lia|]. done.
Qed.
End iput.
