(* ===== verification/FsProps.v ===== *)
(** * Properties of the file system

    What fs.c promises to the system calls, for any log and buffer cache that
    implement the transaction interface, and concrete states on which each
    statement applies. *)

From S2P Require Import Prelude Riscv Cstring Sleeplock Block Log LogFacts LogExec LogProps Txn Fs FsBlocks FsFile FsIO FsInode FsTrunc FsDir FsNames FsTable.

(** ** A small file system, as mkfs lays it out: 2000 blocks, 200 inodes *)
Definition demo_sb : superblock := mkSb FSMAGIC 2000 1954 200 30 2 32 45.
Definition demo_bitmap : block := [255; 255; 255; 255; 255; 63] ++ replicate 1018 0.
Definition demo_disk : disk := {[ 45 := demo_bitmap ]}.
Definition demo_view : Z -> block := dget demo_disk.
Definition demo_t : log * acache := (mkLog 2 30 1 0 1 0 (replicate 30 0), mkA demo_disk ∅ []).
Definition demo_R (inum : Z) : gset Z := {[45; IBLOCK inum demo_sb]}.
Definition demo_file (ty nlink inum : Z) : inode := mkInode 1 inum 1 initsleeplock true ty 0 0 nlink 0 (replicate 13 0).

Lemma demo_sb_ok : sb_ok demo_sb.
Proof. split; zcompute. Qed.

Lemma demo_stx : stxo (TL := log_txn_laws 30) true demo_t demo_view ∅ ∅.
Proof.
  exists (mkA demo_disk ∅ []). split; [reflexivity|]. split; simpl.
  - repeat split; discriminate.
  - lia.
  - intros b. reflexivity.
  - split; [reflexivity|constructor].
  - rewrite dom_empty_L. set_solver.
  - intros b r Hb. by rewrite lookup_empty in Hb.
  - intros b r Hb. by rewrite lookup_empty in Hb.
  - intros b _ _. reflexivity.
Qed.

Lemma demo_bitmap_ok : is_block demo_bitmap /\ Forall is_byte demo_bitmap.
Proof.
  split; [reflexivity|]. apply Forall_app. split; [repeat constructor; done|]. apply Forall_replicate. done.
Qed.

Lemma demo_fs_disk : fs_disk demo_sb demo_view.
Proof.
  split.
  - intros b. unfold demo_view, demo_disk, dget. destruct (decide (b = 45)) as [->|].
    + rewrite lookup_singleton_eq. apply demo_bitmap_ok.
    + rewrite lookup_singleton_ne by done. apply zero_block_ok.
  - assert (Hall : forallb (used demo_sb demo_view) (seqZ 0 46) = true) by (vm_compute; reflexivity).
    intros b Hb. rewrite forallb_forall in Hall. apply Hall. apply list_elem_of_In, elem_of_seqZ. exact Hb.
Qed.

Lemma demo_bmap_in inum : bmap_in demo_sb (demo_R inum).
Proof.
  intros x Hx. assert (x = 45) as -> by (destruct Hx as [H1 H2]; change (datastart demo_sb) with 46 in H2; change (sb_bmapstart demo_sb) with 45 in H1; lia).
  unfold demo_R. set_solver.
Qed.

Lemma demo_slot L i : slot L (replicate 13 0) i = 0.
Proof.
  unfold slot. assert (Hz : forall j, nthZ (replicate 13 0) j = 0).
  { intros j. unfold nthZ. destruct (replicate 13 0 !! Z.to_nat j) eqn:E; [|done]. apply lookup_replicate in E as [-> _]. done. }
  rewrite !Hz. by destruct (i <? NDIRECT + 1).
Qed.

Lemma demo_file_ok L : file_ok demo_sb L (replicate 13 0).
Proof. split; [done|intros i _; by rewrite demo_slot|intros i j _ _; by rewrite demo_slot]. Qed.

Lemma demo_meta ty nlink inum : is_s16 ty -> is_s16 nlink -> meta_ok (demo_file ty nlink inum).
Proof. intros H1 H2. split; cbn; auto; unfold is_s16, is_u32; try lia. repeat constructor; lia. Qed.

Lemma demo_ip_ok ty nlink inum : is_s16 ty -> is_s16 nlink -> 0 <= inum < 200 -> ip_ok demo_sb demo_view (demo_file ty nlink inum).
Proof.
  intros H1 H2 H3. split; [apply demo_file_ok|cbn; zcompute|cbn; intros; change BSIZE with 1024 in *; lia|by apply demo_meta|exact H3].
Qed.

Lemma demo_room inum k : k <= 20 -> lbudget (TL := log_txn_laws 30) (demo_R inum) ∅ (replicate 13 0) k.
Proof.
  intros Hk. unfold lbudget, demo_R. change (@tcap _ _ (log_txn_laws 30)) with 29.
  change (nthZ (replicate 13 0) NDIRECT =? 0) with true. cbv iota.
  change (nthZ (replicate 13 0) NDIRECT) with 0. rewrite union_empty_l_L, <- union_assoc_L.
  pose proof (size_add 45 ({[IBLOCK inum demo_sb]} ∪ {[0]})) as H1.
  pose proof (size_add (IBLOCK inum demo_sb) {[0]}) as H2. rewrite size_singleton in H2. lia.
Qed.

(** Balloc hands out a block that was free, zeroes it and marks it, and
    changes no other bit and no other block than the bitmap; it returns 0 only
    when every block is in use.  It logs one bitmap block and the new block. *)
Theorem balloc_fresh {T} `{TO : TxnOps T} `{TL : !TxnLaws T} (sb : superblock) (t : T) L B P R :
  sb_ok sb -> disk_ok L -> meta_used sb L -> stxo true t L B P -> held_ok sb L B -> bmap_in sb R -> room R P 1 ->
  exists r t' L' P', balloc sb t = Ok (r, t') /\ stxo true t' L' B P' /\
    ((r = 0 /\ L' = L /\ P' = P /\ forall x, 0 <= x < sb_size sb -> used sb L x = true) \/
     (alloc_step sb L r L' /\ P' = {[r]} ∪ ({[BBLOCK r sb]} ∪ P))).
Proof. apply balloc_spec. Qed.

Lemma balloc_fresh_witness :
  exists r t' L' P', balloc demo_sb demo_t = Ok (r, t') /\ stxo (TL := log_txn_laws 30) true t' L' ∅ P' /\
    ((r = 0 /\ L' = demo_view /\ P' = ∅ /\ forall x, 0 <= x < 2000 -> used demo_sb demo_view x = true) \/
     (alloc_step demo_sb demo_view r L' /\ P' = {[r]} ∪ ({[BBLOCK r demo_sb]} ∪ ∅))).
Proof.
  apply (balloc_fresh (TL := log_txn_laws 30) demo_sb demo_t demo_view ∅ ∅ (demo_R 1)).
  - apply demo_sb_ok.
  - apply demo_fs_disk.
  - apply demo_fs_disk.
  - apply demo_stx.
  - apply held_nil.
  - apply demo_bmap_in.
  - pose proof (lbudget_room (TL := log_txn_laws 30) (demo_R 1) ∅ (replicate 13 0) 0 ltac:(lia) (demo_room 1 1 ltac:(lia))) as Hr.
    unfold room in *. change (nthZ (replicate 13 0) NDIRECT =? 0) with true in Hr. cbv iota in Hr. lia.
Defined.

(** C8: a file is an array of bytes.  writei at an offset inside the file
    stores a prefix of the data given (all of it unless the disk is full) and
    nothing else: reading any range afterwards gives the old bytes with the
    written ones spliced in, and the inode on disk, the other inodes and the
    blocks of other files are as [writei_post] says. *)
Theorem writei_readi {T} `{TO : TxnOps T} `{TL : !TxnLaws T} (sb : superblock) R ci gb ip src off n (t : T) L P :
  (forall s m, src <= s -> 0 <= m -> s + m <= src + n -> ci s m = Ok (gb <$> seqZ s m, true)) -> (forall x, is_byte (gb x)) ->
  sb_ok sb -> fs_disk sb L -> ip_ok sb L ip -> stxo true t L ∅ P -> bmap_in sb R -> IBLOCK (i_inum ip) sb ∈ R ->
  0 <= off <= i_size ip -> 0 <= n -> off + n <= MAXFILE * BSIZE -> lbudget R P (i_addrs ip) (wblocks off n) ->
  exists d ip' t' L' P', let data := (fun j => gb (src + j)) <$> seqZ 0 d in
    writei sb ci ip src off n t = Ok (d, ip', t') /\ stxo true t' L' ∅ P' /\ writei_post sb R L ip data off n d L' ip' P' /\
    forall off2 n2 buf, 0 <= off2 -> 0 <= n2 -> off2 + n2 < 2 ^ 32 -> n2 <= Z.of_nat (length buf) ->
      let c := splice (Z.to_nat off) data (fcontent L ip) in
      let k := Z.max 0 (Z.min n2 (Z.of_nat (length c) - off2)) in
      exists t'', readi sb local_out ip' 0 off2 n2 buf t' = Ok (k, ip', splice 0 (take (Z.to_nat k) (drop (Z.to_nat off2) c)) buf, t'').
Proof.
  intros Hci Hgb Hsb Hfd Hip Ht HR HIR Hoff Hn Hmax Hbud.
  destruct (writei_spec sb R ci gb ip src off n t L P) as (d & ip' & t' & L' & P' & E & Ht' & _ & Hp); auto.
  exists d, ip', t', L', P'. split; [done|]. split; [done|]. split; [done|]. intros off2 n2 buf Ho2 Hn2 Hov Hbuf c k.
  pose proof (wp_content _ _ _ _ _ _ _ _ _ _ _ Hp) as Hc. fold c in Hc. pose proof (wp_ip _ _ _ _ _ _ _ _ _ _ _ Hp) as Hip'.
  pose proof (length_fcontent L' ip' ltac:(apply Hip')) as Hlen. rewrite Hc in Hlen.
  destruct (lbudget_log R P' _ 0 ltac:(lia) (wp_log _ _ _ _ _ _ _ _ _ _ _ Hp)) as [_ Hcap]. pose proof tcap_small as Htc.
  destruct (readi_spec sb local_out true ip' 0 off2 n2 buf t' L' P') as (t'' & E2 & _); auto; try lia; try apply Hip'.
  - apply (wp_disk _ _ _ _ _ _ _ _ _ _ _ Hp).
  - cbn. lia.
  - exists t''. rewrite E2. rewrite <- Hlen. fold k. do 3 f_equal. cbn [sk_put local_sink]. destruct (decide (k = 0)) as [->|].
    + done.
    + rewrite fbytes_content by lia. by rewrite Hc.
Qed.

Lemma writei_readi_witness :
  exists d ip' t' L' P', let data := (fun j => (7 + (0 + j)) mod 256) <$> seqZ 0 d in
    writei demo_sb (fun s m => Ok ((fun x => (7 + x) mod 256) <$> seqZ s m, true)) (demo_file T_FILE 1 5) 0 0 3000 demo_t = Ok (d, ip', t') /\
    stxo (TL := log_txn_laws 30) true t' L' ∅ P' /\ writei_post (TL := log_txn_laws 30) demo_sb (demo_R 5) demo_view (demo_file T_FILE 1 5) data 0 3000 d L' ip' P' /\
    forall off2 n2 buf, 0 <= off2 -> 0 <= n2 -> off2 + n2 < 2 ^ 32 -> n2 <= Z.of_nat (length buf) ->
      let c := splice (Z.to_nat 0) data (fcontent demo_view (demo_file T_FILE 1 5)) in
      let k := Z.max 0 (Z.min n2 (Z.of_nat (length c) - off2)) in
      exists t'', readi demo_sb local_out ip' 0 off2 n2 buf t' = Ok (k, ip', splice 0 (take (Z.to_nat k) (drop (Z.to_nat off2) c)) buf, t'').
Proof.
  apply (writei_readi (TL := log_txn_laws 30) demo_sb (demo_R 5) _ (fun x => (7 + x) mod 256) (demo_file T_FILE 1 5) 0 0 3000 demo_t demo_view ∅).
  - intros s m _ _ _. reflexivity.
  - intros x. apply Z.mod_pos_bound. lia.
  - apply demo_sb_ok.
  - apply demo_fs_disk.
  - apply demo_ip_ok; zcompute.
  - apply demo_stx.
  - apply demo_bmap_in.
  - unfold demo_R. set_solver.
  - cbn. lia.
  - lia.
  - zcompute.
  - apply demo_room. zcompute.
Defined.

(** C27: putting the last reference to a file without links frees it: every
    data block and the indirect block return to the bitmap and no other block
    does, the on-disk inode becomes free, the table entry is recycled, and no
    data block or other inode changes. *)
Theorem iput_frees_file {T} `{TO : TxnOps T} `{TL : !TxnLaws T} (sb : superblock) me R i (s : fs T) ip L P :
  fs_itable s !! i = Some ip -> i_ref ip = 1 -> i_valid ip = true -> i_nlink ip = 0 -> sl_locked (i_lock ip) = 0 ->
  sb_ok sb -> disk_ok L -> file_ok sb L (i_addrs ip) -> meta_ok ip -> 0 <= i_inum ip < sb_ninodes sb ->
  stxo true (fs_t s) L ∅ P -> bmap_in sb R -> IBLOCK (i_inum ip) sb ∈ R -> room R P 0 ->
  exists s' L' P' ip', iput sb me i s = Ok s' /\ stxo true (fs_t s') L' ∅ P' /\ fs_itable s' = <[i := ip']> (fs_itable s) /\
    (i_ref ip' = 0 /\ i_valid ip' = false /\ sl_locked (i_lock ip') = 0 /\ i_inum ip' = i_inum ip) /\
    (forall x, 0 <= x < sb_size sb -> used sb L' x = true <-> used sb L x = true /\ ~ own L (i_addrs ip) x) /\
    dinode_on sb L' (i_inum ip) = (0, i_major ip, i_minor ip, 0, 0, replicate 13 0) /\
    (forall j, 0 <= j < sb_ninodes sb -> j <> i_inum ip -> dinode_on sb L' j = dinode_on sb L j) /\
    (forall x, datastart sb <= x -> L' x = L x) /\ P' ⊆ P ∪ R.
Proof. apply iput_free. Qed.

Definition demo_fs (ip : inode) : fs (log * acache) := mkFs demo_t [ip; inode0].

Lemma demo_room0 inum : room (TL := log_txn_laws 30) (demo_R inum) ∅ 0.
Proof. apply (lbudget_log (TL := log_txn_laws 30) (demo_R inum) ∅ (replicate 13 0) 1 ltac:(lia)). by apply demo_room. Qed.

Lemma iput_frees_file_witness :
  exists s' L' P' ip', iput demo_sb 3 0 (demo_fs (demo_file T_FILE 0 9)) = Ok s' /\ stxo (TL := log_txn_laws 30) true (fs_t s') L' ∅ P' /\
    fs_itable s' = <[O := ip']> [demo_file T_FILE 0 9; inode0] /\
    (i_ref ip' = 0 /\ i_valid ip' = false /\ sl_locked (i_lock ip') = 0 /\ i_inum ip' = 9) /\
    (forall x, 0 <= x < 2000 -> used demo_sb L' x = true <-> used demo_sb demo_view x = true /\ ~ own demo_view (replicate 13 0) x) /\
    dinode_on demo_sb L' 9 = (0, 0, 0, 0, 0, replicate 13 0) /\
    (forall j, 0 <= j < 200 -> j <> 9 -> dinode_on demo_sb L' j = dinode_on demo_sb demo_view j) /\
    (forall x, datastart demo_sb <= x -> L' x = demo_view x) /\ P' ⊆ ∅ ∪ demo_R 9.
Proof.
  apply (iput_frees_file (TL := log_txn_laws 30) demo_sb 3 (demo_R 9) 0 (demo_fs (demo_file T_FILE 0 9)) (demo_file T_FILE 0 9) demo_view ∅).
  1-5: reflexivity.
  - apply demo_sb_ok.
  - apply demo_fs_disk.
  - apply demo_file_ok.
  - apply demo_meta; zcompute.
  - zcompute.
  - apply demo_stx.
  - apply demo_bmap_in.
  - unfold demo_R. set_solver.
  - apply demo_room0.
Defined.



(** Taking a path apart with skipelem, as namex does, yields exactly the
    non-empty components between slashes, each cut to DIRSIZ bytes, and ends
    after at most as many steps as the path has bytes. *)
Theorem skipelem_components p name :
  no_nul p -> length name = 14%nat -> path_elems (length p) p name = Some (take 14 <$> components p).
Proof. intros. by apply path_elems_spec. Qed.

Lemma skipelem_components_witness :
  path_elems 12 [47; 47; 97; 47; 98; 98; 47; 47; 99; 99; 99; 47] (replicate 14 0) = Some (take 14 <$> [[97]; [98; 98]; [99; 99; 99]]).
Proof.
  apply (skipelem_components [47; 47; 97; 47; 98; 98; 47; 47; 99; 99; 99; 47] (replicate 14 0)); [repeat constructor; done|reflexivity].
Defined.

(** Iget returns the one table entry of the inode, taking a free entry if
    there is none, and adds exactly one reference to it; the entries of other
    inodes keep theirs and no inode ever has two entries. *)
Theorem iget_references {T} `{TO : TxnOps T} dev inum (s : fs T) :
  itable_ok (fs_itable s) ->
  (exists i ip, fs_itable s !! i = Some ip /\ (i_ref ip = 0 \/ live_at ip dev inum = true)) ->
  exists i ip', iget dev inum s = Ok (i, setip s i ip') /\ (i < length (fs_itable s))%nat /\
    i_dev ip' = dev /\ i_inum ip' = inum /\ i_ref ip' = itab (fs_itable s) dev inum + 1 /\
    itable_ok (fs_itable (setip s i ip')) /\
    (forall d n, itab (fs_itable (setip s i ip')) d n = itab (fs_itable s) d n + if decide (d = dev /\ n = inum) then 1 else 0).
Proof. apply iget_spec. Qed.

Lemma iget_references_witness :
  exists i ip', iget 1 9 (demo_fs (demo_file T_FILE 0 9)) = Ok (i, setip (demo_fs (demo_file T_FILE 0 9)) i ip') /\ (i < 2)%nat /\
    i_dev ip' = 1 /\ i_inum ip' = 9 /\ i_ref ip' = 2 /\
    itable_ok (fs_itable (setip (demo_fs (demo_file T_FILE 0 9)) i ip')) /\
    (forall d n, itab (fs_itable (setip (demo_fs (demo_file T_FILE 0 9)) i ip')) d n =
       itab [demo_file T_FILE 0 9; inode0] d n + if decide (d = 1 /\ n = 9) then 1 else 0).
Proof.
  apply (iget_references 1 9 (demo_fs (demo_file T_FILE 0 9))).
  - split.
    + intros [|[|i]] ip Hi; simplify_eq/=; lia.
    + intros [|[|i]] [|[|j]] ip jp Hi Hj; simplify_eq/=; lia.
  - exists O, (demo_file T_FILE 0 9). split; [reflexivity|]. right. reflexivity.
Defined.
