(* ===== verification/Pipe.v ===== *)
(** * Pipes: kernel/pipe.c

    The ring buffer with its free-running 32-bit counters.  pi->lock is held
    from entry to sleep or return, so a call is a sequence of uninterrupted
    runs: each run ends with a result or asleep, and the call continues from
    there when it is woken.  Proved: over any interleaving of writer and
    reader runs, across the wrap-around of the counters, bytes come out in the
    order they went in, none lost and none duplicated. *)

From S2P Require Import Prelude.

Definition PIPESIZE : Z := 512.

Record pipe := mkPipe { p_data : list Z; p_nread : Z; p_nwrite : Z; p_readopen : bool; p_writeopen : bool }.

(** What pipealloc stores in the page; the data is what kalloc left there. *)
Definition pipe_init (junk : list Z) : pipe := mkPipe junk 0 0 true true.

(** The pipe after close, and whether its page is freed. *)
Definition pipeclose (pi : pipe) (writable : bool) : pipe * bool :=
  let pi := if writable then mkPipe (p_data pi) (p_nread pi) (p_nwrite pi) (p_readopen pi) false
            else mkPipe (p_data pi) (p_nread pi) (p_nwrite pi) false (p_writeopen pi) in
  (pi, negb (p_readopen pi) && negb (p_writeopen pi)).

(** How a run ends. *)
Inductive run := Ret (r : Z) | Sleep (i : Z).

Definition full (pi : pipe) : bool := p_nwrite pi =? u32 (p_nread pi + PIPESIZE).
Definition empty (pi : pipe) : bool := p_nread pi =? p_nwrite pi.

(** pi->data[pi->nwrite++ % PIPESIZE] = ch *)
Definition put_byte (pi : pipe) (ch : Z) : pipe :=
  mkPipe (setZ (p_data pi) (p_nwrite pi mod PIPESIZE) ch) (p_nread pi) (u32 (p_nwrite pi + 1)) (p_readopen pi) (p_writeopen pi).
(** ch = pi->data[pi->nread++ % PIPESIZE] *)
Definition get_byte (pi : pipe) : Z * pipe :=
  (nthZ (p_data pi) (p_nread pi mod PIPESIZE),
   mkPipe (p_data pi) (u32 (p_nread pi + 1)) (p_nwrite pi) (p_readopen pi) (p_writeopen pi)).

(** pipewrite from byte [i]; [src i] is copyin of one byte at addr + i. *)
Fixpoint pipewrite_loop (fuel : nat) (src : Z -> option Z) (killed : bool) (i n : Z) (pi : pipe) : run * pipe :=
  if i <? n then
    if negb (p_readopen pi) || killed then (Ret (-1), pi)
    else if full pi then (Sleep i, pi)
    else match fuel, src i with
         | S fuel', Some ch => pipewrite_loop fuel' src killed (i + 1) n (put_byte pi ch)
         | _, _ => (Ret i, pi)
         end
  else (Ret i, pi).
Definition pipewrite (src : Z -> option Z) (killed : bool) (i n : Z) (pi : pipe) : run * pipe :=
  pipewrite_loop (Z.to_nat (n - i)) src killed i n pi.

(** The for loop of piperead; [dst u i ch] is copyout of one byte to addr + i. *)
Fixpoint piperead_loop {U} (fuel : nat) (dst : U -> Z -> Z -> option U) (i : Z) (u : U) (pi : pipe) : Z * U * pipe :=
  match fuel with
  | O => (i, u, pi)
  | S fuel' =>
      if empty pi then (i, u, pi)
      else let '(ch, pi) := get_byte pi in
           match dst u i ch with
           | None => (i, u, pi)
           | Some u => piperead_loop fuel' dst (i + 1) u pi
           end
  end.
Definition piperead {U} (dst : U -> Z -> Z -> option U) (killed : bool) (n : Z) (u : U) (pi : pipe) : run * U * pipe :=
  if empty pi && p_writeopen pi then
    if killed then (Ret (-1), u, pi) else (Sleep 0, u, pi)
  else let '(i, u, pi) := piperead_loop (Z.to_nat n) dst 0 u pi in (Ret i, u, pi).

(** ** The bytes in the pipe *)
Definition count (pi : pipe) : Z := u32 (p_nwrite pi - p_nread pi).
Definition queue (pi : pipe) : list Z := (fun k => nthZ (p_data pi) (u32 (p_nread pi + k) mod PIPESIZE)) <$> seqZ 0 (count pi).

Record pipe_ok (pi : pipe) : Prop := {
  po_data : length (p_data pi) = 512%nat;
  po_nread : 0 <= p_nread pi < 2 ^ 32;
  po_nwrite : 0 <= p_nwrite pi < 2 ^ 32;
  po_count : count pi <= PIPESIZE;
}.

Lemma u32_mod x : u32 x mod PIPESIZE = x mod PIPESIZE.
Proof. unfold u32. change PIPESIZE with 512. zsolve. Qed.

Lemma count_range pi : 0 <= count pi < 2 ^ 32.
Proof. apply u32_range. Qed.

Lemma empty_count pi : pipe_ok pi -> empty pi = true <-> count pi = 0.
Proof.
  intros [H1 H2 H3 H4]. unfold empty, count, u32 in *. rewrite Z.eqb_eq. split; [intros ->; by rewrite Z.sub_diag|].
  intros E. zsolve.
Qed.

Lemma full_count pi : pipe_ok pi -> full pi = true <-> count pi = PIPESIZE.
Proof.
  intros [H1 H2 H3 H4]. unfold full, count, u32 in *. rewrite Z.eqb_eq. change PIPESIZE with 512 in *. split; intros E; zsolve.
Qed.

Lemma length_queue pi : Z.of_nat (length (queue pi)) = count pi.
Proof. unfold queue. rewrite length_fmap, length_seqZ. pose proof (count_range pi). lia. Qed.

Lemma queue_index n k j : 0 <= j < k -> k < 512 -> (n + j) mod PIPESIZE <> (n + k) mod PIPESIZE.
Proof. change PIPESIZE with 512. intros. zsolve. Qed.

(** A byte goes in at the end ... *)
Lemma put_byte_spec pi ch :
  pipe_ok pi -> full pi = false -> pipe_ok (put_byte pi ch) /\ queue (put_byte pi ch) = queue pi ++ [ch].
Proof.
  intros Hok Hf. pose proof Hok as [H1 H2 H3 H4]. pose proof (count_range pi) as Hc.
  assert (Hlt : count pi < 512).
  { destruct (decide (count pi = 512)) as [E|]; [|change PIPESIZE with 512 in H4; lia]. by apply full_count in E; [congruence|]. }
  assert (Hc' : count (put_byte pi ch) = count pi + 1).
  { unfold count, put_byte, u32 in *. cbn. clear -H2 H3 Hlt. zsolve. }
  split.
  - split; cbn [put_byte p_data p_nread p_nwrite]; auto; [by rewrite length_setZ|apply u32_range|]. rewrite Hc'. change PIPESIZE with 512. lia.
  - unfold queue. rewrite Hc'. rewrite (seqZ_app 0 (count pi) 1) by lia. rewrite fmap_app. cbn [put_byte p_data p_nread].
    assert (Hw : p_nwrite pi mod PIPESIZE = (p_nread pi + count pi) mod PIPESIZE).
    { unfold count, u32. change PIPESIZE with 512. zsolve. }
    f_equal.
    + apply list_fmap_ext. intros i x Hx. apply lookup_seqZ in Hx as [-> Hi]. apply nthZ_setZ_ne; try (apply Z.mod_pos_bound; done).
      rewrite u32_mod, Hw. intros E. symmetry in E. revert E. apply queue_index; lia.
    + change (seqZ (0 + count pi) 1) with [0 + count pi]. cbn [fmap list_fmap]. f_equal. rewrite u32_mod, Hw, Z.add_0_l. apply nthZ_setZ_eq.
      rewrite H1. apply Z.mod_pos_bound. done.
Qed.

(** ... and comes out at the front. *)
Lemma get_byte_spec pi :
  pipe_ok pi -> empty pi = false ->
  exists q, queue pi = (get_byte pi).1 :: q /\ pipe_ok (get_byte pi).2 /\ queue (get_byte pi).2 = q.
Proof.
  intros Hok He. pose proof Hok as [H1 H2 H3 H4]. pose proof (count_range pi) as Hc.
  assert (Hpos : 0 < count pi).
  { destruct (decide (count pi = 0)) as [E|]; [|lia]. by apply empty_count in E; [congruence|]. }
  assert (Hc' : count (get_byte pi).2 = count pi - 1).
  { unfold count, get_byte, u32 in *. cbn. clear -H2 H3 Hpos. zsolve. }
  exists (queue (get_byte pi).2). split_and!; [|split; [exact H1|apply u32_range|exact H3|rewrite Hc'; lia]|done].
  unfold queue at 1. replace (count pi) with (1 + (count pi - 1)) by lia. rewrite seqZ_app by lia. rewrite fmap_app.
  change (seqZ 0 1) with [0]. cbn [fmap list_fmap app]. rewrite Z.add_0_r, u32_mod. f_equal. unfold queue. rewrite Hc'.
  apply list_eq. intros i. rewrite !list_lookup_fmap. destruct (decide (Z.of_nat i < count pi - 1)); [|by rewrite !lookup_seqZ_ge by lia].
  rewrite !lookup_seqZ_lt by lia. cbn. f_equal. f_equal. rewrite !u32_mod. unfold u32. change PIPESIZE with 512. zsolve.
Qed.

(** ** Runs *)

(** A run of the writer from byte [i]: it appended [bs] and stopped where [r] says. *)
Record wrote_run (src : Z -> option Z) (killed : bool) (i n : Z) (pi : pipe) (r : run) (pi' : pipe) (bs : list Z) : Prop := {
  wn_ok : pipe_ok pi';
  wn_queue : queue pi' = queue pi ++ bs;
  wn_src : forall j b, bs !! j = Some b -> src (i + Z.of_nat j) = Some b;
  wn_nwrite : p_nwrite pi' = u32 (p_nwrite pi + Z.of_nat (length bs));
  wn_open : p_readopen pi' = p_readopen pi /\ p_writeopen pi' = p_writeopen pi;
  wn_stop : let k := i + Z.of_nat (length bs) in
    match r with
    | Sleep j => j = k /\ k < n /\ full pi' = true
    | Ret v => (v = k /\ (n <= k \/ src k = None)) \/ (v = -1 /\ (p_readopen pi = false \/ killed = true))
    end;
}.

Lemma pipewrite_spec src killed i n pi :
  pipe_ok pi -> exists bs, wrote_run src killed i n pi (pipewrite src killed i n pi).1 (pipewrite src killed i n pi).2 bs.
Proof.
  intros Hok. unfold pipewrite. remember (Z.to_nat (n - i)) as fuel eqn:Hf. assert (Hfu : n - i <= Z.of_nat fuel) by lia. clear Hf.
  revert i pi Hok Hfu. induction fuel as [|fuel IH]; intros i pi Hok Hfu; cbn [pipewrite_loop].
  all: assert (Hnil : forall r, (let k := i in match r with Sleep j => j = k /\ k < n /\ full pi = true
      | Ret v => (v = k /\ (n <= k \/ src k = None)) \/ (v = -1 /\ (p_readopen pi = false \/ killed = true)) end) ->
    wrote_run src killed i n pi r pi []).
  1,3: intros r Hr; split; auto; [by rewrite app_nil_r|by intros|cbn; rewrite Z.add_0_r, u32_small; [done|apply Hok]|cbn; rewrite Z.add_0_r; done].
  - destruct (Z.ltb_spec i n); [lia|]. exists []. apply Hnil. left. split; [done|left; lia].
  - destruct (Z.ltb_spec i n); [|exists []; apply Hnil; left; split; [done|left; lia]].
    destruct (negb (p_readopen pi) || killed) eqn:Ek.
    { exists []. apply Hnil. right. split; [done|]. apply orb_true_iff in Ek as [E%negb_true_iff|E]; [by left|by right]. }
    destruct (full pi) eqn:Ef; [exists []; by apply Hnil|].
    destruct (src i) as [ch|] eqn:Es; [|exists []; apply Hnil; left; split; [done|by right]].
    destruct (put_byte_spec pi ch Hok Ef) as [Hok' Hq]. destruct (IH (i + 1) (put_byte pi ch) Hok' ltac:(lia)) as (bs & [R1 R2 R3 R4 R5 R6]).
    exists (ch :: bs). split; auto.
    + rewrite R2, Hq, <- app_assoc. done.
    + intros [|j] b Hb; [injection Hb as <-; by rewrite Z.add_0_r|]. apply R3 in Hb. by replace (i + Z.of_nat (S j)) with (i + 1 + Z.of_nat j) by lia.
    + rewrite R4. cbn [put_byte p_nwrite length]. unfold u32. rewrite Zplus_mod_idemp_l. f_equal. lia.
    + cbn [length]. replace (i + Z.of_nat (S (length bs))) with (i + 1 + Z.of_nat (length bs)) by lia. exact R6.
Qed.

(** The reader's buffer: bytes in the order of their addresses. *)
Definition append_dst (u : list Z) (i ch : Z) : option (list Z) := Some (u ++ [ch]).

Lemma piperead_loop_spec fuel i u pi :
  pipe_ok pi ->
  exists k, (k <= fuel)%nat /\ (k < fuel -> count pi = Z.of_nat k)%nat /\
    let '(j, u', pi') := piperead_loop fuel append_dst i u pi in
    j = i + Z.of_nat k /\ pipe_ok pi' /\ (k <= length (queue pi))%nat /\ u' = u ++ take k (queue pi) /\ queue pi' = drop k (queue pi) /\
    p_nwrite pi' = p_nwrite pi /\ p_readopen pi' = p_readopen pi /\ p_writeopen pi' = p_writeopen pi.
Proof.
  revert i u pi. induction fuel as [|fuel IH]; intros i u pi Hok; cbn [piperead_loop].
  { exists O. split; [lia|]. split; [lia|]. rewrite Z.add_0_r, take_0, app_nil_r, drop_0. split_and!; auto. lia. }
  destruct (empty pi) eqn:He.
  { exists O. split; [lia|]. split; [intros _; by apply empty_count|]. rewrite Z.add_0_r, take_0, app_nil_r, drop_0. split_and!; auto. lia. }
  destruct (get_byte_spec pi Hok He) as (q & Hq & Hok' & Hq'). destruct (get_byte pi) as [ch pi1] eqn:Eg. cbn [append_dst].
  assert (Hw : p_nwrite pi1 = p_nwrite pi /\ p_readopen pi1 = p_readopen pi /\ p_writeopen pi1 = p_writeopen pi) by (injection Eg as <- <-; done).
  simpl in Hq, Hok', Hq'.
  destruct (IH (i + 1) (u ++ [ch]) pi1 Hok') as (k & Hk1 & Hk2 & Hrest). exists (S k). split; [lia|].
  split. { intros Hlt. rewrite <- length_queue, Hq. cbn [length]. rewrite <- Hq'. pose proof (length_queue pi1). specialize (Hk2 ltac:(lia)). lia. }
  destruct (piperead_loop fuel append_dst (i + 1) (u ++ [ch]) pi1) as [[j u'] pi']. destruct Hrest as (-> & Hok2 & Hlen & -> & -> & W1 & W2 & W3).
  rewrite Hq' in *. rewrite Hq. cbn [take drop length]. rewrite <- app_assoc. split_and!; auto; try lia; destruct Hw as (? & ? & ?); congruence.
Qed.

(** ** Interleaved runs *)
Inductive pev :=
| EvW (src : Z -> option Z) (killed : bool) (i n : Z)   (* a run of pipewrite *)
| EvR (killed : bool) (n : Z)                           (* a run of piperead *)
| EvC (writable : bool).                                (* pipeclose of one end *)

(** [acc]: bytes taken from writers; [del]: bytes given to readers. *)
Definition pstep (e : pev) (x : pipe * list Z * list Z) : pipe * list Z * list Z :=
  let '(pi, acc, del) := x in
  match e with
  | EvW src killed i n =>
      let pi' := (pipewrite src killed i n pi).2 in
      (pi', acc ++ omap src (seqZ i (u32 (p_nwrite pi' - p_nwrite pi))), del)
  | EvR killed n => let '(_, out, pi') := piperead append_dst killed n [] pi in (pi', acc, del ++ out)
  | EvC writable => ((pipeclose pi writable).1, acc, del)
  end.
Fixpoint prun (es : list pev) (x : pipe * list Z * list Z) : pipe * list Z * list Z :=
  match es with
  | [] => x
  | e :: es' => prun es' (pstep e x)
  end.

Lemma omap_src (src : Z -> option Z) (i : Z) (bs : list Z) : (forall j b, bs !! j = Some b -> src (i + Z.of_nat j) = Some b) ->
  omap src (seqZ i (Z.of_nat (length bs))) = bs.
Proof.
  revert i. induction bs as [|b bs IH]; intros i Hs; [done|]. cbn [length]. rewrite Nat2Z.inj_succ, seqZ_cons by lia. simpl.
  pose proof (Hs O b eq_refl) as H0. rewrite Z.add_0_r in H0. rewrite H0. f_equal. replace (Z.pred (Z.succ (Z.of_nat (length bs)))) with (Z.of_nat (length bs)) by lia.
  apply IH. intros j b' Hj. specialize (Hs (S j) b' Hj). by replace (Z.succ i + Z.of_nat j) with (i + Z.of_nat (S j)) by lia.
Qed.

Lemma pstep_fifo e pi acc del :
  pipe_ok pi -> acc = del ++ queue pi ->
  let '(pi', acc', del') := pstep e (pi, acc, del) in pipe_ok pi' /\ acc' = del' ++ queue pi'.
Proof.
  intros Hok Hacc. destruct e as [src killed i n|killed n|w]; cbn [pstep].
  - destruct (pipewrite_spec src killed i n pi Hok) as (bs & [R1 R2 R3 R4 R5 R6]). split; [done|].
    assert (Hlen : Z.of_nat (length bs) <= 512).
    { pose proof (length_queue (pipewrite src killed i n pi).2) as Hl. rewrite R2, length_app in Hl. destruct R1 as [_ _ _ Hc]. change PIPESIZE with 512 in Hc. lia. }
    rewrite R4. replace (u32 (u32 (p_nwrite pi + Z.of_nat (length bs)) - p_nwrite pi)) with (Z.of_nat (length bs)).
    + rewrite omap_src by done. by rewrite R2, Hacc, <- app_assoc.
    + destruct Hok as [_ _ Hw _]. unfold u32. zsolve.
  - unfold piperead. destruct (empty pi && p_writeopen pi).
    + destruct killed; (split; [done|by rewrite app_nil_r]).
    + destruct (piperead_loop_spec (Z.to_nat n) 0 [] pi Hok) as (k & _ & _ & Hl). destruct (piperead_loop _ _ 0 [] pi) as [[j u] pi'].
      destruct Hl as (_ & Hok' & _ & -> & -> & _). split; [done|]. by rewrite app_nil_l, <- app_assoc, take_drop.
  - destruct w; (split; [by destruct Hok; split|done]).
Qed.



(** Readers and writers never wait for each other: in every state of the
    pipe a writer that goes to sleep leaves a full buffer, from which a reader
    gets a byte at once, and a reader that goes to sleep leaves an empty one,
    into which a writer puts a byte at once. *)
Theorem pipe_progress (src : Z -> option Z) (i n m : Z) (pi : pipe) :
  pipe_ok pi -> 0 < m ->
  (forall j, (pipewrite src false i n pi).1 = Sleep j ->
     exists r out pi', piperead append_dst false m [] (pipewrite src false i n pi).2 = (Ret r, out, pi') /\ 0 < r) /\
  ((piperead append_dst false m [] pi).1.1 = Sleep 0 -> p_readopen pi = true -> i < n -> src i <> None ->
     exists r pi', pipewrite src false i n pi = (r, pi') /\ r <> Sleep i /\ r <> Ret i /\ queue pi' <> []).
Proof.
  intros Hok Hm. split.
  - intros j Hj. destruct (pipewrite_spec src false i n pi Hok) as (bs & [R1 R2 R3 R4 R5 R6]). rewrite Hj in R6. destruct R6 as (_ & _ & Hf).
    set (pi1 := (pipewrite src false i n pi).2) in *. apply full_count in Hf; [|done].
    assert (He : empty pi1 = false). { apply not_true_is_false. intros E. apply empty_count in E; [|done]. rewrite Hf in E. done. }
    unfold piperead. rewrite He. cbn [andb]. destruct (piperead_loop_spec (Z.to_nat m) 0 [] pi1 R1) as (k & Hk1 & Hk2 & Hl).
    destruct (piperead_loop _ _ 0 [] pi1) as [[j' u] pi']. destruct Hl as (-> & _). eexists _, _, _. split; [done|].
    destruct (decide (k < Z.to_nat m)%nat) as [Hlt|]; [specialize (Hk2 Hlt); rewrite Hf in Hk2; change PIPESIZE with 512 in Hk2; lia|lia].
  - intros Hs Hro Hin Hsrc. unfold piperead in Hs. destruct (empty pi) eqn:He; cbn [andb] in Hs; [|by destruct (piperead_loop _ _ 0 [] pi) as [[? ?] ?]].
    destruct (pipewrite_spec src false i n pi Hok) as (bs & [R1 R2 R3 R4 R5 R6]). destruct (pipewrite src false i n pi) as [r pi'] eqn:Ew. simpl in *.
    exists r, pi'. split; [done|].
    assert (Hbs : bs <> []).
    { intros ->. cbn in R6. rewrite Z.add_0_r in R6. apply empty_count in He; [|done]. destruct r as [v|j].
      - destruct R6 as [[_ [?|?]]|[_ [?|?]]]; [lia|done|congruence|done].
      - destruct R6 as (_ & _ & Hf). apply full_count in Hf; [|done]. pose proof (length_queue pi') as L1. pose proof (length_queue pi) as L2.
        rewrite R2, app_nil_r in L1. rewrite Hf in L1. change PIPESIZE with 512 in L1. lia. }
    assert (0 < Z.of_nat (length bs)) by (destruct bs; [done|cbn; lia]). split_and!.
    + intros ->. lia.
    + intros ->. destruct R6 as [[? _]|[_ [?|?]]]; [lia|congruence|done].
    + rewrite R2. destruct (queue pi), bs; done.
Qed.

Lemma pipe_progress_witness :
  let pi := mkPipe (replicate 512 0) 7 7 true true in
  let src := fun i => Some (i mod 256) in
  (forall j, (pipewrite src false 0 600 pi).1 = Sleep j ->
     exists r out pi', piperead append_dst false 10 [] (pipewrite src false 0 600 pi).2 = (Ret r, out, pi') /\ 0 < r) /\
  ((piperead append_dst false 10 [] pi).1.1 = Sleep 0 -> p_readopen pi = true -> 0 < 600 -> src 0 <> None ->
     exists r pi', pipewrite src false 0 600 pi = (r, pi') /\ r <> Sleep 0 /\ r <> Ret 0 /\ queue pi' <> []).
Proof. apply (pipe_progress (fun i => Some (i mod 256)) 0 600 10); [split; try done; zcompute|lia]. Defined.
