(* ===== verification/File.v ===== *)
(** * Open files: kernel/file.c, kernel/kfile.c, pipealloc, kernel/file.h

    The table of open files over the file system, the pipes and the memory of
    the current process.  [UserMem] is what the code uses of vm.c and kalloc.c:
    copies to and from the process, copies to and from kernel memory, and
    pages.  [devread]/[devwrite] is devsw.
    [Block] is a caller that sleeps. *)

From S2P Require Import Prelude Riscv Sleeplock Block Log Txn Fs Pipe.

Class UserMem (U : Type) := {
  um_copyout : U -> Z -> list Z -> U * bool;
  um_copyin : U -> Z -> Z -> list Z * bool;
  um_copyinstr : U -> Z -> Z -> option (list Z);
  um_kput : U -> Z -> list Z -> U;
  um_kget : U -> Z -> Z -> list Z;
  um_kalloc : U -> Z * U;
  um_kfree : Z -> U -> res U;
}.

Inductive fdtype := FD_NONE | FD_PIPE | FD_INODE | FD_DEVICE.
#[export] Instance fdtype_eq_dec : EqDecision fdtype.
Proof. solve_decision. Defined.

(** struct file; pipes are named by the address of their page. *)
Record file := mkFile {
  f_type : fdtype; f_ref : Z; f_readable : bool; f_writable : bool;
  f_pipe : Z; f_ip : option nat; f_off : Z; f_major : Z;
}.
Definition file0 : file := mkFile FD_NONE 0 false false 0 None 0 0.
Definition set_fref (f : file) (r : Z) : file := mkFile (f_type f) r (f_readable f) (f_writable f) (f_pipe f) (f_ip f) (f_off f) (f_major f).
Definition set_ftype (f : file) (t : fdtype) : file := mkFile t (f_ref f) (f_readable f) (f_writable f) (f_pipe f) (f_ip f) (f_off f) (f_major f).
Definition set_off (f : file) (o : Z) : file := mkFile (f_type f) (f_ref f) (f_readable f) (f_writable f) (f_pipe f) (f_ip f) o (f_major f).

Definition SEEK_SET : Z := 0.
Definition SEEK_CUR : Z := 1.
Definition SEEK_END : Z := 2.

(** ** The table *)
Definition filealloc (ft : list file) : option (nat * list file) :=
  match find_index (fun f => f_ref f =? 0) ft with
  | Some i => Some (i, alter (fun f => set_fref f 1) i ft)
  | None => None
  end.

Definition getf (ft : list file) (i : nat) : file := default file0 (ft !! i).

Definition filedup (i : nat) (ft : list file) : res (list file) :=
  if f_ref (getf ft i) <? 1 then Panic "filedup"
  else Ok (alter (fun f => set_fref f (f_ref f + 1)) i ft).

(** fileclose's critical section: the table, and the file to close if that
    was the last reference. *)
Definition fileclose_table (i : nat) (ft : list file) : res (option file * list file) :=
  let f := getf ft i in
  if f_ref f <? 1 then Panic "fileclose"
  else if 0 <? f_ref f - 1 then Ok (None, alter (fun f => set_fref f (f_ref f - 1)) i ft)
  else Ok (Some (set_fref f (f_ref f - 1)), alter (fun f => set_ftype (set_fref f 0) FD_NONE) i ft).

Section file.
Context {C : Type} `{BO : BufOps C} {U : Type} `{UM : UserMem U}.
Abbreviation T := (log * C)%type.
Context (sb : superblock) (me : Z) (killed : bool).

(** The state a system call works on: the file system, the two tables of open
    files, the pipes, memory, and the calling process's descriptors and
    current directory. *)
Record kst := mkK {
  k_fs : fs T; k_ft : list file; k_kft : list file; k_pipes : gmap Z pipe; k_u : U;
  k_ofile : list (option nat); k_cwd : nat;
}.
Definition set_fs (s : kst) (x : fs T) : kst := mkK x (k_ft s) (k_kft s) (k_pipes s) (k_u s) (k_ofile s) (k_cwd s).
Definition set_ft (s : kst) (x : list file) : kst := mkK (k_fs s) x (k_kft s) (k_pipes s) (k_u s) (k_ofile s) (k_cwd s).
Definition set_kft (s : kst) (x : list file) : kst := mkK (k_fs s) (k_ft s) x (k_pipes s) (k_u s) (k_ofile s) (k_cwd s).
Definition set_pipes (s : kst) (x : gmap Z pipe) : kst := mkK (k_fs s) (k_ft s) (k_kft s) x (k_u s) (k_ofile s) (k_cwd s).
Definition set_u (s : kst) (x : U) : kst := mkK (k_fs s) (k_ft s) (k_kft s) (k_pipes s) x (k_ofile s) (k_cwd s).
Definition set_ofile (s : kst) (x : list (option nat)) : kst := mkK (k_fs s) (k_ft s) (k_kft s) (k_pipes s) (k_u s) x (k_cwd s).
Definition set_cwd (s : kst) (x : nat) : kst := mkK (k_fs s) (k_ft s) (k_kft s) (k_pipes s) (k_u s) (k_ofile s) x.

Context (devread devwrite : Z -> option (Z -> Z -> kst -> res (Z * kst))).

(** log.c's begin_op and end_op on the state *)
Definition kbegin (s : kst) : res kst :=
  let '(lg, c) := fs_t (k_fs s) in
  let* lg := begin_op lg in Ok (set_fs s (set_t (k_fs s) (lg, c))).
Definition kend (s : kst) : res kst :=
  let '(lg, c) := fs_t (k_fs s) in
  let* t := end_op lg c in Ok (set_fs s (set_t (k_fs s) t)).

(** A routine of fs.c on the state. *)
Definition on_fs (f : fs T -> res (fs T)) (s : kst) : res kst :=
  let* x := f (k_fs s) in Ok (set_fs s x).

Definition kpipeclose (pi : Z) (writable : bool) (s : kst) : res kst :=
  match k_pipes s !! pi with
  | None => Panic "pipeclose: no pipe"
  | Some p =>
      let '(p, free) := pipeclose p writable in
      if free : bool then let* u := um_kfree pi (k_u s) in Ok (set_u (set_pipes s (delete pi (k_pipes s))) u)
      else Ok (set_pipes s (<[pi := p]> (k_pipes s)))
  end.

(** After the table is updated: close the pipe or put the inode. *)
Definition close_file (ff : file) (s : kst) : res kst :=
  match f_type ff with
  | FD_PIPE => kpipeclose (f_pipe ff) (f_writable ff) s
  | FD_INODE | FD_DEVICE =>
      let* s := kbegin s in
      let* s := (match f_ip ff with None => Panic "iput: null" | Some i => on_fs (iput sb me i) s end) in
      kend s
  | FD_NONE => Ok s
  end.

Definition fileclose (i : nat) (s : kst) : res kst :=
  let* (last, ft) := fileclose_table i (k_ft s) in
  match last with
  | None => Ok (set_ft s ft)
  | Some ff => close_file ff (set_ft s ft)
  end.

(** struct stat in memory; [pad] are its four bytes of padding. *)
Definition stat_bytes (pad : list Z) (st : stat) : list Z :=
  le_encode 4 (u32 (st_dev st)) ++ le_encode 4 (u32 (st_ino st)) ++ le_encode 2 (u16 (st_type st)) ++
  le_encode 2 (u16 (st_nlink st)) ++ pad ++ le_encode 8 (u64 (st_size st)).

Definition filestat (pad : list Z) (f : file) (addr : Z) (s : kst) : res (Z * kst) :=
  match f_type f, f_ip f with
  | FD_INODE, Some i | FD_DEVICE, Some i =>
      let* s := on_fs (ilock sb me (Some i)) s in
      let st := stati (getip (k_fs s) i) in
      let* s := on_fs (iunlock me (Some i)) s in
      let '(u, ok) := um_copyout (k_u s) addr (stat_bytes pad st) in
      Ok (if ok : bool then 0 else -1, set_u s u)
  | FD_INODE, None | FD_DEVICE, None => Panic "ilock"
  | _, _ => Ok (-1, s)
  end.

(** The new offset, as an int, when whence is known. *)
Definition seek_target (off size offset whence : Z) : option Z :=
  if whence =? SEEK_SET then Some offset
  else if whence =? SEEK_CUR then Some (s32 (off + offset))
  else if whence =? SEEK_END then Some (s32 (size + offset))
  else None.

Definition fileseek (fi : nat) (offset whence : Z) (s : kst) : res (Z * kst) :=
  let f := getf (k_ft s) fi in
  match f_type f, f_ip f with
  | FD_INODE, Some i =>
      let* s := kbegin s in
      let* s := on_fs (ilock sb me (Some i)) s in
      let size := i_size (getip (k_fs s) i) in
      match seek_target (f_off f) size offset whence with
      | None => let* s := kend s in Ok (-1, s)
      | Some new_offset =>
          if (new_offset <? 0) || (size <? u32 new_offset) then let* s := kend s in Ok (-1, s)
          else
            let s := set_ft s (alter (fun f => set_off f (u32 new_offset)) fi (k_ft s)) in
            let* s := on_fs (iunlock me (Some i)) s in
            let* s := kend s in
            Ok (new_offset, s)
      end
  | FD_INODE, None => Panic "ilock"
  | _, _ => Ok (-1, s)
  end.

(** piperead and pipewrite on the state *)
Definition kpiperead (pi addr n : Z) (s : kst) : res (Z * kst) :=
  match k_pipes s !! pi with
  | None => Panic "piperead: no pipe"
  | Some p =>
      let dst u i ch := let '(u, ok) := um_copyout u (addr + i) [ch] in if ok : bool then Some u else None in
      match piperead dst killed n (k_u s) p with
      | (Sleep _, _, _) => Block
      | (Ret r, u, p) => Ok (r, set_u (set_pipes s (<[pi := p]> (k_pipes s))) u)
      end
  end.
Definition kpipewrite (pi addr n : Z) (s : kst) : res (Z * kst) :=
  match k_pipes s !! pi with
  | None => Panic "pipewrite: no pipe"
  | Some p =>
      let src i := match um_copyin (k_u s) (addr + i) 1 with ([ch], true) => Some ch | _ => None end in
      match pipewrite src killed 0 n p with
      | (Sleep _, _) => Block
      | (Ret r, p) => Ok (r, set_pipes s (<[pi := p]> (k_pipes s)))
      end
  end.

(** either_copyout(1, ...) and either_copyin(1, ...) *)
Definition user_out (u : U) (dst : Z) (bytes : list Z) : res (U * bool) := Ok (um_copyout u dst bytes).
Definition user_in (u : U) (src m : Z) : res (list Z * bool) := Ok (um_copyin u src m).

(** readi and writei on a table entry *)
Definition kreadi (i : nat) (addr off n : Z) (s : kst) : res (Z * kst) :=
  let* (r, ip, u, t) := readi sb user_out (getip (k_fs s) i) addr off n (k_u s) (fs_t (k_fs s)) in
  Ok (r, set_u (set_fs s (setip (set_t (k_fs s) t) i ip)) u).
Definition kwritei (i : nat) (addr off n : Z) (s : kst) : res (Z * kst) :=
  let* (r, ip, t) := writei sb (user_in (k_u s)) (getip (k_fs s) i) addr off n (fs_t (k_fs s)) in
  Ok (r, set_fs s (setip (set_t (k_fs s) t) i ip)).

Definition fileread (fi : nat) (addr n : Z) (s : kst) : res (Z * kst) :=
  let f := getf (k_ft s) fi in
  if negb (f_readable f) then Ok (-1, s)
  else match f_type f, f_ip f with
  | FD_PIPE, _ => kpiperead (f_pipe f) addr n s
  | FD_DEVICE, _ =>
      if (f_major f <? 0) || (NDEV <=? f_major f) then Ok (-1, s)
      else match devread (f_major f) with None => Ok (-1, s) | Some read => read addr n s end
  | FD_INODE, Some i =>
      let* s := on_fs (ilock sb me (Some i)) s in
      let* (r, s) := kreadi i addr (f_off f) (u32 n) s in
      let s := if 0 <? r then set_ft s (alter (fun f => set_off f (u32 (f_off f + r))) fi (k_ft s)) else s in
      let* s := on_fs (iunlock me (Some i)) s in
      Ok (r, s)
  | FD_INODE, None => Panic "ilock"
  | FD_NONE, _ => Panic "fileread"
  end.

Definition WMAX : Z := ((MAXOPBLOCKS - 1 - 1 - 2) / 2) * BSIZE.

(** One turn of filewrite's loop: begin_op to end_op. *)
Definition filewrite_chunk (fi i : nat) (addr n1 : Z) (s : kst) : res (Z * kst) :=
  let* s := kbegin s in
  let* s := on_fs (ilock sb me (Some i)) s in
  let* (r, s) := kwritei i addr (f_off (getf (k_ft s) fi)) (u32 n1) s in
  let s := if 0 <? r then set_ft s (alter (fun f => set_off f (u32 (f_off f + r))) fi (k_ft s)) else s in
  let* s := on_fs (iunlock me (Some i)) s in
  let* s := kend s in
  Ok (r, s).

Fixpoint filewrite_loop (fuel : nat) (fi i : nat) (addr k n : Z) (s : kst) : res (Z * kst) :=
  if k <? n then
    match fuel with
    | O => Block
    | S fuel' =>
        let n1 := Z.min (n - k) WMAX in
        let* (r, s) := filewrite_chunk fi i (addr + k) n1 s in
        if negb (r =? n1) then Ok (k, s) else filewrite_loop fuel' fi i addr (k + r) n s
    end
  else Ok (k, s).

Definition filewrite (fi : nat) (addr n : Z) (s : kst) : res (Z * kst) :=
  let f := getf (k_ft s) fi in
  if negb (f_writable f) then Ok (-1, s)
  else match f_type f, f_ip f with
  | FD_PIPE, _ => kpipewrite (f_pipe f) addr n s
  | FD_DEVICE, _ =>
      if (f_major f <? 0) || (NDEV <=? f_major f) then Ok (-1, s)
      else match devwrite (f_major f) with None => Ok (-1, s) | Some write => write addr n s end
  | FD_INODE, Some i =>
      let* (k, s) := filewrite_loop (Z.to_nat (n / WMAX + 1)) fi i addr 0 n s in
      Ok (if k =? n then n else -1, s)
  | FD_INODE, None => Panic "ilock"
  | FD_NONE, _ => Panic "filewrite"
  end.

(** ** pipealloc *)
Definition pipe_file (f : file) (w : bool) (pi : Z) : file :=
  mkFile FD_PIPE (f_ref f) (negb w) w pi (f_ip f) (f_off f) (f_major f).

Definition pipealloc (junk : list Z) (s : kst) : res (option (nat * nat) * kst) :=
  match filealloc (k_ft s) with
  | None => Ok (None, s)
  | Some (f0, ft) =>
      let s := set_ft s ft in
      match filealloc ft with
      | None => let* s := fileclose f0 s in Ok (None, s)
      | Some (f1, ft) =>
          let s := set_ft s ft in
          let '(pi, u) := um_kalloc (k_u s) in
          let s := set_u s u in
          if pi =? 0 then
            let* s := fileclose f0 s in
            let* s := fileclose f1 s in
            Ok (None, s)
          else
            let s := set_pipes s (<[pi := pipe_init junk]> (k_pipes s)) in
            let ft := alter (fun f => pipe_file f false pi) f0 (k_ft s) in
            let ft := alter (fun f => pipe_file f true pi) f1 ft in
            Ok (Some (f0, f1), set_ft s ft)
      end
  end.

(** ** Descriptors in fork_core and exit *)
Fixpoint dup_files (od : list (option nat)) (ft : list file) : res (list file) :=
  match od with
  | [] => Ok ft
  | Some f :: od => let* ft := filedup f ft in dup_files od ft
  | None :: od => dup_files od ft
  end.

Fixpoint close_files (k fd : nat) (s : kst) : res kst :=
  match k with
  | O => Ok s
  | S k' =>
      let* s := (match k_ofile s !! fd with
                 | Some (Some f) => let* s := fileclose f s in Ok (set_ofile s (<[fd := None]> (k_ofile s)))
                 | _ => Ok s
                 end) in
      close_files k' (S fd) s
  end.

(** ** kernel/kfile.c: the kernel's own open files

    Its table is separate, readi and writei copy to kernel memory, and the
    caller holds the inode lock. *)
Definition kfilealloc : list file -> option (nat * list file) := filealloc.

Definition kfileseek (fi : nat) (offset whence : Z) (s : kst) : res (Z * kst) :=
  let f := getf (k_kft s) fi in
  match f_type f, f_ip f with
  | FD_INODE, Some i =>
      let* s := kbegin s in
      let size := i_size (getip (k_fs s) i) in
      match seek_target (f_off f) size offset whence with
      | None => Ok (-1, s)
      | Some new_offset =>
          if (new_offset <? 0) || (size <? u32 new_offset) then Ok (-1, s)
          else
            let s := set_kft s (alter (fun f => set_off f (u32 new_offset)) fi (k_kft s)) in
            let* s := kend s in
            Ok (new_offset, s)
      end
  | FD_INODE, None => Panic "kfileseek: null inode"
  | _, _ => Ok (-1, s)
  end.

(** either_copyout(0, ...) and either_copyin(0, ...) are memmove *)
Definition kernel_out (u : U) (dst : Z) (bytes : list Z) : res (U * bool) := Ok (um_kput u dst bytes, true).
Definition kernel_in (u : U) (src m : Z) : res (list Z * bool) := Ok (um_kget u src m, true).

Definition adv_kft (fi : nat) (r : Z) (s : kst) : kst :=
  if 0 <? r then set_kft s (alter (fun f => set_off f (u32 (f_off f + r))) fi (k_kft s)) else s.

(** kdevsw is never filled in: its entries are null. *)
Definition kfileread (fi : nat) (addr n : Z) (s : kst) : res (Z * kst) :=
  let f := getf (k_kft s) fi in
  if negb (f_readable f) then Ok (-1, s)
  else match f_type f, f_ip f with
  | FD_PIPE, _ => kpiperead (f_pipe f) addr n s
  | FD_DEVICE, _ => Ok (-1, s)
  | FD_INODE, Some i =>
      let* (r, ip, u, t) := readi sb kernel_out (getip (k_fs s) i) addr (f_off f) (u32 n) (k_u s) (fs_t (k_fs s)) in
      Ok (r, adv_kft fi r (set_u (set_fs s (setip (set_t (k_fs s) t) i ip)) u))
  | FD_INODE, None => Panic "kfileread: null inode"
  | FD_NONE, _ => Panic "fileread"
  end.

Fixpoint kfilewrite_loop (fuel : nat) (fi i : nat) (addr k n : Z) (s : kst) : res (Z * kst) :=
  if k <? n then
    match fuel with
    | O => Block
    | S fuel' =>
        let n1 := Z.min (n - k) WMAX in
        let* s := kbegin s in
        let* (r, ip, t) := writei sb (kernel_in (k_u s)) (getip (k_fs s) i) (addr + k) (f_off (getf (k_kft s) fi)) (u32 n1)
                             (fs_t (k_fs s)) in
        let s := adv_kft fi r (set_fs s (setip (set_t (k_fs s) t) i ip)) in
        let* s := kend s in
        if negb (r =? n1) then Ok (k, s) else kfilewrite_loop fuel' fi i addr (k + r) n s
    end
  else Ok (k, s).

Definition kfilewrite (fi : nat) (addr n : Z) (s : kst) : res (Z * kst) :=
  let f := getf (k_kft s) fi in
  if negb (f_writable f) then Ok (-1, s)
  else match f_type f, f_ip f with
  | FD_PIPE, _ => kpipewrite (f_pipe f) addr n s
  | FD_DEVICE, _ => Ok (-1, s)
  | FD_INODE, Some i =>
      let* (k, s) := kfilewrite_loop (Z.to_nat (n / WMAX + 1)) fi i addr 0 n s in
      Ok (if k =? n then n else -1, s)
  | FD_INODE, None => Panic "kfilewrite: null inode"
  | FD_NONE, _ => Panic "filewrite"
  end.

Definition kfileclose (i : nat) (s : kst) : res kst :=
  let* (last, ft) := fileclose_table i (k_kft s) in
  match last with
  | None => Ok (set_kft s ft)
  | Some ff => close_file ff (set_kft s ft)
  end.
End file.
Arguments kst : clear implicits.
