(* ===== verification/Sysfile.v ===== *)
(** * System calls on files: kernel/sysfile.c, and the arguments of kernel/syscall.c

    [tf] is the caller's trapframe as its 36 words, [sz] its size. *)

From S2P Require Import Prelude Riscv Sleeplock Block Log Txn Fs Pipe File.

(** struct trapframe: the index of each word used *)
Definition TF_epc : nat := 3.
Definition TF_sp : nat := 6.
Definition TF_a0 : nat := 14.
Definition TF_a1 : nat := 15.
Definition TF_a7 : nat := 21.
Abbreviation trapframe := (list Z) (only parsing).
Definition tf_get (tf : trapframe) (i : nat) : Z := nthZ tf (Z.of_nat i).

Definition argraw (tf : trapframe) (n : nat) : res Z :=
  if (n <=? 5)%nat then Ok (tf_get tf (TF_a0 + n)) else Panic "argraw".
Definition argint (tf : trapframe) (n : nat) : res Z := let* x := argraw tf n in Ok (s32 x).
Definition argaddr (tf : trapframe) (n : nat) : res Z := argraw tf n.

Definition O_RDONLY : Z := 0x000.
Definition O_WRONLY : Z := 0x001.
Definition O_RDWR : Z := 0x002.
Definition O_CREATE : Z := 0x200.
Definition O_TRUNC : Z := 0x400.
Definition flag (omode o : Z) : bool := negb (Z.land omode o =? 0).

(** The first free descriptor of the process takes the file. *)
Definition fdalloc {A} (f : A) (ofile : list (option A)) : option (nat * list (option A)) :=
  match find_index (fun o => match o with None => true | Some _ => false end) ofile with
  | Some fd => Some (fd, <[fd := Some f]> ofile)
  | None => None
  end.

Definition dot : list Z := [46; 0].
Definition dotdot : list Z := [46; 46; 0].
Definition name0 : list Z := replicate (Z.to_nat DIRSIZ) 0.

Section sysfile.
Context {C : Type} `{BO : BufOps C} {U : Type} `{UM : UserMem U}.
Context (sb : superblock) (me : Z) (killed : bool).
Abbreviation T := (log * C)%type.
Abbreviation kst := (kst C U).
Context (devread devwrite : Z -> option (Z -> Z -> kst -> res (Z * kst))).
Context (tf : trapframe) (sz : Z).

Definition fetchaddr (addr : Z) (s : kst) : option Z :=
  if (sz <=? addr) || (sz <? u64 (addr + 8)) then None
  else match um_copyin (k_u s) addr 8 with (bytes, true) => Some (le_decode bytes) | _ => None end.
Definition fetchstr (addr max : Z) (s : kst) : option (list Z) := um_copyinstr (k_u s) addr max.
Definition argstr (n : nat) (s : kst) : res (option (list Z)) :=
  let* addr := argaddr tf n in Ok (fetchstr addr MAXPATH s).

Definition argfd (n : nat) (s : kst) : res (option (nat * nat)) :=
  let* fd := argint tf n in
  if (fd <? 0) || (NOFILE <=? fd) then Ok None
  else Ok (match k_ofile s !! Z.to_nat fd with Some (Some f) => Some (Z.to_nat fd, f) | _ => None end).

Definition sys_dup (s : kst) : res (Z * kst) :=
  let* a := argfd 0 s in
  match a with
  | None => Ok (-1, s)
  | Some (_, f) =>
      match fdalloc f (k_ofile s) with
      | None => Ok (-1, s)
      | Some (fd, ofile) =>
          let* ft := filedup f (k_ft s) in
          Ok (Z.of_nat fd, set_ft (set_ofile s ofile) ft)
      end
  end.

(** The descriptor is not checked: [oob] is what the word at ofile[fd] outside
    the array holds, as a file. *)
Definition sys_seek (oob : Z -> option nat) (s : kst) : res (Z * kst) :=
  let* fd := argint tf 0 in
  let* off := argint tf 1 in
  let* whence := argint tf 2 in
  let f := if (0 <=? fd) && (fd <? NOFILE) then k_ofile s !! Z.to_nat fd else Some (oob fd) in
  match f with
  | Some (Some f) => fileseek sb me f off whence s
  | _ => Ok (-1, s)
  end.

Definition sys_read (s : kst) : res (Z * kst) :=
  let* p := argaddr tf 1 in
  let* n := argint tf 2 in
  let* a := argfd 0 s in
  match a with None => Ok (-1, s) | Some (_, f) => fileread sb me killed devread f p n s end.

Definition sys_write (s : kst) : res (Z * kst) :=
  let* p := argaddr tf 1 in
  let* n := argint tf 2 in
  let* a := argfd 0 s in
  match a with None => Ok (-1, s) | Some (_, f) => filewrite sb me killed devwrite f p n s end.

Definition sys_close (s : kst) : res (Z * kst) :=
  let* a := argfd 0 s in
  match a with
  | None => Ok (-1, s)
  | Some (fd, f) =>
      let* s := fileclose sb me f (set_ofile s (<[fd := None]> (k_ofile s))) in
      Ok (0, s)
  end.

Definition sys_fstat (pad : list Z) (s : kst) : res (Z * kst) :=
  let* st := argaddr tf 1 in
  let* a := argfd 0 s in
  match a with None => Ok (-1, s) | Some (_, f) => filestat sb me pad (getf (k_ft s) f) st s end.

(** Shorthands for fs.c on the state *)
Definition kip (s : kst) (i : nat) : inode := getip (k_fs s) i.
Definition set_ip (s : kst) (i : nat) (ip : inode) : kst := set_fs s (setip (k_fs s) i ip).
Definition kilock (i : nat) : kst -> res kst := on_fs (ilock sb me (Some i)).
Definition kiunlock (i : nat) : kst -> res kst := on_fs (iunlock me (Some i)).
Definition kiput (i : nat) : kst -> res kst := on_fs (iput sb me i).
Definition kiunlockput (i : nat) : kst -> res kst := on_fs (iunlockput sb me i).
Definition kiupdate (i : nat) (s : kst) : res kst :=
  let* t := iupdate sb (kip s i) (fs_t (k_fs s)) in Ok (set_fs s (set_t (k_fs s) t)).
Definition kdirlink (i : nat) (name : list Z) (inum : Z) (s : kst) : res (Z * kst) :=
  let* (r, x) := dirlink sb me i name inum (k_fs s) in Ok (r, set_fs s x).
Definition kdirlookup (i : nat) (name : list Z) (s : kst) : res (option (nat * Z) * kst) :=
  let* (r, x) := dirlookup sb i name (k_fs s) in Ok (r, set_fs s x).
Definition knamei (path : list Z) (s : kst) : res (option nat * kst) :=
  let* (r, x) := namei sb me (k_cwd s) path (k_fs s) in Ok (r, set_fs s x).
Definition knameiparent (path : list Z) (s : kst) : res (option nat * list Z * kst) :=
  let* (r, name, x) := nameiparent sb me (k_cwd s) path name0 (k_fs s) in Ok (r, name, set_fs s x).

(** end_op and return *)
Definition fail_op (s : kst) : res (Z * kst) := let* s := kend s in Ok (-1, s).

(** sys_link's exit when the new name cannot be made: take the link count back. *)
Definition link_bad (i : nat) (s : kst) : res (Z * kst) :=
  let* s := kilock i s in
  let* s := kiupdate i (set_ip s i (set_nlink (kip s i) (s16 (i_nlink (kip s i) - 1)))) in
  let* s := kiunlockput i s in
  fail_op s.

Definition sys_link (s : kst) : res (Z * kst) :=
  let* old := argstr 0 s in
  let* new := argstr 1 s in
  match old, new with
  | Some old, Some new =>
      let* s := kbegin s in
      let* (ip, s) := knamei old s in
      match ip with
      | None => fail_op s
      | Some i =>
          let* s := kilock i s in
          if i_type (kip s i) =? T_DIR then let* s := kiunlockput i s in fail_op s
          else
            let* s := kiupdate i (set_ip s i (set_nlink (kip s i) (s16 (i_nlink (kip s i) + 1)))) in
            let* s := kiunlock i s in
            let* (dp, name, s) := knameiparent new s in
            match dp with
            | None => link_bad i s
            | Some d =>
                let* s := kilock d s in
                let* (r, s) := (if negb (i_dev (kip s d) =? i_dev (kip s i)) then Ok (-1, s)
                                else kdirlink d name (i_inum (kip s i)) s) in
                if r <? 0 then let* s := kiunlockput d s in link_bad i s
                else
                  let* s := kiunlockput d s in
                  let* s := kiput i s in
                  let* s := kend s in
                  Ok (0, s)
            end
      end
  | _, _ => Ok (-1, s)
  end.

Fixpoint isdirempty_loop (fuel : nat) (dp : inode) (off : Z) (de : list Z) (t : T) : res (bool * inode * T) :=
  if off <? i_size dp then
    match fuel with
    | O => Block
    | S fuel' =>
        let* (de, dp, t) := read_dirent sb "isdirempty: readi" dp off de t in
        if negb (de_inum de =? 0) then Ok (false, dp, t)
        else isdirempty_loop fuel' dp (off + DIRENT_SIZE) de t
    end
  else Ok (true, dp, t).
Definition isdirempty (i : nat) (s : kst) : res (bool * kst) :=
  let dp := kip s i in
  let* (r, dp, t) := isdirempty_loop (dir_fuel dp) dp (2 * DIRENT_SIZE) dirent0 (fs_t (k_fs s)) in
  Ok (r, set_fs s (setip (set_t (k_fs s) t) i dp)).

Definition unlink_bad (d : nat) (s : kst) : res (Z * kst) :=
  let* s := kiunlockput d s in fail_op s.

(** writei(dp, 0, &de, off, sizeof(de)) with an erased entry *)
Definition erase_entry (d : nat) (off : Z) (s : kst) : res kst :=
  let* (r, dp, t) := writei sb (local_in dirent0) (kip s d) 0 off DIRENT_SIZE (fs_t (k_fs s)) in
  let s := set_fs s (setip (set_t (k_fs s) t) d dp) in
  if negb (r =? DIRENT_SIZE) then Panic "unlink: writei" else Ok s.

Definition sys_unlink (s : kst) : res (Z * kst) :=
  let* path := argstr 0 s in
  match path with
  | None => Ok (-1, s)
  | Some path =>
      let* s := kbegin s in
      let* (dp, name, s) := knameiparent path s in
      match dp with
      | None => fail_op s
      | Some d =>
          let* s := kilock d s in
          if (namecmp name dot =? 0) || (namecmp name dotdot =? 0) then unlink_bad d s
          else
            let* (r, s) := kdirlookup d name s in
            match r with
            | None => unlink_bad d s
            | Some (i, off) =>
                let* s := kilock i s in
                if i_nlink (kip s i) <? 1 then Panic "unlink: nlink < 1"
                else
                  let dir := i_type (kip s i) =? T_DIR in
                  let* (empty, s) := (if dir then isdirempty i s else Ok (true, s)) in
                  if negb empty then let* s := kiunlockput i s in unlink_bad d s
                  else
                    let* s := erase_entry d off s in
                    let* s := (if i_type (kip s i) =? T_DIR
                               then kiupdate d (set_ip s d (set_nlink (kip s d) (s16 (i_nlink (kip s d) - 1))))
                               else Ok s) in
                    let* s := kiunlockput d s in
                    let* s := kiupdate i (set_ip s i (set_nlink (kip s i) (s16 (i_nlink (kip s i) - 1)))) in
                    let* s := kiunlockput i s in
                    let* s := kend s in
                    Ok (0, s)
            end
      end
  end.

Definition create_fail (d i : nat) (s : kst) : res (option nat * kst) :=
  let* s := kiupdate i (set_ip s i (set_nlink (kip s i) 0)) in
  let* s := kiunlockput i s in
  let* s := kiunlockput d s in
  Ok (None, s).

(** Create . and .. in a new directory. *)
Definition link_dots (d i : nat) (s : kst) : res (Z * kst) :=
  let* (r, s) := kdirlink i dot (i_inum (kip s i)) s in
  if r <? 0 then Ok (r, s) else kdirlink i dotdot (i_inum (kip s d)) s.

(** The inode comes back locked. *)
Definition create (path : list Z) (type major minor : Z) (s : kst) : res (option nat * kst) :=
  let* (dp, name, s) := knameiparent path s in
  match dp with
  | None => Ok (None, s)
  | Some d =>
      let* s := kilock d s in
      let* (r, s) := kdirlookup d name s in
      match r with
      | Some (i, _) =>
          let* s := kiunlockput d s in
          let* s := kilock i s in
          if (type =? T_FILE) && ((i_type (kip s i) =? T_FILE) || (i_type (kip s i) =? T_DEVICE)) then Ok (Some i, s)
          else let* s := kiunlockput i s in Ok (None, s)
      | None =>
          let* (r, x) := ialloc sb (i_dev (kip s d)) type (k_fs s) in
          let s := set_fs s x in
          match r with
          | None => let* s := kiunlockput d s in Ok (None, s)
          | Some i =>
              let* s := kilock i s in
              let* s := kiupdate i (set_ip s i (set_meta (kip s i) (i_type (kip s i)) (s16 major) (s16 minor) 1)) in
              let* (r, s) := (if type =? T_DIR then link_dots d i s else Ok (0, s)) in
              if r <? 0 then create_fail d i s
              else
                let* (r, s) := kdirlink d name (i_inum (kip s i)) s in
                if r <? 0 then create_fail d i s
                else
                  let* s := (if type =? T_DIR
                             then kiupdate d (set_ip s d (set_nlink (kip s d) (s16 (i_nlink (kip s d) + 1))))
                             else Ok s) in
                  let* s := kiunlockput d s in
                  Ok (Some i, s)
          end
      end
  end.
(** The same code, in kfile.c. *)
Definition kfilecreate : list Z -> Z -> Z -> Z -> kst -> res (option nat * kst) := create.

(** The inode open works on, locked, or the error exit taken. *)
Definition open_inode (omode : Z) (path : list Z) (s : kst) : res (option nat * kst) :=
  if flag omode O_CREATE then create path T_FILE 0 0 s
  else
    let* (r, s) := knamei path s in
    match r with
    | None => Ok (None, s)
    | Some i =>
        let* s := kilock i s in
        if (i_type (kip s i) =? T_DIR) && negb (omode =? O_RDONLY) then
          let* s := kiunlockput i s in Ok (None, s)
        else Ok (Some i, s)
    end.

Definition open_file (omode : Z) (i : nat) (ip : inode) (f : file) : file :=
  let dev := i_type ip =? T_DEVICE in
  mkFile (if dev then FD_DEVICE else FD_INODE) (f_ref f) (negb (flag omode O_WRONLY))
    (flag omode O_WRONLY || flag omode O_RDWR) (f_pipe f) (Some i)
    (if dev then f_off f else 0) (if dev then i_major ip else f_major f).

Definition open_fail (i : nat) (s : kst) : res (Z * kst) :=
  let* s := kiunlockput i s in fail_op s.

Definition sys_open (s : kst) : res (Z * kst) :=
  let* omode := argint tf 1 in
  let* path := argstr 0 s in
  match path with
  | None => Ok (-1, s)
  | Some path =>
      let* s := kbegin s in
      let* (r, s) := open_inode omode path s in
      match r with
      | None => fail_op s
      | Some i =>
          if (i_type (kip s i) =? T_DEVICE) && ((i_major (kip s i) <? 0) || (NDEV <=? i_major (kip s i))) then open_fail i s
          else
            match filealloc (k_ft s) with
            | None => open_fail i s
            | Some (f, ft) =>
                let s := set_ft s ft in
                match fdalloc f (k_ofile s) with
                | None => let* s := fileclose sb me f s in open_fail i s
                | Some (fd, ofile) =>
                    let s := set_ofile s ofile in
                    let s := set_ft s (alter (open_file omode i (kip s i)) f (k_ft s)) in
                    let* s := (if flag omode O_TRUNC && (i_type (kip s i) =? T_FILE) then
                                 let* (ip, t) := itrunc sb (kip s i) (fs_t (k_fs s)) in
                                 Ok (set_fs s (setip (set_t (k_fs s) t) i ip))
                               else Ok s) in
                    let* s := kiunlock i s in
                    let* s := kend s in
                    Ok (Z.of_nat fd, s)
                end
            end
      end
  end.

(** sys_mkdir and sys_mknod after begin_op *)
Definition make_node (type major minor : Z) (s : kst) : res (Z * kst) :=
  let* path := argstr 0 s in
  match path with
  | None => fail_op s
  | Some path =>
      let* (r, s) := create path type major minor s in
      match r with
      | None => fail_op s
      | Some i =>
          let* s := kiunlockput i s in
          let* s := kend s in
          Ok (0, s)
      end
  end.

Definition sys_mkdir (s : kst) : res (Z * kst) :=
  let* s := kbegin s in make_node T_DIR 0 0 s.

Definition sys_mknod (s : kst) : res (Z * kst) :=
  let* s := kbegin s in
  let* major := argint tf 1 in
  let* minor := argint tf 2 in
  make_node T_DEVICE major minor s.

Definition sys_chdir (s : kst) : res (Z * kst) :=
  let* s := kbegin s in
  let* path := argstr 0 s in
  match path with
  | None => fail_op s
  | Some path =>
      let* (r, s) := knamei path s in
      match r with
      | None => fail_op s
      | Some i =>
          let* s := kilock i s in
          if negb (i_type (kip s i) =? T_DIR) then open_fail i s
          else
            let* s := kiunlock i s in
            let* s := kiput (k_cwd s) s in
            let* s := kend s in
            Ok (0, set_cwd s i)
      end
  end.

(** The argument pages sys_exec fills, and whether all were. *)
Fixpoint fetch_args (fuel : nat) (i uargv : Z) (pages : list Z) (s : kst) : bool * list Z * kst :=
  match fuel with
  | O => (false, pages, s)
  | S fuel' =>
      match fetchaddr (u64 (uargv + 8 * i)) s with
      | None => (false, pages, s)
      | Some 0 => (true, pages, s)
      | Some uarg =>
          let '(pg, u) := um_kalloc (k_u s) in
          let s := set_u s u in
          if pg =? 0 then (false, pages, s)
          else match fetchstr uarg PGSIZE s with
               | None => (false, pages ++ [pg], s)
               | Some str => fetch_args fuel' (i + 1) uargv (pages ++ [pg]) (set_u s (um_kput (k_u s) pg (str ++ [0])))
               end
      end
  end.
Fixpoint free_args (pages : list Z) (s : kst) : res kst :=
  match pages with
  | [] => Ok s
  | pg :: pages => let* u := um_kfree pg (k_u s) in free_args pages (set_u s u)
  end.

(** [exec path argv]: exec.c, which also changes the process, [X]. *)
Definition sys_exec {X} (exec : list Z -> list Z -> kst -> X -> res (Z * kst * X)) (s : kst) (x : X) : res (Z * kst * X) :=
  let* uargv := argaddr tf 1 in
  let* path := argstr 0 s in
  match path with
  | None => Ok (-1, s, x)
  | Some path =>
      let '(ok, pages, s) := fetch_args (Z.to_nat MAXARG) 0 uargv [] s in
      let* (ret, s, x) := (if ok : bool then exec path pages s x else Ok (-1, s, x)) in
      let* s := free_args pages s in
      Ok (ret, s, x)
  end.

(** Close both ends and return an error. *)
Definition pipe_fail (rf wf : nat) (s : kst) : res (Z * kst) :=
  let* s := fileclose sb me rf s in
  let* s := fileclose sb me wf s in
  Ok (-1, s).

Definition sys_pipe (junk : list Z) (s : kst) : res (Z * kst) :=
  let* fdarray := argaddr tf 0 in
  let* (r, s) := pipealloc sb me junk s in
  match r with
  | None => Ok (-1, s)
  | Some (rf, wf) =>
      match fdalloc rf (k_ofile s) with
      | None => pipe_fail rf wf s
      | Some (fd0, ofile) =>
          match fdalloc wf ofile with
          | None => pipe_fail rf wf (set_ofile s (<[fd0 := None]> ofile))
          | Some (fd1, ofile) =>
              let s := set_ofile s ofile in
              let '(u, ok) := um_copyout (k_u s) fdarray (le_encode 4 (Z.of_nat fd0)) in
              let s := set_u s u in
              let '(u, ok) := if ok : bool then um_copyout (k_u s) (u64 (fdarray + 4)) (le_encode 4 (Z.of_nat fd1)) else (u, false) in
              let s := set_u s u in
              if ok : bool then Ok (0, s)
              else pipe_fail rf wf (set_ofile s (<[fd1 := None]> (<[fd0 := None]> (k_ofile s))))
          end
      end
  end.

(** exit's part on files *)
Definition exit_files (cwd : nat) (s : kst) : res kst :=
  let* s := close_files sb me (Z.to_nat NOFILE) 0 s in
  let* s := kbegin s in
  let* s := kiput cwd s in
  kend s.
End sysfile.
