(* ===== verification/Asm.v ===== *)
(** * The assembly of the kernel: trampoline.S, swtch.S, kernelvec.S, entry.S

    Each routine is the list of its instructions, run by an interpreter for
    the part of RV64 they use.  A hart has its registers, its control and
    status registers and the memory; loads and stores go through the address
    translation of the page table in satp, which is a parameter.  A run ends
    at the first instruction that leaves the routine and says where it goes.
    The caches behind sfence.vma are not modelled. *)

From S2P Require Import Prelude Riscv Mem Sysfile.

(** ** Registers *)
Inductive reg :=
  ZERO | RA | SP | GP | TP | T0 | T1 | T2 | S0 | S1 | A0 | A1 | A2 | A3 | A4 | A5 | A6 | A7
| S2 | S3 | S4 | S5 | S6 | S7 | S8 | S9 | S10 | S11 | T3 | T4 | T5 | T6.
#[export] Instance reg_eq_dec : EqDecision reg.
Proof. solve_decision. Defined.

Inductive csr :=
  C_satp | C_sscratch | C_sstatus | C_sepc | C_stvec | C_sie | C_stimecmp | C_time
| C_mhartid | C_mstatus | C_mepc | C_medeleg | C_mideleg | C_mie | C_menvcfg | C_mcounteren | C_pmpaddr0 | C_pmpcfg0.
#[export] Instance csr_eq_dec : EqDecision csr.
Proof. solve_decision. Defined.

(** ** Instructions *)
Inductive instr :=
| LI (rd : reg) (imm : Z)
| LA (rd : reg) (addr : Z)
| AUIPC (rd : reg) (imm : Z)
| ADDI (rd rs : reg) (imm : Z)
| ADD (rd rs1 rs2 : reg)
| MUL (rd rs1 rs2 : reg)
| LD (rd : reg) (off : Z) (rs : reg)
| SD (rs2 : reg) (off : Z) (rs1 : reg)
| CSRW (c : csr) (rs : reg)
| CSRR (rd : reg) (c : csr)
| SFENCE_VMA
| JR (rs : reg)
| CALL (f back : Z)
| JAL (rd : reg) (off : Z)
| ECALL
| SRET.
#[export] Instance instr_eq_dec : EqDecision instr.
Proof. solve_decision. Defined.

Record hart := mkHart { x_pc : Z; x_regs : reg -> Z; x_csr : csr -> Z; x_mem : mem }.

Definition getr (x : hart) (r : reg) : Z := match r with ZERO => 0 | _ => x_regs x r end.
Definition setr (x : hart) (r : reg) (v : Z) : hart :=
  mkHart (x_pc x) (fun q => if decide (q = r) then v else x_regs x q) (x_csr x) (x_mem x).
Definition setc (x : hart) (c : csr) (v : Z) : hart :=
  mkHart (x_pc x) (x_regs x) (fun d => if decide (d = c) then v else x_csr x d) (x_mem x).
Definition setm (x : hart) (m : mem) : hart := mkHart (x_pc x) (x_regs x) (x_csr x) m.
Definition next (x : hart) : hart := mkHart (x_pc x + 4) (x_regs x) (x_csr x) (x_mem x).

(** How a run ends. *)
Inductive stop := Jump (pc : Z) | Called (f : Z) | Ecall | Sret.

Section exec.
Context (translate : Z -> Z -> option Z).

(** The physical address behind [off(rs)]. *)
Definition addr_of (x : hart) (rs : reg) (off : Z) : option Z := translate (x_csr x C_satp) (u64 (getr x rs + off)).

Fixpoint exec (l : list instr) (x : hart) : option (stop * list instr * hart) :=
  match l with
  | [] => None
  | i :: l' =>
      match i with
      | LI rd imm | LA rd imm => exec l' (next (setr x rd (u64 imm)))
      | AUIPC rd imm => exec l' (next (setr x rd (u64 (x_pc x + imm))))
      | ADDI rd rs imm => exec l' (next (setr x rd (u64 (getr x rs + imm))))
      | ADD rd r1 r2 => exec l' (next (setr x rd (u64 (getr x r1 + getr x r2))))
      | MUL rd r1 r2 => exec l' (next (setr x rd (u64 (getr x r1 * getr x r2))))
      | LD rd off rs => match addr_of x rs off with
                        | Some pa => exec l' (next (setr x rd (load64 (x_mem x) pa)))
                        | None => None
                        end
      | SD r2 off rs => match addr_of x rs off with
                        | Some pa => exec l' (next (setm x (store64 (x_mem x) pa (getr x r2))))
                        | None => None
                        end
      | CSRW c rs => exec l' (next (setc x c (getr x rs)))
      | CSRR rd c => exec l' (next (setr x rd (x_csr x c)))
      | SFENCE_VMA => exec l' (next x)
      | JR rs => Some (Jump (getr x rs), l', x)
      | CALL f back => Some (Called f, l', setr x RA back)
      | JAL rd off => Some (Jump (u64 (x_pc x + off)), l', setr x rd (u64 (x_pc x + 4)))
      | ECALL => Some (Ecall, l', x)
      | SRET => Some (Sret, l', x)
      end
  end.
End exec.

(** ** trampoline.S *)
Definition uservec : list instr := [
  CSRW C_sscratch A0; LI A0 TRAPFRAME;
  SD RA 40 A0; SD SP 48 A0; SD GP 56 A0; SD TP 64 A0; SD T0 72 A0; SD T1 80 A0; SD T2 88 A0; SD S0 96 A0; SD S1 104 A0;
  SD A1 120 A0; SD A2 128 A0; SD A3 136 A0; SD A4 144 A0; SD A5 152 A0; SD A6 160 A0; SD A7 168 A0;
  SD S2 176 A0; SD S3 184 A0; SD S4 192 A0; SD S5 200 A0; SD S6 208 A0; SD S7 216 A0; SD S8 224 A0; SD S9 232 A0; SD S10 240 A0; SD S11 248 A0;
  SD T3 256 A0; SD T4 264 A0; SD T5 272 A0; SD T6 280 A0;
  CSRR T0 C_sscratch; SD T0 112 A0;
  LD SP 8 A0; LD TP 32 A0; LD T0 16 A0; LD T1 0 A0;
  SFENCE_VMA; CSRW C_satp T1; SFENCE_VMA; JR T0].

Definition userret : list instr := [
  SFENCE_VMA; CSRW C_satp A0; SFENCE_VMA; LI A0 TRAPFRAME;
  LD RA 40 A0; LD SP 48 A0; LD GP 56 A0; LD TP 64 A0; LD T0 72 A0; LD T1 80 A0; LD T2 88 A0; LD S0 96 A0; LD S1 104 A0;
  LD A1 120 A0; LD A2 128 A0; LD A3 136 A0; LD A4 144 A0; LD A5 152 A0; LD A6 160 A0; LD A7 168 A0;
  LD S2 176 A0; LD S3 184 A0; LD S4 192 A0; LD S5 200 A0; LD S6 208 A0; LD S7 216 A0; LD S8 224 A0; LD S9 232 A0; LD S10 240 A0; LD S11 248 A0;
  LD T3 256 A0; LD T4 264 A0; LD T5 272 A0; LD T6 280 A0;
  LD A0 112 A0; SRET].

(** ** swtch.S *)
Definition swtch : list instr := [
  SD RA 0 A0; SD SP 8 A0; SD S0 16 A0; SD S1 24 A0; SD S2 32 A0; SD S3 40 A0; SD S4 48 A0; SD S5 56 A0; SD S6 64 A0;
  SD S7 72 A0; SD S8 80 A0; SD S9 88 A0; SD S10 96 A0; SD S11 104 A0;
  LD RA 0 A1; LD SP 8 A1; LD S0 16 A1; LD S1 24 A1; LD S2 32 A1; LD S3 40 A1; LD S4 48 A1; LD S5 56 A1; LD S6 64 A1;
  LD S7 72 A1; LD S8 80 A1; LD S9 88 A1; LD S10 96 A1; LD S11 104 A1;
  JR RA].

(** ** kernelvec.S: [back] is the address behind the call *)
Definition kernelvec (kerneltrap back : Z) : list instr := [
  ADDI SP SP (-256);
  SD RA 0 SP; SD SP 8 SP; SD GP 16 SP; SD TP 24 SP; SD T0 32 SP; SD T1 40 SP; SD T2 48 SP;
  SD A0 72 SP; SD A1 80 SP; SD A2 88 SP; SD A3 96 SP; SD A4 104 SP; SD A5 112 SP; SD A6 120 SP; SD A7 128 SP;
  SD T3 216 SP; SD T4 224 SP; SD T5 232 SP; SD T6 240 SP;
  CALL kerneltrap back;
  LD RA 0 SP; LD SP 8 SP; LD GP 16 SP; LD T0 32 SP; LD T1 40 SP; LD T2 48 SP;
  LD A0 72 SP; LD A1 80 SP; LD A2 88 SP; LD A3 96 SP; LD A4 104 SP; LD A5 112 SP; LD A6 120 SP; LD A7 128 SP;
  LD T3 216 SP; LD T4 224 SP; LD T5 232 SP; LD T6 240 SP;
  ADDI SP SP 256; SRET].

(** ** entry.S *)
Definition entry (stack0 start back : Z) : list instr := [
  LA SP stack0; LI A0 (1024 * 4); CSRR A1 C_mhartid; ADDI A1 A1 1; MUL A0 A0 A1; ADD SP SP A0; CALL start back; JAL ZERO 0].
