(* ===== verification/Initcode.v ===== *)
(** * The first user program and the system call stubs

    The bytes of initcode in proc.c are decoded as RV64 instructions and
    compared with initcode.S; usys.pl generates one stub per system call. *)

From S2P Require Import Prelude Riscv Mem Asm.

(** uchar initcode[] of proc.c *)
Definition initcode : list Z := [
  0x17; 0x05; 0x00; 0x00; 0x13; 0x05; 0x45; 0x02;
  0x97; 0x05; 0x00; 0x00; 0x93; 0x85; 0x35; 0x02;
  0x93; 0x08; 0x70; 0x00; 0x73; 0x00; 0x00; 0x00;
  0x93; 0x08; 0x20; 0x00; 0x73; 0x00; 0x00; 0x00;
  0xef; 0xf0; 0x9f; 0xff; 0x2f; 0x69; 0x6e; 0x69;
  0x74; 0x00; 0x00; 0x24; 0x00; 0x00; 0x00; 0x00;
  0x00; 0x00; 0x00; 0x00].

(** initcode.S, with [la] as the two instructions it stands for; SYS_exec is 7
    and SYS_exit 2 *)
Definition INIT : Z := 0x24.
Definition ARGV : Z := 0x2b.
Definition initcode_S : list instr := [
  AUIPC A0 0; ADDI A0 A0 (INIT - 0);
  AUIPC A1 0; ADDI A1 A1 (ARGV - 8);
  ADDI A7 ZERO 7; ECALL;
  ADDI A7 ZERO 2; ECALL;
  JAL RA (24 - 32)].

(** ** Decoding, as the RISC-V manual numbers registers and fields *)
Definition reg_numbers : list reg :=
  [ZERO; RA; SP; GP; TP; T0; T1; T2; S0; S1; A0; A1; A2; A3; A4; A5; A6; A7; S2; S3; S4; S5; S6; S7; S8; S9; S10; S11; T3; T4; T5; T6].
Definition bits (w lo n : Z) : Z := Z.land (Z.shiftr w lo) (2 ^ n - 1).
Definition sext (x n : Z) : Z := if Z.testbit x (n - 1) then x - 2 ^ n else x.
Definition decode (w : Z) : option instr :=
  match reg_numbers !! Z.to_nat (bits w 7 5), reg_numbers !! Z.to_nat (bits w 15 5) with
  | Some rd, Some rs1 =>
      let op := bits w 0 7 in
      if op =? 0x17 then Some (AUIPC rd (sext (bits w 12 20) 20 * 4096))
      else if (op =? 0x13) && (bits w 12 3 =? 0) then Some (ADDI rd rs1 (sext (bits w 20 12) 12))
      else if w =? 0x73 then Some ECALL
      else if op =? 0x6f then
        Some (JAL rd (sext (bits w 31 1 * 2 ^ 20 + bits w 12 8 * 2 ^ 12 + bits w 20 1 * 2 ^ 11 + bits w 21 10 * 2) 21))
      else None
  | _, _ => None
  end.
Definition words32 (l : list Z) (n : nat) : list Z := (fun i => le_decode (take 4 (drop (4 * i) l))) <$> seq 0 n.

Lemma initcode_decodes : decode <$> words32 initcode 9 = Some <$> initcode_S.
Proof. vm_compute. reflexivity. Qed.

(** ** Its run *)
Section run.
Context (translate : Z -> Z -> option Z).

(** The bytes of a NUL-terminated string *)
Definition string_is (m : mem) (a : Z) (s : list Z) : Prop :=
  (forall i c, s !! i = Some c -> rd m (a + Z.of_nat i) = c /\ c <> 0) /\ rd m (a + Z.of_nat (length s)) = 0.

Definition slash_init : list Z := [47; 105; 110; 105; 116].

Lemma initcode_first x : x_pc x = 0 ->
  exists x1, exec translate initcode_S x = Some (Ecall, drop 6 initcode_S, x1) /\
    x_regs x1 A7 = 7 /\ x_regs x1 A0 = INIT /\ x_regs x1 A1 = ARGV /\ x_pc x1 = 20 /\ x_mem x1 = x_mem x.
Proof.
  intros Hpc. destruct x as [pc f c m]. cbn [x_pc] in Hpc. subst pc. eexists. split; [reflexivity|]. split_and!; reflexivity.
Qed.

Lemma initcode_then y : x_pc y = 24 ->
  exists y1, exec translate (drop 6 initcode_S) y = Some (Ecall, drop 8 initcode_S, y1) /\ x_regs y1 A7 = 2 /\ x_pc y1 = 28 /\ x_mem y1 = x_mem y.
Proof.
  intros Hpc. destruct y as [pc f c m]. cbn [x_pc] in Hpc. subst pc. eexists. split; [reflexivity|]. split_and!; reflexivity.
Qed.

Lemma initcode_loop z : x_pc z = 32 -> exists z1, exec translate (drop 8 initcode_S) z = Some (Jump 24, [], z1).
Proof. intros Hpc. destruct z as [pc f c m]. cbn [x_pc] in Hpc. subst pc. eexists. reflexivity. Qed.

End run.

Definition init_page : mem := list_to_map (zip (seqZ 0 52) initcode).

(** ** usys.pl *)
Definition usys_entry (num : Z) : list instr := [LI A7 num; ECALL; JR RA].

(** A stub enters the kernel with its number and its caller's arguments, and
    goes back to the caller with the registers the kernel returned. *)
Lemma usys_calls translate num x : 0 <= num < 2 ^ 64 ->
  exists x1, exec translate (usys_entry num) x = Some (Ecall, [JR RA], x1) /\ x_regs x1 A7 = num /\ (forall r, r <> A7 -> x_regs x1 r = x_regs x r) /\
    forall y, exec translate [JR RA] y = Some (Jump (x_regs y RA), [], y).
Proof.
  intros Hn. eexists. split; [reflexivity|]. cbn [next setr x_regs]. split_and!.
  - rewrite decide_True by done. by apply u64_small.
  - intros r Hr. by rewrite decide_False.
  - done.
Qed.
