(* ===== verification/SysfileRefs.v ===== *)
(** * The open file table and the descriptors

    The reference count of a file is the number of descriptors that refer to
    it, over every completed system call, error exits included.  References a
    call holds in between are counted in [held], those of other processes in
    [other]. *)

From S2P Require Import Prelude Riscv Sleeplock Block Log Txn Fs Pipe File Sysfile.

Definition cnt (l : list (option nat)) (i : nat) : Z := Z.of_nat (length (filter (fun o => o = Some i) l)).
Definition cnth (l : list nat) (i : nat) : Z := cnt (Some <$> l) i.

Definition one (o : option nat) (i : nat) : Z := if decide (o = Some i) then 1 else 0.

Lemma cnt_cons o l i : cnt (o :: l) i = one o i + cnt l i.
Proof. unfold cnt, one. rewrite filter_cons. case_decide; cbn [length]; lia. Qed.

Lemma cnt_nonneg l i : 0 <= cnt l i.
Proof. unfold cnt. lia. Qed.

Lemma cnt_insert l fd o v i : l !! fd = Some o -> cnt (<[fd := v]> l) i = cnt l i - one o i + one v i.
Proof.
  revert fd. induction l as [|x l IH]; intros [|fd] H; try done; cbn in *.
  - injection H as ->. rewrite !cnt_cons. lia.
  - rewrite !cnt_cons. specialize (IH fd H). unfold insert in *. lia.
Qed.

Lemma one_eq i : one (Some i) i = 1.
Proof. unfold one. by rewrite decide_True. Qed.
Lemma one_ne i j : i <> j -> one (Some i) j = 0.
Proof. intros. unfold one. rewrite decide_False; congruence. Qed.
Lemma one_None i : one None i = 0.
Proof. done. Qed.

(** What matters of a file here: its count and its type. *)
Definition fview (f : file) : Z * fdtype := (f_ref f, f_type f).

Record refs_ok (other : nat -> Z) (held : list nat) (fv : list (Z * fdtype)) (od : list (option nat)) : Prop := {
  ro_ref : forall i r t, fv !! i = Some (r, t) -> r = other i + cnth held i + cnt od i;
  ro_free : forall i t, fv !! i = Some (0, t) -> t = FD_NONE;
  ro_other : forall i, 0 <= other i;
  ro_range : forall fd i, od !! fd = Some (Some i) -> (i < length fv)%nat;
  ro_len : length fv = Z.to_nat NFILE;
}.

Definition dec_view (v : Z * fdtype) : Z * fdtype := if 0 <? v.1 - 1 then (v.1 - 1, v.2) else (0, FD_NONE).

(** One file's count moves with one reference. *)
Lemma refs_move other held held' fv od od' i (g : Z * fdtype -> Z * fdtype) r t :
  refs_ok other held fv od -> fv !! i = Some (r, t) ->
  (g (r, t)).1 = other i + cnth held' i + cnt od' i ->
  ((g (r, t)).1 = 0 -> (g (r, t)).2 = FD_NONE) ->
  (forall j, j <> i -> cnth held' j + cnt od' j = cnth held j + cnt od j) ->
  (forall fd j, od' !! fd = Some (Some j) -> (j < length fv)%nat) ->
  refs_ok other held' (alter g i fv) od'.
Proof.
  intros [H1 H2 H3 H4 H5] Hi Hr Hf Hj Hb. split; auto.
  - intros j r' t' Hlk. destruct (decide (j = i)) as [->|Hne].
    + rewrite list_lookup_alter_eq, Hi in Hlk. cbn in Hlk. injection Hlk as E. rewrite E in Hr. done.
    + rewrite list_lookup_alter_ne in Hlk by done. apply H1 in Hlk. rewrite Hlk. pose proof (Hj j Hne). lia.
  - intros j t' Hlk. destruct (decide (j = i)) as [->|Hne].
    + rewrite list_lookup_alter_eq, Hi in Hlk. cbn in Hlk. injection Hlk as E. rewrite E in Hf. by apply Hf.
    + rewrite list_lookup_alter_ne in Hlk by done. eauto.
  - intros fd j Hlk. rewrite length_alter. eauto.
  - by rewrite length_alter.
Qed.

(** The moves: a count goes up or down with a reference in hand ... *)
Lemma refs_alloc other held fv od i t :
  refs_ok other held fv od -> fv !! i = Some (0, t) -> refs_ok other (i :: held) (alter (fun v => (1, v.2)) i fv) od.
Proof.
  intros H Hi. pose proof (ro_ref _ _ _ _ H _ _ _ Hi) as E. eapply refs_move; eauto; cbn [fst snd].
  - unfold cnth in *. cbn [fmap list_fmap]. rewrite cnt_cons, one_eq. lia.
  - done.
  - intros j Hne. unfold cnth. cbn [fmap list_fmap]. rewrite cnt_cons, one_ne by done. lia.
  - apply (ro_range _ _ _ _ H).
Qed.

Lemma refs_drop other held fv od i r t :
  refs_ok other (i :: held) fv od -> fv !! i = Some (r, t) -> 1 <= r -> refs_ok other held (alter dec_view i fv) od.
Proof.
  intros H Hi Hr. pose proof (ro_ref _ _ _ _ H _ _ _ Hi) as E. unfold cnth in E. cbn [fmap list_fmap] in E. rewrite cnt_cons, one_eq in E.
  eapply refs_move; eauto; unfold dec_view; cbn [fst snd].
  - unfold cnth. destruct (Z.ltb_spec 0 (r - 1)); cbn [fst]; lia.
  - destruct (Z.ltb_spec 0 (r - 1)); cbn [fst snd]; [lia|done].
  - intros j Hne. unfold cnth. cbn [fmap list_fmap]. rewrite cnt_cons, one_ne by done. lia.
  - apply (ro_range _ _ _ _ H).
Qed.

Lemma refs_dup other held fv od i r t :
  refs_ok other held fv od -> fv !! i = Some (r, t) -> 1 <= r -> refs_ok other (i :: held) (alter (fun v => (v.1 + 1, v.2)) i fv) od.
Proof.
  intros H Hi Hr. pose proof (ro_ref _ _ _ _ H _ _ _ Hi) as E. eapply refs_move; eauto; cbn [fst snd].
  - unfold cnth in *. cbn [fmap list_fmap]. rewrite cnt_cons, one_eq. lia.
  - lia.
  - intros j Hne. unfold cnth. cbn [fmap list_fmap]. rewrite cnt_cons, one_ne by done. lia.
  - apply (ro_range _ _ _ _ H).
Qed.

(** ... and a reference goes into or out of a descriptor. *)
Lemma refs_fd other held fv od fd i :
  refs_ok other (i :: held) fv od -> od !! fd = Some None -> (i < length fv)%nat -> refs_ok other held fv (<[fd := Some i]> od).
Proof.
  intros [H1 H2 H3 H4 H5] Hfd Hi. split; auto.
  - intros j r t Hj. apply H1 in Hj. rewrite Hj, (cnt_insert _ _ _ _ _ Hfd), one_None. unfold cnth. cbn [fmap list_fmap]. rewrite cnt_cons. lia.
  - intros fd' j Hlk. destruct (decide (fd' = fd)) as [->|]; [|rewrite list_lookup_insert_ne in Hlk by done; eauto].
    rewrite list_lookup_insert_eq in Hlk by (by eapply lookup_lt_Some). injection Hlk as <-. done.
Qed.

Lemma refs_unfd other held fv od fd i :
  refs_ok other held fv od -> od !! fd = Some (Some i) -> refs_ok other (i :: held) fv (<[fd := None]> od).
Proof.
  intros [H1 H2 H3 H4 H5] Hfd. split; auto.
  - intros j r t Hj. apply H1 in Hj. rewrite Hj, (cnt_insert _ _ _ _ _ Hfd), one_None. unfold cnth. cbn [fmap list_fmap]. rewrite cnt_cons. lia.
  - intros fd' j Hlk. destruct (decide (fd' = fd)) as [->|]; [|rewrite list_lookup_insert_ne in Hlk by done; eauto].
    rewrite list_lookup_insert_eq in Hlk by (by eapply lookup_lt_Some). done.
Qed.

Lemma fdalloc_spec {A} (f : A) od fd od' :
  fdalloc f od = Some (fd, od') -> od !! fd = Some None /\ od' = <[fd := Some f]> od.
Proof.
  unfold fdalloc. destruct (find_index _ od) as [k|] eqn:E; [|done]. intros [= <- <-].
  apply find_index_Some in E as [(x & Hx & Hf) _]. by destruct x.
Qed.

Lemma filealloc_spec ft i ft' :
  filealloc ft = Some (i, ft') -> exists f, ft !! i = Some f /\ f_ref f = 0 /\ ft' = alter (fun f => set_fref f 1) i ft.
Proof.
  unfold filealloc. destruct (find_index _ ft) as [k|] eqn:E; [|done]. intros [= <- <-].
  apply find_index_Some in E as [(x & Hx & Hf) _]. exists x. split_and!; auto. lia.
Qed.

Lemma fview_alter (g : file -> file) (h : Z * fdtype -> Z * fdtype) i (ft : list file) :
  (forall f, fview (g f) = h (fview f)) -> fview <$> alter g i ft = alter h i (fview <$> ft).
Proof.
  intros E. apply list_eq. intros j. destruct (decide (j = i)) as [->|].
  - rewrite list_lookup_fmap, !list_lookup_alter_eq, list_lookup_fmap. destruct (ft !! i); cbn; [by rewrite E|done].
  - rewrite list_lookup_fmap, !list_lookup_alter_ne, list_lookup_fmap by done. done.
Qed.

Lemma fview_keep (g : file -> file) i (ft : list file) : (forall f, fview (g f) = fview f) -> fview <$> alter g i ft = fview <$> ft.
Proof.
  intros E. apply list_eq. intros j. rewrite !list_lookup_fmap. destruct (decide (j = i)) as [->|].
  - rewrite list_lookup_alter_eq. destruct (ft !! i); cbn; [by rewrite E|done].
  - by rewrite list_lookup_alter_ne by done.
Qed.

(** ** What the calls do to the table *)

(** The state a result carries. *)
Class HasK (K X : Type) := kof : X -> K.
#[export] Instance hask_self {K} : HasK K K := id.
#[export] Instance hask_pair {K A} : HasK K (A * K) := snd.

Section calls.
Context {C : Type} `{BO : BufOps C} {U : Type} `{UM : UserMem U}.
Context (sb : superblock) (me : Z) (killed : bool).
Abbreviation kst := (kst C U).
Context (devread devwrite : Z -> option (Z -> Z -> kst -> res (Z * kst))).
Context (tf : trapframe).

Definition Ends {X} `{HasK kst X} (P : kst -> Prop) (m : res X) : Prop := forall x, m = Ok x -> P (kof x).

Lemma ends_bind {X Y} `{HasK kst X} `{HasK kst Y} (P Q : kst -> Prop) (m : res X) (k : X -> res Y) :
  Ends P m -> (forall x, P (kof x) -> Ends Q (k x)) -> Ends Q (rbind m k).
Proof. intros H1 H2 y Hy. apply rbind_Ok in Hy as (x & Hx & Hk). eapply H2; eauto. Qed.

(** A computation whose result carries no state *)
Lemma ends_pure {A Y} `{HasK kst Y} (Q : kst -> Prop) (m : res A) (k : A -> res Y) :
  (forall a, m = Ok a -> Ends Q (k a)) -> Ends Q (rbind m k).
Proof. intros H2 y Hy. apply rbind_Ok in Hy as (x & Hx & Hk). eapply H2; eauto. Qed.

Lemma ends_ok {X} `{HasK kst X} (P : kst -> Prop) (x : X) : P (kof x) -> Ends P (Ok x).
Proof. intros HP y [= <-]. done. Qed.
Lemma ends_panic {X} `{HasK kst X} (P : kst -> Prop) msg : Ends P (Panic msg : res X).
Proof. done. Qed.
Lemma ends_block {X} `{HasK kst X} (P : kst -> Prop) : Ends P (Block : res X).
Proof. done. Qed.

(** The counts, types and descriptors are those of [s]. *)
Definition same (s s' : kst) : Prop := fview <$> k_ft s' = fview <$> k_ft s /\ k_ofile s' = k_ofile s.

Lemma same_refl s : same s s.
Proof. done. Qed.

Lemma ends_impl {X} `{HasK kst X} (P Q : kst -> Prop) (m : res X) : Ends P m -> (forall s, P s -> Q s) -> Ends Q m.
Proof. intros H1 H2 x Hx. auto. Qed.

Lemma kbegin_same s0 s : same s0 s -> Ends (same s0) (kbegin s).
Proof. intros H. unfold kbegin. destruct (fs_t (k_fs s)). apply ends_pure. intros. by apply ends_ok. Qed.
Lemma kend_same s0 s : same s0 s -> Ends (same s0) (kend s).
Proof. intros H. unfold kend. destruct (fs_t (k_fs s)). apply ends_pure. intros. by apply ends_ok. Qed.
Lemma on_fs_same s0 f s : same s0 s -> Ends (same s0) (on_fs f s).
Proof. intros H. apply ends_pure. intros. by apply ends_ok. Qed.
Create HintDb same.
#[local] Hint Resolve kbegin_same kend_same on_fs_same : same.

(** Walk through a body: its calls keep the table, its branches too. *)
Ltac walk_step :=
  match goal with
  | |- Ends _ (Ok _) => apply ends_ok; cbn [kof hask_self hask_pair snd id]
  | |- Ends _ (Panic _) => apply ends_panic
  | |- Ends _ Block => apply ends_block
  | |- Ends (same ?s0) (rbind ?m _) => apply (ends_bind (same s0)); [solve [eauto with same]|]; intros
  | |- Ends _ (rbind ?m _) => apply ends_pure; intros
  | |- Ends _ (match ?x with _ => _ end) => destruct x
  | |- Ends _ _ => solve [eauto with same]
  end.
Ltac walk := repeat (cbn [kof hask_self hask_pair snd id] in *; walk_step).

Lemma kiupdate_same s0 i s : same s0 s -> Ends (same s0) (kiupdate sb i s).
Proof. intros H. apply ends_pure. intros. by apply ends_ok. Qed.
Lemma kdirlink_same s0 i name inum s : same s0 s -> Ends (same s0) (kdirlink sb me i name inum s).
Proof. intros H. apply ends_pure. intros [? ?] ?. by apply ends_ok. Qed.
Lemma kdirlookup_same s0 i name s : same s0 s -> Ends (same s0) (kdirlookup sb i name s).
Proof. intros H. apply ends_pure. intros [? ?] ?. by apply ends_ok. Qed.
Lemma knamei_same s0 path s : same s0 s -> Ends (same s0) (knamei sb me path s).
Proof. intros H. apply ends_pure. intros [? ?] ?. by apply ends_ok. Qed.
Lemma knameiparent_same s0 path s : same s0 s -> Ends (same s0) (knameiparent sb me path s).
Proof. intros H. apply ends_pure. intros [[? ?] ?] ?. by apply ends_ok. Qed.
Lemma kil_same s0 i s : same s0 s -> Ends (same s0) (kilock sb me i s).
Proof. apply on_fs_same. Qed.
Lemma kiu_same s0 i s : same s0 s -> Ends (same s0) (kiunlock me i s).
Proof. apply on_fs_same. Qed.
Lemma kip_same s0 i s : same s0 s -> Ends (same s0) (kiput sb me i s).
Proof. apply on_fs_same. Qed.
Lemma kiup_same s0 i s : same s0 s -> Ends (same s0) (kiunlockput sb me i s).
Proof. apply on_fs_same. Qed.
#[local] Hint Resolve kiupdate_same kdirlink_same kdirlookup_same knamei_same knameiparent_same kil_same kiu_same kip_same kiup_same : same.

Lemma fail_op_same s0 s : same s0 s -> Ends (same s0) (fail_op s).
Proof. intros. unfold fail_op. walk. done. Qed.
#[local] Hint Resolve fail_op_same : same.

Lemma link_bad_same s0 i s : same s0 s -> Ends (same s0) (link_bad sb me i s).
Proof. intros. unfold link_bad. walk. Qed.
Lemma unlink_bad_same s0 i s : same s0 s -> Ends (same s0) (unlink_bad sb me i s).
Proof. intros. unfold unlink_bad. walk. Qed.
Lemma open_fail_same s0 i s : same s0 s -> Ends (same s0) (open_fail sb me i s).
Proof. intros. unfold open_fail. walk. Qed.
Lemma isdirempty_same s0 i s : same s0 s -> Ends (same s0) (isdirempty sb i s).
Proof. intros. unfold isdirempty. apply ends_pure. intros [[? ?] ?] ?. by apply ends_ok. Qed.
Lemma erase_entry_same s0 d off s : same s0 s -> Ends (same s0) (erase_entry sb d off s).
Proof. intros. unfold erase_entry. apply ends_pure. intros [[? ?] ?] ?. walk. done. Qed.
Lemma create_fail_same s0 d i s : same s0 s -> Ends (same s0) (create_fail sb me d i s).
Proof. intros. unfold create_fail. walk. done. Qed.
Lemma link_dots_same s0 d i s : same s0 s -> Ends (same s0) (link_dots sb me d i s).
Proof. intros. unfold link_dots. walk. done. Qed.
#[local] Hint Resolve link_bad_same unlink_bad_same open_fail_same isdirempty_same erase_entry_same create_fail_same link_dots_same : same.

Lemma ends_if {X} `{HasK kst X} (P : kst -> Prop) (b : bool) (m1 m2 : res X) : Ends P m1 -> Ends P m2 -> Ends P (if b then m1 else m2).
Proof. by destruct b. Qed.
Lemma ends_same_ok {A} s0 (a : A) s : same s0 s -> Ends (same s0) (Ok (a, s)).
Proof. intros. by apply ends_ok. Qed.
Lemma ends_same_ok1 s0 s : same s0 s -> Ends (same s0) (Ok s).
Proof. intros. by apply ends_ok. Qed.
#[local] Hint Resolve ends_if ends_same_ok ends_same_ok1 : same.

Lemma create_same s0 path ty mj mn s : same s0 s -> Ends (same s0) (create sb me path ty mj mn s).
Proof.
  intros. unfold create. walk; try done.
Qed.
#[local] Hint Resolve create_same : same.
Lemma open_inode_same s0 omode path s : same s0 s -> Ends (same s0) (open_inode sb me omode path s).
Proof. intros. unfold open_inode. walk; done. Qed.
Lemma make_node_same s0 ty mj mn s : same s0 s -> Ends (same s0) (make_node sb me tf ty mj mn s).
Proof. intros. unfold make_node. walk; done. Qed.
#[local] Hint Resolve open_inode_same make_node_same : same.

Lemma sys_link_same s0 s : same s0 s -> Ends (same s0) (sys_link sb me tf s).
Proof. intros. unfold sys_link. walk; done. Qed.
Lemma sys_unlink_same s0 s : same s0 s -> Ends (same s0) (sys_unlink sb me tf s).
Proof. intros. unfold sys_unlink. walk; done. Qed.
Lemma sys_mkdir_same s0 s : same s0 s -> Ends (same s0) (sys_mkdir sb me tf s).
Proof. intros. unfold sys_mkdir. walk; done. Qed.
Lemma sys_mknod_same s0 s : same s0 s -> Ends (same s0) (sys_mknod sb me tf s).
Proof. intros. unfold sys_mknod. walk; done. Qed.
Lemma sys_chdir_same s0 s : same s0 s -> Ends (same s0) (sys_chdir sb me tf s).
Proof. intros. unfold sys_chdir. walk; done. Qed.

(** ** Reading and writing move offsets only *)
Lemma same_off s0 s i (g : file -> Z) : same s0 s -> same s0 (set_ft s (alter (fun f => set_off f (g f)) i (k_ft s))).
Proof. intros [H1 H2]. split; [|exact H2]. cbn [k_ft set_ft]. rewrite fview_keep; auto. Qed.
#[local] Hint Resolve same_off : same.

Lemma kpiperead_same s0 pi addr n s : same s0 s -> Ends (same s0) (kpiperead killed pi addr n s).
Proof. intros. unfold kpiperead. walk; done. Qed.
Lemma kpipewrite_same s0 pi addr n s : same s0 s -> Ends (same s0) (kpipewrite killed pi addr n s).
Proof. intros. unfold kpipewrite. walk; done. Qed.
Lemma kreadi_same s0 i addr off n s : same s0 s -> Ends (same s0) (kreadi sb i addr off n s).
Proof. intros. unfold kreadi. apply ends_pure. intros [[[? ?] ?] ?] ?. by apply ends_ok. Qed.
Lemma kwritei_same s0 i addr off n s : same s0 s -> Ends (same s0) (kwritei sb i addr off n s).
Proof. intros. unfold kwritei. apply ends_pure. intros [[? ?] ?] ?. by apply ends_ok. Qed.
#[local] Hint Resolve kpiperead_same kpipewrite_same kreadi_same kwritei_same : same.

(** devsw's routines do not open or close files. *)
Definition dev_same (dev : Z -> option (Z -> Z -> kst -> res (Z * kst))) : Prop :=
  forall m f addr n s0 s, dev m = Some f -> same s0 s -> Ends (same s0) (f addr n s).

Lemma adv_same (b : bool) s0 s i r :
  same s0 s -> same s0 (if b then set_ft s (alter (fun f => set_off f (u32 (f_off f + r))) i (k_ft s)) else s).
Proof. destruct b; [apply (same_off _ _ _ (fun f => u32 (f_off f + r)))|done]. Qed.
#[local] Hint Resolve adv_same : same.

Lemma fileread_same s0 fi addr n s : dev_same devread -> same s0 s -> Ends (same s0) (fileread sb me killed devread fi addr n s).
Proof. intros Hd Hs. unfold fileread. case_match; [by walk|]. case_match; [by walk|by walk| |].
  - destruct (f_ip _); [|by walk]. walk; eauto with same.
  - case_match; [by walk|]. destruct (devread _) eqn:E; [|by walk]. eapply Hd; eauto.
Qed.
Lemma filewrite_chunk_same s0 fi i addr n s : same s0 s -> Ends (same s0) (filewrite_chunk sb me fi i addr n s).
Proof. intros. unfold filewrite_chunk. walk; eauto with same. Qed.
#[local] Hint Resolve filewrite_chunk_same : same.
Lemma filewrite_loop_same s0 fuel fi i addr k n s : same s0 s -> Ends (same s0) (filewrite_loop sb me fuel fi i addr k n s).
Proof. revert k s. induction fuel; intros k s Hs; cbn [filewrite_loop]; walk; eauto with same. Qed.
#[local] Hint Resolve filewrite_loop_same : same.
Lemma filewrite_same s0 fi addr n s : dev_same devwrite -> same s0 s -> Ends (same s0) (filewrite sb me killed devwrite fi addr n s).
Proof. intros Hd Hs. unfold filewrite. case_match; [by walk|]. case_match; [by walk|by walk| |].
  - destruct (f_ip _); [|by walk]. walk; eauto with same.
  - case_match; [by walk|]. destruct (devwrite _) eqn:E; [|by walk]. eapply Hd; eauto.
Qed.
Lemma filestat_same s0 pad f addr s : same s0 s -> Ends (same s0) (filestat sb me pad f addr s).
Proof. intros. unfold filestat. walk; done. Qed.
Lemma fileseek_same s0 fi offset whence s : same s0 s -> Ends (same s0) (fileseek sb me fi offset whence s).
Proof. intros. unfold fileseek. walk; eauto with same. Qed.

(** ** Opening and closing *)
Definition R (other : nat -> Z) (held : list nat) (s : kst) : Prop := refs_ok other held (fview <$> k_ft s) (k_ofile s).

Lemma R_same other held s s' : R other held s -> same s s' -> R other held s'.
Proof. unfold R. intros H [-> ->]. done. Qed.

Lemma fview_lookup (ft : list file) i f : ft !! i = Some f -> (fview <$> ft) !! i = Some (f_ref f, f_type f).
Proof. intros H. by rewrite list_lookup_fmap, H. Qed.

Lemma close_file_same s0 ff s : same s0 s -> Ends (same s0) (close_file sb me ff s).
Proof. intros. unfold close_file, kpipeclose. destruct (f_ip ff); walk; done. Qed.

(** fileclose leaves the descriptors alone: they may still show the reference. *)
Lemma fileclose_view other held od f s :
  refs_ok other (f :: held) (fview <$> k_ft s) od ->
  Ends (fun s' => refs_ok other held (fview <$> k_ft s') od /\ k_ofile s' = k_ofile s) (fileclose sb me f s).
Proof.
  intros H. unfold fileclose, fileclose_table, getf. apply ends_pure. intros [last ft] E.
  destruct (k_ft s !! f) as [x|] eqn:Hf; cbn in E; [|discriminate E].
  destruct (Z.ltb_spec (f_ref x) 1) as [|Hr]; [discriminate|].
  pose proof (refs_drop _ _ _ _ _ _ _ H (fview_lookup _ _ _ Hf) Hr) as Hd.
  assert (Ha : forall g : file -> file, fview (g x) = dec_view (fview x) -> fview <$> alter g f (k_ft s) = alter dec_view f (fview <$> k_ft s)).
  { intros g Hg. apply list_eq. intros j. rewrite list_lookup_fmap. destruct (decide (j = f)) as [->|].
    - rewrite !list_lookup_alter_eq, list_lookup_fmap, Hf. cbn. by rewrite Hg.
    - rewrite !list_lookup_alter_ne, list_lookup_fmap by done. done. }
  destruct (Z.ltb_spec 0 (f_ref x - 1)) as [Hp|Hp]; injection E as <- <-.
  - apply ends_ok. cbn [kof hask_self id k_ft k_ofile set_ft]. split; [|done]. rewrite Ha; [done|].
    unfold fview, dec_view. cbn. destruct (Z.ltb_spec 0 (f_ref x - 1)); [done|lia].
  - eapply ends_impl; [apply close_file_same, same_refl|]. intros s' [-> ->]. split; [|done].
    cbn [k_ft k_ofile set_ft]. rewrite Ha; [done|].
    unfold fview, dec_view. cbn. destruct (Z.ltb_spec 0 (f_ref x - 1)); [lia|done].
Qed.

Lemma fileclose_refs other held f s : R other (f :: held) s -> Ends (R other held) (fileclose sb me f s).
Proof. intros H. eapply ends_impl; [by apply fileclose_view|]. intros s' [H1 H2]. unfold R. by rewrite H2. Qed.

Lemma filealloc_refs other held s f ft :
  R other held s -> filealloc (k_ft s) = Some (f, ft) -> R other (f :: held) (set_ft s ft) /\ (f < length ft)%nat.
Proof.
  intros H E. apply filealloc_spec in E as (x & Hx & Hr & ->). split; [|rewrite length_alter; by eapply lookup_lt_Some].
  unfold R. cbn [k_ft k_ofile set_ft]. rewrite (fview_alter _ (fun v => (1, v.2))) by done.
  eapply refs_alloc; eauto. rewrite (fview_lookup _ _ _ Hx). by rewrite Hr.
Qed.

(** A file may be given a type while a reference is held. *)
Lemma R_retype other held s f (g : file -> file) :
  R other held s -> List.In f held -> (forall x, f_ref (g x) = f_ref x) -> R other held (set_ft s (alter g f (k_ft s))).
Proof.
  intros H Hin Hg. destruct (k_ft s !! f) as [x|] eqn:Hx.
  - unfold R. cbn [k_ft k_ofile set_ft].
    assert (E : fview <$> alter g f (k_ft s) = alter (fun v => (v.1, f_type (g x))) f (fview <$> k_ft s)).
    { apply list_eq. intros j. rewrite list_lookup_fmap. destruct (decide (j = f)) as [->|].
      - rewrite !list_lookup_alter_eq, list_lookup_fmap, Hx. cbn. unfold fview. by rewrite Hg.
      - rewrite !list_lookup_alter_ne, list_lookup_fmap by done. done. }
    rewrite E. pose proof (ro_ref _ _ _ _ H _ _ _ (fview_lookup _ _ _ Hx)) as Hr.
    eapply refs_move; [exact H|by apply fview_lookup| | | |]; cbn [fst snd]; try lia; [|apply (ro_range _ _ _ _ H)].
    intros E0. exfalso. pose proof (ro_other _ _ _ _ H f). pose proof (cnt_nonneg (k_ofile s) f).
    assert (1 <= cnth held f); [|lia]. clear -Hin. unfold cnth. induction held as [|y l IH]; [done|].
    cbn [fmap list_fmap]. rewrite cnt_cons. destruct Hin as [->|Hin]; [rewrite one_eq; pose proof (cnt_nonneg (Some <$> l) f); lia|].
    specialize (IH Hin). unfold one. case_decide; lia.
  - eapply R_same; [exact H|]. split; [|done]. cbn [k_ft set_ft]. f_equal. apply list_eq. intros j.
    destruct (decide (j = f)) as [->|]; [by rewrite list_lookup_alter_eq, Hx|by rewrite list_lookup_alter_ne].
Qed.

Lemma R_fd other held s f fd od :
  R other (f :: held) s -> (f < length (k_ft s))%nat -> fdalloc f (k_ofile s) = Some (fd, od) -> R other held (set_ofile s od).
Proof.
  intros H Hl E. apply fdalloc_spec in E as [Hfd ->]. unfold R. cbn [k_ft k_ofile set_ofile].
  eapply refs_fd; eauto. by rewrite length_fmap.
Qed.

Lemma R_unfd other held s fd f :
  R other held s -> k_ofile s !! fd = Some (Some f) -> R other (f :: held) (set_ofile s (<[fd := None]> (k_ofile s))).
Proof. intros H Hfd. unfold R. cbn [k_ft k_ofile set_ofile]. by eapply refs_unfd. Qed.

Lemma argfd_spec n (s : kst) fd f : argfd tf n s = Ok (Some (fd, f)) -> k_ofile s !! fd = Some (Some f).
Proof.
  unfold argfd. intros H. apply rbind_Ok in H as (x & _ & H). destruct (_ || _); [discriminate|].
  destruct (k_ofile s !! Z.to_nat x) as [[y|]|] eqn:E; try discriminate. by injection H as <- <-.
Qed.

Lemma sys_dup_refs other s : R other [] s -> Ends (R other []) (sys_dup tf s).
Proof.
  intros H. unfold sys_dup. apply ends_pure. intros [[fd f]|] Ha; [|by apply ends_ok]. apply argfd_spec in Ha.
  destruct (fdalloc f (k_ofile s)) as [[fd' od]|] eqn:E; [|by apply ends_ok]. apply ends_pure. unfold filedup, getf. intros ft Hd.
  destruct (k_ft s !! f) as [x|] eqn:Hf; cbn in Hd; [|discriminate].
  destruct (Z.ltb_spec (f_ref x) 1) as [|Hr]; [discriminate|]. injection Hd as <-. apply ends_ok.
  change (R other [] (set_ofile (set_ft s (alter (fun f => set_fref f (f_ref f + 1)) f (k_ft s))) od)).
  eapply R_fd; [|cbn [k_ft set_ft]; rewrite length_alter; by eapply lookup_lt_Some|exact E].
  unfold R. cbn [k_ft k_ofile set_ft]. rewrite (fview_alter _ (fun v => (v.1 + 1, v.2))) by done.
  eapply refs_dup; [exact H|by apply fview_lookup|done].
Qed.

Lemma sys_close_refs other s : R other [] s -> Ends (R other []) (sys_close sb me tf s).
Proof.
  intros H. unfold sys_close. apply ends_pure. intros [[fd f]|] Ha; [|by apply ends_ok]. apply argfd_spec in Ha.
  eapply (ends_bind (R other [])); [apply fileclose_refs; by apply R_unfd|]. intros. by apply ends_ok.
Qed.

Lemma sys_open_refs other s : R other [] s -> Ends (R other []) (sys_open sb me tf s).
Proof.
  intros H. unfold sys_open. apply ends_pure. intros omode _. apply ends_pure. intros [path|] _; [|by apply ends_ok].
  eapply (ends_bind (same s)); [apply kbegin_same, same_refl|]. intros s1 H1.
  eapply (ends_bind (same s)); [by apply open_inode_same|]. intros [[i|] s2] H2; cbn [kof hask_pair snd] in H2;
    [|eapply ends_impl; [by apply fail_op_same|]; intros; by eapply R_same].
  destruct (_ && _); [eapply ends_impl; [by apply open_fail_same|]; intros; by eapply R_same|].
  destruct (filealloc (k_ft s2)) as [[f ft]|] eqn:Ef; [|eapply ends_impl; [by apply open_fail_same|]; intros; by eapply R_same].
  eapply (filealloc_refs other []) in Ef as [HR Hl]; [|by eapply R_same].
  destruct (fdalloc f _) as [[fd od]|] eqn:Ed.
  - eapply (ends_bind (R other [])).
    + match goal with |- Ends _ (if ?b then _ else _) => set (br := b); clearbody br end.
      match goal with |- context [set_ft ?a ?b] => pose proof (R_retype other [f] (set_ft s2 ft) f (open_file omode i (kip s2 i)) HR (or_introl eq_refl) (fun _ => eq_refl)) as HR' end.
      eapply R_fd in HR'; [|cbn [k_ft set_ft]; by rewrite length_alter|exact Ed].
      destruct br; [|by apply ends_ok]. apply ends_pure. intros [? ?] _. by apply ends_ok.
    + intros s3 H3. eapply (ends_bind (R other [])).
      { eapply ends_impl; [apply kiu_same, same_refl|]. intros ? ?. by eapply R_same. }
      intros s4 H4. eapply (ends_bind (R other [])).
      { eapply ends_impl; [apply kend_same, same_refl|]. intros ? ?. by eapply R_same. }
      intros. by apply ends_ok.
  - eapply (ends_bind (R other [])); [by apply fileclose_refs|]. intros s3 H3.
    eapply ends_impl; [apply open_fail_same, same_refl|]. intros ? ?. by eapply R_same.
Qed.

(** pipealloc: two references, or none *)
Lemma pipealloc_refs other junk s r s' :
  R other [] s -> pipealloc sb me junk s = Ok (r, s') ->
  match r with
  | None => R other [] s'
  | Some (f0, f1) => R other [f1; f0] s' /\ (f0 < length (k_ft s'))%nat /\ (f1 < length (k_ft s'))%nat
  end.
Proof.
  intros H E. unfold pipealloc in E. destruct (filealloc (k_ft s)) as [[f0 ft0]|] eqn:E0; [|by injection E as <- <-].
  apply (filealloc_refs other []) in E0 as [HR0 Hl0]; [|done].
  destruct (filealloc ft0) as [[f1 ft1]|] eqn:E1.
  - pose proof (filealloc_spec _ _ _ E1) as (_ & _ & _ & Hft).
    apply (filealloc_refs other [f0] (set_ft s ft0)) in E1 as [HR1 Hl1]; [|done].
    destruct (um_kalloc _) as [pi u]. destruct (pi =? 0).
    + assert (HR1' : R other [f0; f1] (set_u (set_ft (set_ft s ft0) ft1) u)).
      { destruct HR1 as [G1 G2 G3 G4 G5]. split; auto. intros i r' t Hi. rewrite (G1 _ _ _ Hi). unfold cnth. cbn [fmap list_fmap].
        rewrite !cnt_cons. cbn. lia. }
      apply rbind_Ok in E as (s1 & C1 & E). apply rbind_Ok in E as (s2 & C2 & E). injection E as <- <-.
      apply (fileclose_refs other [f1]) in C1; [|done]. apply (fileclose_refs other []) in C2; done.
    + injection E as <- <-. cbn [k_ft set_ft set_u set_pipes].
      assert (HR2 : R other [f1; f0] (set_pipes (set_u (set_ft (set_ft s ft0) ft1) u) (<[pi:=pipe_init junk]> (k_pipes s)))) by done.
      apply (R_retype _ _ _ f0 (fun f => pipe_file f false pi)) in HR2; [|right; by left|done].
      apply (R_retype _ _ _ f1 (fun f => pipe_file f true pi)) in HR2; [|by left|done].
      split_and!; [exact HR2| |]; rewrite !length_alter; [|done]. rewrite Hft, length_alter. done.
  - apply rbind_Ok in E as (s1 & C1 & E). injection E as <- <-. apply (fileclose_refs other []) in C1; done.
Qed.

Lemma R_swap other a b s : R other [a; b] s -> R other [b; a] s.
Proof.
  intros [G1 G2 G3 G4 G5]. split; auto. intros i r' t Hi. rewrite (G1 _ _ _ Hi). unfold cnth. cbn [fmap list_fmap].
  rewrite !cnt_cons. lia.
Qed.

Lemma pipe_fail_refs other rf wf s : R other [wf; rf] s -> Ends (R other []) (pipe_fail sb me rf wf s).
Proof.
  intros H. unfold pipe_fail. eapply (ends_bind (R other [wf])); [apply fileclose_refs; by apply R_swap|]. intros s1 H1.
  eapply (ends_bind (R other [])); [by apply fileclose_refs|]. intros. by apply ends_ok.
Qed.

Lemma sys_pipe_refs other junk s : R other [] s -> Ends (R other []) (sys_pipe sb me tf junk s).
Proof.
  intros H. unfold sys_pipe. apply ends_pure. intros fdarray _. apply ends_pure. intros [r s1] E.
  apply (pipealloc_refs other) in E; [|done]. destruct r as [[rf wf]|]; [|by apply ends_ok]. destruct E as (HR & Hl0 & Hl1).
  destruct (fdalloc rf _) as [[fd0 od0]|] eqn:E0; [|by apply pipe_fail_refs].
  pose proof (R_fd other [wf] s1 rf fd0 od0 (R_swap _ _ _ _ HR) Hl0 E0) as HR0. apply fdalloc_spec in E0 as [F0 ->].
  destruct (fdalloc wf _) as [[fd1 od1]|] eqn:E1.
  - pose proof (R_fd other [] (set_ofile s1 (<[fd0:=Some rf]> (k_ofile s1))) wf fd1 od1 HR0 Hl1 E1) as HR1.
    apply fdalloc_spec in E1 as [F1 ->].
    assert (Hne : fd1 <> fd0).
    { intros ->. rewrite list_lookup_insert_eq in F1 by (by eapply lookup_lt_Some). done. }
    destruct (um_copyout _ _ _) as [u ok]. cbn [k_u set_ofile set_u].
    destruct (if ok then _ else _) as [u' ok']. destruct ok'; [by apply ends_ok|]. apply pipe_fail_refs.
    cbn [k_ofile set_u set_ofile].
    rewrite list_lookup_insert_ne in F1 by done.
    rewrite (list_insert_insert_ne _ fd0 fd1) by done. rewrite !list_insert_insert_eq.
    rewrite (list_insert_id (k_ofile s1) fd0 None) by done. rewrite (list_insert_id (k_ofile s1) fd1 None) by done. exact HR.
  - apply pipe_fail_refs. rewrite list_insert_insert_eq. rewrite list_insert_id by done. exact HR.
Qed.

(** exit closes every descriptor *)
Lemma close_files_refs other k fd s : R other [] s -> Ends (R other []) (close_files sb me k fd s).
Proof.
  revert fd s. induction k as [|k IH]; intros fd s H; cbn [close_files]; [by apply ends_ok|].
  eapply (ends_bind (R other [])); [|intros s1 H1; by apply IH].
  destruct (k_ofile s !! fd) as [[f|]|] eqn:E; try by apply ends_ok.
  pose proof (refs_unfd _ _ _ _ _ _ H E) as Hu.
  eapply ends_bind; [by apply fileclose_view|]. intros s1 [H1 H2]. apply ends_ok. unfold R. cbn [kof hask_self id k_ft k_ofile set_ofile].
  change (kof s1) with s1 in *. by rewrite H2.
Qed.

Lemma close_files_none k fd s s' :
  close_files sb me k fd s = Ok s' ->
  length (k_ofile s') = length (k_ofile s) /\
  (forall j, (j < fd)%nat -> k_ofile s' !! j = k_ofile s !! j) /\
  (forall j o, (fd <= j < fd + k)%nat -> k_ofile s' !! j = Some o -> o = None).
Proof.
  revert fd s. induction k as [|k IH]; intros fd s H; cbn [close_files] in H.
  { injection H as <-. split_and!; auto. intros; lia. }
  apply rbind_Ok in H as (s1 & H1 & H). apply IH in H as (L & Hlow & Hhigh).
  assert (G : length (k_ofile s1) = length (k_ofile s) /\ (forall j, (j < fd)%nat -> k_ofile s1 !! j = k_ofile s !! j) /\
              (forall o, k_ofile s1 !! fd = Some o -> o = None)).
  { destruct (k_ofile s !! fd) as [[f|]|] eqn:E.
    - apply rbind_Ok in H1 as (s2 & H2 & H1). injection H1 as <-. cbn [k_ofile set_ofile].
      assert (E2 : k_ofile s2 = k_ofile s).
      { revert H2. unfold fileclose. intros H2. apply rbind_Ok in H2 as ([last ft] & _ & H2). destruct last; [|by injection H2 as <-].
        apply (close_file_same (set_ft s ft)) in H2; [|apply same_refl]. apply H2. }
      rewrite E2. split_and!; [by rewrite length_insert|intros j Hj; by rewrite list_lookup_insert_ne by lia|].
      intros o Ho. rewrite list_lookup_insert_eq in Ho by (by eapply lookup_lt_Some). by injection Ho as <-.
    - injection H1 as <-. split_and!; auto. intros o Ho. rewrite E in Ho. by injection Ho as <-.
    - injection H1 as <-. split_and!; auto. intros o Ho. by rewrite E in Ho. }
  destruct G as (G1 & G2 & G3). split_and!; [congruence|intros j Hj; rewrite Hlow, G2 by lia; done|].
  intros j o Hj Ho. destruct (decide (j = fd)) as [->|]; [|eapply (Hhigh j); [lia|done]].
  rewrite Hlow in Ho by lia. eauto.
Qed.
End calls.

(** fork duplicates every descriptor: the child's table is counted. *)
Lemma dup_files_refs other od ft ft' od0 :
  refs_ok other [] (fview <$> ft) od0 -> (forall fd i, od !! fd = Some (Some i) -> (i < length ft)%nat) ->
  dup_files od ft = Ok ft' -> refs_ok (fun i => other i + cnt od i) [] (fview <$> ft') od0.
Proof.
  revert other ft. induction od as [|o od IH]; intros other ft H Hb E; cbn [dup_files] in E.
  { injection E as <-. destruct H as [G1 G2 G3 G4 G5]. split; auto; intros i; [intros r t Hi; rewrite (G1 _ _ _ Hi)|specialize (G3 i)]; change (cnt [] i) with 0; lia. }
  assert (Hb' : forall fd i, od !! fd = Some (Some i) -> (i < length ft)%nat) by (intros fd i Hi; apply (Hb (S fd) i Hi)).
  destruct o as [f|].
  - apply rbind_Ok in E as (ft1 & Hd & E). unfold filedup, getf in Hd. destruct (lookup_lt_is_Some_2 ft f) as [x Hx]; [by apply (Hb O)|].
    rewrite Hx in Hd. cbn in Hd. destruct (Z.ltb_spec (f_ref x) 1) as [|Hr]; [discriminate|]. injection Hd as <-.
    assert (H' : refs_ok (fun i => other i + one (Some f) i) [] (fview <$> alter (fun f => set_fref f (f_ref f + 1)) f ft) od0).
    { rewrite (fview_alter _ (fun v => (v.1 + 1, v.2))) by done.
      eapply refs_dup in H; [|by apply fview_lookup|exact Hr]. destruct H as [G1 G2 G3 G4 G5]. split; auto.
      - intros i r t Hi. rewrite (G1 _ _ _ Hi). unfold cnth. cbn [fmap list_fmap]. rewrite cnt_cons. lia.
      - intros i. specialize (G3 i). unfold one. case_decide; lia. }
    eapply IH in H'; [|by rewrite length_alter|exact E]. destruct H' as [G1 G2 G3 G4 G5]. split; auto.
    + intros i r t Hi. rewrite (G1 _ _ _ Hi). rewrite cnt_cons. lia.
    + intros i. specialize (G3 i). rewrite cnt_cons. lia.
  - eapply IH in E as [G1 G2 G3 G4 G5]; eauto. split; auto.
Qed.
