(* ===== verification/FileProps.v ===== *)
(** * Properties of open files and descriptors *)

From S2P Require Import Prelude Riscv Sleeplock Block Log LogFacts LogExec Txn Fs FsBlocks FsFile FsIO FsInode FsTable FsProps Pipe File Sysfile SysfileRefs.

Section world.
Context {C : Type} `{BO : BufOps C} {U : Type} `{UM : UserMem U}.
Context (sb : superblock) (me : Z).
Abbreviation kst := (kst C U).
Context (devread devwrite : Z -> option (Z -> Z -> kst -> res (Z * kst))).

(** ** The system calls on files, by any process *)
Inductive fcall :=
| Cdup | Cclose | Copen | Cpipe (junk : list Z) | Cread | Cwrite | Cfstat (pad : list Z) | Cseek (oob : Z -> option nat)
| Clink | Cunlink | Cmkdir | Cmknod | Cchdir.

Definition do_call (c : fcall) (killed : bool) (tf : trapframe) (s : kst) : res (Z * kst) :=
  match c with
  | Cdup => sys_dup tf s
  | Cclose => sys_close sb me tf s
  | Copen => sys_open sb me tf s
  | Cpipe junk => sys_pipe sb me tf junk s
  | Cread => sys_read sb me killed devread tf s
  | Cwrite => sys_write sb me killed devwrite tf s
  | Cfstat pad => sys_fstat sb me tf pad s
  | Cseek oob => sys_seek sb me tf oob s
  | Clink => sys_link sb me tf s
  | Cunlink => sys_unlink sb me tf s
  | Cmkdir => sys_mkdir sb me tf s
  | Cmknod => sys_mknod sb me tf s
  | Cchdir => sys_chdir sb me tf s
  end.

Lemma do_call_refs other c killed tf s :
  dev_same devread -> dev_same devwrite -> R other [] s -> Ends (R other []) (do_call c killed tf s).
Proof.
  intros Hr Hw H.
  assert (K : forall m : res (Z * kst), Ends (same s) m -> Ends (R other []) m).
  { intros m Hm. eapply ends_impl; [exact Hm|]. intros s' Hs. by eapply R_same. }
  destruct c; cbn [do_call].
  - by apply sys_dup_refs.
  - by apply sys_close_refs.
  - by apply sys_open_refs.
  - by apply sys_pipe_refs.
  - apply K. unfold sys_read. do 2 (apply ends_pure; intros). apply ends_pure. intros [[? ?]|] _; [by apply fileread_same|by apply ends_ok].
  - apply K. unfold sys_write. do 2 (apply ends_pure; intros). apply ends_pure. intros [[? ?]|] _; [by apply filewrite_same|by apply ends_ok].
  - apply K. unfold sys_fstat. apply ends_pure. intros. apply ends_pure. intros [[? ?]|] _; [by apply filestat_same|by apply ends_ok].
  - apply K. unfold sys_seek. do 3 (apply ends_pure; intros). match goal with |- Ends _ (match ?x with _ => _ end) => destruct x as [[?|]|] end; [by apply fileseek_same|by apply ends_ok..].
  - apply K. by apply sys_link_same.
  - apply K. by apply sys_unlink_same.
  - apply K. by apply sys_mkdir_same.
  - apply K. by apply sys_mknod_same.
  - apply K. by apply sys_chdir_same.
Qed.

(** ** All processes: each has its descriptors and its current directory. *)
Record world := mkW { w_k : kst; w_procs : list (list (option nat) * nat) }.

Definition enter (w : world) (od : list (option nat)) (cwd : nat) : kst := set_cwd (set_ofile (w_k w) od) cwd.

Inductive wstep : world -> world -> Prop :=
| ws_call w p od cwd c killed tf r s :
    w_procs w !! p = Some (od, cwd) -> do_call c killed tf (enter w od cwd) = Ok (r, s) ->
    wstep w (mkW s (<[p := (k_ofile s, k_cwd s)]> (w_procs w)))
| ws_fork w p od cwd ft :
    w_procs w !! p = Some (od, cwd) -> dup_files od (k_ft (w_k w)) = Ok ft ->
    wstep w (mkW (set_fs (set_ft (w_k w) ft) (idup cwd (k_fs (w_k w)))) (w_procs w ++ [(od, cwd)]))
| ws_exit w p od cwd s :
    w_procs w !! p = Some (od, cwd) -> exit_files sb me cwd (enter w od cwd) = Ok s ->
    wstep w (mkW s (<[p := (k_ofile s, cwd)]> (w_procs w))).

(** The descriptors of all processes that refer to file [i] *)
Definition total (ps : list (list (option nat) * nat)) (i : nat) : Z := foldr (fun p n => cnt p.1 i + n) 0 ps.

Record world_ok (w : world) : Prop := {
  wo_ref : forall i f, k_ft (w_k w) !! i = Some f -> f_ref f = total (w_procs w) i;
  wo_free : forall i f, k_ft (w_k w) !! i = Some f -> f_ref f = 0 -> f_type f = FD_NONE;
  wo_range : forall p od cwd fd i, w_procs w !! p = Some (od, cwd) -> od !! fd = Some (Some i) -> (i < length (k_ft (w_k w)))%nat;
  wo_len : length (k_ft (w_k w)) = Z.to_nat NFILE;
}.

Lemma total_insert ps p od cwd od' cwd' i :
  ps !! p = Some (od, cwd) -> total (<[p := (od', cwd')]> ps) i = total ps i - cnt od i + cnt od' i.
Proof.
  unfold total. revert p. induction ps as [|x ps IH]; intros [|p] H; cbn in H; try done.
  - injection H as ->. cbn -[cnt]. lia.
  - apply IH in H. change (<[S p := (od', cwd')]> (x :: ps)) with (x :: <[p := (od', cwd')]> ps). cbn [foldr]. lia.
Qed.

Lemma total_app ps od cwd i : total (ps ++ [(od, cwd)]) i = total ps i + cnt od i.
Proof. unfold total. induction ps as [|x ps IH]; cbn [app foldr fst]; lia. Qed.

Lemma total_nonneg ps i : 0 <= total ps i.
Proof. unfold total. induction ps as [|x ps IH]; cbn [foldr]; [lia|]. pose proof (cnt_nonneg x.1 i). lia. Qed.

Lemma total_ge ps p od cwd i : ps !! p = Some (od, cwd) -> cnt od i <= total ps i.
Proof.
  intros H. pose proof (total_insert _ _ _ _ [] 0%nat i H) as E. change (cnt [] i) with 0 in E.
  pose proof (total_nonneg (<[p := ([], 0%nat)]> ps) i). lia.
Qed.

(** Seen by one process, the others' references are constant. *)
Lemma world_enter w p od cwd :
  world_ok w -> w_procs w !! p = Some (od, cwd) ->
  R (fun i => total (w_procs w) i - cnt od i) [] (enter w od cwd).
Proof.
  intros [H1 H2 H3 H4] Hp. split; cbn [enter k_ft k_ofile set_cwd set_ofile].
  - intros i r t Hi. rewrite list_lookup_fmap in Hi. apply fmap_Some in Hi as (f & Hf & E). injection E as -> ->.
    rewrite (H1 _ _ Hf). change (cnth [] i) with 0. lia.
  - intros i t Hi. rewrite list_lookup_fmap in Hi. apply fmap_Some in Hi as (f & Hf & E). injection E as E ->. eauto.
  - intros i. pose proof (total_ge _ _ _ _ i Hp). lia.
  - intros fd i Hi. rewrite length_fmap. eauto.
  - by rewrite length_fmap.
Qed.

(** ... and back. *)
Lemma world_leave w p od cwd s cwd' :
  world_ok w -> w_procs w !! p = Some (od, cwd) ->
  R (fun i => total (w_procs w) i - cnt od i) [] s ->
  world_ok (mkW s (<[p := (k_ofile s, cwd')]> (w_procs w))).
Proof.
  intros [H1 H2 H3 H4] Hp [G1 G2 G3 G4 G5]. split; cbn [w_k w_procs].
  - intros i f Hf. rewrite (total_insert _ _ _ _ _ _ _ Hp). rewrite (G1 _ _ _ (fview_lookup _ _ _ Hf)). change (cnth [] i) with 0. lia.
  - intros i f Hf E. eapply (G2 i). rewrite (fview_lookup _ _ _ Hf). by rewrite E.
  - intros q od' cwd'' fd i Hq Hi. rewrite length_fmap in G4. destruct (decide (q = p)) as [->|].
    + rewrite list_lookup_insert_eq in Hq by (by eapply lookup_lt_Some). injection Hq as <- <-. eauto.
    + rewrite list_lookup_insert_ne in Hq by done. rewrite length_fmap in G5. rewrite G5, <- H4. eauto.
  - by rewrite length_fmap in G5.
Qed.

Lemma exit_files_refs other cwd s : R other [] s -> Ends (R other []) (exit_files sb me cwd s).
Proof.
  intros H. unfold exit_files. eapply (ends_bind (R other [])); [by apply close_files_refs|]. intros s1 H1.
  apply (ends_impl (same s1)); [|intros s' Hs'; by eapply R_same].
  eapply (ends_bind (same s1)); [apply kbegin_same, same_refl|]. intros s2 H2.
  eapply (ends_bind (same s1)); [by apply kip_same|]. intros s3 H3. by apply kend_same.
Qed.

Lemma wstep_ok w w' : dev_same devread -> dev_same devwrite -> wstep w w' -> world_ok w -> world_ok w'.
Proof.
  intros Hr Hw [? p od cwd c killed tf r s Hp Hc|? p od cwd ft Hp Hd|? p od cwd s Hp Hc] Hok.
  - pose proof (world_enter _ _ _ _ Hok Hp) as HR. eapply (do_call_refs _ c killed tf _ Hr Hw) in HR. apply HR in Hc. by eapply world_leave.
  - pose proof (world_enter _ _ _ _ Hok Hp) as HR. pose proof Hok as [H1 H2 H3 H4].
    eapply (dup_files_refs _ od (k_ft (w_k w0))) in HR; [|by eauto|exact Hd]. destruct HR as [G1 G2 G3 G4 G5].
    rewrite length_fmap in G5. split; cbn [w_k w_procs k_ft set_fs set_ft].
    + intros i f Hf. rewrite total_app. rewrite (G1 _ _ _ (fview_lookup _ _ _ Hf)). cbn [enter k_ofile set_cwd set_ofile].
      change (cnth [] i) with 0. lia.
    + intros i f Hf E. eapply (G2 i). rewrite (fview_lookup _ _ _ Hf). by rewrite E.
    + intros q od' cwd' fd i Hq Hi. rewrite G5, <- H4. apply lookup_app_Some in Hq as [Hq|[_ Hq]]; [eauto|].
      apply list_lookup_singleton_Some in Hq as [_ [= <- <-]]. eauto.
    + done.
  - pose proof (world_enter _ _ _ _ Hok Hp) as HR. eapply (exit_files_refs _ cwd) in HR. apply HR in Hc. by eapply world_leave.
Qed.
End world.

(** C9: After any sequence of dup, close, open, pipe, read, write, fstat, seek,
    link, unlink, mkdir, mknod, chdir, fork and exit steps of any number of
    processes, whether the calls succeed or take one of their error exits, the
    reference count of every entry of the file table is exactly the number of
    descriptors that refer to it, and an entry with no references is free. *)
Theorem descriptor_references {C} `{BO : BufOps C} {U} `{UM : UserMem U} sb me devread devwrite (w w' : world (C := C) (U := U)) :
  dev_same devread -> dev_same devwrite -> world_ok w -> rtc (wstep sb me devread devwrite) w w' ->
  forall i f, k_ft (w_k w') !! i = Some f ->
    f_ref f = total (w_procs w') i /\ (f_ref f = 0 -> f_type f = FD_NONE).
Proof.
  intros Hr Hw Hok Hs. assert (Hok' : world_ok w').
  { induction Hs as [|w1 w2 w3 H12 _ IH]; [done|]. apply IH. eapply wstep_ok; [exact Hr|exact Hw|exact H12|exact Hok]. }
  intros i f Hf. split; [by apply Hok'|by eapply (wo_free _ Hok')].
Qed.

(** Two processes share an open file; one duplicates its descriptor, then the
    other forks. *)
#[local] Instance demo_um : UserMem unit := {
  um_copyout u _ _ := (u, true); um_copyin _ _ n := (replicate (Z.to_nat n) 0, true); um_copyinstr _ _ _ := Some [];
  um_kput u _ _ := u; um_kget _ _ n := replicate (Z.to_nat n) 0; um_kalloc u := (0, u); um_kfree _ u := Ok u }.
Definition demo_open : file := mkFile FD_INODE 2 true true 0 (Some 0%nat) 0 0.
Definition demo_od : list (option nat) := Some 0%nat :: replicate 15 None.
Definition demo_k : kst acache unit :=
  mkK (mkFs demo_t [demo_file T_FILE 1 7]) (demo_open :: replicate 99 file0) (replicate 100 file0) ∅ tt [] 0%nat.
Definition demo_w : world := mkW demo_k [(demo_od, 0%nat); (demo_od, 0%nat)].
Definition demo_dev (_ : Z) : option (Z -> Z -> kst acache unit -> res (Z * kst acache unit)) := None.

Lemma demo_world_ok : world_ok demo_w.
Proof.
  split; cbn [w_k w_procs demo_w k_ft demo_k].
  - intros [|i] f Hf; [by injection Hf as <-|]. apply (lookup_replicate_1 99 file0) in Hf as [-> _]. reflexivity.
  - intros [|i] f Hf; [by injection Hf as <-|]. by apply (lookup_replicate_1 99 file0) in Hf as [-> _].
  - intros p od cwd fd i Hp Hi. assert (E : od = demo_od) by (destruct p as [|[|p]]; [by injection Hp|by injection Hp|discriminate]). subst od.
    destruct fd as [|fd]; [injection Hi as <-; cbn; lia|]. by apply (lookup_replicate_1 15 None) in Hi as [? _].
  - reflexivity.
Qed.

Lemma descriptor_references_witness :
  exists w', rtc (wstep demo_sb 7 demo_dev demo_dev) demo_w w' /\ f_ref (getf (k_ft (w_k w')) 0) = 4 /\ total (w_procs w') 0 = 4.
Proof.
  set (w1 := mkW (set_ft (set_ofile (enter demo_w demo_od 0) (<[1%nat := Some 0%nat]> demo_od)) (set_fref demo_open 3 :: replicate 99 file0))
               [(<[1%nat := Some 0%nat]> demo_od, 0%nat); (demo_od, 0%nat)]).
  set (w2 := mkW (set_fs (set_ft (w_k w1) (set_fref demo_open 4 :: replicate 99 file0)) (idup 0 (k_fs (w_k w1)))) (w_procs w1 ++ [(demo_od, 0%nat)])).
  assert (H1 : wstep demo_sb 7 demo_dev demo_dev demo_w w1).
  { eapply (ws_call _ _ _ _ demo_w 0 demo_od 0 Cdup false (replicate 36 0) 1); reflexivity. }
  assert (H2 : wstep demo_sb 7 demo_dev demo_dev w1 w2).
  { apply (ws_fork _ _ _ _ w1 1 demo_od 0); reflexivity. }
  assert (D : dev_same demo_dev) by done.
  exists w2. assert (Hr : rtc (wstep demo_sb 7 demo_dev demo_dev) demo_w w2) by (eapply rtc_l; [exact H1|by apply rtc_once]).
  destruct (descriptor_references demo_sb 7 demo_dev demo_dev demo_w w2 D D demo_world_ok Hr 0%nat (set_fref demo_open 4) eq_refl) as [E _].
  split_and!; [exact Hr|reflexivity|rewrite <- E; reflexivity].
Defined.

(** ** One chunk of filewrite fits in a reservation *)

Lemma size_chunk (P : gset Z) a b c : Z.of_nat (size (P ∪ {[a; b]} ∪ {[c]})) <= Z.of_nat (size P) + 3.
Proof.
  replace (P ∪ {[a; b]} ∪ {[c]}) with ({[c]} ∪ ({[a]} ∪ ({[b]} ∪ P))) by set_solver.
  pose proof (size_add c ({[a]} ∪ ({[b]} ∪ P))). pose proof (size_add a ({[b]} ∪ P)). pose proof (size_add b P). lia.
Qed.

(** Filewrite cuts a write into chunks of at most ((MAXOPBLOCKS-1-1-2)/2)
    blocks so that a transaction never overruns its reservation.  On a file
    system with one bitmap block, writing one such chunk at any offset of the
    file, aligned or not, growing it or not, with an indirect block still to
    allocate or not, never runs into log_write's panic as long as the log has
    MAXOPBLOCKS blocks left: the write stores a prefix of the data, all of it
    unless the disk is full. *)
Theorem filewrite_chunk_fits {C} `{BL : BufLaws C} {U} `{UM : UserMem U} lsize sb i addr off n1 (s : kst C U) gb ip L P :
  sb_ok sb -> sb_size sb < BPB -> fs_disk sb L -> ip_ok sb L ip -> getip (k_fs s) i = ip -> (i < length (fs_itable (k_fs s)))%nat ->
  stxo (TL := log_txn_laws lsize) true (fs_t (k_fs s)) L ∅ P -> Z.of_nat (size P) + MAXOPBLOCKS <= Z.min 29 (lsize - 1) ->
  (forall a m, addr <= a -> 0 <= m -> a + m <= addr + n1 -> um_copyin (k_u s) a m = (gb <$> seqZ a m, true)) -> (forall x, is_byte (gb x)) ->
  0 <= off <= i_size ip -> 0 <= n1 <= WMAX -> off + n1 <= MAXFILE * BSIZE ->
  exists d s' L' P', kwritei sb i addr off (u32 n1) s = Ok (d, s') /\
    stxo (TL := log_txn_laws lsize) true (fs_t (k_fs s')) L' ∅ P' /\ 0 <= d <= n1 /\
    fcontent L' (getip (k_fs s') i) = splice (Z.to_nat off) ((fun j => gb (addr + j)) <$> seqZ 0 d) (fcontent L ip) /\
    (d < n1 -> forall x, 0 <= x < sb_size sb -> used sb L' x = true).
Proof.
  intros Hsb Hone Hfd Hip Hi Hlen Ht Hcap Hci Hgb Hoff Hn Hmax. change WMAX with 3072 in Hn.
  set (R := {[sb_bmapstart sb; IBLOCK (i_inum ip) sb]} : gset Z).
  assert (Hw : wblocks off n1 <= 4) by (unfold wblocks; change BSIZE with 1024; zsolve).
  destruct (writei_spec (TL := log_txn_laws lsize) sb R (user_in (k_u s)) gb ip addr off n1 (fs_t (k_fs s)) L P)
    as (d & ip' & t' & L' & P' & E & Ht' & _ & Hp); auto; try lia.
  - intros a m Ha Hm Hs. unfold user_in. by rewrite Hci.
  - intros x Hx. unfold is_bmap, datastart in Hx. rewrite Z.div_small in Hx by (pose proof (sb_pos sb Hsb); lia).
    unfold R. apply elem_of_union_l, elem_of_singleton. lia.
  - unfold R. set_solver.
  - unfold lbudget. change (tcap (TxnLaws := log_txn_laws lsize)) with (Z.min 29 (lsize - 1)).
    pose proof (size_chunk P (sb_bmapstart sb) (IBLOCK (i_inum ip) sb) (nthZ (i_addrs ip) NDIRECT)) as Hsz. fold R in Hsz.
    change MAXOPBLOCKS with 10 in Hcap. destruct (_ =? 0); lia.
  - unfold kwritei. rewrite Hi, u32_small by (clear -Hn; lia). rewrite E. cbn [rbind].
    eexists d, _, L', P'. split; [reflexivity|]. cbn [k_fs set_fs]. split; [exact Ht'|]. split; [apply Hp|]. split; [|apply Hp].
    rewrite getip_set_t by done. apply (wp_content _ _ _ _ _ _ _ _ _ _ _ Hp).
Qed.

Lemma demo_copyin (u : unit) a m : um_copyin u a m = ((fun _ => 0) <$> seqZ a m, true).
Proof.
  cbn [um_copyin demo_um]. f_equal. apply list_eq. intros j. rewrite list_lookup_fmap.
  destruct (decide (Z.of_nat j < m)).
  - rewrite lookup_replicate_2, lookup_seqZ_lt by lia. done.
  - rewrite (lookup_ge_None_2 (replicate _ _)), lookup_seqZ_ge by (rewrite ?length_replicate; lia). done.
Qed.

Lemma filewrite_chunk_fits_witness :
  exists d s' L' P', kwritei demo_sb 0 4096 0 (u32 3072) demo_k = Ok (d, s') /\
    stxo (TL := log_txn_laws 30) true (fs_t (k_fs s')) L' ∅ P' /\ 0 <= d <= 3072 /\
    fcontent L' (getip (k_fs s') 0) = splice (Z.to_nat 0) ((fun _ => 0) <$> seqZ 0 d) (fcontent demo_view (demo_file T_FILE 1 7)) /\
    (d < 3072 -> forall x, 0 <= x < sb_size demo_sb -> used demo_sb L' x = true).
Proof.
  apply (filewrite_chunk_fits 30 demo_sb 0 4096 0 3072 demo_k (fun _ => 0) (demo_file T_FILE 1 7) demo_view ∅).
  - apply demo_sb_ok.
  - zcompute.
  - apply demo_fs_disk.
  - apply demo_ip_ok; zcompute.
  - reflexivity.
  - cbn. lia.
  - apply demo_stx.
  - rewrite size_empty. zcompute.
  - intros a m _ _ _. apply demo_copyin.
  - intros x. zcompute.
  - cbn. lia.
  - zcompute.
  - zcompute.
Defined.

(** ** Seeking *)
Section seek.
Context {C : Type} `{BO : BufOps C} {U : Type} `{UM : UserMem U}.
Abbreviation kst := (kst C U).

Lemma ilock_locks sb me i (x x' : fs (log * C)) :
  ilock sb me (Some i) x = Ok x' -> (i < length (fs_itable x))%nat ->
  i_lock (getip x' i) = mkSl 1 me /\ length (fs_itable x') = length (fs_itable x).
Proof.
  intros H Hi. unfold ilock in H. destruct (i_ref (getip x i) <? 1); [discriminate|].
  apply rbind_Ok in H as (lk & Hlk & H). apply acquiresleep_Ok in Hlk as [_ ->]. cbn [i_valid set_ilock] in H.
  destruct (i_valid (getip x i)).
  - injection H as <-. unfold getip, setip. cbn [fs_itable]. rewrite list_lookup_insert_eq by done. by rewrite length_insert.
  - apply rbind_Ok in H as (t1 & _ & H). apply rbind_Ok in H as (t2 & _ & H). destruct (_ =? 0); [discriminate|]. injection H as <-.
    unfold getip, setip. cbn [fs_itable set_t]. rewrite list_lookup_insert_eq by done. by rewrite length_insert.
Qed.

Lemma kend_frame (s s' : kst) : kend s = Ok s' -> fs_itable (k_fs s') = fs_itable (k_fs s) /\ k_ft s' = k_ft s /\ k_kft s' = k_kft s.
Proof.
  unfold kend. destruct (fs_t (k_fs s)). intros H. apply rbind_Ok in H as (t & _ & H). by injection H as <-.
Qed.
Lemma kbegin_frame (s s' : kst) :
  kbegin s = Ok s' -> fs_itable (k_fs s') = fs_itable (k_fs s) /\ k_ft s' = k_ft s /\ k_kft s' = k_kft s /\
  lg_outstanding (fst (fs_t (k_fs s'))) = lg_outstanding (fst (fs_t (k_fs s))) + 1.
Proof.
  unfold kbegin. destruct (fs_t (k_fs s)) as [lg c] eqn:E. intros H. apply rbind_Ok in H as (lg' & H1 & H). injection H as <-.
  unfold begin_op in H1. destruct (negb _); [discriminate|]. destruct (_ <? _); [discriminate|]. injection H1 as <-. done.
Qed.

Lemma getip_table (x x' : fs (log * C)) i : fs_itable x' = fs_itable x -> getip x' i = getip x i.
Proof. unfold getip. by intros ->. Qed.

Lemma seek_range off size offset whence n :
  - 2 ^ 31 <= offset < 2 ^ 31 -> seek_target off size offset whence = Some n -> n < 2 ^ 31.
Proof.
  intros Ho. assert (Hs : forall x, s32 x < 2 ^ 31).
  { intros x. unfold s32, sgn. pose proof (Z.mod_pos_bound x (2 ^ 32) ltac:(lia)). bcase; lia. }
  unfold seek_target. repeat case_match; intros [= <-]; [lia|apply Hs..].
Qed.

Lemma seek_ok off size offset whence n :
  - 2 ^ 31 <= offset < 2 ^ 31 -> seek_target off size offset whence = Some n -> (n <? 0) || (size <? u32 n) = false -> 0 <= n <= size.
Proof.
  intros Ho Hs Hn. apply orb_false_iff in Hn as [H1 H2]. apply Z.ltb_ge in H1, H2.
  pose proof (seek_range _ _ _ _ _ Ho Hs).
  rewrite u32_small in H2 by lia. lia.
Qed.
End seek.

(** Fileseek on an inode either moves the offset inside the file, returns
    it and releases the inode, or returns -1 with the offset unchanged.  In the
    second case, an unknown whence or a target outside the file, the inode's
    sleep lock is still held by the caller when the call returns. *)
Theorem fileseek_outcomes {C} `{BO : BufOps C} {U} `{UM : UserMem U} sb me fi offset whence (s s' : kst C U) f i r :
  k_ft s !! fi = Some f -> f_type f = FD_INODE -> f_ip f = Some i -> (i < length (fs_itable (k_fs s)))%nat ->
  - 2 ^ 31 <= offset < 2 ^ 31 -> fileseek sb me fi offset whence s = Ok (r, s') ->
  let ip := getip (k_fs s') i in
  (0 <= r <= i_size ip /\ seek_target (f_off f) (i_size ip) offset whence = Some r /\
   k_ft s' !! fi = Some (set_off f r) /\ sl_locked (i_lock ip) = 0) \/
  (r = -1 /\ k_ft s' = k_ft s /\ i_lock ip = mkSl 1 me).
Proof.
  intros Hf Hty Hip Hlen Ho E. unfold fileseek, getf in E. rewrite Hf in E. cbn [default from_option id] in E. rewrite Hty, Hip in E.
  apply rbind_Ok in E as (s1 & E1 & E). apply kbegin_frame in E1 as (I1 & F1 & _).
  apply rbind_Ok in E as (s2 & E2 & E). apply rbind_Ok in E2 as (x & E2 & E2'). injection E2' as <-.
  apply ilock_locks in E2 as [Hlk Hl]; [|by rewrite I1]. cbn [k_fs set_fs k_ft] in E.
  destruct (seek_target _ _ _ _) as [n|] eqn:Ht; [destruct (_ || _) eqn:Hn|].
  - apply rbind_Ok in E as (s3 & E3 & E). injection E as <- <-. apply kend_frame in E3 as (I3 & F3 & _). right.
    rewrite (getip_table _ _ i I3). split; [done|]. split; [by rewrite F3|exact Hlk].
  - apply rbind_Ok in E as (s3 & E3 & E). apply rbind_Ok in E3 as (y & E3 & E3'). injection E3' as <-.
    apply rbind_Ok in E as (s4 & E4 & E). injection E as <- <-. apply kend_frame in E4 as (I4 & F4 & _).
    unfold iunlock in E3. cbv zeta in E3. match type of E3 with (if ?b then _ else _) = _ => destruct b end; [discriminate|]. injection E3 as <-. left.
    assert (G : getip (k_fs s4) i = set_ilock (getip x i) (releasesleep (i_lock (getip x i)))).
    { rewrite (getip_table _ _ i I4). cbn [k_fs set_fs set_ft]. unfold getip, setip. cbn [fs_itable].
      rewrite list_lookup_insert_eq; [done|]. by rewrite Hl, I1. }
    rewrite G. cbn [i_size set_ilock i_lock]. pose proof (seek_ok _ _ _ _ _ Ho Ht Hn) as Hr. split_and!; try lia; try done.
    rewrite F4. cbn [k_ft set_fs set_ft]. rewrite F1, list_lookup_alter_eq, Hf. cbn.
    pose proof (seek_range _ _ _ _ _ Ho Ht).
    by rewrite u32_small by lia.
  - apply rbind_Ok in E as (s3 & E3 & E). injection E as <- <-. apply kend_frame in E3 as (I3 & F3 & _). right.
    rewrite (getip_table _ _ i I3). split; [done|]. split; [by rewrite F3|exact Hlk].
Qed.

Lemma fileseek_outcomes_witness :
  exists s', fileseek demo_sb 7 0 5 SEEK_END demo_k = Ok (-1, s') /\ k_ft s' = k_ft demo_k /\ i_lock (getip (k_fs s') 0) = mkSl 1 7.
Proof.
  eexists. split; [vm_compute; reflexivity|].
  edestruct (fileseek_outcomes demo_sb 7 0 5 SEEK_END demo_k) with (f := demo_open) (i := 0%nat) as [H|H];
    [reflexivity|reflexivity|reflexivity|cbn; lia|lia|vm_compute; reflexivity|exfalso; clear -H; destruct H as [[H _] _]; lia|].
  split; apply H.
Defined.

(** Kfileseek opens a transaction; when it returns -1, for an unknown
    whence or a target outside the file, that transaction is still counted in
    log.outstanding, and the file's offset is unchanged.  Otherwise the offset
    is moved to a position inside the file. *)
Theorem kfileseek_outcomes {C} `{BO : BufOps C} {U} `{UM : UserMem U} fi offset whence (s s' : kst C U) f i r :
  k_kft s !! fi = Some f -> f_type f = FD_INODE -> f_ip f = Some i -> - 2 ^ 31 <= offset < 2 ^ 31 ->
  kfileseek fi offset whence s = Ok (r, s') ->
  (0 <= r <= i_size (getip (k_fs s) i) /\ k_kft s' !! fi = Some (set_off f r)) \/
  (r = -1 /\ k_kft s' = k_kft s /\
   lg_outstanding (fst (fs_t (k_fs s'))) = lg_outstanding (fst (fs_t (k_fs s))) + 1).
Proof.
  intros Hf Hty Hip Ho E. unfold kfileseek, getf in E. rewrite Hf in E. cbn [default from_option id] in E. rewrite Hty, Hip in E.
  apply rbind_Ok in E as (s1 & E1 & E). apply kbegin_frame in E1 as (I1 & F1 & K1 & L1).
  rewrite (getip_table _ _ i I1) in E.
  destruct (seek_target _ _ _ _) as [n|] eqn:Ht; [destruct (_ || _) eqn:Hn|].
  - injection E as <- <-. right. auto.
  - apply rbind_Ok in E as (s4 & E4 & E). injection E as <- <-. apply kend_frame in E4 as (I4 & _ & K4). left.
    pose proof (seek_ok _ _ _ _ _ Ho Ht Hn) as Hr. pose proof (seek_range _ _ _ _ _ Ho Ht). split; [done|].
    rewrite K4. cbn [k_kft set_kft]. rewrite K1, list_lookup_alter_eq, Hf. cbn. by rewrite u32_small by lia.
  - injection E as <- <-. right. auto.
Qed.

Lemma kfileseek_outcomes_witness :
  exists s', kfileseek 0 0 9 (set_kft demo_k [demo_open]) = Ok (-1, s') /\ lg_outstanding (fst (fs_t (k_fs s'))) = 2.
Proof.
  eexists. split; [vm_compute; reflexivity|].
  edestruct (kfileseek_outcomes 0 0 9 (set_kft demo_k [demo_open])) with (f := demo_open) (i := 0%nat) as [H|H];
    [reflexivity|reflexivity|reflexivity|lia|vm_compute; reflexivity|exfalso; clear -H; destruct H as [[H _] _]; lia|].
  apply H.
Defined.
