(* ===== verification/Proc.v ===== *)
(** * Processes: kernel/proc.h and the process table of kernel/proc.c

    The table is a list of NPROC entries and a pointer to an entry is its
    index; a trapframe is its 36 words, kept by the address of its page.  Each
    routine holds the lock of the entry it changes, and a scan of the table
    takes the locks one after the other: a routine is one step here.  Proved
    of the life cycle in ProcLife, of the schedulers in Sched. *)

From S2P Require Import Prelude Riscv Mem Cstring Kalloc Vm Sysfile.

Definition max_thread : nat := Z.to_nat MAX_THREAD.

Inductive procstate := UNUSED | USED | SLEEPING | RUNNABLE | RUNNING | ZOMBIE.
#[export] Instance procstate_eq_dec : EqDecision procstate.
Proof. solve_decision. Defined.
Inductive thread_state := THREAD_FREE | THREAD_RUNNABLE | THREAD_RUNNING | THREAD_JOINED.
#[export] Instance thread_state_eq_dec : EqDecision thread_state.
Proof. solve_decision. Defined.
Inductive scheduler_type := RR | MinCU.

Record cpu_usage := mkCu { sum_of_ticks : Z; start_tick : Z; quota : Z }.

Record thread := mkThread {
  th_state : thread_state; th_trapframe : Z; th_cpu : option Z; th_id : Z; th_join : Z;
}.

Record proc := mkProc {
  p_state : procstate; p_chan : Z; p_killed : bool; p_xstate : Z; p_pid : Z; p_parent : option nat; p_kstack : Z; p_sz : Z; p_pagetable : Z; p_trapframe : Z; p_ra : Z; p_sp : Z; p_ofile : list (option nat); p_cwd : option nat; p_name : list Z; p_threads : list thread; p_last : Z; p_running : Z; p_usage : cpu_usage; p_deadline : Z;
}.

(** The table, initproc, the two counters, the clock, the trapframes, memory *)
Record psys := mkPs {
  ps_procs : list proc; ps_init : option nat; ps_nextpid : Z; ps_nexttid : Z; ps_ticks : Z; ps_tf : gmap Z trapframe; ps_mem : kmem;
}.

(** ** Field updates *)
Definition tset_state (t : thread) (x : thread_state) : thread :=
  mkThread x (th_trapframe t) (th_cpu t) (th_id t) (th_join t).
Definition tset_trapframe (t : thread) (x : Z) : thread :=
  mkThread (th_state t) x (th_cpu t) (th_id t) (th_join t).
Definition tset_cpu (t : thread) (x : option Z) : thread :=
  mkThread (th_state t) (th_trapframe t) x (th_id t) (th_join t).
Definition tset_id (t : thread) (x : Z) : thread :=
  mkThread (th_state t) (th_trapframe t) (th_cpu t) x (th_join t).
Definition tset_join (t : thread) (x : Z) : thread :=
  mkThread (th_state t) (th_trapframe t) (th_cpu t) (th_id t) x.
Definition set_state (p : proc) (x : procstate) : proc :=
  mkProc x (p_chan p) (p_killed p) (p_xstate p) (p_pid p) (p_parent p) (p_kstack p) (p_sz p) (p_pagetable p) (p_trapframe p) (p_ra p) (p_sp p) (p_ofile p) (p_cwd p) (p_name p) (p_threads p) (p_last p) (p_running p) (p_usage p) (p_deadline p).
Definition set_chan (p : proc) (x : Z) : proc :=
  mkProc (p_state p) x (p_killed p) (p_xstate p) (p_pid p) (p_parent p) (p_kstack p) (p_sz p) (p_pagetable p) (p_trapframe p) (p_ra p) (p_sp p) (p_ofile p) (p_cwd p) (p_name p) (p_threads p) (p_last p) (p_running p) (p_usage p) (p_deadline p).
Definition set_killed (p : proc) (x : bool) : proc :=
  mkProc (p_state p) (p_chan p) x (p_xstate p) (p_pid p) (p_parent p) (p_kstack p) (p_sz p) (p_pagetable p) (p_trapframe p) (p_ra p) (p_sp p) (p_ofile p) (p_cwd p) (p_name p) (p_threads p) (p_last p) (p_running p) (p_usage p) (p_deadline p).
Definition set_xstate (p : proc) (x : Z) : proc :=
  mkProc (p_state p) (p_chan p) (p_killed p) x (p_pid p) (p_parent p) (p_kstack p) (p_sz p) (p_pagetable p) (p_trapframe p) (p_ra p) (p_sp p) (p_ofile p) (p_cwd p) (p_name p) (p_threads p) (p_last p) (p_running p) (p_usage p) (p_deadline p).
Definition set_pid (p : proc) (x : Z) : proc :=
  mkProc (p_state p) (p_chan p) (p_killed p) (p_xstate p) x (p_parent p) (p_kstack p) (p_sz p) (p_pagetable p) (p_trapframe p) (p_ra p) (p_sp p) (p_ofile p) (p_cwd p) (p_name p) (p_threads p) (p_last p) (p_running p) (p_usage p) (p_deadline p).
Definition set_parent (p : proc) (x : option nat) : proc :=
  mkProc (p_state p) (p_chan p) (p_killed p) (p_xstate p) (p_pid p) x (p_kstack p) (p_sz p) (p_pagetable p) (p_trapframe p) (p_ra p) (p_sp p) (p_ofile p) (p_cwd p) (p_name p) (p_threads p) (p_last p) (p_running p) (p_usage p) (p_deadline p).
Definition set_kstack (p : proc) (x : Z) : proc :=
  mkProc (p_state p) (p_chan p) (p_killed p) (p_xstate p) (p_pid p) (p_parent p) x (p_sz p) (p_pagetable p) (p_trapframe p) (p_ra p) (p_sp p) (p_ofile p) (p_cwd p) (p_name p) (p_threads p) (p_last p) (p_running p) (p_usage p) (p_deadline p).
Definition set_sz (p : proc) (x : Z) : proc :=
  mkProc (p_state p) (p_chan p) (p_killed p) (p_xstate p) (p_pid p) (p_parent p) (p_kstack p) x (p_pagetable p) (p_trapframe p) (p_ra p) (p_sp p) (p_ofile p) (p_cwd p) (p_name p) (p_threads p) (p_last p) (p_running p) (p_usage p) (p_deadline p).
Definition set_pagetable (p : proc) (x : Z) : proc :=
  mkProc (p_state p) (p_chan p) (p_killed p) (p_xstate p) (p_pid p) (p_parent p) (p_kstack p) (p_sz p) x (p_trapframe p) (p_ra p) (p_sp p) (p_ofile p) (p_cwd p) (p_name p) (p_threads p) (p_last p) (p_running p) (p_usage p) (p_deadline p).
Definition set_trapframe (p : proc) (x : Z) : proc :=
  mkProc (p_state p) (p_chan p) (p_killed p) (p_xstate p) (p_pid p) (p_parent p) (p_kstack p) (p_sz p) (p_pagetable p) x (p_ra p) (p_sp p) (p_ofile p) (p_cwd p) (p_name p) (p_threads p) (p_last p) (p_running p) (p_usage p) (p_deadline p).
Definition set_ra (p : proc) (x : Z) : proc :=
  mkProc (p_state p) (p_chan p) (p_killed p) (p_xstate p) (p_pid p) (p_parent p) (p_kstack p) (p_sz p) (p_pagetable p) (p_trapframe p) x (p_sp p) (p_ofile p) (p_cwd p) (p_name p) (p_threads p) (p_last p) (p_running p) (p_usage p) (p_deadline p).
Definition set_sp (p : proc) (x : Z) : proc :=
  mkProc (p_state p) (p_chan p) (p_killed p) (p_xstate p) (p_pid p) (p_parent p) (p_kstack p) (p_sz p) (p_pagetable p) (p_trapframe p) (p_ra p) x (p_ofile p) (p_cwd p) (p_name p) (p_threads p) (p_last p) (p_running p) (p_usage p) (p_deadline p).
Definition set_ofile (p : proc) (x : list (option nat)) : proc :=
  mkProc (p_state p) (p_chan p) (p_killed p) (p_xstate p) (p_pid p) (p_parent p) (p_kstack p) (p_sz p) (p_pagetable p) (p_trapframe p) (p_ra p) (p_sp p) x (p_cwd p) (p_name p) (p_threads p) (p_last p) (p_running p) (p_usage p) (p_deadline p).
Definition set_cwd (p : proc) (x : option nat) : proc :=
  mkProc (p_state p) (p_chan p) (p_killed p) (p_xstate p) (p_pid p) (p_parent p) (p_kstack p) (p_sz p) (p_pagetable p) (p_trapframe p) (p_ra p) (p_sp p) (p_ofile p) x (p_name p) (p_threads p) (p_last p) (p_running p) (p_usage p) (p_deadline p).
Definition set_name (p : proc) (x : list Z) : proc :=
  mkProc (p_state p) (p_chan p) (p_killed p) (p_xstate p) (p_pid p) (p_parent p) (p_kstack p) (p_sz p) (p_pagetable p) (p_trapframe p) (p_ra p) (p_sp p) (p_ofile p) (p_cwd p) x (p_threads p) (p_last p) (p_running p) (p_usage p) (p_deadline p).
Definition set_threads (p : proc) (x : list thread) : proc :=
  mkProc (p_state p) (p_chan p) (p_killed p) (p_xstate p) (p_pid p) (p_parent p) (p_kstack p) (p_sz p) (p_pagetable p) (p_trapframe p) (p_ra p) (p_sp p) (p_ofile p) (p_cwd p) (p_name p) x (p_last p) (p_running p) (p_usage p) (p_deadline p).
Definition set_last (p : proc) (x : Z) : proc :=
  mkProc (p_state p) (p_chan p) (p_killed p) (p_xstate p) (p_pid p) (p_parent p) (p_kstack p) (p_sz p) (p_pagetable p) (p_trapframe p) (p_ra p) (p_sp p) (p_ofile p) (p_cwd p) (p_name p) (p_threads p) x (p_running p) (p_usage p) (p_deadline p).
Definition set_running (p : proc) (x : Z) : proc :=
  mkProc (p_state p) (p_chan p) (p_killed p) (p_xstate p) (p_pid p) (p_parent p) (p_kstack p) (p_sz p) (p_pagetable p) (p_trapframe p) (p_ra p) (p_sp p) (p_ofile p) (p_cwd p) (p_name p) (p_threads p) (p_last p) x (p_usage p) (p_deadline p).
Definition set_usage (p : proc) (x : cpu_usage) : proc :=
  mkProc (p_state p) (p_chan p) (p_killed p) (p_xstate p) (p_pid p) (p_parent p) (p_kstack p) (p_sz p) (p_pagetable p) (p_trapframe p) (p_ra p) (p_sp p) (p_ofile p) (p_cwd p) (p_name p) (p_threads p) (p_last p) (p_running p) x (p_deadline p).
Definition set_deadline (p : proc) (x : Z) : proc :=
  mkProc (p_state p) (p_chan p) (p_killed p) (p_xstate p) (p_pid p) (p_parent p) (p_kstack p) (p_sz p) (p_pagetable p) (p_trapframe p) (p_ra p) (p_sp p) (p_ofile p) (p_cwd p) (p_name p) (p_threads p) (p_last p) (p_running p) (p_usage p) x.
Definition put_procs (s : psys) (x : list proc) : psys :=
  mkPs x (ps_init s) (ps_nextpid s) (ps_nexttid s) (ps_ticks s) (ps_tf s) (ps_mem s).
Definition put_init (s : psys) (x : option nat) : psys :=
  mkPs (ps_procs s) x (ps_nextpid s) (ps_nexttid s) (ps_ticks s) (ps_tf s) (ps_mem s).
Definition put_nextpid (s : psys) (x : Z) : psys :=
  mkPs (ps_procs s) (ps_init s) x (ps_nexttid s) (ps_ticks s) (ps_tf s) (ps_mem s).
Definition put_nexttid (s : psys) (x : Z) : psys :=
  mkPs (ps_procs s) (ps_init s) (ps_nextpid s) x (ps_ticks s) (ps_tf s) (ps_mem s).
Definition put_ticks (s : psys) (x : Z) : psys :=
  mkPs (ps_procs s) (ps_init s) (ps_nextpid s) (ps_nexttid s) x (ps_tf s) (ps_mem s).
Definition put_tf (s : psys) (x : gmap Z trapframe) : psys :=
  mkPs (ps_procs s) (ps_init s) (ps_nextpid s) (ps_nexttid s) (ps_ticks s) x (ps_mem s).
Definition put_mem (s : psys) (x : kmem) : psys :=
  mkPs (ps_procs s) (ps_init s) (ps_nextpid s) (ps_nexttid s) (ps_ticks s) (ps_tf s) x.

Definition set_sum (p : proc) (x : Z) : proc := set_usage p (mkCu x (start_tick (p_usage p)) (quota (p_usage p))).
Definition set_start (p : proc) (x : Z) : proc := set_usage p (mkCu (sum_of_ticks (p_usage p)) x (quota (p_usage p))).
Definition set_quota (p : proc) (x : Z) : proc := set_usage p (mkCu (sum_of_ticks (p_usage p)) (start_tick (p_usage p)) x).

(** threads[i] after memset *)
Definition thread0 : thread := mkThread THREAD_FREE 0 None 0 0.
Definition threads0 : list thread := replicate max_thread thread0.
Definition proc0 : proc :=
  mkProc UNUSED 0 false 0 0 None 0 0 0 0 0 0 (replicate (Z.to_nat NOFILE) None) None (replicate 16 0) threads0 0 0 (mkCu 0 0 0) 0.

Definition getp (s : psys) (i : nat) : proc := default proc0 (ps_procs s !! i).
Definition modp (s : psys) (i : nat) (f : proc -> proc) : psys := put_procs s (alter f i (ps_procs s)).
Definition getth (p : proc) (i : nat) : thread := default thread0 (p_threads p !! i).
Definition modth (p : proc) (i : nat) (f : thread -> thread) : proc := set_threads p (alter f i (p_threads p)).
Definition get_tf (s : psys) (pa : Z) : trapframe := default [] (ps_tf s !! pa).
Definition mod_tf (s : psys) (pa : Z) (tf : trapframe) : psys := put_tf s (<[pa := tf]> (ps_tf s)).
Definition is_state (p : proc) (st : procstate) : bool := bool_decide (p_state p = st).

(** ** Start *)
Definition procinit (procs : list proc) : list proc :=
  imap (fun i p => set_kstack (set_state p UNUSED) (KSTACK (Z.of_nat i))) procs.

Definition allocpid (s : psys) : Z * psys := (ps_nextpid s, put_nextpid s (s32 (ps_nextpid s + 1))).
Definition alloctid (s : psys) : Z * psys := (ps_nexttid s, put_nexttid s (s32 (ps_nexttid s + 1))).

(** ** Sleeping and waking *)

(** wakeup by the process [me] (none in an interrupt while idle) *)
Definition wakeup_proc (chan : Z) (p : proc) : proc :=
  if is_state p SLEEPING && (p_chan p =? chan) then set_state p RUNNABLE else p.
Definition wakeup (me : option nat) (chan : Z) (s : psys) : psys :=
  put_procs s (imap (fun i p => if bool_decide (me = Some i) then p else wakeup_proc chan p) (ps_procs s)).

(** sleep up to sched(), and after it *)
Definition sleep_enter (chan : Z) (p : proc) : proc := set_state (set_chan p chan) SLEEPING.
Definition sleep_leave (p : proc) : proc := set_chan p 0.

(** ** Killing *)
Definition kill_proc (p : proc) : proc :=
  let p := set_killed p true in
  if is_state p SLEEPING then set_state p RUNNABLE else p.

Definition drop_dead (deadline : Z) (p : proc) : proc :=
  if negb (is_state p UNUSED) && negb (is_state p ZOMBIE) then
    if negb (p_deadline p =? u32 (-1)) && (p_deadline p <=? deadline) then kill_proc p else p
  else p.
Definition drop_dead_processes (deadline : Z) (s : psys) : psys := put_procs s (drop_dead deadline <$> ps_procs s).

Definition kill (pid : Z) (s : psys) : Z * psys :=
  match find_index (fun p => p_pid p =? pid) (ps_procs s) with
  | Some i => (0, modp s i kill_proc)
  | None => (-1, s)
  end.
Definition setkilled (i : nat) (s : psys) : psys := modp s i (fun p => set_killed p true).
Definition killed (i : nat) (s : psys) : bool := p_killed (getp s i).

Definition cpu_usage_of (i : nat) (s : psys) : Z := s32 (sum_of_ticks (p_usage (getp s i))).
