(* ===== verification/Sleepwake.v ===== *)
(** * sleep and wakeup: kernel/proc.c, access by access

    Processes wait for conditions and make them true, the way every caller of
    sleep and wakeup in the kernel does:

    <<
      acquire(lk); while(!cond) sleep(chan, lk); cond = 0; release(lk);
      acquire(lk); cond = 1; wakeup(chan); release(lk);
    >>

    Each condition has its lock and its channel.  A step is one acquire, one
    release or one access to a shared variable of one process, and the steps
    interleave arbitrarily.  p->lock of a sleeper is released by the scheduler
    it switches to and taken again by the scheduler that resumes it.  Proved:
    no wakeup is lost, and sleepers and wakers never block each other for
    good. *)

From stdpp Require Import relations.
From S2P Require Import Prelude Proc.

(** Where a process is, with the condition it works on *)
Inductive place :=
| Idle                        (* outside *)
| Acq (c : nat)               (* waiter: about to acquire lk, at first or at the end of sleep *)
| Test (c : nat)              (* waiter: about to test the condition *)
| Done (c : nat)              (* waiter: has consumed the condition, about to release lk *)
| SlAcq (c : nat)             (* sleep: about to acquire p->lock *)
| SlRel (c : nat)             (* sleep: about to release lk *)
| SlChan (c : nat)            (* sleep: about to set p->chan *)
| SlState (c : nat)           (* sleep: about to set p->state *)
| SlSched (c : nat)           (* sleep: in sched, the scheduler about to release p->lock *)
| Asleep (c : nat)            (* sleep: switched out *)
| SlTidy (c : nat)            (* sleep: resumed, about to clear p->chan *)
| SlUnlock (c : nat)          (* sleep: about to release p->lock *)
| WkAcq (c : nat)             (* waker: about to acquire lk *)
| WkSet (c : nat)             (* waker: about to make the condition true *)
| WkScan (c i : nat)          (* wakeup: at the head of the loop for process i *)
| WkCheck (c i : nat)         (* wakeup: holds the lock of process i, about to look at it *)
| WkRelease (c i : nat).      (* wakeup: about to release the lock of process i *)

Record sys := mkSys {
  lk : nat -> option nat;      (* holder of the lock of a condition *)
  cond : nat -> bool;
  plk : nat -> option nat;     (* holder of p->lock *)
  pst : nat -> procstate;      (* p->state *)
  pch : nat -> option nat;     (* p->chan *)
  pcs : nat -> place;
}.
Definition set_at {A} (f : nat -> A) (i : nat) (v : A) (j : nat) : A := if decide (j = i) then v else f j.
Definition set_pc (t : nat) (p : place) (s : sys) : sys := mkSys (lk s) (cond s) (plk s) (pst s) (pch s) (set_at (pcs s) t p).
Definition set_lk (c : nat) (h : option nat) (s : sys) : sys := mkSys (set_at (lk s) c h) (cond s) (plk s) (pst s) (pch s) (pcs s).
Definition set_cond (c : nat) (b : bool) (s : sys) : sys := mkSys (lk s) (set_at (cond s) c b) (plk s) (pst s) (pch s) (pcs s).
Definition set_plk (i : nat) (h : option nat) (s : sys) : sys := mkSys (lk s) (cond s) (set_at (plk s) i h) (pst s) (pch s) (pcs s).
Definition set_pst (i : nat) (x : procstate) (s : sys) : sys := mkSys (lk s) (cond s) (plk s) (set_at (pst s) i x) (pch s) (pcs s).
Definition set_pch (i : nat) (c : option nat) (s : sys) : sys := mkSys (lk s) (cond s) (plk s) (pst s) (set_at (pch s) i c) (pcs s).

Section table.
(** NPROC *)
Context (nproc : nat).

(** sleep: the next access of process [t] inside it *)
Definition sleep_next (t c : nat) (p : place) (s : sys) : option sys :=
  match p with
  | SlAcq _ => match plk s t with None => Some (set_pc t (SlRel c) (set_plk t (Some t) s)) | Some _ => None end
  | SlRel _ => Some (set_pc t (SlChan c) (set_lk c None s))
  | SlChan _ => Some (set_pc t (SlState c) (set_pch t (Some c) s))
  | SlState _ => Some (set_pc t (SlSched c) (set_pst t SLEEPING s))
  | SlSched _ => Some (set_pc t (Asleep c) (set_plk t None s))
  | Asleep _ =>
      match pst s t, plk s t with
      | RUNNABLE, None => Some (set_pc t (SlTidy c) (set_pst t RUNNING (set_plk t (Some t) s)))
      | _, _ => None
      end
  | SlTidy _ => Some (set_pc t (SlUnlock c) (set_pch t None s))
  | SlUnlock _ => Some (set_pc t (Acq c) (set_plk t None s))
  | _ => None
  end.

(** wakeup(c) by process [t]: the loop skips t itself, and ends behind the
    table, where its caller releases lk. *)
Definition wakeup_next (t c : nat) (p : place) (s : sys) : option sys :=
  match p with
  | WkScan _ i =>
      if decide (i < nproc)%nat then
        if decide (i = t) then Some (set_pc t (WkScan c (S i)) s)
        else match plk s i with None => Some (set_pc t (WkCheck c i) (set_plk i (Some t) s)) | Some _ => None end
      else Some (set_pc t Idle (set_lk c None s))
  | WkCheck _ i =>
      Some (set_pc t (WkRelease c i) (if decide (pst s i = SLEEPING /\ pch s i = Some c) then set_pst i RUNNABLE s else s))
  | WkRelease _ i => Some (set_pc t (WkScan c (S i)) (set_plk i None s))
  | _ => None
  end.

(** The next access of process [t]; [None]: it is blocked, or idle. *)
Definition advance (t : nat) (s : sys) : option sys :=
  match pcs s t with
  | Idle => None
  | Acq c => match lk s c with None => Some (set_pc t (Test c) (set_lk c (Some t) s)) | Some _ => None end
  | Test c => if cond s c then Some (set_pc t (Done c) (set_cond c false s)) else Some (set_pc t (SlAcq c) s)
  | Done c => Some (set_pc t Idle (set_lk c None s))
  | WkAcq c => match lk s c with None => Some (set_pc t (WkSet c) (set_lk c (Some t) s)) | Some _ => None end
  | WkSet c => Some (set_pc t (WkScan c 0) (set_cond c true s))
  | (WkScan c _ | WkCheck c _ | WkRelease c _) as p => wakeup_next t c p s
  | (SlAcq c | SlRel c | SlChan c | SlState c | SlSched c | Asleep c | SlTidy c | SlUnlock c) as p => sleep_next t c p s
  end.

Inductive step (s : sys) : sys -> Prop :=
  | st_next t s' : (t < nproc)%nat -> advance t s = Some s' -> step s s'
  | st_wait t c : (t < nproc)%nat -> pcs s t = Idle -> step s (set_pc t (Acq c) s)
  | st_wake t c : (t < nproc)%nat -> pcs s t = Idle -> step s (set_pc t (WkAcq c) s)
  (* kill wakes a sleeper whatever it waits for *)
  | st_kill i : plk s i = None -> pst s i = SLEEPING -> step s (set_pst i RUNNABLE s).

Definition quiet : sys := mkSys (fun _ => None) (fun _ => false) (fun _ => None) (fun _ => RUNNING) (fun _ => None) (fun _ => Idle).

(** ** Invariant *)
Definition holds_lk (p : place) : option nat :=
  match p with
  | Test c | Done c | SlAcq c | SlRel c | WkSet c | WkScan c _ | WkCheck c _ | WkRelease c _ => Some c
  | _ => None
  end.
Definition holds_plk (t : nat) (p : place) : option nat :=
  match p with
  | SlRel _ | SlChan _ | SlState _ | SlSched _ | SlTidy _ | SlUnlock _ => Some t
  | WkCheck _ i | WkRelease _ i => Some i
  | _ => None
  end.
(** The states of p->state, and the channel, at each place *)
Definition pst_ok (p : place) (x : procstate) : Prop :=
  match p with
  | SlSched _ => x = SLEEPING
  | Asleep _ => x = SLEEPING \/ x = RUNNABLE
  | _ => x = RUNNING
  end.
Definition pch_ok (p : place) (x : option nat) : Prop :=
  match p with SlState c | SlSched c | Asleep c => x = Some c | _ => True end.
(** Has found the condition false and still has to be woken *)
Definition waits (p : place) (x : procstate) (c : nat) : Prop :=
  match p with
  | SlChan c' | SlState c' | SlSched c' => c' = c
  | Asleep c' => c' = c /\ x = SLEEPING
  | _ => False
  end.
(** A wakeup of [c] that has not passed process [j] *)
Definition coming (p : place) (c j : nat) : Prop :=
  match p with
  | WkScan c' i | WkCheck c' i => c' = c /\ (i <= j)%nat
  | WkRelease c' i => c' = c /\ (i < j)%nat
  | _ => False
  end.

Record inv (s : sys) : Prop := {
  i_lk : forall c t, lk s c = Some t <-> holds_lk (pcs s t) = Some c;
  i_plk : forall i t, plk s i = Some t <-> holds_plk t (pcs s t) = Some i;
  i_pst : forall t, pst_ok (pcs s t) (pst s t);
  i_pch : forall t, pch_ok (pcs s t) (pch s t);
  i_in : forall t, (nproc <= t)%nat -> pcs s t = Idle;
  i_false : forall t c, (pcs s t = SlAcq c \/ pcs s t = SlRel c) -> cond s c = false;
  i_wake : forall j c, waits (pcs s j) (pst s j) c -> cond s c = true -> exists w, coming (pcs s w) c j;
}.

(** A lock table and who is where agree. *)
Definition agree (l : nat -> option nat) (f : nat -> option nat) : Prop := forall c t, l c = Some t <-> f t = Some c.
Lemma held_keep l f g t x : agree l f -> x = f t -> (forall u, g u = set_at f t x u) -> agree l g.
Proof. intros H -> Hg c u. rewrite (H c u), Hg. unfold set_at. by case_decide; subst. Qed.
Lemma held_take l f g t c : agree l f -> l c = None -> f t = None -> (forall u, g u = set_at f t (Some c) u) -> agree (set_at l c (Some t)) g.
Proof.
  intros H Hc Ht Hg d u. rewrite Hg. unfold set_at. pose proof (H c u). pose proof (H d t). pose proof (H d u).
  repeat case_decide; subst; split; intros; simplify_eq; try tauto; try congruence; exfalso; naive_solver congruence.
Qed.
Lemma held_drop l f g t c : agree l f -> f t = Some c -> (forall u, g u = set_at f t None u) -> agree (set_at l c None) g.
Proof.
  intros H Ht Hg d u. rewrite Hg. unfold set_at. pose proof (H c u). pose proof (H d t). pose proof (H d u). pose proof (H c t).
  repeat case_decide; subst; split; intros; simplify_eq; try tauto; try congruence; exfalso; naive_solver congruence.
Qed.

Lemma upd_holds_lk f t p u : holds_lk (set_at f t p u) = set_at (fun u => holds_lk (f u)) t (holds_lk p) u.
Proof. unfold set_at. by case_decide. Qed.
Lemma upd_holds_plk f t p u : holds_plk u (set_at f t p u) = set_at (fun u => holds_plk u (f u)) t (holds_plk t p) u.
Proof. unfold set_at. case_decide; by subst. Qed.

(** Process [t] moves to [p]: what it must respect.  The first two say how the
    locks follow, the others what becomes of the rest of the invariant. *)
Lemma inv_move s t p l cd pl ps ch : inv s -> (t < nproc)%nat ->
  agree l (fun u => holds_lk (set_at (pcs s) t p u)) -> agree pl (fun u => holds_plk u (set_at (pcs s) t p u)) ->
  pst_ok p (ps t) -> pch_ok p (ch t) ->
  (forall u, u <> t -> ps u = pst s u \/ (ps u = RUNNABLE /\ exists c, pcs s u = Asleep c)) -> (forall u, u <> t -> ch u = pch s u) ->
  (forall u c, u <> t -> (pcs s u = SlAcq c \/ pcs s u = SlRel c) -> cd c = false) ->
  (forall c, (p = SlAcq c \/ p = SlRel c) -> cd c = false) ->
  (forall j c, j <> t -> waits (pcs s j) (ps j) c -> cd c = true -> exists w, coming (set_at (pcs s) t p w) c j) ->
  (forall c, waits p (ps t) c -> cd c = true -> exists w, coming (set_at (pcs s) t p w) c t) ->
  inv (mkSys l cd pl ps ch (set_at (pcs s) t p)).
Proof.
  intros [H1 H2 H3 H4 H5 H6 H7] Ht Hl Hp Hps Hch Hst Hcn Hf Hf' Hw Hw'. constructor; cbn [lk plk pst pch pcs cond].
  - exact Hl.
  - exact Hp.
  - intros u. destruct (decide (u = t)) as [->|Hu]; unfold set_at; [by rewrite decide_True|rewrite decide_False by done].
    destruct (Hst u Hu) as [->|[-> [c Hc]]]; [apply H3|]. rewrite Hc. by right.
  - intros u. destruct (decide (u = t)) as [->|Hu]; unfold set_at; [by rewrite decide_True|rewrite decide_False by done]. rewrite Hcn by done. apply H4.
  - intros u Hu. unfold set_at. rewrite decide_False by lia. by apply H5.
  - intros u c Hu. destruct (decide (u = t)) as [->|Hut]; unfold set_at in Hu; [rewrite decide_True in Hu by done; by apply Hf'|].
    rewrite decide_False in Hu by done. by apply (Hf u).
  - intros j c Hj Hc. destruct (decide (j = t)) as [->|Hjt]; unfold set_at in Hj at 1; [rewrite decide_True in Hj by done; by apply Hw'|].
    rewrite decide_False in Hj by done. by apply Hw.
Qed.

Lemma lk_keep s t p : inv s -> holds_lk p = holds_lk (pcs s t) -> agree (lk s) (fun u => holds_lk (set_at (pcs s) t p u)).
Proof. intros H E. apply (held_keep _ _ _ t _ (i_lk _ H) E). intros u. apply upd_holds_lk. Qed.
Lemma lk_take s t p c : inv s -> lk s c = None -> holds_lk (pcs s t) = None -> holds_lk p = Some c -> agree (set_at (lk s) c (Some t)) (fun u => holds_lk (set_at (pcs s) t p u)).
Proof. intros H Hc E Hp. apply (held_take _ _ _ t c (i_lk _ H) Hc E). intros u. rewrite <- Hp. apply upd_holds_lk. Qed.
Lemma lk_drop s t p c : inv s -> holds_lk (pcs s t) = Some c -> holds_lk p = None -> agree (set_at (lk s) c None) (fun u => holds_lk (set_at (pcs s) t p u)).
Proof. intros H E Hp. apply (held_drop _ _ _ t c (i_lk _ H) E). intros u. rewrite <- Hp. apply upd_holds_lk. Qed.
Lemma plk_keep s t p : inv s -> holds_plk t p = holds_plk t (pcs s t) -> agree (plk s) (fun u => holds_plk u (set_at (pcs s) t p u)).
Proof. intros H E. apply (held_keep _ _ _ t _ (i_plk _ H) E). intros u. apply upd_holds_plk. Qed.
Lemma plk_take s t p i : inv s -> plk s i = None -> holds_plk t (pcs s t) = None -> holds_plk t p = Some i -> agree (set_at (plk s) i (Some t)) (fun u => holds_plk u (set_at (pcs s) t p u)).
Proof. intros H Hi E Hp. apply (held_take _ _ _ t i (i_plk _ H) Hi E). intros u. rewrite <- Hp. apply upd_holds_plk. Qed.
Lemma plk_drop s t p i : inv s -> holds_plk t (pcs s t) = Some i -> holds_plk t p = None -> agree (set_at (plk s) i None) (fun u => holds_plk u (set_at (pcs s) t p u)).
Proof. intros H E Hp. apply (held_drop _ _ _ t i (i_plk _ H) E). intros u. rewrite <- Hp. apply upd_holds_plk. Qed.

(** A process that is not waking anyone moves: the wakeups in progress stay. *)
Lemma coming_other s t p j c : inv s -> (forall c j, ~ coming (pcs s t) c j) -> waits (pcs s j) (pst s j) c -> cond s c = true ->
  exists w, coming (set_at (pcs s) t p w) c j.
Proof.
  intros H Ht Hw Hc. destruct (i_wake _ H j c Hw Hc) as [w Hk]. exists w. unfold set_at. case_decide; [subst w; by apply Ht in Hk|done].
Qed.
Lemma set_at_eq {A} (f : nat -> A) i v : set_at f i v i = v.
Proof. unfold set_at. by rewrite decide_True. Qed.
Lemma set_at_ne {A} (f : nat -> A) i j v : j <> i -> set_at f i v j = f j.
Proof. intros. unfold set_at. by rewrite decide_False. Qed.
(** Two processes never hold the lock of one condition. *)
Lemma lk_unique s t u c : inv s -> holds_lk (pcs s t) = Some c -> holds_lk (pcs s u) = Some c -> t = u.
Proof. intros H H1 H2. apply (i_lk _ H) in H1, H2. congruence. Qed.
Lemma plk_unique s t u i : inv s -> holds_plk t (pcs s t) = Some i -> holds_plk u (pcs s u) = Some i -> t = u.
Proof. intros H H1 H2. apply (i_plk _ H) in H1, H2. congruence. Qed.

(** What holds of the others when [t], at [p], changes nothing of theirs *)
Ltac others H Hp :=
  match goal with
  | |- forall u, u <> _ -> _ \/ _ => intros u Hu; left; rewrite ?set_at_ne by done; reflexivity
  | |- forall u, u <> _ -> _ = _ => intros u Hu; rewrite ?set_at_ne by done; reflexivity
  | |- forall u c, u <> _ -> _ -> cond _ _ = false => intros u c' Hu HcX; exact (i_false _ H u c' HcX)
  | |- forall j c, j <> _ -> _ -> _ -> exists w, _ =>
      solve [intros j c' Hj; rewrite ?set_at_ne by done; intros HwX HcX; apply coming_other; [done| |done|done]; rewrite Hp; intros ? ? []]
  | |- forall c, (_ \/ _) -> _ => solve [intros c' [|]; done]
  | |- forall c, waits _ _ c -> _ => solve [intros c' []]
  end.

Lemma sleep_next_inv s t c p s' : inv s -> (t < nproc)%nat -> pcs s t = p ->
  match p with SlAcq d | SlRel d | SlChan d | SlState d | SlSched d | Asleep d | SlTidy d | SlUnlock d => d = c | _ => False end ->
  sleep_next t c p s = Some s' -> inv s'.
Proof.
  intros H Ht Hp Hc E. pose proof (i_pst _ H t) as Hps. pose proof (i_pch _ H t) as Hch. rewrite Hp in Hps, Hch.
  destruct p as [|d|d|d|d|d|d|d|d|d|d|d|d|d|d i|d i|d i]; try done; subst d; cbn [sleep_next] in E.
  - destruct (plk s t) eqn:Ek; [done|]. simplify_eq. apply (inv_move s); cbn [lk cond plk pst pch set_lk set_cond set_plk set_pst set_pch]; try done; try (others H Hp).
    + apply lk_keep; [done|by rewrite Hp].
    + apply plk_take; [done|done|by rewrite Hp|done].
    + intros d [?|[= <-]]; [done|]. apply (i_false _ H t c). by left.
  - simplify_eq. apply (inv_move s); cbn [lk cond plk pst pch set_lk set_cond set_plk set_pst set_pch]; try done; try (others H Hp).
    + apply lk_drop; [done|by rewrite Hp|done].
    + apply plk_keep; [done|by rewrite Hp].
    + intros d Hd Hcd; cbn [waits] in Hd; subst d. rewrite (i_false _ H t c) in Hcd; [done|by right].
  - simplify_eq. apply (inv_move s); cbn [lk cond plk pst pch set_lk set_cond set_plk set_pst set_pch]; try done; try (others H Hp).
    + apply lk_keep; [done|by rewrite Hp].
    + apply plk_keep; [done|by rewrite Hp].
    + cbn. apply set_at_eq.
    + intros d Hd Hcd; cbn [waits] in Hd; subst d. apply coming_other; [done|rewrite Hp; intros ? ? []|rewrite Hp; exact eq_refl|done].
  - simplify_eq. apply (inv_move s); cbn [lk cond plk pst pch set_lk set_cond set_plk set_pst set_pch]; try done; try (others H Hp).
    + apply lk_keep; [done|by rewrite Hp].
    + apply plk_keep; [done|by rewrite Hp].
    + cbn. apply set_at_eq.
    + intros d Hd Hcd; cbn [waits] in Hd; subst d. apply coming_other; [done|rewrite Hp; intros ? ? []|rewrite Hp; exact eq_refl|done].
  - simplify_eq. apply (inv_move s); cbn [lk cond plk pst pch set_lk set_cond set_plk set_pst set_pch]; try done; try (others H Hp).
    + apply lk_keep; [done|by rewrite Hp].
    + apply plk_drop; [done|by rewrite Hp|done].
    + cbn in *. by left.
    + intros d Hd Hcd; cbn [waits] in Hd; destruct Hd as [? _]; subst d. apply coming_other; [done|rewrite Hp; intros ? ? []|rewrite Hp; exact eq_refl|done].
  - destruct (pst s t) eqn:Es; try done. destruct (plk s t) eqn:Ek; [done|]. simplify_eq. apply (inv_move s); cbn [lk cond plk pst pch set_lk set_cond set_plk set_pst set_pch]; try done; try (others H Hp).
    + apply lk_keep; [done|by rewrite Hp].
    + apply plk_take; [done|done|by rewrite Hp|done].
    + cbn. apply set_at_eq.
  - simplify_eq. apply (inv_move s); cbn [lk cond plk pst pch set_lk set_cond set_plk set_pst set_pch]; try done; try (others H Hp).
    + apply lk_keep; [done|by rewrite Hp].
    + apply plk_keep; [done|by rewrite Hp].
  - simplify_eq. apply (inv_move s); cbn [lk cond plk pst pch set_lk set_cond set_plk set_pst set_pch]; try done; try (others H Hp).
    + apply lk_keep; [done|by rewrite Hp].
    + apply plk_drop; [done|by rewrite Hp|done].
Qed.

(** A waker that holds the lock of [i] finds it asleep, not half way there. *)
Lemma check_finds_asleep s t c i d x : inv s -> pcs s t = WkCheck c i -> waits (pcs s i) x d -> pcs s i = Asleep d /\ x = SLEEPING.
Proof.
  intros H Hp Hw. assert (Ht : holds_plk t (pcs s t) = Some i) by (by rewrite Hp).
  assert (Hno : holds_plk i (pcs s i) <> Some i).
  { intros Hi. pose proof (plk_unique s t i i H Ht Hi) as ->. by rewrite Hp in Hw. }
  destruct (pcs s i) eqn:Hi; cbn [waits holds_plk] in *; try done. by destruct Hw as [-> ->].
Qed.

(** The waker at [p] goes on to [q]: others are still before it. *)
Lemma coming_waker s t q j c : inv s -> (forall d, coming (pcs s t) d j -> coming q d j) -> waits (pcs s j) (pst s j) c -> cond s c = true ->
  exists w, coming (set_at (pcs s) t q w) c j.
Proof.
  intros H Hq Hw Hc. destruct (i_wake _ H j c Hw Hc) as [w Hk]. exists w. unfold set_at. case_decide; [subst w; by apply Hq|done].
Qed.

Lemma check_inv s t c i : inv s -> (t < nproc)%nat -> pcs s t = WkCheck c i ->
  inv (set_pc t (WkRelease c i) (if decide (pst s i = SLEEPING /\ pch s i = Some c) then set_pst i RUNNABLE s else s)).
Proof.
  intros H Ht Hp. pose proof (i_pst _ H t) as Hps. rewrite Hp in Hps. cbn [pst_ok] in Hps.
  assert (Hpast : forall j d x, j <> t -> waits (pcs s j) x d -> (j = i -> x = SLEEPING -> pcs s j = Asleep d -> False) ->
    forall e, coming (pcs s t) e j -> coming (WkRelease c i) e j).
  { intros j d x Hj Hw Hji e. rewrite Hp. cbn [coming]. intros [-> Hle]. split; [done|]. destruct (decide (j = i)) as [->|]; [|lia].
    destruct (check_finds_asleep s t e i d x H Hp Hw) as [Ha ->]. exfalso. by apply Hji. }
  destruct (decide _) as [[Hs Hc]|Hn]; apply (inv_move s); cbn [lk cond plk pst pch set_pst]; try done;
    try (apply lk_keep; [done|by rewrite Hp]); try (apply plk_keep; [done|by rewrite Hp]); try (others H Hp).
  - cbn [pst_ok]. rewrite set_at_ne; [done|]. intros ->. congruence.
  - intros u Hu. unfold set_at. case_decide as Hui; [subst u|by left]. right. split; [done|].
    pose proof (i_pst _ H i) as Hpi. rewrite Hs in Hpi. destruct (pcs s i) as [| | | | | | | |d|d| | | | | | |] eqn:Ei; try done; [|by exists d].
    exfalso. apply Hu. symmetry. apply (plk_unique s t i i H); [by rewrite Hp|by rewrite Ei].
  - intros j d Hj Hw Hcd. assert (Hw' : waits (pcs s j) (pst s j) d).
    { revert Hw. unfold set_at. case_decide as Hji; [subst j|done]. intros Hw. by destruct (check_finds_asleep s t c i d RUNNABLE H Hp Hw). }
    apply coming_waker; try done. eapply Hpast; [done|exact Hw|]. intros ->. by rewrite set_at_eq.
  - intros j d Hj Hw Hcd. destruct (i_wake _ H j d Hw Hcd) as [w Hk]. exists w. unfold set_at. case_decide as Hwt; [subst w|done].
    eapply Hpast; [done|exact Hw| |exact Hk]. intros -> Hs Ha. apply Hn. split; [done|].
    rewrite Hp in Hk. cbn [coming] in Hk. destruct Hk as [<- _]. pose proof (i_pch _ H i) as Hch. by rewrite Ha in Hch.
Qed.

Lemma wakeup_next_inv s t c p s' : inv s -> (t < nproc)%nat -> pcs s t = p ->
  match p with WkScan d _ | WkCheck d _ | WkRelease d _ => d = c | _ => False end ->
  wakeup_next t c p s = Some s' -> inv s'.
Proof.
  intros H Ht Hp Hc E. pose proof (i_pst _ H t) as Hps. rewrite Hp in Hps.
  destruct p as [|d|d|d|d|d|d|d|d|d|d|d|d|d|d i|d i|d i]; try done; subst d; cbn [wakeup_next] in E.
  - destruct (decide (i < nproc)%nat) as [Hi|Hi]; [destruct (decide (i = t)) as [Hit|Hit]; [|destruct (plk s i) eqn:Ek; [done|]]|]; simplify_eq;
      apply (inv_move s); cbn [lk cond plk pst pch set_lk set_plk]; try done; try (apply lk_keep; [done|by rewrite Hp]); try (apply plk_keep; [done|by rewrite Hp]);
      try (others H Hp).
    + intros j d Hj Hw Hcd. apply coming_waker; try done. rewrite Hp. cbn [coming]. intros e [-> Hle]. split; [done|lia].
    + apply plk_take; [done|done|by rewrite Hp|done].
    + intros j d Hj Hw Hcd. apply coming_waker; try done. by rewrite Hp.
    + apply lk_drop; [done|by rewrite Hp|done].
    + intros j d Hj Hw Hcd. apply coming_waker; try done. rewrite Hp. cbn [coming]. intros e [-> Hle].
      rewrite (i_in _ H j) in Hw by lia. done.
  - simplify_eq. by apply check_inv.
  - simplify_eq. apply (inv_move s); cbn [lk cond plk pst pch set_plk]; try done; try (others H Hp).
    + apply lk_keep; [done|by rewrite Hp].
    + apply plk_drop; [done|by rewrite Hp|done].
    + intros j d Hj Hw Hcd. apply coming_waker; try done. rewrite Hp. cbn [coming]. intros e [-> Hle]. split; [done|lia].
Qed.

(** The accesses of the callers: the lock and the condition *)
Lemma next_inv s t s' : inv s -> (t < nproc)%nat -> advance t s = Some s' -> inv s'.
Proof.
  intros H Ht E. unfold advance in E. pose proof (i_pst _ H t) as Hps.
  destruct (pcs s t) as [|c|c|c|c|c|c|c|c|c|c|c|c|c|c i|c i|c i] eqn:Hp; try done;
    try (by eapply sleep_next_inv; [done|done|exact Hp| |exact E]); try (by eapply wakeup_next_inv; [done|done|exact Hp| |exact E]).
  - destruct (lk s c) eqn:El; [done|]. simplify_eq. apply (inv_move s); cbn [lk cond plk pst pch set_lk]; try done; try (others H Hp).
    + apply lk_take; [done|done|by rewrite Hp|done].
    + apply plk_keep; [done|by rewrite Hp].
  - assert (Hl : holds_lk (pcs s t) = Some c) by (by rewrite Hp). destruct (cond s c) eqn:Ec; simplify_eq;
      apply (inv_move s); cbn [lk cond plk pst pch set_cond]; try done; try (apply lk_keep; [done|by rewrite Hp]); try (apply plk_keep; [done|by rewrite Hp]); try (others H Hp).
    + intros u d Hu Hd. unfold set_at. case_decide; [done|]. by apply (i_false _ H u).
    + intros j d Hj Hw. unfold set_at at 1. case_decide; [done|]. intros Hcd. apply coming_other; try done. rewrite Hp. by intros ? ? [].
    + intros d [[= <-]|]; done.
  - simplify_eq. apply (inv_move s); cbn [lk cond plk pst pch set_lk]; try done; try (others H Hp).
    + apply lk_drop; [done|by rewrite Hp|done].
    + apply plk_keep; [done|by rewrite Hp].
  - destruct (lk s c) eqn:El; [done|]. simplify_eq. apply (inv_move s); cbn [lk cond plk pst pch set_lk]; try done; try (others H Hp).
    + apply lk_take; [done|done|by rewrite Hp|done].
    + apply plk_keep; [done|by rewrite Hp].
  - simplify_eq. apply (inv_move s); cbn [lk cond plk pst pch set_cond]; try done; try (others H Hp).
    + apply lk_keep; [done|by rewrite Hp].
    + apply plk_keep; [done|by rewrite Hp].
    + intros u d Hu Hd. unfold set_at. case_decide as Hdc; [subst d|by apply (i_false _ H u)]. exfalso. apply Hu.
      apply (lk_unique s u t c H); [by destruct Hd as [-> | ->]|by rewrite Hp].
    + intros j d Hj Hw. unfold set_at at 1. case_decide as Hdc; [subst d; intros _; exists t; rewrite set_at_eq; cbn; split; [done|lia]|].
      intros Hcd. apply coming_other; try done. rewrite Hp. by intros ? ? [].
Qed.

Lemma step_inv s s' : step s s' -> inv s -> inv s'.
Proof.
  intros Hst H. destruct Hst as [t s' Ht E|t c Ht Hp|t c Ht Hp|i Hk Hs].
  - by eapply next_inv.
  - pose proof (i_pst _ H t) as Hps. rewrite Hp in Hps. apply (inv_move s); try done; try (others H Hp); [apply lk_keep|apply plk_keep]; try done; by rewrite Hp.
  - pose proof (i_pst _ H t) as Hps. rewrite Hp in Hps. apply (inv_move s); try done; try (others H Hp); [apply lk_keep|apply plk_keep]; try done; by rewrite Hp.
  - destruct H as [H1 H2 H3 H4 H5 H6 H7]. constructor; cbn [lk cond plk pst pch pcs set_pst]; try done.
    + intros t. unfold set_at. case_decide as Ht; [subst t|done]. specialize (H3 i). rewrite Hs in H3.
      destruct (pcs s i) eqn:Hp; try done; [|by right]. pose proof (proj2 (H2 i i)) as Hi. rewrite Hp in Hi. rewrite Hi in Hk; done.
    + intros j c Hw. apply H7. revert Hw. unfold set_at. case_decide as Hj; [subst j|done]. destruct (pcs s i); cbn [waits]; try done. by intros [_ ?].
Qed.

Lemma quiet_inv : inv quiet.
Proof. constructor; cbn; try done; intros; naive_solver. Qed.
Lemma reachable_inv s : rtc step quiet s -> inv s.
Proof. intros Hr. remember quiet as s0 eqn:E. assert (H0 : inv s0) by (subst; apply quiet_inv). clear E. induction Hr; eauto using step_inv. Qed.

(** C3: no wakeup is lost.  Whatever the interleaving, a process asleep on the
    channel of a condition that has become true has a wakeup of that channel
    on its way that has not passed it yet; so once wakeup has returned nobody
    sleeps on a true condition. *)
Theorem no_lost_wakeup s j c : rtc step quiet s -> pcs s j = Asleep c -> pst s j = SLEEPING -> cond s c = true ->
  exists w, coming (pcs s w) c j.
Proof. intros Hr Hp Hs Hc. apply (i_wake _ (reachable_inv s Hr) j c); [by rewrite Hp|done]. Qed.

(** Neither sleeps for good nor is idle *)
Definition active (s : sys) (t : nat) : Prop := pcs s t <> Idle /\ ~ (exists c, pcs s t = Asleep c /\ pst s t = SLEEPING).

(** Whoever holds a p->lock can go on. *)
Lemma plk_holder_runs s t i : inv s -> plk s i = Some t -> exists s', advance t s = Some s'.
Proof.
  intros H Hk. apply (i_plk _ H) in Hk. unfold advance. destruct (pcs s t); cbn [holds_plk] in Hk; try done; cbn [sleep_next wakeup_next]; eauto.
Qed.
Lemma moving_in s t s' : inv s -> advance t s = Some s' -> (t < nproc)%nat.
Proof. intros H E. destruct (decide (t < nproc)%nat) as [|Hn]; [done|]. unfold advance in E. by rewrite (i_in _ H t) in E by lia. Qed.
(** ... and whoever holds the lock of a condition goes on, or waits for one who can. *)
Lemma lk_holder_runs s t c : inv s -> lk s c = Some t -> exists u s', advance u s = Some s'.
Proof.
  intros H Hl. apply (i_lk _ H) in Hl. assert (Hn : (exists s', advance t s = Some s') \/ exists i u, plk s i = Some u).
  { unfold advance. destruct (pcs s t); cbn [holds_lk] in Hl; try done; cbn [sleep_next wakeup_next]; eauto.
    - destruct (cond s c0); eauto.
    - destruct (plk s t) eqn:E; eauto.
    - destruct (decide _); [|eauto]. destruct (decide _); [eauto|]. destruct (plk s i) eqn:E; eauto. }
  destruct Hn as [|(i & u & Hu)]; [eauto|]. destruct (plk_holder_runs s u i H Hu); eauto.
Qed.

(** C24: sleep and wakeup cannot deadlock.  As long as some process is inside
    them and not asleep waiting for a wakeup, some process can take its next
    step. *)
Theorem sleep_wakeup_progress s t : rtc step quiet s -> active s t -> exists u s', (u < nproc)%nat /\ advance u s = Some s'.
Proof.
  intros Hr [Hi Ha]. pose proof (reachable_inv s Hr) as H. cut (exists u s', advance u s = Some s').
  { intros (u & s' & E). exists u, s'. split; [by eapply moving_in|done]. }
  destruct (advance t s) as [s'|] eqn:E; [eauto|]. unfold advance in E. destruct (pcs s t) as [|c|c|c|c|c|c|c|c|c|c|c|c|c|c i|c i|c i] eqn:Hp; try done; cbn [sleep_next wakeup_next] in E; try done.
  - destruct (lk s c) eqn:El; [by eapply lk_holder_runs|done].
  - by destruct (cond s c).
  - eapply (lk_holder_runs s t c H), (i_lk _ H). by rewrite Hp.
  - destruct (plk s t) as [h|] eqn:Ek; [destruct (plk_holder_runs s h t H Ek); eauto|]. pose proof (i_pst _ H t) as Hps. rewrite Hp in Hps.
    destruct Hps as [Hps|Hps]; [exfalso; eauto|]. by rewrite Hps in E.
  - destruct (lk s c) eqn:El; [by eapply lk_holder_runs|done].
  - eapply (lk_holder_runs s t c H), (i_lk _ H). by rewrite Hp.
Qed.
End table.

(** ** A run: process 0 goes to sleep, process 1 has made the condition true *)
Fixpoint runs (nproc : nat) (ids : list nat) (s : sys) : option sys :=
  match ids with
  | [] => Some s
  | t :: ids => match advance nproc t s with Some s => runs nproc ids s | None => None end
  end.
Lemma runs_rtc nproc ids s s' : Forall (fun t => (t < nproc)%nat) ids -> runs nproc ids s = Some s' -> rtc (step nproc) s s'.
Proof.
  revert s. induction ids as [|t ids IH]; intros s Hi E; cbn [runs] in E; [simplify_eq; constructor|]. apply Forall_cons in Hi as [Ht Hi].
  destruct (advance nproc t s) as [s1|] eqn:E1; [|done]. eapply rtc_l; [by eapply st_next|]. by apply IH.
Qed.

Definition asleep0 : sys := default quiet (runs 2 (replicate 7 0%nat) (set_pc 0 (Acq 0) quiet)).
Definition waking1 : sys := default quiet (runs 2 [1; 1]%nat (set_pc 1 (WkAcq 0) asleep0)).
Lemma waking1_reachable : rtc (step 2) quiet waking1.
Proof.
  eapply rtc_l; [apply (st_wait _ _ 0 0); [lia|reflexivity]|]. transitivity asleep0.
  { apply (runs_rtc 2 (replicate 7 0%nat)); [cbn; repeat constructor|reflexivity]. }
  eapply rtc_l; [apply (st_wake _ _ 1 0); [lia|reflexivity]|]. apply (runs_rtc 2 [1; 1]%nat); [repeat constructor|reflexivity].
Qed.
Lemma no_lost_wakeup_witness : pcs waking1 0 = Asleep 0 /\ pst waking1 0 = SLEEPING /\ cond waking1 0 = true /\ exists w, coming (pcs waking1 w) 0 0.
Proof.
  split; [reflexivity|]. split; [reflexivity|]. split; [reflexivity|].
  apply (no_lost_wakeup 2 waking1 0 0 waking1_reachable); reflexivity.
Defined.
Lemma sleep_wakeup_progress_witness : active waking1 1 /\ exists u s', (u < 2)%nat /\ advance 2 u waking1 = Some s'.
Proof.
  assert (Ha : active waking1 1) by (split; [discriminate|intros (c & Hc & _); discriminate Hc]).
  split; [exact Ha|]. apply (sleep_wakeup_progress 2 waking1 1 waking1_reachable Ha).
Defined.
