(* ===== verification/Sched.v ===== *)
(** * The schedulers: rr_scheduler, min_cpu_usage_scheduler and sched of kernel/proc.c

    A round of a scheduler is a function of what the processes do while they
    run ([run]): from the switch to a process until it comes back through
    sched, whatever that process and the other harts did. *)

From S2P Require Import Prelude Riscv Mem Cstring Kalloc Vm Sysfile Proc.

Definition INF : Z := 0xFFFFFFFF.
Definition is_thread (t : thread) (st : thread_state) : bool := bool_decide (th_state t = st).

(** The next runnable thread after [next], round robin. *)
Fixpoint pick_thread (k : nat) (next : Z) (ths : list thread) : option Z :=
  match k with
  | O => None
  | S k' =>
      let next := next + 1 in
      let next := if Z.of_nat max_thread <=? next then 0 else next in
      if is_thread (default thread0 (ths !! Z.to_nat next)) THREAD_RUNNABLE then Some next
      else pick_thread k' next ths
  end.

(** What a dispatch leaves on the scheduler's stack: the process, its thread
    if any, tf, and ptf. *)
Record dispatched := mkD { d_proc : nat; d_thread : option nat; d_tf : Z; d_ptf : trapframe }.

(** tf and c->thread, with the thread marked as running on hart [c]. *)
Definition choose_thread (c : Z) (p : proc) : option (Z * option nat * proc) :=
  if is_thread (getth p 0) THREAD_FREE then Some (p_trapframe p, None, p)
  else match pick_thread max_thread (p_last p) (p_threads p) with
       | None => None
       | Some j =>
           let p := modth p (Z.to_nat j) (fun t => tset_cpu (tset_state t THREAD_RUNNING) (Some c)) in
           Some (th_trapframe (getth p (Z.to_nat j)), Some (Z.to_nat j), set_last p j)
       end.

(** From the choice of process [i] to swtch *)
Definition dispatch (c : Z) (i : nat) (s : psys) : option (dispatched * psys) :=
  match choose_thread c (getp s i) with
  | None => None
  | Some (tf, th, p) =>
      let p := set_running (set_state p RUNNING) (p_running p + 1) in
      let ptf := get_tf s (p_trapframe p) in
      let s := if negb (tf =? p_trapframe p) then mod_tf s (p_trapframe p) (get_tf s tf) else s in
      let p := set_start p (ps_ticks s) in
      Some (mkD i th tf ptf, modp s i (fun _ => p))
  end.

(** ... and after swtch *)
Definition dispatch_back (d : dispatched) (s : psys) : psys :=
  let s := modp s (d_proc d) (fun p => set_sum p (u32 (sum_of_ticks (p_usage p) + u32 (ps_ticks s - start_tick (p_usage p))))) in
  let ptf := p_trapframe (getp s (d_proc d)) in
  if negb (d_tf d =? ptf) then mod_tf s ptf (d_ptf d) else s.

(** sched by process [i] running as thread [th], up to swtch; [held], [noff]
    and [intr] are what it checks of p->lock and of the hart. *)
Definition sched (i : nat) (th : option nat) (held : bool) (noff : Z) (intr : bool) (s : psys) : res psys :=
  let p := getp s i in
  if negb held then Panic "sched p->lock"
  else if negb (noff =? 1) then Panic "sched locks"
  else if is_state p RUNNING && (p_running p =? 0) then Panic "sched running"
  else if intr then Panic "sched interruptible"
  else
    let s :=
      match th with
      | Some j =>
          let t := getth p j in
          if negb (is_thread t THREAD_FREE) then
            let s := if negb (th_trapframe t =? p_trapframe p) then mod_tf s (th_trapframe t) (get_tf s (p_trapframe p)) else s in
            let st := if is_thread t THREAD_RUNNING then THREAD_RUNNABLE else th_state t in
            modp s i (fun p => modth p j (fun t => tset_cpu (tset_state t st) None))
          else s
      | None => s
      end in
    Ok (modp s i (fun p => set_running p (p_running p - 1))).

(** yield up to swtch *)
Definition yield (i : nat) (th : option nat) (s : psys) : res psys :=
  sched i th true 1 false (modp s i (fun p => set_state p RUNNABLE)).

(** ** Minimum CPU usage *)

(** The scan: min_cu, min_cu_proc and quota_enable. *)
Record scan := mkScan { sc_min : Z; sc_best : option nat; sc_quota : bool }.

Definition mincu_step (procs : list proc) (x : scan) (i : nat) : scan :=
  let p := default proc0 (procs !! i) in
  let sum := sum_of_ticks (p_usage p) in
  if is_state p RUNNABLE && (sum <? sc_min x) then
    if quota (p_usage p) <=? sum then
      if sc_quota x then x else mkScan sum (Some i) (sc_quota x)
    else mkScan sum (Some i) true
  else if is_state p RUNNABLE && (sum =? sc_min x) then
    match sc_best x with
    | Some j => if p_deadline p <? p_deadline (default proc0 (procs !! j)) then mkScan (sc_min x) (Some i) (sc_quota x) else x
    | None => x
    end
  else x.
Definition mincu_pick (quota_enable : bool) (procs : list proc) : scan :=
  foldl (mincu_step procs) (mkScan INF None quota_enable) (seq 0 (length procs)).

(** One turn of the outer loop: the new quota_enable. *)
Definition mincu_round (c : Z) (run : dispatched -> psys -> psys) (quota_enable : bool) (s : psys) : bool * psys :=
  let x := mincu_pick quota_enable (ps_procs s) in
  match sc_best x with
  | None => (false, s)
  | Some i =>
      match dispatch c i s with
      | None => (false, s)
      | Some (d, s) => (sc_quota x, dispatch_back d (run d s))
      end
  end.

(** ** Round robin: one pass over the table, and whether it ran anything *)
Fixpoint rr_pass (c : Z) (run : dispatched -> psys -> psys) (k i : nat) (found : bool) (s : psys) : bool * psys :=
  match k with
  | O => (found, s)
  | S k' =>
      if is_state (getp s i) RUNNABLE then
        match dispatch c i s with
        | None => rr_pass c run k' (S i) found s
        | Some (d, s) => rr_pass c run k' (S i) true (dispatch_back d (run d s))
        end
      else rr_pass c run k' (S i) found s
  end.
Definition rr_round (c : Z) (run : dispatched -> psys -> psys) (s : psys) : bool * psys :=
  rr_pass c run (length (ps_procs s)) 0 false s.

(** scheduler(): one turn of the loop that sched_type selects *)
Definition scheduler_round (ty : scheduler_type) (c : Z) (run : dispatched -> psys -> psys) (quota_enable : bool) (s : psys) : bool * psys :=
  match ty with
  | RR => (quota_enable, snd (rr_round c run s))
  | MinCU => mincu_round c run quota_enable s
  end.

(** ** Properties of the scan *)
Definition sum (p : proc) : Z := sum_of_ticks (p_usage p).
Definition ready (p : proc) : Prop := p_state p = RUNNABLE /\ 0 <= sum p < INF.
Definition in_quota (p : proc) : Prop := sum p < quota (p_usage p).
Definition procs_ok (procs : list proc) : Prop := forall i p, procs !! i = Some p -> p_state p = RUNNABLE -> 0 <= sum p < INF.

(** After the first [n] entries, from a scan that began with [q0]. *)
Record scan_ok (q0 : bool) (procs : list proc) (n : nat) (x : scan) : Prop := {
  sk_none : sc_best x = None -> sc_min x = INF /\ sc_quota x = q0;
  sk_some : forall i, sc_best x = Some i -> (i < n)%nat /\ exists p, procs !! i = Some p /\ p_state p = RUNNABLE /\ sum p = sc_min x;
  sk_min : sc_min x <= INF;
  sk_quota : forall j p, (j < n)%nat -> procs !! j = Some p -> ready p -> in_quota p -> sc_min x <= sum p;
  sk_any : sc_quota x = false -> forall j p, (j < n)%nat -> procs !! j = Some p -> ready p -> sc_min x <= sum p;
  sk_from : q0 = true -> forall i, sc_best x = Some i -> exists j p, (j < n)%nat /\ procs !! j = Some p /\ ready p /\ in_quota p /\ sum p = sc_min x;
  sk_on : q0 = true -> sc_quota x = true;
  sk_flip : sc_quota x = true -> q0 = true \/ exists j p, (j < n)%nat /\ procs !! j = Some p /\ ready p /\ in_quota p;
}.

Lemma below_S {A} (procs : list A) n (P : nat -> A -> Prop) x :
  procs !! n = Some x -> P n x -> (forall j p, (j < n)%nat -> procs !! j = Some p -> P j p) ->
  forall j p, (j < S n)%nat -> procs !! j = Some p -> P j p.
Proof. intros Hx HP Hlt j p Hj Hp. destruct (decide (j = n)) as [->|]; [by simplify_eq|apply Hlt; [lia|done]]. Qed.

(** An entry that does not change the scan *)
Lemma scan_keep q0 procs n x p :
  procs !! n = Some p -> scan_ok q0 procs n x ->
  (ready p -> in_quota p -> sc_min x <= sum p) -> (sc_quota x = false -> ready p -> sc_min x <= sum p) ->
  scan_ok q0 procs (S n) x.
Proof.
  intros Hp [H1 H2 H3 H4 H5 H6 H7 H8] Hq Ha. split; auto.
  - intros i Hi. destruct (H2 i Hi) as [? ?]. split; [lia|done].
  - by eapply (below_S procs n (fun _ p => ready p -> in_quota p -> sc_min x <= sum p)).
  - intros E. eapply (below_S procs n (fun _ p => ready p -> sc_min x <= sum p)); eauto.
  - intros E i Hi. destruct (H6 E i Hi) as (j & p' & ? & ?). exists j, p'. split; [lia|done].
  - intros E. destruct (H8 E) as [?|(j & p' & ? & ?)]; [by left|right]. exists j, p'. split; [lia|done].
Qed.

(** An entry that becomes the choice *)
Lemma scan_take q0 procs n x p q :
  procs !! n = Some p -> scan_ok q0 procs n x -> ready p -> sum p < sc_min x ->
  (in_quota p /\ q = true \/ ~ in_quota p /\ sc_quota x = false /\ q = false) ->
  scan_ok q0 procs (S n) (mkScan (sum p) (Some n) q).
Proof.
  intros Hp [H1 H2 H3 H4 H5 H6 H7 H8] Hr Hlt Hq. split; cbn [sc_min sc_best sc_quota]; try done.
  - intros i [= <-]. split; [lia|]. exists p. split; [done|]. split; [apply Hr|done].
  - destruct Hr. lia.
  - eapply (below_S procs n (fun _ p' => ready p' -> in_quota p' -> sum p <= sum p')); [done|lia|].
    intros j p' Hj Hl Hr' Hi. specialize (H4 j p' Hj Hl Hr' Hi). lia.
  - intros ->. destruct Hq as [[_ ?]|(_ & Hf & _)]; [done|].
    eapply (below_S procs n (fun _ p' => ready p' -> sum p <= sum p')); [done|lia|].
    intros j p' Hj Hl Hr'. specialize (H5 Hf j p' Hj Hl Hr'). lia.
  - intros E i _. destruct Hq as [[Hq _]|(_ & Hf & _)]; [|rewrite (H7 E) in Hf; done]. exists n, p. split; [lia|done].
  - intros E. destruct Hq as [[_ ->]|(_ & Hf & _)]; [done|rewrite (H7 E) in Hf; done].
  - intros ->. destruct Hq as [[Hq _]|(_ & _ & ?)]; [|done]. right. exists n, p. split; [lia|done].
Qed.

(** An entry that wins a tie *)
Lemma scan_tie q0 procs n x p j :
  procs !! n = Some p -> scan_ok q0 procs n x -> p_state p = RUNNABLE -> sum p = sc_min x -> sc_best x = Some j ->
  scan_ok q0 procs (S n) (mkScan (sc_min x) (Some n) (sc_quota x)).
Proof.
  intros Hp Hx Hr Hs Hb. pose proof (scan_keep q0 procs n x p Hp Hx ltac:(lia) ltac:(lia)) as [H1 H2 H3 H4 H5 H6 H7 H8].
  split; cbn [sc_min sc_best sc_quota]; auto; try done.
  - intros i [= <-]. split; [lia|]. exists p. done.
  - intros E i _. by apply (H6 E j).
Qed.

Lemma scan_step q0 procs n x p :
  procs_ok procs -> procs !! n = Some p -> scan_ok q0 procs n x -> scan_ok q0 procs (S n) (mincu_step procs x n).
Proof.
  intros Hok Hp Hx. unfold mincu_step. rewrite Hp. cbn [default from_option id]. fold (sum p).
  unfold is_state. destruct (bool_decide_reflect (p_state p = RUNNABLE)) as [Hr|Hr]; cbn [andb].
  2:{ eapply scan_keep; eauto; intros; exfalso; apply Hr; apply H || apply H0. }
  assert (Hrd : ready p) by (split; eauto).
  destruct (Z.ltb_spec (sum p) (sc_min x)).
  - destruct (Z.leb_spec (quota (p_usage p)) (sum p)) as [Hq|Hq].
    + destruct (sc_quota x) eqn:Eq.
      * eapply scan_keep; eauto; [|congruence]. unfold in_quota. lia.
      * eapply scan_take; eauto. right. split_and!; auto. unfold in_quota. lia.
    + eapply scan_take; eauto.
  - destruct (Z.eqb_spec (sum p) (sc_min x)) as [E|].
    + destruct (sc_best x) as [j|] eqn:Eb; [destruct (_ <? _)|]; [by eapply scan_tie| |]; eapply scan_keep; eauto; lia.
    + eapply scan_keep; eauto; lia.
Qed.

Lemma scan_start q0 procs : scan_ok q0 procs 0 (mkScan INF None q0).
Proof. split; cbn; try done; intros; try lia. by left. Qed.

Lemma mincu_pick_ok q0 procs : procs_ok procs -> scan_ok q0 procs (length procs) (mincu_pick q0 procs).
Proof.
  intros Hok. unfold mincu_pick.
  assert (G : forall k n x, (n + k = length procs)%nat -> scan_ok q0 procs n x ->
                scan_ok q0 procs (length procs) (foldl (mincu_step procs) x (seq n k))).
  { induction k as [|k IH]; intros n x Hn Hx; cbn [seq foldl].
    - by replace (length procs) with n by lia.
    - destruct (lookup_lt_is_Some_2 procs n) as [p Hp]; [lia|]. apply IH; [lia|]. by eapply scan_step. }
  apply G; [done|apply scan_start].
Qed.

(** C33: the minimum CPU usage scheduler.  With quotas enforced, a process is
    chosen exactly when some runnable process is below its quota; the chosen
    one is runnable and has used no more CPU than any runnable process below
    its quota.  With quotas lifted, a process is chosen exactly when one is
    runnable, and when none is below its quota the chosen one has used the
    least of all. *)
Theorem mincu_choice procs :
  procs_ok procs ->
  (forall q, match sc_best (mincu_pick q procs) with
   | Some i => exists p, procs !! i = Some p /\ p_state p = RUNNABLE /\
       (forall j p', procs !! j = Some p' -> ready p' -> in_quota p' -> sum p <= sum p') /\
       (q = false -> (forall j p', procs !! j = Some p' -> ready p' -> ~ in_quota p') ->
        forall j p', procs !! j = Some p' -> ready p' -> sum p <= sum p')
   | None => forall j p', procs !! j = Some p' -> ready p' -> q = true /\ ~ in_quota p'
   end) /\
  (is_Some (sc_best (mincu_pick true procs)) <-> exists j p, procs !! j = Some p /\ ready p /\ in_quota p).
Proof.
  intros Hok. assert (Hlt : forall j (p : proc), procs !! j = Some p -> (j < length procs)%nat) by (intros; by eapply lookup_lt_Some).
  split.
  - intros q. pose proof (mincu_pick_ok q procs Hok) as [H1 H2 H3 H4 H5 H6 H7 H8].
    destruct (sc_best (mincu_pick q procs)) as [i|] eqn:E.
    + destruct (H2 i eq_refl) as (_ & p & Hp & Hr & Hs). exists p. split_and!; auto; rewrite Hs; [eauto|].
      intros -> Hno j p' Hj Hr'. apply (H5) with (j := j); eauto.
      destruct (sc_quota (mincu_pick false procs)); [|done]. destruct (H8 eq_refl) as [?|(j' & p1 & ? & ? & ? & ?)]; [done|].
      exfalso. by eapply Hno.
    + destruct (H1 eq_refl) as [Hm Hq]. intros j p' Hj Hr. destruct q.
      * split; [done|]. intros Hi. specialize (H4 j p' (Hlt _ _ Hj) Hj Hr Hi). destruct Hr. lia.
      * specialize (H5 Hq j p' (Hlt _ _ Hj) Hj Hr). destruct Hr. lia.
  - pose proof (mincu_pick_ok true procs Hok) as [H1 H2 H3 H4 H5 H6 H7 H8]. split.
    + intros [i Hi]. destruct (H6 eq_refl i Hi) as (j & p & _ & ? & ? & ? & _). eauto.
    + intros (j & p & Hj & Hr & Hi). destruct (sc_best (mincu_pick true procs)); [done|].
      destruct (H1 eq_refl) as [Hm _]. specialize (H4 j p (Hlt _ _ Hj) Hj Hr Hi). destruct Hr. lia.
Qed.

(** A process with the given usage, quota and deadline *)
Definition demo_proc (u q dl : Z) : proc := set_deadline (set_usage (set_state proc0 RUNNABLE) (mkCu u 0 q)) dl.

Lemma mincu_choice_witness :
  sc_best (mincu_pick true [demo_proc 9 0 5; demo_proc 7 10 5; demo_proc 8 20 5]) = Some 1%nat /\
  exists j p, [demo_proc 9 0 5; demo_proc 7 10 5; demo_proc 8 20 5] !! j = Some p /\ ready p /\ in_quota p.
Proof.
  split; [reflexivity|].
  destruct (mincu_choice [demo_proc 9 0 5; demo_proc 7 10 5; demo_proc 8 20 5]) as [_ H].
  - intros [|[|[|i]]] p Hp _; try discriminate; injection Hp as <-; zcompute.
  - apply H. exists 1%nat. reflexivity.
Defined.

(** A tie is settled by deadline without looking at the quota: with quotas
    enforced and a runnable process below its quota in the table, the scan can
    choose one that has used up its quota. *)
Theorem mincu_tie_ignores_quota :
  exists procs i p, procs_ok procs /\ sc_best (mincu_pick true procs) = Some i /\ procs !! i = Some p /\ ~ in_quota p /\
    exists j p', procs !! j = Some p' /\ ready p' /\ in_quota p'.
Proof.
  exists [demo_proc 5 10 50; demo_proc 5 3 40], 1%nat, (demo_proc 5 3 40). split_and!.
  - intros [|[|i]] p Hp _; try discriminate; injection Hp as <-; zcompute.
  - reflexivity.
  - reflexivity.
  - unfold in_quota. cbn. lia.
  - exists 0%nat, (demo_proc 5 10 50). repeat split; zcompute.
Qed.

(** ** Threads *)

(** The order in which threads are tried after [last]. *)
Definition after (last : Z) (k : nat) : Z := (last + 1 + Z.of_nat k) mod Z.of_nat max_thread.

Lemma pick_thread_after k last ths :
  0 <= last < Z.of_nat max_thread ->
  pick_thread k last ths =
  (fun d => after last d) <$> find_index (fun j => is_thread (default thread0 (ths !! Z.to_nat j)) THREAD_RUNNABLE) (after last <$> seq 0 k).
Proof.
  revert last. induction k as [|k IH]; intros last Hl; [done|]. cbn [pick_thread].
  assert (E : (if Z.of_nat max_thread <=? last + 1 then 0 else last + 1) = after last 0).
  { unfold after. change (Z.of_nat max_thread) with 4 in *. bcase; zsolve. }
  rewrite E. cbn [seq fmap list_fmap find_index]. destruct (is_thread _ _); [done|].
  rewrite IH by (unfold after; apply Z.mod_pos_bound; done).
  assert (Es : after (after last 0) <$> seq 0 k = after last <$> seq 1 k).
  { rewrite <- (fmap_S_seq 0 k), <- list_fmap_compose. apply list_fmap_ext. intros _ d _. unfold compose, after.
    change (Z.of_nat max_thread) with 4. zsolve. }
  rewrite Es. destruct (find_index _ _) as [d|]; [|done]. cbn. f_equal. unfold after. change (Z.of_nat max_thread) with 4. zsolve.
Qed.

(** Within a process the threads run round robin: the one chosen is
    runnable and no thread between the last one run and it, going round, is;
    and some thread is chosen whenever one is runnable. *)
Theorem thread_round_robin last ths :
  0 <= last < Z.of_nat max_thread -> length ths = max_thread ->
  match pick_thread max_thread last ths with
  | Some j => exists d, (d < max_thread)%nat /\ j = after last d /\ is_thread (default thread0 (ths !! Z.to_nat j)) THREAD_RUNNABLE = true /\
      forall d', (d' < d)%nat -> is_thread (default thread0 (ths !! Z.to_nat (after last d'))) THREAD_RUNNABLE = false
  | None => forall j t, ths !! j = Some t -> th_state t <> THREAD_RUNNABLE
  end.
Proof.
  intros Hl Hlen. rewrite pick_thread_after by done. destruct (find_index _ _) as [d|] eqn:E; cbn [fmap option_fmap option_map].
  - apply find_index_Some in E as [(j & Hj & Hr) Hb]. rewrite list_lookup_fmap in Hj. apply fmap_Some in Hj as (d1 & Hd1 & ->).
    apply lookup_seq in Hd1 as [-> Hlt]. cbn [Nat.add] in *. exists d. split_and!; auto.
    intros d' Hd'. apply (Hb d'); [done|]. rewrite list_lookup_fmap, lookup_seq_lt by lia. done.
  - apply find_index_None in E. intros j t Hj Ht. rewrite Forall_forall in E.
    pose proof (lookup_lt_Some _ _ _ Hj) as Hj4. rewrite Hlen in Hj4. change max_thread with 4%nat in Hj4.
    assert (Hin : Z.of_nat j ∈ after last <$> seq 0 max_thread).
    { apply list_elem_of_fmap. exists (Z.to_nat ((Z.of_nat j - last - 1) mod 4)).
      pose proof (Z.mod_pos_bound (Z.of_nat j - last - 1) 4 ltac:(lia)). split; [|apply elem_of_seq; change max_thread with 4%nat; lia].
      unfold after. rewrite Z2Nat.id by lia. change (Z.of_nat max_thread) with 4. zsolve. }
    apply E in Hin. rewrite Nat2Z.id, Hj in Hin. unfold is_thread in Hin. cbn in Hin. by rewrite bool_decide_true in Hin.
Qed.

Lemma thread_round_robin_witness :
  exists j, pick_thread max_thread 2 (replicate 2 (tset_state thread0 THREAD_RUNNABLE) ++ replicate 2 thread0) = Some j /\ j = 0.
Proof.
  pose proof (thread_round_robin 2 (replicate 2 (tset_state thread0 THREAD_RUNNABLE) ++ replicate 2 thread0) ltac:(zcompute) eq_refl) as H.
  exists 0. split; [reflexivity|]. vm_compute in H. destruct H as (d & _ & H & _). reflexivity.
Defined.

(** A process that is runnable but has no runnable thread (each waits to
    join another) and that the scan chooses with quotas lifted is chosen for
    ever: a round changes nothing, so no other process ever runs on that hart. *)
Theorem mincu_joined_starves c run s i n :
  sc_best (mincu_pick false (ps_procs s)) = Some i -> th_state (getth (getp s i) 0) <> THREAD_FREE ->
  pick_thread max_thread (p_last (getp s i)) (p_threads (getp s i)) = None ->
  Nat.iter n (fun x => mincu_round c run x.1 x.2) (false, s) = (false, s).
Proof.
  intros Hi Hf Hp. induction n as [|n IH]; [done|]. cbn [Nat.iter nat_rect]. unfold Nat.iter in IH. rewrite IH. cbn [fst snd].
  unfold mincu_round. rewrite Hi. unfold dispatch, choose_thread, is_thread. rewrite bool_decide_false by done. by rewrite Hp.
Qed.

(** Threads 0 and 1 wait for each other; the other process could run. *)
Definition demo_joined : psys :=
  mkPs [set_threads (demo_proc 1 0 9) [mkThread THREAD_JOINED 0 None 1 2; mkThread THREAD_JOINED 0 None 2 1; thread0; thread0]; demo_proc 5 0 9]
    None 1 3 0 ∅ (mkKmem ∅ 0).

Lemma mincu_joined_starves_witness :
  Nat.iter 100 (fun x => mincu_round 0 (fun _ s => s) x.1 x.2) (false, demo_joined) = (false, demo_joined).
Proof. apply (mincu_joined_starves 0 _ demo_joined 0%nat); [reflexivity|discriminate|reflexivity]. Defined.

(** C34: switching threads preserves registers.  When a thread other than the
    main one gives up the hart, sched keeps the process's trapframe in the
    thread's; whatever happens to the other trapframes in between, the next
    dispatch of that thread brings those registers back; and when the
    scheduler gets control back, the trapframe of the process is again what it
    was before the dispatch. *)
Theorem thread_registers_preserved i j c noff s s1 s2 s3 d :
  (i < length (ps_procs s2))%nat -> th_trapframe (getth (getp s i) j) <> p_trapframe (getp s i) ->
  th_state (getth (getp s i) j) <> THREAD_FREE -> sched i (Some j) true noff false s = Ok s1 ->
  get_tf s2 (th_trapframe (getth (getp s i) j)) = get_tf s1 (th_trapframe (getth (getp s i) j)) ->
  p_trapframe (getp s2 i) = p_trapframe (getp s i) -> th_trapframe (getth (getp s2 i) j) = th_trapframe (getth (getp s i) j) ->
  dispatch c i s2 = Some (d, s3) -> d_thread d = Some j ->
  get_tf s3 (p_trapframe (getp s i)) = get_tf s (p_trapframe (getp s i)) /\
  (forall s4, p_trapframe (getp s4 i) = p_trapframe (getp s i) -> (i < length (ps_procs s4))%nat ->
     get_tf (dispatch_back d s4) (p_trapframe (getp s i)) = get_tf s2 (p_trapframe (getp s2 i))).
Proof.
  intros Hi Hne Hf Hs E2 Hp2 Ht2 Hd Hj. set (p := getp s i) in *. set (tj := th_trapframe (getth p j)) in *.
  assert (E1 : get_tf s1 tj = get_tf s (p_trapframe p)).
  { unfold sched in Hs. fold p in Hs. cbn [negb] in Hs. destruct (negb (noff =? 1)); [discriminate|].
    destruct (_ && _); [discriminate|]. injection Hs as <-. unfold is_thread. rewrite bool_decide_false by done. cbn [negb].
    fold tj. destruct (Z.eqb_spec tj (p_trapframe p)); [done|]. cbn [negb]. unfold get_tf, modp, mod_tf. cbn [ps_tf put_procs put_tf].
    by rewrite lookup_insert_eq. }
  unfold dispatch in Hd. destruct (choose_thread c (getp s2 i)) as [[[tf th] p']|] eqn:Ec; [|discriminate].
  assert (Hc : th = Some j -> tf = tj /\ p_trapframe p' = p_trapframe p).
  { unfold choose_thread in Ec. destruct (is_thread _ _); [by injection Ec as <- <- <-|].
    destruct (pick_thread _ _ _) as [k|]; [|discriminate]. injection Ec as <- <- <-. intros [= E]. split; [|exact Hp2].
    rewrite E. rewrite <- Ht2. unfold getth, modth. cbn [p_threads set_threads]. rewrite list_lookup_alter_eq.
    by destruct (p_threads (getp s2 i) !! j). }
  injection Hd as <- <-. cbn [d_thread d_proc d_tf d_ptf] in *. destruct (Hc Hj) as [-> Hp'].
  cbn [p_trapframe set_running set_state]. rewrite Hp'. destruct (Z.eqb_spec tj (p_trapframe p)) as [|_]; [done|]. cbn [negb]. split.
  - unfold get_tf at 1, modp, mod_tf. cbn [ps_tf put_procs put_tf]. rewrite lookup_insert_eq. cbn. by rewrite E2, E1.
  - intros s4 Hs4 Hi4. unfold dispatch_back. cbn [d_proc d_tf d_ptf].
    set (s5 := modp s4 i _). assert (E5 : p_trapframe (getp s5 i) = p_trapframe p).
    { unfold s5, getp, modp. cbn [ps_procs put_procs]. rewrite list_lookup_alter_eq. rewrite <- Hs4. unfold getp.
      by destruct (lookup_lt_is_Some_2 _ _ Hi4) as [q ->]. }
    rewrite E5. destruct (Z.eqb_spec tj (p_trapframe p)) as [|_]; [done|]. cbn [negb]. unfold get_tf at 1, mod_tf. cbn [ps_tf put_tf].
    rewrite lookup_insert_eq. cbn. by rewrite Hp2.
Qed.

(** The main thread waits for thread 1, which runs with the registers [7]. *)
Definition demo_two : psys :=
  mkPs [set_last (set_running (set_trapframe (set_threads (demo_proc 1 0 9)
          [mkThread THREAD_JOINED 4096 None 1 2; mkThread THREAD_RUNNING 8192 (Some 0) 2 0; thread0; thread0]) 4096) 1) 1]
    None 1 3 0 {[ 4096 := [7]; 8192 := [5] ]} (mkKmem ∅ 0).

Definition demo_out : psys := match sched 0 (Some 1%nat) true 1 false demo_two with Ok s => s | _ => demo_two end.
Definition demo_in : psys := mod_tf demo_out 4096 [9].

Lemma thread_registers_preserved_witness :
  exists d s3, dispatch 0 0 demo_in = Some (d, s3) /\ get_tf s3 4096 = [7] /\ get_tf (dispatch_back d s3) 4096 = [9].
Proof.
  destruct (dispatch 0 0 demo_in) as [[d s3]|] eqn:E; [|discriminate]. exists d, s3. split; [done|].
  assert (Hd : d_thread d = Some 1%nat) by (vm_compute in E; injection E as <- <-; reflexivity).
  assert (Hl : (0 < length (ps_procs s3))%nat /\ p_trapframe (getp s3 0) = 4096).
  { vm_compute in E. injection E as <- <-. vm_compute. split; [lia|reflexivity]. }
  destruct (thread_registers_preserved 0 1 0 1 demo_two demo_out demo_in s3 d) as [H1 H2];
    [vm_compute; lia|vm_compute; discriminate|vm_compute; discriminate|vm_compute; reflexivity..|exact E|exact Hd|].
  assert (P : p_trapframe (getp demo_two 0) = 4096) by (vm_compute; reflexivity).
  assert (A : get_tf demo_two 4096 = [7]) by (vm_compute; reflexivity).
  assert (B : get_tf demo_in (p_trapframe (getp demo_in 0)) = [9]) by (vm_compute; reflexivity).
  rewrite P in H1, H2. split; [congruence|]. rewrite <- B. apply (H2 s3); apply Hl.
Defined.
