(* ===== verification/Thread.v ===== *)
(** * User threads: create_thread, join_thread, thread_cleanup and stop_thread of kernel/proc.c

    [i] is the calling process, [c] its hart and [th] the hart's current
    thread, an index into the process's threads.  Proved: thread ids are
    unique, no thread waits to join a thread that is gone, and what stopping
    the main thread does to the process's trapframe. *)

From S2P Require Import Prelude Riscv Mem Cstring Kalloc Vm Sysfile Proc Sched.

Definition TF_ra : nat := 5.

(** The first thread of the process becomes an entry of its own. *)
Definition start_main (c tid : Z) (p : proc) : proc :=
  modth p 0 (fun _ => mkThread THREAD_RUNNING (p_trapframe p) (Some c) (u32 tid) 0).

Definition thread_frame (runner arg stack : Z) : trapframe :=
  <[TF_ra := u64 (-1)]> (<[TF_a0 := arg]> (<[TF_sp := stack]> (<[TF_epc := runner]> (replicate 36 0)))).

Definition free_thread (ths : list thread) : option nat := find_index (fun t => is_thread t THREAD_FREE) ths.

(** The caller's new current thread, and the thread id. *)
Definition create_thread (i : nat) (c : Z) (th : option nat) (runner arg stack : Z) (s : psys) : res (Z * option nat * psys) :=
  let '(th, s) :=
    if is_thread (getth (getp s i) 0) THREAD_FREE then
      let '(tid, s) := alloctid s in (Some 0%nat, modp s i (start_main c tid))
    else (th, s) in
  match free_thread (p_threads (getp s i)) with
  | None => Ok (-1, th, s)
  | Some j =>
      let '(tid, s) := alloctid s in
      let '(pa, km) := kalloc (ps_mem s) in
      let s := put_mem s km in
      if pa =? 0 then Panic "create_thread: store to null trapframe"
      else
        let s := modp s i (fun p => modth p j (fun _ => mkThread THREAD_RUNNABLE pa None (u32 tid) 0)) in
        Ok (s32 (u32 tid), th, mod_tf s pa (thread_frame runner arg stack))
  end.

(** How a call that switches threads ends: it returned, it gave up the hart
    (and returns to user space when its thread runs again), or it went to exit. *)
Inductive tend := TRet (r : Z) | TSwitch | TExit.

Definition find_thread (tid : Z) (ths : list thread) : option nat :=
  find_index (fun t => (th_id t =? u32 tid) && negb (is_thread t THREAD_FREE)) ths.

Definition join_thread (i : nat) (th : option nat) (tid : Z) (s : psys) : res (tend * psys) :=
  match find_thread tid (p_threads (getp s i)) with
  | None => Ok (TRet (-1), s)
  | Some _ =>
      match th with
      | None => Panic "join_thread: null thread"
      | Some j =>
          let s := modp s i (fun p => modth p j (fun t => tset_state (tset_join t (u32 tid)) THREAD_JOINED)) in
          let* s := yield i th s in
          Ok (TSwitch, s)
      end
  end.

Definition wake_joined (id : Z) (t : thread) : thread :=
  if is_thread t THREAD_JOINED && (th_join t =? id) then tset_state (tset_join t 0) THREAD_RUNNABLE else t.

Section threads.
(** The first address after the kernel *)
Context (kernel_end : Z).

Fixpoint free_frames (ths : list thread) (km : kmem) : res kmem :=
  match ths with
  | [] => Ok km
  | t :: ths =>
      let* km := (if is_thread t THREAD_FREE then Ok km else kfree kernel_end (th_trapframe t) km) in
      free_frames ths km
  end.

Definition thread_cleanup (i : nat) (th : option nat) (tid : Z) (s : psys) : res (tend * psys) :=
  match find_index (fun t => th_id t =? u32 tid) (p_threads (getp s i)) with
  | None => Ok (TRet (-1), s)
  | Some j =>
      let t := getth (getp s i) j in
      if is_thread t THREAD_FREE then let* s := yield i th s in Ok (TSwitch, s)
      else
        let s := modp s i (fun p => modth p j (fun t => tset_state (tset_cpu t None) THREAD_FREE)) in
        let* km := kfree kernel_end (th_trapframe t) (ps_mem s) in
        let s := put_mem s km in
        if th_id t =? 1 then
          let* km := free_frames (p_threads (getp s i)) (ps_mem s) in
          Ok (TExit, put_mem s km)
        else
          let s := modp s i (fun p => set_threads p (wake_joined (th_id t) <$> p_threads p)) in
          let* s := yield i th s in
          Ok (TSwitch, s)
  end.

Definition stop_thread (i : nat) (th : option nat) (tid : Z) (s : psys) : res (tend * psys) :=
  if tid =? -1 then
    match th with
    | Some j =>
        let* (r, s) := thread_cleanup i th (s32 (th_id (getth (getp s i) j))) s in
        Ok (match r with TRet _ => TRet 0 | _ => r end, s)
    | None => Ok (TRet 0, s)
    end
  else thread_cleanup i th tid s.

End threads.

(** ** The invariant of a process's threads *)
Definition busy (t : thread) : Prop := th_state t <> THREAD_FREE.

Record threads_ok (next : Z) (ths : list thread) : Prop := {
  tk_len : length ths = max_thread;
  tk_id : forall j t, ths !! j = Some t -> busy t -> 1 <= th_id t < next;
  tk_uniq : forall j k t t', ths !! j = Some t -> ths !! k = Some t' -> busy t -> busy t' -> th_id t = th_id t' -> j = k;
  tk_join : forall j t, ths !! j = Some t -> th_state t = THREAD_JOINED ->
              exists k t', ths !! k = Some t' /\ busy t' /\ th_id t' = th_join t;
}.

Lemma alter_cases {A} (f : A -> A) j k (l : list A) x :
  alter f j l !! k = Some x -> (k <> j /\ l !! k = Some x) \/ (k = j /\ exists y, l !! j = Some y /\ x = f y).
Proof.
  destruct (decide (k = j)) as [->|]; [|rewrite list_lookup_alter_ne by done; auto].
  rewrite list_lookup_alter_eq. intros H. apply fmap_Some in H as (y & Hy & ->). right. eauto.
Qed.

Lemma alter_keeps {A} (f : A -> A) j k (l : list A) y : l !! k = Some y -> exists x, alter f j l !! k = Some x /\ (x = y \/ x = f y).
Proof.
  intros H. destruct (decide (k = j)) as [->|].
  - rewrite list_lookup_alter_eq, H. cbn. eauto.
  - rewrite list_lookup_alter_ne by done. eauto.
Qed.

(** A change of one thread's state that keeps it busy and keeps its id *)
Lemma threads_restate next ths j f :
  threads_ok next ths ->
  (forall t, ths !! j = Some t -> busy t -> busy (f t) /\ th_id (f t) = th_id t /\
     (th_state (f t) = THREAD_JOINED -> exists k t', ths !! k = Some t' /\ busy t' /\ th_id t' = th_join (f t))) ->
  (forall t, ths !! j = Some t -> busy t) ->
  threads_ok next (alter f j ths).
Proof.
  intros [H1 H2 H3 H4] Hf Hb.
  assert (Hk : forall k t', ths !! k = Some t' -> busy t' -> exists t'', alter f j ths !! k = Some t'' /\ busy t'' /\ th_id t'' = th_id t').
  { intros k t' Hk Hb'. destruct (decide (k = j)) as [->|].
    - rewrite list_lookup_alter_eq, Hk. cbn. exists (f t'). destruct (Hf t' Hk Hb') as (? & ? & _). done.
    - rewrite list_lookup_alter_ne by done. eauto. }
  split.
  - by rewrite length_alter.
  - intros k t Ht Hbt. apply alter_cases in Ht as [[_ Ht]|[-> (y & Hy & ->)]]; [eauto|].
    destruct (Hf y Hy (Hb y Hy)) as (_ & -> & _). eauto.
  - intros k k' t t' Ht Ht' Hbt Hbt' E.
    apply alter_cases in Ht as [[Hkj Ht]|[-> (y & Hy & ->)]]; apply alter_cases in Ht' as [[Hkj' Ht']|[-> (y' & Hy' & ->)]]; auto.
    + eapply H3; eauto.
    + destruct (Hf y' Hy' (Hb y' Hy')) as (_ & E' & _). rewrite E' in E. eapply (H3 k j t y'); eauto.
    + destruct (Hf y Hy (Hb y Hy)) as (_ & E' & _). rewrite E' in E. eapply (H3 j k' y t'); eauto.
  - intros k t Ht Hj. apply alter_cases in Ht as [[Hkj Ht]|[-> (y & Hy & ->)]].
    + destruct (H4 k t Ht Hj) as (k2 & t2 & Hk2 & Hb2 & E2). destruct (Hk k2 t2 Hk2 Hb2) as (t3 & ? & ? & ?). exists k2, t3. split_and!; auto. congruence.
    + destruct (Hf y Hy (Hb y Hy)) as (_ & _ & Hj'). destruct (Hj' Hj) as (k2 & t2 & Hk2 & Hb2 & E2).
      destruct (Hk k2 t2 Hk2 Hb2) as (t3 & ? & ? & ?). exists k2, t3. split_and!; auto. congruence.
Qed.

(** A new thread in a free entry *)
Lemma threads_new next next' ths j t0 t :
  threads_ok next ths -> ths !! j = Some t0 -> th_state t0 = THREAD_FREE -> th_state t = THREAD_RUNNABLE \/ th_state t = THREAD_RUNNING ->
  next <= th_id t < next' -> 1 <= next -> threads_ok next' (alter (fun _ => t) j ths).
Proof.
  intros [H1 H2 H3 H4] Hj Hf Hs Hid Hn. split.
  - by rewrite length_alter.
  - intros k t' Ht Hbt. apply alter_cases in Ht as [[_ Ht]|[-> (y & Hy & ->)]]; [specialize (H2 k t' Ht Hbt); lia|lia].
  - intros k k' t1 t2 Ht Ht' Hb1 Hb2 E.
    apply alter_cases in Ht as [[Hkj Ht]|[-> (y & Hy & ->)]]; apply alter_cases in Ht' as [[Hkj' Ht']|[-> (y' & Hy' & ->)]]; auto.
    + eapply H3; eauto.
    + specialize (H2 k t1 Ht Hb1). lia.
    + specialize (H2 k' t2 Ht' Hb2). lia.
  - intros k t' Ht Hjn. apply alter_cases in Ht as [[Hkj Ht]|[-> (y & Hy & ->)]]; [|destruct Hs; congruence].
    destruct (H4 k t' Ht Hjn) as (k2 & t2 & Hk2 & Hb2 & E2). exists k2, t2. split_and!; auto.
    rewrite list_lookup_alter_ne; [done|]. intros ->. rewrite Hk2 in Hj. injection Hj as ->. by apply Hb2.
Qed.

(** A thread goes, and those that wait for it are woken *)
Lemma threads_gone next ths j t0 :
  threads_ok next ths -> ths !! j = Some t0 -> busy t0 ->
  threads_ok next (wake_joined (th_id t0) <$> alter (fun t => tset_state (tset_cpu t None) THREAD_FREE) j ths).
Proof.
  intros [H1 H2 H3 H4] Hj Hb.
  assert (Hw : forall k t, (wake_joined (th_id t0) <$> alter (fun t => tset_state (tset_cpu t None) THREAD_FREE) j ths) !! k = Some t -> busy t ->
    k <> j /\ exists y, ths !! k = Some y /\ busy y /\ t = wake_joined (th_id t0) y /\ th_id t = th_id y).
  { intros k t Ht Hbt. rewrite list_lookup_fmap in Ht. apply fmap_Some in Ht as (y & Hy & ->).
    assert (Hby : busy y /\ th_id (wake_joined (th_id t0) y) = th_id y).
    { unfold wake_joined, is_thread in *. destruct (bool_decide_reflect (th_state y = THREAD_JOINED)); cbn [andb] in *; [|done].
      split; [by unfold busy; rewrite e|]. by destruct (_ =? _). }
    apply alter_cases in Hy as [[Hkj Hy]|[-> (z & Hz & ->)]]; [|by destruct Hby as [[] _]]. split; [done|]. exists y. naive_solver. }
  split.
  - by rewrite length_fmap, length_alter.
  - intros k t Ht Hbt. destruct (Hw k t Ht Hbt) as (_ & y & Hy & Hby & _ & ->). eauto.
  - intros k k' t t' Ht Ht' Hbt Hbt' E. destruct (Hw k t Ht Hbt) as (_ & y & Hy & Hby & _ & Ey).
    destruct (Hw k' t' Ht' Hbt') as (_ & y' & Hy' & Hby' & _ & Ey'). eapply H3; eauto. congruence.
  - intros k t Ht Hjn. destruct (Hw k t Ht) as (Hkj & y & Hy & Hby & Et & Eid); [unfold busy; congruence|].
    assert (Hyj : th_state y = THREAD_JOINED /\ th_join y <> th_id t0 /\ t = y).
    { rewrite Et in Hjn |- *. unfold wake_joined, is_thread in *. destruct (bool_decide_reflect (th_state y = THREAD_JOINED)) as [E|E]; cbn [andb] in *; [|done].
      destruct (Z.eqb_spec (th_join y) (th_id t0)); [discriminate|done]. }
    destruct Hyj as (Hyj & Hne & ->). destruct (H4 k y Hy Hyj) as (k2 & t2 & Hk2 & Hb2 & E2).
    assert (k2 <> j) by (intros ->; rewrite Hk2 in Hj; injection Hj as ->; congruence).
    exists k2, (wake_joined (th_id t0) t2). rewrite list_lookup_fmap, list_lookup_alter_ne, Hk2 by done. split; [done|].
    unfold wake_joined, is_thread. destruct (bool_decide_reflect (th_state t2 = THREAD_JOINED)); cbn [andb]; [|done].
    destruct (_ =? _); done.
Qed.

(** ** The operations keep it *)
Lemma getp_modp s i f : (i < length (ps_procs s))%nat -> getp (modp s i f) i = f (getp s i).
Proof.
  intros Hi. unfold getp, modp. cbn [ps_procs put_procs]. rewrite list_lookup_alter_eq.
  by destruct (lookup_lt_is_Some_2 _ _ Hi) as [p ->].
Qed.
Lemma length_modp s i f : length (ps_procs (modp s i f)) = length (ps_procs s).
Proof. apply length_alter. Qed.

(** What the theorem is about: process [i]'s threads and the counter. *)
Definition tinv (i : nat) (s : psys) : Prop :=
  (i < length (ps_procs s))%nat /\ 1 <= ps_nexttid s /\ threads_ok (ps_nexttid s) (p_threads (getp s i)).

Lemma sched_threads i th held noff intr s s' :
  sched i th held noff intr s = Ok s' -> (i < length (ps_procs s))%nat ->
  ps_nexttid s' = ps_nexttid s /\ length (ps_procs s') = length (ps_procs s) /\
  p_threads (getp s' i) =
    match th with
    | Some j => if is_thread (getth (getp s i) j) THREAD_FREE then p_threads (getp s i)
                else alter (fun t => tset_cpu (tset_state t (if is_thread (getth (getp s i) j) THREAD_RUNNING then THREAD_RUNNABLE
                                                             else th_state (getth (getp s i) j))) None) j (p_threads (getp s i))
    | None => p_threads (getp s i)
    end.
Proof.
  intros H Hi. unfold sched in H.
  destruct (negb held); [discriminate|]. destruct (negb (noff =? 1)); [discriminate|]. destruct (is_state _ _ && _); [discriminate|].
  destruct intr; [discriminate|]. injection H as <-.
  assert (G : forall s1, (i < length (ps_procs s1))%nat -> p_threads (getp (modp s1 i (fun p => set_running p (p_running p - 1))) i) = p_threads (getp s1 i))
    by (intros s1 H1; by rewrite getp_modp).
  destruct th as [j|]; [|by rewrite G, length_modp].
  destruct (is_thread (getth (getp s i) j) THREAD_FREE); cbn [negb]; [by rewrite G, length_modp|].
  set (s0 := if negb _ then _ else s). assert (E0 : ps_procs s0 = ps_procs s /\ ps_nexttid s0 = ps_nexttid s) by (unfold s0; by destruct (negb _)).
  destruct E0 as [E0 E1]. assert (E2 : getp s0 i = getp s i) by (unfold getp; by rewrite E0).
  rewrite G by (rewrite length_modp, E0; done). rewrite !length_modp, getp_modp by (by rewrite E0). rewrite E0, E2. done.
Qed.

Lemma getth_lookup p j t : p_threads p !! j = Some t -> getth p j = t.
Proof. unfold getth. by intros ->. Qed.

(** A hart's current thread is running or none *)
Definition current_ok (i : nat) (th : option nat) (s : psys) : Prop :=
  forall j, th = Some j -> th_state (getth (getp s i) j) = THREAD_RUNNING.

Lemma sched_tinv i th held noff intr s s' : tinv i s -> sched i th held noff intr s = Ok s' -> tinv i s'.
Proof.
  intros (Hi & Hn & Hok) H. destruct (sched_threads _ _ _ _ _ _ _ H Hi) as (E1 & E2 & E3).
  split; [by rewrite E2|]. rewrite E1, E3. split; [done|]. destruct th as [j|]; [|done].
  unfold is_thread at 1. destruct (bool_decide_reflect (th_state (getth (getp s i) j) = THREAD_FREE)) as [|Hb]; [done|].
  apply threads_restate; [done| |].
  - intros t Ht Hbt. rewrite (getth_lookup _ _ _ Ht) in *. unfold busy. cbn [th_state th_id th_join tset_cpu tset_state].
    unfold is_thread. destruct (bool_decide_reflect (th_state t = THREAD_RUNNING)); split_and!; try done.
    intros Hj. by apply (tk_join _ _ Hok j t).
  - intros t Ht. by rewrite (getth_lookup _ _ _ Ht) in Hb.
Qed.

Lemma state_tinv i st s : tinv i s -> tinv i (modp s i (fun p => set_state p st)).
Proof.
  intros (Hi & Hn & Hok). split; [by rewrite length_modp|]. split; [done|]. rewrite getp_modp by done. done.
Qed.

Lemma yield_tinv i th s s' : tinv i s -> yield i th s = Ok s' -> tinv i s'.
Proof. intros H. apply sched_tinv. by apply state_tinv. Qed.

Lemma find_thread_spec tid ths k : find_thread tid ths = Some k -> exists t, ths !! k = Some t /\ busy t /\ th_id t = u32 tid.
Proof.
  intros H. apply find_index_Some in H as [(t & Ht & E) _]. apply andb_true_iff in E as [E1 E2]. exists t.
  apply Z.eqb_eq in E1. split_and!; auto. unfold is_thread in E2. by apply negb_true_iff, bool_decide_eq_false in E2.
Qed.

Lemma join_tinv i th tid s e s' : tinv i s -> current_ok i th s -> join_thread i th tid s = Ok (e, s') -> tinv i s'.
Proof.
  intros Hinv Hc H. unfold join_thread in H. destruct (find_thread _ _) as [k|] eqn:Ek; [|by injection H as <- <-].
  apply find_thread_spec in Ek as (tk & Hk & Hbk & Ek). destruct th as [j|]; [|discriminate].
  apply rbind_Ok in H as (s1 & Hy & H). injection H as <- <-. eapply yield_tinv; [|exact Hy]. specialize (Hc j eq_refl).
  destruct Hinv as (Hi & Hn & Hok). split; [by rewrite length_modp|]. split; [done|]. rewrite getp_modp by done.
  unfold modth. cbn [p_threads set_threads]. apply threads_restate; [done| |].
  - intros t Ht Hb. split_and!; [done|done|]. intros _. exists k, tk. done.
  - intros t Ht. rewrite (getth_lookup _ _ _ Ht) in Hc. unfold busy. congruence.
Qed.

Lemma cleanup_tinv kernel_end i th tid s e s' :
  tinv i s -> thread_cleanup kernel_end i th tid s = Ok (e, s') -> e <> TExit -> tinv i s'.
Proof.
  intros Hinv H He. unfold thread_cleanup in H. destruct (find_index _ _) as [j|] eqn:Ej; [|by injection H as <- <-].
  apply find_index_Some in Ej as [(t & Hj & _) _]. rewrite (getth_lookup _ _ _ Hj) in H. unfold is_thread in H.
  destruct (bool_decide_reflect (th_state t = THREAD_FREE)) as [|Hb].
  { apply rbind_Ok in H as (s1 & Hy & H). injection H as <- <-. by eapply yield_tinv. }
  apply rbind_Ok in H as (km & _ & H). destruct (th_id t =? 1).
  { apply rbind_Ok in H as (km' & _ & H). by injection H as <- <-. }
  apply rbind_Ok in H as (s1 & Hy & H). injection H as <- <-. eapply yield_tinv; [|exact Hy].
  destruct Hinv as (Hi & Hn & Hok). set (s0 := put_mem _ km) in *.
  assert (Hi0 : (i < length (ps_procs s0))%nat) by (unfold s0; cbn [ps_procs put_mem]; by rewrite length_modp).
  split; [by rewrite length_modp|]. split; [done|]. rewrite getp_modp by done. cbn [p_threads set_threads].
  change (getp s0 i) with (getp (modp s i (fun p => modth p j (fun t => tset_state (tset_cpu t None) THREAD_FREE))) i).
  rewrite getp_modp by done. unfold modth. cbn [p_threads set_threads]. by apply threads_gone.
Qed.

Lemma stop_tinv kernel_end i th tid s e s' :
  tinv i s -> stop_thread kernel_end i th tid s = Ok (e, s') -> e <> TExit -> tinv i s'.
Proof.
  intros Hinv H He. unfold stop_thread in H. destruct (tid =? -1); [|by eapply cleanup_tinv].
  destruct th as [j|]; [|by injection H as <- <-]. apply rbind_Ok in H as ([r s1] & Hc & H). injection H as <- <-.
  eapply cleanup_tinv; [done|exact Hc|]. by destruct r.
Qed.

Lemma free_thread_spec ths j : free_thread ths = Some j -> exists t, ths !! j = Some t /\ th_state t = THREAD_FREE.
Proof.
  intros H. apply find_index_Some in H as [(t & Ht & E) _]. exists t. split; [done|]. unfold is_thread in E. by apply bool_decide_eq_true in E.
Qed.

(** A new entry of process [i] with the next id *)
Lemma new_tinv i j pa c st s t0 :
  tinv i s -> ps_nexttid s < 2 ^ 31 - 1 -> p_threads (getp s i) !! j = Some t0 -> th_state t0 = THREAD_FREE ->
  st = THREAD_RUNNABLE \/ st = THREAD_RUNNING ->
  tinv i (modp (put_nexttid s (s32 (ps_nexttid s + 1))) i (fun p => modth p j (fun _ => mkThread st pa c (u32 (ps_nexttid s)) 0))).
Proof.
  intros (Hi & Hn & Hok) Hlt Hj Hf Hst. split; [by rewrite length_modp|]. cbn [ps_nexttid modp put_procs put_nexttid].
  rewrite s32_small by lia. split; [lia|]. change (put_procs (put_nexttid s (ps_nexttid s + 1)) _) with (modp (put_nexttid s (ps_nexttid s + 1)) i (fun p => modth p j (fun _ => mkThread st pa c (u32 (ps_nexttid s)) 0))).
  rewrite getp_modp by done. unfold modth. cbn [p_threads set_threads].
  change (getp (put_nexttid s (ps_nexttid s + 1)) i) with (getp s i).
  eapply threads_new; [exact Hok|exact Hj|exact Hf|exact Hst| |done]. cbn [th_id]. rewrite u32_small by lia. lia.
Qed.

Lemma create_tinv i c th runner arg stack s r th' s' :
  tinv i s -> ps_nexttid s < 2 ^ 31 - 2 -> create_thread i c th runner arg stack s = Ok (r, th', s') -> tinv i s'.
Proof.
  intros Hinv Hlt H. unfold create_thread in H.
  set (x := if is_thread _ _ then _ else _) in H. destruct x as [th1 s1] eqn:Ex.
  assert (H1 : tinv i s1 /\ ps_nexttid s1 < 2 ^ 31 - 1).
  { subst x. unfold is_thread in Ex. destruct (bool_decide_reflect (th_state (getth (getp s i) 0) = THREAD_FREE)) as [Hf|Hf].
    - cbn in Ex. injection Ex as <- <-. split.
      + destruct (lookup_lt_is_Some_2 (p_threads (getp s i)) 0) as [t0 Ht0].
        { destruct Hinv as (_ & _ & Hok). rewrite (tk_len _ _ Hok). change max_thread with 4%nat. lia. }
        rewrite (getth_lookup _ _ _ Ht0) in Hf. unfold start_main.
        pose proof (new_tinv i 0 (p_trapframe (getp s i)) (Some c) THREAD_RUNNING s t0 Hinv ltac:(lia) Ht0 Hf (or_intror eq_refl)) as G.
        destruct G as (G1 & G2 & G3). destruct Hinv as (Hi & _). split; [by rewrite length_modp|]. split; [done|].
        rewrite getp_modp in G3 |- * by done. exact G3.
      + cbn [ps_nexttid modp put_procs put_nexttid]. destruct Hinv as (_ & Hn & _). rewrite s32_small by lia. lia.
    - injection Ex as <- <-. split; [done|lia]. }
  destruct H1 as [H1 Hlt1]. destruct (free_thread _) as [j|] eqn:Ej; [|by injection H as <- <- <-].
  apply free_thread_spec in Ej as (t0 & Hj & Hf). cbn [alloctid] in H. destruct (kalloc _) as [pa km]. destruct (pa =? 0); [discriminate|].
  injection H as <- <- <-.
  pose proof (new_tinv i j pa None THREAD_RUNNABLE s1 t0 H1 Hlt1 Hj Hf (or_introl eq_refl)) as (G1 & G2 & G3). split; [done|]. split; done.
Qed.

Lemma dispatch_tinv i c s d s' : tinv i s -> dispatch c i s = Some (d, s') -> tinv i s'.
Proof.
  intros (Hi & Hn & Hok) H. unfold dispatch in H. destruct (choose_thread c (getp s i)) as [[[tf th] p]|] eqn:Ec; [|discriminate].
  injection H as <- <-. set (s0 := if negb _ then _ else s).
  assert (E0 : ps_procs s0 = ps_procs s /\ ps_nexttid s0 = ps_nexttid s) by (unfold s0; by destruct (negb _)). destruct E0 as [E0 E1].
  split; [rewrite length_modp, E0; done|]. cbn [ps_nexttid modp put_procs]. rewrite E1. split; [done|].
  change (put_procs s0 _) with (modp s0 i (fun _ => set_start (set_running (set_state p RUNNING) (p_running p + 1)) (ps_ticks s0))).
  rewrite getp_modp by (by rewrite E0). cbn [p_threads set_start set_usage set_running set_state].
  unfold choose_thread in Ec. destruct (is_thread _ _); [by injection Ec as _ _ <-|].
  destruct (pick_thread _ _ _) as [j|] eqn:Ep; [|discriminate]. injection Ec as _ _ <-. unfold modth. cbn [p_threads set_last set_threads].
  apply threads_restate; [done| |].
  - intros t Ht Hb. split_and!; done.
  - intros t Ht. assert (Hr : th_state t = THREAD_RUNNABLE); [|unfold busy; congruence].
    revert Ep. generalize (p_last (getp s i)). induction max_thread as [|k IH]; intros last Ep; [discriminate|]. cbn [pick_thread] in Ep.
    destruct (is_thread _ _) eqn:Et; [|by eapply IH]. injection Ep as E. rewrite E, Ht in Et. cbn in Et. by apply bool_decide_eq_true in Et.
Qed.

(** ** Any interleaving of the operations *)
Inductive tstep (kernel_end : Z) (i : nat) : psys -> psys -> Prop :=
| ts_create c th runner arg stack s r th' s' :
    ps_nexttid s < 2 ^ 31 - 2 -> create_thread i c th runner arg stack s = Ok (r, th', s') -> tstep kernel_end i s s'
| ts_join th tid s e s' : current_ok i th s -> join_thread i th tid s = Ok (e, s') -> tstep kernel_end i s s'
| ts_stop th tid s e s' : stop_thread kernel_end i th tid s = Ok (e, s') -> e <> TExit -> tstep kernel_end i s s'
| ts_yield th s s' : yield i th s = Ok s' -> tstep kernel_end i s s'
| ts_dispatch c s d s' : dispatch c i s = Some (d, s') -> tstep kernel_end i s s'
| ts_back d s : d_proc d = i -> tstep kernel_end i s (dispatch_back d s).

Lemma back_tinv i d s : d_proc d = i -> tinv i s -> tinv i (dispatch_back d s).
Proof.
  intros <- (Hi & Hn & Hok). unfold dispatch_back. set (s1 := modp s _ _).
  assert (H1 : tinv (d_proc d) s1).
  { split; [by unfold s1; rewrite length_modp|]. split; [done|]. unfold s1. by rewrite getp_modp. }
  destruct (negb _); [|done]. exact H1.
Qed.

Lemma tstep_tinv kernel_end i s s' : tstep kernel_end i s s' -> tinv i s -> tinv i s'.
Proof.
  intros [] Hi.
  - by eapply create_tinv.
  - by eapply join_tinv.
  - by eapply stop_tinv.
  - by eapply yield_tinv.
  - by eapply dispatch_tinv.
  - by eapply back_tinv.
Qed.

(** C32: over any sequence of create_thread, join_thread, stop_thread, context
    switches and dispatches, the threads of a process that are in use have
    different ids, and a thread that waits to join always waits for a thread
    that still exists: the end of a thread wakes everybody who joined it. *)
Theorem joined_threads_exist kernel_end i s s' :
  tinv i s -> rtc (tstep kernel_end i) s s' ->
  let ths := p_threads (getp s' i) in
  (forall j k t t', ths !! j = Some t -> ths !! k = Some t' -> busy t -> busy t' -> th_id t = th_id t' -> j = k) /\
  (forall j t, ths !! j = Some t -> th_state t = THREAD_JOINED -> exists k t', ths !! k = Some t' /\ busy t' /\ th_id t' = th_join t).
Proof.
  intros Hi Hs. assert (H : tinv i s') by (induction Hs; [done|]; eauto using tstep_tinv).
  destruct H as (_ & _ & [H1 H2 H3 H4]). split; [exact H3|exact H4].
Qed.

(** A process whose main thread runs and that has created one thread *)
Definition demo_pair : psys :=
  mkPs [set_running (set_trapframe (set_threads (set_state proc0 RUNNING)
          [mkThread THREAD_RUNNING 4096 (Some 0) 1 0; mkThread THREAD_RUNNABLE 8192 None 2 0; thread0; thread0]) 4096) 1]
    None 2 3 0 {[ 4096 := replicate 36 0; 8192 := replicate 36 1 ]} (mkKmem ∅ 0).

Lemma demo_pair_tinv : tinv 0 demo_pair.
Proof.
  split; [cbn; lia|]. split; [cbn; lia|]. split.
  - reflexivity.
  - intros [|[|[|[|j]]]] t Ht Hb; try discriminate; injection Ht as <-; cbn; try lia; by destruct Hb.
  - intros [|[|[|[|j]]]] [|[|[|[|k]]]] t t' Ht Ht' Hb Hb' E; try discriminate; injection Ht as <-; injection Ht' as <-; try done; by destruct Hb || destruct Hb'.
  - intros [|[|[|[|j]]]] t Ht Hb; try discriminate; injection Ht as <-; discriminate.
Qed.

Definition demo_waiting : psys := match join_thread 0 (Some 0%nat) 2 demo_pair with Ok (_, s) => s | _ => demo_pair end.

Lemma joined_threads_exist_witness :
  rtc (tstep 8192 0) demo_pair demo_waiting /\ th_state (getth (getp demo_waiting 0) 0) = THREAD_JOINED /\
  exists k t', p_threads (getp demo_waiting 0) !! k = Some t' /\ busy t' /\ th_id t' = 2.
Proof.
  assert (R : rtc (tstep 8192 0) demo_pair demo_waiting).
  { apply rtc_once. apply (ts_join _ _ (Some 0%nat) 2 _ TSwitch); [intros j [= <-]; reflexivity|vm_compute; reflexivity]. }
  split; [exact R|]. split; [vm_compute; reflexivity|].
  destruct (joined_threads_exist 8192 0 demo_pair demo_waiting demo_pair_tinv R) as [_ H].
  apply (H 0%nat (mkThread THREAD_JOINED 4096 None 1 2)); vm_compute; reflexivity.
Defined.

(** ** The main thread's trapframe *)

Lemma kfree_freelist kernel_end pa km km' : kfree kernel_end pa km = Ok km' -> kmem_freelist km' = pa.
Proof. unfold kfree. destruct (_ || _); [discriminate|]. by intros [= <-]. Qed.

Lemma sched_frame i th held noff intr s s' :
  sched i th held noff intr s = Ok s' -> (i < length (ps_procs s))%nat ->
  ps_mem s' = ps_mem s /\ p_trapframe (getp s' i) = p_trapframe (getp s i).
Proof.
  intros H Hi. unfold sched in H.
  destruct (negb held); [discriminate|]. destruct (negb (noff =? 1)); [discriminate|]. destruct (is_state _ _ && _); [discriminate|].
  destruct intr; [discriminate|]. injection H as <-.
  destruct th as [j|]; [|by rewrite getp_modp]. destruct (is_thread _ THREAD_FREE); cbn [negb]; [by rewrite getp_modp|].
  set (s0 := if negb _ then _ else s). assert (E0 : ps_procs s0 = ps_procs s /\ ps_mem s0 = ps_mem s) by (unfold s0; by destruct (negb _)).
  destruct E0 as [E0 E1]. assert (E2 : getp s0 i = getp s i) by (unfold getp; by rewrite E0).
  rewrite !getp_modp by (rewrite ?length_modp, E0; done). cbn [ps_mem modp put_procs]. by rewrite E1, E2.
Qed.

(** Stopping the main thread of a process frees the process's own
    trapframe.  threads[0] shares p->trapframe; unless its id is 1, which only
    the first process to create threads has, thread_cleanup gives the page
    back to the allocator and goes on: the process keeps running on a page that
    is first on the free list, and since threads[0] is now free the scheduler
    runs it as a process without threads, never its other threads. *)
Theorem main_thread_stop_frees_trapframe kernel_end i th s s' t e :
  (i < length (ps_procs s))%nat -> p_threads (getp s i) !! 0%nat = Some t -> busy t ->
  th_trapframe t = p_trapframe (getp s i) -> th_id t <> 1 -> 1 <= th_id t < 2 ^ 31 ->
  thread_cleanup kernel_end i th (th_id t) s = Ok (e, s') ->
  e = TSwitch /\ kmem_freelist (ps_mem s') = p_trapframe (getp s' i) /\
  forall c, choose_thread c (getp s' i) = Some (p_trapframe (getp s' i), None, getp s' i).
Proof.
  intros Hi Ht Hb Htf Hid Hrange H. unfold thread_cleanup in H.
  assert (Ef : find_index (fun t0 => th_id t0 =? u32 (th_id t)) (p_threads (getp s i)) = Some 0%nat).
  { destruct (p_threads (getp s i)) as [|t1 ths]; [discriminate|]. injection Ht as ->. cbn [find_index].
    rewrite u32_small by lia. by rewrite Z.eqb_refl. }
  rewrite Ef, (getth_lookup _ _ _ Ht) in H. unfold is_thread in H. rewrite bool_decide_false in H by done.
  apply rbind_Ok in H as (km & Hk & H). destruct (Z.eqb_spec (th_id t) 1); [done|]. apply rbind_Ok in H as (s1 & Hy & H). injection H as <- <-.
  set (s0 := modp (put_mem _ km) _ _) in Hy.
  assert (Hi0 : (i < length (ps_procs s0))%nat) by (unfold s0; rewrite length_modp; cbn [ps_procs put_mem]; by rewrite length_modp).
  assert (E0 : getth (getp s0 i) 0 = tset_state (tset_cpu t None) THREAD_FREE /\ p_trapframe (getp s0 i) = p_trapframe (getp s i)).
  { unfold s0. rewrite getp_modp by (cbn [ps_procs put_mem]; by rewrite length_modp).
    change (getp (put_mem ?a km) i) with (getp a i). rewrite getp_modp by done. split; [|done].
    unfold getth, modth. cbn [p_threads set_threads]. rewrite list_lookup_fmap, list_lookup_alter_eq, Ht. cbn.
    by unfold wake_joined, is_thread. }
  destruct E0 as [E0 E0']. set (s2 := modp s0 i (fun p => set_state p RUNNABLE)) in *. change (sched i th true 1 false s2 = Ok s1) in Hy.
  assert (E2 : getp s2 i = set_state (getp s0 i) RUNNABLE) by (unfold s2; by rewrite getp_modp).
  assert (Hi2 : (i < length (ps_procs s2))%nat) by (unfold s2; by rewrite length_modp).
  destruct (sched_frame _ _ _ _ _ _ _ Hy Hi2) as [F1 F2]. destruct (sched_threads _ _ _ _ _ _ _ Hy Hi2) as (_ & _ & F3).
  rewrite E2 in F2, F3. cbn [p_trapframe p_threads set_state] in F2, F3. change (getth (set_state (getp s0 i) RUNNABLE)) with (getth (getp s0 i)) in F3.
  split; [done|]. split.
  - rewrite F1, F2, E0'. unfold s2, s0. cbn [ps_mem modp put_procs put_mem]. rewrite (kfree_freelist _ _ _ _ Hk). done.
  - intros c. unfold choose_thread.
    assert (E3 : getth (getp s1 i) 0 = getth (getp s0 i) 0).
    { unfold getth at 1. rewrite F3. destruct th as [j|]; [|done]. unfold is_thread at 1.
      destruct (bool_decide_reflect (th_state (getth (getp s0 i) j) = THREAD_FREE)) as [|Hj]; [done|].
      rewrite list_lookup_alter_ne; [done|]. intros ->. apply Hj. by rewrite E0. }
    rewrite E3, E0. unfold is_thread. cbn [th_state tset_state]. by rewrite bool_decide_true.
Qed.

(** The main thread of the second process that uses threads has id 3. *)
Definition demo_second : psys :=
  mkPs [set_running (set_trapframe (set_threads (set_state proc0 RUNNING)
          [mkThread THREAD_RUNNING 8192 (Some 0) 3 0; mkThread THREAD_RUNNABLE 12288 None 4 0; thread0; thread0]) 8192) 1]
    None 3 5 0 {[ 8192 := replicate 36 0; 12288 := replicate 36 1 ]} (mkKmem ∅ 0).

Lemma main_thread_stop_frees_trapframe_witness :
  exists s', thread_cleanup 4096 0 (Some 0%nat) 3 demo_second = Ok (TSwitch, s') /\ kmem_freelist (ps_mem s') = p_trapframe (getp s' 0).
Proof.
  assert (Hok : match thread_cleanup 4096 0 (Some 0%nat) 3 demo_second with Ok _ => true | _ => false end = true) by (vm_compute; reflexivity).
  destruct (thread_cleanup 4096 0 (Some 0%nat) 3 demo_second) as [[e s']| |] eqn:E; try discriminate.
  destruct (main_thread_stop_frees_trapframe 4096 0 (Some 0%nat) demo_second s' (mkThread THREAD_RUNNING 8192 (Some 0) 3 0) e) as (-> & H & _);
    [cbn; lia|reflexivity|discriminate|reflexivity|discriminate|cbn; lia|exact E|].
  exists s'. split; [reflexivity|exact H].
Defined.
