(* ===== verification/ProcInfo.v ===== *)
(** * Process listings and quotas: top, child_processes and set_cpu_quota of kernel/proc.c

    Proved: top sorts, child_processes lists exactly the descendants, and what
    set_cpu_quota does for each relation between caller and target. *)

From Stdlib Require Import Sorted.
From S2P Require Import Prelude Riscv Mem Cstring Kalloc Vm Sysfile Proc.

Record proc_info := mkInfo { pi_name : list Z; pi_pid : Z; pi_ppid : Z; pi_state : procstate; pi_usage : cpu_usage }.
Definition info0 : proc_info := mkInfo (replicate 16 0) 0 0 UNUSED (mkCu 0 0 0).

(** struct top and struct child_processes *)
Record listing := mkListing { ls_count : Z; ls_processes : list proc_info }.
Definition ginfo (arr : list proc_info) (i : nat) : proc_info := default info0 (arr !! i).
Definition pid_of (procs : list proc) (o : option nat) : Z :=
  match o with None => 0 | Some i => p_pid (default proc0 (procs !! i)) end.

(** ** top *)

(** The shift of smaller entries; [i] is one past the entry looked at. *)
Fixpoint top_shift (i : nat) (ticks : Z) (arr : list proc_info) : nat * list proc_info :=
  match i with
  | O => (O, arr)
  | S k =>
      if sum_of_ticks (pi_usage (ginfo arr k)) <=? ticks then top_shift k ticks (<[S k := ginfo arr k]> arr)
      else (S k, arr)
  end.

Definition top_entry (procs : list proc) (p : proc) (old : proc_info) : proc_info :=
  mkInfo (strncpy (pi_name old) (arr (p_name p)) 16) (p_pid p) (pid_of procs (p_parent p)) (p_state p) (p_usage p).

Definition top_insert (procs : list proc) (p : proc) (index : nat) (arr : list proc_info) : list proc_info :=
  let '(i, arr) := top_shift index (sum_of_ticks (p_usage p)) arr in
  alter (top_entry procs p) i arr.

Fixpoint top_loop (procs ps : list proc) (index : nat) (t : listing) : listing :=
  match ps with
  | [] => t
  | p :: ps =>
      if is_state p UNUSED then top_loop procs ps index t
      else top_loop procs ps (S index) (mkListing (ls_count t + 1) (top_insert procs p index (ls_processes t)))
  end.
Definition top (procs : list proc) (t : listing) : listing := top_loop procs procs 0 (mkListing 0 (ls_processes t)).

(** ** child_processes *)

(** while (parent != NULL): does it reach [me]?  [None]: it never ends. *)
Fixpoint descends (fuel : nat) (procs : list proc) (me : nat) (parent : option nat) : option bool :=
  match parent with
  | None => Some false
  | Some j =>
      if bool_decide (j = me) then Some true
      else match fuel with
           | O => None
           | S fuel' => descends fuel' procs me (p_parent (default proc0 (procs !! j)))
           end
  end.

Definition child_entry (procs : list proc) (p : proc) (old : proc_info) : proc_info :=
  mkInfo (strncpy (pi_name old) (arr (p_name p)) 16) (p_pid p) (pid_of procs (p_parent p)) (p_state p) (pi_usage old).

Fixpoint child_loop (procs ps : list proc) (me : nat) (index : nat) (cp : listing) : res listing :=
  match ps with
  | [] => Ok cp
  | p :: ps =>
      if is_state p UNUSED then child_loop procs ps me index cp
      else match descends (length procs) procs me (p_parent p) with
           | None => Block
           | Some true =>
               child_loop procs ps me (S index) (mkListing (s32 (ls_count cp + 1)) (alter (child_entry procs p) index (ls_processes cp)))
           | Some false => child_loop procs ps me index cp
           end
  end.
Definition child_processes (procs : list proc) (me : nat) (cp : listing) : res listing := child_loop procs procs me 0 cp.

(** ** set_cpu_quota *)

(** The while loop, for at most [fuel] turns. *)
Fixpoint quota_walk (fuel : nat) (me : nat) (tparent parent : option nat) : option (option nat) :=
  match parent with
  | None => Some None
  | Some j =>
      if bool_decide (j = me) then Some (Some j)
      else match fuel with O => None | S fuel' => quota_walk fuel' me tparent tparent end
  end.

Definition set_cpu_quota (fuel : nat) (me : nat) (pid q : Z) (s : psys) : res (Z * psys) :=
  match find_index (fun p => p_pid p =? pid) (ps_procs s) with
  | None => Ok (-1, s)
  | Some i =>
      match quota_walk fuel me (p_parent (getp s i)) (Some i) with
      | None => Block
      | Some None => Ok (-1, s)
      | Some (Some _) => Ok (0, modp s i (fun p => set_quota p (u32 q)))
      end
  end.

(** ** Properties of top *)
Definition ticks_of (x : proc_info) : Z := sum_of_ticks (pi_usage x).
Definition info_of (procs : list proc) (p : proc) : proc_info := top_entry procs p info0.

Lemma nthZ_ext (l l' : list Z) : length l = length l' -> (forall j, 0 <= j < Z.of_nat (length l) -> nthZ l j = nthZ l' j) -> l = l'.
Proof.
  intros Hl H. apply list_eq_same_length with (n := length l); [done|done|]. intros i x y Hi Hx Hy.
  specialize (H (Z.of_nat i) ltac:(lia)). unfold nthZ in H. rewrite Nat2Z.id, Hx, Hy in H. exact H.
Qed.

(** strncpy overwrites the whole array. *)
Lemma strncpy_all s s' t : length s = 16%nat -> length s' = 16%nat -> strncpy s t 16 = strncpy s' t 16.
Proof.
  intros H1 H2. apply nthZ_ext; rewrite !length_strncpy by lia; [congruence|]. intros j Hj.
  rewrite !nthZ_strncpy by lia. destruct (Z.ltb_spec j 16); [done|lia].
Qed.

Definition names_ok (arr : list proc_info) : Prop := Forall (fun x => length (pi_name x) = 16%nat) arr.

Lemma top_entry_info procs p old : length (pi_name old) = 16%nat -> top_entry procs p old = info_of procs p.
Proof. intros H. unfold info_of, top_entry. f_equal. by apply strncpy_all. Qed.

(** The shift opens a slot after the larger entries. *)
Lemma top_shift_spec pre x rest ticks :
  exists pre1 y pre2, pre = pre1 ++ pre2 /\ top_shift (length pre) ticks (pre ++ x :: rest) = (length pre1, pre1 ++ y :: pre2 ++ rest) /\
    Forall (fun e => ticks_of e <= ticks) pre2 /\ (forall e, last pre1 = Some e -> ticks < ticks_of e) /\
    (y = x \/ List.In y pre).
Proof.
  revert x rest. induction pre as [|a pre IH] using rev_ind; intros x rest.
  { exists [], x, []. split_and!; auto; done. }
  rewrite length_app, Nat.add_1_r. cbn [top_shift].
  assert (Hg : ginfo ((pre ++ [a]) ++ x :: rest) (length pre) = a).
  { unfold ginfo. rewrite <- app_assoc. cbn [app]. rewrite list_lookup_middle by done. done. }
  rewrite Hg. fold (ticks_of a). destruct (Z.leb_spec (ticks_of a) ticks).
  - assert (Hi : <[S (length pre) := a]> ((pre ++ [a]) ++ x :: rest) = pre ++ a :: a :: rest).
    { replace (S (length pre)) with (length (pre ++ [a]) + 0)%nat by (rewrite length_app; cbn; lia).
      rewrite insert_app_r. cbn. by rewrite <- app_assoc. }
    rewrite Hi. destruct (IH a (a :: rest)) as (pre1 & y & pre2 & -> & E & F & L & Y).
    exists pre1, y, (pre2 ++ [a]). rewrite E. split_and!.
    + by rewrite app_assoc.
    + by rewrite <- app_assoc.
    + apply Forall_app. split; [done|]. by apply Forall_singleton.
    + done.
    + right. apply in_or_app. destruct Y as [->|]; [right; by left|by left].
  - exists (pre ++ [a]), x, []. rewrite app_nil_r. split_and!; auto.
    + rewrite length_app, Nat.add_1_r. done.
    + intros e. rewrite last_snoc. by intros [= <-].
Qed.

Abbreviation desc := (StronglySorted (fun a b => ticks_of b <= ticks_of a)).

Lemma desc_insert pre1 pre2 e :
  desc (pre1 ++ pre2) -> Forall (fun x => ticks_of x <= ticks_of e) pre2 -> (forall x, last pre1 = Some x -> ticks_of e < ticks_of x) ->
  desc (pre1 ++ e :: pre2).
Proof.
  intros Hs H2 H1. induction pre1 as [|a pre1 IH]; cbn [app] in *.
  - constructor; done.
  - apply StronglySorted_inv in Hs as [Hs Ha]. constructor.
    + apply IH; [done|]. intros x Hx. apply H1. destruct pre1; [done|by rewrite last_cons_cons].
    + apply Forall_app in Ha as [Ha1 Ha2]. apply Forall_app. split; [done|]. constructor; [|done].
      destruct (last pre1) as [x|] eqn:El.
      * assert (Hx : ticks_of e < ticks_of x) by (apply H1; destruct pre1; [done|by rewrite last_cons_cons]).
        rewrite Forall_forall in Ha1. assert (x ∈ pre1) by (by apply last_Some_elem_of). specialize (Ha1 x H). lia.
      * destruct pre1; [|by apply last_None in El]. specialize (H1 a eq_refl). lia.
Qed.

Lemma top_insert_spec procs p pre rest x :
  names_ok (pre ++ x :: rest) -> desc pre ->
  exists pre', top_insert procs p (length pre) (pre ++ x :: rest) = pre' ++ rest /\ length pre' = S (length pre) /\
    desc pre' /\ pre' ≡ₚ info_of procs p :: pre /\ names_ok (pre' ++ rest).
Proof.
  intros Hn Hd. unfold top_insert. destruct (top_shift_spec pre x rest (sum_of_ticks (p_usage p))) as (pre1 & y & pre2 & E0 & E & F & L & Y).
  rewrite E. exists (pre1 ++ info_of procs p :: pre2).
  assert (Hy : length (pi_name y) = 16%nat).
  { unfold names_ok in Hn. rewrite Forall_forall in Hn. apply Hn. apply elem_of_app. rewrite <- !list_elem_of_In in Y. destruct Y as [->|?]; [right; left|by left]. }
  assert (Ea : alter (top_entry procs p) (length pre1) (pre1 ++ y :: pre2 ++ rest) = pre1 ++ info_of procs p :: pre2 ++ rest).
  { replace (length pre1) with (length pre1 + 0)%nat by lia. rewrite alter_app_r. cbn. by rewrite top_entry_info. }
  rewrite Ea. split_and!.
  - by rewrite <- app_assoc.
  - rewrite E0, !length_app. cbn. lia.
  - apply desc_insert; [by rewrite <- E0|exact F|exact L].
  - rewrite E0. symmetry. apply Permutation_middle.
  - rewrite E0 in Hn. unfold names_ok in *. rewrite <- !app_assoc in *. cbn [app]. rewrite !Forall_app, !Forall_cons in *.
    destruct Hn as (H1 & (H2 & _ & H3)). rewrite Forall_app. split_and!; auto. unfold info_of, top_entry. cbn [pi_name].
    rewrite length_strncpy by (cbn; lia). done.
Qed.

Definition live_proc (p : proc) : Prop := p_state p <> UNUSED.
#[export] Instance live_proc_dec p : Decision (live_proc p).
Proof. unfold live_proc. apply _. Defined.

Lemma top_loop_spec procs ps n pre rest :
  names_ok (pre ++ rest) -> desc pre -> (length ps <= length rest)%nat ->
  exists shown rest', top_loop procs ps (length pre) (mkListing n (pre ++ rest)) =
      mkListing (n + Z.of_nat (length (filter live_proc ps))) (shown ++ rest') /\
    desc shown /\ shown ≡ₚ pre ++ (info_of procs <$> filter live_proc ps).
Proof.
  revert n pre rest. induction ps as [|p ps IH]; intros n pre rest Hn Hd Hl; cbn [top_loop].
  { exists pre, rest. cbn. rewrite app_nil_r, Z.add_0_r. done. }
  rewrite filter_cons. unfold is_state. destruct (decide (live_proc p)) as [Hp|Hp].
  - rewrite bool_decide_false by done. destruct rest as [|x rest]; [cbn in Hl; lia|]. cbn [ls_count ls_processes].
    destruct (top_insert_spec procs p pre rest x Hn Hd) as (pre' & E & L & D & P & N). rewrite E, <- L.
    destruct (IH (n + 1) pre' rest N D ltac:(cbn in Hl; lia)) as (shown & rest' & E2 & D2 & P2). exists shown, rest'.
    rewrite E2. split_and!; [f_equal; cbn [length]; lia|done|]. rewrite P2, P. cbn [fmap list_fmap app]. apply Permutation_middle.
  - rewrite bool_decide_true by (by apply dec_stable).
    apply IH; [done|done|cbn in Hl; lia].
Qed.

(** Top reports every process in use exactly once, with its name, pid,
    parent's pid, state and CPU usage, in order of decreasing CPU time, and
    its count is their number. *)
Theorem top_sorted procs c infos :
  names_ok infos -> (length procs <= length infos)%nat ->
  exists shown rest, top procs (mkListing c infos) = mkListing (Z.of_nat (length shown)) (shown ++ rest) /\
    StronglySorted (fun a b => ticks_of b <= ticks_of a) shown /\ shown ≡ₚ (info_of procs <$> filter live_proc procs).
Proof.
  intros Hn Hl. destruct (top_loop_spec procs procs 0 [] infos Hn ltac:(constructor) Hl) as (shown & rest & E & D & P).
  exists shown, rest. unfold top. cbn [ls_processes]. cbn [length app] in *. rewrite E. split_and!; [|done|done].
  f_equal. rewrite P, length_fmap. lia.
Qed.

Lemma top_sorted_witness :
  let p u := set_usage (set_state proc0 RUNNABLE) (mkCu u 0 0) in
  exists shown rest, top [p 3; proc0; p 9] (mkListing 0 (replicate 64 info0)) = mkListing (Z.of_nat (length shown)) (shown ++ rest) /\
    StronglySorted (fun a b => ticks_of b <= ticks_of a) shown /\ shown ≡ₚ (info_of [p 3; proc0; p 9] <$> filter live_proc [p 3; proc0; p 9]).
Proof.
  intros p. apply (top_sorted [p 3; proc0; p 9] 0 (replicate 64 info0)); [apply Forall_replicate; done|cbn; lia].
Defined.

(** ** Properties of child_processes *)
Definition parent_rel (procs : list proc) (i j : nat) : Prop := exists p, procs !! i = Some p /\ p_parent p = Some j.

(** Every chain of parents ends: depths decrease along it. *)
Definition depths (procs : list proc) (depth : nat -> nat) : Prop :=
  forall i p j, procs !! i = Some p -> p_parent p = Some j -> (depth j < depth i <= length procs)%nat.

Definition desc_of (procs : list proc) (me : nat) (o : option nat) : Prop :=
  exists j, o = Some j /\ rtc (parent_rel procs) j me.

Lemma descends_spec procs depth me fuel o :
  depths procs depth -> (forall j, o = Some j -> (depth j < fuel)%nat) ->
  exists b, descends fuel procs me o = Some b /\ (b = true <-> desc_of procs me o).
Proof.
  intros Hd. revert o. induction fuel as [|fuel IH]; intros [j|] Ho; cbn [descends].
  - specialize (Ho j eq_refl). lia.
  - exists false. split; [done|]. split; [done|]. by intros (? & ? & _).
  - destruct (bool_decide_reflect (j = me)) as [->|Hne].
    + exists true. split; [done|]. split; [|done]. intros _. exists me. split; [done|]. apply rtc_refl.
    + destruct (procs !! j) as [p|] eqn:Hj; cbn [default from_option id].
      * destruct (IH (p_parent p)) as (b & E & Hb).
        { intros k Hk. specialize (Ho j eq_refl). specialize (Hd _ _ _ Hj Hk). lia. }
        exists b. split; [done|]. rewrite Hb. split.
        -- intros (k & Hk & Hr). exists j. split; [done|]. eapply rtc_l; [|exact Hr]. by exists p.
        -- intros (j' & [= <-] & Hr). apply rtc_inv in Hr as [?|(k & (p' & Hp' & Hk) & Hr)]; [done|]. simplify_eq. by exists k.
      * exists false. split; [by destruct fuel|]. split; [done|]. intros (j' & [= <-] & Hr).
        apply rtc_inv in Hr as [?|(k & (p' & Hp' & Hk) & Hr)]; [done|]. congruence.
  - exists false. split; [done|]. split; [done|]. by intros (? & ? & _).
Qed.

(** The processes that have [me] among their ancestors *)
Definition descendant (procs : list proc) (me : nat) (p : proc) : Prop := live_proc p /\ desc_of procs me (p_parent p).

(** What an entry of the listing says: name, pid, parent's pid, state *)
Definition says (procs : list proc) (p : proc) (x : proc_info) : Prop :=
  pi_name x = pi_name (info_of procs p) /\ pi_pid x = p_pid p /\ pi_ppid x = pid_of procs (p_parent p) /\ pi_state x = p_state p.

Lemma child_loop_spec procs depth ps me n pre rest ls :
  depths procs depth -> (forall p, p ∈ ps -> p ∈ procs) -> names_ok (pre ++ rest) -> (length ps <= length rest)%nat ->
  Forall2 (says procs) ls pre -> 0 <= n -> n + Z.of_nat (length ps) < 2 ^ 31 ->
  exists new shown rest', child_loop procs ps me (length pre) (mkListing n (pre ++ rest)) =
      Ok (mkListing (n + Z.of_nat (length new)) (shown ++ rest')) /\
    Forall2 (says procs) (ls ++ new) shown /\ new `sublist_of` ps /\ (forall p, p ∈ ps -> descendant procs me p -> p ∈ new) /\
    Forall (descendant procs me) new.
Proof.
  intros Hd. revert n pre rest ls. induction ps as [|p ps IH]; intros n pre rest ls Hin Hn Hl Hs Hn0 Hmax; cbn [child_loop].
  { exists [], pre, rest. cbn [length]. rewrite Z.add_0_r, app_nil_r. split_and!; auto. }
  assert (Hin' : forall p, p ∈ ps -> p ∈ procs) by (intros q Hq; apply Hin; by right). cbn [length] in Hl, Hmax.
  unfold is_state. destruct (bool_decide_reflect (p_state p = UNUSED)) as [Hu|Hu].
  { destruct (IH n pre rest ls) as (new & shown & rest' & E & H1 & H2 & H3 & H4); auto; try lia. exists new, shown, rest'.
    split_and!; auto; [by apply sublist_cons|]. intros q Hq Hdq. apply elem_of_cons in Hq as [->|Hq]; [|auto]. by destruct Hdq. }
  assert (Hpp : p ∈ procs) by (apply Hin; left). apply list_elem_of_lookup in Hpp as [i Hi].
  destruct (descends_spec procs depth me (length procs) (p_parent p)) as (b & E & Hb); [done| |].
  { intros j Hj. specialize (Hd _ _ _ Hi Hj). lia. }
  rewrite E. destruct b.
  - destruct rest as [|x rest]; [cbn in Hl; lia|].
    assert (Ea : alter (child_entry procs p) (length pre) (pre ++ x :: rest) = (pre ++ [child_entry procs p x]) ++ rest).
    { replace (length pre) with (length pre + 0)%nat by lia. rewrite alter_app_r. cbn. by rewrite <- app_assoc. }
    cbn [ls_count ls_processes]. rewrite Ea. rewrite s32_small by lia.
    unfold names_ok in Hn. apply Forall_app in Hn as [N1 N2]. apply Forall_cons in N2 as [N2 N3].
    replace (S (length pre)) with (length (pre ++ [child_entry procs p x])) by (rewrite length_app; cbn; lia).
    destruct (IH (n + 1) (pre ++ [child_entry procs p x]) rest (ls ++ [p])) as (new & shown & rest' & E' & H1 & H2 & H3 & H4); auto; try lia.
    + unfold names_ok. rewrite !Forall_app. split_and!; auto. apply Forall_singleton. cbn [child_entry pi_name].
      rewrite length_strncpy by lia. done.
    + cbn in Hl. lia.
    + apply Forall2_app; [done|]. constructor; [|constructor]. split_and!; try done. cbn. by apply strncpy_all.
    + exists (p :: new), shown, rest'. rewrite E'. split_and!.
      * f_equal. f_equal. cbn [length]. lia.
      * by rewrite <- app_assoc in H1.
      * by apply sublist_skip.
      * intros q Hq Hdq. apply elem_of_cons in Hq as [->|Hq]; [left|right; auto].
      * constructor; [|done]. split; [exact Hu|by apply Hb].
  - destruct (IH n pre rest ls) as (new & shown & rest' & E' & H1 & H2 & H3 & H4); auto; try lia. exists new, shown, rest'.
    split_and!; auto; [by apply sublist_cons|]. intros q Hq Hdq. apply elem_of_cons in Hq as [->|Hq]; [|auto].
    destruct Hdq as [_ Hdq]. apply Hb in Hdq. done.
Qed.

(** C36: child_processes lists, in table order, exactly the processes in use
    that have the caller among their ancestors, and adds their number to the
    caller's count; it ends because every chain of parents does. *)
Theorem child_processes_descendants procs depth me n infos :
  depths procs depth -> names_ok infos -> (length procs <= length infos)%nat -> 0 <= n -> n + Z.of_nat (length procs) < 2 ^ 31 ->
  exists ds shown rest, child_processes procs me (mkListing n infos) = Ok (mkListing (n + Z.of_nat (length ds)) (shown ++ rest)) /\
    Forall2 (says procs) ds shown /\ ds `sublist_of` procs /\ (forall p, p ∈ ds <-> p ∈ procs /\ descendant procs me p).
Proof.
  intros Hd Hn Hl H0 Hmax.
  destruct (child_loop_spec procs depth procs me n [] infos [] Hd (fun _ H => H) Hn Hl ltac:(constructor) H0 Hmax)
    as (new & shown & rest & E & H1 & H2 & H3 & H4). exists new, shown, rest. split_and!; auto.
  intros p. split.
  - intros Hp. split; [eapply elem_of_submseteq; [exact Hp|by apply sublist_submseteq]|]. rewrite Forall_forall in H4. auto.
  - intros [Hp Hdp]. auto.
Qed.

(** init, a shell and the shell's child *)
Definition demo_tree : list proc :=
  let p pid parent := set_parent (set_pid (set_state proc0 RUNNABLE) pid) parent in
  [p 1 None; p 2 (Some 0%nat); p 3 (Some 1%nat); proc0].

Lemma child_processes_descendants_witness :
  exists ds shown rest, child_processes demo_tree 0 (mkListing 0 (replicate 64 info0)) = Ok (mkListing (0 + Z.of_nat (length ds)) (shown ++ rest)) /\
    Forall2 (says demo_tree) ds shown /\ ds `sublist_of` demo_tree /\ (forall p, p ∈ ds <-> p ∈ demo_tree /\ descendant demo_tree 0 p).
Proof.
  apply (child_processes_descendants demo_tree (fun i => i) 0 0 (replicate 64 info0)).
  - intros [|[|[|[|i]]]] p j Hp Hj; try discriminate; injection Hp as <-; cbn in Hj; try discriminate; injection Hj as <-; cbn; lia.
  - apply Forall_replicate. done.
  - cbn. lia.
  - lia.
  - zcompute.
Defined.

(** Set_cpu_quota sets the quota of the caller itself or of a child of the
    caller and of nobody else.  For the first entry with the given pid it
    fails when that process has no parent; when its parent is another process
    the loop over the ancestors never moves and the call does not return,
    whether or not the target descends from the caller. *)
Theorem set_cpu_quota_outcomes me pid q s i p :
  find_index (fun p => p_pid p =? pid) (ps_procs s) = Some i -> ps_procs s !! i = Some p ->
  forall fuel, (1 <= fuel)%nat ->
  set_cpu_quota fuel me pid q s =
    if bool_decide (i = me \/ p_parent p = Some me) then Ok (0, modp s i (fun p => set_quota p (u32 q)))
    else match p_parent p with None => Ok (-1, s) | Some _ => Block end.
Proof.
  intros Hi Hp fuel Hf. unfold set_cpu_quota. rewrite Hi. unfold getp. rewrite Hp. cbn [default from_option id].
  assert (Hloop : forall n j, j <> me -> quota_walk n me (Some j) (Some j) = None).
  { induction n as [|n IH]; intros j Hj; cbn [quota_walk]; rewrite bool_decide_false by done; auto. }
  destruct fuel as [|fuel]; [lia|]. cbn [quota_walk]. destruct (bool_decide_reflect (i = me)) as [->|Hne].
  - by rewrite bool_decide_true by (by left).
  - destruct (p_parent p) as [j|] eqn:Ep.
    + destruct (decide (j = me)) as [->|Hj].
      * destruct fuel; cbn [quota_walk]; rewrite !bool_decide_true by auto; done.
      * rewrite Hloop by done. rewrite bool_decide_false; [done|]. intros [?|[= ?]]; done.
    + rewrite bool_decide_false by (intros [?|?]; done). by destruct fuel.
Qed.

(** init (the grandparent) cannot set the quota of the shell's child. *)
Lemma set_cpu_quota_outcomes_witness :
  set_cpu_quota 1000 0 3 7 (mkPs demo_tree (Some 0%nat) 4 1 0 ∅ (mkKmem ∅ 0)) = Block.
Proof.
  rewrite (set_cpu_quota_outcomes 0 3 7 (mkPs demo_tree (Some 0%nat) 4 1 0 ∅ (mkKmem ∅ 0)) 2%nat
             (set_parent (set_pid (set_state proc0 RUNNABLE) 3) (Some 1%nat)) eq_refl eq_refl 1000%nat ltac:(lia)). reflexivity.
Defined.
