(* ===== verification/ProcTree.v ===== *)
(** * The process tree

    What matters of an entry of the table for the tree: whether it is free,
    alive or a zombie, its pid and its parent.  Proved over any sequence of
    fork, exit, wait, kill, sleep, wakeup and context switches. *)

From S2P Require Import Prelude Riscv Mem Cstring Kalloc Vm Sleeplock Block Log Txn Fs FsProps Pipe File Sysfile Proc Sched ProcLife.

Inductive life := Free | Alive | Dead.
Definition life_of (p : proc) : life := match p_state p with UNUSED => Free | ZOMBIE => Dead | _ => Alive end.
Definition viewp (p : proc) : life * Z * option nat := (life_of p, p_pid p, p_parent p).
Definition view (s : psys) : list (life * Z * option nat) := viewp <$> ps_procs s.

Record tree_ok (init : option nat) (next : Z) (v : list (life * Z * option nat)) : Prop := {
  to_init : exists r pid, init = Some r /\ v !! r = Some (Alive, pid, None);
  to_parent : forall i l pid par, v !! i = Some (l, pid, par) -> l <> Free -> init <> Some i ->
    exists j pid' par', par = Some j /\ v !! j = Some (Alive, pid', par');
  to_free : forall i pid par, v !! i = Some (Free, pid, par) -> pid = 0 /\ par = None;
  to_pid : forall i l pid par, v !! i = Some (l, pid, par) -> l <> Free -> 1 <= pid < next;
  to_uniq : forall i j l l' pid par par', v !! i = Some (l, pid, par) -> v !! j = Some (l', pid, par') -> l <> Free -> l' <> Free -> i = j;
}.

Lemma insert_cases {A} (l : list A) i j x y : <[i := x]> l !! j = Some y -> (j <> i /\ l !! j = Some y) \/ (j = i /\ y = x).
Proof.
  destruct (decide (j = i)) as [->|]; [|rewrite list_lookup_insert_ne by done; auto].
  intros H. right. split; [done|]. pose proof (lookup_lt_Some _ _ _ H) as Hl. rewrite length_insert in Hl.
  rewrite list_lookup_insert_eq in H by done. congruence.
Qed.

(** ** The three changes of the tree *)
Lemma tree_fork init next v n me pidm parm :
  tree_ok init next v -> v !! n = Some (Free, 0, None) -> v !! me = Some (Alive, pidm, parm) -> 1 <= next ->
  tree_ok init (next + 1) (<[n := (Alive, next, Some me)]> v).
Proof.
  intros [H1 H2 H3 H4 H5] Hn Hme H0.
  assert (Hk : forall j pid par, v !! j = Some (Alive, pid, par) -> <[n := (Alive, next, Some me)]> v !! j = Some (Alive, pid, par)).
  { intros j pid par Hj. rewrite list_lookup_insert_ne; [done|]. intros ->. congruence. }
  split.
  - destruct H1 as (r & pid & ? & Hr). exists r, pid. auto.
  - intros i l pid par Hi Hl Hne. apply insert_cases in Hi as [[_ Hi]|[-> [= -> -> ->]]]; [|eauto 8].
    destruct (H2 _ _ _ _ Hi Hl Hne) as (j & pid' & par' & ? & ?). eauto 8.
  - intros i pid par Hi. apply insert_cases in Hi as [[_ Hi]|[-> [=]]]. eauto.
  - intros i l pid par Hi Hl. apply insert_cases in Hi as [[_ Hi]|[-> [= -> -> ->]]]; [specialize (H4 _ _ _ _ Hi Hl); lia|lia].
  - intros i j l l' pid par par' Hi Hj Hl Hl'.
    apply insert_cases in Hi as [[_ Hi]|[-> [= -> -> ->]]]; apply insert_cases in Hj as [[_ Hj]|[-> E]]; simplify_eq; auto.
    + eauto.
    + specialize (H4 _ _ _ _ Hi Hl). lia.
    + specialize (H4 _ _ _ _ Hj Hl'). lia.
Qed.

Lemma tree_reap init next v j pid par :
  tree_ok init next v -> v !! j = Some (Dead, pid, par) -> tree_ok init next (<[j := (Free, 0, None)]> v).
Proof.
  intros [H1 H2 H3 H4 H5] Hj.
  assert (Hk : forall k pid par, v !! k = Some (Alive, pid, par) -> <[j := (Free, 0, None)]> v !! k = Some (Alive, pid, par)).
  { intros k pid' par' Hk. rewrite list_lookup_insert_ne; [done|]. intros ->. congruence. }
  split.
  - destruct H1 as (r & pid' & ? & Hr). exists r, pid'. auto.
  - intros i l pid' par' Hi Hl Hne. apply insert_cases in Hi as [[_ Hi]|[-> [= -> -> ->]]]; [|done].
    destruct (H2 _ _ _ _ Hi Hl Hne) as (k & pid'' & par'' & ? & ?). eauto 8.
  - intros i pid' par' Hi. apply insert_cases in Hi as [[_ Hi]|[-> [= -> ->]]]; [eauto|done].
  - intros i l pid' par' Hi Hl. apply insert_cases in Hi as [[_ Hi]|[-> [= -> -> ->]]]; [eauto|done].
  - intros i k l l' pid' par' par'' Hi Hk' Hl Hl'.
    apply insert_cases in Hi as [[_ Hi]|[-> [= -> -> ->]]]; apply insert_cases in Hk' as [[_ Hk']|[-> E]]; simplify_eq; eauto.
Qed.

(** reparent on an entry *)
Definition adopt (init : option nat) (me : nat) (e : life * Z * option nat) : life * Z * option nat :=
  if bool_decide (e.2 = Some me) then (e.1, init) else e.

Lemma tree_exit init next v me pid par :
  tree_ok init next v -> v !! me = Some (Alive, pid, par) -> init <> Some me ->
  tree_ok init next (alter (fun e => (Dead, e.1.2, e.2)) me (adopt init me <$> v)).
Proof.
  intros [H1 H2 H3 H4 H5] Hme Hi. set (w := alter _ me _).
  assert (Hw : forall i l pid par, w !! i = Some (l, pid, par) ->
    exists l0 par0, v !! i = Some (l0, pid, par0) /\ par = (if bool_decide (par0 = Some me) then init else par0) /\
      (i = me /\ l = Dead /\ l0 = Alive \/ i <> me /\ l = l0)).
  { intros i l pid' par' E. unfold w in E. destruct (decide (i = me)) as [->|Hne].
    - rewrite list_lookup_alter_eq, list_lookup_fmap, Hme in E. unfold adopt in E. cbn in E. exists Alive, par.
      destruct (bool_decide (par = Some me)); cbn in E; injection E as <- <- <-; split_and!; auto.
    - rewrite list_lookup_alter_ne, list_lookup_fmap in E by done. apply fmap_Some in E as ([[l0 pid0] par0] & Hv & E).
      unfold adopt in E. cbn in E. exists l0, par0. destruct (bool_decide _); simplify_eq; split_and!; auto. }
  assert (Hk : forall j pid' par', j <> me -> v !! j = Some (Alive, pid', par') -> exists par'', w !! j = Some (Alive, pid', par'')).
  { intros j pid' par' Hne Hj. unfold w. rewrite list_lookup_alter_ne, list_lookup_fmap, Hj by done. cbn. unfold adopt. cbn.
    destruct (bool_decide _); eauto. }
  split.
  - destruct H1 as (r & pid' & -> & Hr). exists r, pid'. split; [done|]. unfold w. rewrite list_lookup_alter_ne, list_lookup_fmap, Hr by congruence. done.
  - intros i l pid' par' E Hl Hne. destruct (Hw _ _ _ _ E) as (l0 & par0 & Hv & -> & Hc).
    destruct (H2 i l0 pid' par0 Hv) as (j & pj & parj & -> & Hj); [destruct Hc as [(_ & _ & ->)|(_ & <-)]; done|done|].
    destruct (decide (j = me)) as [->|Hjm]; [rewrite bool_decide_true by done|rewrite bool_decide_false by congruence].
    + destruct H1 as (r & pid'' & -> & Hr). destruct (Hk r pid'' None) as [par'' Hr']; [congruence|done|]. eauto 8.
    + destruct (Hk j pj parj) as [par'' Hj']; [congruence|done|]. eauto 8.
  - intros i pid' par' E. destruct (Hw _ _ _ _ E) as (l0 & par0 & Hv & -> & [(_ & ? & _)|(_ & <-)]); [done|].
    destruct (H3 _ _ _ Hv) as [-> ->]. done.
  - intros i l pid' par' E Hl. destruct (Hw _ _ _ _ E) as (l0 & par0 & Hv & -> & Hc). eapply H4; [exact Hv|].
    destruct Hc as [(_ & _ & ->)|(_ & <-)]; done.
  - intros i j l l' pid' par' par'' Ei Ej Hl Hl'. destruct (Hw _ _ _ _ Ei) as (l0 & par0 & Hv & -> & Hc). destruct (Hw _ _ _ _ Ej) as (l1 & par1 & Hv' & -> & Hc').
    eapply H5; [exact Hv|exact Hv'| |]; [destruct Hc as [(_ & _ & ->)|(_ & <-)]|destruct Hc' as [(_ & _ & ->)|(_ & <-)]]; done.
Qed.

Lemma tree_next init next next' v : tree_ok init next v -> next <= next' -> tree_ok init next' v.
Proof. intros [H1 H2 H3 H4 H5] Hle. split; auto. intros i l pid par Hi Hl. specialize (H4 _ _ _ _ Hi Hl). lia. Qed.

(** ** The operations seen as changes of the tree *)
Lemma view_lookup s i p : ps_procs s !! i = Some p -> view s !! i = Some (viewp p).
Proof. intros H. unfold view. by rewrite list_lookup_fmap, H. Qed.

Lemma view_modp s i f p : ps_procs s !! i = Some p -> view (modp s i f) = <[i := viewp (f p)]> (view s).
Proof.
  intros H. unfold view, modp. cbn [ps_procs put_procs]. apply list_eq. intros j. rewrite list_lookup_fmap.
  destruct (decide (j = i)) as [->|].
  - rewrite list_lookup_alter_eq, list_lookup_insert_eq, H; [done|]. rewrite length_fmap. by eapply lookup_lt_Some.
  - rewrite list_lookup_alter_ne, list_lookup_insert_ne, list_lookup_fmap by done. done.
Qed.

Lemma view_keep s i f : (forall p, viewp (f p) = viewp p) -> view (modp s i f) = view s.
Proof.
  intros Hf. unfold view, modp. cbn [ps_procs put_procs]. apply list_eq. intros j. rewrite !list_lookup_fmap.
  destruct (decide (j = i)) as [->|]; [|by rewrite list_lookup_alter_ne].
  rewrite list_lookup_alter_eq. destruct (ps_procs s !! i); cbn; [by rewrite Hf|done].
Qed.

Lemma view_at s i f : viewp (f (getp s i)) = viewp (getp s i) -> view (modp s i f) = view s.
Proof.
  intros Hf. unfold view, modp. cbn [ps_procs put_procs]. apply list_eq. intros j. rewrite !list_lookup_fmap.
  destruct (decide (j = i)) as [->|]; [|by rewrite list_lookup_alter_ne].
  rewrite list_lookup_alter_eq. unfold getp in Hf. destruct (ps_procs s !! i); cbn in *; [by rewrite Hf|done].
Qed.

Lemma view_map s (g : nat -> proc -> proc) : (forall i p, viewp (g i p) = viewp p) -> view (put_procs s (imap g (ps_procs s))) = view s.
Proof.
  intros Hg. unfold view. cbn [ps_procs put_procs]. apply list_eq. intros j. rewrite !list_lookup_fmap, list_lookup_imap.
  destruct (ps_procs s !! j); cbn; [by rewrite Hg|done].
Qed.

(** The state and the fields of the tree's record that stay *)
Definition keeps (s s' : psys) : Prop := view s' = view s /\ ps_init s' = ps_init s /\ ps_nextpid s' = ps_nextpid s.

Lemma keeps_refl s : keeps s s.
Proof. done. Qed.
Lemma keeps_trans s1 s2 s3 : keeps s1 s2 -> keeps s2 s3 -> keeps s1 s3.
Proof. intros (A & B & D) (A' & B' & D'). unfold keeps. split_and!; congruence. Qed.
Lemma keeps_modp s i f : (forall p, viewp (f p) = viewp p) -> keeps s (modp s i f).
Proof. intros H. split; [by apply view_keep|done]. Qed.
Lemma keeps_at s i f : viewp (f (getp s i)) = viewp (getp s i) -> keeps s (modp s i f).
Proof. intros H. split; [by apply view_at|done]. Qed.

Lemma kill_view p : viewp (kill_proc p) = viewp p.
Proof.
  unfold kill_proc, is_state, viewp, life_of. cbn [p_state set_killed].
  destruct (bool_decide_reflect (p_state p = SLEEPING)) as [E|]; [|done]. cbn. by rewrite E.
Qed.

Lemma wakeup_keeps me chan s : keeps s (wakeup me chan s).
Proof.
  split; [|done]. apply view_map. intros i p. destruct (bool_decide _); [done|]. unfold wakeup_proc, is_state, viewp, life_of.
  destruct (bool_decide_reflect (p_state p = SLEEPING)) as [E|]; [|done]. cbn. destruct (_ =? _); [|done]. cbn. by rewrite E.
Qed.

Lemma kill_keeps pid s : keeps s (kill pid s).2.
Proof. unfold kill. destruct (find_index _ _); [|done]. apply keeps_modp, kill_view. Qed.

Lemma drop_dead_keeps deadline s : keeps s (drop_dead_processes deadline s).
Proof.
  split; [|done]. unfold view, drop_dead_processes. cbn [ps_procs put_procs]. rewrite <- list_fmap_compose. apply list_fmap_ext.
  intros _ p _. unfold compose, drop_dead. destruct (_ && _); [|done]. destruct (_ && _); [|done]. apply kill_view.
Qed.

Lemma sched_keeps i th held noff intr s s' : sched i th held noff intr s = Ok s' -> keeps s s'.
Proof.
  intros H. unfold sched in H.
  destruct (negb held); [discriminate|]. destruct (negb (noff =? 1)); [discriminate|]. destruct (is_state _ _ && _); [discriminate|].
  destruct intr; [discriminate|]. injection H as <-. eapply keeps_trans; [|by apply keeps_modp].
  destruct th as [j|]; [|apply keeps_refl]. destruct (negb _); [|apply keeps_refl]. eapply keeps_trans; [|by apply keeps_modp].
  by destruct (negb _).
Qed.

Lemma life_running s i : p_state (getp s i) = RUNNING -> (i < length (ps_procs s))%nat.
Proof.
  intros H. destruct (lt_dec i (length (ps_procs s))) as [|Hge]; [done|]. exfalso. revert H. unfold getp.
  rewrite lookup_ge_None_2 by lia. done.
Qed.

Lemma yield_keeps i th s s' : p_state (getp s i) = RUNNING -> yield i th s = Ok s' -> keeps s s'.
Proof.
  intros Hr H. eapply keeps_trans; [|by eapply sched_keeps]. apply keeps_at. unfold viewp, life_of. cbn. by rewrite Hr.
Qed.

Lemma dispatch_keeps c i s d s' : p_state (getp s i) = RUNNABLE -> dispatch c i s = Some (d, s') -> keeps s s'.
Proof.
  intros Hr H. unfold dispatch in H. destruct (choose_thread c (getp s i)) as [[[tf th] p]|] eqn:Ec; [|discriminate]. injection H as <- <-.
  assert (Hp : p_state p = p_state (getp s i) /\ p_pid p = p_pid (getp s i) /\ p_parent p = p_parent (getp s i)).
  { unfold choose_thread in Ec. destruct (is_thread _ _); [by injection Ec as <- <- <-|]. destruct (pick_thread _ _ _); [|discriminate]. by injection Ec as <- <- <-. }
  destruct Hp as (P1 & P2 & P3). set (s0 := if negb _ then _ else s).
  assert (E0 : keeps s s0 /\ getp s0 i = getp s i) by (unfold s0; by destruct (negb _)). destruct E0 as [E0 E1].
  eapply keeps_trans; [exact E0|]. apply keeps_at. rewrite E1. unfold viewp, life_of. cbn. by rewrite Hr, P2, P3.
Qed.

Lemma back_keeps d s : keeps s (dispatch_back d s).
Proof.
  unfold dispatch_back. set (s1 := modp s _ _). assert (H1 : keeps s s1) by (by apply keeps_modp). by destruct (negb _).
Qed.

Section life.
Context (kernel_end trampoline forkret : Z) (chan_of : option nat -> Z).

Lemma freeproc_view i s s' p :
  ps_procs s !! i = Some p -> freeproc kernel_end i s = Ok s' ->
  view s' = <[i := (Free, 0, None)]> (view s) /\ ps_init s' = ps_init s /\ ps_nextpid s' = ps_nextpid s.
Proof.
  intros Hp H. unfold freeproc in H. apply rbind_Ok in H as (s1 & H1 & H). apply rbind_Ok in H as (s2 & H2 & H). injection H as <-.
  assert (E1 : ps_procs s1 = ps_procs s /\ ps_init s1 = ps_init s /\ ps_nextpid s1 = ps_nextpid s).
  { clear H2. destruct (negb _); [|by injection H1 as <-]. apply rbind_Ok in H1 as (km & _ & H1). by injection H1 as <-. }
  assert (E2 : ps_procs s2 = ps_procs s1 /\ ps_init s2 = ps_init s1 /\ ps_nextpid s2 = ps_nextpid s1).
  { clear H1. destruct (negb _); [|by injection H2 as <-]. apply rbind_Ok in H2 as (km & _ & H2). by injection H2 as <-. }
  destruct E1 as (E1 & E1' & E1''), E2 as (E2 & E2' & E2'').
  rewrite (view_modp s2 i _ p) by (by rewrite E2, E1). unfold view at 1. rewrite E2, E1. split; [done|]. split; cbn; congruence.
Qed.

(** allocproc: a new living entry without a parent yet, or nothing *)
Lemma allocproc_view init s r s' :
  tree_ok init (ps_nextpid s) (view s) -> 1 <= ps_nextpid s < 2 ^ 31 - 1 -> allocproc kernel_end trampoline forkret s = Ok (r, s') ->
  ps_init s' = ps_init s /\ ps_nextpid s <= ps_nextpid s' <= ps_nextpid s + 1 /\
  match r with
  | None => view s' = view s
  | Some n => view s !! n = Some (Free, 0, None) /\ view s' = <[n := (Alive, ps_nextpid s, None)]> (view s) /\ ps_nextpid s' = ps_nextpid s + 1
  end.
Proof.
  intros Hok Hn H. unfold allocproc in H. destruct (find_index _ _) as [n|] eqn:En; [|injection H as <- <-; split_and!; auto; lia].
  apply find_index_Some in En as [(p & Hp & Hu) _]. unfold is_state in Hu. apply bool_decide_eq_true in Hu.
  assert (Hv : view s !! n = Some (Free, 0, None)).
  { rewrite (view_lookup s n p Hp). unfold viewp, life_of. rewrite Hu. destruct (to_free _ _ _ Hok n (p_pid p) (p_parent p)) as [-> ->]; [|done].
    rewrite (view_lookup s n p Hp). unfold viewp, life_of. by rewrite Hu. }
  assert (Hpar : p_parent p = None) by (rewrite (view_lookup s n p Hp) in Hv; by injection Hv).
  cbn [allocpid] in H. set (s1 := modp (put_nextpid s _) n _) in H. assert (N1 : ps_nextpid s1 = ps_nextpid s + 1) by (cbn; by rewrite s32_small by lia).
  assert (P1 : ps_procs s1 !! n = Some (init_proc (ps_nextpid s) p)).
  { unfold s1, modp. cbn [ps_procs put_procs put_nextpid]. by rewrite list_lookup_alter_eq, Hp. }
  assert (V1 : view s1 = <[n := (Alive, ps_nextpid s, None)]> (view s)).
  { unfold s1. rewrite (view_modp (put_nextpid s _) n _ p Hp). unfold viewp, life_of. cbn. by rewrite Hpar. }
  destruct (kalloc (ps_mem s1)) as [tf km]. set (s2 := modp (put_mem s1 km) n _) in H.
  assert (K2 : keeps s1 s2) by (by apply (keeps_modp (put_mem s1 km))).
  assert (P2 : exists q, ps_procs s2 !! n = Some q).
  { unfold s2, modp. cbn [ps_procs put_procs put_mem]. rewrite list_lookup_alter_eq, P1. by eexists. }
  assert (Hfree : forall s3 s4, keeps s2 s3 -> (exists q, ps_procs s3 !! n = Some q) -> freeproc kernel_end n s3 = Ok s4 ->
            view s4 = view s /\ ps_init s4 = ps_init s /\ ps_nextpid s4 = ps_nextpid s + 1).
  { intros s3 s4 (K3 & K3' & K3'') [q Hq] Hf. destruct (freeproc_view _ _ _ _ Hq Hf) as (F1 & F2 & F3). destruct K2 as (K2 & K2' & K2'').
    rewrite F1, K3, K2, V1, list_insert_insert_eq. split; [by apply list_insert_id|]. split; [rewrite F2, K3', K2'; done|lia]. }
  destruct (tf =? 0).
  { apply rbind_Ok in H as (s4 & Hf & H). injection H as <- <-. destruct (Hfree s2 s4 (keeps_refl _) P2 Hf) as (-> & -> & ->). split_and!; auto; lia. }
  apply rbind_Ok in H as ([pt km'] & _ & H). set (s3 := modp (put_mem (mod_tf s2 tf junk_tf) km') n _) in H.
  assert (K3 : keeps s2 s3) by (by apply (keeps_modp (put_mem (mod_tf s2 tf junk_tf) km'))).
  destruct (pt =? 0).
  { apply rbind_Ok in H as (s4 & Hf & H). injection H as <- <-. destruct P2 as [q Hq].
    destruct (Hfree s3 s4 K3) as (-> & -> & ->); [|exact Hf|split_and!; auto; lia].
    unfold s3, modp. cbn [ps_procs put_procs put_mem mod_tf put_tf]. rewrite list_lookup_alter_eq, Hq. by eexists. }
  injection H as <- <-. destruct K2 as (K2 & K2' & K2''), K3 as (K3 & K3' & K3'').
  destruct (keeps_modp s3 n (fun p => set_sp (set_ra p forkret) (p_kstack p + PGSIZE)) ltac:(done)) as (K4 & K4' & K4'').
  rewrite K4, K4', K4'', K3, K3', K3'', K2, K2', K2'', V1. split_and!; auto; lia.
Qed.

Lemma length_view s : length (view s) = length (ps_procs s).
Proof. apply length_fmap. Qed.

Lemma getp_view s j e : view s !! j = Some e -> viewp (getp s j) = e /\ ps_procs s !! j = Some (getp s j).
Proof.
  intros H. unfold view in H. rewrite list_lookup_fmap in H. apply fmap_Some in H as (p & Hp & ->). unfold getp. by rewrite Hp.
Qed.

Lemma reparent_step me j s :
  let s' := if bool_decide (p_parent (getp s j) = Some me)
            then wakeup (Some me) (chan_of (ps_init s)) (modp s j (fun p => set_parent p (ps_init s))) else s in
  view s' = alter (adopt (ps_init s) me) j (view s) /\ ps_init s' = ps_init s /\ ps_nextpid s' = ps_nextpid s.
Proof.
  cbv zeta. destruct (view s !! j) as [e|] eqn:Ev.
  - destruct (getp_view s j e Ev) as [E Hp]. destruct (bool_decide_reflect (p_parent (getp s j) = Some me)) as [Hm|Hm].
    + destruct (wakeup_keeps (Some me) (chan_of (ps_init s)) (modp s j (fun p => set_parent p (ps_init s)))) as (-> & -> & ->). split; [|done].
      rewrite (view_modp s j _ _ Hp). apply list_eq. intros x. destruct (decide (x = j)) as [->|].
      * rewrite list_lookup_alter_eq, list_lookup_insert_eq, Ev by (by eapply lookup_lt_Some). cbn. rewrite <- E. unfold adopt, viewp. cbn [fst snd].
        by rewrite bool_decide_true.
      * by rewrite list_lookup_alter_ne, list_lookup_insert_ne.
    + split; [|done]. apply list_eq. intros x. destruct (decide (x = j)) as [->|]; [|by rewrite list_lookup_alter_ne].
      rewrite list_lookup_alter_eq, Ev. cbn. rewrite <- E. unfold adopt, viewp. cbn [snd]. by rewrite bool_decide_false.
  - assert (Hp : ps_procs s !! j = None) by (apply lookup_ge_None; apply lookup_ge_None in Ev; by rewrite length_view in Ev).
    unfold getp. rewrite Hp. cbn [default from_option id p_parent proc0]. rewrite bool_decide_false by done. split; [|done].
    apply list_eq. intros x. destruct (decide (x = j)) as [->|]; [by rewrite list_lookup_alter_eq, Ev|by rewrite list_lookup_alter_ne].
Qed.

Lemma reparent_loop_view me k j s :
  (forall x, view (reparent_loop chan_of me k j s) !! x =
     if decide ((j <= x < j + k)%nat) then adopt (ps_init s) me <$> view s !! x else view s !! x) /\
  ps_init (reparent_loop chan_of me k j s) = ps_init s /\ ps_nextpid (reparent_loop chan_of me k j s) = ps_nextpid s.
Proof.
  revert j s. induction k as [|k IH]; intros j s; cbn [reparent_loop].
  - split; [|done]. intros x. rewrite decide_False by lia. done.
  - set (s1 := if bool_decide _ then _ else _). destruct (reparent_step me j s) as (V & I & N). fold s1 in V, I, N.
    destruct (IH (S j) s1) as (V' & I' & N'). rewrite I', N', I, N. split; [|done]. intros x. rewrite V', V, I.
    destruct (decide (x = j)) as [->|].
    + rewrite decide_False by lia. rewrite decide_True by lia. by rewrite list_lookup_alter_eq.
    + rewrite list_lookup_alter_ne by done. destruct (decide _); destruct (decide _); try done; lia.
Qed.

Lemma reparent_view me s :
  view (reparent chan_of me s) = adopt (ps_init s) me <$> view s /\ ps_init (reparent chan_of me s) = ps_init s /\
  ps_nextpid (reparent chan_of me s) = ps_nextpid s.
Proof.
  destruct (reparent_loop_view me (length (ps_procs s)) 0 s) as (V & I & N). split; [|done]. apply list_eq. intros x. unfold reparent.
  rewrite V, list_lookup_fmap. destruct (decide _) as [|Hx]; [done|]. rewrite (lookup_ge_None_2 (view s)); [done|]. rewrite length_view. lia.
Qed.

Context {C : Type} `{BO : BufOps C} `{UM : UserMem kmem} (sb : superblock).

Definition psys_ok (s : psys) : Prop := tree_ok (ps_init s) (ps_nextpid s) (view s) /\ 1 <= ps_nextpid s.

Lemma keeps_ok s s' : keeps s s' -> psys_ok s -> psys_ok s'.
Proof. intros (A & B & D) [H1 H2]. split; rewrite ?A, ?B, ?D; done. Qed.

Lemma fork_ok me (y : ksys (C := C)) r y' :
  psys_ok (y_p y) -> ps_nextpid (y_p y) < 2 ^ 31 - 1 -> p_state (getp (y_p y) me) = RUNNING ->
  fork_core kernel_end trampoline forkret me y = Ok (r, y') -> psys_ok (y_p y').
Proof.
  intros [Hok Hn] Hlt Hr H. unfold fork_core in H. apply rbind_Ok in H as ([ra s] & Ha & H).
  destruct (allocproc_view _ _ _ _ Hok (conj Hn Hlt) Ha) as (I & N & V).
  destruct ra as [n|]; [|injection H as <- <-; cbn [y_p]; split; [rewrite I, V; eapply tree_next; [exact Hok|lia]|lia]].
  destruct V as (Vn & V & N1). apply rbind_Ok in H as ([c km] & _ & H).
  assert (Hnl : (n < length (view (y_p y)))%nat) by (by eapply lookup_lt_Some).
  assert (Vs : view s !! n = Some (Alive, ps_nextpid (y_p y), None)) by (rewrite V; by apply list_lookup_insert_eq).
  destruct (c <? 0).
  { apply rbind_Ok in H as (s2 & Hf & H). injection H as <- <-. cbn [y_p]. destruct (getp_view _ _ _ Vs) as [_ Hp].
    destruct (freeproc_view n (put_mem s km) s2 _ Hp Hf) as (F1 & F2 & F3). cbn [ps_init ps_nextpid put_mem] in F2, F3.
    change (view (put_mem s km)) with (view s) in F1. rewrite V, list_insert_insert_eq, list_insert_id in F1 by done.
    split; [rewrite F1, F2, I; eapply tree_next; [exact Hok|lia]|lia]. }
  apply rbind_Ok in H as (ft & _ & H). injection H as <- <-. cbn [y_p].
  match goal with |- psys_ok (modp ?a n _) => set (s3 := a) end.
  assert (K : keeps s s3).
  { unfold s3. eapply keeps_trans; [|by apply keeps_modp]. eapply keeps_trans; [|by apply keeps_modp]. eapply keeps_trans; [|done].
    eapply keeps_trans; [|by apply (keeps_modp (put_mem s km))]. done. }
  destruct K as (K1 & K2 & K3). rewrite <- K1 in Vs. destruct (getp_view _ _ _ Vs) as [E Hp].
  assert (Hme : exists pid par, view (y_p y) !! me = Some (Alive, pid, par)).
  { pose proof (life_running _ _ Hr) as Hl. unfold getp in Hr. destruct (lookup_lt_is_Some_2 _ _ Hl) as [p Hpm]. rewrite Hpm in Hr. cbn in Hr.
    rewrite (view_lookup _ _ _ Hpm). unfold viewp, life_of. rewrite Hr. eauto. }
  destruct Hme as (pm & parm & Hme).
  split; [|cbn [ps_nextpid modp put_procs]; lia]. cbn [ps_init ps_nextpid modp put_procs].
  change (put_procs s3 _) with (modp s3 n (fun q => set_state (set_parent q (Some me)) RUNNABLE)). rewrite (view_modp s3 n _ _ Hp).
  rewrite K1, K2, K3, V, I, N1, list_insert_insert_eq.
  replace (viewp _) with (Alive, ps_nextpid (y_p y), Some me); [by eapply tree_fork|].
  unfold viewp, life_of. cbn. unfold viewp in E. by injection E as _ ->.
Qed.

Lemma exit_ok me th status (y y' : ksys (C := C)) :
  psys_ok (y_p y) -> p_state (getp (y_p y) me) = RUNNING -> exit chan_of sb me th status y = Ok y' -> psys_ok (y_p y').
Proof.
  intros [Hok Hn] Hr H. unfold exit in H. destruct (bool_decide_reflect (ps_init (y_p y) = Some me)) as [|Hi]; [discriminate|].
  apply rbind_Ok in H as (k & _ & H). apply rbind_Ok in H as (s5 & Hs & H). injection H as <-. cbn [y_p].
  eapply keeps_ok; [by eapply sched_keeps|]. clear Hs s5.
  set (s1 := modp (y_p (leave_files me k y)) me _). assert (K1 : keeps (y_p y) s1).
  { unfold s1, leave_files. cbn [y_p]. eapply keeps_trans; [|by apply keeps_modp]. by apply (keeps_modp (put_mem (y_p y) (k_u k))). }
  destruct K1 as (V1 & I1 & N1). destruct (reparent_view me s1) as (V2 & I2 & N2). set (s2 := reparent chan_of me s1) in *.
  destruct (wakeup_keeps (Some me) (chan_of (p_parent (getp s2 me))) s2) as (V3 & I3 & N3). set (s3 := wakeup _ _ s2) in *.
  assert (Hme : exists pid par, view (y_p y) !! me = Some (Alive, pid, par)).
  { pose proof (life_running _ _ Hr) as Hl. unfold getp in Hr. destruct (lookup_lt_is_Some_2 _ _ Hl) as [p Hpm]. rewrite Hpm in Hr. cbn in Hr.
    rewrite (view_lookup _ _ _ Hpm). unfold viewp, life_of. rewrite Hr. eauto. }
  destruct Hme as (pm & parm & Hme).
  split; [|cbn [ps_nextpid modp put_procs]; lia]. cbn [ps_init ps_nextpid modp put_procs]. rewrite I3, N3, I2, N2, I1, N1.
  change (put_procs s3 _) with (modp s3 me (fun p => set_state (set_xstate p status) ZOMBIE)).
  assert (Ev : view s3 !! me = Some (adopt (ps_init s1) me (Alive, pm, parm))) by (rewrite V3, V2, list_lookup_fmap, V1, Hme; done).
  destruct (getp_view _ _ _ Ev) as [E Hp]. rewrite (view_modp s3 me _ _ Hp).
  replace (<[me := _]> (view s3)) with (alter (fun e => (Dead, e.1.2, e.2)) me (adopt (ps_init (y_p y)) me <$> view (y_p y))); [by eapply tree_exit|].
  rewrite V3, V2, V1, I1. apply list_eq. intros x. destruct (decide (x = me)) as [->|]; [|by rewrite list_lookup_alter_ne, list_lookup_insert_ne].
  rewrite list_lookup_alter_eq, list_lookup_insert_eq by (rewrite length_fmap; by eapply lookup_lt_Some).
  rewrite list_lookup_fmap, Hme. cbn. rewrite <- I1, <- E. done.
Qed.

Lemma wait_ok me addr s r s' : psys_ok s -> p_state (getp s me) = RUNNING -> wait kernel_end chan_of me addr s = Ok (r, s') -> psys_ok s'.
Proof.
  intros [Hok Hn] Hr H. unfold wait in H. destruct (find_index _ _) as [j|] eqn:Ej.
  - apply find_index_Some in Ej as [(p & Hp & Hz) _]. apply andb_true_iff in Hz as [_ Hz]. unfold is_state in Hz. apply bool_decide_eq_true in Hz.
    destruct (if addr =? 0 then _ else _) as [km ok]. destruct ok; [|injection H as <- <-; done].
    apply rbind_Ok in H as (s1 & Hf & H). injection H as <- <-.
    destruct (freeproc_view j (put_mem s km) s1 p Hp Hf) as (F1 & F2 & F3). change (view (put_mem s km)) with (view s) in F1.
    cbn [ps_init ps_nextpid put_mem] in F2, F3. split; [|lia]. rewrite F1, F2, F3. eapply tree_reap; [exact Hok|].
    rewrite (view_lookup s j p Hp). unfold viewp, life_of. by rewrite Hz.
  - destruct (_ || _); injection H as <- <-; [done|]. eapply keeps_ok; [|done]. apply keeps_at. unfold viewp, life_of. cbn. by rewrite Hr.
Qed.
End life.

(** ** Any sequence of steps of the processes and the schedulers *)
Section steps.
Context (kernel_end trampoline forkret : Z) (chan_of : option nat -> Z).
Context {C : Type} `{BO : BufOps C} `{UM : UserMem kmem} (sb : superblock).
Abbreviation ksys := (ksys (C := C)).

Inductive pstep : ksys -> ksys -> Prop :=
| st_fork me y r y' : p_state (getp (y_p y) me) = RUNNING -> ps_nextpid (y_p y) < 2 ^ 31 - 1 ->
    fork kernel_end trampoline forkret me y = Ok (r, y') -> pstep y y'
| st_deadfork me ttl y r y' : p_state (getp (y_p y) me) = RUNNING -> ps_nextpid (y_p y) < 2 ^ 31 - 1 ->
    deadfork kernel_end trampoline forkret me ttl y = Ok (r, y') -> pstep y y'
| st_exit me th status y y' : p_state (getp (y_p y) me) = RUNNING -> exit chan_of sb me th status y = Ok y' -> pstep y y'
| st_wait me addr y r s' : p_state (getp (y_p y) me) = RUNNING -> wait kernel_end chan_of me addr (y_p y) = Ok (r, s') -> pstep y (mkKs s' (y_k y))
| st_kill pid y : pstep y (mkKs (kill pid (y_p y)).2 (y_k y))
| st_setkilled i y : pstep y (mkKs (setkilled i (y_p y)) (y_k y))
| st_drop deadline y : pstep y (mkKs (drop_dead_processes deadline (y_p y)) (y_k y))
| st_wakeup me chan y : pstep y (mkKs (wakeup me chan (y_p y)) (y_k y))
| st_sleep me chan y : p_state (getp (y_p y) me) = RUNNING -> pstep y (mkKs (modp (y_p y) me (sleep_enter chan)) (y_k y))
| st_woken me y : pstep y (mkKs (modp (y_p y) me sleep_leave) (y_k y))
| st_yield me th y s' : p_state (getp (y_p y) me) = RUNNING -> yield me th (y_p y) = Ok s' -> pstep y (mkKs s' (y_k y))
| st_sched me th held noff intr y s' : sched me th held noff intr (y_p y) = Ok s' -> pstep y (mkKs s' (y_k y))
| st_dispatch c i y d s' : p_state (getp (y_p y) i) = RUNNABLE -> dispatch c i (y_p y) = Some (d, s') -> pstep y (mkKs s' (y_k y))
| st_back d y : pstep y (mkKs (dispatch_back d (y_p y)) (y_k y)).

Lemma pstep_ok y y' : pstep y y' -> psys_ok (y_p y) -> psys_ok (y_p y').
Proof.
  intros H Hok; destruct H; cbn [y_p].
  - apply rbind_Ok in H1 as ([n y1] & Hf & H1). injection H1 as <- <-. by eapply fork_ok.
  - apply rbind_Ok in H1 as ([n y1] & Hf & H1). apply fork_ok in Hf; [|done..]. destruct n as [n|]; injection H1 as <- <-; [|done].
    cbn [y_p]. eapply keeps_ok; [|exact Hf]. by apply keeps_modp.
  - by eapply exit_ok.
  - by eapply wait_ok.
  - eapply keeps_ok; [apply kill_keeps|done].
  - eapply keeps_ok; [|done]. by apply keeps_modp.
  - eapply keeps_ok; [apply drop_dead_keeps|done].
  - eapply keeps_ok; [apply wakeup_keeps|done].
  - eapply keeps_ok; [|done]. apply keeps_at. unfold viewp, life_of. cbn. by rewrite H.
  - eapply keeps_ok; [|done]. by apply keeps_modp.
  - eapply keeps_ok; [by eapply yield_keeps|done].
  - eapply keeps_ok; [by eapply sched_keeps|done].
  - eapply keeps_ok; [by eapply dispatch_keeps|done].
  - eapply keeps_ok; [apply back_keeps|done].
Qed.
End steps.

(** C29: over any sequence of forks, exits, waits, kills, deadlines, sleeps,
    wakeups and context switches, every process in use except init has a
    parent that is alive, neither free nor a zombie, so each zombie has
    somebody to reap it; and no two processes in use have the same pid. *)
Theorem zombies_have_living_parents kernel_end trampoline forkret chan_of {C} `{BO : BufOps C} `{UM : UserMem kmem} sb (y y' : ksys (C := C)) :
  psys_ok (y_p y) -> rtc (pstep kernel_end trampoline forkret chan_of sb) y y' ->
  (forall i p, ps_procs (y_p y') !! i = Some p -> p_state p <> UNUSED -> ps_init (y_p y') <> Some i ->
     exists j q, p_parent p = Some j /\ ps_procs (y_p y') !! j = Some q /\ p_state q <> UNUSED /\ p_state q <> ZOMBIE) /\
  (forall i j p q, ps_procs (y_p y') !! i = Some p -> ps_procs (y_p y') !! j = Some q -> p_state p <> UNUSED -> p_state q <> UNUSED ->
     p_pid p = p_pid q -> i = j).
Proof.
  intros Hok Hs. assert (H : psys_ok (y_p y')).
  { induction Hs as [|y1 y2 y3 H12 _ IH]; [done|]. apply IH. by eapply pstep_ok. }
  destruct H as [[_ H2 _ _ H5] _].
  assert (Hl : forall p, p_state p <> UNUSED -> life_of p <> Free) by (intros p Hp; unfold life_of; by destruct (p_state p)).
  split.
  - intros i p Hp Hu Hi. destruct (H2 i (life_of p) (p_pid p) (p_parent p)) as (j & pid & par & -> & Hj); auto; [by apply view_lookup|].
    destruct (getp_view _ _ _ Hj) as [E Hq]. exists j, (getp (y_p y') j). split_and!; auto; intros E'; unfold viewp, life_of in E; rewrite E' in E; discriminate.
  - intros i j p q Hp Hq Hup Huq E. apply (H5 i j (life_of p) (life_of q) (p_pid p) (p_parent p) (p_parent q)); auto; [by apply view_lookup|].
    rewrite E. by apply view_lookup.
Qed.

(** init, a shell and its child: the shell exits. *)
#[local] Instance demo_kum : UserMem kmem := vm_usermem 0 0 0.
Definition demo_p (pid : Z) (st : procstate) (parent : option nat) : proc :=
  set_running (set_cwd (set_parent (set_pid (set_state proc0 st) pid) parent) (Some 0%nat)) 1.
Definition demo_y : ksys (C := acache) :=
  mkKs (mkPs [demo_p 1 RUNNABLE None; demo_p 2 RUNNING (Some 0%nat); demo_p 3 RUNNABLE (Some 1%nat); proc0] (Some 0%nat) 4 1 0 ∅ (mkKmem ∅ 0))
    (mkK (mkFs demo_t [set_ref (demo_file T_DIR 1 1) 3]) (replicate 100 file0) (replicate 100 file0) ∅ (mkKmem ∅ 0) [] 0%nat).
Definition demo_chan (o : option nat) : Z := match o with Some i => 1000 + Z.of_nat i | None => 0 end.
Definition demo_y' : ksys (C := acache) := match exit demo_chan demo_sb 1 None 0 demo_y with Ok y => y | _ => demo_y end.

Lemma demo_y_ok : psys_ok (y_p demo_y).
Proof.
  split; [|cbn; lia]. split.
  - exists 0%nat, 1. split; reflexivity.
  - intros [|[|[|[|i]]]] l pid par H Hl Hi; cbn in H; try discriminate; injection H as <- <- <-; cbn in Hl; try done; [exists 0%nat, 1, None|exists 1%nat, 2, (Some 0%nat)]; split; reflexivity.
  - intros [|[|[|[|i]]]] pid par H; cbn in H; try discriminate; by injection H as <- <-.
  - intros [|[|[|[|i]]]] l pid par H Hl; cbn in H; try discriminate; injection H as <- <- <-; cbn; try lia; done.
  - intros [|[|[|[|i]]]] [|[|[|[|j]]]] l l' pid par par' H H' Hl Hl'; vm_compute in H, H'; congruence.
Qed.

Lemma zombies_have_living_parents_witness :
  rtc (pstep 0 0 0 demo_chan demo_sb) demo_y demo_y' /\
  exists j q, p_parent (getp (y_p demo_y') 2) = Some j /\ ps_procs (y_p demo_y') !! j = Some q /\ p_state q <> UNUSED /\ p_state q <> ZOMBIE.
Proof.
  assert (R : rtc (pstep 0 0 0 demo_chan demo_sb) demo_y demo_y').
  { apply rtc_once. apply (st_exit _ _ _ _ _ 1 None 0); [reflexivity|vm_compute; reflexivity]. }
  split; [exact R|].
  destruct (zombies_have_living_parents 0 0 0 demo_chan demo_sb demo_y demo_y' demo_y_ok R) as [H _].
  apply (H 2%nat (getp (y_p demo_y') 2)); vm_compute; [reflexivity|discriminate|discriminate].
Defined.
