(* ===== verification/Userinit.v ===== *)
(** * The first process

    allocproc and uvmfirst, as userinit calls them on a machine that has just
    booted, always find memory; the page table, the registers and the table of
    processes they leave are described here. *)

From S2P Require Import Prelude Riscv Mem Cstring Kalloc Vm VmFacts VmProps Kvm Sleeplock Block Bio Log Txn Fs File Sysfile Proc ProcLife ProcTree.

(** ** Its page table *)
Definition unodes : list (list Z) := [[]; [255]; [255; 511]; [0]; [0; 0]].

Lemma unode_path v p : 0 <= v < PGSIZE \/ TRAPFRAME <= v < MAXVA -> path_of v p -> p ∈ unodes.
Proof.
  intros Hv Hp. change PGSIZE with 4096 in Hv. change TRAPFRAME with 274877898752 in Hv. change MAXVA with 274877906944 in Hv. unfold path_of in Hp.
  rewrite !PX_eq in Hp by lia. change (12 + 9 * 2) with 30 in Hp. change (12 + 9 * 1) with 21 in Hp. destruct Hv as [Hv|Hv].
  - replace (v / 2 ^ 30 mod 512) with 0 in Hp by zsolve. replace (v / 2 ^ 21 mod 512) with 0 in Hp by zsolve.
    destruct Hp as [-> | ->]; apply (bool_decide_unpack _); vm_compute; exact I.
  - replace (v / 2 ^ 30 mod 512) with 255 in Hp by zsolve. replace (v / 2 ^ 21 mod 512) with 511 in Hp by zsolve.
    destruct Hp as [-> | ->]; apply (bool_decide_unpack _); vm_compute; exact I.
Qed.

Definition utramp_r (trampoline : Z) : region := mkRegion TRAMPOLINE PGSIZE trampoline (Z.lor PTE_R PTE_X).
Definition trapframe_r (tf : Z) : region := mkRegion TRAPFRAME PGSIZE tf (Z.lor PTE_R PTE_W).
Definition init_r (q : Z) : region := mkRegion 0 PGSIZE q (Z.lor (Z.lor (Z.lor PTE_W PTE_R) PTE_X) PTE_U).

Ltac uconst := change TRAMPOLINE with 274877902848 in *; change TRAPFRAME with 274877898752 in *; change MAXVA with 274877906944 in *; change PGSIZE with 4096 in *.

Section first.
Context (kend : Z) (kend_pos : 0 < kend) (trampoline : Z).
Context (Htramp : 0 <= trampoline < PHYSTOP) (Htramp_al : trampoline mod PGSIZE = 0).

Lemma low_region_ok va pa perm : 0 <= va -> va mod 4096 = 0 -> va + 4096 <= MAXVA -> 0 <= pa < 2 ^ 55 -> pa mod 4096 = 0 -> 0 <= perm < 1024 ->
  region_ok (mkRegion va PGSIZE pa perm).
Proof. intros. split; cbn [r_va r_size r_pa r_perm]; uconst; split_and!; try lia; try done; try (by vm_compute); pow2; lia. Qed.

Lemma page_small q : valid_page kend q -> 0 <= q < 2 ^ 55 /\ q mod 4096 = 0.
Proof. intros (H1 & H2 & H3). change PGSIZE with 4096 in H1. change PHYSTOP with 2281701376 in H3. pow2. split; [lia|done]. Qed.

Lemma proc_pagetable_first tf s q l : valid_page kend tf -> kmem_inv kend s (q :: l) -> (5 < length (q :: l))%nat ->
  exists s' l' N, proc_pagetable kend trampoline tf s = Ok (q, s') /\ q <> 0 /\
    kvm_inv kend unodes (kmem_mem s) (q :: l) q [trapframe_r tf; utramp_r trampoline] [] (length (q :: l)) s' l' N.
Proof.
  intros Htf Hi Hl. destruct (kvm_create kend kend_pos unodes _ _ s q l Hi eq_refl eq_refl) as (s1 & E & Hq & H0); [left|].
  destruct (page_small tf Htf) as [Ht1 Ht2]. assert (Hn : length unodes = 5%nat) by reflexivity.
  unfold proc_pagetable. rewrite E. destruct (Z.eqb_spec q 0); [done|].
  destruct (mappages_inv kend kend_pos unodes _ _ _ _ _ _ _ _ _ (utramp_r trampoline) H0) as (s2 & l2 & N2 & E2 & H2 & _); [lia| |].
  { split_and!.
    - apply low_region_ok; [by vm_compute..|change PHYSTOP with 2281701376 in Htramp; pow2; lia|exact Htramp_al|by vm_compute].
    - intros v p Hv. apply unode_path. unfold in_region in Hv. cbn [utramp_r r_va r_size] in Hv. uconst. lia.
    - intros r' v Hr'. by apply not_elem_of_nil in Hr'. }
  cbn [utramp_r r_va r_size r_pa r_perm] in E2. rewrite E2. cbn [rbind]. change (0 <? 0) with false. cbv iota.
  destruct (mappages_inv kend kend_pos unodes _ _ _ _ _ _ _ _ _ (trapframe_r tf) H2) as (s3 & l3 & N3 & E3 & H3 & _); [lia| |].
  { split_and!.
    - apply low_region_ok; [by vm_compute..|done|done|by vm_compute].
    - intros v p Hv. apply unode_path. unfold in_region in Hv. cbn [trapframe_r r_va r_size] in Hv. uconst. lia.
    - intros r' v ->%list_elem_of_singleton Hv. unfold in_region in *. cbn [trapframe_r utramp_r r_va r_size] in *. uconst. lia. }
  cbn [trapframe_r r_va r_size r_pa r_perm] in E3. rewrite E3. cbn [rbind]. change (0 <? 0) with false. cbv iota. by exists s3, l3, N3.
Qed.

(** A write to a page of its own keeps the table. *)
Lemma kvm_write nodes m0 l0 root rs st T s l N q m' : kvm_inv kend nodes m0 l0 root rs st T s l N -> q ∈ st -> q ∈ l0 ->
  same_except q (kmem_mem s) m' -> mem_bytes m' -> kvm_inv kend nodes m0 l0 root rs st T (set_mem s m') l N.
Proof.
  intros [Hwf Ht Hn Hc [Hf Hd] Hfr Hlow Hkept] Hq Hq0 Hs Hb. rewrite Forall_forall in Hf. pose proof (Hf q Hq) as Hfor.
  destruct (foreign_write kend s l root N q m' Hwf Hfor Hs Hb) as [Hwf' He]. split; auto.
  - intros v Hv. cbn [set_mem kmem_mem]. by rewrite He, Ht.
  - split; [|done]. by rewrite Forall_forall.
  - intros x Hx. cbn [set_mem kmem_mem]. rewrite Hs; [auto|]. destruct Hfor as ((_ & Hk & _) & _). unfold in_page. lia.
  - intros r Hr Hrl. destruct (Hkept r Hr Hrl) as [K1 K2]. split; [done|]. intros x Hx. cbn [set_mem kmem_mem].
    assert (Hpe : page_eq r (kmem_mem s) m') by (apply (page_eq_of_same_except kend q); [apply Hfor|done|intros ->; done|done]). by rewrite Hpe, K2.
Qed.

Lemma uvmfirst_first m0 l0 root tf T s l N src :
  kvm_inv kend unodes m0 l0 root [trapframe_r tf; utramp_r trampoline] [] T s l N -> (6 < T)%nat -> src + 52 <= kend ->
  exists q s' l' N', uvmfirst root src 52 s = Ok s' /\ q ∈ l /\
    kvm_inv kend unodes m0 l0 root [init_r q; trapframe_r tf; utramp_r trampoline] [q] (T - 1) s' l' N' /\
    (forall i, 0 <= i < PGSIZE -> rd (kmem_mem s') (q + i) = if i <? 52 then rd m0 (src + i) else 0).
Proof.
  intros Hi HT Hsrc. assert (Hn : length unodes = 5%nat) by reflexivity.
  destruct (kvm_kalloc kend kend_pos unodes _ _ _ _ _ _ _ _ _ Hi ltac:(lia)) as (q & s1 & l1 & E & El & _ & Hq & Hqr & Hqa & H1). cbn [app] in H1.
  assert (Hql0 : q ∈ l0) by (destruct (kv_free _ _ _ _ _ _ _ _ _ _ _ Hi) as [c Hc]; rewrite Hc, El; set_solver).
  assert (Hfor : forall rs T' s l N, kvm_inv kend unodes m0 l0 root rs [q] T' s l N -> foreign kend l N q).
  { intros rs T' s2 l2 N2 H2. destruct (kv_stacks _ _ _ _ _ _ _ _ _ _ _ H2) as [Hf _]. by inversion_clear Hf. }
  unfold uvmfirst. change (PGSIZE <=? 52) with false. cbv iota. rewrite E. set (s2 := set_mem s1 _).
  assert (H2 : kvm_inv kend unodes m0 l0 root [trapframe_r tf; utramp_r trampoline] [q] (T - 1) s2 l1 N).
  { apply (kvm_write _ _ _ _ _ _ _ _ _ _ q); [exact H1|by left|done| |].
    - intros a Ha. unfold in_page in Ha. rewrite rd_memset. repeat bcase; cbn [andb]; try lia; reflexivity.
    - apply memset_mem_bytes. apply (ki_bytes kend s1 l1), (pw_kmem _ _ _ _ _ (kv_wf _ _ _ _ _ _ _ _ _ _ _ H1)). }
  destruct (mappages_inv kend kend_pos unodes _ _ _ _ _ _ _ _ _ (init_r q) H2) as (s3 & l3 & N3 & E3 & H3 & Hkeep); [lia| |].
  { split_and!.
    - apply low_region_ok; [by vm_compute..|done|done|by vm_compute].
    - intros v p Hv. apply unode_path. unfold in_region in Hv. cbn [init_r r_va r_size] in Hv. uconst. lia.
    - intros r' v Hr' Hv. unfold in_region in *. cbn [init_r r_va r_size] in Hv. repeat (apply elem_of_cons in Hr' as [->|Hr']); [..|by apply not_elem_of_nil in Hr'];
        cbn [trapframe_r utramp_r r_va r_size]; uconst; lia. }
  cbn [init_r r_va r_size r_pa r_perm] in E3. rewrite E3. cbn [rbind].
  assert (Hb3 : mem_bytes (kmem_mem s3)) by apply (ki_bytes kend s3 l3), (pw_kmem _ _ _ _ _ (kv_wf _ _ _ _ _ _ _ _ _ _ _ H3)).
  exists q, (set_mem s3 (memmove (kmem_mem s3) q src 52)), l3, N3. split; [done|]. split; [rewrite El; left|]. split.
  - apply (kvm_write _ _ _ _ _ _ _ _ _ _ q); [exact H3|by left|done| |by apply memmove_mem_bytes].
    intros a Ha. unfold in_page in Ha. change PGSIZE with 4096 in Ha. rewrite rd_memmove by lia. repeat bcase; cbn [andb]; try lia; reflexivity.
  - intros i Hi'. cbn [set_mem kmem_mem]. rewrite rd_memmove by lia. change PGSIZE with 4096 in Hi'.
    destruct (pk_foreign _ _ _ _ _ _ _ Hkeep q (Hfor _ _ _ _ _ H2)) as [_ Hpe].
    destruct (Z.ltb_spec i 52).
    + replace (q + i - q + src) with (src + i) by lia. rewrite (kv_low _ _ _ _ _ _ _ _ _ _ _ H3) by lia. repeat bcase; cbn [andb]; try lia; reflexivity.
    + rewrite (proj2 (Z.ltb_ge (q + i) (q + 52))), andb_false_r by lia. rewrite Hpe by (unfold in_page; change PGSIZE with 4096; lia). cbn [s2 set_mem kmem_mem]. rewrite rd_memset.
      change PGSIZE with 4096. repeat bcase; cbn [andb]; try lia; reflexivity.
Qed.

(** ** userinit *)
Context (forkret : Z) {C : Type} `{BO : BufOps C} (sb : superblock).

(** The table of processes once userinit is done *)
Definition init_p (tf root : Z) : proc :=
  let p := set_pagetable (set_trapframe (init_proc 1 (set_kstack (set_state proc0 UNUSED) (KSTACK 0))) tf) root in
  let p := set_sz (set_sp (set_ra p forkret) (KSTACK 0 + PGSIZE)) PGSIZE in
  set_state (Proc.set_cwd (set_name p (initcode_name ++ replicate 7 0)) (Some 0%nat)) RUNNABLE.
Definition init_procs (tf root : Z) : list proc := <[0%nat := init_p tf root]> (Proc.procinit (replicate 64 proc0)).

Lemma init_view tf root s : ps_procs s = init_procs tf root -> view s = (Alive, 1, None) :: replicate 63 (Free, 0, None).
Proof. intros E. unfold view. rewrite E. reflexivity. Qed.

Lemma init_tree : tree_ok (Some 0%nat) 2 ((Alive, 1, None) :: replicate 63 (Free, 0, None)).
Proof.
  assert (Hr : forall i (e : life * Z * option nat), ((Alive, 1, None) :: replicate 63 (Free, 0, None)) !! i = Some e -> (i = 0%nat /\ e = (Alive, 1, None)) \/ e = (Free, 0, None)).
  { intros [|i] e H; [injection H as <-; by left|right]. by apply lookup_replicate in H as [-> _]. }
  split.
  - by exists 0%nat, 1.
  - intros i l pid par H Hl Hi. by destruct (Hr _ _ H) as [[-> _]|[= -> -> ->]].
  - intros i pid par H. by destruct (Hr _ _ H) as [[_ [=]]|[= -> ->]].
  - intros i l pid par H Hl. destruct (Hr _ _ H) as [[_ [= -> -> ->]]|[= -> -> ->]]; [lia|done].
  - intros i j l l' pid par par' H H' Hl Hl'. destruct (Hr _ _ H) as [[-> _]|[= -> _ _]]; [|done]. by destruct (Hr _ _ H') as [[-> _]|[= -> _ _]].
Qed.

(** namei("/") needs no disk: it only takes the root inode from the table. *)
Lemma namei_root (x : fs (log * C)) pid : fs_itable x = replicate 50 inode0 ->
  namei sb pid 0 [slash] x = Ok (Some 0%nat, mkFs (fs_t x) (mkInode ROOTDEV ROOTINO 1 initsleeplock false 0 0 0 0 0 (replicate 13 0) :: replicate 49 inode0)).
Proof. destruct x as [t it]. cbn [fs_itable]. intros ->. reflexivity. Qed.

(** The steps of userinit when the memory is there: slot 0 is free, and the
    rest of the table does not matter. *)
Definition slot0 : proc := set_kstack (set_state proc0 UNUSED) (KSTACK 0).

Section steps.
Context (p : proc) (rest : list proc) (ini : option nat) (np nt ticks : Z) (tfs : gmap Z trapframe) (km : kmem).
Abbreviation st := (mkPs (p :: rest) ini np nt ticks tfs km).
Lemma modp_mk f : modp st 0 f = mkPs (f p :: rest) ini np nt ticks tfs km.
Proof. reflexivity. Qed.
Lemma put_mem_mk x : put_mem st x = mkPs (p :: rest) ini np nt ticks tfs x.
Proof. reflexivity. Qed.
Lemma put_init_mk x : put_init st x = mkPs (p :: rest) x np nt ticks tfs km.
Proof. reflexivity. Qed.
Lemma mod_tf_mk pa tf : mod_tf st pa tf = mkPs (p :: rest) ini np nt ticks (<[pa := tf]> tfs) km.
Proof. reflexivity. Qed.
Lemma getp_mk : getp st 0 = p.
Proof. reflexivity. Qed.
Lemma get_tf_mk pa : get_tf st pa = default [] (tfs !! pa).
Proof. reflexivity. Qed.
Lemma ps_mem_mk : ps_mem st = km.
Proof. reflexivity. Qed.
End steps.
Ltac psteps := repeat first [rewrite modp_mk|rewrite put_mem_mk|rewrite put_init_mk|rewrite mod_tf_mk|rewrite getp_mk|rewrite get_tf_mk|rewrite ps_mem_mk].

Lemma userinit_steps rest ini nt ticks tfs km (k : kst C kmem) initcode tf s1 root s2 s3 :
  kalloc km = (tf, s1) -> tf <> 0 -> proc_pagetable kend trampoline tf s1 = Ok (root, s2) -> root <> 0 -> uvmfirst root initcode 52 s2 = Ok s3 ->
  fs_itable (k_fs k) = replicate 50 inode0 ->
  userinit kend trampoline forkret sb initcode (mkKs (mkPs (slot0 :: rest) ini 1 nt ticks tfs km) k) =
  Ok (mkKs (mkPs (init_p tf root :: rest) (Some 0%nat) 2 nt ticks (<[tf := <[TF_sp := PGSIZE]> (<[TF_epc := 0]> junk_tf)]> (<[tf := junk_tf]> tfs)) s3)
        (set_fs k (mkFs (fs_t (k_fs k)) (mkInode ROOTDEV ROOTINO 1 initsleeplock false 0 0 0 0 0 (replicate 13 0) :: replicate 49 inode0)))).
Proof.
  intros E1 Htf E2 Hroot E3 Hit. unfold userinit, allocproc. cbn [y_p y_k ps_procs]. change (find_index _ (slot0 :: rest)) with (Some 0%nat). cbv iota.
  change (allocpid (mkPs (slot0 :: rest) ini 1 nt ticks tfs km)) with (1, mkPs (slot0 :: rest) ini 2 nt ticks tfs km). cbv iota zeta.
  psteps. rewrite E1. cbv iota zeta. psteps. rewrite (proj2 (Z.eqb_neq tf 0) Htf).
  rewrite E2. cbn [rbind]. cbv iota zeta. psteps. rewrite (proj2 (Z.eqb_neq root 0) Hroot). cbn [rbind]. cbv iota zeta. psteps.
  match goal with |- context [uvmfirst ?a _ _ _] => change a with root end. rewrite E3. cbn [rbind]. psteps.
  match goal with |- context [p_trapframe ?a] => change (p_trapframe a) with tf end.
  rewrite lookup_insert_eq. cbn [default]. psteps. rewrite (namei_root (k_fs k) _ Hit). cbn [rbind]. psteps. reflexivity.
Qed.

Lemma userinit_first (y : ksys (C := C)) l initcode :
  kmem_inv kend (ps_mem (y_p y)) l -> (9 <= length l)%nat -> initcode + 52 <= kend ->
  ps_procs (y_p y) = Proc.procinit (replicate 64 proc0) -> ps_nextpid (y_p y) = 1 -> fs_itable (k_fs (y_k y)) = replicate 50 inode0 ->
  exists y' tf root l1 m1 q l' N,
    userinit kend trampoline forkret sb initcode y = Ok y' /\ l = tf :: l1 /\ valid_page kend tf /\ same_except tf (kmem_mem (ps_mem (y_p y))) m1 /\
    kvm_inv kend unodes m1 l1 root [init_r q; trapframe_r tf; utramp_r trampoline] [q] (length l1 - 1) (ps_mem (y_p y')) l' N /\
    (forall i, 0 <= i < PGSIZE -> rd (kmem_mem (ps_mem (y_p y'))) (q + i) = if i <? 52 then rd (kmem_mem (ps_mem (y_p y))) (initcode + i) else 0) /\
    ps_procs (y_p y') = init_procs tf root /\ ps_init (y_p y') = Some 0%nat /\ ps_nextpid (y_p y') = 2 /\
    get_tf (y_p y') tf = <[TF_sp := PGSIZE]> (<[TF_epc := 0]> junk_tf) /\
    y_k y' = set_fs (y_k y) (mkFs (fs_t (k_fs (y_k y))) (mkInode ROOTDEV ROOTINO 1 initsleeplock false 0 0 0 0 0 (replicate 13 0) :: replicate 49 inode0)).
Proof.
  intros Hi Hl Hsrc Hp Hn Hit. destruct y as [[procs ini np nt ticks tfs km] k]. cbn [y_p y_k ps_mem ps_procs ps_nextpid] in *. subst procs np.
  destruct l as [|tf [|root l]]; [cbn [length] in Hl; lia..|].
  destruct (kalloc_spec kend kend_pos km _ Hi) as (s1 & E1 & Hi1 & Hs1 & _).
  assert (Htf : valid_page kend tf) by (pose proof (ki_valid _ _ _ Hi) as Hv; by inversion_clear Hv).
  assert (Htf0 : tf <> 0) by (apply valid_page_range in Htf; [lia|done]).
  destruct (proc_pagetable_first tf s1 root l Htf Hi1) as (s2 & l2 & N2 & E2 & Hroot & H2); [cbn [length] in *; lia|].
  destruct (uvmfirst_first (kmem_mem s1) (root :: l) root tf _ s2 l2 N2 initcode H2) as (q & s3 & l3 & N3 & E3 & Hq & H3 & Hb); [cbn [length] in *; lia|done|].
  change (Proc.procinit (replicate 64 proc0)) with (slot0 :: tail (Proc.procinit (replicate 64 proc0))).
  eexists _, tf, root, (root :: l), (kmem_mem s1), q, l3, N3. split; [by apply (userinit_steps _ ini nt ticks tfs km k initcode tf s1 root s2 s3)|].
  cbn [y_p y_k ps_mem ps_procs ps_init ps_nextpid]. split; [reflexivity|]. split; [exact Htf|]. split; [exact Hs1|]. split; [exact H3|].
  split; [|split; [reflexivity|split; [reflexivity|split; [reflexivity|split; [|reflexivity]]]]].
  - intros i Hi'. rewrite Hb by done. destruct (Z.ltb_spec i 52); [|reflexivity]. apply Hs1. destruct Htf as (_ & Hk & _). unfold in_page. lia.
  - unfold get_tf. cbn [ps_tf]. by rewrite lookup_insert_eq.
Qed.
End first.
