(* ===== verification/Report.v ===== *)
(** * Trap reports: log_trap and store_trap of kernel/trap.c, myrep and sysrep of kernel/proc.c

    The ring of the last reports in memory, and the copy kept in
    /reports.bin.  Proved: after any number of traps a process asking for its
    reports gets, in order, those among the last REPORT_BUFFER_SIZE that come
    from its descendants; and what storing reports does to the inode. *)

From S2P Require Import Prelude Riscv Mem Cstring Kalloc Vm Sleeplock Block Bio Log Txn Fs FsProps Pipe File Sysfile Proc ProcInfo.

Definition REPORT_BUFFER_SIZE : Z := 10.

Record report := mkReport {
  r_pname : list Z; r_pid : Z; r_ancestors : list Z; r_ancestors_count : Z; r_scause : Z; r_sepc : Z; r_stval : Z;
}.
Definition report0 : report := mkReport (replicate 16 0) 0 (replicate (Z.to_nat NPROC) 0) 0 0 0 0.

(** struct internal_report_list; struct report_traps has no write_index *)
Record report_list := mkRl { rl_reports : list report; rl_count : Z; rl_write : Z }.
Record report_traps := mkRt { rt_reports : list report; rt_count : Z }.

(** ** log_trap *)

(** The walk over the ancestors; r.ancestors has NPROC elements. *)
Fixpoint ancestors_loop (fuel : nat) (procs : list proc) (parent : option nat) (ac : Z) (anc : list Z) : res (list Z * Z) :=
  match parent with
  | None => Ok (anc, ac)
  | Some j =>
      match fuel with
      | O => Block
      | S fuel' =>
          if NPROC <=? ac then Panic "log_trap: ancestors overflow"
          else
            let p := default proc0 (procs !! j) in
            ancestors_loop fuel' procs (p_parent p) (ac + 1) (setZ anc ac (p_pid p))
      end
  end.

(** [r] is what the stack held. *)
Definition make_report (r : report) (procs : list proc) (p : proc) (scause sepc stval : Z) : res report :=
  let* (anc, ac) := ancestors_loop (S (length procs)) procs (p_parent p) 0 (r_ancestors r) in
  Ok (mkReport (strncpy (r_pname r) (arr (p_name p)) 16) (p_pid p) anc ac scause sepc stval).

(** ** The ring *)
Definition push_report (r : report) (l : report_list) : report_list :=
  mkRl (<[Z.to_nat (rl_write l) := r]> (rl_reports l)) (s32 (rl_count l + 1)) ((rl_write l + 1) mod REPORT_BUFFER_SIZE).

(** Is [pid] among the first anc_count ancestors? *)
Fixpoint is_ancestor (k : nat) (j : Z) (pid : Z) (anc : list Z) : bool :=
  match k with
  | O => false
  | S k' => if nthZ anc j =? pid then true else is_ancestor k' (j + 1) pid anc
  end.
Definition concerns (pid : Z) (r : report) : bool := is_ancestor (Z.to_nat (r_ancestors_count r)) 0 pid (r_ancestors r).

(** rt->reports[rt->count++] = r; the array has REPORT_BUFFER_SIZE elements. *)
Definition append_report (r : report) (rt : report_traps) : res report_traps :=
  if (0 <=? rt_count rt) && (rt_count rt <? REPORT_BUFFER_SIZE)
  then Ok (mkRt (<[Z.to_nat (rt_count rt) := r]> (rt_reports rt)) (rt_count rt + 1))
  else Panic "myrep: overflow".

Fixpoint myrep_loop (k : nat) (i : Z) (pid : Z) (l : report_list) (read_index : Z) (rt : report_traps) : res report_traps :=
  match k with
  | O => Ok rt
  | S k' =>
      if i <? rl_count l then
        let r := default report0 (rl_reports l !! Z.to_nat read_index) in
        let* rt := (if concerns pid r then append_report r rt else Ok rt) in
        myrep_loop k' (i + 1) pid l ((read_index + 1) mod REPORT_BUFFER_SIZE) rt
      else Ok rt
  end.
Definition myrep (pid : Z) (l : report_list) (rt : report_traps) : res report_traps :=
  let read_index := if rl_count l <=? REPORT_BUFFER_SIZE then 0 else rl_write l in
  myrep_loop (Z.to_nat REPORT_BUFFER_SIZE) 0 pid l read_index rt.

(** ** The file *)

(** struct report as bytes: 16 + 4 + 4 * NPROC + 4 and three words *)
Definition report_bytes (r : report) : list Z :=
  r_pname r ++ le_encode 4 (u32 (r_pid r)) ++ concat ((fun a => le_encode 4 (u32 a)) <$> r_ancestors r) ++
  le_encode 4 (u32 (r_ancestors_count r)) ++ le_encode 8 (u64 (r_scause r)) ++ le_encode 8 (u64 (r_sepc r)) ++ le_encode 8 (u64 (r_stval r)).
Definition REPORT_SIZE : Z := 304.
Definition reports_path : list Z := [47; 114; 101; 112; 111; 114; 116; 115; 46; 98; 105; 110; 0].

Section store.
Context {C : Type} `{BO : BufOps C} {U : Type} `{UM : UserMem U}.
Context (sb : superblock) (me : Z) (killed : bool).
Abbreviation kst := (kst C U).

Definition mod_kft (s : kst) (fi : nat) (f : file -> file) : kst := set_kft s (alter f fi (k_kft s)).

(** The file structure store_trap and sysrep fill in *)
Definition as_inode (f : file) : file := set_ftype f FD_INODE.
Definition with_ip (ip : option nat) (f : file) : file :=
  mkFile (f_type f) (f_ref f) (f_readable f) (f_writable f) (f_pipe f) ip (f_off f) (f_major f).
Definition for_writing (f : file) : file := mkFile (f_type f) 1 (f_readable f) true (f_pipe f) (f_ip f) 0 (f_major f).
Definition for_reading (f : file) : file := mkFile (f_type f) 1 true (f_writable f) (f_pipe f) (f_ip f) 0 (f_major f).

(** [countbuf] and [rbuf]: the addresses of count and r on the kernel stack *)
Definition store_trap (countbuf rbuf : Z) (r : report) (l : report_list) (s : kst) : res (report_list * kst) :=
  match kfilealloc (k_kft s) with
  | None => Panic "store_trap: null file"
  | Some (fi, kft) =>
      let s := mod_kft (set_kft s kft) fi as_inode in
      let* s := (match f_ip (getf (k_kft s) fi) with
                 | Some _ => Ok s
                 | None =>
                     let* s := kbegin s in
                     let* (ip, s) := kfilecreate sb me reports_path T_FILE 0 0 s in
                     kend (mod_kft s fi (with_ip ip))
                 end) in
      let s := mod_kft s fi for_writing in
      let l := push_report r l in
      let s := set_u s (um_kput (um_kput (k_u s) countbuf (le_encode 4 (u32 (rl_count l)))) rbuf (report_bytes r)) in
      let* (_, s) := kfileseek fi 0 SEEK_SET s in
      let* (_, s) := kfilewrite sb killed fi countbuf 4 s in
      let* (_, s) := kfileseek fi 0 SEEK_END s in
      let* (_, s) := kfilewrite sb killed fi rbuf REPORT_SIZE s in
      let* s := kfileclose sb me fi s in
      Ok (l, s)
  end.

Definition log_trap (junk : report) (countbuf rbuf : Z) (procs : list proc) (p : proc) (scause sepc stval : Z) (l : report_list) (s : kst)
    : res (report_list * kst) :=
  let* r := make_report junk procs p scause sepc stval in
  store_trap countbuf rbuf r l s.

(** sysrep's reads: [rt] is the address of the struct, count after the reports *)
Fixpoint read_reports (k : nat) (i : Z) (count fi_rt : Z) (fi : nat) (s : kst) : res kst :=
  match k with
  | O => Ok s
  | S k' =>
      if i <? count then
        let* (_, s) := kfileread sb killed fi (fi_rt + i * REPORT_SIZE) REPORT_SIZE s in
        read_reports k' (i + 1) count fi_rt fi s
      else Ok s
  end.

Definition sysrep (rt : Z) (s : kst) : res (Z * kst) :=
  match kfilealloc (k_kft s) with
  | None => Panic "sysrep: null file"
  | Some (fi, kft) =>
      let s := mod_kft (set_kft s kft) fi as_inode in
      match f_ip (getf (k_kft s) fi) with
      | None =>
          let* s := kbegin s in
          let* (ip, s) := kfilecreate sb me reports_path T_FILE 0 0 s in
          let s := mod_kft s fi (with_ip ip) in
          let* s := (match ip with None => Panic "iunlock" | Some i => kiunlockput sb me i s end) in
          let* s := kend s in
          Ok (0, s)
      | Some _ =>
          let s := mod_kft s fi for_reading in
          let cnt_at := rt + REPORT_BUFFER_SIZE * REPORT_SIZE in
          let* (_, s) := kfileseek fi 0 SEEK_SET s in
          let* (_, s) := kfileread sb killed fi cnt_at 4 s in
          let* (_, s) := kfileseek fi (-10 * REPORT_SIZE) SEEK_END s in
          let count := s32 (le_decode (um_kget (k_u s) cnt_at 4)) in
          let* s := read_reports (Z.to_nat REPORT_BUFFER_SIZE) 0 count rt fi s in
          let* s := kfileclose sb me fi s in
          Ok (0, s)
      end
  end.
End store.

(** ** The ring holds the last reports *)
Record ring_ok (l : report_list) (hs : list report) : Prop := {
  rg_len : length (rl_reports l) = 10%nat;
  rg_count : rl_count l = Z.of_nat (length hs);
  rg_write : rl_write l = Z.of_nat (length hs) mod 10;
  rg_last : forall j r, hs !! j = Some r -> (length hs <= j + 10)%nat -> rl_reports l !! Z.to_nat (Z.of_nat j mod 10) = Some r;
}.

Lemma push_ring l hs r : ring_ok l hs -> Z.of_nat (length hs) + 1 < 2 ^ 31 -> ring_ok (push_report r l) (hs ++ [r]).
Proof.
  intros [H1 H2 H3 H4] Hmax. unfold push_report. split; cbn [rl_reports rl_count rl_write]; rewrite ?length_app; cbn [length].
  - by rewrite length_insert.
  - rewrite H2, s32_small by lia. lia.
  - rewrite H3. change REPORT_BUFFER_SIZE with 10. zsolve.
  - intros j x Hj Hl. rewrite H3. apply lookup_app_Some in Hj as [Hj|[Hge Hj]].
    + pose proof (lookup_lt_Some _ _ _ Hj). rewrite list_lookup_insert_ne; [apply H4; [done|lia]|]. zsolve.
    + apply list_lookup_singleton_Some in Hj as [Hj ->]. replace j with (length hs) by lia.
      apply list_lookup_insert_eq. rewrite H1. zsolve.
Qed.

Lemma append_spec r rt pre rest x :
  rt_reports rt = pre ++ x :: rest -> rt_count rt = Z.of_nat (length pre) -> (length pre < 10)%nat ->
  append_report r rt = Ok (mkRt (pre ++ r :: rest) (Z.of_nat (length (pre ++ [r])))).
Proof.
  intros E Hc Hl. unfold append_report. change REPORT_BUFFER_SIZE with 10. rewrite Hc.
  destruct (Z.leb_spec 0 (Z.of_nat (length pre))); [|lia]. destruct (Z.ltb_spec (Z.of_nat (length pre)) 10); [|lia]. cbn [andb].
  rewrite E, Nat2Z.id. rewrite length_app. cbn [length]. do 2 f_equal; [|lia].
  replace (length pre) with (length pre + 0)%nat at 1 by lia. by rewrite insert_app_r.
Qed.

Lemma myrep_loop_spec pid l hs k i j rt pre rest :
  ring_ok l hs -> (length hs <= j + 10)%nat -> 0 <= i -> (j = Z.to_nat i + (length hs - Nat.min 10 (length hs)))%nat ->
  (Z.to_nat i + k = 10)%nat -> rt_reports rt = pre ++ rest -> rt_count rt = Z.of_nat (length pre) -> (length (drop j hs) <= length rest)%nat -> (length pre + length (drop j hs) <= 10)%nat ->
  exists rest', myrep_loop k i pid l (Z.of_nat j mod 10) rt =
    Ok (mkRt (pre ++ filter (fun r => concerns pid r = true) (drop j hs) ++ rest') (Z.of_nat (length pre + length (filter (fun r => concerns pid r = true) (drop j hs))))).
Proof.
  intros Hok. revert i j rt pre rest. induction k as [|k IH]; intros i j rt pre rest Hj Hi Hji Hik Ert Ec Hl Hm; cbn [myrep_loop].
  - rewrite drop_ge by lia. cbn. exists rest. rewrite Nat.add_0_r, <- Ec, <- Ert. by destruct rt.
  - rewrite (rg_count _ _ Hok). destruct (Z.ltb_spec i (Z.of_nat (length hs))) as [Hlt|Hge].
    2:{ rewrite drop_ge by lia. cbn. exists rest. rewrite Nat.add_0_r, <- Ec, <- Ert. by destruct rt. }
    destruct (lookup_lt_is_Some_2 hs j) as [r Hr]; [lia|].
    rewrite (rg_last _ _ Hok j r Hr Hj). cbn [default from_option id].
    assert (Hd : drop j hs = r :: drop (S j) hs) by (by apply drop_S).
    assert (Hix : (Z.of_nat j mod 10 + 1) mod REPORT_BUFFER_SIZE = Z.of_nat (S j) mod 10) by (change REPORT_BUFFER_SIZE with 10; zsolve).
    rewrite Hix, Hd, filter_cons. rewrite Hd in Hl, Hm. cbn [length] in Hl, Hm. destruct (concerns pid r) eqn:Ecn.
    + rewrite decide_True by done. destruct rest as [|x rest]; [cbn in Hl; lia|].
      rewrite (append_spec r rt pre rest x Ert Ec) by lia. cbn [rbind].
      destruct (IH (i + 1) (S j) (mkRt (pre ++ r :: rest) (Z.of_nat (length (pre ++ [r])))) (pre ++ [r]) rest) as (rest' & ->); try lia.
      * cbn. by rewrite <- app_assoc.
      * done.
      * cbn in Hl. lia.
      * rewrite length_app. cbn. lia.
      * exists rest'. rewrite <- app_assoc, length_app. cbn [app length]. do 2 f_equal. lia.
    + rewrite decide_False by done. cbn [rbind]. apply (IH (i + 1) (S j) rt pre rest); try lia; done.
Qed.

(** Reports stored one after the other *)
Definition store_all (rs : list report) (l : report_list) : report_list := foldl (fun l r => push_report r l) l rs.

Lemma store_all_ring rs l hs : ring_ok l hs -> Z.of_nat (length hs + length rs) < 2 ^ 31 -> ring_ok (store_all rs l) (hs ++ rs).
Proof.
  revert l hs. induction rs as [|r rs IH]; intros l hs H Hm; cbn [store_all foldl]; [by rewrite app_nil_r|].
  cbn [length] in Hm. replace (hs ++ r :: rs) with ((hs ++ [r]) ++ rs) by (by rewrite <- app_assoc).
  apply IH; [apply push_ring; [done|lia]|]. rewrite length_app. cbn [length]. lia.
Qed.

Definition empty_ring : report_list := mkRl (replicate 10 report0) 0 0.
Lemma empty_ring_ok : ring_ok empty_ring [].
Proof. split; try done. Qed.



(** ** A report names the ancestors *)
Fixpoint chain (fuel : nat) (procs : list proc) (parent : option nat) : list nat :=
  match parent, fuel with
  | Some j, S fuel' => j :: chain fuel' procs (p_parent (default proc0 (procs !! j)))
  | _, _ => []
  end.

Lemma chain_spec procs depth fuel parent :
  depths procs depth -> (forall j, parent = Some j -> (depth j < fuel)%nat) ->
  forall k, k ∈ chain fuel procs parent <-> exists j, parent = Some j /\ rtc (parent_rel procs) j k.
Proof.
  intros Hd. revert parent. induction fuel as [|fuel IH]; intros [j|] Hf k; cbn [chain].
  - specialize (Hf j eq_refl). lia.
  - split; [by intros ?%not_elem_of_nil|by intros (? & ? & _)].
  - rewrite elem_of_cons, IH.
    + split.
      * intros [->|(j' & Hj' & Hr)]; [exists j; split; [done|apply rtc_refl]|]. exists j. split; [done|].
        destruct (procs !! j) as [p|] eqn:Hj; [|done]. cbn in Hj'. eapply rtc_l; [|exact Hr]. by exists p.
      * intros (j' & [= <-] & Hr). apply rtc_inv in Hr as [->|(j' & (p & Hp & Hpar) & Hr)]; [by left|right]. exists j'. by rewrite Hp.
    + intros j' Hj'. destruct (procs !! j) as [p|] eqn:Hj; [|done]. specialize (Hf j eq_refl). specialize (Hd _ _ _ Hj Hj'). lia.
  - split; [by intros ?%not_elem_of_nil|by intros (? & ? & _)].
Qed.

Definition chain_pids (procs : list proc) (js : list nat) : list Z := (fun j => p_pid (default proc0 (procs !! j))) <$> js.

Lemma ancestors_loop_spec procs depth fuel parent ac anc :
  depths procs depth -> (forall j, parent = Some j -> (depth j < fuel)%nat /\ ac + Z.of_nat (depth j) < 64) -> 0 <= ac -> length anc = 64%nat ->
  let ps := chain_pids procs (chain fuel procs parent) in
  exists anc', ancestors_loop fuel procs parent ac anc = Ok (anc', ac + Z.of_nat (length ps)) /\ length anc' = 64%nat /\
    (forall j, 0 <= j < ac -> nthZ anc' j = nthZ anc j) /\ (forall k x, ps !! k = Some x -> nthZ anc' (ac + Z.of_nat k) = x).
Proof.
  intros Hd. revert parent ac anc. induction fuel as [|fuel IH]; intros [j|] ac anc Hf Hac Hl ps.
  - destruct (Hf j eq_refl) as [Hlt _]. lia.
  - exists anc. cbn. rewrite Z.add_0_r. split_and!; auto. intros k x Hx. by rewrite lookup_nil in Hx.
  - cbn [ancestors_loop]. destruct (Hf j eq_refl) as [Hlt H64]. change NPROC with 64. destruct (Z.leb_spec 64 ac); [lia|].
    set (p := default proc0 (procs !! j)). destruct (IH (p_parent p) (ac + 1) (setZ anc ac (p_pid p))) as (anc' & E & L & H1 & H2).
    + intros j' Hj'. unfold p in Hj'. destruct (procs !! j) as [q|] eqn:Hj; [|done]. specialize (Hd _ _ _ Hj Hj'). lia.
    + lia.
    + by rewrite length_setZ.
    + exists anc'. rewrite E. split_and!; auto.
      * do 2 f_equal. unfold ps. cbn [chain chain_pids fmap list_fmap length]. fold p. unfold chain_pids. lia.
      * intros i Hi. rewrite H1 by lia. apply nthZ_setZ_ne; lia.
      * intros [|k] x Hx; unfold ps in Hx; cbn [chain chain_pids fmap list_fmap] in Hx.
        -- injection Hx as <-. rewrite Z.add_0_r, H1 by lia. apply nthZ_setZ_eq. lia.
        -- replace (ac + Z.of_nat (S k)) with (ac + 1 + Z.of_nat k) by lia. by apply H2.
  - exists anc. cbn. rewrite Z.add_0_r. split_and!; auto. intros k x Hx. by rewrite lookup_nil in Hx.
Qed.

Lemma is_ancestor_spec k j pid anc : is_ancestor k j pid anc = true <-> exists i, (i < k)%nat /\ nthZ anc (j + Z.of_nat i) = pid.
Proof.
  revert j. induction k as [|k IH]; intros j; cbn [is_ancestor].
  - split; [done|]. intros (i & Hi & _). lia.
  - destruct (Z.eqb_spec (nthZ anc j) pid) as [E|E].
    + split; [|done]. intros _. exists 0%nat. rewrite Z.add_0_r. split; [lia|done].
    + rewrite IH. split.
      * intros (i & Hi & Hx). exists (S i). split; [lia|]. rewrite <- Hx. f_equal. lia.
      * intros ([|i] & Hi & Hx); [rewrite Z.add_0_r in Hx; done|]. exists i. split; [lia|]. rewrite <- Hx. f_equal. lia.
Qed.

(** A trap is reported to exactly the ancestors: log_trap's walk ends, its
    array is large enough, and a pid matches the report if and only if it is
    the pid of a process on the chain of parents of the process that trapped. *)
Theorem report_concerns_ancestors procs depth i p junk scause sepc stval :
  depths procs depth -> (length procs <= 64)%nat -> procs !! i = Some p -> length (r_ancestors junk) = 64%nat ->
  exists r, make_report junk procs p scause sepc stval = Ok r /\ r_pid r = p_pid p /\
    forall pid, concerns pid r = true <->
      exists j k, p_parent p = Some j /\ rtc (parent_rel procs) j k /\ pid = p_pid (default proc0 (procs !! k)).
Proof.
  intros Hd Hn Hp Hl. unfold make_report.
  assert (Hf : forall j, p_parent p = Some j -> (depth j < S (length procs))%nat /\ 0 + Z.of_nat (depth j) < 64).
  { intros j Hj. specialize (Hd _ _ _ Hp Hj). lia. }
  destruct (ancestors_loop_spec procs depth (S (length procs)) (p_parent p) 0 (r_ancestors junk) Hd Hf ltac:(lia) Hl) as (anc & E & La & _ & H2).
  rewrite E. cbn [rbind]. eexists. split; [reflexivity|]. split; [done|]. intros pid. unfold concerns. cbn [r_ancestors r_ancestors_count].
  rewrite is_ancestor_spec, Z.add_0_l, Nat2Z.id. set (js := chain (S (length procs)) procs (p_parent p)) in *.
  assert (Hjs : forall k, k ∈ js <-> exists j, p_parent p = Some j /\ rtc (parent_rel procs) j k).
  { apply (chain_spec procs depth); [done|]. intros j Hj. apply Hf. done. }
  split.
  - intros (k & Hk & Hx). destruct (lookup_lt_is_Some_2 _ _ Hk) as [x Hpx]. rewrite (H2 k x Hpx) in Hx. subst x. unfold chain_pids in Hpx.
    rewrite list_lookup_fmap in Hpx. apply fmap_Some in Hpx as (m & Hm & ->). apply list_elem_of_lookup_2 in Hm. apply Hjs in Hm as (j & Hj & Hr). eauto.
  - intros (j & m & Hj & Hr & ->). assert (Hm : m ∈ js) by (apply Hjs; eauto). apply list_elem_of_lookup in Hm as [k Hk].
    assert (Hx : chain_pids procs js !! k = Some (p_pid (default proc0 (procs !! m)))) by (unfold chain_pids; by rewrite list_lookup_fmap, Hk).
    exists k. split; [by eapply lookup_lt_Some|]. by apply H2.
Qed.

Lemma report_concerns_ancestors_witness :
  exists r, make_report report0 demo_tree (set_parent (set_pid (set_state proc0 RUNNABLE) 3) (Some 1%nat)) 13 0 0 = Ok r /\ concerns 1 r = true.
Proof.
  destruct (report_concerns_ancestors demo_tree (fun i => i) 2 (set_parent (set_pid (set_state proc0 RUNNABLE) 3) (Some 1%nat)) report0 13 0 0) as (r & E & _ & H).
  - intros [|[|[|[|i]]]] p j Hp Hj; try discriminate; injection Hp as <-; cbn in Hj; try discriminate; injection Hj as <-; cbn; lia.
  - cbn. lia.
  - reflexivity.
  - reflexivity.
  - exists r. split; [exact E|]. apply H. exists 1%nat, 0%nat. split; [reflexivity|]. split; [|reflexivity].
    apply rtc_once. eexists. split; reflexivity.
Defined.

(** ** The report file on a new file system: an empty root directory *)
#[local] Instance demo_um : UserMem unit := {
  um_copyout u _ _ := (u, true); um_copyin _ _ n := (replicate (Z.to_nat n) 0, true); um_copyinstr _ _ _ := Some [];
  um_kput u _ _ := u; um_kget _ _ n := replicate (Z.to_nat n) 0; um_kalloc u := (0, u); um_kfree _ u := Ok u }.
Definition root_block : block := replicate 64 0 ++ [1; 0; 0; 0; 0; 0; 1; 0] ++ replicate 952 0.
Definition demo_new : kst acache unit :=
  mkK (mkFs (mkLog 2 30 0 0 1 0 (replicate 30 0), mkA {[ 45 := demo_bitmap; 32 := root_block ]} ∅ []) (replicate 3 inode0))
    (replicate 3 file0) (replicate 3 file0) ∅ tt [] 0%nat.

Definition run_reports (n : nat) : res (report_list * kst acache unit) :=
  Nat.iter n (fun x => let* (l, s) := x in store_trap demo_sb 7 false 0 0 report0 l s) (Ok (empty_ring, demo_new)).

(** On a new file system the first report creates /reports.bin with
    kfilecreate, which returns its inode locked, and nobody unlocks it: the
    inode is locked for ever.  kfileclose puts the reference but leaves the
    pointer in the table, so the second report writes through an inode without
    references and puts it again: its count is then -1. *)
Theorem store_trap_leaks_inode :
  exists l1 s1 l2 s2, run_reports 1 = Ok (l1, s1) /\ run_reports 2 = Ok (l2, s2) /\
    i_inum (getip (k_fs s1) 1) = 2 /\ i_lock (getip (k_fs s1) 1) = mkSl 1 7 /\ i_ref (getip (k_fs s1) 1) = 0 /\
    i_lock (getip (k_fs s2) 1) = mkSl 1 7 /\ i_ref (getip (k_fs s2) 1) = -1.
Proof.
  assert (H : match run_reports 1, run_reports 2 with
              | Ok (_, s1), Ok (_, s2) =>
                  (i_inum (getip (k_fs s1) 1), i_lock (getip (k_fs s1) 1), i_ref (getip (k_fs s1) 1), i_lock (getip (k_fs s2) 1), i_ref (getip (k_fs s2) 1))
              | _, _ => (0, mkSl 0 0, 0, mkSl 0 0, 0)
              end = (2, mkSl 1 7, 0, mkSl 1 7, -1)) by (vm_compute; reflexivity).
  destruct (run_reports 1) as [[l1 s1]| |]; [|discriminate..]. destruct (run_reports 2) as [[l2 s2]| |]; [|discriminate..].
  injection H as H1 H2 H3 H4 H5. exists l1, s1, l2, s2. split_and!; auto.
Qed.
