(* ===== verification/Exec.v ===== *)
(** * exec: kernel/exec.c, with the ELF structures of kernel/elf.h

    The program headers are read into local variables, the segments into the
    pages of a new page table, the arguments onto its stack.  Proved: a call
    that fails leaves the process as it was, and one that succeeds has put on
    the stack exactly the arguments the program will read through argv. *)

From S2P Require Import Prelude Riscv Mem Cstring Kalloc Vm VmFacts VmUser VmProps Sleeplock Block Bio Log Txn Fs FsProps Pipe File Sysfile Proc Sched ProcLife.

Definition ELF_MAGIC : Z := 0x464C457F.
Definition ELF_PROG_LOAD : Z := 1.

(** struct elfhdr, as its 64 bytes *)
Definition ELFHDR_SIZE : Z := 64.
Definition field (b : list Z) (off n : nat) : Z := le_decode (take n (drop off b)).
Definition eh_magic (e : list Z) : Z := field e 0 4.
Definition eh_entry (e : list Z) : Z := field e 24 8.
Definition eh_phoff (e : list Z) : Z := field e 32 8.
Definition eh_phnum (e : list Z) : Z := field e 56 2.

(** struct proghdr, as its 56 bytes *)
Definition PROGHDR_SIZE : Z := 56.
Definition ph_type (p : list Z) : Z := field p 0 4.
Definition ph_flags (p : list Z) : Z := field p 4 4.
Definition ph_off (p : list Z) : Z := field p 8 8.
Definition ph_vaddr (p : list Z) : Z := field p 16 8.
Definition ph_filesz (p : list Z) : Z := field p 32 8.
Definition ph_memsz (p : list Z) : Z := field p 40 8.

Definition flags2perm (flags : Z) : Z :=
  Z.lor (if flag_set flags 1 then PTE_X else 0) (if flag_set flags 2 then PTE_W else 0).

(** The part of the path after the last slash *)
Fixpoint base_name (last s : list Z) : list Z :=
  match s with
  | [] => last
  | c :: s' => if c =? slash then base_name s' s' else base_name last s'
  end.

(** strlen of a string the kernel holds in one page *)
Definition kstrlen (m : mem) (a : Z) : res Z :=
  match strlen (Z.to_nat PGSIZE) (at_addr m a) with Some n => Ok n | None => Panic "exec: unterminated argument" end.

(** The loop that pushes the strings, from sp; [ustack] holds their addresses. *)
Fixpoint push_args (pagetable stackbase : Z) (argv : list Z) (sp : Z) (ustack : list Z) (km : kmem) : res (option (Z * list Z) * kmem) :=
  match argv with
  | [] => Ok (Some (sp, ustack), km)
  | a :: argv =>
      if MAXARG <=? Z.of_nat (length ustack) then Ok (None, km)
      else
        let* n := kstrlen (kmem_mem km) a in
        let sp := u64 (sp - (n + 1)) in
        let sp := sp - sp mod 16 in
        if sp <? stackbase then Ok (None, km)
        else
          let* (r, km) := copyout pagetable sp a (n + 1) km in
          if r <? 0 then Ok (None, km) else push_args pagetable stackbase argv sp (ustack ++ [sp]) km
  end.

(** The array of pointers; [ustack_at] is where ustack[MAXARG] lies on the
    kernel stack, filled here with what the loop stored. *)
Definition words (ws : list Z) : list Z := concat (le_encode 8 <$> ws).
Definition push_argv (pagetable stackbase ustack_at sp : Z) (ustack : list Z) (km : kmem) : res (option (Z * Z) * kmem) :=
  let argc := Z.of_nat (length ustack) in
  if MAXARG <=? argc then Panic "exec: ustack overflow"
  else
    let km := set_mem km (wr_bytes (kmem_mem km) ustack_at (words (ustack ++ [0]))) in
    let sp := u64 (sp - (argc + 1) * 8) in
    let sp := sp - sp mod 16 in
    if sp <? stackbase then Ok (None, km)
    else
      let* (r, km) := copyout pagetable sp ustack_at ((argc + 1) * 8) km in
      if r <? 0 then Ok (None, km) else Ok (Some (argc, sp), km).

Definition push_stack (pagetable ustack_at sz : Z) (argv : list Z) (km : kmem) : res (option (Z * Z) * kmem) :=
  let stackbase := sz - USERSTACK * PGSIZE in
  let* (r, km) := push_args pagetable stackbase argv sz [] km in
  match r with
  | None => Ok (None, km)
  | Some (sp, ustack) => push_argv pagetable stackbase ustack_at sp ustack km
  end.

Section exec.
(** The end of the kernel, the trampoline page and the address of ustack *)
Context (kernel_end trampoline ustack_at : Z).
Context {C : Type} `{BO : BufOps C} `{UM : UserMem kmem} (sb : superblock) (me : Z).
Abbreviation kst := (kst C kmem).

(** readi(ip, 0, ...) into a local variable, and into physical memory *)
Definition read_local (i : nat) (buf : list Z) (off n : Z) (k : kst) : res (Z * list Z * kst) :=
  let* (r, ip, buf, t) := readi sb local_out (kip k i) 0 off n buf (fs_t (k_fs k)) in
  Ok (r, buf, set_fs k (setip (set_t (k_fs k) t) i ip)).
Definition read_phys (i : nat) (pa off n : Z) (k : kst) : res (Z * kst) :=
  let* (r, ip, u, t) := readi sb kernel_out (kip k i) pa off n (k_u k) (fs_t (k_fs k)) in
  Ok (r, set_u (set_fs k (setip (set_t (k_fs k) t) i ip)) u).

Fixpoint loadseg_loop (fuel : nat) (pagetable va : Z) (ip : nat) (offset sz i : Z) (k : kst) : res (Z * kst) :=
  if i <? sz then
    match fuel with
    | O => Block
    | S fuel' =>
        let* pa := walkaddr pagetable (u64 (va + i)) (k_u k) in
        if pa =? 0 then Panic "loadseg: address should exist"
        else
          let n := if sz - i <? PGSIZE then sz - i else PGSIZE in
          let* (r, k) := read_phys ip pa (u32 (offset + i)) n k in
          if negb (u32 r =? n) then Ok (-1, k) else loadseg_loop fuel' pagetable va ip offset sz (u32 (i + PGSIZE)) k
    end
  else Ok (0, k).
Definition loadseg (pagetable va : Z) (ip : nat) (offset sz : Z) (k : kst) : res (Z * kst) :=
  loadseg_loop (Z.to_nat (sz / PGSIZE + 1)) pagetable va ip offset sz 0 k.

(** The loop over the program headers, [n] of them left, the next at [off]:
    whether all were loaded, and the size reached. *)
Fixpoint load_loop (n : nat) (pagetable : Z) (ip : nat) (off sz : Z) (ph : list Z) (k : kst) : res (bool * Z * kst) :=
  match n with
  | O => Ok (true, sz, k)
  | S n' =>
      let* (r, ph, k) := read_local ip ph (u32 off) PROGHDR_SIZE k in
      if negb (r =? PROGHDR_SIZE) then Ok (false, sz, k)
      else if negb (ph_type ph =? ELF_PROG_LOAD) then load_loop n' pagetable ip (s32 (off + PROGHDR_SIZE)) sz ph k
      else if ph_memsz ph <? ph_filesz ph then Ok (false, sz, k)
      else if u64 (ph_vaddr ph + ph_memsz ph) <? ph_vaddr ph then Ok (false, sz, k)
      else if negb (ph_vaddr ph mod PGSIZE =? 0) then Ok (false, sz, k)
      else
        let* (sz1, km) := uvmalloc kernel_end pagetable sz (u64 (ph_vaddr ph + ph_memsz ph)) (flags2perm (ph_flags ph)) (k_u k) in
        let k := set_u k km in
        if sz1 =? 0 then Ok (false, sz, k)
        else
          let* (r, k) := loadseg pagetable (ph_vaddr ph) ip (u32 (ph_off ph)) (u32 (ph_filesz ph)) k in
          if r <? 0 then Ok (false, sz1, k) else load_loop n' pagetable ip (s32 (off + PROGHDR_SIZE)) sz1 ph k
  end.

(** bad: *)
Definition exec_bad (pagetable sz : Z) (ip : option nat) (k : kst) : res (Z * kst) :=
  let* k := (if negb (pagetable =? 0) then let* km := proc_freepagetable kernel_end pagetable sz (k_u k) in Ok (set_u k km) else Ok k) in
  match ip with
  | Some i => let* k := kiunlockput sb me i k in let* k := kend k in Ok (-1, k)
  | None => Ok (-1, k)
  end.

(** The process takes the new image. *)
Definition set_image (i : nat) (path : list Z) (pagetable sz entry sp : Z) (s : psys) : psys :=
  let tf := p_trapframe (getp s i) in
  let s := mod_tf s tf (<[TF_a1 := sp]> (get_tf s tf)) in
  let s := modp s i (fun p => set_name p (safestrcpy (p_name p) (arr (base_name path path ++ [0])) 16)) in
  let s := modp s i (fun p => set_sz (set_pagetable p pagetable) sz) in
  mod_tf s tf (<[TF_sp := sp]> (<[TF_epc := entry]> (get_tf s tf))).

(** From the end of the load on: the stack and the commit *)
Definition exec_stack (i : nat) (path argv : list Z) (elf : list Z) (pagetable sz : Z) (k : kst) (s : psys) : res (Z * kst * psys) :=
  let oldsz := p_sz (getp s i) in
  let sz := PGROUNDUP sz in
  let* (sz1, km) := uvmalloc kernel_end pagetable sz (u64 (sz + (USERSTACK + 1) * PGSIZE)) PTE_W (k_u k) in
  let k := set_u k km in
  if sz1 =? 0 then let* (r, k) := exec_bad pagetable sz None k in Ok (r, k, s)
  else
    let sz := sz1 in
    let* km := uvmclear pagetable (sz - (USERSTACK + 1) * PGSIZE) (k_u k) in
    let* (r, km) := push_stack pagetable ustack_at sz argv km in
    let k := set_u k km in
    match r with
    | None => let* (r, k) := exec_bad pagetable sz None k in Ok (r, k, s)
    | Some (argc, sp) =>
        let oldpagetable := p_pagetable (getp s i) in
        let s := set_image i path pagetable sz (eh_entry elf) sp s in
        let* km := proc_freepagetable kernel_end oldpagetable oldsz (k_u k) in
        Ok (argc, set_u k km, s)
    end.

(** exec by process [i]; [k]'s memory is the one in use. *)
Definition exec (i : nat) (path argv : list Z) (k : kst) (s : psys) : res (Z * kst * psys) :=
  let* k := kbegin k in
  let* (r, k) := knamei sb me path k in
  match r with
  | None => let* k := kend k in Ok (-1, k, s)
  | Some ip =>
      let bad pagetable sz k := let* (r, k) := exec_bad pagetable sz (Some ip) k in Ok (r, k, s) in
      let* k := kilock sb me ip k in
      let* (r, elf, k) := read_local ip (replicate 64 0) 0 ELFHDR_SIZE k in
      if negb (r =? ELFHDR_SIZE) then bad 0 0 k
      else if negb (eh_magic elf =? ELF_MAGIC) then bad 0 0 k
      else
        let* (pagetable, km) := proc_pagetable kernel_end trampoline (p_trapframe (getp s i)) (k_u k) in
        let k := set_u k km in
        if pagetable =? 0 then bad 0 0 k
        else
          let* (ok, sz, k) := load_loop (Z.to_nat (eh_phnum elf)) pagetable ip (s32 (eh_phoff elf)) 0 (replicate 56 0) k in
          if negb ok then bad pagetable sz k
          else
            let* k := kiunlockput sb me ip k in
            let* k := kend k in
            exec_stack i path argv elf pagetable sz k s
  end.
End exec.

(** ** The stack of a new program *)
Definition up16 (x : Z) : Z := (x + 15) / 16 * 16.
Fixpoint args_room (m : mem) (argv : list Z) : Z :=
  match argv with
  | [] => 0
  | a :: argv => (match kstrlen m a with Ok n => up16 (n + 1) | _ => 0 end) + args_room m argv
  end.

(** What the program reads at [va] *)
Definition uread (m : mem) (E : Z -> Z) (va : Z) (n : nat) : list Z := (fun i => rd m (uaddr E (va + Z.of_nat i))) <$> seq 0 n.

Lemma strlen_loop_ext fuel s s' n :
  (forall i, n <= i < n + Z.of_nat fuel -> s i = s' i) -> strlen_loop fuel s n = strlen_loop fuel s' n.
Proof.
  revert n. induction fuel as [|fuel IH]; intros n H; cbn [strlen_loop]; [done|].
  rewrite (H n) by lia. destruct (_ =? _); [done|]. apply IH. intros i Hi. apply H. lia.
Qed.

Lemma kstrlen_ext m m' a : (forall x, a <= x < a + PGSIZE -> rd m x = rd m' x) -> kstrlen m a = kstrlen m' a.
Proof.
  intros H. unfold kstrlen, strlen. rewrite (strlen_loop_ext _ (at_addr m a) (at_addr m' a)); [done|].
  change PGSIZE with 4096 in *. intros i Hi. apply H. lia.
Qed.

Lemma kstrlen_range m a n : kstrlen m a = Ok n -> 0 <= n < PGSIZE.
Proof.
  unfold kstrlen, strlen. destruct (strlen_loop _ _ 0) as [k|] eqn:E; [|done]. intros [= ->].
  assert (H : forall fuel s i k, strlen_loop fuel s i = Some k -> i <= k < i + Z.of_nat fuel).
  { clear. induction fuel as [|fuel IH]; intros s i k; cbn [strlen_loop]; [done|].
    destruct (_ =? _); [intros [= <-]; lia|]. intros H%IH. lia. }
  apply H in E. change PGSIZE with 4096 in *. lia.
Qed.

Lemma uread_ext m m' E va n :
  (forall i, 0 <= i < Z.of_nat n -> rd m (uaddr E (va + i)) = rd m' (uaddr E (va + i))) -> uread m E va n = uread m' E va n.
Proof. intros H. apply list_fmap_ext. intros i x Hx. apply lookup_seq in Hx as [-> Hx]. apply H. lia. Qed.

Lemma rd_bytes_fmap m a n : rd_bytes m a n = (fun i => rd m (a + Z.of_nat i)) <$> seq 0 n.
Proof.
  apply list_eq. intros i. rewrite list_lookup_fmap. destruct (decide (i < n)%nat).
  - rewrite lookup_seq_lt by done. cbn. rewrite rd_bytes_lookup by done. do 2 f_equal; lia.
  - rewrite !lookup_ge_None_2; [done|rewrite length_seq; lia|rewrite length_rd_bytes; lia].
Qed.

Lemma up16_spec x : 0 <= x -> x <= up16 x < x + 16 /\ up16 x mod 16 = 0.
Proof. unfold up16. intros. zsolve. Qed.

(** Rounding sp down after a push of [x] bytes takes [up16 x] bytes. *)
Lemma sp_down sp x : sp mod 16 = 0 -> 0 <= x <= sp -> sp < 2 ^ 64 -> let sp' := u64 (sp - x) in sp' - sp' mod 16 = sp - up16 x.
Proof. intros Hs Hx Hm sp'. unfold sp'. rewrite u64_small by lia. unfold up16. zsolve. Qed.

Lemma args_room_pos m argv : 0 <= args_room m argv.
Proof.
  induction argv as [|a argv IH]; cbn [args_room]; [lia|]. destruct (kstrlen m a) as [n| |] eqn:En; try lia.
  apply kstrlen_range in En. pose proof (up16_spec (n + 1) ltac:(lia)). lia.
Qed.

Section stack.
Context (kend : Z) (kend_pos : 0 < kend) (root : Z) (N : ptmap) (l : list Z) (E : Z -> Z) (Huo : user_ok kend E l N).
Context (Esame : forall va va', 0 <= va < MAXVA -> 0 <= va' < MAXVA -> va / 4096 = va' / 4096 -> E va = E va').
Context (sz : Z) (Hal : sz mod 4096 = 0) (Hlow : 8192 <= sz) (Hmax : sz <= MAXVA).
Context (Hstack : forall va, sz - 4096 <= va < sz -> writable E va).
Context (m0 : mem).

Lemma uaddr_inj va va' : writable E va -> writable E va' -> uaddr E va = uaddr E va' -> va = va'.
Proof.
  intros (Hv & Hu & _) (Hv' & Hu' & _) Heq.
  destruct (uo_foreign _ _ _ _ Huo va Hv Hu) as (Hf & _). destruct (uo_foreign _ _ _ _ Huo va' Hv' Hu') as (Hf' & _).
  pose proof (uaddr_in_page E va ltac:(lia)) as H1. pose proof (uaddr_in_page E va' ltac:(lia)) as H2. rewrite <- Heq in H2.
  destruct (valid_page_range kend kend_pos _ Hf) as [_ Ha]. destruct (valid_page_range kend kend_pos _ Hf') as [_ Ha'].
  destruct (decide (PTE2PA (E va) = PTE2PA (E va'))) as [Hq|Hne].
  - pose proof (uo_inj _ _ _ _ Huo va va' Hv Hv' Hu Hu' Hq). unfold uaddr in Heq. zsolve.
  - exfalso. eapply (valid_pages_disjoint (PTE2PA (E va)) (PTE2PA (E va'))); eauto.
Qed.

(** Memory in which only user bytes of [lo, sz) have changed *)
Record pushed (lo : Z) (km : kmem) : Prop := {
  pu_wf : pt_wf kend km l root N;
  pu_entry : forall va, entry (kmem_mem km) N va = E va;
  pu_frame : forall x, rd (kmem_mem km) x = rd m0 x \/ exists va, lo <= va < sz /\ writable E va /\ x = uaddr E va;
}.

Lemma pushed_kernel lo km a len : pushed lo km -> outside_user E a len -> forall x, a <= x < a + len -> rd (kmem_mem km) x = rd m0 x.
Proof.
  intros [_ _ Hf] Ho x Hx. destruct (Hf x) as [?|(va & Hva & (Hv & Hu & _) & ->)]; [done|].
  exfalso. apply (Ho va (uaddr E va)); auto. apply uaddr_in_page. lia.
Qed.

(** One copyout to the stack, below everything pushed so far *)
Lemma push_one lo km dst a len :
  pushed lo km -> sz - 4096 <= dst -> dst + len <= lo -> lo <= sz -> 0 <= len -> outside_user E a len ->
  exists km', copyout root dst a len km = Ok (0, km') /\ pushed dst km' /\
    (forall i, 0 <= i < len -> rd (kmem_mem km') (uaddr E (dst + i)) = rd (kmem_mem km) (a + i)) /\
    (forall va, lo <= va < sz -> rd (kmem_mem km') (uaddr E va) = rd (kmem_mem km) (uaddr E va)).
Proof.
  intros [Hwf HE Hf] Hd Hlen Hlo Hl0 Ho. change MAXVA with 274877906944 in *.
  destruct (copyout_loop_spec kend kend_pos root N l E Huo Esame (Z.to_nat (len / PGSIZE + 2)) km dst a len Hwf HE)
    as (r & km' & Ec & Hr & Hwf' & HE' & Hch & Hbad & Hfun); [lia|change PGSIZE with 4096; zsolve|].
  assert (r = 0) as ->.
  { destruct Hr as [|Hr]; [done|]. destruct (Hbad Hr) as (i & Hi & Hn). destruct Hn. apply Hstack. lia. }
  exists km'. split_and!; [done|split; auto| |].
  - intros x. destruct (Hch x) as [->|(va & Hva & Hw & ->)]; [|right; exists va; split_and!; auto; lia].
    destruct (Hf x) as [?|(va & Hva & Hw & ->)]; [by left|]. right. exists va. split_and!; auto; lia.
  - intros i Hi. by apply Hfun.
  - intros va Hva. destruct (Hch (uaddr E va)) as [?|(va' & Hva' & Hw & Heq)]; [done|].
    apply uaddr_inj in Heq; [lia|apply Hstack; lia|done].
Qed.

(** The string at kernel address [a] is at user address [p]. *)
Definition copied (lo : Z) (m : mem) (a p : Z) : Prop :=
  exists n, kstrlen m0 a = Ok n /\ lo <= p /\ p + n + 1 <= sz /\ uread m E p (Z.to_nat (n + 1)) = rd_bytes m0 a (Z.to_nat (n + 1)).

Lemma copied_keep lo lo' m m' a p :
  copied lo m a p -> lo' <= lo -> (forall va, lo <= va < sz -> rd m' (uaddr E va) = rd m (uaddr E va)) -> copied lo' m' a p.
Proof.
  intros (n & Hn & Hp & Hp' & Hr) Hlo Hk. pose proof (kstrlen_range _ _ _ Hn) as Hr0. exists n. split_and!; auto; [lia|]. rewrite <- Hr. apply uread_ext.
  intros i Hi. apply Hk. lia.
Qed.

Definition arg_ok (a : Z) : Prop := outside_user E a PGSIZE /\ exists n, kstrlen m0 a = Ok n.

Lemma push_args_spec argv sp ustack pre km :
  pushed sp km -> sp mod 16 = 0 -> sz - 4096 <= sp <= sz -> Forall2 (copied sp (kmem_mem km)) pre ustack ->
  Forall arg_ok argv -> (length pre + length argv <= 32)%nat ->
  exists r km', push_args root (sz - USERSTACK * PGSIZE) argv sp ustack km = Ok (r, km') /\
    match r with
    | None => sp - args_room m0 argv < sz - 4096
    | Some (sp', us) => sp' = sp - args_room m0 argv /\ sz - 4096 <= sp' /\ sp' mod 16 = 0 /\ pushed sp' km' /\
                        Forall2 (copied sp' (kmem_mem km')) (pre ++ argv) us
    end.
Proof.
  change (sz - USERSTACK * PGSIZE) with (sz - 4096).
  revert sp ustack pre km. induction argv as [|a argv IH]; intros sp ustack pre km Hpu Hsp Hr Hc Ha Hlen; cbn [push_args args_room].
  { exists (Some (sp, ustack)), km. rewrite app_nil_r. split_and!; auto; lia. }
  apply Forall_cons in Ha as [[Ho (n & Hn)] Ha]. cbn [length] in Hlen. rewrite <- (Forall2_length _ _ _ Hc).
  destruct (Z.leb_spec MAXARG (Z.of_nat (length pre))); [change MAXARG with 32 in *; lia|].
  assert (Hkm : kstrlen (kmem_mem km) a = Ok n).
  { rewrite <- Hn. apply kstrlen_ext. intros x Hx. by eapply pushed_kernel. }
  rewrite Hkm, Hn. cbn [rbind]. pose proof (kstrlen_range _ _ _ Hn) as Hnr. change PGSIZE with 4096 in *. change MAXVA with 274877906944 in *.
  pose proof (sp_down sp (n + 1) Hsp ltac:(lia) ltac:(lia)) as Hsd. cbv zeta in Hsd. cbv zeta. rewrite Hsd.
  destruct (up16_spec (n + 1) ltac:(lia)) as [Hu Hu16]. pose proof (args_room_pos m0 argv).
  destruct (Z.ltb_spec (sp - up16 (n + 1)) (sz - 4096)) as [Hlt|Hge].
  { exists None, km. split; [done|]. lia. }
  destruct (push_one sp km (sp - up16 (n + 1)) a (n + 1) Hpu) as (km' & Ec & Hpu' & Hcp & Hkp); try lia.
  { intros va x Hv Hus Hx. apply (Ho va); auto; lia. }
  rewrite Ec. cbn [rbind]. change (0 <? 0) with false. cbn iota.
  assert (Hnew : copied (sp - up16 (n + 1)) (kmem_mem km') a (sp - up16 (n + 1))).
  { exists n. split_and!; auto; try lia. rewrite rd_bytes_fmap. apply list_fmap_ext. intros i x Hx. apply lookup_seq in Hx as [-> Hx].
    rewrite Hcp by lia. apply (pushed_kernel sp km a 4096); auto. lia. }
  destruct (IH (sp - up16 (n + 1)) (ustack ++ [sp - up16 (n + 1)]) (pre ++ [a]) km') as (r & km2 & -> & Hres); auto; try lia.
  { zsolve. }
  { apply Forall2_app; [|by constructor]. eapply Forall2_impl; [exact Hc|]. intros b p Hb. eapply copied_keep; eauto; lia. }
  { rewrite length_app. cbn. lia. }
  exists r, km2. split; [done|]. destruct r as [[sp' us]|]; [|lia]. rewrite <- app_assoc in Hres. cbn [app] in Hres. split_and!; try apply Hres. lia.
Qed.
End stack.

Lemma length_words ws : length (words ws) = (8 * length ws)%nat.
Proof. unfold words. induction ws as [|w ws IH]; [done|]. cbn [fmap list_fmap concat length]. rewrite length_app, length_le_encode. cbn in *. lia. Qed.

Lemma words_lookup ws i w j : ws !! i = Some w -> (j < 8)%nat -> words ws !! (8 * i + j)%nat = le_encode 8 w !! j.
Proof.
  revert i. induction ws as [|v ws IH]; intros i; [done|]. unfold words. cbn [fmap list_fmap concat]. intros Hi Hj. destruct i as [|i].
  - injection Hi as ->. rewrite lookup_app_l by (rewrite length_le_encode; lia). f_equal; lia.
  - rewrite lookup_app_r by (rewrite length_le_encode; lia). rewrite length_le_encode.
    replace (8 * S i + j - 8)%nat with (8 * i + j)%nat by lia. by apply IH.
Qed.

Lemma words_bytes ws : Forall is_byte (words ws).
Proof. unfold words. apply Forall_concat, Forall_fmap, Forall_true. intros w. apply le_encode_bytes. Qed.

(** Storing ustack on the kernel stack *)
Lemma pushed_ustack kend (Hk : 0 < kend) root N l E sz m0 lo km b bs :
  pushed kend root N l E sz m0 lo km -> kbuf E l N b (Z.of_nat (length bs)) -> Forall is_byte bs ->
  pushed kend root N l E sz (wr_bytes m0 b bs) lo (set_mem km (wr_bytes (kmem_mem km) b bs)).
Proof.
  intros [Hwf HE Hf] [Kn Kf Ku] Hb.
  assert (Hout : forall x, ~ (b <= x < b + Z.of_nat (length bs)) -> rd (wr_bytes (kmem_mem km) b bs) x = rd (kmem_mem km) x).
  { intros x Hx. rewrite rd_wr_bytes. repeat bcase; cbn [andb]; try done; lia. }
  destruct (pt_wf_agree kend km l root N (wr_bytes (kmem_mem km) b bs)) as [Hwf' HE']; auto.
  - intros p a Hp x Hx. apply Hout. intros Hin. by apply (Kn p a x).
  - intros q Hq x Hx. apply Hout. intros Hin. by apply (Kf q x).
  - apply wr_bytes_mem_bytes; [apply (ki_bytes kend km l), Hwf|done].
  - split; auto. { intros va. cbn [set_mem kmem_mem]. by rewrite HE'. }
    intros x. cbn [set_mem kmem_mem]. rewrite !rd_wr_bytes. destruct (_ && _); [by left|]. apply Hf.
Qed.

(** The program's argv[i] *)
Definition uptr (m : mem) (E : Z -> Z) (argv i : Z) : Z := le_decode (uread m E (argv + 8 * i) 8).

Lemma push_argv_spec kend root N l E sz m0 sp us pre ustack_at km :
  0 < kend -> user_ok kend E l N ->
  (forall va va', 0 <= va < MAXVA -> 0 <= va' < MAXVA -> va / 4096 = va' / 4096 -> E va = E va') ->
  8192 <= sz <= MAXVA -> (forall va, sz - 4096 <= va < sz -> writable E va) ->
  pushed kend root N l E sz m0 sp km -> sp mod 16 = 0 -> sz - 4096 <= sp <= sz ->
  Forall2 (copied E sz m0 sp (kmem_mem km)) pre us -> (length pre < 32)%nat -> kbuf E l N ustack_at 256 ->
  let argc := Z.of_nat (length pre) in
  let sp' := sp - up16 ((argc + 1) * 8) in
  exists km', push_argv root (sz - USERSTACK * PGSIZE) ustack_at sp us km = Ok (if sp' <? sz - 4096 then None else Some (argc, sp'), km') /\
    (sz - 4096 <= sp' -> Forall2 (copied E sz m0 sp (kmem_mem km')) pre us /\
      forall i w, (us ++ [0]) !! i = Some w -> 0 <= w < 2 ^ 64 -> uptr (kmem_mem km') E sp' (Z.of_nat i) = w).
Proof.
  intros Hk Huo Esame [Hlow Hmax] Hst Hpu Hsp Hr Hc Hlen Hkb argc sp'. change (sz - USERSTACK * PGSIZE) with (sz - 4096).
  unfold push_argv. rewrite <- (Forall2_length _ _ _ Hc). fold argc. pose proof (Forall2_length _ _ _ Hc) as Hl.
  destruct (Z.leb_spec MAXARG argc); [change MAXARG with 32 in *; lia|]. change MAXVA with 274877906944 in *.
  pose proof (sp_down sp ((argc + 1) * 8) Hsp ltac:(lia) ltac:(lia)) as Hsd. cbv zeta in Hsd. cbv zeta. rewrite Hsd. fold sp'.
  destruct (up16_spec ((argc + 1) * 8) ltac:(lia)) as [Hu _].
  set (bs := words (us ++ [0])). assert (Hbl : Z.of_nat (length bs) = (argc + 1) * 8).
  { unfold bs. rewrite length_words, length_app. cbn [length]. lia. }
  set (km1 := set_mem km (wr_bytes (kmem_mem km) ustack_at bs)).
  destruct (Z.ltb_spec sp' (sz - 4096)) as [Hlt|Hge]; [exists km1; split; [done|lia]|].
  assert (Hkb1 : kbuf E l N ustack_at (Z.of_nat (length bs))) by (eapply kbuf_sub; [exact Hkb|lia|lia]).
  pose proof (pushed_ustack kend Hk root N l E sz m0 sp km ustack_at bs Hpu Hkb1 (words_bytes _)) as Hpu1. fold km1 in Hpu1.
  assert (Hun : forall va, writable E va -> rd (kmem_mem km1) (uaddr E va) = rd (kmem_mem km) (uaddr E va)).
  { intros va (Hv & Hus & _). unfold km1. cbn [set_mem kmem_mem]. rewrite rd_wr_bytes.
    destruct (Z.leb_spec ustack_at (uaddr E va)), (Z.ltb_spec (uaddr E va) (ustack_at + Z.of_nat (length bs))); cbn [andb]; try done.
    exfalso. apply (kb_user _ _ _ _ _ Hkb1 va (uaddr E va)); auto. apply uaddr_in_page. lia. }
  destruct (push_one kend Hk root N l E Huo Esame sz Hlow ltac:(change MAXVA with 274877906944; lia) Hst (wr_bytes m0 ustack_at bs) sp km1 sp' ustack_at ((argc + 1) * 8) Hpu1)
    as (km' & Ec & _ & Hcp & Hkp); try lia.
  { rewrite <- Hbl. apply Hkb1. }
  rewrite Ec. cbn [rbind]. change (0 <? 0) with false. cbn iota. exists km'. split; [done|]. intros _. split.
  - eapply Forall2_impl; [exact Hc|]. intros a p Hp. eapply copied_keep; [exact Hp|lia|]. intros va Hva.
    rewrite Hkp by done. apply Hun, Hst. lia.
  - intros i w Hi Hw. unfold uptr. rewrite <- (le_decode_encode 8 w) by lia. f_equal.
    assert (Hil : (i < length us + 1)%nat) by (apply lookup_lt_Some in Hi; rewrite length_app in Hi; cbn in Hi; lia).
    apply list_eq. intros j. unfold uread. rewrite list_lookup_fmap. destruct (decide (j < 8)%nat).
    2:{ rewrite !lookup_ge_None_2; [done|rewrite length_le_encode; lia|rewrite length_seq; lia]. }
    rewrite lookup_seq_lt by done. cbn [fmap option_fmap option_map]. rewrite <- (words_lookup _ _ _ _ Hi) by done. fold bs.
    replace (sp' + 8 * Z.of_nat i + Z.of_nat (0 + j)) with (sp' + Z.of_nat (8 * i + j)) by lia. rewrite Hcp by lia.
    unfold km1. cbn [set_mem kmem_mem]. rewrite rd_wr_bytes.
    destruct (Z.leb_spec ustack_at (ustack_at + Z.of_nat (8 * i + j))); [|lia].
    destruct (Z.ltb_spec (ustack_at + Z.of_nat (8 * i + j)) (ustack_at + Z.of_nat (length bs))); [|lia]. cbn [andb].
    unfold nthZ. replace (Z.to_nat _) with (8 * i + j)%nat by lia.
    destruct (lookup_lt_is_Some_2 bs (8 * i + j)) as [x Hx]; [lia|]. by rewrite Hx.
Qed.

(** C30: the arguments of a new program.  When the strings, each rounded up to
    16 bytes, and the array of pointers fit in the stack page, exec pushes
    them all: sp is 16-byte aligned inside the page, argv[i] points to a copy
    of the i-th string with its terminator, above the array, and
    argv[argc] is null.  When they do not fit, it fails. *)
Theorem exec_arguments kend root N l km sz ustack_at argv :
  let E := entry (kmem_mem km) N in
  0 < kend -> pt_wf kend km l root N -> user_ok kend E l N ->
  sz mod PGSIZE = 0 -> 2 * PGSIZE <= sz <= MAXVA -> (forall va, sz - PGSIZE <= va < sz -> writable E va) ->
  Forall (arg_ok E (kmem_mem km)) argv -> Z.of_nat (length argv) < MAXARG -> kbuf E l N ustack_at (8 * MAXARG) ->
  let argc := Z.of_nat (length argv) in
  let sp := sz - args_room (kmem_mem km) argv - up16 ((argc + 1) * 8) in
  exists km', push_stack root ustack_at sz argv km = Ok (if sp <? sz - PGSIZE then None else Some (argc, sp), km') /\
    (sz - PGSIZE <= sp -> sp mod 16 = 0 /\ uptr (kmem_mem km') E sp argc = 0 /\
      forall i a, argv !! i = Some a ->
        exists n, kstrlen (kmem_mem km) a = Ok n /\ sp + 8 * (argc + 1) <= uptr (kmem_mem km') E sp (Z.of_nat i) /\
          uread (kmem_mem km') E (uptr (kmem_mem km') E sp (Z.of_nat i)) (Z.to_nat (n + 1)) = rd_bytes (kmem_mem km) a (Z.to_nat (n + 1))).
Proof.
  intros E Hk Hwf Huo Hal [Hlow Hmax] Hst Hargs Hlen Hkb argc sp. change PGSIZE with 4096 in *. change MAXARG with 32 in *. change (8 * 32) with 256 in Hkb. change (2 * 4096) with 8192 in *.
  assert (Esame : forall va va', 0 <= va < MAXVA -> 0 <= va' < MAXVA -> va / 4096 = va' / 4096 -> E va = E va').
  { intros. by apply entry_same_page. }
  assert (Hpu : pushed kend root N l E sz (kmem_mem km) sz km) by (split; auto).
  unfold push_stack. pose proof (push_args_spec kend Hk root N l E Huo Esame sz Hlow Hmax Hst (kmem_mem km) argv sz [] [] km Hpu) as Hpa.
  change PGSIZE with 4096 in *. destruct Hpa as (r & km1 & -> & Hres); try lia; auto.
  { zsolve. }
  { cbn. lia. }
  cbn [rbind]. destruct (up16_spec ((argc + 1) * 8) ltac:(lia)) as [Hu Hu16]. pose proof (args_room_pos (kmem_mem km) argv) as Hpos.
  destruct r as [[sp1 us]|].
  2:{ exists km1. destruct (Z.ltb_spec sp (sz - 4096)); [|lia]. split; [done|lia]. }
  destruct Hres as (Hsp1 & Hlo & H16 & Hpu1 & Hc). cbn [app] in Hc.
  pose proof (push_argv_spec kend root N l E sz (kmem_mem km) sp1 us argv ustack_at km1 Hk Huo Esame ltac:(lia) Hst Hpu1 H16) as Hpv.
  change PGSIZE with 4096 in *. destruct Hpv as (km' & -> & Hok); auto; try lia.
  fold argc. subst sp1. fold argc in Hok. fold sp in Hok. fold sp. exists km'. split; [done|]. intros Hge.
  destruct (Hok Hge) as [Hc' Hp]. split_and!.
  - unfold sp. zsolve.
  - pose proof (Forall2_length _ _ _ Hc') as Hl. specialize (Hp (length us) 0). rewrite <- Hl in Hp. apply Hp; [|lia].
    rewrite lookup_app_r by lia. by rewrite Hl, Nat.sub_diag.
  - intros i a Hi. destruct (Forall2_lookup_l _ _ _ _ _ Hc' Hi) as (p & Hpi & n & Hn & Hp1 & Hp2 & Hrd).
    change MAXVA with 274877906944 in *. pose proof (kstrlen_range _ _ _ Hn) as Hnr.
    assert (Hip : uptr (kmem_mem km') E sp (Z.of_nat i) = p).
    { apply Hp; [rewrite lookup_app_l; [done|by eapply lookup_lt_Some]|lia]. }
    exists n. rewrite Hip. split_and!; auto. lia.
Qed.

(** A machine with two user pages and the string "ls" in the kernel *)
Lemma demo_leaf_two s l N k :
  ua_inv demo_kend demo_root 0 (Z.lor (Z.lor PTE_R PTE_U) PTE_W) (kmem_mem demo_s) demo_l demo_N s l N 2 ->
  0 <= k < 2 -> PTE_FLAGS (entry (kmem_mem s) N (0 + 4096 * k)) = 23.
Proof.
  intros Hinv Hk. destruct (ua_in _ _ _ _ _ _ _ _ _ _ _ Hinv k Hk) as (q & Eq & Hv & _).
  rewrite Eq. destruct (valid_page_range demo_kend demo_pos q Hv) as [Hq Ha].
  destruct (leaf_pte_facts q (Z.lor (Z.lor PTE_R PTE_U) PTE_W)) as (_ & _ & -> & _); [lia|done|by vm_compute|].
  clear. by vm_compute.
Qed.

Lemma demo_two_pages : exists s l N,
  uvmalloc demo_kend demo_root 0 8192 PTE_W demo_s = Ok (8192, s) /\
  pt_wf demo_kend s l demo_root N /\ user_ok demo_kend (entry (kmem_mem s) N) l N /\
  forall v, 0 <= v < 8192 -> writable (entry (kmem_mem s) N) v.
Proof.
  destruct demo_wf as [Hwf He].
  pose proof (uvmalloc_spec demo_kend demo_pos demo_root demo_s demo_l demo_N 0 8192 PTE_W Hwf) as H. cbv zeta in H.
  feed H ltac:(idtac; lazymatch goal with | |- forall _, _ => intros v _ _; rewrite He; reflexivity | _ => zcompute end).
  destruct H as (r & s & l & N & E & Hr).
  assert (Hr0 : match uvmalloc demo_kend demo_root 0 8192 PTE_W demo_s with Ok (r, _) => r =? 8192 | _ => false end = true) by (vm_compute; reflexivity).
  rewrite E in Hr0. apply Z.eqb_eq in Hr0. subst r. destruct Hr as [(_ & n & Hn & Hinv)|(Hc & _)]; [|discriminate Hc].
  change (PGROUNDUP 0) with 0 in *. replace n with 2%nat in Hinv by lia. exists s, l, N. split_and!; [exact E|apply Hinv| |].
  - eapply (ua_user_ok demo_kend demo_root 0); [lia|done| |exact Hinv| |exact demo_user_ok]; clear; zcompute.
  - intros v Hv. assert (Hq : 0 <= v / 4096 < 2 /\ v / 4096 = (0 + 4096 * (v / 4096)) / 4096) by (clear - Hv; zsolve).
    pose proof (demo_leaf_two s l N (v / 4096) Hinv (proj1 Hq)) as Hf. unfold writable, user_pte.
    rewrite (entry_same_page _ _ v (0 + 4096 * (v / 4096))) by (clear - Hv Hq; change MAXVA with 274877906944; lia).
    clear - Hf Hv. revert Hf. generalize (entry (kmem_mem s) N (0 + 4096 * (v / 4096))). intros e Hf.
    assert (Hb : forall n, 0 <= n < 10 -> Z.testbit e n = Z.testbit 23 n).
    { intros i Hi. rewrite <- Hf. unfold PTE_FLAGS. change 1023 with (Z.ones 10). by rewrite Z.land_spec, Z.ones_spec_low, andb_true_r by lia. }
    rewrite !Hb by lia. change MAXVA with 274877906944. auto with lia.
Qed.

Lemma demo_machine : exists km l N, let E := entry (kmem_mem km) N in
  pt_wf demo_kend km l demo_root N /\ user_ok demo_kend E l N /\ (forall v, 0 <= v < 8192 -> writable E v) /\
  rd_bytes (kmem_mem km) 1000 3 = [108; 115; 0] /\ kstrlen (kmem_mem km) 1000 = Ok 2.
Proof.
  destruct demo_two_pages as (s & l & N & _ & Hwf & Huo & Hw).
  assert (Hpu : pushed demo_kend demo_root N l (entry (kmem_mem s) N) 8192 (kmem_mem s) 8192 s) by (split; auto).
  pose proof (pushed_ustack demo_kend demo_pos demo_root N l _ 8192 _ 8192 s 1000 [108; 115; 0] Hpu) as Hpu1.
  destruct Hpu1 as [Hwf1 HE1 _].
  { eapply kbuf_below; eauto. clear. by vm_compute. }
  { repeat constructor; lia. }
  eexists (set_mem s _), l, N. cbv zeta. split_and!; [exact Hwf1| | |apply (rd_bytes_wr_bytes _ 1000 [108; 115; 0])|].
  - destruct Huo as [A B]. split; intros *; rewrite !HE1; [apply A|apply B].
  - intros v Hv. unfold writable. rewrite HE1. by apply Hw.
  - unfold kstrlen, strlen. replace (Z.to_nat PGSIZE) with (S (S (S (Z.to_nat 4093)))) by (change PGSIZE with 4096; lia).
    cbn [strlen_loop]. unfold at_addr. cbn [set_mem kmem_mem]. by rewrite !rd_wr_bytes.
Qed.

Lemma exec_arguments_witness : exists km l N km' sp, let E := entry (kmem_mem km) N in
  pt_wf demo_kend km l demo_root N /\ push_stack demo_root 8192 8192 [1000; 1000] km = Ok (Some (2, sp), km') /\
  uread (kmem_mem km') E (uptr (kmem_mem km') E sp 1) 3 = [108; 115; 0].
Proof.
  destruct demo_machine as (km & l & N & Hwf & Huo & Hw & Hrd & Hlen). exists km, l, N.
  assert (Hb : forall a len, a + len <= demo_kend -> kbuf (entry (kmem_mem km) N) l N a len) by (intros; by eapply kbuf_below).
  pose proof (exec_arguments demo_kend demo_root N l km 8192 8192 [1000; 1000] demo_pos Hwf Huo eq_refl) as H.
  assert (Hok : arg_ok (entry (kmem_mem km) N) (kmem_mem km) 1000).
  { split; [apply kb_user with (l := l) (N := N), Hb; clear; zcompute|by exists 2]. }
  destruct H as (km' & Ep & Hres).
  - clear. split; zcompute.
  - intros va Hva. apply Hw. change PGSIZE with 4096 in Hva. lia.
  - repeat constructor; apply Hok.
  - clear. zcompute.
  - apply Hb. clear. zcompute.
  - assert (Hroom : args_room (kmem_mem km) [1000; 1000] = 32) by (cbn [args_room]; rewrite Hlen; reflexivity).
    rewrite Hroom in Ep, Hres. exists km', 8128. split_and!; [exact Hwf|exact Ep|].
    destruct Hres as (_ & _ & Hres); [clear; zcompute|]. destruct (Hres 1%nat 1000 eq_refl) as (n & Hn & _ & Hr).
    rewrite Hlen in Hn. injection Hn as <-. etransitivity; [exact Hr|]. exact Hrd.
Defined.

(** ** All or nothing *)
Section atomic.
Context (kernel_end trampoline ustack_at : Z) {C : Type} `{BO : BufOps C} `{UM : UserMem kmem} (sb : superblock) (me : Z).

Lemma exec_bad_fails pt sz ip (k k' : kst C kmem) r : exec_bad kernel_end sb me pt sz ip k = Ok (r, k') -> r = -1.
Proof.
  unfold exec_bad. intros H. apply rbind_Ok in H as (k1 & _ & H). destruct ip; [|by injection H].
  apply rbind_Ok in H as (k2 & _ & H). apply rbind_Ok in H as (k3 & _ & H). by injection H.
Qed.

Lemma push_argv_range pt base at_ sp us km argc sp' km' :
  push_argv pt base at_ sp us km = Ok (Some (argc, sp'), km') -> argc = Z.of_nat (length us) /\ argc < MAXARG /\ base <= sp' /\ sp' mod 16 = 0.
Proof.
  unfold push_argv. destruct (Z.leb_spec MAXARG (Z.of_nat (length us))); [done|].
  destruct (Z.ltb_spec (u64 (sp - (Z.of_nat (length us) + 1) * 8) - u64 (sp - (Z.of_nat (length us) + 1) * 8) mod 16) base); [done|].
  intros H1. apply rbind_Ok in H1 as ([r km1] & _ & H1). destruct (r <? 0); [done|]. injection H1 as <- <- _. split_and!; auto. zsolve.
Qed.

Lemma push_args_length pt base argv sp us km sp' us' km' :
  push_args pt base argv sp us km = Ok (Some (sp', us'), km') -> (length us' = length us + length argv)%nat.
Proof.
  revert sp us km. induction argv as [|a argv IH]; intros sp us km; cbn [push_args length]; [intros [= _ <- _]; lia|].
  destruct (_ <=? _); [done|]. intros H. apply rbind_Ok in H as (n & _ & H). cbv zeta in H. destruct (_ <? base); [done|].
  apply rbind_Ok in H as ([r km1] & _ & H). destruct (r <? 0); [done|]. apply IH in H. rewrite length_app in H. cbn in H. lia.
Qed.

Lemma exec_stack_outcome i path argv elf pt sz (k k' : kst C kmem) s s' r :
  exec_stack kernel_end ustack_at sb me i path argv elf pt sz k s = Ok (r, k', s') ->
  (r = -1 /\ s' = s) \/
  (r = Z.of_nat (length argv) /\ r < MAXARG /\ exists sz' sp, sp mod 16 = 0 /\ sz' - PGSIZE <= sp /\ s' = set_image i path pt sz' (eh_entry elf) sp s).
Proof.
  unfold exec_stack. intros H. apply rbind_Ok in H as ([sz1 km] & _ & H). destruct (sz1 =? 0).
  { apply rbind_Ok in H as ([r1 k1] & H1 & H). apply exec_bad_fails in H1. injection H as <- _ <-. auto. }
  apply rbind_Ok in H as (km1 & _ & H). apply rbind_Ok in H as ([o km2] & Hp & H). destruct o as [[argc sp]|].
  2:{ apply rbind_Ok in H as ([r1 k1] & H1 & H). apply exec_bad_fails in H1. injection H as <- _ <-. auto. }
  apply rbind_Ok in H as (km3 & _ & H). injection H as <- _ <-. right.
  unfold push_stack in Hp. apply rbind_Ok in Hp as ([o km4] & Ha & Hp). destruct o as [[sp1 us]|]; [|done].
  apply push_args_length in Ha. apply push_argv_range in Hp as (-> & Hlt & Hlo & H16). cbn in Ha. split_and!; [lia|lia|].
  exists sz1, sp. split_and!; auto.
Qed.

End atomic.

(** A disk with one program, /a: an ELF header with no segments, entry 4096 *)
Definition demo_elf : list Z := [127; 69; 76; 70] ++ replicate 20 0 ++ le_encode 8 4096 ++ replicate 32 0.
Definition demo_inodes : block :=
  replicate 64 0 ++ [1; 0; 0; 0; 0; 0; 1; 0] ++ le_encode 4 16 ++ le_encode 4 47 ++ replicate 48 0 ++
  [2; 0; 0; 0; 0; 0; 1; 0] ++ le_encode 4 64 ++ le_encode 4 46 ++ replicate 48 0 ++ replicate 832 0.
Definition demo_prog : disk :=
  {[ 45 := demo_bitmap; 32 := demo_inodes; 46 := demo_elf ++ replicate 960 0; 47 := [2; 0; 97] ++ replicate 1021 0 ]}.
Definition exec_kend : Z := PHYSTOP - 16 * PGSIZE.
Definition exec_boot : psys :=
  match (let* km := kinit exec_kend (mkKmem ∅ 0) in allocproc exec_kend KERNBASE 0 (mkPs [proc0] None 1 1 0 ∅ km)) with
  | Ok (_, s) => s | _ => mkPs [] None 1 1 0 ∅ (mkKmem ∅ 0) end.
Definition exec_files : kst acache kmem :=
  mkK (mkFs (mkLog 2 30 0 0 1 0 (replicate 30 0), mkA demo_prog ∅ []) (replicate 3 inode0)) [] [] ∅ (ps_mem exec_boot) [] 0%nat.
Definition exec_run (path : list Z) : res (Z * kst acache kmem * psys) :=
  exec (UM := vm_usermem exec_kend 0 0) exec_kend KERNBASE 2000 demo_sb 1 0 path [1000] exec_files exec_boot.

