(* ===== verification/Syscall.v ===== *)
(** * System calls: syscall of kernel/syscall.c and the handlers of kernel/sysproc.c

    The handlers of sysfile.c come from Sysfile, the routines of proc.c from
    ProcLife, Thread, ProcInfo and Report; here they are called with the
    caller's registers and their result is stored.  A call that sleeps ends
    its step in the middle of its loop.  Proved: what the caller finds in its
    registers, and which thread receives the result of a call that slept. *)

From S2P Require Import Prelude Riscv Mem Cstring Kalloc Vm Sleeplock Block Bio Log Txn Fs Pipe File Sysfile Proc Sched Thread ProcInfo ProcLife Report Exec.

Definition SYS_fork : Z := 1.
Definition SYS_exit : Z := 2.
Definition SYS_wait : Z := 3.
Definition SYS_pipe : Z := 4.
Definition SYS_read : Z := 5.
Definition SYS_kill : Z := 6.
Definition SYS_exec : Z := 7.
Definition SYS_fstat : Z := 8.
Definition SYS_chdir : Z := 9.
Definition SYS_dup : Z := 10.
Definition SYS_getpid : Z := 11.
Definition SYS_sbrk : Z := 12.
Definition SYS_sleep : Z := 13.
Definition SYS_uptime : Z := 14.
Definition SYS_open : Z := 15.
Definition SYS_write : Z := 16.
Definition SYS_mknod : Z := 17.
Definition SYS_unlink : Z := 18.
Definition SYS_link : Z := 19.
Definition SYS_mkdir : Z := 20.
Definition SYS_close : Z := 21.
Definition SYS_child_processes : Z := 22.
Definition SYS_myrep : Z := 23.
Definition SYS_seek : Z := 24.
Definition SYS_sysrep : Z := 25.
Definition SYS_create_thread : Z := 26.
Definition SYS_join_thread : Z := 27.
Definition SYS_stop_thread : Z := 28.
Definition SYS_cpu_usage : Z := 29.
Definition SYS_top : Z := 30.
Definition SYS_set_cpu_quota : Z := 31.
Definition SYS_deadfork : Z := 32.
Definition SYS_ssched : Z := 33.

(** ** Structures in user memory *)

(** struct proc_info: 40 bytes; struct top and struct child_processes: a
    count and NPROC of them.  The entries a routine has not stored keep the
    bytes copied in. *)
Definition INFO_SIZE : nat := 40.
Definition LISTING_SIZE : Z := 4 + 40 * NPROC.
Definition state_num (st : procstate) : Z :=
  match st with UNUSED => 0 | USED => 1 | SLEEPING => 2 | RUNNABLE => 3 | RUNNING => 4 | ZOMBIE => 5 end.
Definition num_state (n : Z) : procstate :=
  nth (Z.to_nat n) [UNUSED; USED; SLEEPING; RUNNABLE; RUNNING; ZOMBIE] UNUSED.
Definition i32 (n : Z) : list Z := le_encode 4 (u32 n).
Definition info_bytes (x : proc_info) : list Z :=
  pi_name x ++ i32 (pi_pid x) ++ i32 (pi_ppid x) ++ i32 (state_num (pi_state x)) ++
  i32 (sum_of_ticks (pi_usage x)) ++ i32 (start_tick (pi_usage x)) ++ i32 (quota (pi_usage x)).
Definition info_of_bytes (b : list Z) : proc_info :=
  mkInfo (take 16 b) (s32 (field b 16 4)) (s32 (field b 20 4)) (num_state (field b 24 4)) (mkCu (field b 28 4) (field b 32 4) (field b 36 4)).
Definition listing_of_bytes (b : list Z) : listing :=
  mkListing (s32 (field b 0 4)) ((fun i => info_of_bytes (drop (4 + INFO_SIZE * i) b)) <$> seq 0 (Z.to_nat NPROC)).
(** [n] entries have been stored *)
Definition listing_bytes (n : nat) (x : listing) (old : list Z) : list Z :=
  i32 (ls_count x) ++ concat (info_bytes <$> take n (ls_processes x)) ++ drop (4 + INFO_SIZE * n) old.

(** struct report_traps: the reports, the count and four bytes of padding *)
Definition RTRAPS_SIZE : Z := REPORT_BUFFER_SIZE * REPORT_SIZE + 8.
Definition report_of_bytes (b : list Z) : report :=
  mkReport (take 16 b) (s32 (field b 16 4)) ((fun i => s32 (field b (20 + 4 * i) 4)) <$> seq 0 (Z.to_nat NPROC)) (s32 (field b 276 4))
    (field b 280 8) (field b 288 8) (field b 296 8).
Definition rtraps_of_bytes (b : list Z) : report_traps :=
  mkRt ((fun i => report_of_bytes (drop (304 * i) b)) <$> seq 0 (Z.to_nat REPORT_BUFFER_SIZE)) (s32 (field b 3040 4)).
Definition rtraps_bytes (x : report_traps) (old : list Z) : list Z :=
  concat (report_bytes <$> rt_reports x) ++ i32 (rt_count x) ++ drop 3044 old.

(** ** The machine a system call works on *)

(** How a handler ends: it returns; the process sleeps in it and goes round
    its loop when it is woken; it has given up the hart and goes back to user
    space without returning; it is in exit. *)
Inductive flow := FRet (r : Z) | FSleep | FSwitch | FExit.

Section syscall.
Context (kernel_end trampoline forkret ustack_at kbuf_at : Z) (chan_of : option nat -> Z) (tick_chan : Z).
Context {C : Type} `{BO : BufOps C} (sb : superblock).
(** devsw, the word at ofile[fd] outside the array, the bytes an uninitialised
    stack variable holds, and how long set_cpu_quota may walk *)
Context (devread devwrite : Z -> option (Z -> Z -> kst C kmem -> res (Z * kst C kmem))) (oob : Z -> option nat) (junk : list Z) (quota_fuel : nat).

(** The process and file state, the report list, sched_type, and the current
    hart with its thread *)
Record machine := mkMach { m_y : ksys (C := C); m_reports : report_list; m_sched_type : Z; m_hart : Z; m_thread : option nat }.
Definition mp (m : machine) : psys := y_p (m_y m).
Definition set_y (m : machine) (y : ksys) : machine := mkMach y (m_reports m) (m_sched_type m) (m_hart m) (m_thread m).
Definition set_p (m : machine) (s : psys) : machine := set_y m (mkKs s (y_k (m_y m))).
Definition set_th (m : machine) (th : option nat) : machine := mkMach (m_y m) (m_reports m) (m_sched_type m) (m_hart m) th.

(** The caller [i]: its registers, and its memory through its page table *)
Definition caller (i : nat) (m : machine) : proc := getp (mp m) i.
Definition regs (i : nat) (m : machine) : trapframe := get_tf (mp m) (p_trapframe (caller i m)).
Definition um (i : nat) (m : machine) : UserMem kmem := vm_usermem kernel_end (p_pagetable (caller i m)) kbuf_at.

(** ** kernel/sysproc.c *)
Definition ret (m : machine) (r : Z) : res (flow * machine) := Ok (FRet r, m).

Definition sys_exit (i : nat) (m : machine) : res (flow * machine) :=
  let* n := argint (regs i m) 0 in
  let* y := exit (UM := um i m) chan_of sb i (m_thread m) n (m_y m) in
  Ok (FExit, set_y m y).
Definition sys_getpid (i : nat) (m : machine) : res (flow * machine) := ret m (p_pid (caller i m)).
Definition sys_fork (i : nat) (m : machine) : res (flow * machine) :=
  let* (r, y) := fork kernel_end trampoline forkret i (m_y m) in ret (set_y m y) r.
Definition sys_wait (i : nat) (m : machine) : res (flow * machine) :=
  let* p := argaddr (regs i m) 0 in
  let* (e, s) := wait (UM := um i m) kernel_end chan_of i p (mp m) in
  Ok (match e with WRet r => FRet r | WSleep => FSleep end, set_p m s).
Definition sys_sbrk (i : nat) (m : machine) : res (flow * machine) :=
  let* n := argint (regs i m) 0 in
  let addr := p_sz (caller i m) in
  let* (r, s) := growproc kernel_end i n (mp m) in
  ret (set_p m s) (if r <? 0 then -1 else addr).

(** One turn of sys_sleep's loop, which began at tick [ticks0] *)
Definition sleep_loop (n ticks0 : Z) (i : nat) (m : machine) : flow * machine :=
  if u32 (ps_ticks (mp m) - ticks0) <? n then
    if killed i (mp m) then (FRet (-1), m) else (FSleep, set_p m (modp (mp m) i (sleep_enter tick_chan)))
  else (FRet 0, m).
Definition sys_sleep (i : nat) (m : machine) : res (flow * machine) :=
  let* n := argint (regs i m) 0 in
  let n := if n <? 0 then 0 else n in
  Ok (sleep_loop n (ps_ticks (mp m)) i m).

Definition sys_kill (i : nat) (m : machine) : res (flow * machine) :=
  let* pid := argint (regs i m) 0 in
  let '(r, s) := kill pid (mp m) in ret (set_p m s) r.
Definition sys_uptime (i : nat) (m : machine) : res (flow * machine) := ret m (ps_ticks (mp m)).

(** copyin and copyout of a structure; neither result is looked at *)
Definition struct_in (i : nat) (at_ n : Z) (m : machine) : list Z := fst (um_copyin (UserMem := um i m) (ps_mem (mp m)) at_ n).
Definition struct_out (i : nat) (at_ : Z) (b : list Z) (m : machine) : machine :=
  set_p m (put_mem (mp m) (fst (um_copyout (UserMem := um i m) (ps_mem (mp m)) at_ b))).

Definition sys_child_processes (i : nat) (m : machine) : res (flow * machine) :=
  let* cp := argaddr (regs i m) 0 in
  let old := struct_in i cp LISTING_SIZE m in
  let l := listing_of_bytes old in
  let* l' := child_processes (ps_procs (mp m)) i l in
  ret (struct_out i cp (listing_bytes (Z.to_nat (s32 (ls_count l' - ls_count l))) l' old) m) 0.
Definition sys_myrep (i : nat) (m : machine) : res (flow * machine) :=
  let* rt := argaddr (regs i m) 0 in
  let old := struct_in i rt RTRAPS_SIZE m in
  let* x := myrep (p_pid (caller i m)) (m_reports m) (rtraps_of_bytes old) in
  ret (struct_out i rt (rtraps_bytes x old) m) 0.

(** A handler of sysfile.c: it leaves descriptors, current directory and
    memory of the caller in the file state. *)
Definition leave (i : nat) (k : kst C kmem) (m : machine) : machine :=
  let s := put_mem (mp m) (k_u k) in
  set_y m (mkKs (modp s i (fun p => set_cwd (set_ofile p (k_ofile k)) (Some (k_cwd k)))) k).
Definition on_files (i : nat) (f : kst C kmem -> res (Z * kst C kmem)) (m : machine) : res (flow * machine) :=
  let* (r, k) := f (enter_files i (m_y m)) in ret (leave i k m) r.

(** krt is at [kbuf_at] while sysrep fills it. *)
Definition sys_sysrep (i : nat) (m : machine) : res (flow * machine) :=
  let* rt := argaddr (regs i m) 0 in
  let old := struct_in i rt RTRAPS_SIZE m in
  let m := set_p m (put_mem (mp m) (um_kput (UserMem := um i m) (ps_mem (mp m)) kbuf_at old)) in
  let* (r, k) := sysrep (UM := um i m) sb (p_pid (caller i m)) (p_killed (caller i m)) kbuf_at (enter_files i (m_y m)) in
  let m := leave i k m in
  ret (struct_out i rt (um_kget (UserMem := um i m) (ps_mem (mp m)) kbuf_at RTRAPS_SIZE) m) r.

Definition sys_create_thread (i : nat) (m : machine) : res (flow * machine) :=
  let* runner := argaddr (regs i m) 0 in
  let* arg := argaddr (regs i m) 1 in
  let* stack := argaddr (regs i m) 2 in
  let* (r, th, s) := create_thread i (m_hart m) (m_thread m) runner arg stack (mp m) in
  ret (set_th (set_p m s) th) r.
(** thread_cleanup(1) goes on to exit(0). *)
Definition thread_end (i : nat) (e : tend) (m : machine) : res (flow * machine) :=
  match e with
  | TRet r => ret m r
  | TSwitch => Ok (FSwitch, m)
  | TExit => let* y := exit (UM := um i m) chan_of sb i (m_thread m) 0 (m_y m) in Ok (FExit, set_y m y)
  end.
Definition sys_join_thread (i : nat) (m : machine) : res (flow * machine) :=
  let* tid := argint (regs i m) 0 in
  let* (e, s) := join_thread i (m_thread m) tid (mp m) in thread_end i e (set_p m s).
Definition sys_stop_thread (i : nat) (m : machine) : res (flow * machine) :=
  let* tid := argint (regs i m) 0 in
  let* (e, s) := stop_thread kernel_end i (m_thread m) tid (mp m) in thread_end i e (set_p m s).

Definition sys_cpu_usage (i : nat) (m : machine) : res (flow * machine) := ret m (cpu_usage_of i (mp m)).
Definition sys_top (i : nat) (m : machine) : res (flow * machine) :=
  let* t := argaddr (regs i m) 0 in
  let old := struct_in i t LISTING_SIZE m in
  let l := top (ps_procs (mp m)) (listing_of_bytes old) in
  ret (struct_out i t (listing_bytes (Z.to_nat (ls_count l)) l old) m) 0.
Definition sys_set_cpu_quota (i : nat) (m : machine) : res (flow * machine) :=
  let* pid := argint (regs i m) 0 in
  let* q := argint (regs i m) 1 in
  let* (r, s) := set_cpu_quota quota_fuel i pid q (mp m) in ret (set_p m s) r.
Definition sys_deadfork (i : nat) (m : machine) : res (flow * machine) :=
  let* ttl := argint (regs i m) 0 in
  let* (r, y) := deadfork kernel_end trampoline forkret i ttl (m_y m) in ret (set_y m y) r.
Definition sys_ssched (i : nat) (m : machine) : res (flow * machine) :=
  let* stype := argint (regs i m) 0 in
  ret (mkMach (m_y m) (m_reports m) stype (m_hart m) (m_thread m)) 0.

(** exec changes the process beside its files. *)
Definition sys_exec' (i : nat) (m : machine) : res (flow * machine) :=
  let* (r, k, s) := sys_exec (UM := um i m) (regs i m) (p_sz (caller i m))
      (exec (UM := um i m) kernel_end trampoline ustack_at sb (p_pid (caller i m)) i) (enter_files i (m_y m)) (mp m) in
  ret (leave i k (set_p m s)) r.

(** ** kernel/syscall.c: the table, and syscall *)

(** A handler of sysfile.c, given the caller's memory, pid, killed flag and
    registers *)
Definition file_call (f : UserMem kmem -> Z -> bool -> trapframe -> kst C kmem -> res (Z * kst C kmem)) (i : nat) (m : machine) : res (flow * machine) :=
  on_files i (f (um i m) (p_pid (caller i m)) (p_killed (caller i m)) (regs i m)) m.

Definition syscalls : list (Z * (nat -> machine -> res (flow * machine))) := [
  (SYS_fork, sys_fork);
  (SYS_exit, sys_exit);
  (SYS_wait, sys_wait);
  (SYS_pipe, file_call (fun UM me _ tf => sys_pipe sb me tf junk));
  (SYS_read, file_call (fun UM me kd tf => sys_read sb me kd devread tf));
  (SYS_kill, sys_kill);
  (SYS_exec, sys_exec');
  (SYS_fstat, file_call (fun UM me _ tf => sys_fstat sb me tf junk));
  (SYS_chdir, file_call (fun UM me _ tf => sys_chdir sb me tf));
  (SYS_dup, file_call (fun UM me _ tf => sys_dup tf));
  (SYS_getpid, sys_getpid);
  (SYS_sbrk, sys_sbrk);
  (SYS_sleep, sys_sleep);
  (SYS_uptime, sys_uptime);
  (SYS_open, file_call (fun UM me _ tf => sys_open sb me tf));
  (SYS_write, file_call (fun UM me kd tf => sys_write sb me kd devwrite tf));
  (SYS_mknod, file_call (fun UM me _ tf => sys_mknod sb me tf));
  (SYS_unlink, file_call (fun UM me _ tf => sys_unlink sb me tf));
  (SYS_link, file_call (fun UM me _ tf => sys_link sb me tf));
  (SYS_mkdir, file_call (fun UM me _ tf => sys_mkdir sb me tf));
  (SYS_close, file_call (fun UM me _ tf => sys_close sb me tf));
  (SYS_child_processes, sys_child_processes);
  (SYS_myrep, sys_myrep);
  (SYS_seek, file_call (fun UM me _ tf => sys_seek sb me tf oob));
  (SYS_sysrep, sys_sysrep);
  (SYS_create_thread, sys_create_thread);
  (SYS_join_thread, sys_join_thread);
  (SYS_stop_thread, sys_stop_thread);
  (SYS_cpu_usage, sys_cpu_usage);
  (SYS_top, sys_top);
  (SYS_set_cpu_quota, sys_set_cpu_quota);
  (SYS_deadfork, sys_deadfork);
  (SYS_ssched, sys_ssched)].
Definition handler (num : Z) : option (nat -> machine -> res (flow * machine)) :=
  snd <$> List.find (fun x => fst x =? num) syscalls.

(** p->trapframe->a0 = r *)
Definition set_result (i : nat) (r : Z) (m : machine) : machine :=
  let tf := p_trapframe (caller i m) in
  set_p m (mod_tf (mp m) tf (<[TF_a0 := u64 r]> (get_tf (mp m) tf))).

Definition syscall (i : nat) (m : machine) : res (flow * machine) :=
  let num := s32 (tf_get (regs i m) TF_a7) in
  match handler num with
  | Some call =>
      let* (e, m) := call i m in
      match e with FRet r => Ok (FRet r, set_result i r m) | _ => Ok (e, m) end
  | None => Ok (FRet (-1), set_result i (-1) m)
  end.
End syscall.

(** ** Who gets the result of a call that slept *)
Section cross.
Context {C : Type}.
Abbreviation machine := (@machine C).

(** sleep's call of sched, and the scheduler coming back to process [i] *)
Definition suspend (i : nat) (m : machine) : res machine :=
  let* s := sched i (m_thread m) true 1 false (mp m) in Ok (set_th (set_p m s) None).
Definition resume (i : nat) (m : machine) : option machine :=
  match dispatch (m_hart m) i (mp m) with
  | Some (d, s) => Some (set_th (set_p m (modp s i sleep_leave)) (d_thread d))
  | None => None
  end.

Lemma suspend_saves i j m m1 :
  suspend i m = Ok m1 -> m_thread m = Some j -> th_state (getth (caller i m) j) <> THREAD_FREE ->
  th_trapframe (getth (caller i m) j) <> p_trapframe (caller i m) -> get_tf (mp m1) (th_trapframe (getth (caller i m) j)) = regs i m.
Proof.
  unfold suspend, regs, caller. intros H Ht Hf Hne. apply rbind_Ok in H as (s1 & Hs & H). injection H as <-. rewrite Ht in Hs.
  unfold sched in Hs. cbn [negb Z.eqb Pos.eqb] in Hs. destruct (is_state _ _ && _); [discriminate|]. injection Hs as <-.
  unfold is_thread. rewrite bool_decide_false by done. cbn [negb]. destruct (Z.eqb_spec (th_trapframe (getth (getp (mp m) i) j)) (p_trapframe (getp (mp m) i))); [done|].
  cbn [negb mp set_th set_p set_y m_y y_p]. unfold get_tf at 1, modp, mod_tf. cbn [ps_tf put_procs put_tf]. by rewrite lookup_insert_eq.
Qed.

Lemma resume_loads i k m m' :
  resume i m = Some m' -> m_thread m' = Some k ->
  p_trapframe (caller i m') = p_trapframe (caller i m) /\ regs i m' = get_tf (mp m) (th_trapframe (getth (caller i m) k)) /\
  forall a, a <> p_trapframe (caller i m) -> get_tf (mp m') a = get_tf (mp m) a.
Proof.
  unfold resume, regs, caller. intros H Ht. destruct (dispatch (m_hart m) i (mp m)) as [[d s]|] eqn:Hd; [|discriminate]. injection H as <-.
  cbn [m_thread set_th] in Ht. cbn [mp set_th set_p set_y m_y y_p]. unfold dispatch in Hd.
  destruct (choose_thread (m_hart m) (getp (mp m) i)) as [[[tf th] p']|] eqn:Ec; [|discriminate]. injection Hd as <- <-. cbn [d_thread] in Ht. subst th.
  assert (Hc : tf = th_trapframe (getth (getp (mp m) i) k) /\ p_trapframe p' = p_trapframe (getp (mp m) i) /\ (i < length (ps_procs (mp m)))%nat).
  { unfold choose_thread in Ec. destruct (is_thread _ _); [by injection Ec|].
    destruct (pick_thread _ _ _) as [n|] eqn:Ep; [|discriminate]. injection Ec as <- Hk <-. subst k. split_and!; [|done|].
    - unfold getth, modth. cbn [p_threads set_threads]. rewrite list_lookup_alter_eq. by destruct (p_threads (getp (mp m) i) !! _).
    - destruct (decide (i < length (ps_procs (mp m)))%nat) as [|Hge]; [done|exfalso]. unfold getp in Ep. rewrite lookup_ge_None_2 in Ep by lia.
      cbn [default] in Ep. vm_compute in Ep. discriminate. }
  destruct Hc as (-> & Hp & Hi). cbn [p_trapframe set_running set_state]. rewrite Hp.
  set (s0 := if negb _ then _ else _). set (p2 := set_start _ _).
  assert (Hl : length (ps_procs s0) = length (ps_procs (mp m))) by (unfold s0; by destruct (negb _)).
  assert (E3 : p_trapframe (getp (modp (modp s0 i (fun _ => p2)) i sleep_leave) i) = p_trapframe (getp (mp m) i)).
  { rewrite !getp_modp by (rewrite ?length_modp, Hl; done). exact Hp. }
  rewrite E3. unfold modp at 1 3. unfold get_tf at 1 3. cbn [ps_tf put_procs]. split_and!; [done| |].
  - unfold s0. destruct (Z.eqb_spec (th_trapframe (getth (getp (mp m) i) k)) (p_trapframe (getp (mp m) i))) as [->|_]; [done|].
    cbn [negb mod_tf ps_tf put_tf modp put_procs]. by rewrite lookup_insert_eq.
  - intros a Ha. unfold s0. destruct (negb _); [|done]. cbn [mod_tf ps_tf put_tf modp put_procs]. by rewrite lookup_insert_ne.
Qed.

(** The threads of a process share one kernel stack and one trapframe, and
    a system call that sleeps is resumed for whichever thread the scheduler
    dispatches next.  If that is thread k and the call was made by thread j,
    the result goes to k: k's registers are what it had saved with a0
    overwritten, while j's saved registers still hold the argument of the call
    in a0. *)
Theorem sleep_result_crosses_threads i j k r (m m1 m2 m3 : machine) :
  m_thread m = Some j -> th_state (getth (caller i m) j) <> THREAD_FREE -> th_trapframe (getth (caller i m) j) <> p_trapframe (caller i m) ->
  suspend i m = Ok m1 ->
  p_trapframe (caller i m2) = p_trapframe (caller i m) ->
  get_tf (mp m2) (th_trapframe (getth (caller i m) j)) = get_tf (mp m1) (th_trapframe (getth (caller i m) j)) ->
  resume i m2 = Some m3 -> m_thread m3 = Some k ->
  regs i (set_result i r m3) = <[TF_a0 := u64 r]> (get_tf (mp m2) (th_trapframe (getth (caller i m2) k))) /\
  get_tf (mp (set_result i r m3)) (th_trapframe (getth (caller i m) j)) = regs i m.
Proof.
  intros Ht Hf Hne Hs Hp E2 Hr Hk. pose proof (suspend_saves i j m m1 Hs Ht Hf Hne) as E1.
  destruct (resume_loads i k m2 m3 Hr Hk) as (P3 & R3 & O3). split.
  - rewrite <- R3. unfold set_result, regs, caller. cbn [mp set_p set_y m_y y_p].
    change (getp (mod_tf (mp m3) _ _) i) with (getp (mp m3) i). unfold get_tf at 1, mod_tf. cbn [ps_tf put_tf]. by rewrite lookup_insert_eq.
  - unfold set_result. cbn [mp set_p set_y m_y y_p]. rewrite P3, Hp. unfold get_tf at 1, mod_tf. cbn [ps_tf put_tf].
    rewrite lookup_insert_ne by done. rewrite <- E1, <- E2. apply O3. by rewrite Hp.
Qed.
End cross.

(** Thread 1 of a process calls sleep(5); the main thread, runnable with 77 in
    a0, is dispatched when the process is woken. *)
Definition sleep_regs : trapframe := <[TF_a7 := SYS_sleep]> (<[TF_a0 := 5]> (replicate 36 0)).
Definition main_regs : trapframe := <[TF_a0 := 77]> (replicate 36 0).
Definition demo_sleeper : machine (C := acache) :=
  mkMach (mkKs (mkPs [set_last (set_running (set_trapframe (set_threads (set_state proc0 RUNNING)
            [mkThread THREAD_RUNNABLE 4096 None 1 0; mkThread THREAD_RUNNING 8192 (Some 0) 2 0; thread0; thread0]) 4096) 1) 1]
            None 1 3 0 {[ 4096 := sleep_regs; 8192 := replicate 36 0 ]} (mkKmem ∅ 0))
          (mkK (mkFs (mkLog 2 30 0 0 1 0 (replicate 30 0), mkA ∅ ∅ []) []) [] [] ∅ (mkKmem ∅ 0) [] 0%nat))
    empty_ring 0 0 (Some 1%nat).
Definition asleep : machine (C := acache) :=
  match sys_sleep 1 0 demo_sleeper with Ok (_, m) => m | _ => demo_sleeper end.
Definition suspended : machine (C := acache) := match suspend 0 asleep with Ok m => m | _ => asleep end.
(** The scheduler puts the main thread's registers back; five ticks later the
    clock interrupt wakes the process. *)
Definition awake : machine (C := acache) :=
  set_p suspended (wakeup None 1 (put_ticks (mod_tf (mp suspended) 4096 main_regs) 5)).

Lemma sleep_result_crosses_threads_witness :
  exists m3, resume 0 awake = Some m3 /\ m_thread m3 = Some 0%nat /\ sleep_loop 1 5 0 0 m3 = (FRet 0, m3) /\
    regs 0 (set_result 0 0 m3) = <[TF_a0 := 0]> main_regs /\ get_tf (mp (set_result 0 0 m3)) 8192 = sleep_regs.
Proof.
  destruct (resume 0 awake) as [m3|] eqn:E; [|discriminate E]. exists m3.
  assert (Hk : m_thread m3 = Some 0%nat) by (vm_compute in E; injection E as <-; reflexivity).
  destruct (sleep_result_crosses_threads 0 1 0 0 asleep suspended awake m3) as [H1 H2];
    [vm_compute; reflexivity|vm_compute; discriminate|vm_compute; discriminate|vm_compute; reflexivity|vm_compute; reflexivity|vm_compute; reflexivity|exact E|exact Hk|].
  assert (A : get_tf (mp awake) (th_trapframe (getth (caller 0 awake) 0)) = main_regs) by (vm_compute; reflexivity).
  assert (B : th_trapframe (getth (caller 0 asleep) 1) = 8192) by (vm_compute; reflexivity).
  assert (D : regs 0 asleep = sleep_regs) by (vm_compute; reflexivity). rewrite A in H1. rewrite B, D in H2.
  split_and!; [reflexivity|exact Hk|vm_compute in E; injection E as <-; vm_compute; reflexivity|exact H1|exact H2].
Defined.
