(* ===== verification/Console.v ===== *)
(** * The console: kernel/console.c on kernel/uart.c

    The transmit ring of the UART and the input line of the console.  The
    UART itself is outside: what its status register says is an argument (how
    many bytes it takes before it is busy), what is written to it a result.
    cons.lock and uart_tx_lock are held from entry to sleep or return, so a
    call is a sequence of uninterrupted runs.  Proved: bytes leave the
    transmit ring in order, and the console behaves as a line editor. *)

From S2P Require Import Prelude.

(** ** The UART's transmit ring *)
Definition UART_TX_BUF_SIZE : Z := 32.
Record uart := mkUart { uart_tx_buf : list Z; uart_tx_w : Z; uart_tx_r : Z }.

(** uartstart: the UART takes [room] bytes before LSR_TX_IDLE reads 0; the
    bytes written to THR, and whether a sleeping uartputc is woken. *)
Fixpoint uartstart (room : nat) (u : uart) : list Z * bool * uart :=
  if uart_tx_w u =? uart_tx_r u then ([], false, u)
  else match room with
       | O => ([], false, u)
       | S room' =>
           let c := nthZ (uart_tx_buf u) (uart_tx_r u mod UART_TX_BUF_SIZE) in
           let '(out, _, u) := uartstart room' (mkUart (uart_tx_buf u) (uart_tx_w u) (u64 (uart_tx_r u + 1))) in
           (c :: out, true, u)
       end.

(** One run of uartputc: [None] when the ring is full and the caller sleeps. *)
Definition uartputc (room : nat) (c : Z) (u : uart) : option (list Z * bool * uart) :=
  if uart_tx_w u =? u64 (uart_tx_r u + UART_TX_BUF_SIZE) then None
  else Some (uartstart room (mkUart (setZ (uart_tx_buf u) (uart_tx_w u mod UART_TX_BUF_SIZE) (u8 c)) (u64 (uart_tx_w u + 1)) (uart_tx_r u))).

(** uartputc_sync waits until the UART is idle and writes. *)
Definition uartputc_sync (c : Z) : list Z := [u8 c].

(** ** Console output *)
Definition BACKSPACE : Z := 0x100.
Definition consputc (c : Z) : list Z :=
  if c =? BACKSPACE then uartputc_sync 8 ++ uartputc_sync 32 ++ uartputc_sync 8 else uartputc_sync c.

(** consolewrite from byte [i]; [src i] is either_copyin of one byte at src+i
    and [rooms] what the UART accepts at each byte.  It returns or sleeps in
    uartputc with byte [i] still to go. *)
Inductive wrun := WrRet (r : Z) | WrSleep (i : Z).
Fixpoint consolewrite_loop (fuel : nat) (src : Z -> option Z) (rooms : Z -> nat) (i n : Z) (u : uart) : wrun * list Z * uart :=
  match fuel with
  | O => (WrRet i, [], u)
  | S fuel' =>
      if i <? n then
        match src i with
        | None => (WrRet i, [], u)
        | Some c =>
            match uartputc (rooms i) c u with
            | None => (WrSleep i, [], u)
            | Some (out, _, u) => let '(e, out', u) := consolewrite_loop fuel' src rooms (i + 1) n u in (e, out ++ out', u)
            end
        end
      else (WrRet i, [], u)
  end.
Definition consolewrite (src : Z -> option Z) (rooms : Z -> nat) (i n : Z) (u : uart) : wrun * list Z * uart :=
  consolewrite_loop (S (Z.to_nat (n - i))) src rooms i n u.

(** ** Console input *)
Definition INPUT_BUF_SIZE : Z := 128.
Definition ctrl (x : Z) : Z := x - 64.
Definition newline : Z := 10.
Definition EOF : Z := ctrl 68.
Record console := mkCons { c_buf : list Z; c_r : Z; c_w : Z; c_e : Z }.

(** case C('U'): what is echoed, and the edit index *)
Fixpoint kill_line (fuel : nat) (cs : console) : list Z * console :=
  match fuel with
  | O => ([], cs)
  | S fuel' =>
      if negb (c_e cs =? c_w cs) && negb (nthZ (c_buf cs) (u32 (c_e cs - 1) mod INPUT_BUF_SIZE) =? newline) then
        let '(out, cs) := kill_line fuel' (mkCons (c_buf cs) (c_r cs) (c_w cs) (u32 (c_e cs - 1))) in
        (consputc BACKSPACE ++ out, cs)
      else ([], cs)
  end.

(** default: *)
Definition store_char (c : Z) (cs : console) : list Z * bool * console :=
  if negb (c =? 0) && (u32 (c_e cs - c_r cs) <? INPUT_BUF_SIZE) then
    let c := if c =? 13 then newline else c in
    let cs := mkCons (setZ (c_buf cs) (c_e cs mod INPUT_BUF_SIZE) (u8 c)) (c_r cs) (c_w cs) (u32 (c_e cs + 1)) in
    if (c =? newline) || (c =? EOF) || (u32 (c_e cs - c_r cs) =? INPUT_BUF_SIZE)
    then (consputc c, true, mkCons (c_buf cs) (c_r cs) (c_e cs) (c_e cs))
    else (consputc c, false, cs)
  else ([], false, cs).

(** The echo, whether readers are woken, and the new state.  What procdump
    prints for C('P') is not part of the echo. *)
Definition consoleintr (c : Z) (cs : console) : list Z * bool * console :=
  if c =? ctrl 80 then ([], false, cs)
  else if c =? ctrl 85 then let '(out, cs) := kill_line (Z.to_nat INPUT_BUF_SIZE) cs in (out, false, cs)
  else if (c =? ctrl 72) || (c =? 0x7f) then
    if negb (c_e cs =? c_w cs) then (consputc BACKSPACE, false, mkCons (c_buf cs) (c_r cs) (c_w cs) (u32 (c_e cs - 1)))
    else ([], false, cs)
  else store_char c cs.

(** A run of consoleread with [n] of [target] bytes to go: it returns, or
    sleeps and goes on from there.  [out u dst c] is either_copyout of a byte. *)
Inductive rrun := RdRet (r : Z) | RdSleep (n dst : Z).
Fixpoint consoleread_loop {U} (fuel : nat) (out : U -> Z -> Z -> U * bool) (killed : bool) (target n dst : Z) (u : U) (cs : console) : rrun * U * console :=
  match fuel with
  | O => (RdRet (s32 (target - n)), u, cs)
  | S fuel' =>
      if 0 <? n then
        if c_r cs =? c_w cs then
          if killed then (RdRet (-1), u, cs) else (RdSleep n dst, u, cs)
        else
          let c := nthZ (c_buf cs) (c_r cs mod INPUT_BUF_SIZE) in
          let cs' := mkCons (c_buf cs) (u32 (c_r cs + 1)) (c_w cs) (c_e cs) in
          if c =? EOF then (RdRet (s32 (target - n)), u, if n <? target then mkCons (c_buf cs') (u32 (c_r cs' - 1)) (c_w cs') (c_e cs') else cs')
          else
            let '(u, ok) := out u dst c in
            if negb ok then (RdRet (s32 (target - n)), u, cs')
            else if c =? newline then (RdRet (s32 (target - (n - 1))), u, cs')
            else consoleread_loop fuel' out killed target (n - 1) (dst + 1) u cs'
      else (RdRet (s32 (target - n)), u, cs)
  end.
Definition consoleread {U} (out : U -> Z -> Z -> U * bool) (killed : bool) (target n dst : Z) (u : U) (cs : console) : rrun * U * console :=
  consoleread_loop (S (Z.to_nat n)) out killed target n dst u cs.

(** uartintr: the bytes waiting in the UART go to the console one by one,
    then the ring is drained into it.  Whether readers of the console and
    writers waiting for room in the ring are woken *)
Fixpoint uart_input (rx : list Z) (cs : console) : list Z * bool * console :=
  match rx with
  | [] => ([], false, cs)
  | c :: rx =>
      let '(o1, w1, cs) := consoleintr c cs in
      let '(o2, w2, cs) := uart_input rx cs in (o1 ++ o2, w1 || w2, cs)
  end.
Definition uartintr (rx : list Z) (room : nat) (cs : console) (u : uart) : list Z * bool * bool * console * uart :=
  let '(echo, readers, cs) := uart_input rx cs in
  let '(out, writers, u) := uartstart room u in
  (echo ++ out, readers, writers, cs, u).

(** ** The transmit ring is a queue *)
Record tx_ok (from : Z) (q : list Z) (u : uart) : Prop := {
  tx_ring : in_ring 32 (uart_tx_buf u) from q;
  tx_r : uart_tx_r u = u64 from;
  tx_w : uart_tx_w u = u64 (from + Z.of_nat (length q));
}.

Lemma u64_mod32 x : u64 x mod 32 = x mod 32.
Proof. unfold u64. zsolve. Qed.
Lemma u64_shift x k : u64 (u64 x + k) = u64 (x + k).
Proof. unfold u64. zsolve. Qed.
Lemma u64_near x k k' : 0 <= k <= 32 -> 0 <= k' <= 32 -> u64 (x + k) = u64 (x + k') -> k = k'.
Proof. unfold u64. intros. zsolve. Qed.

Lemma uartstart_spec room from q u :
  tx_ok from q u -> exists out woken u', uartstart room u = (out, woken, u') /\ exists q', q = out ++ q' /\ tx_ok (from + Z.of_nat (length out)) q' u' /\ length out = Nat.min room (length q).
Proof.
  revert from q u. induction room as [|room IH]; intros from q u Hok; cbn [uartstart].
  - exists [], false, u. split; [by destruct (_ =? _)|]. exists q. cbn [length app]. by rewrite Z.add_0_r.
  - pose proof Hok as [Hr E1 E2]. pose proof (rg_fits _ _ _ _ Hr). destruct q as [|c q].
    + cbn [length] in E2. rewrite Z.add_0_r in E2. rewrite E1, E2, Z.eqb_refl. exists [], false, u. split; [done|]. exists []. cbn [length app]. by rewrite Z.add_0_r.
    + destruct (Z.eqb_spec (uart_tx_w u) (uart_tx_r u)) as [E|_].
      { rewrite E1, E2 in E. replace (u64 from) with (u64 (from + 0)) in E by (f_equal; lia). apply u64_near in E; cbn [length] in *; lia. }
      apply ring_get in Hr as [Hc Hr]. change UART_TX_BUF_SIZE with 32. rewrite E1, u64_mod32, Hc, u64_shift.
      destruct (IH (from + 1) q (mkUart (uart_tx_buf u) (uart_tx_w u) (u64 (from + 1)))) as (out & wk & u' & -> & q' & -> & Hok' & Hl).
      { split; [done|done|]. cbn. rewrite E2. f_equal. cbn [length]. lia. }
      exists (c :: out), true, u'. split; [done|]. exists q'. split; [done|]. cbn [length].
      replace (from + Z.of_nat (S (length out))) with (from + 1 + Z.of_nat (length out)) by lia. split; [done|]. lia.
Qed.

Lemma uartputc_spec room c from q u :
  tx_ok from q u ->
  match uartputc room c u with
  | None => length q = 32%nat
  | Some (out, _, u') => (length q < 32)%nat /\ exists from' q', q ++ [u8 c] = out ++ q' /\ tx_ok from' q' u'
  end.
Proof.
  intros [Hr E1 E2]. pose proof (rg_fits _ _ _ _ Hr) as Hf. unfold uartputc. change UART_TX_BUF_SIZE with 32. rewrite E1, E2, u64_shift.
  destruct (Z.eqb_spec (u64 (from + Z.of_nat (length q))) (u64 (from + 32))) as [E|Hne]; [apply u64_near in E; lia|].
  assert (Hl : Z.of_nat (length q) < 32) by (destruct (decide (Z.of_nat (length q) = 32)) as [E|]; [by rewrite E in Hne|lia]).
  rewrite u64_mod32, u64_shift. destruct (uartstart_spec room from (q ++ [u8 c]) (mkUart (setZ (uart_tx_buf u) ((from + Z.of_nat (length q)) mod 32) (u8 c))
     (u64 (from + Z.of_nat (length q) + 1)) (u64 from))) as (out & wk & u' & -> & q' & E & Hok & _).
  { split; [apply ring_put; done|done|]. cbn. rewrite length_app. cbn. f_equal. lia. }
  split; [lia|]. eauto.
Qed.

(** A history of the ring: callers of uartputc and interrupts, with what the
    UART accepts each time; the bytes accepted from callers, and sent. *)
Inductive tx_op := TxPut (room : nat) (c : Z) | TxIntr (room : nat).
Fixpoint tx_run (ops : list tx_op) (u : uart) : list Z * list Z * uart :=
  match ops with
  | [] => ([], [], u)
  | TxPut room c :: ops =>
      match uartputc room c u with
      | None => tx_run ops u
      | Some (out, _, u) => let '(a, s, u) := tx_run ops u in (u8 c :: a, out ++ s, u)
      end
  | TxIntr room :: ops => let '(out, _, u) := uartstart room u in let '(a, s, u) := tx_run ops u in (a, out ++ s, u)
  end.

(** Bytes leave the UART in the order uartputc accepted them, none lost
    and none repeated, over any history of callers and interrupts, whatever
    the UART accepts at each moment and wherever the 64-bit counters are; at
    most UART_TX_BUF_SIZE wait in the ring, and when none wait all were sent. *)
Theorem uart_transmits_in_order ops buf n a s u :
  length buf = 32%nat -> 0 <= n < 2 ^ 64 -> tx_run ops (mkUart buf n n) = (a, s, u) ->
  exists q, a = s ++ q /\ Z.of_nat (length q) <= UART_TX_BUF_SIZE /\ (uart_tx_w u = uart_tx_r u <-> q = []).
Proof.
  intros Hl Hn. assert (H0 : tx_ok n [] (mkUart buf n n)).
  { split; cbn; [split; cbn; try lia; done|symmetry; by apply u64_small|]. rewrite Z.add_0_r. symmetry. by apply u64_small. }
  cut (forall u0 from q0 a s u, tx_ok from q0 u0 -> tx_run ops u0 = (a, s, u) -> exists from' q, q0 ++ a = s ++ q /\ tx_ok from' q u).
  { intros G E. destruct (G _ _ _ _ _ _ H0 E) as (from' & q & E' & [Hr E1 E2]). pose proof (rg_fits _ _ _ _ Hr) as Hf. exists q. split; [exact E'|]. split; [exact Hf|].
    rewrite E1, E2. replace (u64 from') with (u64 (from' + 0)) by (f_equal; lia). split; [|by intros ->].
    intros Hx. apply u64_near in Hx; [|lia..]. destruct q; [done|cbn in Hx; lia]. }
  clear. induction ops as [|[room c|room] ops IH]; intros u0 from q0 a s u Hok E; cbn [tx_run] in E.
  - injection E as <- <- <-. exists from, q0. by rewrite app_nil_r.
  - pose proof (uartputc_spec room c from q0 u0 Hok) as Hp. destruct (uartputc room c u0) as [[[out wk] u1]|]; [|by eapply IH].
    destruct Hp as (_ & from' & q' & Eq & Hok'). destruct (tx_run ops u1) as [[a1 s1] u2] eqn:E1. injection E as <- <- <-.
    destruct (IH _ _ _ _ _ _ Hok' E1) as (from2 & q2 & E2 & Hok2). exists from2, q2. split; [|done].
    change (u8 c :: a1) with ([u8 c] ++ a1). by rewrite app_assoc, Eq, <- !app_assoc, E2.
  - destruct (uartstart_spec room from q0 u0 Hok) as (out & wk & u1 & Es & q' & -> & Hok' & _). rewrite Es in E.
    destruct (tx_run ops u1) as [[a1 s1] u2] eqn:E1. injection E as <- <- <-.
    destruct (IH _ _ _ _ _ _ Hok' E1) as (from2 & q2 & E2 & Hok2). exists from2, q2. split; [|done]. by rewrite <- !app_assoc, E2.
Qed.

Lemma uart_transmits_in_order_witness :
  exists a s u, tx_run ([TxPut 0 65; TxPut 0 66; TxIntr 1; TxPut 0 67; TxIntr 5]) (mkUart (replicate 32 0) (2 ^ 64 - 1) (2 ^ 64 - 1)) = (a, s, u) /\
    a = [65; 66; 67] /\ exists q, a = s ++ q /\ Z.of_nat (length q) <= UART_TX_BUF_SIZE.
Proof.
  destruct (tx_run _ _) as [[a s] u] eqn:E. exists a, s, u. split; [reflexivity|].
  pose proof (uart_transmits_in_order _ (replicate 32 0) (2 ^ 64 - 1) _ _ _ eq_refl ltac:(lia) E) as (q & H1 & H2 & _).
  split; [vm_compute in E; injection E as <- <- <-; reflexivity|]. exists q. split; [exact H1|exact H2].
Defined.

(** ** The console is a line editor *)

(** The specification: the bytes a reader may take, and the line being typed. *)
Record editor := mkEd { ed_ready : list Z; ed_line : list Z }.
Definition erase : list Z := [8; 32; 8].

Definition key (c : Z) (e : editor) : list Z * bool * editor :=
  if c =? ctrl 80 then ([], false, e)
  else if c =? ctrl 85 then (concat (replicate (length (ed_line e)) erase), false, mkEd (ed_ready e) [])
  else if (c =? ctrl 72) || (c =? 0x7f) then
    match ed_line e with [] => ([], false, e) | _ => (erase, false, mkEd (ed_ready e) (removelast (ed_line e))) end
  else if negb (c =? 0) && (length (ed_ready e ++ ed_line e) <? 128)%nat then
    let c := if c =? 13 then newline else c in
    let line := ed_line e ++ [c] in
    if (c =? newline) || (c =? EOF) || (length (ed_ready e ++ line) =? 128)%nat then ([c], true, mkEd (ed_ready e ++ line) [])
    else ([c], false, mkEd (ed_ready e) line)
  else ([], false, e).

(** A reader takes bytes up to and including a newline; ^D ends the read and
    is taken only by a read that got nothing.  [None]: it waits for more. *)
Fixpoint take_line (n : nat) (first : bool) (ready : list Z) : list Z * bool * list Z :=
  match n, ready with
  | O, _ => ([], true, ready)
  | S _, [] => ([], false, [])
  | S n', c :: ready' =>
      if c =? EOF then ([], true, if first then ready' else ready)
      else if c =? newline then ([c], true, ready')
      else let '(got, fin, rest) := take_line n' false ready' in (c :: got, fin, rest)
  end.

Record console_ok (from : Z) (e : editor) (cs : console) : Prop := {
  co_ring : in_ring 128 (c_buf cs) from (ed_ready e ++ ed_line e);
  co_r : c_r cs = u32 from;
  co_w : c_w cs = u32 (from + Z.of_nat (length (ed_ready e)));
  co_e : c_e cs = u32 (from + Z.of_nat (length (ed_ready e ++ ed_line e)));
  co_line : newline ∉ ed_line e;
}.

Lemma u32_mod128 x : u32 x mod 128 = x mod 128.
Proof. unfold u32. zsolve. Qed.
Lemma u32_shift x k : u32 (u32 x + k) = u32 (x + k).
Proof. unfold u32. zsolve. Qed.
Lemma u32_near x k k' : 0 <= k <= 128 -> 0 <= k' <= 128 -> u32 (x + k) = u32 (x + k') -> k = k'.
Proof. unfold u32. intros. zsolve. Qed.
Lemma u32_diff x k : 0 <= k <= 128 -> u32 (u32 (x + k) - u32 x) = k.
Proof. unfold u32. intros. zsolve. Qed.

Lemma e_is_w from e cs : console_ok from e cs -> (c_e cs =? c_w cs) = bool_decide (ed_line e = []).
Proof.
  intros [Hr _ E2 E3 _]. pose proof (rg_fits _ _ _ _ Hr) as Hf. rewrite length_app in *. rewrite E2, E3.
  destruct (Z.eqb_spec (u32 (from + Z.of_nat (length (ed_ready e) + length (ed_line e)))) (u32 (from + Z.of_nat (length (ed_ready e))))) as [E|E]; symmetry.
  - apply bool_decide_eq_true. apply u32_near in E; [|lia..]. destruct (ed_line e); [done|cbn in E; lia].
  - apply bool_decide_eq_false. intros Hl. rewrite Hl in E. cbn in E. by rewrite Nat.add_0_r in E.
Qed.

(** Taking back the last character of the line *)
Lemma console_back from ready line c cs :
  console_ok from (mkEd ready (line ++ [c])) cs ->
  nthZ (c_buf cs) (u32 (c_e cs - 1) mod 128) = c /\
  console_ok from (mkEd ready line) (mkCons (c_buf cs) (c_r cs) (c_w cs) (u32 (c_e cs - 1))).
Proof.
  intros [Hr E1 E2 E3 Hl]. cbn [ed_ready ed_line] in *. rewrite app_assoc in Hr, E3. rewrite length_app in E3. cbn [length] in E3.
  assert (Ee : u32 (c_e cs - 1) = u32 (from + Z.of_nat (length (ready ++ line)))).
  { rewrite E3. change (-1) with (- 1). rewrite <- Z.add_opp_r, u32_shift. f_equal. lia. }
  split; [rewrite Ee, u32_mod128; by apply ring_last|]. split; cbn [c_buf c_r c_w c_e ed_ready ed_line]; auto.
  - by eapply ring_prefix.
  - intros H. apply Hl, elem_of_app. by left.
Qed.

Lemma kill_line_spec fuel from ready line cs :
  console_ok from (mkEd ready line) cs -> (length line <= fuel)%nat ->
  exists cs', kill_line fuel cs = (concat (replicate (length line) erase), cs') /\ console_ok from (mkEd ready []) cs'.
Proof.
  revert line cs. induction fuel as [|fuel IH]; intros line cs Hok Hf; cbn [kill_line].
  { destruct line; [|cbn in Hf; lia]. by exists cs. }
  rewrite (e_is_w _ _ _ Hok). cbn [ed_line]. destruct line as [|c line] using rev_ind; [rewrite bool_decide_true by done; by exists cs|clear IHline].
  rewrite bool_decide_false by (by destruct line). cbn [negb andb]. destruct (console_back _ _ _ _ _ Hok) as [Hc Hok']. change INPUT_BUF_SIZE with 128. rewrite Hc.
  destruct (Z.eqb_spec c newline) as [->|_]; [exfalso; apply (co_line _ _ _ Hok), elem_of_app; right; by apply list_elem_of_singleton|].
  cbn [negb]. rewrite length_app in *. cbn [length] in *. destruct (IH line _ Hok' ltac:(lia)) as (cs' & -> & Hok''). exists cs'. split; [|done].
  rewrite Nat.add_comm. done.
Qed.

(** A character: what it adds to the ring and when the line is complete *)
Lemma store_char_spec c from e cs :
  console_ok from e cs -> 0 <= c < 256 -> c <> ctrl 80 -> c <> ctrl 85 -> c <> ctrl 72 -> c <> 0x7f ->
  exists echo woken cs' e', store_char c cs = (echo, woken, cs') /\ key c e = (echo, woken, e') /\ console_ok from e' cs'.
Proof.
  intros Hok Hb H1 H2 H3 H4. pose proof Hok as [Hr E1 E2 E3 Hl]. pose proof (rg_fits _ _ _ _ Hr) as Hf.
  unfold store_char, key. change INPUT_BUF_SIZE with 128.
  destruct (Z.eqb_spec c (ctrl 80)), (Z.eqb_spec c (ctrl 85)), (Z.eqb_spec c (ctrl 72)), (Z.eqb_spec c 0x7f); try done. cbn [orb].
  assert (Ed : (u32 (c_e cs - c_r cs) <? 128) = (length (ed_ready e ++ ed_line e) <? 128)%nat).
  { rewrite E1, E3, u32_diff by lia. destruct (Z.ltb_spec (Z.of_nat (length (ed_ready e ++ ed_line e))) 128), (Nat.ltb_spec (length (ed_ready e ++ ed_line e)) 128); lia. }
  rewrite Ed. destruct (negb (c =? 0)); cbn [andb]; [|by exists [], false, cs, e].
  destruct (Nat.ltb_spec (length (ed_ready e ++ ed_line e)) 128) as [Hlt|]; [|by exists [], false, cs, e].
  set (c' := if c =? 13 then newline else c). assert (Hc' : 0 <= c' < 256) by (unfold c'; destruct (c =? 13); [done|lia]).
  assert (Hu : u8 c' = c') by (by apply u8_small). assert (Hecho : consputc c' = [c']).
  { unfold consputc, uartputc_sync. destruct (Z.eqb_spec c' BACKSPACE) as [E|]; [change BACKSPACE with 256 in E; lia|by rewrite Hu]. }
  cbv zeta. cbn [c_buf c_r c_w c_e]. rewrite Hu, Hecho, E3, u32_shift.
  assert (Hr' : in_ring 128 (setZ (c_buf cs) (u32 (from + Z.of_nat (length (ed_ready e ++ ed_line e))) mod 128) c') from (ed_ready e ++ (ed_line e ++ [c']))).
  { rewrite u32_mod128, app_assoc. apply ring_put; [lia|done|lia]. }
  replace (from + Z.of_nat (length (ed_ready e ++ ed_line e)) + 1) with (from + Z.of_nat (length (ed_ready e ++ (ed_line e ++ [c'])))) by (rewrite !length_app; cbn; lia).
  assert (Efull : (u32 (u32 (from + Z.of_nat (length (ed_ready e ++ (ed_line e ++ [c'])))) - c_r cs) =? 128) = (length (ed_ready e ++ (ed_line e ++ [c'])) =? 128)%nat).
  { pose proof (rg_fits _ _ _ _ Hr'). rewrite E1, u32_diff by lia.
    destruct (Z.eqb_spec (Z.of_nat (length (ed_ready e ++ (ed_line e ++ [c'])))) 128), (Nat.eqb_spec (length (ed_ready e ++ (ed_line e ++ [c']))) 128); lia. }
  rewrite Efull. destruct (Z.eqb_spec c' newline) as [En|Hn]; cbn [orb].
  2: destruct (Z.eqb_spec c' EOF); cbn [orb]; [|destruct (_ =? 128)%nat].
  1-3: eexists _, _, _, _; split_and!; [done|done|]; split; cbn [c_buf c_r c_w c_e ed_ready ed_line]; rewrite ?app_nil_r; auto; apply not_elem_of_nil.
  eexists _, _, _, _; split_and!; [done|done|]. split; cbn [c_buf c_r c_w c_e ed_ready ed_line]; auto.
  intros Hin. apply elem_of_app in Hin as [Hin|Hin]; [done|]. by apply list_elem_of_singleton in Hin.
Qed.

Lemma key_refines c from e cs :
  console_ok from e cs -> 0 <= c < 256 ->
  exists echo woken cs' e', consoleintr c cs = (echo, woken, cs') /\ key c e = (echo, woken, e') /\ console_ok from e' cs'.
Proof.
  intros Hok Hc. destruct (decide (c = ctrl 80)) as [->|H1]; [by exists [], false, cs, e|].
  destruct (decide (c = ctrl 85)) as [->|H2].
  { destruct e as [ready line]. pose proof (rg_fits _ _ _ _ (co_ring _ _ _ Hok)) as Hf. cbn [ed_ready ed_line] in Hf. rewrite length_app in Hf.
    unfold consoleintr, key. change (ctrl 85 =? ctrl 80) with false. change (ctrl 85 =? ctrl 85) with true. cbn iota.
    destruct (kill_line_spec (Z.to_nat INPUT_BUF_SIZE) from ready line cs Hok) as (cs' & -> & Hok'); [change (Z.to_nat INPUT_BUF_SIZE) with 128%nat; lia|].
    eexists _, _, _, _. split_and!; [done|done|exact Hok']. }
  destruct (decide (c = ctrl 72 \/ c = 0x7f)) as [H3|H3].
  { assert (Hk : (c =? ctrl 80) = false /\ (c =? ctrl 85) = false /\ ((c =? ctrl 72) || (c =? 0x7f)) = true) by (destruct H3 as [->| ->]; done).
    unfold consoleintr, key. destruct Hk as (-> & -> & ->). rewrite (e_is_w _ _ _ Hok). destruct e as [ready line]. cbn [ed_line ed_ready].
    destruct line as [|x line _] using rev_ind; [rewrite bool_decide_true by done; by eexists _, _, _, _|].
    rewrite bool_decide_false by (by destruct line). cbn [negb]. destruct (console_back _ _ _ _ _ Hok) as [_ Hok'].
    eexists _, _, _, _. split_and!; [done| |exact Hok']. rewrite removelast_last. by destruct line. }
  destruct (store_char_spec c from e cs) as (echo & wk & cs' & e' & Es & Ek & Hok'); auto.
  exists echo, wk, cs', e'. split_and!; auto. rewrite <- Es. unfold consoleintr.
  destruct (Z.eqb_spec c (ctrl 80)), (Z.eqb_spec c (ctrl 85)), (Z.eqb_spec c (ctrl 72)), (Z.eqb_spec c 0x7f); cbn [orb]; try done; tauto.
Qed.

(** A byte leaves the ring. *)
Lemma console_take from c ready line cs :
  console_ok from (mkEd (c :: ready) line) cs ->
  (c_r cs =? c_w cs) = false /\ nthZ (c_buf cs) (c_r cs mod INPUT_BUF_SIZE) = c /\
  console_ok (from + 1) (mkEd ready line) (mkCons (c_buf cs) (u32 (c_r cs + 1)) (c_w cs) (c_e cs)).
Proof.
  intros [Hr E1 E2 E3 Hl]. cbn [ed_ready ed_line app] in *. pose proof (rg_fits _ _ _ _ Hr) as Hf. cbn [length] in Hf, E2, E3. rewrite length_app in Hf.
  apply ring_get in Hr as [Hc Hr]. split_and!.
  - rewrite E1, E2. apply Z.eqb_neq. intros E. replace (u32 from) with (u32 (from + 0)) in E by (f_equal; lia). apply u32_near in E; lia.
  - change INPUT_BUF_SIZE with 128. by rewrite E1, u32_mod128.
  - split; cbn [c_buf c_r c_w c_e ed_ready ed_line]; auto.
    + by rewrite E1, u32_shift.
    + rewrite E2. f_equal. lia.
    + rewrite E3. f_equal. lia.
Qed.

(** A reader with room for the bytes: [u] collects them. *)
Definition sink (u : list Z) (dst c : Z) : list Z * bool := (u ++ [c], true).

Lemma read_refines fuel target n dst u from e cs :
  console_ok from e cs -> 0 <= n <= target -> target < 2 ^ 31 -> (Z.to_nat n < fuel)%nat ->
  let '(got, fin, rest) := take_line (Z.to_nat n) (n =? target) (ed_ready e) in
  exists from' cs', consoleread_loop fuel sink false target n dst u cs =
    (if fin then RdRet (target - n + Z.of_nat (length got)) else RdSleep (n - Z.of_nat (length got)) (dst + Z.of_nat (length got)), u ++ got, cs') /\
    console_ok from' (mkEd rest (ed_line e)) cs'.
Proof.
  revert n dst u from e cs. induction fuel as [|fuel IH]; intros n dst u from e cs Hok Hn Ht Hfu; [lia|]. cbn [consoleread_loop].
  destruct e as [ready line]. cbn [ed_ready ed_line]. destruct (Z.ltb_spec 0 n) as [Hpos|Hz].
  2:{ replace (Z.to_nat n) with 0%nat by lia. cbn [take_line]. exists from, cs. rewrite app_nil_r. split; [|done]. rewrite s32_small by lia. do 3 f_equal. cbn. lia. }
  destruct (Z.to_nat n) as [|k] eqn:Ek; [lia|]. cbn [take_line]. destruct ready as [|c ready].
  { assert (Ew : (c_r cs =? c_w cs) = true).
    { rewrite (co_r _ _ _ Hok), (co_w _ _ _ Hok). cbn. by rewrite Z.add_0_r, Z.eqb_refl. }
    rewrite Ew. exists from, cs. cbn [length]. rewrite app_nil_r. split; [|done]. do 3 f_equal; lia. }
  destruct (console_take _ _ _ _ _ Hok) as (-> & Ec & Hok'). cbv zeta. rewrite Ec. destruct (Z.eqb_spec c EOF) as [->|Hne].
  { cbn [length]. rewrite app_nil_r, s32_small by lia. destruct (Z.eqb_spec n target) as [->|Hd].
    - rewrite Z.ltb_irrefl. exists (from + 1). eexists. split; [|exact Hok']. do 3 f_equal. lia.
    - destruct (Z.ltb_spec n target); [|lia]. exists from. eexists. split; [do 3 f_equal; lia|]. cbn [c_buf c_r c_w c_e].
      rewrite (co_r _ _ _ Hok), u32_shift, <- Z.add_opp_r, u32_shift.
      destruct Hok as [A B D F G]. split; cbn [c_buf c_r c_w c_e]; auto. f_equal. lia. }
  cbn [sink]. cbn [negb]. destruct (Z.eqb_spec c newline) as [->|Hnl].
  { exists (from + 1). eexists. split; [|exact Hok']. rewrite s32_small by lia. cbn [length]. do 3 f_equal. lia. }
  specialize (IH (n - 1) (dst + 1) (u ++ [c]) (from + 1) (mkEd ready line) _ Hok' ltac:(lia) Ht ltac:(lia)).
  replace (Z.to_nat (n - 1)) with k in IH by lia. destruct (Z.eqb_spec (n - 1) target); [lia|]. cbn [ed_ready ed_line] in IH.
  destruct (take_line k false ready) as [[got fin] rest]. destruct IH as (from' & cs' & E & Hok2). exists from', cs'. rewrite E. split; [|done].
  rewrite <- app_assoc. cbn [length app]. destruct fin; do 3 f_equal; lia.
Qed.

(** ** Histories of the console *)
Inductive con_op := Typed (c : Z) | Reads (target n dst : Z).
Inductive con_obs := Echo (out : list Z) (woken : bool) | Got (r : rrun) (bytes : list Z).

Fixpoint con_run (ops : list con_op) (cs : console) : list con_obs :=
  match ops with
  | [] => []
  | Typed c :: ops => let '(out, w, cs) := consoleintr c cs in Echo out w :: con_run ops cs
  | Reads target n dst :: ops => let '(r, got, cs) := consoleread sink false target n dst [] cs in Got r got :: con_run ops cs
  end.
Fixpoint ed_run (ops : list con_op) (e : editor) : list con_obs :=
  match ops with
  | [] => []
  | Typed c :: ops => let '(out, w, e) := key c e in Echo out w :: ed_run ops e
  | Reads target n dst :: ops =>
      let '(got, fin, rest) := take_line (Z.to_nat n) (n =? target) (ed_ready e) in
      let k := Z.of_nat (length got) in
      Got (if fin then RdRet (target - n + k) else RdSleep (n - k) (dst + k)) got :: ed_run ops (mkEd rest (ed_line e))
  end.
Definition con_op_ok (op : con_op) : Prop :=
  match op with Typed c => 0 <= c < 256 | Reads target n _ => 0 <= n <= target /\ target < 2 ^ 31 end.

(** C11: the console is a line editor.  Over any history of typed characters
    and runs of readers, and wherever the 32-bit indices of the ring are, its
    echo, its wake-ups and what every reader gets or waits for are those of
    the specification: ^H and DEL take back a character of the line and ^U
    all of it, never what has been completed; newline, ^D and a full buffer
    complete the line; a reader gets at most one line, and ^D ends its read. *)
Theorem console_refines_editor ops buf n :
  length buf = 128%nat -> 0 <= n < 2 ^ 32 -> Forall con_op_ok ops -> con_run ops (mkCons buf n n n) = ed_run ops (mkEd [] []).
Proof.
  intros Hl Hn Hops. assert (H0 : console_ok n (mkEd [] []) (mkCons buf n n n)).
  { split; cbn; [split; cbn; try lia; done| | | |apply not_elem_of_nil]; rewrite ?Z.add_0_r; symmetry; by apply u32_small. }
  revert H0. generalize n at 1. intros from. revert from. generalize (mkEd [] []), (mkCons buf n n n). clear Hl Hn. induction Hops as [|op ops Hop _ IH]; intros e cs from Hok; [done|].
  destruct op as [c|target k dst]; cbn [con_run ed_run con_op_ok] in *.
  - destruct (key_refines c from e cs Hok Hop) as (echo & w & cs' & e' & -> & -> & Hok'). f_equal. by eapply IH.
  - destruct Hop as [Hk Ht]. pose proof (read_refines (S (Z.to_nat k)) target k dst [] from e cs Hok Hk Ht ltac:(lia)) as H.
    destruct (take_line _ _ _) as [[got fin] rest]. destruct H as (from' & cs' & E & Hok'). unfold consoleread. rewrite E. cbn [app]. f_equal. by eapply IH.
Qed.

(** "ls", a backspace, "s" and newline; a read of two bytes, then the rest *)
Lemma console_refines_editor_witness :
  let ops := [Typed 108; Typed 120; Typed 127; Typed 115; Typed 13; Reads 2 2 0; Reads 9 9 0] in
  con_run ops (mkCons (replicate 128 0) (2 ^ 32 - 2) (2 ^ 32 - 2) (2 ^ 32 - 2)) = ed_run ops (mkEd [] []) /\
  List.last (ed_run ops (mkEd [] [])) (Echo [] false) = Got (RdRet 1) [10].
Proof.
  intros ops. split; [|reflexivity]. apply (console_refines_editor ops (replicate 128 0)); [reflexivity|lia|].
  unfold ops. repeat constructor; lia.
Defined.
