(* ===== verification/Virtio.v ===== *)
(** * The disk driver: kernel/virtio_disk.c

    The descriptor table and the two rings the driver shares with the device.
    disk.vdisk_lock is held from entry to sleep or return, so virtio_disk_rw
    is two runs, up to its wait for b->disk and from there on.  A pointer to a
    buffer is its index, and the address in a descriptor is the object it is
    the address of.  The device is outside; it does what section 2.6 of the
    virtio specification says: it takes chains from the available ring,
    carries them out in any order and puts them in the used ring.  Proved:
    every call transfers its block exactly once before it returns. *)

From S2P Require Import Prelude Riscv Mem Kalloc Block.

Definition NUM : nat := 8.
Definition VRING_DESC_F_NEXT : Z := 1.
Definition VRING_DESC_F_WRITE : Z := 2.
Definition VIRTIO_BLK_T_IN : Z := 0.
Definition VIRTIO_BLK_T_OUT : Z := 1.

(** &disk.ops[i], b->data, &disk.info[i].status, or 0 *)
Inductive dma := ANull | AOp (i : nat) | AData (b : nat) | AStatus (i : nat).
Record virtq_desc := mkDesc { d_addr : dma; d_len : Z; d_flags : Z; d_next : nat }.
Definition desc0 : virtq_desc := mkDesc ANull 0 0 0.
Record virtio_blk_req := mkReq { rq_type : Z; rq_reserved : Z; rq_sector : Z }.
Definition req0 : virtio_blk_req := mkReq 0 0 0.

(** struct disk with the rings; [v_busy] are the buffers with b->disk = 1 *)
Record vdisk := mkV {
  v_desc : list virtq_desc; v_avail_idx : Z; v_avail : list Z; v_used_seen : Z; v_used : list Z;
  v_free : list bool; v_used_idx : Z; v_info_b : list (option nat); v_status : list Z; v_ops : list virtio_blk_req; v_busy : gset nat;
}.
Definition put_desc (v : vdisk) (x : list virtq_desc) : vdisk :=
  mkV x (v_avail_idx v) (v_avail v) (v_used_seen v) (v_used v) (v_free v) (v_used_idx v) (v_info_b v) (v_status v) (v_ops v) (v_busy v).
Definition put_avail (v : vdisk) (i : Z) (x : list Z) : vdisk :=
  mkV (v_desc v) i x (v_used_seen v) (v_used v) (v_free v) (v_used_idx v) (v_info_b v) (v_status v) (v_ops v) (v_busy v).
Definition put_used (v : vdisk) (i : Z) (x : list Z) : vdisk :=
  mkV (v_desc v) (v_avail_idx v) (v_avail v) i x (v_free v) (v_used_idx v) (v_info_b v) (v_status v) (v_ops v) (v_busy v).
Definition put_free (v : vdisk) (x : list bool) : vdisk :=
  mkV (v_desc v) (v_avail_idx v) (v_avail v) (v_used_seen v) (v_used v) x (v_used_idx v) (v_info_b v) (v_status v) (v_ops v) (v_busy v).
Definition put_used_idx (v : vdisk) (x : Z) : vdisk :=
  mkV (v_desc v) (v_avail_idx v) (v_avail v) (v_used_seen v) (v_used v) (v_free v) x (v_info_b v) (v_status v) (v_ops v) (v_busy v).
Definition put_info (v : vdisk) (x : list (option nat)) : vdisk :=
  mkV (v_desc v) (v_avail_idx v) (v_avail v) (v_used_seen v) (v_used v) (v_free v) (v_used_idx v) x (v_status v) (v_ops v) (v_busy v).
Definition put_status (v : vdisk) (x : list Z) : vdisk :=
  mkV (v_desc v) (v_avail_idx v) (v_avail v) (v_used_seen v) (v_used v) (v_free v) (v_used_idx v) (v_info_b v) x (v_ops v) (v_busy v).
Definition put_ops (v : vdisk) (x : list virtio_blk_req) : vdisk :=
  mkV (v_desc v) (v_avail_idx v) (v_avail v) (v_used_seen v) (v_used v) (v_free v) (v_used_idx v) (v_info_b v) (v_status v) x (v_busy v).
Definition put_busy (v : vdisk) (x : gset nat) : vdisk :=
  mkV (v_desc v) (v_avail_idx v) (v_avail v) (v_used_seen v) (v_used v) (v_free v) (v_used_idx v) (v_info_b v) (v_status v) (v_ops v) x.

(** ** Descriptors *)
Definition alloc_desc (v : vdisk) : option (nat * vdisk) :=
  match find_index id (v_free v) with
  | Some i => Some (i, put_free v (<[i := false]> (v_free v)))
  | None => None
  end.

Definition free_desc (i : nat) (v : vdisk) : res vdisk :=
  if (NUM <=? i)%nat then Panic "free_desc 1"
  else if default false (v_free v !! i) then Panic "free_desc 2"
  else Ok (put_free (put_desc v (<[i := desc0]> (v_desc v))) (<[i := true]> (v_free v))).

Fixpoint free_chain (fuel : nat) (i : nat) (v : vdisk) : res vdisk :=
  match fuel with
  | O => Block
  | S fuel' =>
      let d := default desc0 (v_desc v !! i) in
      let* v := free_desc i v in
      if negb (Z.land (d_flags d) VRING_DESC_F_NEXT =? 0) then free_chain fuel' (d_next d) v else Ok v
  end.

Fixpoint free_descs (js : list nat) (v : vdisk) : res vdisk :=
  match js with [] => Ok v | i :: js => let* v := free_desc i v in free_descs js v end.

(** alloc3_desc with [idx] taken so far *)
Fixpoint alloc3_loop (k : nat) (idx : list nat) (v : vdisk) : res (option (list nat) * vdisk) :=
  match k with
  | O => Ok (Some idx, v)
  | S k' =>
      match alloc_desc v with
      | Some (i, v) => alloc3_loop k' (idx ++ [i]) v
      | None => let* v := free_descs idx v in Ok (None, v)
      end
  end.
Definition alloc3_desc (v : vdisk) : res (option (list nat) * vdisk) := alloc3_loop 3 [] v.

(** ** virtio_disk_rw *)
Definition format_chain (b : nat) (write : bool) (sector : Z) (i0 i1 i2 : nat) (v : vdisk) : vdisk :=
  let v := put_ops v (<[i0 := mkReq (if write then VIRTIO_BLK_T_OUT else VIRTIO_BLK_T_IN) 0 sector]> (v_ops v)) in
  let v := put_desc v (<[i0 := mkDesc (AOp i0) 16 VRING_DESC_F_NEXT i1]> (v_desc v)) in
  let v := put_desc v (<[i1 := mkDesc (AData b) BSIZE (Z.lor (if write then 0 else VRING_DESC_F_WRITE) VRING_DESC_F_NEXT) i2]> (v_desc v)) in
  let v := put_status v (<[i0 := 0xff]> (v_status v)) in
  put_desc v (<[i2 := mkDesc (AStatus i0) 1 VRING_DESC_F_WRITE 0]> (v_desc v)).

(** Up to the wait for b->disk: the head of the chain, or none when the call
    sleeps for descriptors and starts again. *)
Definition rw_start (b : nat) (blockno : Z) (write : bool) (v : vdisk) : res (option nat * vdisk) :=
  let sector := u32 (blockno * (BSIZE / 512)) in
  let* (r, v) := alloc3_desc v in
  match r with
  | Some [i0; i1; i2] =>
      let v := format_chain b write sector i0 i1 i2 v in
      let v := put_info (put_busy v ({[b]} ∪ v_busy v)) (<[i0 := Some b]> (v_info_b v)) in
      let v := put_avail v (v_avail_idx v) (setZ (v_avail v) (v_avail_idx v mod Z.of_nat NUM) (Z.of_nat i0)) in
      Ok (Some i0, put_avail v (u16 (v_avail_idx v + 1)) (v_avail v))
  | _ => Ok (None, v)
  end.

(** while(b->disk == 1) sleep; then the rest: none while it sleeps *)
Definition rw_finish (b i0 : nat) (v : vdisk) : res (option vdisk) :=
  if decide (b ∈ v_busy v) then Ok None
  else
    let v := put_info v (<[i0 := None]> (v_info_b v)) in
    let* v := free_chain (S NUM) i0 v in Ok (Some v).

(** ** virtio_disk_intr *)
Fixpoint intr_loop (fuel : nat) (v : vdisk) : res vdisk :=
  if v_used_idx v =? v_used_seen v then Ok v
  else match fuel with
       | O => Block
       | S fuel' =>
           let id := Z.to_nat (nthZ (v_used v) (v_used_idx v mod Z.of_nat NUM)) in
           if negb (default 0 (v_status v !! id) =? 0) then Panic "virtio_disk_intr status"
           else match default None (v_info_b v !! id) with
                | None => Panic "virtio_disk_intr: null buf"
                | Some b => intr_loop fuel' (put_used_idx (put_busy v (v_busy v ∖ {[b]})) (u16 (v_used_idx v + 1)))
                end
       end.
Definition virtio_disk_intr (v : vdisk) : res vdisk := intr_loop (S NUM) v.

(** ** virtio_disk_init

    [reg r] is what reading register r gives; the result lists the writes in
    order.  The pages of the rings are zeroed. *)
Definition VIRTIO_MMIO_MAGIC_VALUE : Z := 0x000.
Definition VIRTIO_MMIO_VERSION : Z := 0x004.
Definition VIRTIO_MMIO_DEVICE_ID : Z := 0x008.
Definition VIRTIO_MMIO_VENDOR_ID : Z := 0x00c.
Definition VIRTIO_MMIO_DEVICE_FEATURES : Z := 0x010.
Definition VIRTIO_MMIO_DRIVER_FEATURES : Z := 0x020.
Definition VIRTIO_MMIO_QUEUE_SEL : Z := 0x030.
Definition VIRTIO_MMIO_QUEUE_NUM_MAX : Z := 0x034.
Definition VIRTIO_MMIO_QUEUE_NUM : Z := 0x038.
Definition VIRTIO_MMIO_QUEUE_READY : Z := 0x044.
Definition VIRTIO_MMIO_STATUS : Z := 0x070.
Definition VIRTIO_MMIO_QUEUE_DESC_LOW : Z := 0x080.
Definition VIRTIO_MMIO_DRIVER_DESC_LOW : Z := 0x090.
Definition VIRTIO_MMIO_DEVICE_DESC_LOW : Z := 0x0a0.
Definition VIRTIO_CONFIG_S_ACKNOWLEDGE : Z := 1.
Definition VIRTIO_CONFIG_S_DRIVER : Z := 2.
Definition VIRTIO_CONFIG_S_DRIVER_OK : Z := 4.
Definition VIRTIO_CONFIG_S_FEATURES_OK : Z := 8.
(** VIRTIO_BLK_F_RO, _SCSI, _CONFIG_WCE, _MQ, ANY_LAYOUT, EVENT_IDX, INDIRECT_DESC *)
Definition features_off : list Z := [5; 7; 11; 12; 27; 29; 28].
Definition negotiate (features : Z) : Z := foldl (fun f b => Z.land f (Z.lnot (2 ^ b))) features features_off.

(** A 64-bit address goes to two 32-bit registers. *)
Definition write_addr (r a : Z) : list (Z * Z) := [(r, u32 a); (r + 4, u32 (Z.shiftr a 32))].

Definition vdisk0 : vdisk :=
  mkV (replicate NUM desc0) 0 (replicate NUM 0) 0 (replicate NUM 0) (replicate NUM true) 0 (replicate NUM None) (replicate NUM 0) (replicate NUM req0) ∅.

Definition virtio_disk_init (reg : Z -> Z) (km : kmem) : res (list (Z * Z) * vdisk * kmem) :=
  if negb ((reg VIRTIO_MMIO_MAGIC_VALUE =? 0x74726976) && (reg VIRTIO_MMIO_VERSION =? 2) && (reg VIRTIO_MMIO_DEVICE_ID =? 2) &&
           (reg VIRTIO_MMIO_VENDOR_ID =? 0x554d4551)) then Panic "could not find virtio disk"
  else
    let status := VIRTIO_CONFIG_S_ACKNOWLEDGE in
    let status1 := Z.lor status VIRTIO_CONFIG_S_DRIVER in
    let features := u32 (negotiate (reg VIRTIO_MMIO_DEVICE_FEATURES)) in
    let status2 := Z.lor status1 VIRTIO_CONFIG_S_FEATURES_OK in
    let w := [(VIRTIO_MMIO_STATUS, 0); (VIRTIO_MMIO_STATUS, status); (VIRTIO_MMIO_STATUS, status1);
              (VIRTIO_MMIO_DRIVER_FEATURES, features); (VIRTIO_MMIO_STATUS, status2)] in
    let status := reg VIRTIO_MMIO_STATUS in
    if Z.land status VIRTIO_CONFIG_S_FEATURES_OK =? 0 then Panic "virtio disk FEATURES_OK unset"
    else
      let w := w ++ [(VIRTIO_MMIO_QUEUE_SEL, 0)] in
      if negb (reg VIRTIO_MMIO_QUEUE_READY =? 0) then Panic "virtio disk should not be ready"
      else if reg VIRTIO_MMIO_QUEUE_NUM_MAX =? 0 then Panic "virtio disk has no queue 0"
      else if reg VIRTIO_MMIO_QUEUE_NUM_MAX <? Z.of_nat NUM then Panic "virtio disk max queue too short"
      else
        let '(desc, km) := kalloc km in
        let '(avail, km) := kalloc km in
        let '(used, km) := kalloc km in
        if (desc =? 0) || (avail =? 0) || (used =? 0) then Panic "virtio disk kalloc"
        else
          let m := memset (memset (memset (kmem_mem km) desc 0 PGSIZE) avail 0 PGSIZE) used 0 PGSIZE in
          let w := w ++ [(VIRTIO_MMIO_QUEUE_NUM, Z.of_nat NUM)] ++ write_addr VIRTIO_MMIO_QUEUE_DESC_LOW desc ++
                   write_addr VIRTIO_MMIO_DRIVER_DESC_LOW avail ++ write_addr VIRTIO_MMIO_DEVICE_DESC_LOW used ++
                   [(VIRTIO_MMIO_QUEUE_READY, 1); (VIRTIO_MMIO_STATUS, Z.lor status VIRTIO_CONFIG_S_DRIVER_OK)] in
          Ok (w, vdisk0, mkKmem m (kmem_freelist km)).

(** ** The driver and the device together *)

(** The request the device finds in a chain: buffer, direction, sector, and
    where the status goes *)
Definition has (d : virtq_desc) (f : Z) : bool := negb (Z.land (d_flags d) f =? 0).
Definition device_request (v : vdisk) (h : nat) : option (nat * bool * Z * nat) :=
  let d0 := default desc0 (v_desc v !! h) in
  let d1 := default desc0 (v_desc v !! d_next d0) in
  let d2 := default desc0 (v_desc v !! d_next d1) in
  match d_addr d0, d_addr d1, d_addr d2 with
  | AOp i, AData b, AStatus st =>
      let r := default req0 (v_ops v !! i) in
      let write := rq_type r =? VIRTIO_BLK_T_OUT in
      if has d0 VRING_DESC_F_NEXT && has d1 VRING_DESC_F_NEXT && negb (has d2 VRING_DESC_F_NEXT) && has d2 VRING_DESC_F_WRITE &&
         (d_len d1 =? BSIZE) && Bool.eqb (has d1 VRING_DESC_F_WRITE) (negb write)
      then Some (b, write, rq_sector r, st) else None
  | _, _, _ => None
  end.

(** What happened: a call of virtio_disk_rw, a transfer, a return *)
Inductive vev := VStart (b : nat) (write : bool) (sector : Z) | VXfer (b : nat) (write : bool) (sector : Z) | VReturn (b : nat).

(** The driver's memory, the device's place in the available ring and the
    chains it works on, the calls that wait, and the history *)
Record vsys := mkVs { s_v : vdisk; s_last : Z; s_flight : list nat; s_calls : list (nat * nat); s_hist : list vev }.

Inductive vstep : vsys -> vsys -> Prop :=
| vs_start s b blockno write i0 v' :
    b ∉ (s_calls s).*1 -> rw_start b blockno write (s_v s) = Ok (Some i0, v') ->
    vstep s (mkVs v' (s_last s) (s_flight s) (s_calls s ++ [(b, i0)]) (s_hist s ++ [VStart b write (u32 (blockno * (BSIZE / 512)))]))
| vs_start_sleeps s b blockno write v' :
    rw_start b blockno write (s_v s) = Ok (None, v') -> vstep s (mkVs v' (s_last s) (s_flight s) (s_calls s) (s_hist s))
| vs_fetch s :
    s_last s <> v_avail_idx (s_v s) ->
    vstep s (mkVs (s_v s) (u16 (s_last s + 1)) (s_flight s ++ [Z.to_nat (nthZ (v_avail (s_v s)) (s_last s mod Z.of_nat NUM))]) (s_calls s) (s_hist s))
| vs_complete s l1 h l2 b write sector st :
    s_flight s = l1 ++ h :: l2 -> device_request (s_v s) h = Some (b, write, sector, st) ->
    let v := put_status (s_v s) (<[st := 0]> (v_status (s_v s))) in
    let v := put_used v (u16 (v_used_seen v + 1)) (setZ (v_used v) (v_used_seen v mod Z.of_nat NUM) (Z.of_nat h)) in
    vstep s (mkVs v (s_last s) (l1 ++ l2) (s_calls s) (s_hist s ++ [VXfer b write sector]))
| vs_intr s v' :
    virtio_disk_intr (s_v s) = Ok v' -> vstep s (mkVs v' (s_last s) (s_flight s) (s_calls s) (s_hist s))
| vs_return s l1 b i0 l2 v' :
    s_calls s = l1 ++ (b, i0) :: l2 -> rw_finish b i0 (s_v s) = Ok (Some v') ->
    vstep s (mkVs v' (s_last s) (s_flight s) (l1 ++ l2) (s_hist s ++ [VReturn b])).

(** After virtio_disk_init *)
Definition vsys0 : vsys := mkVs vdisk0 0 [] [] [].

(** What a caller relies on: a buffer is idle, or has called and waits for its
    transfer, or its transfer is done and it has not returned. *)
Inductive vphase := VIdle | VWait (write : bool) (sector : Z) | VDone.
Definition proto_step (b : nat) (o : option vphase) (ev : vev) : option vphase :=
  match ev, o with
  | VStart b' w sec, Some ph => if decide (b' = b) then match ph with VIdle => Some (VWait w sec) | _ => None end else o
  | VXfer b' w sec, Some ph =>
      if decide (b' = b) then match ph with VWait w' sec' => if Bool.eqb w w' && (sec =? sec') then Some VDone else None | _ => None end else o
  | VReturn b', Some ph => if decide (b' = b) then match ph with VDone => Some VIdle | _ => None end else o
  | _, None => None
  end.
Definition proto (b : nat) (h : list vev) : option vphase := foldl (proto_step b) (Some VIdle) h.

(** ** The invariant *)
Inductive qphase := Queued | Flying | Done | Seen.
#[global] Instance qphase_eq_dec : EqDecision qphase.
Proof. solve_decision. Defined.
Record call := mkCall { q_b : nat; q_w : bool; q_sec : Z; q_i0 : nat; q_i1 : nat; q_i2 : nat; q_ph : qphase }.
Definition idxs (q : call) : list nat := [q_i0 q; q_i1 q; q_i2 q].
Definition all_idxs (rs : list call) : list nat := concat (idxs <$> rs).
Definition set_ph (h : nat) (ph : qphase) (q : call) : call :=
  if decide (q_i0 q = h) then mkCall (q_b q) (q_w q) (q_sec q) (q_i0 q) (q_i1 q) (q_i2 q) ph else q.

(** The calls in phase [ph], by the heads of their chains *)
Record queue_of (ph : qphase) (hs : list nat) (rs : list call) : Prop := {
  qo_nodup : NoDup hs;
  qo_iff : forall h, h ∈ hs <-> exists q, q ∈ rs /\ q_i0 q = h /\ q_ph q = ph;
}.

Lemma all_idxs_elem rs i : i ∈ all_idxs rs <-> exists q, q ∈ rs /\ i ∈ idxs q.
Proof.
  unfold all_idxs. induction rs as [|q rs IH]; cbn [fmap list_fmap concat].
  - split; [intros H; by apply not_elem_of_nil in H|]. intros (q & H & _). by apply not_elem_of_nil in H.
  - rewrite elem_of_app, IH. split.
    + intros [H|(q' & H & H')]; [exists q|exists q']; split; auto; [left|by right].
    + intros (q' & H & H'). apply elem_of_cons in H as [->|H]; [by left|right; eauto].
Qed.

Lemma head_in q : q_i0 q ∈ idxs q.
Proof. left. Qed.

Lemma idx_owner rs i q q' : NoDup (all_idxs rs) -> q ∈ rs -> q' ∈ rs -> i ∈ idxs q -> i ∈ idxs q' -> q = q'.
Proof.
  unfold all_idxs. induction rs as [|r rs IH]; intros Hn Hq Hq' Hi Hi'; [by apply not_elem_of_nil in Hq|]. cbn [fmap list_fmap concat] in Hn.
  apply NoDup_app in Hn as (_ & Hd & Hn). apply elem_of_cons in Hq as [->|Hq], Hq' as [->|Hq']; auto; exfalso; eapply Hd; eauto; apply all_idxs_elem; eauto.
Qed.

Lemma set_ph_head h ph q : q_i0 (set_ph h ph q) = q_i0 q.
Proof. unfold set_ph. by destruct (decide _). Qed.
Lemma set_ph_b h ph q : q_b (set_ph h ph q) = q_b q.
Proof. unfold set_ph. by destruct (decide _). Qed.
Lemma set_ph_idxs h ph q : idxs (set_ph h ph q) = idxs q.
Proof. unfold set_ph, idxs. by destruct (decide _). Qed.
Lemma fmap_set_ph {A} (f : call -> A) h ph (rs : list call) : (forall q, f (set_ph h ph q) = f q) -> f <$> (set_ph h ph <$> rs) = f <$> rs.
Proof. intros H. rewrite <- list_fmap_compose. apply list_fmap_ext. intros i q _. apply H. Qed.

(** A call moves from one phase to another. *)
Lemma queue_stay h ph1 ph2 rs q0 ph hs :
  NoDup (all_idxs rs) -> q0 ∈ rs -> q_i0 q0 = h -> q_ph q0 = ph1 -> ph <> ph1 -> ph <> ph2 ->
  queue_of ph hs rs -> queue_of ph hs (set_ph h ph2 <$> rs).
Proof.
  intros Hn H0 Hh Hp N1 N2 [A B]. split; [done|]. intros x. rewrite B. split.
  - intros (q & Hq & Hx & Hph). exists (set_ph h ph2 q). split; [by apply list_elem_of_fmap_2|]. rewrite set_ph_head. split; [done|].
    unfold set_ph. destruct (decide (q_i0 q = h)) as [E|]; [|done]. exfalso. assert (q = q0) as -> by (apply (idx_owner rs h); auto; [rewrite <- E|rewrite <- Hh]; apply head_in). congruence.
  - intros (q' & Hq' & Hx & Hph). apply list_elem_of_fmap in Hq' as (q & -> & Hq). rewrite set_ph_head in Hx. exists q. split_and!; auto.
    unfold set_ph in Hph. destruct (decide (q_i0 q = h)); [cbn in Hph; congruence|done].
Qed.

Lemma queue_leave h ph1 ph2 rs q0 l1 l2 :
  NoDup (all_idxs rs) -> q0 ∈ rs -> q_i0 q0 = h -> q_ph q0 = ph1 -> ph1 <> ph2 ->
  queue_of ph1 (l1 ++ h :: l2) rs -> queue_of ph1 (l1 ++ l2) (set_ph h ph2 <$> rs).
Proof.
  intros Hn H0 Hh Hp N1 [A B]. assert (Hd : NoDup (l1 ++ l2) /\ h ∉ l1 ++ l2).
  { rewrite <- Permutation_middle in A. by apply NoDup_cons in A as [? ?]. } destruct Hd as [Hd1 Hd2].
  split; [done|]. intros x. split.
  - intros Hx. assert (Hx' : x ∈ l1 ++ h :: l2) by (rewrite <- Permutation_middle; by right). apply B in Hx' as (q & Hq & E & Hph).
    exists q. split; [|done]. apply list_elem_of_fmap. exists q. split; [|done]. unfold set_ph. destruct (decide (q_i0 q = h)); [congruence|done].
  - intros (q' & Hq' & Hx & Hph). apply list_elem_of_fmap in Hq' as (q & -> & Hq). rewrite set_ph_head in Hx. unfold set_ph in Hph.
    destruct (decide (q_i0 q = h)) as [|Hne]; [cbn in Hph; congruence|]. assert (Hx' : x ∈ l1 ++ h :: l2) by (apply B; eauto).
    rewrite <- Permutation_middle in Hx'. apply elem_of_cons in Hx' as [->|]; congruence.
Qed.

Lemma queue_join h ph1 ph2 rs q0 hs :
  NoDup (all_idxs rs) -> q0 ∈ rs -> q_i0 q0 = h -> q_ph q0 = ph1 -> ph1 <> ph2 ->
  queue_of ph2 hs rs -> queue_of ph2 (hs ++ [h]) (set_ph h ph2 <$> rs).
Proof.
  intros Hn H0 Hh Hp N1 [A B]. split.
  - apply NoDup_app. split_and!; auto; [|apply NoDup_singleton]. intros x Hx Hx'. apply list_elem_of_singleton in Hx' as ->.
    apply B in Hx as (q & Hq & E & Hph). assert (q = q0) as -> by (apply (idx_owner rs h); auto; [rewrite <- E|rewrite <- Hh]; apply head_in). congruence.
  - intros x. rewrite elem_of_app, list_elem_of_singleton. split.
    + intros [Hx| ->].
      * apply B in Hx as (q & Hq & E & Hph). exists (set_ph h ph2 q). split; [by apply list_elem_of_fmap_2|]. rewrite set_ph_head. split; [done|].
        unfold set_ph. by destruct (decide _).
      * exists (set_ph h ph2 q0). split; [by apply list_elem_of_fmap_2|]. rewrite set_ph_head. split; [done|]. unfold set_ph. by rewrite decide_True.
    + intros (q' & Hq' & Hx & Hph). apply list_elem_of_fmap in Hq' as (q & -> & Hq). rewrite set_ph_head in Hx. unfold set_ph in Hph.
      destruct (decide (q_i0 q = h)) as [E|]; [right; congruence|]. left. apply B. eauto.
Qed.

Record chain_ok (v : vdisk) (q : call) : Prop := {
  ch_0 : v_desc v !! q_i0 q = Some (mkDesc (AOp (q_i0 q)) 16 VRING_DESC_F_NEXT (q_i1 q));
  ch_1 : v_desc v !! q_i1 q = Some (mkDesc (AData (q_b q)) BSIZE (Z.lor (if q_w q then 0 else VRING_DESC_F_WRITE) VRING_DESC_F_NEXT) (q_i2 q));
  ch_2 : v_desc v !! q_i2 q = Some (mkDesc (AStatus (q_i0 q)) 1 VRING_DESC_F_WRITE 0);
  ch_op : v_ops v !! q_i0 q = Some (mkReq (if q_w q then VIRTIO_BLK_T_OUT else VIRTIO_BLK_T_IN) 0 (q_sec q));
  ch_info : v_info_b v !! q_i0 q = Some (Some (q_b q));
}.

Definition stage (q : call) : vphase :=
  match q_ph q with Queued | Flying => VWait (q_w q) (q_sec q) | Done | Seen => VDone end.
Definition stage_of (rs : list call) (b : nat) (ph : vphase) : Prop :=
  (ph = VIdle /\ b ∉ q_b <$> rs) \/ exists q, q ∈ rs /\ q_b q = b /\ ph = stage q.

(** The driver's tables, for the calls [rs] *)
Record tables_ok (rs : list call) (v : vdisk) : Prop := {
  tb_len : length (v_desc v) = 8%nat /\ length (v_free v) = 8%nat /\ length (v_info_b v) = 8%nat /\ length (v_status v) = 8%nat /\ length (v_ops v) = 8%nat;
  tb_nodup : NoDup (all_idxs rs);
  tb_bound : forall i, i ∈ all_idxs rs -> (i < 8)%nat;
  tb_free : forall i, (i < 8)%nat -> v_free v !! i = Some (bool_decide (i ∉ all_idxs rs));
  tb_chain : forall q, q ∈ rs -> chain_ok v q;
  tb_bufs : NoDup (q_b <$> rs);
  tb_busy : forall b, b ∈ v_busy v <-> exists q, q ∈ rs /\ q_b q = b /\ q_ph q <> Seen;
}.
(** ... and the rings: [aq] not yet fetched from index [last], [uq] not yet
    seen from index [ul] *)
Record rings_ok (rs : list call) (aq uq : list nat) (last ul : Z) (s : vsys) : Prop := {
  ri_aq : queue_of Queued aq rs;
  ri_fl : queue_of Flying (s_flight s) rs;
  ri_uq : queue_of Done uq rs;
  ri_avail : in_ring 8 (v_avail (s_v s)) last (Z.of_nat <$> aq);
  ri_last : s_last s = u16 last;
  ri_aidx : v_avail_idx (s_v s) = u16 (last + Z.of_nat (length aq));
  ri_used : in_ring 8 (v_used (s_v s)) ul (Z.of_nat <$> uq);
  ri_uidx : v_used_idx (s_v s) = u16 ul;
  ri_seen : v_used_seen (s_v s) = u16 (ul + Z.of_nat (length uq));
  ri_status : forall h, h ∈ uq -> v_status (s_v s) !! h = Some 0;
}.
Record vinv (rs : list call) (aq uq : list nat) (last ul : Z) (s : vsys) : Prop := {
  vi_tables : tables_ok rs (s_v s);
  vi_rings : rings_ok rs aq uq last ul s;
  vi_calls : s_calls s = (fun q => (q_b q, q_i0 q)) <$> rs;
  vi_proto : forall b, exists ph, proto b (s_hist s) = Some ph /\ stage_of rs b ph;
}.

Lemma u16_mod8 x : u16 x mod 8 = x mod 8.
Proof. unfold u16. zsolve. Qed.
Lemma u16_shift x k : u16 (u16 x + k) = u16 (x + k).
Proof. unfold u16. zsolve. Qed.
Lemma u16_near x k k' : 0 <= k <= 8 -> 0 <= k' <= 8 -> u16 (x + k) = u16 (x + k') -> k = k'.
Proof. unfold u16. intros. zsolve. Qed.

Lemma length_all_idxs rs : length (all_idxs rs) = (3 * length rs)%nat.
Proof.
  induction rs as [|q rs IH]; [done|]. change (all_idxs (q :: rs)) with (idxs q ++ all_idxs rs). rewrite length_app, IH. cbn [idxs length]. lia.
Qed.

Lemma subset_length (l k : list nat) : NoDup l -> (forall x, x ∈ l -> x ∈ k) -> (length l <= length k)%nat.
Proof. intros Hn Hs. by apply submseteq_length, NoDup_submseteq. Qed.

Lemma calls_bound rs : NoDup (all_idxs rs) -> (forall i, i ∈ all_idxs rs -> (i < 8)%nat) -> (length rs <= 2)%nat.
Proof.
  intros Hn Hb. assert (H : (length (all_idxs rs) <= length (seq 0 8))%nat).
  { apply subset_length; [done|]. intros x Hx. apply elem_of_seq. specialize (Hb x Hx). lia. }
  rewrite length_all_idxs, length_seq in H. lia.
Qed.

Lemma queue_length ph hs rs : queue_of ph hs rs -> (length hs <= length rs)%nat.
Proof.
  intros [Hn Hi]. rewrite <- (length_fmap q_i0 rs). apply subset_length; [done|]. intros x Hx. apply Hi in Hx as (q & Hq & <- & _). by apply list_elem_of_fmap_2.
Qed.

Lemma owner_b rs q q' : NoDup (q_b <$> rs) -> q ∈ rs -> q' ∈ rs -> q_b q = q_b q' -> q = q'.
Proof.
  intros Hn Hq Hq' E. apply list_elem_of_lookup in Hq as [i Hi], Hq' as [j Hj].
  assert (i = j) as ->; [|congruence]. eapply (NoDup_lookup _ i j (q_b q) Hn); rewrite list_lookup_fmap; [by rewrite Hi|by rewrite Hj, E].
Qed.

(** A change of phase leaves the tables as they are. *)
Lemma all_idxs_set_ph h ph rs : all_idxs (set_ph h ph <$> rs) = all_idxs rs.
Proof. unfold all_idxs. by rewrite fmap_set_ph by apply set_ph_idxs. Qed.

Lemma chain_set_ph v h ph q : chain_ok v q -> chain_ok v (set_ph h ph q).
Proof. intros [A B C D F]. unfold set_ph. destruct (decide _); by split. Qed.

Lemma tables_set_ph rs v q0 ph busy :
  tables_ok rs v -> q0 ∈ rs ->
  (forall b, b ∈ busy <-> (b ∈ v_busy v /\ b <> q_b q0) \/ (b = q_b q0 /\ ph <> Seen)) ->
  tables_ok (set_ph (q_i0 q0) ph <$> rs) (put_busy v busy).
Proof.
  intros [H1 H2 H3 H4 H5 H6 H7] H0 Hb. split; rewrite ?all_idxs_set_ph; auto.
  - intros q Hq. apply list_elem_of_fmap in Hq as (q' & -> & Hq). destruct (H5 q' Hq) as [A B C D F].
    pose proof (chain_set_ph v (q_i0 q0) ph q' (H5 q' Hq)) as [A' B' C' D' F']. by split.
  - by rewrite fmap_set_ph by apply set_ph_b.
  - intros b. cbn [put_busy v_busy]. rewrite Hb, H7. split.
    + intros [[(q & Hq & E & Hp) Hne]|[-> Hp]].
      * exists (set_ph (q_i0 q0) ph q). split; [by apply list_elem_of_fmap_2|]. rewrite set_ph_b. split; [done|].
        unfold set_ph. destruct (decide (q_i0 q = q_i0 q0)) as [Ei|]; [|done]. assert (q = q0) as -> by (apply (idx_owner rs (q_i0 q0)); auto; [rewrite <- Ei|]; apply head_in). congruence.
      * exists (set_ph (q_i0 q0) ph q0). split; [by apply list_elem_of_fmap_2|]. rewrite set_ph_b. split; [done|]. unfold set_ph. by rewrite decide_True.
    + intros (q' & Hq' & E & Hp). apply list_elem_of_fmap in Hq' as (q & -> & Hq). rewrite set_ph_b in E. unfold set_ph in Hp.
      destruct (decide (q_i0 q = q_i0 q0)) as [Ei|Hne].
      * assert (q = q0) as -> by (apply (idx_owner rs (q_i0 q0)); auto; [rewrite <- Ei|]; apply head_in). by right.
      * left. split; [eauto|]. intros ->. apply Hne. by rewrite (owner_b rs q q0 H6 Hq H0 E).
Qed.

Lemma put_busy_same v : put_busy v (v_busy v) = v.
Proof. by destruct v. Qed.

(** The stages of all buffers but one are as before. *)
Lemma stage_set_ph rs q0 ph b st :
  NoDup (all_idxs rs) -> NoDup (q_b <$> rs) -> q0 ∈ rs -> stage_of rs b st ->
  stage_of (set_ph (q_i0 q0) ph <$> rs) b (if decide (b = q_b q0) then stage (set_ph (q_i0 q0) ph q0) else st).
Proof.
  intros Hn Hb H0 Hs. destruct (decide (b = q_b q0)) as [->|Hne].
  - right. exists (set_ph (q_i0 q0) ph q0). split; [by apply list_elem_of_fmap_2|]. by rewrite set_ph_b.
  - destruct Hs as [[-> Hi]|(q & Hq & E & ->)]; [left; split; [done|by rewrite fmap_set_ph by apply set_ph_b]|].
    right. exists (set_ph (q_i0 q0) ph q). split; [by apply list_elem_of_fmap_2|]. rewrite set_ph_b. split; [done|].
    unfold set_ph. destruct (decide (q_i0 q = q_i0 q0)) as [Ei|]; [|done]. exfalso. apply Hne. rewrite <- E. f_equal. apply (idx_owner rs (q_i0 q0)); auto; [rewrite <- Ei|]; apply head_in.
Qed.

(** ** The device's steps *)
Lemma fetch_inv rs aq uq last ul s :
  vinv rs aq uq last ul s -> s_last s <> v_avail_idx (s_v s) ->
  exists rs' aq' last', vinv rs' aq' uq last' ul
    (mkVs (s_v s) (u16 (s_last s + 1)) (s_flight s ++ [Z.to_nat (nthZ (v_avail (s_v s)) (s_last s mod Z.of_nat NUM))]) (s_calls s) (s_hist s)).
Proof.
  intros [Ht Hr Hc Hp] Hne. destruct Hr as [R1 R2 R3 R4 R5 R6 R7 R8 R9 R10]. destruct aq as [|h aq].
  { exfalso. apply Hne. rewrite R5, R6. cbn. by rewrite Z.add_0_r. }
  apply ring_get in R4 as [Eh R4]. change (Z.of_nat NUM) with 8. rewrite R5, u16_mod8, Eh, Nat2Z.id, u16_shift.
  destruct (proj1 (qo_iff _ _ _ R1 h) ltac:(left)) as (q0 & H0 & Hh & Hph). pose proof (tb_nodup _ _ Ht) as Hn.
  exists (set_ph h Flying <$> rs), aq, (last + 1). split; cbn [s_v s_last s_flight s_calls s_hist].
  - rewrite <- (put_busy_same (s_v s)). subst h. apply tables_set_ph; auto. intros b. destruct (decide (b = q_b q0)) as [->|]; [|naive_solver].
    split; [auto|]. intros _. apply (tb_busy _ _ Ht). exists q0. split_and!; auto. congruence.
  - split; cbn [s_v s_last s_flight]; auto.
    + apply (queue_leave h Queued Flying rs q0 [] aq); auto.
    + eapply (queue_join h Queued Flying rs q0); eauto.
    + eapply (queue_stay h Queued Flying rs q0); eauto.
    + rewrite R6. f_equal. cbn [length]. lia.
  - rewrite Hc. symmetry. apply fmap_set_ph. intros q. by rewrite set_ph_b, set_ph_head.
  - intros b. destruct (Hp b) as (ph & Ep & Hs). exists ph. split; [done|]. subst h.
    pose proof (stage_set_ph rs q0 Flying b ph Hn (tb_bufs _ _ Ht) H0 Hs) as G. destruct (decide (b = q_b q0)) as [->|]; [|done].
    destruct Hs as [[_ Hi]|(q & Hq & E & ->)]; [destruct Hi; by apply list_elem_of_fmap_2|]. assert (q = q0) as -> by (eapply owner_b; eauto; apply Ht).
    unfold stage, set_ph in *. rewrite decide_True in G by done. by rewrite Hph.
Qed.

Lemma device_request_spec v q : chain_ok v q -> device_request v (q_i0 q) = Some (q_b q, q_w q, q_sec q, q_i0 q).
Proof. intros [A B C D F]. unfold device_request. rewrite A. cbn [default d_next from_option id]. rewrite B. cbn [default d_next from_option id]. rewrite C. cbn. rewrite D. by destruct (q_w q). Qed.

(** A step of the protocol of buffer [b'] *)
Lemma proto_snoc b h ev : proto b (h ++ [ev]) = proto_step b (proto b h) ev.
Proof. unfold proto. by rewrite foldl_app. Qed.

Lemma complete_inv rs aq uq last ul s l1 h l2 b write sector st :
  vinv rs aq uq last ul s -> s_flight s = l1 ++ h :: l2 -> device_request (s_v s) h = Some (b, write, sector, st) ->
  let v := put_status (s_v s) (<[st := 0]> (v_status (s_v s))) in
  let v := put_used v (u16 (v_used_seen v + 1)) (setZ (v_used v) (v_used_seen v mod Z.of_nat NUM) (Z.of_nat h)) in
  exists rs' uq', vinv rs' aq uq' last ul (mkVs v (s_last s) (l1 ++ l2) (s_calls s) (s_hist s ++ [VXfer b write sector])).
Proof.
  intros [Ht Hr Hc Hp] Hf Hd v1 v. destruct Hr as [R1 R2 R3 R4 R5 R6 R7 R8 R9 R10]. rewrite Hf in R2.
  assert (Hin : h ∈ l1 ++ h :: l2) by (apply elem_of_app; right; left).
  destruct (proj1 (qo_iff _ _ _ R2 h) Hin) as (q0 & H0 & Hh & Hph). pose proof (tb_nodup _ _ Ht) as Hn.
  pose proof (device_request_spec _ _ (tb_chain _ _ Ht q0 H0)) as Ed. rewrite Hh, Hd in Ed. injection Ed as -> -> -> ->.
  pose proof (calls_bound rs Hn (tb_bound _ _ Ht)) as Hl. pose proof (queue_length _ _ _ R3) as Hu.
  assert (Hh8 : (h < 8)%nat) by (apply (tb_bound _ _ Ht), all_idxs_elem; exists q0; split; [done|rewrite <- Hh; apply head_in]).
  assert (Ht' : tables_ok (set_ph h Done <$> rs) v).
  { assert (G : tables_ok (set_ph h Done <$> rs) (put_busy (s_v s) (v_busy (s_v s)))).
    { subst h. apply tables_set_ph; auto. intros b'. destruct (decide (b' = q_b q0)) as [->|]; [|naive_solver].
      split; [auto|]. intros _. apply (tb_busy _ _ Ht). exists q0. split_and!; auto. congruence. }
    destruct G as [G1 G2 G3 G4 G5 G6 G7]. split; auto; [|intros q Hq; destruct (G5 q Hq) as [A B C D F]; by split].
    subst v v1. cbn. rewrite length_insert. exact G1. }
  exists (set_ph h Done <$> rs), (uq ++ [h]). split; cbn [s_v s_last s_flight s_calls s_hist]; auto.
  - split; cbn [s_v s_last s_flight]; auto.
    + eapply (queue_stay h Flying Done rs q0); eauto.
    + eapply (queue_leave h Flying Done rs q0); eauto.
    + eapply (queue_join h Flying Done rs q0); eauto.
    + subst v v1. cbn [put_used put_status v_used v_used_seen]. change (Z.of_nat NUM) with 8. rewrite fmap_app, R9, u16_mod8. cbn [fmap list_fmap].
      rewrite <- (length_fmap Z.of_nat uq). apply ring_put; [lia|done|]. rewrite length_fmap. lia.
    + subst v v1. cbn [put_used put_status v_used_seen]. rewrite R9, u16_shift, length_app. cbn. f_equal. lia.
    + intros x Hx. subst v v1. cbn [put_used put_status v_status]. destruct (decide (x = h)) as [->|Hxh].
      * apply list_lookup_insert_eq. destruct (tb_len _ _ Ht) as (_ & _ & _ & -> & _). lia.
      * rewrite list_lookup_insert_ne by done. apply R10. apply elem_of_app in Hx as [|Hx]; [done|]. by apply list_elem_of_singleton in Hx.
  - rewrite Hc. symmetry. apply fmap_set_ph. intros q. by rewrite set_ph_b, set_ph_head.
  - intros b'. destruct (Hp b') as (ph & Ep & Hs). rewrite proto_snoc, Ep. subst h.
    pose proof (stage_set_ph rs q0 Done b' ph Hn (tb_bufs _ _ Ht) H0 Hs) as G. cbn [proto_step]. destruct (decide (b' = q_b q0)) as [->|Hne].
    + rewrite decide_True by done. destruct Hs as [[_ Hi]|(q & Hq & E & ->)]; [destruct Hi; by apply list_elem_of_fmap_2|]. assert (q = q0) as -> by (eapply owner_b; eauto; apply Ht).
      unfold stage in *. rewrite Hph. rewrite eqb_reflx, Z.eqb_refl. cbn [andb]. exists VDone. split; [done|]. unfold set_ph in G. rewrite decide_True in G by done. exact G.
    + rewrite decide_False by congruence. eauto.
Qed.

(** ** The interrupt handler sees every completed call. *)
Lemma intr_loop_inv fuel rs aq uq last ul s :
  vinv rs aq uq last ul s -> (length uq < fuel)%nat ->
  exists v' rs' ul', intr_loop fuel (s_v s) = Ok v' /\ vinv rs' aq [] last ul' (mkVs v' (s_last s) (s_flight s) (s_calls s) (s_hist s)).
Proof.
  revert rs uq ul s. induction fuel as [|fuel IH]; intros rs uq ul s Hi Hf; [lia|]. destruct Hi as [Ht Hr Hc Hp].
  pose proof Hr as [R1 R2 R3 R4 R5 R6 R7 R8 R9 R10]. cbn [intr_loop]. destruct uq as [|h uq].
  { cbn [length] in R9. rewrite Z.add_0_r in R9. rewrite R8, R9, Z.eqb_refl. exists (s_v s), rs, ul. split; [done|]. split; auto. split; cbn [s_v s_last s_flight length]; auto. by rewrite Z.add_0_r. }
  pose proof (calls_bound rs (tb_nodup _ _ Ht) (tb_bound _ _ Ht)) as Hl. pose proof (queue_length _ _ _ R3) as Hu. cbn [length] in Hu, Hf, R9.
  destruct (Z.eqb_spec (v_used_idx (s_v s)) (v_used_seen (s_v s))) as [E|_].
  { exfalso. rewrite R8, R9 in E. replace (u16 ul) with (u16 (ul + 0)) in E by (f_equal; lia). apply u16_near in E; lia. }
  apply ring_get in R7 as [Eh R7]. change (Z.of_nat NUM) with 8. rewrite R8, u16_mod8, Eh, Nat2Z.id, (R10 h ltac:(left)). cbn [default from_option id Z.eqb negb].
  destruct (proj1 (qo_iff _ _ _ R3 h) ltac:(left)) as (q0 & H0 & Hh & Hph). pose proof (tb_nodup _ _ Ht) as Hn.
  pose proof (ch_info _ _ (tb_chain _ _ Ht q0 H0)) as Ei. rewrite Hh in Ei. rewrite Ei. cbn [default from_option id]. rewrite u16_shift.
  set (v1 := put_used_idx _ _). apply (IH (set_ph h Seen <$> rs) uq (ul + 1) (mkVs v1 (s_last s) (s_flight s) (s_calls s) (s_hist s))); [|lia].
  split; cbn [s_v s_last s_flight s_calls s_hist].
  - assert (G : tables_ok (set_ph h Seen <$> rs) (put_busy (s_v s) (v_busy (s_v s) ∖ {[q_b q0]}))).
    { subst h. apply tables_set_ph; auto. intros b'. rewrite elem_of_difference, elem_of_singleton. naive_solver. }
    destruct G as [G1 G2 G3 G4 G5 G6 G7]. split; auto. intros q Hq. destruct (G5 q Hq) as [A B C D F]. by split.
  - split; cbn [s_v s_last s_flight]; auto.
    + eapply (queue_stay h Done Seen rs q0); eauto.
    + eapply (queue_stay h Done Seen rs q0); eauto.
    + apply (queue_leave h Done Seen rs q0 [] uq); auto.
    + subst v1. cbn [put_used_idx put_busy v_used_seen]. rewrite R9. f_equal. lia.
    + intros x Hx. apply (R10 x). by right.
  - rewrite Hc. symmetry. apply fmap_set_ph. intros q. by rewrite set_ph_b, set_ph_head.
  - intros b. destruct (Hp b) as (ph & Ep & Hs). exists ph. split; [done|]. subst h.
    pose proof (stage_set_ph rs q0 Seen b ph Hn (tb_bufs _ _ Ht) H0 Hs) as G. destruct (decide (b = q_b q0)) as [->|]; [|done].
    destruct Hs as [[_ Hi]|(q & Hq & E & ->)]; [destruct Hi; by apply list_elem_of_fmap_2|]. assert (q = q0) as -> by (eapply owner_b; eauto; apply Ht).
    unfold stage, set_ph in *. rewrite decide_True in G by done. by rewrite Hph.
Qed.

(** ** Descriptors taken: those of [A], and [idx] besides *)
Record taken (A idx : list nat) (v : vdisk) : Prop := {
  tk_desc : length (v_desc v) = 8%nat;
  tk_nodup : NoDup idx;
  tk_new : forall i, i ∈ idx -> (i < 8)%nat /\ i ∉ A;
  tk_free : length (v_free v) = 8%nat /\ forall i, (i < 8)%nat -> v_free v !! i = Some (bool_decide (i ∉ idx ++ A));
}.
(** [v'] is [v] but for the free flags and the descriptors outside [A]. *)
Definition descs_only (A : list nat) (v v' : vdisk) : Prop :=
  v' = put_free (put_desc v (v_desc v')) (v_free v') /\ length (v_desc v') = length (v_desc v) /\ forall i, i ∈ A -> v_desc v' !! i = v_desc v !! i.

Lemma descs_only_refl A v : descs_only A v v.
Proof. split; [by destruct v|done]. Qed.
Lemma descs_only_trans A v1 v2 v3 : descs_only A v1 v2 -> descs_only A v2 v3 -> descs_only A v1 v3.
Proof.
  intros (E1 & L1 & H1) (E2 & L2 & H2). split_and!; [rewrite E2, E1; done|congruence|]. intros i Hi. by rewrite H2, H1.
Qed.

Lemma free_desc_spec A i idx v :
  taken A (i :: idx) v -> exists v', free_desc i v = Ok v' /\ taken A idx v' /\ descs_only A v v' /\ forall j, j <> i -> v_desc v' !! j = v_desc v !! j.
Proof.
  intros [H1 H2 H3 [H4 H5]]. apply NoDup_cons in H2 as [Hni Hn]. destruct (H3 i ltac:(left)) as [Hi HA]. unfold free_desc. change NUM with 8%nat.
  destruct (Nat.leb_spec 8 i); [lia|]. rewrite (H5 i Hi), bool_decide_false by (intros Hc; apply Hc; left). cbn [default from_option id].
  eexists. split; [done|]. split_and!; [| |intros j Hj; by apply list_lookup_insert_ne].
  - split; cbn; [by rewrite length_insert|done|intros j Hj; apply H3; by right|]. split; [by rewrite length_insert|]. intros j Hj. destruct (decide (j = i)) as [->|Hne].
    + rewrite list_lookup_insert_eq by lia. f_equal. symmetry. apply bool_decide_eq_true. intros Hc. apply elem_of_app in Hc as [Hc|Hc]; [by apply Hni|by apply HA].
    + rewrite list_lookup_insert_ne by done. rewrite (H5 j Hj). f_equal. apply bool_decide_ext. cbn [app]. rewrite not_elem_of_cons. tauto.
  - split_and!; [done|cbn; by rewrite length_insert|]. intros j Hj. cbn. apply list_lookup_insert_ne. intros ->. by apply HA.
Qed.

Lemma free_descs_spec A idx v : taken A idx v -> exists v', free_descs idx v = Ok v' /\ taken A [] v' /\ descs_only A v v'.
Proof.
  revert v. induction idx as [|i idx IH]; intros v Ht; cbn [free_descs]; [exists v; split_and!; auto using descs_only_refl|].
  destruct (free_desc_spec A i idx v Ht) as (v1 & -> & Ht1 & D1 & _). cbn [rbind]. destruct (IH v1 Ht1) as (v2 & -> & Ht2 & D2). exists v2. split_and!; auto. by eapply descs_only_trans.
Qed.

Lemma taken_perm A idx idx' v : idx ≡ₚ idx' -> taken A idx v -> taken A idx' v.
Proof.
  intros Hp [H1 H2 H3 [H4 H5]]. split; auto; [by rewrite <- Hp|intros i Hi; apply H3; by rewrite Hp|]. split; [done|].
  intros i Hi. rewrite (H5 i Hi). f_equal. apply bool_decide_ext. by rewrite Hp.
Qed.

Lemma alloc_desc_spec A idx v :
  taken A idx v ->
  match alloc_desc v with
  | None => True
  | Some (i, v') => taken A (i :: idx) v' /\ descs_only A v v'
  end.
Proof.
  intros [H1 H2 H3 [H4 H5]]. unfold alloc_desc. destruct (find_index id (v_free v)) as [i|] eqn:Ef; [|done].
  apply find_index_Some in Ef as [(f & Hi & Hf) _]. cbn in Hf. assert (i < 8)%nat by (apply lookup_lt_Some in Hi; lia).
  rewrite (H5 i ltac:(done)) in Hi. injection Hi as <-. apply bool_decide_eq_true in Hf. rewrite not_elem_of_app in Hf. destruct Hf as [Hf1 Hf2]. split.
  - split; cbn; auto; [by apply NoDup_cons| |].
    + intros j Hj. apply elem_of_cons in Hj as [->|Hj]; [done|by apply H3].
    + split; [by rewrite length_insert|]. intros j Hj. destruct (decide (j = i)) as [->|Hne].
      * rewrite list_lookup_insert_eq by lia. f_equal. symmetry. apply bool_decide_eq_false. intros Hc. apply Hc. left.
      * rewrite list_lookup_insert_ne by done. rewrite (H5 j Hj). f_equal. apply bool_decide_ext. rewrite not_elem_of_cons. tauto.
  - split_and!; [by destruct v|done|done].
Qed.

Lemma alloc3_loop_spec A k idx v :
  taken A idx v -> exists r v', alloc3_loop k idx v = Ok (r, v') /\ descs_only A v v' /\
    match r with Some idx' => taken A idx' v' /\ length idx' = (length idx + k)%nat | None => taken A [] v' end.
Proof.
  revert idx v. induction k as [|k IH]; intros idx v Ht; cbn [alloc3_loop].
  { exists (Some idx), v. split_and!; auto using descs_only_refl. }
  pose proof (alloc_desc_spec A idx v Ht) as Ha. destruct (alloc_desc v) as [[i v1]|].
  - destruct Ha as [Ht1 D1]. destruct (IH (idx ++ [i]) v1) as (r & v2 & -> & D2 & Hr).
    { eapply taken_perm; [|exact Ht1]. by rewrite Permutation_app_comm. }
    exists r, v2. split_and!; auto; [by eapply descs_only_trans|]. destruct r; [|done]. destruct Hr as [? Hl]. split; [done|]. rewrite length_app in Hl. cbn in Hl. lia.
  - destruct (free_descs_spec A idx v Ht) as (v1 & -> & Ht1 & D1). cbn [rbind]. by exists None, v1.
Qed.

Lemma tables_taken rs v : tables_ok rs v -> taken (all_idxs rs) [] v.
Proof.
  intros [H1 H2 H3 H4 H5 H6 H7]. split; [apply H1|by apply NoDup_nil|intros i Hi; by apply not_elem_of_nil in Hi|]. split; [apply H1|]. by intros i Hi; apply H4.
Qed.

Lemma chain_frame v v' q :
  chain_ok v q -> (forall i, i ∈ idxs q -> v_desc v' !! i = v_desc v !! i) ->
  v_ops v' !! q_i0 q = v_ops v !! q_i0 q -> v_info_b v' !! q_i0 q = v_info_b v !! q_i0 q -> chain_ok v' q.
Proof.
  intros [A B C D F] Hd Ho Hi. split; [rewrite Hd; [done|left]|rewrite Hd; [done|right; left]|rewrite Hd; [done|right; right; left]|by rewrite Ho|by rewrite Hi].
Qed.

(** The tables when only descriptors of no call have changed *)
Lemma tables_descs_only rs v v' : tables_ok rs v -> descs_only (all_idxs rs) v v' -> taken (all_idxs rs) [] v' -> tables_ok rs v'.
Proof.
  intros [H1 H2 H3 H4 H5 H6 H7] (E & L & Hd) Htk. split; auto.
  - destruct H1 as (A & B & C & D & F). rewrite E. cbn. split_and!; auto; [congruence|apply Htk].
  - intros i Hi. by apply (tk_free _ _ _ Htk).
  - intros q Hq. eapply chain_frame; [by apply H5| |rewrite E; done|rewrite E; done]. intros i Hi. apply Hd, all_idxs_elem. eauto.
  - rewrite E. exact H7.
Qed.

(** ** Calls begin ... *)
Lemma all_idxs_app rs rs' : all_idxs (rs ++ rs') = all_idxs rs ++ all_idxs rs'.
Proof. unfold all_idxs. by rewrite fmap_app, concat_app. Qed.

Lemma queue_other ph hs rs rs1 q rs2 : queue_of ph hs (rs1 ++ rs2) -> q_ph q <> ph -> rs = rs1 ++ q :: rs2 -> queue_of ph hs rs.
Proof.
  intros [A B] Hne ->. split; [done|]. intros h. rewrite B. split; intros (q' & Hq & E & Hp); exists q'; split; auto.
  - apply elem_of_app in Hq as [|]; apply elem_of_app; [by left|right; by right].
  - rewrite elem_of_app, elem_of_cons in Hq. rewrite elem_of_app. destruct Hq as [|[->|]]; [by left|congruence|by right].
Qed.

Lemma queue_drop ph hs rs1 q rs2 : queue_of ph hs (rs1 ++ q :: rs2) -> q_ph q <> ph -> queue_of ph hs (rs1 ++ rs2).
Proof.
  intros [A B] Hne. split; [done|]. intros h. rewrite B. split; intros (q' & Hq & E & Hp); exists q'; split; auto.
  - rewrite elem_of_app, elem_of_cons in Hq. rewrite elem_of_app. destruct Hq as [|[->|]]; [by left|congruence|by right].
  - apply elem_of_app in Hq as [|]; apply elem_of_app; [by left|right; by right].
Qed.

Definition new_call (b : nat) (write : bool) (sec : Z) (i0 i1 i2 : nat) : call := mkCall b write sec i0 i1 i2 Queued.

Lemma new_tables rs v b write sec i0 i1 i2 :
  (forall q, q ∈ rs -> chain_ok v q) -> NoDup (all_idxs rs) -> (forall i, i ∈ all_idxs rs -> (i < 8)%nat) -> NoDup (q_b <$> rs) ->
  (forall b, b ∈ v_busy v <-> exists q, q ∈ rs /\ q_b q = b /\ q_ph q <> Seen) ->
  length (v_info_b v) = 8%nat -> length (v_status v) = 8%nat -> length (v_ops v) = 8%nat ->
  taken (all_idxs rs) [i0; i1; i2] v -> b ∉ q_b <$> rs -> forall av ai,
  tables_ok (rs ++ [new_call b write sec i0 i1 i2])
    (put_avail (put_info (put_busy (format_chain b write sec i0 i1 i2 v) ({[b]} ∪ v_busy v)) (<[i0 := Some b]> (v_info_b v))) ai av).
Proof.
  intros Hch Hn Hbd Hbn Hbusy L1 L2 L3 [T1 T2 T3 [T4 T5]] Hb av ai.
  assert (Hd : i0 <> i1 /\ i0 <> i2 /\ i1 <> i2).
  { apply NoDup_cons in T2 as [N1 T2]. apply NoDup_cons in T2 as [N2 _]. rewrite !not_elem_of_cons in N1. rewrite not_elem_of_cons in N2. naive_solver. }
  destruct Hd as (D1 & D2 & D3). destruct (T3 i0 ltac:(left)) as [B0 A0], (T3 i1 ltac:(right; left)) as [B1 A1], (T3 i2 ltac:(right; right; left)) as [B2 A2].
  split.
  - cbn. rewrite !length_insert. auto.
  - rewrite all_idxs_app. apply NoDup_app. split_and!; auto. intros x Hx Hx'. apply (T3 x); [|done]. exact Hx'.
  - intros i Hi. rewrite all_idxs_app in Hi. apply elem_of_app in Hi as [Hi|Hi]; [by apply Hbd|]. apply T3. cbn in Hi. by rewrite ?app_nil_r in Hi.
  - intros i Hi. cbn. rewrite (T5 i Hi). f_equal. apply bool_decide_ext. rewrite all_idxs_app. change (all_idxs [_]) with [i0; i1; i2]. rewrite !not_elem_of_app. tauto.
  - intros q Hq. apply elem_of_app in Hq as [Hq|Hq].
    + assert (Hne : forall i, i ∈ idxs q -> i <> i0 /\ i <> i1 /\ i <> i2).
      { intros i Hi. assert (i ∈ all_idxs rs) by (apply all_idxs_elem; eauto). split_and!; congruence. }
      destruct (Hne (q_i0 q) (head_in q)) as (N0 & _). eapply chain_frame; [by apply Hch| | |].
      * intros i Hi. destruct (Hne i Hi) as (? & ? & ?). cbn. by rewrite !list_lookup_insert_ne.
      * cbn. by rewrite list_lookup_insert_ne.
      * cbn. by rewrite list_lookup_insert_ne.
    + apply list_elem_of_singleton in Hq as ->. split; cbn.
      * rewrite !list_lookup_insert_ne by congruence. apply list_lookup_insert_eq. lia.
      * rewrite list_lookup_insert_ne by congruence. apply list_lookup_insert_eq. rewrite length_insert. lia.
      * apply list_lookup_insert_eq. rewrite !length_insert. lia.
      * apply list_lookup_insert_eq. lia.
      * apply list_lookup_insert_eq. lia.
  - rewrite fmap_app. apply NoDup_app. split_and!; auto; [|apply NoDup_singleton]. intros x Hx Hx'. apply list_elem_of_singleton in Hx' as ->. by apply Hb.
  - intros x. cbn. rewrite elem_of_union, elem_of_singleton, Hbusy. split.
    + intros [->|(q & Hq & E & Hp)]; [exists (new_call b write sec i0 i1 i2)|exists q]; split; auto; apply elem_of_app; [right; left|by left].
    + intros (q & Hq & E & Hp). apply elem_of_app in Hq as [Hq|Hq]; [right; eauto|]. apply list_elem_of_singleton in Hq as ->. by left.
Qed.

(** What rw_start does to the state: it never panics. *)
Lemma rw_start_spec rs v b blockno write :
  tables_ok rs v -> exists r v', rw_start b blockno write v = Ok (r, v') /\
    match r with
    | None => tables_ok rs v' /\ descs_only (all_idxs rs) v v'
    | Some i0 => exists i1 i2 v1, descs_only (all_idxs rs) v v1 /\ taken (all_idxs rs) [i0; i1; i2] v1 /\
        v' = put_avail (put_info (put_busy (format_chain b write (u32 (blockno * (BSIZE / 512))) i0 i1 i2 v1) ({[b]} ∪ v_busy v1)) (<[i0 := Some b]> (v_info_b v1)))
               (u16 (v_avail_idx v + 1)) (setZ (v_avail v) (v_avail_idx v mod 8) (Z.of_nat i0))
    end.
Proof.
  intros Ht. unfold rw_start, alloc3_desc. destruct (alloc3_loop_spec (all_idxs rs) 3 [] v (tables_taken _ _ Ht)) as (r & v1 & -> & D & Hr). cbn [rbind].
  destruct r as [idx|].
  - destruct Hr as [Htk Hl]. cbn in Hl. destruct idx as [|i0 [|i1 [|i2 [|]]]]; try discriminate. eexists _, _. split; [done|]. cbv beta iota.
    exists i1, i2, v1. split; [exact D|]. split; [exact Htk|]. destruct D as (E & _).
    assert (Ea : v_avail_idx v1 = v_avail_idx v /\ v_avail v1 = v_avail v) by (rewrite E; done). destruct Ea as [Ea1 Ea2]. change (Z.of_nat NUM) with 8. rewrite <- Ea1, <- Ea2. clear. destruct v1. cbv [format_chain put_avail put_info put_busy put_desc put_ops put_status v_desc v_avail_idx v_avail v_used_seen v_used v_free v_used_idx v_info_b v_status v_ops v_busy]. reflexivity.
  - exists None, v1. split; [done|]. split; [by eapply tables_descs_only|done].
Qed.

Lemma start_inv rs aq uq last ul s b blockno write i0 v' :
  vinv rs aq uq last ul s -> b ∉ (s_calls s).*1 -> rw_start b blockno write (s_v s) = Ok (Some i0, v') ->
  exists rs' aq', vinv rs' aq' uq last ul (mkVs v' (s_last s) (s_flight s) (s_calls s ++ [(b, i0)]) (s_hist s ++ [VStart b write (u32 (blockno * (BSIZE / 512)))])).
Proof.
  intros [Ht Hr Hc Hp] Hb Hs. destruct (rw_start_spec rs (s_v s) b blockno write Ht) as (r & v2 & E & Hres). rewrite E in Hs. injection Hs as -> ->.
  destruct Hres as (i1 & i2 & v1 & (E1 & L1 & D1) & Htk & ->). set (sec := u32 _) in *. set (q := new_call b write sec i0 i1 i2).
  assert (Hb' : b ∉ q_b <$> rs). { rewrite Hc in Hb. intros Hin. apply Hb. by rewrite <- list_fmap_compose. }
  pose proof Ht as [H1 H2 H3 H4 H5 H6 H7]. destruct H1 as (A1 & A2 & A3 & A4 & A5).
  pose proof Hr as [R1 R2 R3 R4 R5 R6 R7 R8 R9 R10]. pose proof (queue_length _ _ _ R1) as Hql. pose proof (calls_bound rs H2 H3) as Hrl.
  assert (Hi0 : i0 ∉ all_idxs rs) by (apply (tk_new _ _ _ Htk); left).
  exists (rs ++ [q]), (aq ++ [i0]). split; cbn [s_v s_last s_flight s_calls s_hist].
  - apply new_tables; auto; try (rewrite E1; done).
    intros q' Hq'. eapply chain_frame; [by apply H5| |rewrite E1; done|rewrite E1; done]. intros i Hi. apply D1, all_idxs_elem. eauto.
  - split; cbn [s_v s_last s_flight]; auto.
    + split; [apply NoDup_app; split_and!; [apply R1| |apply NoDup_singleton]|].
      * intros x Hx Hx'. apply list_elem_of_singleton in Hx' as ->. apply R1 in Hx as (q' & Hq' & Eq & _). apply Hi0, all_idxs_elem. exists q'. split; [done|]. rewrite <- Eq. apply head_in.
      * intros h. rewrite elem_of_app, (qo_iff _ _ _ R1 h), list_elem_of_singleton. split.
        -- intros [(q' & Hq' & Eq & Hph)| ->]; [exists q'|exists q]; split; auto; apply elem_of_app; [by left|right; left].
        -- intros (q' & Hq' & Eq & Hph). apply elem_of_app in Hq' as [|Hq']; [left; eauto|]. apply list_elem_of_singleton in Hq' as ->. by right.
    + eapply (queue_other Flying (s_flight s) _ rs q []); [by rewrite app_nil_r|done|done].
    + eapply (queue_other Done uq _ rs q []); [by rewrite app_nil_r|done|done].
    + cbn. rewrite R6, u16_mod8, fmap_app. cbn [fmap list_fmap]. rewrite <- (length_fmap Z.of_nat aq). apply ring_put; [lia|done|]. rewrite length_fmap. lia.
    + cbn. rewrite R6, u16_shift, length_app. cbn. f_equal. lia.
    + cbn. rewrite E1. exact R7.
    + cbn. rewrite E1. exact R8.
    + cbn. rewrite E1. exact R9.
    + intros h Hh. cbn. rewrite list_lookup_insert_ne; [rewrite E1; cbn; by apply R10|]. intros ->. apply R3 in Hh as (q' & Hq' & Eq & _). apply Hi0, all_idxs_elem. exists q'. split; [done|]. rewrite <- Eq. apply head_in.
  - by rewrite fmap_app, Hc.
  - intros b'. destruct (Hp b') as (ph & Ep & Hs). rewrite proto_snoc, Ep. cbn [proto_step]. destruct (decide (b = b')) as [<-|Hne].
    + destruct Hs as [[-> _]|(q' & Hq' & Eb & _)]; [|destruct Hb'; rewrite <- Eb; by apply list_elem_of_fmap_2].
      exists (VWait write sec). split; [done|]. right. exists q. split_and!; auto. apply elem_of_app. right. left.
    + exists ph. split; [done|]. destruct Hs as [[-> Hi]|(q' & Hq' & Eb & ->)].
      * left. split; [done|]. rewrite fmap_app. intros Hc'. apply elem_of_app in Hc' as [|Hc']; [done|]. apply list_elem_of_singleton in Hc'. by apply Hne.
      * right. exists q'. split; [apply elem_of_app; by left|]. done.
Qed.

Lemma sleeps_inv rs aq uq last ul s b blockno write v' :
  vinv rs aq uq last ul s -> rw_start b blockno write (s_v s) = Ok (None, v') -> vinv rs aq uq last ul (mkVs v' (s_last s) (s_flight s) (s_calls s) (s_hist s)).
Proof.
  intros [Ht Hr Hc Hp] Hs. destruct (rw_start_spec rs (s_v s) b blockno write Ht) as (r & v2 & E & Hres). rewrite E in Hs. injection Hs as -> ->.
  destruct Hres as [Ht' (E1 & _ & _)]. split; auto. destruct Hr as [R1 R2 R3 R4 R5 R6 R7 R8 R9 R10]. split; cbn [s_v s_last s_flight]; auto; rewrite E1; auto.
Qed.

(** ** ... and return *)
Lemma free_chain_spec A q v :
  v_desc v !! q_i0 q = Some (mkDesc (AOp (q_i0 q)) 16 VRING_DESC_F_NEXT (q_i1 q)) ->
  v_desc v !! q_i1 q = Some (mkDesc (AData (q_b q)) BSIZE (Z.lor (if q_w q then 0 else VRING_DESC_F_WRITE) VRING_DESC_F_NEXT) (q_i2 q)) ->
  v_desc v !! q_i2 q = Some (mkDesc (AStatus (q_i0 q)) 1 VRING_DESC_F_WRITE 0) ->
  taken A (idxs q) v -> exists v', free_chain (S NUM) (q_i0 q) v = Ok v' /\ taken A [] v' /\ descs_only A v v'.
Proof.
  intros E0 E1 E2 Ht. assert (Hd : q_i0 q <> q_i1 q /\ q_i0 q <> q_i2 q /\ q_i1 q <> q_i2 q).
  { pose proof (tk_nodup _ _ _ Ht) as T2. unfold idxs in T2. apply NoDup_cons in T2 as [N1 T2]. apply NoDup_cons in T2 as [N2 _]. rewrite !not_elem_of_cons in N1. rewrite not_elem_of_cons in N2. naive_solver. }
  destruct Hd as (N1 & N2 & N3). destruct (free_desc_spec A _ _ v Ht) as (v1 & F1 & T1 & D1 & K1).
  destruct (free_desc_spec A _ _ v1 T1) as (v2 & F2 & T2 & D2 & K2). destruct (free_desc_spec A _ _ v2 T2) as (v3 & F3 & T3 & D3 & _).
  change (S NUM) with 9%nat. cbn [free_chain]. rewrite E0. cbn [default from_option id d_flags d_next]. rewrite F1. cbn [rbind]. change (negb (Z.land VRING_DESC_F_NEXT VRING_DESC_F_NEXT =? 0)) with true. cbn iota.
  rewrite (K1 (q_i1 q)), E1 by congruence. cbn [default from_option id d_flags d_next]. rewrite F2. cbn [rbind].
  replace (negb (Z.land (Z.lor (if q_w q then 0 else VRING_DESC_F_WRITE) VRING_DESC_F_NEXT) VRING_DESC_F_NEXT =? 0)) with true by (by destruct (q_w q)). cbn iota.
  rewrite (K2 (q_i2 q)), (K1 (q_i2 q)), E2 by congruence. cbn [default from_option id d_flags d_next]. rewrite F3. cbn [rbind]. change (negb (Z.land VRING_DESC_F_WRITE VRING_DESC_F_NEXT =? 0)) with false. cbn iota.
  exists v3. split_and!; auto. eapply descs_only_trans; [exact D1|]. by eapply descs_only_trans.
Qed.

Lemma fmap_split {A B} (f : A -> B) (l : list A) l1 y l2 :
  f <$> l = l1 ++ y :: l2 -> exists k1 x k2, l = k1 ++ x :: k2 /\ f <$> k1 = l1 /\ f x = y /\ f <$> k2 = l2.
Proof.
  intros E. apply fmap_app_inv in E as (k1 & k & E1 & E2 & ->). destruct k as [|x k2]; [discriminate|]. injection E2 as E2 E3. by exists k1, x, k2.
Qed.

Lemma middle_in {A} (x : A) l1 l2 y : y ∈ l1 ++ x :: l2 <-> y = x \/ y ∈ l1 ++ l2.
Proof. rewrite !elem_of_app, elem_of_cons. tauto. Qed.

Lemma all_idxs_middle r1 q r2 : all_idxs (r1 ++ q :: r2) ≡ₚ idxs q ++ all_idxs (r1 ++ r2).
Proof. rewrite !all_idxs_app. change (all_idxs (q :: r2)) with (idxs q ++ all_idxs r2). by rewrite Permutation_app_swap_app. Qed.

(** The call leaves the tables: its buffer is not busy any more. *)
Lemma rw_finish_spec r1 q r2 v :
  tables_ok (r1 ++ q :: r2) v -> q_b q ∉ v_busy v ->
  exists v', rw_finish (q_b q) (q_i0 q) v = Ok (Some v') /\ tables_ok (r1 ++ r2) v' /\
    v' = put_free (put_desc (put_info v (v_info_b v')) (v_desc v')) (v_free v').
Proof.
  intros [H1 H2 H3 H4 H5 H6 H7] Hb. destruct H1 as (L1 & L2 & L3 & L4 & L5). pose proof (all_idxs_middle r1 q r2) as Hp.
  assert (Hq : q ∈ r1 ++ q :: r2) by (apply middle_in; by left). rewrite Hp in H2. apply NoDup_app in H2 as (N1 & N2 & N3).
  unfold rw_finish. rewrite decide_False by done. set (v1 := put_info v _).
  assert (Ht : taken (all_idxs (r1 ++ r2)) (idxs q) v1).
  { split; auto; [|split; [done|]].
    - intros i Hi. split; [apply H3; rewrite Hp; apply elem_of_app; by left|]. by apply N2.
    - intros i Hi. cbn. rewrite (H4 i Hi). f_equal. apply bool_decide_ext. by rewrite Hp. }
  destruct (H5 q Hq) as [C0 C1 C2 C3 C4]. destruct (free_chain_spec _ q v1 C0 C1 C2 Ht) as (v2 & -> & Ht2 & (E2 & Ld & D2)). cbn [rbind].
  exists v2. split; [done|]. assert (Ei : v_info_b v2 = <[q_i0 q := None]> (v_info_b v)) by (rewrite E2; done). split; [|rewrite Ei; exact E2].
  split.
  - rewrite Ei, length_insert, Ld. destruct Ht2 as [_ _ _ [Lf _]]. split_and!; auto; rewrite E2; done.
  - done.
  - intros i Hi. apply H3. rewrite Hp. apply elem_of_app. by right.
  - intros i Hi. by apply (tk_free _ _ _ Ht2).
  - intros q' Hq'. eapply chain_frame; [apply H5, middle_in; by right| |rewrite E2; done|].
    + intros i Hi. rewrite D2; [done|]. apply all_idxs_elem. eauto.
    + rewrite Ei. apply list_lookup_insert_ne. intros Eh. apply (N2 (q_i0 q) (head_in q)). apply all_idxs_elem. exists q'. split; [done|]. rewrite Eh. apply head_in.
  - rewrite fmap_app in *. cbn [fmap list_fmap] in H6. rewrite <- Permutation_middle in H6. by apply NoDup_cons in H6 as [_ ?].
  - intros b. replace (v_busy v2) with (v_busy v) by (rewrite E2; done). rewrite H7. split; intros (q' & Hq' & Eb & Hph); exists q'; split; auto.
    + apply middle_in in Hq' as [->|]; [|done]. exfalso. apply Hb, H7. eauto.
    + apply middle_in. by right.
Qed.

Lemma return_inv rs aq uq last ul s l1 b i0 l2 v' :
  vinv rs aq uq last ul s -> s_calls s = l1 ++ (b, i0) :: l2 -> rw_finish b i0 (s_v s) = Ok (Some v') ->
  exists rs', vinv rs' aq uq last ul (mkVs v' (s_last s) (s_flight s) (l1 ++ l2) (s_hist s ++ [VReturn b])).
Proof.
  intros [Ht Hr Hc Hp] Hl Hf. rewrite Hc in Hl. apply fmap_split in Hl as (r1 & q & r2 & -> & E1 & E & E2). injection E as <- <-.
  assert (Hb : q_b q ∉ v_busy (s_v s)) by (unfold rw_finish in Hf; by destruct (decide _)).
  destruct (rw_finish_spec r1 q r2 (s_v s) Ht Hb) as (v2 & Ef & Ht' & Ev). rewrite Ef in Hf. injection Hf as <-.
  assert (Hq : q ∈ r1 ++ q :: r2) by (apply middle_in; by left).
  assert (Hph : q_ph q = Seen). { destruct (decide (q_ph q = Seen)); [done|]. exfalso. apply Hb, (tb_busy _ _ Ht). eauto. }
  exists (r1 ++ r2). split; cbn [s_v s_last s_flight s_calls s_hist]; auto.
  - destruct Hr as [R1 R2 R3 R4 R5 R6 R7 R8 R9 R10].
    split; cbn [s_v s_last s_flight]; try (eapply queue_drop; [eassumption|congruence]); auto; rewrite Ev; auto.
  - by rewrite fmap_app, E1, E2.
  - intros b'. destruct (Hp b') as (ph & Ep & Hs). rewrite proto_snoc, Ep. cbn [proto_step]. destruct (decide (q_b q = b')) as [<-|Hne].
    + destruct Hs as [[_ Hi]|(q' & Hq' & Eb & ->)]; [destruct Hi; by apply list_elem_of_fmap_2|]. assert (q' = q) as -> by (eapply owner_b; eauto; apply Ht).
      unfold stage. rewrite Hph. exists VIdle. split; [done|]. left. split; [done|]. pose proof (tb_bufs _ _ Ht) as Hn.
      rewrite fmap_app in *. cbn [fmap list_fmap] in Hn. rewrite <- Permutation_middle in Hn. by apply NoDup_cons in Hn as [? _].
    + exists ph. split; [done|]. destruct Hs as [[-> Hi]|(q' & Hq' & Eb & ->)].
      * left. split; [done|]. intros Hin. apply Hi. apply list_elem_of_fmap in Hin as (q' & -> & Hq'). apply list_elem_of_fmap_2, middle_in. by right.
      * right. exists q'. split; [|done]. apply middle_in in Hq' as [->|]; [congruence|done].
Qed.

Lemma vinv_init : vinv [] [] [] 0 0 vsys0.
Proof.
  assert (Hq : forall ph, queue_of ph [] []).
  { intros ph. split; [by apply NoDup_nil|]. intros h. split; [intros H; by apply not_elem_of_nil in H|]. intros (q & H & _). by apply not_elem_of_nil in H. }
  assert (Hr : in_ring 8 (replicate NUM 0) 0 (Z.of_nat <$> [])) by (split; cbn; try lia; intros i x Hx; discriminate).
  split; cbn [vsys0 s_v s_last s_flight s_calls s_hist].
  - split; try (by cbn); try (by apply NoDup_nil).
    + intros i H. by apply not_elem_of_nil in H.
    + intros i Hi. cbn [vdisk0 v_free]. rewrite lookup_replicate_2 by done. f_equal.
    + intros q H. by apply not_elem_of_nil in H.
    + intros b. split; [intros H; by apply not_elem_of_empty in H|]. intros (q & H & _). by apply not_elem_of_nil in H.
  - split; auto; try done. intros h H. by apply not_elem_of_nil in H.
  - done.
  - intros b. exists VIdle. split; [done|]. left. split; [done|]. apply not_elem_of_nil.
Qed.

Lemma vstep_inv rs aq uq last ul s s' : vinv rs aq uq last ul s -> vstep s s' -> exists rs' aq' uq' last' ul', vinv rs' aq' uq' last' ul' s'.
Proof.
  intros Hi Hs. inversion Hs; subst; clear Hs.
  - edestruct start_inv as (? & ? & ?); eauto 10.
  - eexists _, _, _, _, _. by eapply sleeps_inv.
  - edestruct fetch_inv as (? & ? & ? & ?); eauto 10.
  - edestruct complete_inv as (? & ? & ?); eauto 10.
  - destruct (intr_loop_inv (S NUM) rs aq uq last ul s Hi) as (v2 & rs' & ul' & E & Hi').
    { pose proof (queue_length _ _ _ (ri_uq _ _ _ _ _ _ (vi_rings _ _ _ _ _ _ Hi))). pose proof (calls_bound rs (tb_nodup _ _ (vi_tables _ _ _ _ _ _ Hi)) (tb_bound _ _ (vi_tables _ _ _ _ _ _ Hi))).
      change (S NUM) with 9%nat. lia. }
    unfold virtio_disk_intr in *. rewrite E in H. injection H as <-. eauto 10.
  - edestruct return_inv as (? & ?); eauto 10.
Qed.

Lemma vreach_inv s : rtc vstep vsys0 s -> exists rs aq uq last ul, vinv rs aq uq last ul s.
Proof.
  intros H. assert (G : forall s0, rtc vstep s0 s -> (exists rs aq uq last ul, vinv rs aq uq last ul s0) -> exists rs aq uq last ul, vinv rs aq uq last ul s).
  { clear H. induction 1 as [|x y z Hs _ IH]; [done|]. intros (rs & aq & uq & last & ul & Hi). apply IH. by eapply vstep_inv. }
  apply (G _ H). eexists _, _, _, _, _. apply vinv_init.
Qed.

(** A call that waits has something going on for it. *)
Lemma call_pending rs aq uq last ul s q :
  vinv rs aq uq last ul s -> q ∈ rs ->
  s_last s <> v_avail_idx (s_v s) \/ s_flight s <> [] \/ v_used_idx (s_v s) <> v_used_seen (s_v s) \/
  exists v', rw_finish (q_b q) (q_i0 q) (s_v s) = Ok (Some v').
Proof.
  intros [Ht Hr Hc Hp] Hq. pose proof Hr as [R1 R2 R3 R4 R5 R6 R7 R8 R9 R10]. pose proof (calls_bound rs (tb_nodup _ _ Ht) (tb_bound _ _ Ht)) as Hl.
  pose proof (queue_length _ _ _ R1) as La. pose proof (queue_length _ _ _ R3) as Lu. destruct (q_ph q) eqn:Eph.
  - left. assert (H : q_i0 q ∈ aq) by (apply (qo_iff _ _ _ R1); eauto). rewrite R5, R6. intros E. replace (u16 last) with (u16 (last + 0)) in E by (f_equal; lia).
    apply u16_near in E; [|lia..]. destruct aq; [by apply not_elem_of_nil in H|cbn in E; lia].
  - right; left. assert (H : q_i0 q ∈ s_flight s) by (apply (qo_iff _ _ _ R2); eauto). intros E. rewrite E in H. by apply not_elem_of_nil in H.
  - right; right; left. assert (H : q_i0 q ∈ uq) by (apply (qo_iff _ _ _ R3); eauto). rewrite R8, R9. intros E. replace (u16 ul) with (u16 (ul + 0)) in E by (f_equal; lia).
    apply u16_near in E; [|lia..]. destruct uq; [by apply not_elem_of_nil in H|cbn in E; lia].
  - right; right; right. pose proof Hq as Hq'. apply list_elem_of_split in Hq' as (r1 & r2 & ->). destruct (rw_finish_spec r1 q r2 (s_v s) Ht) as (v' & E & _); [|eauto].
    intros Hb. apply (tb_busy _ _ Ht) in Hb as (q' & Hq' & Eb & Hph). assert (q' = q) as -> by (eapply owner_b; eauto; apply Ht). congruence.
Qed.


(** Buffer 3 is written to block 7: the driver's memory after each step *)
Definition demo_called : vdisk := match rw_start 3 7 true vdisk0 with Ok (_, v) => v | _ => vdisk0 end.
Definition demo_done : vdisk :=
  let v := put_status demo_called (<[0%nat := 0]> (v_status demo_called)) in
  put_used v (u16 (v_used_seen v + 1)) (setZ (v_used v) (v_used_seen v mod Z.of_nat NUM) 0).
Definition demo_seen : vdisk := match virtio_disk_intr demo_done with Ok v => v | _ => vdisk0 end.
Definition demo_back : vdisk := match rw_finish 3 0 demo_seen with Ok (Some v) => v | _ => vdisk0 end.

Lemma vstep_to s t t' : vstep s t -> t = t' -> vstep s t'.
Proof. by intros H ->. Qed.

