(* ===== verification/Trap.v ===== *)
(** * Traps: kernel/trap.c

    usertrap, usertrapret, kerneltrap, clockintr and devintr over the whole
    machine: processes, files and reports of Syscall, the console and UART of
    Console, the disk driver of Virtio.  The trap registers, what the PLIC
    says, the bytes waiting in the UART and the room it has are arguments.
    usertrap runs up to the point where the process goes back to user space,
    gives up the hart, sleeps, or is gone.  Proved: what holds whenever a
    process goes back to user space, that an interrupted program does not
    notice the interrupt, and that deadlines are enforced. *)

From S2P Require Import Prelude Riscv Mem Kalloc Vm Sleeplock Block Bio Log Txn Fs FsProps Pipe File Sysfile Proc Sched Thread ProcInfo ProcLife Report Exec Syscall Console Virtio.

(** ** Trap registers *)
Definition SSTATUS_SPP : Z := Z.shiftl 1 8.
Definition SSTATUS_SPIE : Z := Z.shiftl 1 5.
Definition SSTATUS_SIE : Z := Z.shiftl 1 1.
Definition intr_on (sstatus : Z) : Z := Z.lor sstatus SSTATUS_SIE.
Definition intr_off (sstatus : Z) : Z := Z.land sstatus (Z.lnot SSTATUS_SIE).
Definition intr_get (sstatus : Z) : bool := negb (Z.land sstatus SSTATUS_SIE =? 0).
Definition SCAUSE_ECALL : Z := 8.
Definition SCAUSE_EXTERNAL : Z := 0x8000000000000009.
Definition SCAUSE_TIMER : Z := 0x8000000000000005.

Record csrs := mkCsrs { r_sstatus : Z; r_scause : Z; r_sepc : Z; r_stval : Z }.

(** What the devices say: the irq the PLIC hands out, the bytes waiting in
    the UART, and how many it takes. *)
Record devices := mkDev { dv_irq : Z; dv_rx : list Z; dv_room : nat }.

(** The words of struct trapframe that uservec reads *)
Definition TF_kernel_satp : nat := 0.
Definition TF_kernel_sp : nat := 1.
Definition TF_kernel_trap : nat := 2.
Definition TF_kernel_hartid : nat := 4.

(** How usertrap ends: in userret with these registers; in yield, to go on
    with usertrapret when the process runs again; asleep in a system call; in
    exit. *)
Record uret := mkUret { u_stvec : Z; u_sstatus : Z; u_sepc : Z; u_satp : Z; u_entry : Z }.
Inductive uend := UReturn (u : uret) | USwitch | USleep | UExit.

Section trap.
Context (kernel_end trampoline uservec userret usertrap_at forkret ustack_at kbuf_at countbuf rbuf : Z).
Context (chan_of : option nat -> Z) (tick_chan cons_chan uart_chan : Z) (buf_chan : nat -> Z).
Context {C : Type} `{BO : BufOps C} (sb : superblock).
Context (devread devwrite : Z -> option (Z -> Z -> kst C kmem -> res (Z * kst C kmem))) (oob : Z -> option nat) (junk : list Z) (rjunk : report) (quota_fuel : nat).

(** The machine, the drivers' state and the bytes sent to the UART so far *)
Record kernel := mkKern { t_m : machine (C := C); t_cons : console; t_uart : uart; t_disk : vdisk; t_sent : list Z }.
Definition set_m (t : kernel) (m : machine) : kernel := mkKern m (t_cons t) (t_uart t) (t_disk t) (t_sent t).
Definition on_p (f : psys -> psys) (t : kernel) : kernel := set_m t (set_p (t_m t) (f (mp (t_m t)))).

(** ** Interrupts, taken while process [me] runs (none in the scheduler) *)
Definition clockintr (me : option nat) (t : kernel) : kernel :=
  if m_hart (t_m t) =? 0 then
    on_p (fun s => let s := put_ticks s (u32 (ps_ticks s + 1)) in
                   drop_dead_processes (ps_ticks s) (wakeup me tick_chan s)) t
  else t.

Definition wakeup_if (b : bool) (me : option nat) (chan : Z) (s : psys) : psys := if b then wakeup me chan s else s.
(** wakeup(b) for every buffer whose transfer the interrupt found finished *)
Definition wakeup_bufs (me : option nat) (bs : gset nat) (s : psys) : psys :=
  foldl (fun s b => wakeup me (buf_chan b) s) s (elements bs).

Definition devintr (me : option nat) (h : csrs) (d : devices) (t : kernel) : res (Z * kernel) :=
  if r_scause h =? SCAUSE_EXTERNAL then
    let* t := (if dv_irq d =? UART0_IRQ then
                 let '(out, readers, writers, cs, u) := uartintr (dv_rx d) (dv_room d) (t_cons t) (t_uart t) in
                 let t := mkKern (t_m t) cs u (t_disk t) (t_sent t ++ out) in
                 Ok (on_p (fun s => wakeup_if writers me uart_chan (wakeup_if readers me cons_chan s)) t)
               else if dv_irq d =? VIRTIO0_IRQ then
                 let* v := virtio_disk_intr (t_disk t) in
                 let done := v_busy (t_disk t) ∖ v_busy v in
                 Ok (on_p (wakeup_bufs me done) (mkKern (t_m t) (t_cons t) (t_uart t) v (t_sent t)))
               else Ok t) in
    Ok (1, t)
  else if r_scause h =? SCAUSE_TIMER then Ok (2, clockintr me t)
  else Ok (0, t).

(** ** Back to user space *)
Definition usertrapret (i : nat) (sstatus satp : Z) (t : kernel) : uret * kernel :=
  let sstatus := intr_off sstatus in
  let m := t_m t in
  let p := caller i m in
  let tf := <[TF_kernel_hartid := m_hart m]> (<[TF_kernel_trap := usertrap_at]> (<[TF_kernel_sp := p_kstack p + PGSIZE]>
              (<[TF_kernel_satp := satp]> (regs i m)))) in
  let t := on_p (fun s => mod_tf s (p_trapframe p) tf) t in
  (mkUret (TRAMPOLINE + (uservec - trampoline)) (Z.lor (Z.land sstatus (Z.lnot SSTATUS_SPP)) SSTATUS_SPIE) (tf_get tf TF_epc)
     (MAKE_SATP (p_pagetable p)) (TRAMPOLINE + (userret - trampoline)), t).

(** ** usertrap *)
Definition set_epc (i : nat) (f : Z -> Z) (t : kernel) : kernel :=
  on_p (fun s => let tf := p_trapframe (getp s i) in mod_tf s tf (<[TF_epc := f (tf_get (get_tf s tf) TF_epc)]> (get_tf s tf))) t.
Definition die (i : nat) (t : kernel) : res (uend * kernel) :=
  let m := t_m t in
  let* y := exit (UM := um kernel_end kbuf_at i m) chan_of sb i (m_thread m) (-1) (m_y m) in
  Ok (UExit, set_m t (set_y m y)).
Definition back (i : nat) (sstatus satp : Z) (t : kernel) : res (uend * kernel) :=
  let '(u, t) := usertrapret i sstatus satp t in Ok (UReturn u, t).

(** From "if(killed(p))" on *)
Definition usertrap_tail (i : nat) (which_dev sstatus satp : Z) (t : kernel) : res (uend * kernel) :=
  let m := t_m t in
  if killed i (mp m) then die i t
  else if which_dev =? 2 then
    let* s := yield i (m_thread m) (mp m) in Ok (USwitch, set_m t (set_p m s))
  else back i sstatus satp t.

(** A trap no device caused: the end of a thread, or a fault *)
Definition cleanup (i : nat) (m : machine) : res (flow * machine) :=
  match m_thread m with
  | Some j =>
      let* (e, s) := thread_cleanup kernel_end i (m_thread m) (th_id (getth (caller i m) j)) (mp m) in
      thread_end kernel_end kbuf_at chan_of sb i e (set_p m s)
  | None => ret m 0
  end.
Definition usertrap_fault (i : nat) (h : csrs) (satp : Z) (t : kernel) : res (uend * kernel) :=
  let m := t_m t in
  if tf_get (regs i m) TF_ra =? u64 (-1) then
    let* (e, m) := cleanup i m in
    match e with
    | FRet _ => back i (r_sstatus h) satp (set_m t m)
    | FSwitch => Ok (USwitch, set_m t m)
    | FSleep => Ok (USleep, set_m t m)
    | FExit => Ok (UExit, set_m t m)
    end
  else
    let* (l, k) := log_trap (UM := um kernel_end kbuf_at i m) sb (p_pid (caller i m)) (p_killed (caller i m)) rjunk countbuf rbuf
        (ps_procs (mp m)) (caller i m) (r_scause h) (r_sepc h) (r_stval h) (m_reports m) (enter_files i (m_y m)) in
    let m := leave i k (mkMach (m_y m) l (m_sched_type m) (m_hart m) (m_thread m)) in
    usertrap_tail i 0 (r_sstatus h) satp (set_m t (set_p m (setkilled i (mp m)))).

Definition usertrap (i : nat) (h : csrs) (satp : Z) (d : devices) (t : kernel) : res (uend * kernel) :=
  if negb (Z.land (r_sstatus h) SSTATUS_SPP =? 0) then Panic "usertrap: not from user mode"
  else
    let t := set_epc i (fun _ => r_sepc h) t in
    if r_scause h =? SCAUSE_ECALL then
      if killed i (mp (t_m t)) then die i t
      else
        let t := set_epc i (fun epc => u64 (epc + 4)) t in
        let* (e, m) := syscall kernel_end trampoline forkret ustack_at kbuf_at chan_of tick_chan sb devread devwrite oob junk quota_fuel i (t_m t) in
        let t := set_m t m in
        match e with
        | FRet _ => usertrap_tail i 0 (intr_on (r_sstatus h)) satp t
        | FSwitch => Ok (USwitch, t)
        | FSleep => Ok (USleep, t)
        | FExit => Ok (UExit, t)
        end
    else
      let* (which_dev, t) := devintr (Some i) h d t in
      if negb (which_dev =? 0) then usertrap_tail i which_dev (r_sstatus h) satp t
      else usertrap_fault i h satp t.

(** ** kerneltrap: whether the process gave up the hart, and the sepc and
    sstatus that kernelvec goes back with *)
Definition kerneltrap (me : option nat) (h : csrs) (d : devices) (t : kernel) : res (bool * Z * Z * kernel) :=
  let sepc := r_sepc h in
  let sstatus := r_sstatus h in
  if Z.land sstatus SSTATUS_SPP =? 0 then Panic "kerneltrap: not from supervisor mode"
  else if intr_get (r_sstatus h) then Panic "kerneltrap: interrupts enabled"
  else
    let* (which_dev, t) := devintr me h d t in
    if which_dev =? 0 then Panic "kerneltrap"
    else
      match me with
      | Some i =>
          if which_dev =? 2 then
            let* s := yield i (m_thread (t_m t)) (mp (t_m t)) in
            Ok (true, sepc, sstatus, set_m t (set_p (t_m t) s))
          else Ok (false, sepc, sstatus, t)
      | None => Ok (false, sepc, sstatus, t)
      end.
End trap.

(** ** Sets of processes that only grow: killed and not asleep *)
Definition doomed (p : proc) : Prop := p_killed p = true /\ p_state p <> SLEEPING.
Definition dooms (s s' : psys) : Prop := forall j, doomed (getp s j) -> doomed (getp s' j).

Lemma dooms_refl s : dooms s s.
Proof. by intros j. Qed.
Lemma dooms_trans s1 s2 s3 : dooms s1 s2 -> dooms s2 s3 -> dooms s1 s3.
Proof. intros H1 H2 j Hj. apply H2, H1, Hj. Qed.
Lemma dooms_procs s s' : ps_procs s' = ps_procs s -> dooms s s'.
Proof. intros E j. unfold getp. by rewrite E. Qed.

Lemma getp_at s i f j : getp (modp s i f) j = if decide (i = j /\ (j < length (ps_procs s))%nat) then f (getp s j) else getp s j.
Proof.
  unfold getp, modp. cbn [ps_procs put_procs]. destruct (decide _) as [[-> Hj]|Hn].
  - rewrite list_lookup_alter_eq. destruct (lookup_lt_is_Some_2 _ _ Hj) as [p ->]. done.
  - destruct (decide (i = j)) as [->|]; [|by rewrite list_lookup_alter_ne]. rewrite list_lookup_alter_eq. by rewrite (proj2 (lookup_ge_None _ _)) by lia.
Qed.

Lemma dooms_modp s i f : (forall p, doomed p -> doomed (f p)) -> dooms s (modp s i f).
Proof. intros Hf j Hj. rewrite getp_at. destruct (decide _); auto. Qed.

Lemma getp_wakeup me chan s j : getp (wakeup me chan s) j = if bool_decide (me = Some j) then getp s j else wakeup_proc chan (getp s j).
Proof.
  unfold getp, wakeup. cbn [ps_procs put_procs]. rewrite list_lookup_imap. destruct (ps_procs s !! j) as [p|]; cbn; [done|].
  by destruct (bool_decide _).
Qed.

Lemma wakeup_dooms me chan s : dooms s (wakeup me chan s).
Proof.
  intros j Hj. rewrite getp_wakeup. destruct (bool_decide _); [done|]. unfold wakeup_proc. destruct (_ && _); [|done]. destruct Hj. by split.
Qed.

Lemma reparent_dooms chan_of me k j s : dooms s (reparent_loop chan_of me k j s).
Proof.
  revert j s. induction k as [|k IH]; intros j s; [apply dooms_refl|]. cbn [reparent_loop]. eapply dooms_trans; [|apply IH].
  destruct (bool_decide _); [|apply dooms_refl]. eapply dooms_trans; [|apply wakeup_dooms]. by apply dooms_modp.
Qed.

(** sched changes threads, trapframes and the count of running threads. *)
Lemma sched_getp i th held noff intr s s' j : sched i th held noff intr s = Ok s' ->
  p_killed (getp s' j) = p_killed (getp s j) /\ p_state (getp s' j) = p_state (getp s j) /\ p_xstate (getp s' j) = p_xstate (getp s j).
Proof.
  intros H. unfold sched in H. destruct (negb held); [discriminate|]. destruct (negb (noff =? 1)); [discriminate|].
  destruct (is_state _ _ && _); [discriminate|]. destruct intr; [discriminate|]. injection H as <-. rewrite getp_at.
  set (s1 := match th with Some _ => _ | None => _ end).
  assert (H1 : p_killed (getp s1 j) = p_killed (getp s j) /\ p_state (getp s1 j) = p_state (getp s j) /\ p_xstate (getp s1 j) = p_xstate (getp s j)).
  { unfold s1. destruct th as [x|]; [|done]. destruct (negb _); [|done]. rewrite getp_at. by destruct (negb _); destruct (decide _). }
  by destruct (decide _).
Qed.
Lemma sched_dooms i th held noff intr s s' : sched i th held noff intr s = Ok s' -> dooms s s'.
Proof. intros H j [Hk Hs]. destruct (sched_getp _ _ _ _ _ _ _ j H) as (E1 & E2 & _). unfold doomed. by rewrite E1, E2. Qed.
Lemma yield_dooms i th s s' : yield i th s = Ok s' -> dooms s s'.
Proof. intros H. eapply dooms_trans; [|by eapply sched_dooms]. apply dooms_modp. intros p [Hk _]. by split. Qed.

Section exit.
Context {C : Type} `{BO : BufOps C} {U : UserMem kmem} (chan_of : option nat -> Z) (sb : superblock).

Lemma exit_dooms me th status y y' : exit (UM := U) chan_of sb me th status y = Ok y' -> dooms (y_p y) (y_p y').
Proof.
  unfold exit. intros H. destruct (bool_decide _); [discriminate|]. apply rbind_Ok in H as (k & _ & H).
  apply rbind_Ok in H as (s & Hs & H). injection H as <-. cbn [y_p].
  eapply dooms_trans; [|by eapply sched_dooms]. eapply dooms_trans; [|apply dooms_modp; intros p [Hk _]; by split].
  eapply dooms_trans; [|apply wakeup_dooms]. eapply dooms_trans; [|apply reparent_dooms].
  eapply dooms_trans; [|by apply dooms_modp]. cbn [y_p leave_files].
  eapply dooms_trans; [by apply (dooms_procs _ (put_mem (y_p y) (k_u k)))|by apply dooms_modp].
Qed.

Lemma exit_zombie me th status y y' : (me < length (ps_procs (y_p y)))%nat -> exit (UM := U) chan_of sb me th status y = Ok y' ->
  p_state (getp (y_p y') me) = ZOMBIE /\ p_xstate (getp (y_p y') me) = status.
Proof.
  unfold exit. intros Hme H. destruct (bool_decide _); [discriminate|]. apply rbind_Ok in H as (k & _ & H).
  apply rbind_Ok in H as (s & Hs & H). injection H as <-. cbn [y_p].
  destruct (sched_getp _ _ _ _ _ _ _ me Hs) as (_ & -> & ->). rewrite getp_at. rewrite decide_True; [done|]. split; [done|].
  cbn [ps_procs wakeup put_procs]. rewrite length_imap. enough (E : forall m n j s, length (ps_procs (reparent_loop chan_of m n j s)) = length (ps_procs s)).
  { unfold reparent. rewrite E, length_modp. cbn [leave_files y_p]. by rewrite length_modp. }
  intros m n. induction n as [|n IH]; intros j s0; [done|]. cbn [reparent_loop]. rewrite IH. destruct (bool_decide _); [|done].
  cbn [wakeup ps_procs put_procs]. by rewrite length_imap, length_modp.
Qed.
End exit.

(** ** What an interrupt leaves alone: the registers, memory and threads of
    the process it interrupted *)
Record quiet (i : nat) (s s' : psys) : Prop := {
  q_trapframe : p_trapframe (getp s' i) = p_trapframe (getp s i);
  q_pagetable : p_pagetable (getp s' i) = p_pagetable (getp s i);
  q_threads : p_threads (getp s' i) = p_threads (getp s i);
  q_tf : ps_tf s' = ps_tf s;
  q_mem : ps_mem s' = ps_mem s;
}.

Lemma quiet_refl i s : quiet i s s.
Proof. by constructor. Qed.
Lemma quiet_trans i s1 s2 s3 : quiet i s1 s2 -> quiet i s2 s3 -> quiet i s1 s3.
Proof. intros [] []. constructor; congruence. Qed.

Lemma wakeup_quiet i chan s : quiet i s (wakeup (Some i) chan s).
Proof. constructor; rewrite ?getp_wakeup, ?bool_decide_true by done; done. Qed.
Lemma wakeup_if_quiet i b chan s : quiet i s (wakeup_if b (Some i) chan s).
Proof. destruct b; [apply wakeup_quiet|apply quiet_refl]. Qed.
Lemma wakeup_bufs_quiet i buf_chan bs s : quiet i s (wakeup_bufs buf_chan (Some i) bs s).
Proof.
  unfold wakeup_bufs. revert s. induction (elements bs) as [|b l IH]; intros s; [apply quiet_refl|].
  cbn [foldl]. eapply quiet_trans; [apply wakeup_quiet|apply IH].
Qed.

Lemma getp_drop_dead now s j : getp (drop_dead_processes now s) j = drop_dead now (getp s j).
Proof. unfold getp, drop_dead_processes. cbn [ps_procs put_procs]. rewrite list_lookup_fmap. by destruct (ps_procs s !! j). Qed.

Lemma drop_dead_quiet i now s : quiet i s (drop_dead_processes now s).
Proof.
  constructor; rewrite ?getp_drop_dead; try done; unfold drop_dead, kill_proc;
    destruct (_ && _); try done; destruct (_ && _); try done; by destruct (is_state _ _).
Qed.

Section interrupt.
Context (tick_chan cons_chan uart_chan : Z) (buf_chan : nat -> Z) {C : Type}.
Abbreviation clockintr := (clockintr tick_chan).
Abbreviation devintr := (devintr tick_chan cons_chan uart_chan buf_chan).

Lemma clockintr_quiet i (t : kernel (C := C)) : quiet i (mp (t_m t)) (mp (t_m (clockintr (Some i) t))).
Proof.
  unfold Trap.clockintr. destruct (_ =? 0); [|apply quiet_refl]. cbn [on_p t_m set_m mp m_y set_p set_y y_p].
  eapply quiet_trans; [|apply drop_dead_quiet]. by eapply quiet_trans; [|apply wakeup_quiet].
Qed.

Lemma devintr_quiet i h d (t t' : kernel (C := C)) w : devintr (Some i) h d t = Ok (w, t') ->
  quiet i (mp (t_m t)) (mp (t_m t')) /\ m_thread (t_m t') = m_thread (t_m t) /\ m_hart (t_m t') = m_hart (t_m t) /\
  w = (if r_scause h =? SCAUSE_EXTERNAL then 1 else if r_scause h =? SCAUSE_TIMER then 2 else 0).
Proof.
  unfold Trap.devintr. destruct (_ =? SCAUSE_EXTERNAL).
  - intros H. apply rbind_Ok in H as (t1 & H1 & H). injection H as <- <-.
    destruct (_ =? UART0_IRQ); [|destruct (_ =? VIRTIO0_IRQ)].
    + destruct (uartintr _ _ _ _) as [[[[out rd] wr] cs] u]. injection H1 as <-. split_and!; try done.
      cbn [on_p t_m set_m mp m_y set_p set_y y_p]. eapply quiet_trans; apply wakeup_if_quiet.
    + apply rbind_Ok in H1 as (v & _ & H1). injection H1 as <-. split_and!; try done. apply wakeup_bufs_quiet.
    + injection H1 as <-. split_and!; [apply quiet_refl|done..].
  - destruct (_ =? SCAUSE_TIMER); intros H; injection H as <- <-; (split_and!; [|try done..]).
    + apply clockintr_quiet.
    + unfold Trap.clockintr. by destruct (_ =? 0).
    + unfold Trap.clockintr. by destruct (_ =? 0).
    + apply quiet_refl.
Qed.

(** A clock tick on hart 0 dooms every process whose deadline it reaches. *)
Definition expired (now : Z) (p : proc) : Prop :=
  p_state p <> UNUSED /\ p_state p <> ZOMBIE /\ p_deadline p <> u32 (-1) /\ p_deadline p <= now.

Lemma wakeup_proc_expired now chan p : expired now p -> expired now (wakeup_proc chan p).
Proof. unfold wakeup_proc. destruct (_ && _); [|done]. intros (H1 & H2 & H3 & H4). by split_and!. Qed.

Lemma drop_dead_doomed now p : expired now p -> doomed (drop_dead now p).
Proof.
  intros (H1 & H2 & H3 & H4). unfold drop_dead, is_state. rewrite !bool_decide_false by done. cbn [negb andb].
  rewrite (proj2 (Z.eqb_neq _ _) H3), (proj2 (Z.leb_le _ _) H4). cbn [negb andb]. unfold kill_proc, is_state.
  destruct (bool_decide_reflect (p_state (set_killed p true) = SLEEPING)) as [E|E]; by split.
Qed.

Lemma clockintr_dooms i (t : kernel (C := C)) j : m_hart (t_m t) = 0 ->
  expired (u32 (ps_ticks (mp (t_m t)) + 1)) (getp (mp (t_m t)) j) -> doomed (getp (mp (t_m (clockintr (Some i) t))) j).
Proof.
  intros Hh He. unfold Trap.clockintr. rewrite Hh. cbn [Z.eqb on_p t_m set_m mp m_y set_p set_y y_p]. rewrite getp_drop_dead.
  apply drop_dead_doomed. rewrite getp_wakeup. cbn [ps_ticks wakeup put_procs put_ticks].
  destruct (bool_decide _); [exact He|by apply wakeup_proc_expired].
Qed.
End interrupt.

(** ** Going back to user space *)
Lemma tf_get_eq tf n x : (n < length tf)%nat -> tf_get (<[n := x]> tf) n = x.
Proof. intros H. unfold tf_get, nthZ. rewrite Nat2Z.id. by rewrite list_lookup_insert_eq. Qed.
Lemma tf_get_ne tf n m x : n <> m -> tf_get (<[n := x]> tf) m = tf_get tf m.
Proof. intros H. unfold tf_get, nthZ. rewrite Nat2Z.id. by rewrite list_lookup_insert_ne. Qed.
Lemma get_tf_eq s pa tf : get_tf (mod_tf s pa tf) pa = tf.
Proof. unfold get_tf, mod_tf. cbn [ps_tf put_tf]. by rewrite lookup_insert_eq. Qed.

(** What userret finds: user mode with interrupts on after sret, the user page
    table, the saved program counter, and what uservec needs next time. *)
Record user_ready (usertrap_at uservec_at userret_at satp : Z) (i : nat) (u : uret) {C : Type} (m : machine (C := C)) : Prop := {
  ur_user : Z.testbit (u_sstatus u) 8 = false;
  ur_intr : Z.testbit (u_sstatus u) 5 = true;
  ur_stvec : u_stvec u = uservec_at;
  ur_entry : u_entry u = userret_at;
  ur_sepc : u_sepc u = tf_get (regs i m) TF_epc;
  ur_satp : u_satp u = MAKE_SATP (p_pagetable (caller i m));
  ur_kernel : (5 <= length (regs i m))%nat ->
    tf_get (regs i m) TF_kernel_satp = satp /\ tf_get (regs i m) TF_kernel_sp = p_kstack (caller i m) + PGSIZE /\
    tf_get (regs i m) TF_kernel_trap = usertrap_at /\ tf_get (regs i m) TF_kernel_hartid = m_hart m;
}.

Lemma quiet_regs {C} i (m m' : machine (C := C)) : quiet i (mp m) (mp m') -> regs i m' = regs i m.
Proof. intros []. unfold regs, caller, get_tf. congruence. Qed.
Lemma set_epc_regs {C} i f (t : kernel (C := C)) :
  regs i (t_m (set_epc i f t)) = <[TF_epc := f (tf_get (regs i (t_m t)) TF_epc)]> (regs i (t_m t)).
Proof. unfold regs, caller, mp. cbn [set_epc on_p t_m set_m set_p set_y m_y y_p]. apply get_tf_eq. Qed.

Section back.
Context (trampoline uservec userret usertrap_at : Z) {C : Type}.
Abbreviation ready satp i u m := (user_ready usertrap_at (TRAMPOLINE + (uservec - trampoline)) (TRAMPOLINE + (userret - trampoline)) satp i u m).

Lemma user_sstatus x : Z.testbit (Z.lor (Z.land x (Z.lnot SSTATUS_SPP)) SSTATUS_SPIE) 8 = false /\
  Z.testbit (Z.lor (Z.land x (Z.lnot SSTATUS_SPP)) SSTATUS_SPIE) 5 = true.
Proof. rewrite !Z.lor_spec, !Z.land_spec. change (Z.testbit (Z.lnot SSTATUS_SPP) 8) with false. change (Z.testbit SSTATUS_SPIE 5) with true.
  change (Z.testbit SSTATUS_SPIE 8) with false. by rewrite andb_false_r, orb_true_r. Qed.

Lemma back_ready i sstatus satp (t t' : kernel (C := C)) e :
  back trampoline uservec userret usertrap_at i sstatus satp t = Ok (e, t') ->
  exists u, e = UReturn u /\ ready satp i u (t_m t') /\ killed i (mp (t_m t')) = killed i (mp (t_m t)) /\
    caller i (t_m t') = caller i (t_m t) /\ ps_mem (mp (t_m t')) = ps_mem (mp (t_m t)) /\
    forall r, (r = TF_epc \/ 5 <= r)%nat -> tf_get (regs i (t_m t')) r = tf_get (regs i (t_m t)) r.
Proof.
  unfold back. destruct (usertrapret _ _ _ _ _ _ _ _) as [u t1] eqn:E. intros H. injection H as <- <-. exists u. split; [done|].
  unfold usertrapret in E. injection E as <- <-. set (tf := <[TF_kernel_hartid := _]> _).
  assert (Er : regs i (set_p (t_m t) (mod_tf (mp (t_m t)) (p_trapframe (caller i (t_m t))) tf)) = tf) by (unfold regs, caller, mp; apply get_tf_eq).
  cbn [on_p t_m set_m]. destruct (user_sstatus (intr_off sstatus)) as [S1 S2]. split_and!; try done.
  - constructor; try done; rewrite Er; [done|]. intros Hl. unfold tf in Hl. rewrite !length_insert in Hl.
    unfold tf, TF_kernel_hartid, TF_kernel_trap, TF_kernel_sp, TF_kernel_satp.
    split_and!; repeat first [rewrite tf_get_eq by (rewrite ?length_insert; lia) | rewrite tf_get_ne by lia]; done.
  - intros r Hr. rewrite Er. unfold tf, TF_kernel_hartid, TF_kernel_trap, TF_kernel_sp, TF_kernel_satp. unfold TF_epc in Hr.
    by rewrite !tf_get_ne by lia.
Qed.
End back.

Section user.
Context (kernel_end trampoline uservec userret usertrap_at forkret ustack_at kbuf_at countbuf rbuf : Z).
Context (chan_of : option nat -> Z) (tick_chan cons_chan uart_chan : Z) (buf_chan : nat -> Z).
Context {C : Type} `{BO : BufOps C} (sb : superblock).
Context (devread devwrite : Z -> option (Z -> Z -> kst C kmem -> res (Z * kst C kmem))) (oob : Z -> option nat) (junk : list Z) (rjunk : report) (quota_fuel : nat).
Abbreviation ready satp i u m := (user_ready usertrap_at (TRAMPOLINE + (uservec - trampoline)) (TRAMPOLINE + (userret - trampoline)) satp i u m).
Abbreviation tail := (usertrap_tail kernel_end trampoline uservec userret usertrap_at kbuf_at chan_of sb).
Abbreviation usertrap := (usertrap kernel_end trampoline uservec userret usertrap_at forkret ustack_at kbuf_at countbuf rbuf
  chan_of tick_chan cons_chan uart_chan buf_chan sb devread devwrite oob junk rjunk quota_fuel).

Lemma die_exits i (t t' : kernel (C := C)) e : die kernel_end kbuf_at chan_of sb i t = Ok (e, t') ->
  e = UExit /\ dooms (mp (t_m t)) (mp (t_m t')) /\
  ((i < length (ps_procs (mp (t_m t))))%nat -> p_state (caller i (t_m t')) = ZOMBIE /\ p_xstate (caller i (t_m t')) = -1).
Proof.
  unfold die. intros H. apply rbind_Ok in H as (y & Hy & H). injection H as <- <-. split; [done|]. split.
  - by apply exit_dooms in Hy.
  - intros Hi. by apply exit_zombie in Hy.
Qed.

Lemma tail_outcome i w sstatus satp (t t' : kernel (C := C)) e : tail i w sstatus satp t = Ok (e, t') ->
  match e with
  | UReturn u => ready satp i u (t_m t') /\ killed i (mp (t_m t')) = false
  | USwitch => w = 2
  | USleep => False
  | UExit => True
  end.
Proof.
  unfold usertrap_tail. destruct (killed i (mp (t_m t))) eqn:Hk.
  - intros H. by apply die_exits in H as [-> _].
  - destruct (Z.eqb_spec w 2) as [->|].
    + intros H. apply rbind_Ok in H as (s & _ & H). by injection H as <- <-.
    + intros H. apply back_ready in H as (u & -> & Hu & Ek & _). split; [done|congruence].
Qed.

(** Whenever usertrap sends a process back to user space, the trampoline
    goes there in user mode with interrupts enabled, with the page table and
    the saved program counter of that process, and the trapframe says how to
    come back to this hart's kernel; and the process has not been killed,
    unless the trap is a fault with return address -1, the end of a thread. *)
Theorem user_return_safe i h satp d (t t' : kernel (C := C)) u :
  usertrap i h satp d t = Ok (UReturn u, t') ->
  ready satp i u (t_m t') /\
  (killed i (mp (t_m t')) = false \/
   r_scause h <> SCAUSE_ECALL /\ r_scause h <> SCAUSE_EXTERNAL /\ r_scause h <> SCAUSE_TIMER /\
   tf_get (regs i (t_m t)) TF_ra = u64 (-1)).
Proof.
  unfold Trap.usertrap. destruct (negb _); [discriminate|]. cbv zeta. destruct (Z.eqb_spec (r_scause h) SCAUSE_ECALL) as [|H8].
  - destruct (killed _ _); [intros H; by apply die_exits in H as [? _]|]. intros H. apply rbind_Ok in H as ([f m] & _ & H).
    destruct f; try discriminate H. apply tail_outcome in H as [? ?]. auto.
  - intros H. apply rbind_Ok in H as ([w t1] & Hd & H). apply devintr_quiet in Hd as (Hq & _ & _ & Ew).
    destruct (Z.eqb_spec w 0) as [->|]; cbn [negb] in H; [|apply tail_outcome in H as [? ?]; auto].
    assert (Hn : r_scause h <> SCAUSE_EXTERNAL /\ r_scause h <> SCAUSE_TIMER)
      by (destruct (Z.eqb_spec (r_scause h) SCAUSE_EXTERNAL), (Z.eqb_spec (r_scause h) SCAUSE_TIMER); done).
    unfold usertrap_fault in H. destruct (Z.eqb_spec (tf_get (regs i (t_m t1)) TF_ra) (u64 (-1))) as [Hra|].
    + apply rbind_Ok in H as ([f m] & _ & H). destruct f; try discriminate H. apply back_ready in H as (u' & Eu & Hu & _).
      injection Eu as <-. rewrite (quiet_regs _ _ _ Hq), set_epc_regs, tf_get_ne in Hra by done. destruct Hn. split; [done|]. right. by split_and!.
    + apply rbind_Ok in H as ([l k] & _ & H). apply tail_outcome in H as [? ?]. auto.
Qed.

(** ** Interrupts are transparent *)

(** Where the registers of process [i] are while it does not run: sched copies
    them to the trapframe of the current thread. *)
Definition home (th : option nat) (p : proc) : Z :=
  match th with
  | Some j => if is_thread (getth p j) THREAD_FREE then p_trapframe p else th_trapframe (getth p j)
  | None => p_trapframe p
  end.

Lemma sched_saves i th held noff intr s s' : sched i th held noff intr s = Ok s' ->
  get_tf s' (home th (getp s i)) = get_tf s (p_trapframe (getp s i)) /\ ps_mem s' = ps_mem s.
Proof.
  intros H. unfold sched in H. destruct (negb held); [discriminate|]. destruct (negb (noff =? 1)); [discriminate|].
  destruct (is_state _ _ && _); [discriminate|]. destruct intr; [discriminate|]. injection H as <-. unfold home. destruct th as [j|]; [|done].
  destruct (is_thread _ _); cbn [negb]; [done|]. destruct (Z.eqb_spec (th_trapframe (getth (getp s i) j)) (p_trapframe (getp s i))) as [E|E]; cbn [negb].
  - by rewrite E.
  - split; [|done]. apply get_tf_eq.
Qed.

Lemma yield_saves i th s s' : yield i th s = Ok s' ->
  get_tf s' (home th (getp s i)) = get_tf s (p_trapframe (getp s i)) /\ ps_mem s' = ps_mem s.
Proof.
  unfold yield. intros H. apply sched_saves in H as [H ->]. split; [|done]. rewrite getp_at in H. by destruct (decide _).
Qed.

Lemma quiet_home i th s s' : quiet i s s' -> home th (getp s' i) = home th (getp s i).
Proof. intros [E1 _ E3 _ _]. unfold home, getth. by rewrite E1, E3. Qed.

(** A program does not notice an interrupt.  After a device or timer
    interrupt of a process that is not killed, either it goes straight back
    to the interrupted instruction, or it has given up the hart; in both cases
    every user register and the program counter are kept, in the trapframe the
    trampoline restores or where the scheduler will find them, and no byte of
    memory has changed. *)
Theorem interrupt_transparent i h satp d (t t' : kernel (C := C)) e :
  usertrap i h satp d t = Ok (e, t') -> r_scause h = SCAUSE_EXTERNAL \/ r_scause h = SCAUSE_TIMER ->
  e <> UExit -> length (regs i (t_m t)) = 36%nat ->
  let saved := match e with USwitch => home (m_thread (t_m t)) (caller i (t_m t)) | _ => p_trapframe (caller i (t_m t')) end in
  match e with
  | UReturn u => r_scause h = SCAUSE_EXTERNAL /\ u_sepc u = r_sepc h /\ u_satp u = MAKE_SATP (p_pagetable (caller i (t_m t)))
  | USwitch => r_scause h = SCAUSE_TIMER
  | _ => False
  end /\
  tf_get (get_tf (mp (t_m t')) saved) TF_epc = r_sepc h /\
  (forall r, (5 <= r)%nat -> tf_get (get_tf (mp (t_m t')) saved) r = tf_get (regs i (t_m t)) r) /\
  ps_mem (mp (t_m t')) = ps_mem (mp (t_m t)).
Proof.
  unfold Trap.usertrap. destruct (negb _); [discriminate|]. cbv zeta. intros H Hs He Hl.
  assert (Ec : (r_scause h =? SCAUSE_ECALL) = false) by (destruct Hs as [-> | ->]; done). rewrite Ec in H.
  apply rbind_Ok in H as ([w t1] & Hd & H). apply devintr_quiet in Hd as (Hq & Eth & _ & Ew).
  assert (Hw : w = if r_scause h =? SCAUSE_EXTERNAL then 1 else 2) by (rewrite Ew; by destruct Hs as [-> | ->]).
  assert (Hw0 : (w =? 0) = false) by (rewrite Hw; by destruct (_ =? _)). rewrite Hw0 in H. cbn [negb] in H.
  pose proof (set_epc_regs i (fun _ => r_sepc h) t) as Er. pose proof (quiet_regs _ _ _ Hq) as Eq. rewrite Er in Eq.
  assert (Hpc : tf_get (regs i (t_m t1)) TF_epc = r_sepc h) by (rewrite Eq; apply tf_get_eq; rewrite Hl; unfold TF_epc; lia).
  assert (Hrs : forall r, (5 <= r)%nat -> tf_get (regs i (t_m t1)) r = tf_get (regs i (t_m t)) r)
    by (intros r Hr; rewrite Eq; apply tf_get_ne; unfold TF_epc; lia).
  unfold usertrap_tail in H. destruct (killed i (mp (t_m t1))); [by apply die_exits in H as [-> _]|].
  destruct (Z.eqb_spec w 2) as [Ew2|Ew2].
  - apply rbind_Ok in H as (s & Hy & H). injection H as <- <-. apply yield_saves in Hy as [Hy Em].
    rewrite (quiet_home _ _ _ _ Hq), Eth in Hy. cbn [t_m set_m mp set_p set_y m_y y_p].
    split; [destruct Hs as [Hs|Hs]; [rewrite Hs in Hw; cbn in Hw; lia|done]|].
    change (get_tf (mp (t_m t1)) (p_trapframe (getp (mp (t_m t1)) i))) with (regs i (t_m t1)) in Hy.
    rewrite Em. destruct Hq as [_ _ _ _ ->].
    split_and!; [by rewrite <- Hpc; f_equal|intros r Hr; rewrite <- Hrs by done; by f_equal|done].
  - apply back_ready in H as (u & -> & Hu & _ & Ep & Em & Hr). change (get_tf (mp (t_m t')) (p_trapframe (caller i (t_m t')))) with (regs i (t_m t')).
    split_and!.
    + destruct Hs as [Hs|Hs]; [done|]. rewrite Hs in Hw. cbn in Hw. lia.
    + rewrite (ur_sepc _ _ _ _ _ _ _ Hu), Hr by auto. done.
    + rewrite (ur_satp _ _ _ _ _ _ _ Hu), Ep. destruct Hq as [_ Q2 _ _ _]. f_equal. exact Q2.
    + rewrite Hr by auto. done.
    + intros r Hr5. rewrite Hr by auto. by apply Hrs.
    + rewrite Em. by destruct Hq.
Qed.

Lemma tail_dooms i w sstatus satp (t t' : kernel (C := C)) e : tail i w sstatus satp t = Ok (e, t') -> dooms (mp (t_m t)) (mp (t_m t')).
Proof.
  unfold usertrap_tail. destruct (killed _ _); [intros H; by apply die_exits in H as (_ & ? & _)|]. destruct (w =? 2).
  - intros H. apply rbind_Ok in H as (s & Hy & H). injection H as <- <-. by apply yield_dooms in Hy.
  - unfold back. destruct (usertrapret _ _ _ _ _ _ _ _) as [u t1] eqn:E. intros H. injection H as <- <-. unfold usertrapret in E.
    injection E as <- <-. by apply dooms_procs.
Qed.

(** C14: deadlines are enforced by the clock.  When hart 0 takes a timer
    interrupt from user space, every process in use whose deadline the new
    tick reaches is killed and no longer asleep when the handler is done; and
    if the interrupted process is one of them it does not return to user
    space: it is a zombie with status -1. *)
Theorem deadline_enforced i h satp d (t t' : kernel (C := C)) e :
  usertrap i h satp d t = Ok (e, t') -> r_scause h = SCAUSE_TIMER -> m_hart (t_m t) = 0 ->
  let now := u32 (ps_ticks (mp (t_m t)) + 1) in
  (forall j, expired now (caller j (t_m t)) -> killed j (mp (t_m t')) = true /\ p_state (caller j (t_m t')) <> SLEEPING) /\
  (expired now (caller i (t_m t)) -> e = UExit /\ p_state (caller i (t_m t')) = ZOMBIE /\ p_xstate (caller i (t_m t')) = -1).
Proof.
  unfold Trap.usertrap. destruct (negb _); [discriminate|]. cbv zeta. intros H Hs Hh. rewrite Hs in H. cbn [Z.eqb] in H.
  apply rbind_Ok in H as ([w t1] & Hd & H). unfold devintr in Hd. rewrite Hs in Hd. injection Hd as <- <-. cbn [negb Z.eqb] in H.
  set (t0 := set_epc i (fun _ => r_sepc h) t) in *.
  assert (Hdoom : forall j, expired (u32 (ps_ticks (mp (t_m t)) + 1)) (caller j (t_m t)) -> doomed (getp (mp (t_m (clockintr tick_chan (Some i) t0))) j)).
  { intros j Hj. by apply (clockintr_dooms tick_chan i t0 j). }
  split.
  - intros j Hj. apply (tail_dooms _ _ _ _ _ _ _ H), Hdoom, Hj.
  - intros Hi. pose proof (Hdoom i Hi) as [Hk _]. unfold usertrap_tail in H. unfold killed in H. rewrite Hk in H.
    apply die_exits in H as (-> & _ & Hz). split; [done|]. apply Hz.
    unfold clockintr. change (m_hart (t_m t0)) with (m_hart (t_m t)). rewrite Hh. cbn [Z.eqb on_p t_m set_m mp m_y set_p set_y y_p].
    cbn [drop_dead_processes ps_procs put_procs wakeup put_ticks]. rewrite length_fmap, length_imap. change (mp (t_m t0)) with (y_p (m_y (t_m t0))).
    destruct (decide (i < length (ps_procs (mp (t_m t))))%nat) as [|Hge]; [done|]. exfalso. destruct Hi as [Hi _]. apply Hi.
    unfold caller, getp. by rewrite (proj2 (lookup_ge_None _ _)) by lia.
Qed.

(** A process without threads that faults with return address -1 is not
    killed: it goes back to the instruction that faulted. *)
Theorem fault_without_thread_resumes i h satp d (t : kernel (C := C)) :
  Z.land (r_sstatus h) SSTATUS_SPP = 0 -> r_scause h <> SCAUSE_ECALL -> r_scause h <> SCAUSE_EXTERNAL -> r_scause h <> SCAUSE_TIMER ->
  length (regs i (t_m t)) = 36%nat -> tf_get (regs i (t_m t)) TF_ra = u64 (-1) -> m_thread (t_m t) = None ->
  exists u t', usertrap i h satp d t = Ok (UReturn u, t') /\ u_sepc u = r_sepc h /\
    killed i (mp (t_m t')) = killed i (mp (t_m t)) /\ m_reports (t_m t') = m_reports (t_m t).
Proof.
  intros H0 H1 H2 H3 Hl Hra Hth. unfold Trap.usertrap. rewrite H0. cbn [Z.eqb negb]. rewrite (proj2 (Z.eqb_neq _ _) H1). unfold devintr.
  rewrite (proj2 (Z.eqb_neq _ _) H2), (proj2 (Z.eqb_neq _ _) H3). cbn [rbind Z.eqb negb]. unfold usertrap_fault.
  rewrite set_epc_regs, tf_get_ne, Hra, Z.eqb_refl by done. unfold cleanup. change (m_thread (t_m (set_epc i _ t))) with (m_thread (t_m t)).
  rewrite Hth. cbn [rbind ret]. set (t0 := set_m _ _). destruct (back _ _ _ _ i (r_sstatus h) satp t0) as [[e t']| |] eqn:E; [|done|done].
  apply back_ready in E as E'. destruct E' as (u & -> & Hu & Ek & _ & _ & Hr). exists u, t'. split; [done|]. split_and!.
  - rewrite (ur_sepc _ _ _ _ _ _ _ Hu), Hr by auto. change (t_m t0) with (t_m (set_epc i (fun _ => r_sepc h) t)).
    rewrite set_epc_regs. apply tf_get_eq. rewrite Hl. unfold TF_epc. lia.
  - by rewrite Ek.
  - unfold back in E. destruct (usertrapret _ _ _ _ _ _ _ _) as [u1 t1] eqn:Eu. injection E as <- <-. unfold usertrapret in Eu. by injection Eu as <- <-.
Qed.
End user.

(** A machine with init, a process running with deadline 5, and one asleep
    with deadline 4, at tick 4 *)
Definition demo_regs : trapframe := <[TF_a0 := 77]> (replicate 36 0).
Definition demo_procs : list proc := [
  set_state proc0 SLEEPING;
  set_deadline (set_cwd (set_parent (set_running (set_trapframe (set_state proc0 RUNNING) 4096) 1) (Some 0%nat)) (Some 0%nat)) 5;
  set_deadline (set_chan (set_state proc0 SLEEPING) 9) 4].
Definition demo_machine : machine (C := acache) :=
  mkMach (mkKs (mkPs demo_procs (Some 0%nat) 4 1 4 {[ 4096 := demo_regs ]} (mkKmem ∅ 0))
            (mkK (mkFs (mkLog 2 30 0 0 1 0 (replicate 30 0), mkA {[ 45 := demo_bitmap ]} ∅ []) [mkInode 1 1 3 initsleeplock true T_DIR 0 0 1 0 (replicate 13 0)])
               [] [] ∅ (mkKmem ∅ 0) [] 0%nat))
    empty_ring 0 0 None.
Definition demo_kernel : kernel (C := acache) :=
  mkKern demo_machine (mkCons (replicate 128 0) 0 0 0) (mkUart (replicate 32 0) 0 0) vdisk0 [].
Abbreviation demo_trap scause :=
  (usertrap (BO := acache_ops) KERNBASE 0 0 16 512 0 0 0 0 0 (fun _ => 1) 2 3 4 (fun _ => 5) demo_sb (fun _ => None) (fun _ => None) (fun _ => None) [] report0 0
    1 (mkCsrs 0 scause 1234 0) 99 (mkDev UART0_IRQ [104; 105; 10] 8) demo_kernel).

Lemma user_return_safe_witness : exists u t',
  demo_trap SCAUSE_EXTERNAL = Ok (UReturn u, t') /\ Z.testbit (u_sstatus u) 8 = false /\ killed 1 (mp (t_m t')) = false.
Proof.
  assert (H : (match demo_trap SCAUSE_EXTERNAL with Ok (UReturn _, _) => true | _ => false end) = true) by (vm_compute; reflexivity).
  destruct (demo_trap SCAUSE_EXTERNAL) as [[[u| | |] t']| |] eqn:E; [|discriminate H..]. exists u, t'. apply user_return_safe in E as E'.
  destruct E' as [Hu [Hk|[_ [Hn _]]]]; [|destruct (Hn eq_refl)]. split_and!; [reflexivity|exact (ur_user _ _ _ _ _ _ _ Hu)|exact Hk].
Defined.

Lemma interrupt_transparent_witness : exists u t',
  demo_trap SCAUSE_EXTERNAL = Ok (UReturn u, t') /\ u_sepc u = 1234 /\ tf_get (regs 1 (t_m t')) TF_a0 = 77.
Proof.
  assert (H : (match demo_trap SCAUSE_EXTERNAL with Ok (UReturn _, _) => true | _ => false end) = true) by (vm_compute; reflexivity).
  destruct (demo_trap SCAUSE_EXTERNAL) as [[[u| | |] t']| |] eqn:E; [|discriminate H..]. exists u, t'. apply interrupt_transparent in E as E';
    [|left; reflexivity|discriminate|vm_compute; reflexivity]. destruct E' as ((_ & Hpc & _) & _ & Hr & _).
  split_and!; [reflexivity|exact Hpc|]. unfold regs. rewrite Hr by (unfold TF_a0; lia). vm_compute. reflexivity.
Defined.

Lemma deadline_enforced_witness : exists t',
  demo_trap SCAUSE_TIMER = Ok (UExit, t') /\ p_state (caller 1 (t_m t')) = ZOMBIE /\ killed 2 (mp (t_m t')) = true.
Proof.
  assert (H : (match demo_trap SCAUSE_TIMER with Ok _ => true | _ => false end) = true) by (vm_compute; reflexivity).
  destruct (demo_trap SCAUSE_TIMER) as [[e t']| |] eqn:E; [|discriminate H..].
  destruct (deadline_enforced _ _ _ _ _ _ _ _ _ _ _ _ _ _ _ _ _ _ _ _ _ _ _ _ _ _ _ _ _ E) as [Hall Hme]; [reflexivity|reflexivity|].
  assert (X1 : expired 5 (caller 1 demo_machine)) by (split_and!; vm_compute; discriminate).
  assert (X2 : expired 5 (caller 2 demo_machine)) by (split_and!; vm_compute; discriminate).
  destruct (Hme X1) as (-> & Hz & _). destruct (Hall 2%nat X2) as [Hk _]. exists t'. split_and!; [reflexivity|exact Hz|exact Hk].
Defined.
