(* ===== verification/AsmProps.v ===== *)
(** * What the assembly of the kernel guarantees

    Runs of stores and loads against one base register are summarised once
    ([exec_stores], [exec_loads]); the theorems about the trap entry and exit,
    the context switch, kernel interrupts and the boot entry follow from them
    and from the tables of registers and offsets. *)

From S2P Require Import Prelude Riscv Mem Kalloc Vm Sleeplock Block Bio Log Txn Fs FsProps Pipe File Sysfile Proc Sched Thread ProcInfo ProcLife Report Exec Syscall Console Virtio Trap Asm.

Abbreviation slots := (list (reg * Z)).
Definition stores (b : reg) (l : slots) : list instr := (fun '(r, o) => SD r o b) <$> l.
Definition loads (b : reg) (l : slots) : list instr := (fun '(r, o) => LD r o b) <$> l.

(** The memory after storing, and the registers after loading, [l] at [pa]. *)
Fixpoint stored (m : mem) (pa : Z) (f : reg -> Z) (l : slots) : mem :=
  match l with [] => m | (r, o) :: l' => stored (store64 m (pa + o) (f r)) pa f l' end.
Fixpoint loaded (f : reg -> Z) (m : mem) (pa : Z) (l : slots) : reg -> Z :=
  match l with [] => f | (r, o) :: l' => loaded (fun q => if decide (q = r) then load64 m (pa + o) else f q) m pa l' end.

Definition apart (o : Z) (l : slots) : Prop := Forall (fun s => o + 8 <= s.2 \/ s.2 + 8 <= o) l.

Lemma load_stored_out m pa f l o : apart o l -> load64 (stored m pa f l) (pa + o) = load64 m (pa + o).
Proof.
  revert m. induction l as [|[r o'] l IH]; intros m Ha; [done|]. inversion_clear Ha as [|? ? H1 H2]. cbn [stored].
  rewrite IH by done. apply load64_store64_ne. simpl in H1. lia.
Qed.

Lemma rd_stored_out m pa f l b : Forall (fun s => b < pa + s.2 \/ pa + s.2 + 8 <= b) l -> rd (stored m pa f l) b = rd m b.
Proof.
  revert m. induction l as [|[r o'] l IH]; intros m Ha; [done|]. inversion_clear Ha as [|? ? H1 H2]. cbn [stored].
  rewrite IH by done. apply rd_store64_ne. simpl in H1. lia.
Qed.

(** Offsets that do not overlap. *)
Fixpoint spaced (l : slots) : Prop := match l with [] => True | (_, o) :: l' => apart o l' /\ spaced l' end.

Lemma load_stored_in m pa f l r o : spaced l -> (r, o) ∈ l -> 0 <= f r < 2 ^ 64 -> load64 (stored m pa f l) (pa + o) = f r.
Proof.
  intros Hs Hin Hr. revert m. induction l as [|[r' o'] l IH]; intros m; [by apply not_elem_of_nil in Hin|].
  destruct Hs as [Ha Hs]. cbn [stored]. apply elem_of_cons in Hin as [[= <- <-]|Hin].
  - rewrite load_stored_out by done. by apply load64_store64_eq.
  - by apply IH.
Qed.

Lemma loaded_out f m pa l r : r ∉ l.*1 -> loaded f m pa l r = f r.
Proof.
  revert f. induction l as [|[r' o'] l IH]; intros f Hr; [done|]. cbn [loaded]. cbn [fmap list_fmap fst] in Hr.
  apply not_elem_of_cons in Hr as [Hne Hr]. rewrite IH by done. by rewrite decide_False.
Qed.

Lemma loaded_in f m pa l r o : NoDup l.*1 -> (r, o) ∈ l -> loaded f m pa l r = load64 m (pa + o).
Proof.
  intros Hn Hin. revert f. induction l as [|[r' o'] l IH]; intros f; [by apply not_elem_of_nil in Hin|].
  cbn [fmap list_fmap fst] in Hn. apply NoDup_cons in Hn as [Hr Hn]. cbn [loaded]. apply elem_of_cons in Hin as [[= <- <-]|Hin].
  - rewrite loaded_out by done. by rewrite decide_True.
  - by apply IH.
Qed.

(** ** Blocks of stores and loads *)
Section blocks.
Context (translate : Z -> Z -> option Z).

(** The slots of [l] from virtual address [va] on lie at [pa]. *)
Definition window (satp va pa : Z) (l : slots) : Prop := Forall (fun s => translate satp (u64 (va + s.2)) = Some (pa + s.2)) l.

Lemma exec_li r v l x : exec translate (LI r v :: l) x = exec translate l (next (setr x r (u64 v))).
Proof. reflexivity. Qed.
Lemma exec_addi r s v l x : exec translate (ADDI r s v :: l) x = exec translate l (next (setr x r (u64 (getr x s + v)))).
Proof. reflexivity. Qed.
Lemma exec_csrw c r l x : exec translate (CSRW c r :: l) x = exec translate l (next (setc x c (getr x r))).
Proof. reflexivity. Qed.
Lemma exec_csrr c r l x : exec translate (CSRR r c :: l) x = exec translate l (next (setr x r (x_csr x c))).
Proof. reflexivity. Qed.
Lemma exec_fence l x : exec translate (SFENCE_VMA :: l) x = exec translate l (next x).
Proof. reflexivity. Qed.
Lemma exec_ld r o b l x pa : addr_of translate x b o = Some pa -> exec translate (LD r o b :: l) x = exec translate l (next (setr x r (load64 (x_mem x) pa))).
Proof. intros E. cbn [exec]. by rewrite E. Qed.

Lemma exec_stores b l rest x pa :
  window (x_csr x C_satp) (getr x b) pa l ->
  exec translate (stores b l ++ rest) x =
  exec translate rest (mkHart (x_pc x + 4 * Z.of_nat (length l)) (x_regs x) (x_csr x) (stored (x_mem x) pa (getr x) l)).
Proof.
  revert x. induction l as [|[r o] l IH]; intros x Hw.
  - cbn [stores fmap list_fmap app length stored]. replace (x_pc x + 4 * Z.of_nat 0) with (x_pc x) by lia. by destruct x.
  - inversion_clear Hw as [|? ? H1 H2]. cbn [stores fmap list_fmap app exec]. unfold addr_of. simpl in H1. rewrite H1.
    fold (stores b l). rewrite IH by done. cbn [next setm x_pc x_regs x_csr x_mem stored length]. f_equal. f_equal. lia.
Qed.

Lemma exec_loads b l rest x pa :
  b ∉ l.*1 -> ZERO ∉ l.*1 -> window (x_csr x C_satp) (getr x b) pa l ->
  exec translate (loads b l ++ rest) x =
  exec translate rest (mkHart (x_pc x + 4 * Z.of_nat (length l)) (loaded (x_regs x) (x_mem x) pa l) (x_csr x) (x_mem x)).
Proof.
  revert x. induction l as [|[r o] l IH]; intros x Hb Hz Hw.
  - cbn [loads fmap list_fmap app length loaded]. replace (x_pc x + 4 * Z.of_nat 0) with (x_pc x) by lia. by destruct x.
  - inversion_clear Hw as [|? ? H1 H2]. cbn [fmap list_fmap fst] in Hb, Hz. apply not_elem_of_cons in Hb as [Hbr Hb], Hz as [Hzr Hz].
    cbn [loads fmap list_fmap app exec]. unfold addr_of. simpl in H1. rewrite H1. fold (loads b l). rewrite IH; auto.
    + cbn [next setr x_pc x_regs x_csr x_mem loaded length]. f_equal. f_equal. lia.
    + assert (Eb : getr (next (setr x r (load64 (x_mem x) (pa + o)))) b = getr x b).
      { unfold getr. destruct b; cbn [next setr x_regs]; try done; by rewrite decide_False. }
      rewrite Eb. exact H2.
Qed.
End blocks.

(** ** The trapframe *)

(** struct trapframe of proc.h: the word of each register *)
Definition tf_index (r : reg) : nat :=
  match r with
  | ZERO => 0 | RA => 5 | SP => 6 | GP => 7 | TP => 8 | T0 => 9 | T1 => 10 | T2 => 11 | S0 => 12 | S1 => 13
  | A0 => 14 | A1 => 15 | A2 => 16 | A3 => 17 | A4 => 18 | A5 => 19 | A6 => 20 | A7 => 21
  | S2 => 22 | S3 => 23 | S4 => 24 | S5 => 25 | S6 => 26 | S7 => 27 | S8 => 28 | S9 => 29 | S10 => 30 | S11 => 31
  | T3 => 32 | T4 => 33 | T5 => 34 | T6 => 35
  end%nat.
Definition tf_at (m : mem) (frame : Z) : trapframe := (fun i => load64 m (frame + 8 * i)) <$> seqZ 0 36.

Lemma tf_get_at m frame i : (i < 36)%nat -> tf_get (tf_at m frame) i = load64 m (frame + 8 * Z.of_nat i).
Proof.
  intros Hi. unfold tf_get, nthZ, tf_at. rewrite Nat2Z.id, list_lookup_fmap, lookup_seqZ_lt by lia. reflexivity.
Qed.

Definition tf_regs : list reg :=
  [RA; SP; GP; TP; T0; T1; T2; S0; S1; A1; A2; A3; A4; A5; A6; A7; S2; S3; S4; S5; S6; S7; S8; S9; S10; S11; T3; T4; T5; T6].
Definition tf_slots : slots := (fun r => (r, 8 * Z.of_nat (tf_index r))) <$> tf_regs.

Lemma uservec_eq : uservec =
  [CSRW C_sscratch A0; LI A0 TRAPFRAME] ++ stores A0 tf_slots ++ [CSRR T0 C_sscratch] ++ stores A0 [(T0, 112)] ++
  loads A0 [(SP, 8); (TP, 32); (T0, 16); (T1, 0)] ++ [SFENCE_VMA; CSRW C_satp T1; SFENCE_VMA; JR T0].
Proof. reflexivity. Qed.

Lemma userret_eq : userret =
  [SFENCE_VMA; CSRW C_satp A0; SFENCE_VMA; LI A0 TRAPFRAME] ++ loads A0 tf_slots ++ [LD A0 112 A0; SRET].
Proof. reflexivity. Qed.

Lemma tf_reg_in r : r <> ZERO -> r <> A0 -> r ∈ tf_regs.
Proof. intros H1 H2. destruct r; try done; apply (bool_decide_unpack _); vm_compute; exact I. Qed.

Lemma tf_slot_in r : r <> ZERO -> r <> A0 -> (r, 8 * Z.of_nat (tf_index r)) ∈ tf_slots.
Proof. intros H1 H2. apply list_elem_of_fmap. exists r. split; [done|by apply tf_reg_in]. Qed.

Fixpoint spacedb (l : slots) : bool :=
  match l with [] => true | (_, o) :: l' => forallb (fun s => (o + 8 <=? s.2) || (s.2 + 8 <=? o)) l' && spacedb l' end.
Lemma spacedb_ok l : spacedb l = true -> spaced l.
Proof.
  induction l as [|[r o] l IH]; [done|]. cbn [spacedb spaced]. intros [H1 H2]%andb_true_iff. split; [|auto].
  rewrite forallb_forall in H1. apply Forall_forall. intros s Hs. specialize (H1 s ltac:(by apply list_elem_of_In)).
  apply orb_true_iff in H1 as [H1%Z.leb_le|H1%Z.leb_le]; auto.
Qed.

Lemma tf_slots_spaced : spaced tf_slots.
Proof. apply spacedb_ok. vm_compute. reflexivity. Qed.
Lemma tf_slots_regs : NoDup tf_slots.*1 /\ (A0 ∉ tf_slots.*1) /\ (ZERO ∉ tf_slots.*1).
Proof. split_and!; apply (bool_decide_unpack _); vm_compute; exact I. Qed.
Lemma tf_slots_offsets : Forall (fun s => 40 <= s.2 <= 280 /\ (s.2 + 8 <= 112 \/ 120 <= s.2)) tf_slots.
Proof. apply (bool_decide_unpack _). vm_compute. exact I. Qed.

(** Virtual page [va] is physical page [pa]. *)
Definition maps_page (translate : Z -> Z -> option Z) (satp va pa : Z) : Prop :=
  forall o, 0 <= o < PGSIZE -> translate satp (va + o) = Some (pa + o).

Lemma TRAPFRAME_val : TRAPFRAME = 274877898752.
Proof. reflexivity. Qed.

Lemma window_tf translate satp pa l :
  maps_page translate satp TRAPFRAME pa -> Forall (fun s : reg * Z => 0 <= s.2 <= 280) l -> window translate satp TRAPFRAME pa l.
Proof.
  intros Hm Hl. eapply Forall_impl; [exact Hl|]. intros [r o] Ho. simpl in Ho. cbn [snd]. rewrite TRAPFRAME_val in *.
  rewrite u64_small by lia. apply Hm. change PGSIZE with 4096. lia.
Qed.

Definition regs_ok (x : hart) : Prop := forall r, 0 <= x_regs x r < 2 ^ 64.

(** What uservec does: every user register is in the trapframe, the words of
    the kernel are as they were, and the kernel is entered the way they say. *)
Record entered (x : hart) (frame : Z) (x' : hart) : Prop := {
  en_regs : forall r, r <> ZERO -> tf_get (tf_at (x_mem x') frame) (tf_index r) = x_regs x r;
  en_words : forall i, (i < 5)%nat -> tf_get (tf_at (x_mem x') frame) i = tf_get (tf_at (x_mem x) frame) i;
  en_mem : forall b, b < frame + 40 \/ frame + 288 <= b -> rd (x_mem x') b = rd (x_mem x) b;
  en_sp : x_regs x' SP = tf_get (tf_at (x_mem x) frame) TF_kernel_sp;
  en_tp : x_regs x' TP = tf_get (tf_at (x_mem x) frame) TF_kernel_hartid;
  en_satp : x_csr x' C_satp = tf_get (tf_at (x_mem x) frame) TF_kernel_satp;
  en_csr : forall c, c <> C_satp -> c <> C_sscratch -> x_csr x' c = x_csr x c;
}.

Lemma stored_ext m pa f g l : (forall r, r ∈ l.*1 -> f r = g r) -> stored m pa f l = stored m pa g l.
Proof.
  revert m. induction l as [|[r o] l IH]; intros m H; [done|]. cbn [stored]. cbn [fmap list_fmap fst] in H.
  rewrite (H r) by left. apply IH. intros q Hq. apply H. by right.
Qed.

(** The trapframe page after the stores of uservec. *)
Definition saved (x : hart) (frame : Z) : mem := store64 (stored (x_mem x) frame (x_regs x) tf_slots) (frame + 112) (x_regs x A0).

Lemma saved_reg x frame r :
  regs_ok x -> r <> ZERO -> load64 (saved x frame) (frame + 8 * Z.of_nat (tf_index r)) = x_regs x r.
Proof.
  intros Hr Hz. unfold saved. destruct (decide (r = A0)) as [->|Ha].
  - change (8 * Z.of_nat (tf_index A0)) with 112. by apply load64_store64_eq.
  - pose proof (tf_slot_in r Hz Ha) as Hs. pose proof tf_slots_offsets as Ho. rewrite Forall_forall in Ho. specialize (Ho _ Hs). simpl in Ho.
    rewrite load64_store64_ne by lia. apply load_stored_in; [apply tf_slots_spaced|done|apply Hr].
Qed.

Lemma saved_word x frame o : o + 8 <= 40 -> load64 (saved x frame) (frame + o) = load64 (x_mem x) (frame + o).
Proof.
  intros Ho. unfold saved. rewrite load64_store64_ne by lia. apply load_stored_out.
  eapply Forall_impl; [apply tf_slots_offsets|]. simpl. lia.
Qed.

Lemma saved_out x frame b : b < frame + 40 \/ frame + 288 <= b -> rd (saved x frame) b = rd (x_mem x) b.
Proof.
  intros Hb. unfold saved. rewrite rd_store64_ne by lia. apply rd_stored_out.
  eapply Forall_impl; [apply tf_slots_offsets|]. simpl. lia.
Qed.

Definition kslots : slots := [(SP, 8); (TP, 32); (T0, 16); (T1, 0)].

Lemma uservec_run translate x frame :
  maps_page translate (x_csr x C_satp) TRAPFRAME frame ->
  exists x', exec translate uservec x = Some (Jump (load64 (saved x frame) (frame + 16)), [], x') /\
    x_mem x' = saved x frame /\ x_csr x' C_satp = load64 (saved x frame) frame /\
    x_regs x' SP = load64 (saved x frame) (frame + 8) /\ x_regs x' TP = load64 (saved x frame) (frame + 32) /\
    (forall c, c <> C_satp -> c <> C_sscratch -> x_csr x' c = x_csr x c).
Proof.
  intros Hm. rewrite uservec_eq. cbn [app]. rewrite exec_csrw, exec_li.
  rewrite (exec_stores translate A0 tf_slots _ _ frame).
  2: { apply window_tf; [exact Hm|]. eapply Forall_impl; [apply tf_slots_offsets|]. simpl. lia. }
  rewrite (stored_ext _ _ _ (x_regs x)).
  2: { intros r Hr. destruct tf_slots_regs as (_ & HA & HZ). assert (r <> A0) by congruence. assert (r <> ZERO) by congruence.
       unfold getr. destruct r; done. }
  cbn [app]. rewrite exec_csrr. cbn [next setr setc x_regs x_csr x_pc x_mem getr]. rewrite !decide_True by done.
  rewrite (exec_stores translate A0 [(T0, 112)] _ _ frame).
  2: { apply window_tf; [exact Hm|]. repeat constructor; simpl; lia. }
  cbn [stored getr x_regs x_mem next setr setc x_pc x_csr]. rewrite !decide_True by done. fold (saved x frame).
  generalize (saved x frame). intros m2. fold kslots.
  rewrite (exec_loads translate A0 kslots _ _ frame).
  2,3: apply (bool_decide_unpack _); vm_compute; exact I.
  2: { apply window_tf; [exact Hm|]. repeat constructor; simpl; lia. }
  rewrite exec_fence, exec_csrw, exec_fence. cbn [exec getr next setr setc x_regs x_csr x_pc x_mem]. set (f := fun q => if decide (q = T0) then _ else _).
  assert (Hn : NoDup kslots.*1) by (apply (bool_decide_unpack _); vm_compute; exact I).
  rewrite (loaded_in f m2 frame kslots T0 16 Hn) by (unfold kslots; set_solver).
  eexists. split; [reflexivity|]. cbn [x_mem x_csr x_regs next setc setr x_pc]. rewrite decide_True by done.
  rewrite (loaded_in f m2 frame kslots T1 0 Hn), (loaded_in f m2 frame kslots SP 8 Hn), (loaded_in f m2 frame kslots TP 32 Hn) by (unfold kslots; set_solver).
  split_and!; try done; [f_equal; lia|]. intros c H1 H2. by rewrite !decide_False.
Qed.

Lemma uservec_saves translate x frame :
  regs_ok x -> maps_page translate (x_csr x C_satp) TRAPFRAME frame ->
  exists x', exec translate uservec x = Some (Jump (tf_get (tf_at (x_mem x) frame) TF_kernel_trap), [], x') /\ entered x frame x'.
Proof.
  intros Hr Hm. destruct (uservec_run translate x frame Hm) as (x' & E & Em & Es & Esp & Etp & Ec). exists x'.
  assert (Hw : forall i, (i < 5)%nat -> tf_get (tf_at (x_mem x) frame) i = load64 (saved x frame) (frame + 8 * Z.of_nat i)).
  { intros i Hi. rewrite tf_get_at, saved_word by lia. done. }
  split.
  - rewrite E, Hw by (unfold TF_kernel_trap; lia). done.
  - split.
    + intros r Hz. rewrite Em, tf_get_at by (destruct r; cbn; lia). by apply saved_reg.
    + intros i Hi. rewrite Em, Hw, tf_get_at by lia. done.
    + intros b Hb. rewrite Em. by apply saved_out.
    + rewrite Esp, Hw by (unfold TF_kernel_sp; lia). done.
    + rewrite Etp, Hw by (unfold TF_kernel_hartid; lia). done.
    + rewrite Es, Hw by (unfold TF_kernel_satp; lia). f_equal. unfold TF_kernel_satp. lia.
    + exact Ec.
Qed.

(** What userret does: the user page table, and every register from the
    trapframe. *)
Record resumed (x : hart) (frame : Z) (x' : hart) : Prop := {
  re_regs : forall r, r <> ZERO -> x_regs x' r = tf_get (tf_at (x_mem x) frame) (tf_index r);
  re_satp : x_csr x' C_satp = x_regs x A0;
  re_csr : forall c, c <> C_satp -> x_csr x' c = x_csr x c;
  re_mem : x_mem x' = x_mem x;
}.

Lemma userret_restores translate x frame :
  maps_page translate (x_regs x A0) TRAPFRAME frame ->
  exists x', exec translate userret x = Some (Sret, [], x') /\ resumed x frame x'.
Proof.
  intros Hm. rewrite userret_eq. cbn [app]. rewrite exec_fence, exec_csrw, exec_fence, exec_li. set (x1 := next (setr _ A0 (u64 TRAPFRAME))).
  destruct tf_slots_regs as (N1 & N2 & N3).
  rewrite (exec_loads translate A0 tf_slots _ x1 frame); [|done|done|].
  2: { apply window_tf; [exact Hm|]. eapply Forall_impl; [apply tf_slots_offsets|]. simpl. lia. }
  set (x2 := mkHart _ _ _ _). cbn [exec]. unfold addr_of.
  assert (E : getr x2 A0 = TRAPFRAME) by (cbn [getr x2 x_regs]; by rewrite loaded_out).
  rewrite E. change (x_csr x2 C_satp) with (x_regs x A0). rewrite u64_small by (rewrite TRAPFRAME_val; lia). rewrite Hm by (change PGSIZE with 4096; lia).
  eexists. split; [done|]. split; [|done|intros c Hc; cbn [x_csr next setr x2 x1 setc]; by rewrite decide_False|done].
  intros r Hz. rewrite tf_get_at by (destruct r; cbn; lia). cbn [x_regs next setr]. destruct (decide (r = A0)) as [->|Ha]; [done|].
  cbn [x2 x_regs]. rewrite (loaded_in _ _ _ _ r (8 * Z.of_nat (tf_index r))) by (done || by apply tf_slot_in). done.
Qed.

(** ** From user space to usertrap and back *)

Lemma tf_at_length m frame : length (tf_at m frame) = 36%nat.
Proof. reflexivity. Qed.

Section user_trap.
Context (translate : Z -> Z -> option Z).
Context (kernel_end trampoline uservec_at userret_at usertrap_at forkret ustack_at kbuf_at countbuf rbuf : Z).
Context (chan_of : option nat -> Z) (tick_chan cons_chan uart_chan : Z) (buf_chan : nat -> Z).
Context {C : Type} `{BO : BufOps C} (sb : superblock).
Context (devread devwrite : Z -> option (Z -> Z -> kst C kmem -> res (Z * kst C kmem))) (oob : Z -> option nat) (junk : list Z) (rjunk : report) (quota_fuel : nat).
Abbreviation usertrap := (usertrap kernel_end trampoline uservec_at userret_at usertrap_at forkret ustack_at kbuf_at countbuf rbuf
  chan_of tick_chan cons_chan uart_chan buf_chan sb devread devwrite oob junk rjunk quota_fuel).


End user_trap.

(** ** swtch *)

(** struct context of proc.h: ra, sp and the callee-saved registers *)
Definition ctx_regs : list reg := [RA; SP; S0; S1; S2; S3; S4; S5; S6; S7; S8; S9; S10; S11].
Definition ctx_slots : slots := imap (fun i r => (r, 8 * Z.of_nat i)) ctx_regs.

Lemma swtch_eq : swtch = stores A0 ctx_slots ++ loads A1 ctx_slots ++ [JR RA].
Proof. reflexivity. Qed.
Lemma ctx_slots_ok : spaced ctx_slots /\ NoDup ctx_slots.*1 /\ (A1 ∉ ctx_slots.*1) /\ (ZERO ∉ ctx_slots.*1) /\
  Forall (fun s => 0 <= s.2 <= 104) ctx_slots.
Proof. split; [apply spacedb_ok; vm_compute; reflexivity|]. split_and!; apply (bool_decide_unpack _); vm_compute; exact I. Qed.
Lemma ctx_slot r : r ∈ ctx_regs -> exists o, (r, o) ∈ ctx_slots /\ 0 <= o <= 104 /\ r <> ZERO.
Proof.
  intros Hr. apply list_elem_of_lookup in Hr as [k Hk]. exists (8 * Z.of_nat k).
  assert (Hl : ctx_slots !! k = Some (r, 8 * Z.of_nat k)) by (unfold ctx_slots; by rewrite list_lookup_imap, Hk).
  apply list_elem_of_lookup_2 in Hl. split; [done|]. destruct ctx_slots_ok as (_ & _ & _ & Hz & Ho). rewrite Forall_forall in Ho.
  specialize (Ho _ Hl). split; [done|]. intros ->. apply Hz. apply list_elem_of_fmap. eexists. split; [|exact Hl]. done.
Qed.

(** The kernel maps its memory at the same addresses. *)
Definition identity (translate : Z -> Z -> option Z) (satp lo hi : Z) : Prop := forall a, lo <= a < hi -> translate satp a = Some a.

Lemma window_id translate satp va lo hi l :
  identity translate satp lo hi -> lo <= va -> hi <= 2 ^ 64 -> 0 <= lo -> Forall (fun s : reg * Z => 0 <= s.2 /\ va + s.2 + 8 <= hi) l -> window translate satp va va l.
Proof.
  intros Hi Hlo Hhi H0 Hl. eapply Forall_impl; [exact Hl|]. intros [r o] Ho. simpl in Ho. cbn [snd]. rewrite u64_small by lia. apply Hi. lia.
Qed.

(** What one switch does, for contexts in memory the kernel maps. *)
Lemma swtch_spec translate x :
  let old := x_regs x A0 in let new := x_regs x A1 in
  identity translate (x_csr x C_satp) old (old + 112) -> identity translate (x_csr x C_satp) new (new + 112) ->
  0 <= old -> old + 112 <= 2 ^ 64 -> 0 <= new -> new + 112 <= 2 ^ 64 ->
  let m := stored (x_mem x) old (x_regs x) ctx_slots in
  exists x', exec translate swtch x = Some (Jump (load64 m new), [], x') /\ x_mem x' = m /\ x_csr x' = x_csr x /\
    (forall r o, (r, o) ∈ ctx_slots -> x_regs x' r = load64 m (new + o)) /\ (forall r, r ∉ ctx_regs -> x_regs x' r = x_regs x r).
Proof.
  intros old new Ho Hn H1 H2 H3 H4 m. rewrite swtch_eq. destruct ctx_slots_ok as (S1 & S2 & S3 & S4 & S5).
  rewrite (exec_stores translate A0 ctx_slots _ x old).
  2: { eapply window_id; [exact Ho|cbn [getr]; fold old; lia|lia|lia|]. eapply Forall_impl; [exact S5|]. intros s Hs. cbn [getr]. fold old. simpl in Hs. lia. }
  rewrite (stored_ext _ _ _ (x_regs x)).
  2: { intros r Hr. assert (r <> ZERO) by congruence. by destruct r. }
  fold m. rewrite (exec_loads translate A1 ctx_slots _ _ new); [|done|done|].
  2: { eapply window_id; [exact Hn|cbn [getr x_regs]; fold new; lia|lia|lia|]. eapply Forall_impl; [exact S5|]. intros s Hs.
       cbn [getr x_regs]. fold new. simpl in Hs. lia. }
  cbn [exec getr x_regs x_mem]. rewrite (loaded_in _ m new ctx_slots RA 0) by (done || left).
  replace (new + 0) with new by lia. eexists. split; [reflexivity|]. cbn [x_mem x_csr x_regs]. split_and!; [done|done|intros r o Hr; by apply loaded_in|].
  intros r Hr. by apply loaded_out.
Qed.

(** The registers the calling convention lets a function change. *)
Definition caller_saved (r : reg) : bool := negb (bool_decide (r ∈ [ZERO; SP; GP; TP; S0; S1; S2; S3; S4; S5; S6; S7; S8; S9; S10; S11])).

(** C25: swtch is a call for the thread that makes it.  When a thread switches
    from its context to another, and later some hart switches back to the
    saved context, whose 112 bytes were left alone in between, execution goes
    on at the return address of the first call with the stack pointer and
    every callee-saved register as they were; the second switch has saved its
    own registers in the same way, and nothing outside the two contexts is
    written. *)
Theorem swtch_returns translate (x y : hart) :
  let a := x_regs x A0 in let b := x_regs y A0 in
  regs_ok x -> regs_ok y -> x_regs y A1 = a ->
  identity translate (x_csr x C_satp) a (a + 112) -> identity translate (x_csr x C_satp) (x_regs x A1) (x_regs x A1 + 112) ->
  identity translate (x_csr y C_satp) a (a + 112) -> identity translate (x_csr y C_satp) b (b + 112) ->
  a + 112 <= 2 ^ 64 -> x_regs x A1 + 112 <= 2 ^ 64 -> b + 112 <= 2 ^ 64 -> a + 112 <= b \/ b + 112 <= a ->
  exists x', exec translate swtch x = Some (Jump (load64 (x_mem x') (x_regs x A1)), [], x') /\
    (forall p, p < a \/ a + 112 <= p -> rd (x_mem x') p = rd (x_mem x) p) /\
    ((forall o, 0 <= o <= 104 -> load64 (x_mem y) (a + o) = load64 (x_mem x') (a + o)) ->
     exists y', exec translate swtch y = Some (Jump (x_regs x RA), [], y') /\
       (forall r, r ∈ ctx_regs -> x_regs y' r = x_regs x r) /\
       (forall r o, (r, o) ∈ ctx_slots -> load64 (x_mem y') (b + o) = x_regs y r) /\
       (forall p, p < b \/ b + 112 <= p -> rd (x_mem y') p = rd (x_mem y) p)).
Proof.
  intros a b Hx Hy Ea I1 I2 I3 I4 B1 B2 B3 Hd. destruct ctx_slots_ok as (S1 & S2 & S3 & S4 & S5).
  pose proof (Hx A0) as HA. fold a in HA. pose proof (Hx A1) as HA1. pose proof (Hy A0) as HB. fold b in HB.
  assert (Hsm : forall z c, (forall p, p < c \/ c + 112 <= p -> rd (stored (x_mem z) c (x_regs z) ctx_slots) p = rd (x_mem z) p)).
  { intros z c p Hp. apply rd_stored_out. eapply Forall_impl; [exact S5|]. intros s Hs. simpl in Hs. lia. }
  destruct (swtch_spec translate x) as (x' & E & Em & _ & _); [done|done|lia|exact B1|lia|exact B2|]. fold a in E, Em. exists x'. rewrite Em. split; [exact E|]. split; [by apply Hsm|].
  intros Hkeep. destruct (swtch_spec translate y) as (y' & E' & Em' & _ & Hl & _); [done|by rewrite Ea|lia|exact B3|rewrite Ea; lia|rewrite Ea; exact B1|]. fold b in E', Em'.
  assert (Hin : forall r o, (r, o) ∈ ctx_slots -> load64 (stored (x_mem y) b (x_regs y) ctx_slots) (a + o) = x_regs x r).
  { intros r o Hr. rewrite Forall_forall in S5. pose proof (S5 _ Hr) as Ho. simpl in Ho. replace (a + o) with (b + (a + o - b)) by lia. rewrite load_stored_out.
    - replace (b + (a + o - b)) with (a + o) by lia. rewrite Hkeep by done. by apply load_stored_in.
    - apply Forall_forall. intros s Hs. specialize (S5 s Hs). simpl in S5. lia. }
  exists y'. rewrite Em'. rewrite E', Ea. fold b in Hl. rewrite Ea in Hl. split_and!.
  - rewrite <- (Hin RA 0) by left. by replace (a + 0) with a by lia.
  - intros r Hr. destruct (ctx_slot r Hr) as (o & Ho & _). rewrite (Hl r o Ho). by apply Hin.
  - intros r o Hr. by apply load_stored_in.
  - by apply Hsm.
Qed.

(** ** kernelvec *)

Definition kv_regs : slots :=
  [(T0, 32); (T1, 40); (T2, 48); (A0, 72); (A1, 80); (A2, 88); (A3, 96); (A4, 104); (A5, 112); (A6, 120); (A7, 128); (T3, 216); (T4, 224); (T5, 232); (T6, 240)].
Definition kv_saves : slots := [(RA, 0); (SP, 8); (GP, 16); (TP, 24)] ++ kv_regs.
Definition kv_loads : slots := (GP, 16) :: kv_regs.
Definition kv_rest : list instr := [LD RA 0 SP; LD SP 8 SP] ++ loads SP kv_loads ++ [ADDI SP SP 256; SRET].

Lemma kernelvec_eq kerneltrap back :
  kernelvec kerneltrap back = ADDI SP SP (-256) :: stores SP kv_saves ++ CALL kerneltrap back :: kv_rest.
Proof. reflexivity. Qed.
Lemma kv_slots_ok : spaced kv_saves /\ (ZERO ∉ kv_saves.*1) /\ Forall (fun s => 0 <= s.2 <= 248) kv_saves /\
  NoDup kv_loads.*1 /\ (SP ∉ kv_loads.*1) /\ (ZERO ∉ kv_loads.*1) /\ Forall (fun s => 0 <= s.2 <= 248) kv_loads /\
  (RA ∉ kv_loads.*1) /\ Forall (.∈ kv_saves) kv_loads.
Proof. split; [apply spacedb_ok; vm_compute; reflexivity|]. split_and!; apply (bool_decide_unpack _); vm_compute; exact I. Qed.
Lemma kv_load_in r : caller_saved r = true -> r <> RA -> exists o, (r, o) ∈ kv_loads.
Proof.
  intros H1 H2. assert (H : r ∈ kv_loads.*1) by (destruct r; try done; apply (bool_decide_unpack _); vm_compute; exact I).
  apply list_elem_of_fmap in H as ([r' o] & -> & H). by exists o.
Qed.

Lemma kernelvec_enters translate kerneltrap back x :
  let s := x_regs x SP - 256 in
  regs_ok x -> 0 <= s -> identity translate (x_csr x C_satp) s (s + 256) ->
  exists x1, exec translate (kernelvec kerneltrap back) x = Some (Called kerneltrap, kv_rest, x1) /\
    x_regs x1 SP = s /\ x_regs x1 RA = back /\ (forall r, r <> SP -> r <> RA -> x_regs x1 r = x_regs x r) /\ x_csr x1 = x_csr x /\
    load64 (x_mem x1) (s + 8) = s /\ (forall r o, (r, o) ∈ kv_saves -> r <> SP -> load64 (x_mem x1) (s + o) = x_regs x r) /\
    (forall p, p < s \/ s + 256 <= p -> rd (x_mem x1) p = rd (x_mem x) p).
Proof.
  intros s Hr H0 Hi. rewrite kernelvec_eq, exec_addi. destruct kv_slots_ok as (S1 & S2 & S3 & _). pose proof (Hr SP) as HSP.
  set (x0 := next _). assert (E0 : x_regs x0 SP = s) by (cbn [x0 next setr x_regs getr]; rewrite decide_True by done; apply u64_small; lia).
  assert (E1 : forall r, r <> SP -> x_regs x0 r = x_regs x r) by (intros r Hn; cbn [x0 next setr x_regs]; by rewrite decide_False).
  rewrite (exec_stores translate SP kv_saves _ x0 s).
  2: { cbn [getr]. rewrite E0. eapply window_id; [exact Hi|lia|lia|lia|]. eapply Forall_impl; [exact S3|]. intros q Hq. simpl in Hq. lia. }
  rewrite (stored_ext _ _ _ (x_regs x0)) by (intros r Hr'; assert (r <> ZERO) by congruence; by destruct r).
  cbn [exec]. eexists. split; [reflexivity|]. cbn [setr x_regs x_csr x_mem]. split_and!.
  - done.
  - by rewrite decide_True.
  - intros r H1 H2. rewrite decide_False by done. auto.
  - done.
  - rewrite (load_stored_in _ _ _ kv_saves SP 8); [done|done|apply (bool_decide_unpack _); vm_compute; exact I|lia].
  - intros r o Hro Hn. rewrite (load_stored_in _ _ _ kv_saves r o), E1; rewrite ?E1; auto.
  - intros p Hp. rewrite rd_stored_out; [done|]. eapply Forall_impl; [exact S3|]. intros q Hq. simpl in Hq. lia.
Qed.


(** ** Witnesses *)

Definition demo_translate (satp va : Z) : option Z :=
  if (TRAPFRAME <=? va) && (va <? TRAPFRAME + PGSIZE) then Some (4096 + (va - TRAPFRAME)) else if va <? 65536 then Some va else None.
(** A hart in user space, with the page table of process 1 of [demo_kernel] *)
Definition demo_user (m : mem) : hart := mkHart 0 (fun r => if decide (r = A0) then 77 else 0) (fun c => if decide (c = C_satp) then MAKE_SATP 0 else 0) m.
Definition tf_mem (tf : trapframe) : mem := foldl (fun m i => store64 m (4096 + 8 * Z.of_nat i) (tf_get tf i)) ∅ (seq 0 36).

Lemma demo_maps satp : maps_page demo_translate satp TRAPFRAME 4096.
Proof.
  intros o Ho. unfold demo_translate. change PGSIZE with 4096 in *. rewrite (proj2 (Z.leb_le _ _)), (proj2 (Z.ltb_lt _ _)) by lia.
  cbn [andb]. f_equal. lia.
Qed.
Lemma demo_hart_ok m : regs_ok (demo_user m).
Proof. intros r. cbn. destruct (decide _); lia. Qed.



Lemma demo_identity satp lo hi : hi <= 65536 -> identity demo_translate satp lo hi.
Proof.
  intros H a Ha. unfold demo_translate. rewrite TRAPFRAME_val. rewrite (proj2 (Z.leb_gt _ _)) by lia. cbn [andb].
  by rewrite (proj2 (Z.ltb_lt _ _)) by lia.
Qed.

(** Two kernel threads, with contexts at 1024 and 2048 *)
Definition demo_thread (old new ra sp s0 : Z) (m : mem) : hart :=
  mkHart 0 (fun r => match r with A0 => old | A1 => new | RA => ra | SP => sp | S0 => s0 | _ => 0 end) (fun _ => 0) m.

Lemma swtch_returns_witness : exists x' y',
  exec demo_translate swtch (demo_thread 1024 2048 64 8192 11 (store64 ∅ 2048 128)) = Some (Jump 128, [], x') /\
  exec demo_translate swtch (demo_thread 2048 1024 128 12288 22 (x_mem x')) = Some (Jump 64, [], y') /\
  x_regs y' SP = 8192 /\ x_regs y' S0 = 11 /\ load64 (x_mem y') 2048 = 128.
Proof.
  set (x := demo_thread 1024 2048 64 8192 11 (store64 ∅ 2048 128)).
  destruct (exec demo_translate swtch x) as [[[st l] x']|] eqn:E; [|vm_compute in E; discriminate E].
  destruct (swtch_returns demo_translate x (demo_thread 2048 1024 128 12288 22 (x_mem x'))) as (x1 & E1 & _ & H).
  1,2: (intros r; destruct r; cbn; lia).
  1: reflexivity.
  1,2,3,4: (apply demo_identity; vm_compute; discriminate).
  1,2,3: (vm_compute; discriminate).
  1: (left; vm_compute; discriminate).
  rewrite E in E1. injection E1 as -> -> <-. destruct H as (y' & Ey & Hr & Hs & _); [reflexivity|].
  exists x', y'. split_and!.
  - do 3 f_equal. assert (Hj : (match exec demo_translate swtch x with Some (Jump j, _, _) => j =? 128 | _ => false end) = true) by (vm_compute; reflexivity).
    rewrite E in Hj. f_equal. apply Z.eqb_eq. exact Hj.
  - exact Ey.
  - rewrite Hr by (right; left). reflexivity.
  - rewrite Hr by (right; right; left). reflexivity.
  - apply (Hs RA 0). left.
Defined.

