(* ===== verification/Grep.v ===== *)
(** * grep: user/grep.c

    The matcher of Kernighan and Pike against the language its pattern
    denotes, and the loop of grep() that reads a file through a fixed buffer
    in pieces of any size.  A C string is the list of its bytes before the
    NUL; what read returns is an argument. *)

From S2P Require Import Prelude.

(** '^', '.', '*', '$' and newline *)
Definition caret : Z := 94.
Definition dot : Z := 46.
Definition star : Z := 42.
Definition dollar : Z := 36.
Definition nl : Z := 10.

(** ** The matcher *)

(** matchstar, given matchhere for the rest of the pattern *)
Definition matchstar (here : list Z -> bool) (c : Z) : list Z -> bool :=
  fix go text :=
    if here text then true
    else match text with
         | x :: text' => if (x =? c) || (c =? dot) then go text' else false
         | [] => false
         end.

Fixpoint matchhere (re text : list Z) : bool :=
  match re with
  | [] => true
  | c :: re' =>
      match re' with
      | s :: re'' =>
          if s =? star then matchstar (matchhere re'') c text
          else match text with
               | x :: text' => if (c =? dot) || (c =? x) then matchhere re' text' else false
               | [] => false
               end
      | [] =>
          if c =? dollar then bool_decide (text = [])
          else match text with
               | x :: text' => if (c =? dot) || (c =? x) then matchhere re' text' else false
               | [] => false
               end
      end
  end.

(** match's loop over the suffixes of the text, the empty one included *)
Fixpoint match_any (here : list Z -> bool) (text : list Z) : bool :=
  if here text then true else match text with _ :: text' => match_any here text' | [] => false end.
Definition match_ (re text : list Z) : bool :=
  match re with
  | c :: re' => if c =? caret then matchhere re' text else match_any (matchhere re) text
  | [] => match_any (matchhere re) text
  end.

(** ** The loop of grep() *)
Definition BUF_SIZE : nat := 1024.

(** strchr(p, '\n'): the bytes before the newline and after it; the search
    ends at a NUL. *)
Fixpoint split_line (p : list Z) : option (list Z * list Z) :=
  match p with
  | [] => None
  | x :: p' => if x =? 0 then None else if x =? nl then Some ([], p') else
               match split_line p' with Some (l, r) => Some (x :: l, r) | None => None end
  end.

(** The lines in the buffer: what is written to descriptor 1, and the rest *)
Fixpoint grep_lines (fuel : nat) (pattern p : list Z) : list Z * list Z :=
  match fuel with
  | O => ([], p)
  | S fuel' =>
      match split_line p with
      | Some (line, rest) =>
          let '(out, p) := grep_lines fuel' pattern rest in
          ((if match_ pattern line then line ++ [nl] else []) ++ out, p)
      | None => ([], p)
      end
  end.

(** [carry] is buf[0..m); read returns what [read want input] says: the bytes
    and the input left. *)
Fixpoint grep_loop (fuel : nat) (read : nat -> list Z -> list Z * list Z) (pattern carry input : list Z) : list Z :=
  match fuel with
  | O => []
  | S fuel' =>
      let '(chunk, input) := read (BUF_SIZE - length carry - 1)%nat input in
      match chunk with
      | [] => []
      | _ =>
          let '(out, carry) := grep_lines (S (length carry + length chunk)) pattern (carry ++ chunk) in
          out ++ grep_loop fuel' read pattern carry input
      end
  end.
Definition grep (read : nat -> list Z -> list Z * list Z) (pattern input : list Z) : list Z :=
  grep_loop (S (length input)) read pattern [] input.

(** ** What a pattern means *)
Inductive atom := One (c : Z) | Many (c : Z).
Fixpoint parse_re (re : list Z) : list atom * bool :=
  match re with
  | [] => ([], false)
  | c :: re' =>
      match re' with
      | s :: re'' => if s =? star then let '(a, e) := parse_re re'' in (Many c :: a, e) else let '(a, e) := parse_re re' in (One c :: a, e)
      | [] => if c =? dollar then ([], true) else ([One c], false)
      end
  end.

Definition accepts (c x : Z) : Prop := c = dot \/ x = c.
Fixpoint lang (atoms : list atom) (w : list Z) : Prop :=
  match atoms with
  | [] => w = []
  | One c :: atoms => exists x w', w = x :: w' /\ accepts c x /\ lang atoms w'
  | Many c :: atoms => exists u v, w = u ++ v /\ Forall (accepts c) u /\ lang atoms v
  end.

(** A pattern occurs at the beginning of a text: up to its end when the
    pattern ends in '$' *)
Definition occurs (p : list atom * bool) (text : list Z) : Prop :=
  exists w post, text = w ++ post /\ lang p.1 w /\ (p.2 = true -> post = []).

Lemma accepts_spec c x : ((c =? dot) || (c =? x)) = true <-> accepts c x.
Proof. unfold accepts. rewrite orb_true_iff, !Z.eqb_eq. intuition. Qed.
Lemma accepts_spec' c x : ((x =? c) || (c =? dot)) = true <-> accepts c x.
Proof. unfold accepts. rewrite orb_true_iff, !Z.eqb_eq. intuition. Qed.

Lemma matchstar_spec here (P : list Z -> Prop) c text : (forall t, here t = true <-> P t) ->
  matchstar here c text = true <-> exists u v, text = u ++ v /\ Forall (accepts c) u /\ P v.
Proof.
  intros Hh. induction text as [|x text IH]; cbn [matchstar].
  - destruct (here []) eqn:E.
    + split; [|done]. intros _. exists [], []. split_and!; [done|constructor|by apply Hh].
    + split; [done|]. intros (u & v & Hu & _ & Hv). symmetry in Hu. apply app_nil in Hu as [-> ->]. apply Hh in Hv. congruence.
  - destruct (here (x :: text)) eqn:E.
    + split; [|done]. intros _. exists [], (x :: text). split_and!; [done|constructor|by apply Hh].
    + destruct ((x =? c) || (c =? dot)) eqn:Ec.
      * apply accepts_spec' in Ec. rewrite IH. split.
        -- intros (u & v & -> & Hu & Hv). exists (x :: u), v. split_and!; auto.
        -- intros (u & v & Hu & Hf & Hv). destruct u as [|y u].
           ++ cbn in Hu. subst v. apply Hh in Hv. congruence.
           ++ injection Hu as <- ->. apply Forall_cons in Hf as [_ Hf]. by exists u, v.
      * split; [done|]. intros (u & v & Hu & Hf & Hv). destruct u as [|y u].
        -- cbn in Hu. subst v. apply Hh in Hv. congruence.
        -- injection Hu as <- ->. apply Forall_cons in Hf as [Hx _]. apply accepts_spec' in Hx. congruence.
Qed.

Lemma occurs_star c a e text : occurs (Many c :: a, e) text <-> exists u v, text = u ++ v /\ Forall (accepts c) u /\ occurs (a, e) v.
Proof.
  split.
  - intros (w & post & -> & (u & v & -> & Hu & Hv) & He). exists u, (v ++ post). split_and!; [by rewrite app_assoc|done|]. by exists v, post.
  - intros (u & v & -> & Hu & w & post & -> & Hw & He). exists (u ++ w), post. split_and!; [by rewrite app_assoc| |done]. by exists u, w.
Qed.
Lemma occurs_one c a e text : occurs (One c :: a, e) text <-> exists x text', text = x :: text' /\ accepts c x /\ occurs (a, e) text'.
Proof.
  split.
  - intros (w & post & -> & (x & w' & -> & Hx & Hw) & He). exists x, (w' ++ post). split_and!; auto. by exists w', post.
  - intros (x & text' & -> & Hx & w & post & -> & Hw & He). exists (x :: w), post. split_and!; auto. by exists x, w.
Qed.

Lemma step_spec c (here : list Z -> bool) (P : list Z -> Prop) text : (forall t, here t = true <-> P t) ->
  (match text with x :: text' => if (c =? dot) || (c =? x) then here text' else false | [] => false end) = true <->
  exists x text', text = x :: text' /\ accepts c x /\ P text'.
Proof.
  intros Hh. destruct text as [|x text]; [split; [done|by intros (? & ? & ? & _)]|]. destruct ((c =? dot) || (c =? x)) eqn:E.
  - apply accepts_spec in E. rewrite Hh. split; [by exists x, text|]. by intros (y & t & [= <- <-] & _ & ?).
  - split; [done|]. intros (y & t & [= <- <-] & Hx & _). apply accepts_spec in Hx. congruence.
Qed.

Lemma matchhere_cons c s re text :
  matchhere (c :: s :: re) text =
    if s =? star then matchstar (matchhere re) c text
    else match text with x :: text' => if (c =? dot) || (c =? x) then matchhere (s :: re) text' else false | [] => false end.
Proof. done. Qed.
Lemma parse_re_cons c s re :
  parse_re (c :: s :: re) = if s =? star then let '(a, e) := parse_re re in (Many c :: a, e) else let '(a, e) := parse_re (s :: re) in (One c :: a, e).
Proof. done. Qed.

Lemma matchhere_spec re text : matchhere re text = true <-> occurs (parse_re re) text.
Proof.
  remember (length re) as n eqn:Hn. assert (Hle : (length re <= n)%nat) by lia. clear Hn. revert re Hle text.
  induction n as [|n IH]; intros re Hle text; (destruct re as [|c [|s re]]; [| |]); cbn in Hle; try lia.
  - split; [|done]. intros _. by exists [], text.
  - split; [|done]. intros _. by exists [], text.
  - cbn [matchhere parse_re]. destruct (c =? dollar).
    + rewrite bool_decide_eq_true. split; [intros ->; by exists [], []|]. intros (w & post & -> & -> & He). by rewrite He.
    + rewrite occurs_one. apply step_spec. intros t. split; [|done]. intros _. by exists [], t.
  - rewrite matchhere_cons, parse_re_cons. destruct (s =? star).
    + destruct (parse_re re) as [a e] eqn:Ep. rewrite occurs_star. apply matchstar_spec. intros t. rewrite IH, Ep by lia. done.
    + destruct (parse_re (s :: re)) as [a e] eqn:Ep. rewrite occurs_one. apply step_spec. intros t. rewrite IH, Ep by (cbn; lia). done.
Qed.

Lemma match_any_spec here (P : list Z -> Prop) text : (forall t, here t = true <-> P t) ->
  match_any here text = true <-> exists pre t, text = pre ++ t /\ P t.
Proof.
  intros Hh. induction text as [|x text IH]; cbn [match_any].
  - destruct (here []) eqn:E; (split; [|try done]).
    + intros _. exists [], []. split; [done|by apply Hh].
    + done.
    + intros (pre & t & Ht & HP). symmetry in Ht. apply app_nil in Ht as [-> ->]. apply Hh in HP. congruence.
  - destruct (here (x :: text)) eqn:E; (split; [|try done]).
    + intros _. exists [], (x :: text). split; [done|by apply Hh].
    + intros H. apply IH in H as (pre & t & -> & HP). by exists (x :: pre), t.
    + intros (pre & t & Ht & HP). apply IH. destruct pre as [|y pre]; [cbn in Ht; subst t; apply Hh in HP; congruence|].
      injection Ht as <- ->. by exists pre, t.
Qed.

(** The matcher accepts a text exactly when the pattern occurs in it: a
    part of the text is in the language of the pattern, where c* stands for
    any number of c and . for any byte; the part is at the beginning when the
    pattern starts with ^ and at the end when it ends in $. *)
Theorem match_denotes re text :
  match_ re text = true <->
  exists pre part post, text = pre ++ part ++ post /\
    let anchored := bool_decide (head re = Some caret) in
    let p := parse_re (if anchored then tail re else re) in
    lang p.1 part /\ (anchored = true -> pre = []) /\ (p.2 = true -> post = []).
Proof.
  assert (Hf : forall r pre0, (exists t, text = pre0 ++ t /\ occurs (parse_re r) t) <->
            exists part post, text = pre0 ++ part ++ post /\ lang (parse_re r).1 part /\ ((parse_re r).2 = true -> post = [])).
  { intros r pre0. split; [intros (t & -> & part & post & -> & ?); by exists part, post|intros (part & post & -> & ?)].
    exists (part ++ post). split; [done|]. by exists part, post. }
  unfold match_. cbv zeta. destruct (bool_decide_reflect (head re = Some caret)) as [Hc|Hc].
  - destruct re as [|c re]; [done|]. injection Hc as ->. cbn [tail]. rewrite Z.eqb_refl, matchhere_spec. split.
    + intros H. destruct (proj1 (Hf re [])) as (part & post & Ht & Hl & He); [by exists text|]. exists [], part, post. by split_and!.
    + intros (pre & part & post & -> & Hl & Hp & He). rewrite Hp by done. by exists part, post.
  - assert (E : (match re with c :: re' => if c =? caret then matchhere re' text else match_any (matchhere re) text | [] => match_any (matchhere re) text end)
              = match_any (matchhere re) text).
    { destruct re as [|c re]; [done|]. destruct (Z.eqb_spec c caret) as [->|]; [done|done]. }
    rewrite E, (match_any_spec _ _ _ (matchhere_spec re)). split.
    + intros (pre & H). apply Hf in H as (part & post & Ht & Hl & He). by exists pre, part, post.
    + intros (pre & part & post & Ht & Hl & _ & He). exists pre. apply Hf. by exists part, post.
Qed.

(** ** grep prints the lines that match *)
Definition text_of (ls : list (list Z)) : list Z := concat (map (fun l => l ++ [nl]) ls).

(** read(2) on a file: at most [want] bytes of what is left, and some when
    there are some and they are wanted *)
Definition read_ok (read : nat -> list Z -> list Z * list Z) : Prop :=
  forall want input, input = (read want input).1 ++ (read want input).2 /\ (length (read want input).1 <= want)%nat /\
    ((0 < want)%nat -> input <> [] -> (read want input).1 <> []).
(** A line grep's buffer can hold *)
Definition line_ok (l : list Z) : Prop := (nl ∉ l) /\ (0 ∉ l) /\ (length l + 1 < BUF_SIZE)%nat.

Lemma split_line_Some p l r : split_line p = Some (l, r) -> p = l ++ nl :: r /\ (nl ∉ l).
Proof.
  revert l. induction p as [|x p IH]; intros l; [done|]. cbn [split_line]. destruct (x =? 0); [done|].
  destruct (Z.eqb_spec x nl) as [->|Hx]; [intros [= <- <-]; split; [done|apply not_elem_of_nil]|].
  destruct (split_line p) as [[l' r']|]; [|done]. intros [= <- <-]. destruct (IH l' eq_refl) as [-> Hn]. split; [done|].
  rewrite not_elem_of_cons. split; [congruence|done].
Qed.
Lemma split_line_None p : 0 ∉ p -> split_line p = None -> nl ∉ p.
Proof.
  induction p as [|x p IH]; intros H0; [intros _; apply not_elem_of_nil|]. apply not_elem_of_cons in H0 as [Hx H0]. cbn [split_line].
  destruct (Z.eqb_spec x 0); [congruence|]. destruct (Z.eqb_spec x nl) as [|Hn]; [done|]. destruct (split_line p) as [[l' r']|]; [done|].
  intros _. rewrite not_elem_of_cons. split; [congruence|auto].
Qed.

Lemma first_nl l l' r r' : nl ∉ l -> nl ∉ l' -> l ++ nl :: r = l' ++ nl :: r' -> l = l' /\ r = r'.
Proof.
  revert l'. induction l as [|x l IH]; intros l' H H' E; destruct l' as [|y l']; cbn in E.
  - by injection E as ->.
  - injection E as <- _. rewrite not_elem_of_cons in H'. by destruct H'.
  - injection E as -> _. rewrite not_elem_of_cons in H. by destruct H.
  - injection E as -> E. rewrite not_elem_of_cons in H, H'. by destruct (IH l') as [-> ->]; [tauto|tauto|done|].
Qed.

Lemma grep_lines_spec pattern fuel p input ls rest :
  (length p < fuel)%nat -> Forall line_ok ls -> nl ∉ rest -> 0 ∉ p -> p ++ input = text_of ls ++ rest ->
  exists ls1 ls2 q, ls = ls1 ++ ls2 /\ grep_lines fuel pattern p = (text_of (filter (fun l => match_ pattern l = true) ls1), q) /\
    p = text_of ls1 ++ q /\ q ++ input = text_of ls2 ++ rest /\ (nl ∉ q) /\ (0 ∉ q).
Proof.
  revert p ls. induction fuel as [|fuel IH]; intros p ls Hf Hok Hr H0 E; [lia|]. cbn [grep_lines].
  destruct (split_line p) as [[l r]|] eqn:Es.
  - apply split_line_Some in Es as [-> Hn]. destruct ls as [|l' ls].
    { exfalso. apply Hr. cbn in E. rewrite <- E, <- app_assoc. rewrite elem_of_app. right. by left. }
    apply Forall_cons in Hok as [(Hl' & _ & _) Hok]. unfold text_of in E. cbn [map concat] in E. rewrite <- !app_assoc in E. cbn [app] in E.
    apply first_nl in E as [<- E]; [|done|done]. rewrite not_elem_of_app, not_elem_of_cons in H0. rewrite length_app in Hf. cbn in Hf.
    destruct (IH r ls) as (ls1 & ls2 & q & -> & -> & -> & Eq & Hq & Hq0); [lia|done|done|tauto|done|].
    exists (l :: ls1), ls2, q. split_and!; auto.
    + rewrite filter_cons. destruct (match_ pattern l) eqn:Em; [rewrite decide_True by done|rewrite decide_False by done]; [|done].
      done.
    + unfold text_of. cbn [map concat]. by rewrite <- !app_assoc.
  - exists [], ls, p. split_and!; auto. by apply split_line_None.
Qed.

Lemma grep_loop_spec read pattern fuel carry input ls rest :
  read_ok read -> (length input < fuel)%nat -> Forall line_ok ls -> nl ∉ rest -> nl ∉ carry -> 0 ∉ carry -> 0 ∉ input -> (length carry < BUF_SIZE)%nat ->
  carry ++ input = text_of ls ++ rest ->
  grep_loop fuel read pattern carry input = text_of (filter (fun l => match_ pattern l = true) ls).
Proof.
  intros Hread. revert carry input ls. induction fuel as [|fuel IH]; intros carry input ls Hf Hok Hr Hc Hc0 Hi0 Hm E; [lia|]. cbn [grep_loop].
  destruct (Hread (BUF_SIZE - length carry - 1)%nat input) as (Hin & Hle & Hsome). destruct (read _ input) as [chunk input'].
  cbn [fst snd] in Hin, Hle, Hsome. destruct chunk as [|x chunk].
  - destruct ls as [|l ls]; [done|exfalso]. apply Forall_cons in Hok as [(Hl & _ & Hlen) _].
    unfold text_of in E. cbn [map concat] in E. rewrite <- !app_assoc in E. cbn [app] in E.
    assert (Hat : (carry ++ input) !! length l = Some nl) by (rewrite E; by rewrite lookup_app_r, Nat.sub_diag by lia).
    destruct (decide (length l < length carry)%nat) as [Hlt|Hge].
    + rewrite lookup_app_l in Hat by lia. apply Hc. by eapply list_elem_of_lookup_2.
    + assert (Hi : input = []) by (destruct input; [done|]; exfalso; apply Hsome; [lia|done|done]).
      rewrite Hi, app_nil_r in Hat. apply lookup_lt_Some in Hat. lia.
  - set (chk := x :: chunk) in *. assert (H0 : 0 ∉ carry ++ chk) by (rewrite Hin in Hi0; rewrite !not_elem_of_app in *; tauto).
    rewrite Hin, app_assoc in E. assert (Hfl : (length (carry ++ chk) < S (length carry + length chk))%nat) by (rewrite length_app; lia).
    destruct (grep_lines_spec pattern _ _ _ _ _ Hfl Hok Hr H0 E) as (ls1 & ls2 & q & -> & -> & Ep & Eq & Hq & Hq0).
    apply Forall_app in Hok as [_ Hok]. rewrite (IH q input' ls2); auto.
    + rewrite filter_app. unfold text_of. by rewrite map_app, concat_app.
    + rewrite Hin, length_app in Hf. cbn in Hf. lia.
    + rewrite Hin in Hi0. rewrite not_elem_of_app in Hi0. tauto.
    + assert (length (carry ++ chk) = length (text_of ls1 ++ q)) by congruence. rewrite !length_app in *. lia.
Qed.

(** Grep prints the lines of its input that match, each with its newline,
    in order and nothing else, however read splits the input into pieces; what
    follows the last newline is not printed.  The lines must fit its buffer. *)
Theorem grep_filters_lines read pattern ls rest :
  read_ok read -> Forall line_ok ls -> nl ∉ rest -> 0 ∉ rest ->
  grep read pattern (text_of ls ++ rest) = text_of (filter (fun l => match_ pattern l = true) ls).
Proof.
  intros Hread Hok Hr H0. unfold grep. apply (grep_loop_spec _ _ _ _ _ _ rest); auto; try apply not_elem_of_nil; [|unfold BUF_SIZE; cbn; lia].
  rewrite not_elem_of_app. split; [|done]. clear -Hok. induction Hok as [|l ls (_ & Hl & _) _ IH]; [apply not_elem_of_nil|].
  unfold text_of in *. cbn [map concat]. rewrite !not_elem_of_app, not_elem_of_cons. split_and!; auto using not_elem_of_nil.
Qed.

(** A read that returns at most three bytes at a time *)
Definition demo_read (want : nat) (input : list Z) : list Z * list Z := (take (want `min` 3) input, drop (want `min` 3) input).

(** grep o on the lines foo, bar, boo and an unfinished line o *)
Lemma grep_filters_lines_witness :
  grep demo_read [111] ([102; 111; 111; 10; 98; 97; 114; 10; 98; 111; 111; 10] ++ [111]) = [102; 111; 111; 10; 98; 111; 111; 10].
Proof.
  apply (grep_filters_lines demo_read [111] [[102; 111; 111]; [98; 97; 114]; [98; 111; 111]] [111]).
  - intros want input. unfold demo_read. cbn [fst snd]. split_and!; [by rewrite take_drop|rewrite length_take; lia|].
    intros Hw Hi H. apply (f_equal length) in H. rewrite length_take in H. destruct input; [done|]. cbn in H. lia.
  - apply (bool_decide_unpack _). vm_compute. exact I.
  - apply (bool_decide_unpack _). vm_compute. exact I.
  - apply (bool_decide_unpack _). vm_compute. exact I.
Defined.
