(* ===== verification/Umalloc.v ===== *)
(** * The user-level allocator: user/umalloc.c

    The allocator of Kernighan and Ritchie: a circular list of free blocks in
    address order, threaded through headers in front of the blocks.  An
    address is a byte address; a header is 16 bytes and sizes count headers.
    The heap is the map from header addresses to headers; the bytes of a block
    behind its header belong to the program and are not part of it.  sbrk is
    an argument: the new break, or a refusal.  Proved: over any sequence of
    calls the blocks handed out never overlap, no memory is lost, malloc fails
    only when the kernel refuses memory, and every loop ends. *)

From stdpp Require Import sorting.
From S2P Require Import Prelude.

(** ** The heap *)
Definition HDR : Z := 16.
Record uheap := mkHeap { h_mem : gmap Z (Z * Z); h_freep : Z; h_brk : Z }.
Definition hptr (h : uheap) (p : Z) : Z := fst (default (0, 0) (h_mem h !! p)).
Definition hsize (h : uheap) (p : Z) : Z := snd (default (0, 0) (h_mem h !! p)).
Definition put_hdr (h : uheap) (p ptr size : Z) : uheap := mkHeap (<[p := (ptr, size)]> (h_mem h)) (h_freep h) (h_brk h).
Definition put_freep (h : uheap) (p : Z) : uheap := mkHeap (h_mem h) p (h_brk h).

Section umalloc.
(** &base, and sbrk: from the break and the increment, the new break *)
Context (base : Z) (sbrk : Z -> Z -> option Z).

(** ** free *)
Fixpoint free_search (fuel : nat) (bp p : Z) (h : uheap) : option Z :=
  match fuel with
  | O => None
  | S fuel' =>
      let nx := hptr h p in
      if (p <? bp) && (bp <? nx) then Some p
      else if (nx <=? p) && ((p <? bp) || (bp <? nx)) then Some p
      else free_search fuel' bp nx h
  end.

Definition join_upper (bp p : Z) (h : uheap) : uheap :=
  let nx := hptr h p in
  if bp + HDR * hsize h bp =? nx then put_hdr h bp (hptr h nx) (u32 (hsize h bp + hsize h nx))
  else put_hdr h bp nx (hsize h bp).
Definition join_lower (bp p : Z) (h : uheap) : uheap :=
  if p + HDR * hsize h p =? bp then put_hdr h p (hptr h bp) (u32 (hsize h p + hsize h bp))
  else put_hdr h p bp (hsize h p).

Definition free (ap : Z) (h : uheap) : option uheap :=
  let bp := ap - HDR in
  match free_search (S (size (h_mem h))) bp (h_freep h) h with
  | Some p => Some (put_freep (join_lower bp p (join_upper bp p h)) p)
  | None => None
  end.

(** ** morecore: refused, or the heap with the new block; out of fuel *)
Definition morecore (nu : Z) (h : uheap) : option (option uheap) :=
  let nu := if nu <? 4096 then 4096 else nu in
  match sbrk (h_brk h) (s32 (nu * HDR)) with
  | None => Some None
  | Some brk =>
      let hp := h_brk h in
      let h := mkHeap (h_mem h) (h_freep h) brk in
      match free (hp + HDR) (put_hdr h hp (hptr h hp) nu) with
      | Some h => Some (Some h)
      | None => None
      end
  end.

(** ** malloc *)
Definition units (nbytes : Z) : Z := u32 ((nbytes + HDR - 1) / HDR + 1).

(** p->s.size >= nunits: the whole block, or its tail *)
Definition take_block (nunits prevp p : Z) (h : uheap) : Z * uheap :=
  if hsize h p =? nunits then
    (p + HDR, put_freep (put_hdr h prevp (hptr h p) (hsize h prevp)) prevp)
  else
    let rest := u32 (hsize h p - nunits) in
    let q := p + HDR * rest in
    let h := put_hdr h p (hptr h p) rest in
    (q + HDR, put_freep (put_hdr h q (hptr h q) nunits) prevp).

Fixpoint malloc_loop (fuel : nat) (nunits prevp p : Z) (h : uheap) : option (Z * uheap) :=
  match fuel with
  | O => None
  | S fuel' =>
      if nunits <=? hsize h p then Some (take_block nunits prevp p h)
      else if p =? h_freep h then
        match morecore nunits h with
        | None => None
        | Some None => Some (0, h)
        | Some (Some h) => malloc_loop fuel' nunits (h_freep h) (hptr h (h_freep h)) h
        end
      else malloc_loop fuel' nunits p (hptr h p) h
  end.

Definition init_heap (h : uheap) : uheap := if h_freep h =? 0 then put_freep (put_hdr h base base 0) base else h.
Definition malloc (nbytes : Z) (h : uheap) : option (Z * uheap) :=
  let h := init_heap h in
  malloc_loop (2 * size (h_mem h) + 8) (units nbytes) (h_freep h) (hptr h (h_freep h)) h.
End umalloc.

(** ** Blocks *)
Abbreviation blk := (Z * Z)%type.
Definition bend (b : blk) : Z := b.1 + HDR * b.2.
Definition before (b b' : blk) : Prop := bend b < b'.1.
Definition apart (b b' : blk) : Prop := bend b <= b'.1 \/ bend b' <= b.1.
Definition total (l : list blk) : Z := foldr (fun b n => b.2 + n) 0 l.

(** The blocks of [F] are chained by their headers, the last one to [e]. *)
Definition first (F : list blk) (e : Z) : Z := match F with b :: _ => b.1 | [] => e end.
Fixpoint linked (m : gmap Z (Z * Z)) (F : list blk) (e : Z) : Prop :=
  match F with
  | [] => True
  | b :: F' => m !! b.1 = Some (first F' e, b.2) /\ linked m F' e
  end.

Lemma total_cons b l : total (b :: l) = b.2 + total l.
Proof. done. Qed.
Lemma total_units_app l l' : total (l ++ l') = total l + total l'.
Proof. unfold total. induction l as [|b l IH]; cbn; [lia|]. rewrite IH. lia. Qed.

Lemma first_app F G e : first (F ++ G) e = first F (first G e).
Proof. by destruct F. Qed.
Lemma linked_app m F G e : linked m (F ++ G) e <-> linked m F (first G e) /\ linked m G e.
Proof. induction F as [|b F IH]; cbn; [tauto|]. rewrite IH, first_app. tauto. Qed.
Lemma linked_insert m a x F e : a ∉ F.*1 -> linked m F e -> linked (<[a := x]> m) F e.
Proof.
  induction F as [|b F IH]; [done|]. cbn. rewrite not_elem_of_cons. intros [Hb Hn] [H1 H2]. rewrite lookup_insert_ne by done. auto.
Qed.

Lemma linked_hdr h F G b e : linked (h_mem h) (F ++ b :: G) e -> hptr h b.1 = first G e /\ hsize h b.1 = b.2.
Proof. rewrite linked_app. cbn. intros (_ & H & _). unfold hptr, hsize. by rewrite H. Qed.

Lemma sorted_keys F x a : StronglySorted before (x :: F) -> (forall f, f ∈ F -> 0 <= f.2) -> 0 <= x.2 -> a <= x.1 -> a ∉ F.*1.
Proof.
  intros Hs Hp Hx Ha Hin. apply list_elem_of_fmap in Hin as (f & -> & Hf). apply StronglySorted_cons in Hs as [Hs _].
  rewrite Forall_forall in Hs. specialize (Hs f Hf). unfold before, bend, HDR in Hs. lia.
Qed.

(** The place of a block that is apart from all free blocks *)
Lemma place bp n x F : 0 < n -> bend x <= bp -> 0 <= x.2 -> x.1 < bp ->
  StronglySorted before (x :: F) -> (forall f, f ∈ F -> 0 < f.2 /\ apart (bp, n) f) ->
  exists L P R, x :: F = L ++ P :: R /\ P.1 < bp /\ bend P <= bp /\ (forall f, f ∈ R -> bend (bp, n) <= f.1).
Proof.
  revert x. induction F as [|y F IH]; intros x Hn Hx Hx2 Hxb Hs Ha.
  - exists [], x, []. split_and!; [done|done|done|]. intros f Hf. by apply not_elem_of_nil in Hf.
  - destruct (decide (y.1 < bp)) as [Hy|Hy].
    + destruct (Ha y) as [Hy2 Hya]; [by left|]. destruct (IH y) as (L & P & R & E & H1 & H2 & H3); auto.
      * unfold apart, bend, HDR in *. cbn in *. lia.
      * lia.
      * by apply StronglySorted_cons in Hs as [_ ?].
      * intros f Hf. apply Ha. by right.
      * exists (x :: L), P, R. cbn. by rewrite E.
    + exists [], x, (y :: F). split_and!; [done|done|done|]. intros f Hf. destruct (Ha f Hf) as [Hf2 Hfa].
      enough (y.1 <= f.1) by (unfold apart, bend, HDR in *; cbn in *; lia). apply elem_of_cons in Hf as [->|Hf]; [lia|].
      apply StronglySorted_cons in Hs as [_ Hs]. apply StronglySorted_cons in Hs as [Hs _]. rewrite Forall_forall in Hs.
      specialize (Hs f Hf). destruct (Ha y) as [Hy2 _]; [by left|]. unfold before, bend, HDR in Hs. lia.
Qed.

(** ** The search of free *)
Lemma first_le B P R e : StronglySorted before (B ++ P :: R) -> (forall f, f ∈ B -> 0 <= f.2) -> first (B ++ P :: R) e <= P.1.
Proof.
  destruct B as [|c B]; cbn [first app]; [lia|]. intros Hs Hp. apply StronglySorted_cons in Hs as [Hs _]. rewrite Forall_forall in Hs.
  specialize (Hs P ltac:(rewrite elem_of_app; right; by left)). specialize (Hp c ltac:(by left)). unfold before, bend, HDR in Hs. lia.
Qed.
Lemma first_gt b G e : StronglySorted before (b :: G) -> 0 <= b.2 -> G <> [] -> b.1 < first G e.
Proof.
  destruct G as [|c G]; [done|]. intros Hs Hp _. apply StronglySorted_cons in Hs as [Hs _]. rewrite Forall_forall in Hs.
  specialize (Hs c ltac:(by left)). unfold before, bend, HDR in Hs. cbn [first]. lia.
Qed.

Section search.
Context (base bp : Z) (h : uheap).

Lemma search_forward A B P R fuel : linked (h_mem h) (A ++ B ++ P :: R) base -> StronglySorted before (B ++ P :: R) ->
  (forall f, f ∈ B -> 0 <= f.2) -> base <= P.1 -> P.1 < bp -> (forall f, f ∈ R -> bp < f.1) -> (length B < fuel)%nat ->
  free_search fuel bp (first (B ++ [P]) 0) h = Some P.1.
Proof.
  revert A fuel. induction B as [|b B IH]; intros A fuel Hl Hs Hp Hb HP HR Hf; (destruct fuel as [|fuel]; [cbn in Hf; lia|]); cbn [free_search first].
  - cbn [app first]. destruct (linked_hdr _ _ _ _ _ Hl) as [-> _]. destruct R as [|r R]; cbn [first].
    + rewrite (proj2 (Z.ltb_lt _ _) HP). destruct (bp <? base) eqn:E; [done|]. cbn [andb orb]. by rewrite (proj2 (Z.leb_le _ _) Hb).
    + rewrite (proj2 (Z.ltb_lt _ _) HP), (proj2 (Z.ltb_lt _ _) (HR r ltac:(by left))). done.
  - change ((b :: B) ++ P :: R) with (b :: (B ++ P :: R)) in *. change (first ((b :: B) ++ [P]) 0) with b.1. destruct (linked_hdr _ _ _ _ _ Hl) as [-> _].
    assert (H1 : b.1 < first (B ++ P :: R) base) by (apply first_gt; [done|apply Hp; by left|by destruct B]).
    apply StronglySorted_cons in Hs as [_ Hs].
    assert (H2 : first (B ++ P :: R) base <= P.1) by (apply first_le; [done|intros f Hf'; apply Hp; by right]).
    destruct (Z.ltb_spec bp (first (B ++ P :: R) base)) as [|_]; [lia|]. rewrite andb_false_r.
    destruct (Z.leb_spec (first (B ++ P :: R) base) b.1) as [|_]; [lia|]. cbn [andb].
    replace (first (B ++ P :: R) base) with (first (B ++ [P]) 0) by (by destruct B). cbn in Hf. apply (IH (A ++ [b])).
    + by rewrite <- app_assoc.
    + done.
    + intros f Hf'. apply Hp. by right.
    + done.
    + done.
    + done.
    + lia.
Qed.

Lemma search_wrap A R fuel : linked (h_mem h) (A ++ R) base -> StronglySorted before R -> (forall f, f ∈ R -> 0 <= f.2) -> R <> [] ->
  base < bp -> (forall f, f ∈ R -> bp < f.1) ->
  free_search (length R + fuel) bp (first R 0) h = free_search fuel bp base h.
Proof.
  revert A. induction R as [|b R IH]; intros A Hl Hs Hp Hne Hb HR; [done|]. cbn [length Nat.add free_search first].
  destruct (linked_hdr _ _ _ _ _ Hl) as [-> _]. pose proof (HR b ltac:(by left)) as Hbb. destruct (Z.ltb_spec b.1 bp) as [|_]; [lia|]. cbn [andb orb].
  destruct R as [|c R].
  - cbn [first length Nat.add]. destruct (Z.ltb_spec bp base) as [|_]; [lia|]. by rewrite andb_false_r.
  - assert (H1 : b.1 < first (c :: R) base) by (apply first_gt; [done|apply Hp; by left|done]).
    destruct (Z.leb_spec (first (c :: R) base) b.1) as [|_]; [lia|]. cbn [andb]. apply StronglySorted_cons in Hs as [_ Hs].
    apply (IH (A ++ [b])); auto.
    + by rewrite <- app_assoc.
    + intros f Hf. apply Hp. by right.
    + intros f Hf. apply HR. by right.
Qed.
End search.

(** ** The invariant *)
Section heap.
Context (base brk0 : Z).
Context (Hbase : 0 < base) (Hbrk0 : base + HDR <= brk0).

(** A block of memory from sbrk *)
Definition owned (h : uheap) (b : blk) : Prop := 0 < b.2 /\ brk0 <= b.1 /\ bend b <= h_brk h.

(** [F]: the free blocks in address order, behind &base, which has size 0;
    [live]: the blocks handed out.  Together they are the memory sbrk gave. *)
Record heap_ok (F live : list blk) (h : uheap) : Prop := {
  ho_linked : linked (h_mem h) ((base, 0) :: F) base;
  ho_sorted : StronglySorted before ((base, 0) :: F);
  ho_freep : exists b, b ∈ (base, 0) :: F /\ b.1 = h_freep h;
  ho_free : forall f, f ∈ F -> owned h f;
  ho_live : forall b, b ∈ live -> owned h b /\ hsize h b.1 = b.2;
  ho_apart : forall b f, b ∈ live -> f ∈ F -> apart b f;
  ho_disjoint : ForallOrdPairs apart live;
  ho_total : h_brk h = brk0 + HDR * (total F + total live);
  ho_limit : h_brk h <= 2 ^ 32;
}.

Lemma ring_size F live h f : heap_ok F live h -> f ∈ (base, 0) :: F -> 0 <= f.2 /\ base <= f.1 /\ (f.1 = base -> f = (base, 0)) /\ bend f <= Z.max brk0 (h_brk h).
Proof.
  intros Hh Hf. apply elem_of_cons in Hf as [->|Hf]; [unfold bend, HDR in *; cbn; split_and!; [lia|lia|done|lia]|].
  destruct (ho_free _ _ _ Hh f Hf) as (H1 & H2 & H3). unfold bend, HDR in *. split_and!; [lia|lia|lia|lia].
Qed.

Lemma linked_length m F e : linked m F e -> NoDup F.*1 -> (length F <= size m)%nat.
Proof.
  intros Hl Hn. rewrite <- (length_fmap fst F), <- (size_dom (D := gset Z) m), <- (size_list_to_set (C := gset Z) _ Hn). apply subseteq_size.
  intros a Ha. apply elem_of_list_to_set in Ha. apply list_elem_of_fmap in Ha as (b & -> & Hb). apply elem_of_dom.
  apply list_elem_of_split in Hb as (F1 & F2 & ->). apply linked_app in Hl as [_ [-> _]]. by eexists.
Qed.
Lemma sorted_NoDup F : StronglySorted before F -> (forall f, f ∈ F -> 0 <= f.2) -> NoDup F.*1.
Proof.
  induction F as [|b F IH]; intros Hs Hp; [constructor|]. cbn. constructor.
  - apply (sorted_keys F b b.1); auto; [intros f Hf; apply Hp; by right|apply Hp; by left|lia].
  - apply IH; [by apply StronglySorted_cons in Hs as [_ ?]|]. intros f Hf. apply Hp. by right.
Qed.
Lemma ring_length F live h : heap_ok F live h -> (S (length F) <= size (h_mem h))%nat.
Proof.
  intros Hh. apply (linked_length _ ((base, 0) :: F) base); [by apply Hh|]. apply sorted_NoDup; [by apply Hh|]. intros f Hf.
  by destruct (ring_size _ _ _ f Hh Hf).
Qed.

(** The search of free ends at the place of the block. *)
Lemma search_place F live h bp n L P R : heap_ok F live h -> (base, 0) :: F = L ++ P :: R -> 0 < n ->
  P.1 < bp -> base < bp -> (forall f, f ∈ R -> bend (bp, n) <= f.1) ->
  free_search (S (size (h_mem h))) bp (h_freep h) h = Some P.1.
Proof.
  intros Hh E Hn HP Hb HR. pose proof (f_equal length E) as EL. rewrite length_app in EL. cbn in EL. pose proof (ring_length _ _ _ Hh) as Hlen. rewrite EL in Hlen. clear EL.
  pose proof (ho_linked _ _ _ Hh) as Hl. pose proof (ho_sorted _ _ _ Hh) as Hs. rewrite E in Hl, Hs.
  assert (Hp : forall f, f ∈ L ++ P :: R -> 0 <= f.2 /\ base <= f.1) by (intros f Hf; rewrite <- E in Hf; destruct (ring_size _ _ _ f Hh Hf); tauto).
  assert (HR' : forall f, f ∈ R -> bp < f.1) by (intros f Hf; specialize (HR f Hf); unfold bend, HDR in HR; cbn in HR; lia).
  assert (HPb : base <= P.1) by (apply Hp; rewrite elem_of_app; right; by left).
  assert (Hwalk : forall A B fuel, L ++ P :: R = A ++ B ++ P :: R -> (length B < fuel)%nat -> free_search fuel bp (first (B ++ [P]) 0) h = Some P.1).
  { intros A B fuel EL Hf. rewrite EL in Hl, Hs. apply StronglySorted_app in Hs as (_ & _ & Hs). eapply search_forward; eauto.
    intros f Hf'. apply Hp. rewrite EL, !elem_of_app. tauto. }
  destruct (ho_freep _ _ _ Hh) as (b & Hb' & <-). rewrite E in Hb'. rewrite elem_of_app, elem_of_cons in Hb'.
  assert (Hfirst : base = first (L ++ [P]) 0) by (destruct L; cbn in E |- *; by injection E as <- _).
  destruct Hb' as [Hb'|[->|Hb']].
  - apply list_elem_of_split in Hb' as (A & B & ->). apply (Hwalk A (b :: B)); [by rewrite <- app_assoc|]. cbn. rewrite length_app in Hlen. cbn in Hlen. lia.
  - apply (Hwalk L []); [done|]. cbn. lia.
  - apply list_elem_of_split in Hb' as (A & B & ->). rewrite length_app in Hlen. cbn in Hlen.
    replace (S (size (h_mem h))) with (length (b :: B) + (S (size (h_mem h)) - length (b :: B)))%nat by (cbn; lia).
    replace (L ++ P :: A ++ b :: B) with ((L ++ P :: A) ++ b :: B) in Hl, Hs, Hp by (by rewrite <- app_assoc).
    change b.1 with (first (b :: B) 0). rewrite (search_wrap base bp h (L ++ P :: A) (b :: B)); auto.
    + rewrite Hfirst. apply (Hwalk []); [done|]. cbn. lia.
    + by apply StronglySorted_app in Hs as (_ & _ & ?).
    + intros f Hf. apply Hp. rewrite elem_of_app. tauto.
    + intros f Hf. apply HR'. rewrite elem_of_app. tauto.
Qed.

(** ** free *)
Lemma join_upper_ok F live h bp n L P R : heap_ok F ((bp, n) :: live) h -> (base, 0) :: F = L ++ P :: R ->
  (forall f, f ∈ R -> bend (bp, n) <= f.1) ->
  exists R1 n1, join_upper bp P.1 h = put_hdr h bp (first R1 base) n1 /\ n <= n1 /\ (length R1 <= length R)%nat /\ n1 + total R1 = n + total R /\
    linked (h_mem h) R1 base /\ StronglySorted before R1 /\ (forall f, f ∈ R1 -> f ∈ R /\ before (bp, n1) f) /\
    owned h (bp, n1) /\ (forall b, b ∈ live -> apart b (bp, n1)).
Proof.
  intros Hh E HR. destruct (ho_live _ _ _ Hh (bp, n)) as [(Hn & Hbp & He) Hsz]; [by left|]. cbn [fst snd] in *.
  pose proof (ho_linked _ _ _ Hh) as Hl. pose proof (ho_sorted _ _ _ Hh) as Hs. rewrite E in Hl, Hs.
  apply StronglySorted_app in Hs as (_ & _ & Hs). apply StronglySorted_cons in Hs as [HsP Hs]. rewrite Forall_forall in HsP.
  assert (Hap : forall b, b ∈ live -> apart b (bp, n)).
  { intros b Hb. pose proof (ho_disjoint _ _ _ Hh) as Hd. inversion Hd as [|? ? Hf _]; subst. rewrite List.Forall_forall in Hf.
    specialize (Hf b ltac:(by apply list_elem_of_In)). unfold apart in *. tauto. }
  destruct (linked_hdr _ _ _ _ _ Hl) as [Hpp _]. unfold join_upper. rewrite Hpp, Hsz. rewrite linked_app in Hl. destruct Hl as [_ [_ Hl]].
  assert (Hown : forall f, f ∈ R -> owned h f).
  { intros f Hf. assert (Hin : f ∈ (base, 0) :: F) by (rewrite E, elem_of_app; right; by right).
    apply elem_of_cons in Hin as [->|Hin]; [|by apply Hh]. specialize (HR _ Hf). unfold bend, HDR in *. cbn in *. lia. }
  destruct (Z.eqb_spec (bp + HDR * n) (first R base)) as [Eq|Ne].
  - destruct R as [|N R]; cbn [first] in *; [unfold HDR in *; lia|]. apply StronglySorted_cons in Hs as [HsN Hs]. rewrite Forall_forall in HsN.
    destruct Hl as [HN Hl]. destruct (Hown N) as (HN1 & HN2 & HN3); [by left|]. pose proof (ho_limit _ _ _ Hh) as Hlim.
    exists R, (n + N.2). unfold hptr, hsize. rewrite HN. cbn [default from_option id fst snd]. unfold bend, HDR in *. cbn [fst snd] in *.
    split_and!; auto; try lia.
    + f_equal. apply u32_small. lia.
    + cbn. lia.
    + rewrite total_cons. lia.
    + intros f Hf. split; [by right|]. specialize (HsN f Hf). unfold before, bend, HDR in *. cbn [fst snd]. lia.
    + unfold owned, bend, HDR. cbn [fst snd]. lia.
    + intros b Hb. specialize (Hap b Hb). pose proof (ho_apart _ _ _ Hh b N ltac:(by right)) as HaN.
      assert (HNF : N ∈ F).
      { assert (Hin : N ∈ (base, 0) :: F) by (rewrite E, elem_of_app; right; right; by left). apply elem_of_cons in Hin as [->|Hin]; [cbn in *; lia|done]. }
      specialize (HaN HNF). destruct (ho_live _ _ _ Hh b ltac:(by right)) as [(Hb1 & _) _]. unfold apart, bend, HDR in *. cbn [fst snd] in *. lia.
  - exists R, n. split_and!; auto; try lia; try done. intros f Hf. split; [done|]. pose proof (HR f Hf) as HRf. destruct R as [|N R]; [by apply not_elem_of_nil in Hf|].
    cbn [first] in Ne. specialize (HR N ltac:(by left)). apply elem_of_cons in Hf as [->|Hf]; [unfold before, bend in *; cbn [fst snd] in *; lia|].
    apply StronglySorted_cons in Hs as [HsN _]. rewrite Forall_forall in HsN. specialize (HsN f Hf). specialize (Hown N ltac:(by left)).
    unfold owned, before, bend, HDR in *. cbn [fst snd] in *. lia.
Qed.

Lemma linked_ext m m' F e : (forall a, a ∈ F.*1 -> m' !! a = m !! a) -> linked m F e -> linked m' F e.
Proof.
  induction F as [|b F IH]; [done|]. cbn. intros Hm [H1 H2]. rewrite Hm by (by left). split; [done|]. apply IH; [|done]. intros a Ha. apply Hm. by right.
Qed.

(** The ring after its part from [P] on has been replaced by [M], and the
    blocks handed out by [live'] *)
Lemma rering F live live' h L P R M m' fp : heap_ok F live h -> (base, 0) :: F = L ++ P :: R ->
  (match M with x :: _ => x.1 = P.1 /\ (L = [] -> x = (base, 0)) | [] => False end) -> linked m' M base -> (forall a, a ∈ L.*1 -> m' !! a = h_mem h !! a) ->
  StronglySorted before M -> (forall y, y ∈ M -> P.1 <= y.1) ->
  (forall y, y ∈ M -> y = (base, 0) \/ owned h y /\ forall b, b ∈ live' -> apart b y) ->
  (forall b, b ∈ live' -> owned h b /\ hsize (mkHeap m' fp (h_brk h)) b.1 = b.2 /\ forall f, f ∈ F -> f ∈ L -> apart b f) ->
  ForallOrdPairs apart live' -> total M + total live' = total (P :: R) + total live -> (exists b, b ∈ L ++ M /\ b.1 = fp) ->
  exists F', (base, 0) :: F' = L ++ M /\ heap_ok F' live' (mkHeap m' fp (h_brk h)).
Proof.
  intros Hh E HM HlM HmL HsM HgM HoM Hlive Hd' Ht Hfp. pose proof (ho_linked _ _ _ Hh) as Hl. pose proof (ho_sorted _ _ _ Hh) as Hs. rewrite E in Hl, Hs.
  destruct M as [|x M]; [done|]. destruct HM as [HxP HxL].
  assert (HF : exists F', (base, 0) :: F' = L ++ x :: M).
  { destruct L as [|l L]; cbn in E |- *; [rewrite HxL by done; by eexists|]. injection E as <- _. by eexists. }
  destruct HF as [F' EF]. exists F'. split; [done|].
  assert (HL : forall f, f ∈ L -> before f P) by (intros f Hf; apply StronglySorted_app in Hs as (Hs & _ & _); apply Hs; [done|by left]).
  assert (HF' : forall f, f ∈ F' -> (f ∈ F /\ f ∈ L) \/ f ∈ x :: M).
  { intros f Hf. assert (Hin : f ∈ L ++ x :: M) by (rewrite <- EF; by right). rewrite elem_of_app in Hin. destruct Hin as [Hin|]; [left|by right]. split; [|done].
    destruct L as [|l L]; [by apply not_elem_of_nil in Hin|]. cbn in E, EF. injection E as El ->. injection EF as _ ->.
    apply elem_of_cons in Hin as [->|Hin]; [|rewrite elem_of_app; by left]. exfalso. subst l. apply elem_of_app in Hf as [Hf|Hf].
    - apply StronglySorted_cons in Hs as [Hs _]. rewrite Forall_forall in Hs. specialize (Hs (base, 0)). unfold before, bend, HDR in Hs. cbn in Hs.
      specialize (Hs ltac:(rewrite elem_of_app; by left)). lia.
    - specialize (HgM _ Hf). specialize (HL (base, 0) ltac:(by left)). unfold before, bend, HDR in HL. cbn in HL, HgM. lia. }
  assert (Hsort : StronglySorted before ((base, 0) :: F')).
  { rewrite EF. apply StronglySorted_app. split_and!; [|by apply StronglySorted_app in Hs as (_ & ? & _)|done].
    intros f y Hf Hy. specialize (HL f Hf). specialize (HgM y Hy). unfold before in *. lia. }
  assert (Hnb : (base, 0) ∉ F').
  { apply StronglySorted_cons in Hsort as [Hb _]. rewrite Forall_forall in Hb. intros Hin. specialize (Hb _ Hin). unfold before, bend, HDR in Hb. cbn in Hb. lia. }
  constructor.
  - rewrite EF. apply linked_app. split; [|done]. cbn [first]. rewrite HxP. apply linked_app in Hl as [Hl _]. by eapply linked_ext.
  - done.
  - by rewrite EF.
  - intros f Hf. destruct (HF' f Hf) as [[Hin _]|Hin]; [by apply Hh|]. destruct (HoM f Hin) as [->|[Ho _]]; [done|exact Ho].
  - intros b Hb. by destruct (Hlive b Hb) as (? & ? & _).
  - intros b f Hb Hf. destruct (HF' f Hf) as [[Hin HfL]|Hin]; [by apply Hlive|]. destruct (HoM f Hin) as [->|[_ Ha]]; [done|auto].
  - done.
  - pose proof (ho_total _ _ _ Hh) as HT. cbn [h_brk].
    assert (E1 : total ((base, 0) :: F) = total (L ++ P :: R)) by congruence. assert (E2 : total ((base, 0) :: F') = total (L ++ x :: M)) by congruence.
    rewrite total_units_app, total_cons in E1, E2. cbn [snd] in E1, E2. lia.
  - apply Hh.
Qed.

(** Freeing: the block [bp] joins the ring. *)
Lemma relink F live h bp n L P R M m' : heap_ok F ((bp, n) :: live) h -> (base, 0) :: F = L ++ P :: R ->
  (match M with x :: _ => x.1 = P.1 /\ (L = [] -> x = (base, 0)) | [] => False end) -> linked m' M base -> (forall a, a ∈ L.*1 -> m' !! a = h_mem h !! a) ->
  (forall b, b ∈ live -> m' !! b.1 = h_mem h !! b.1) -> StronglySorted before M -> (forall y, y ∈ M -> P.1 <= y.1) ->
  (forall y, y ∈ M -> y = (base, 0) \/ owned h y /\ forall b, b ∈ live -> apart b y) -> total M = P.2 + n + total R ->
  exists F', (base, 0) :: F' = L ++ M /\ heap_ok F' live (mkHeap m' P.1 (h_brk h)).
Proof.
  intros Hh E HM HlM HmL Hml HsM HgM HoM Ht. eapply rering; eauto.
  - intros b Hb. destruct (ho_live _ _ _ Hh b) as [Ho Hsz]; [by right|]. split_and!; [done| |intros f Hf _; apply Hh; [by right|done]].
    revert Hsz. unfold hsize. cbn [h_mem]. by rewrite Hml.
  - pose proof (ho_disjoint _ _ _ Hh) as Hd. by inversion Hd.
  - rewrite !total_cons. cbn [snd]. lia.
  - destruct M as [|x M]; [done|]. exists x. split; [rewrite elem_of_app; right; by left|by destruct HM].
Qed.

Lemma hdr_eq h p ptr n : hptr (put_hdr h p ptr n) p = ptr /\ hsize (put_hdr h p ptr n) p = n.
Proof. unfold hptr, hsize, put_hdr. cbn [h_mem]. by rewrite lookup_insert_eq. Qed.
Lemma hdr_ne h p q ptr n : p <> q -> hptr (put_hdr h p ptr n) q = hptr h q /\ hsize (put_hdr h p ptr n) q = hsize h q.
Proof. intros H. unfold hptr, hsize, put_hdr. cbn [h_mem]. by rewrite lookup_insert_ne. Qed.

(** The block [bp] between [P] and the rest of the ring, joined with the
    block above it: [n1] units, followed by [R1] *)
Section placed.
Context (F live : list blk) (h : uheap) (bp n n1 : Z) (L : list blk) (P : blk) (R R1 : list blk).
Context (Hh : heap_ok F ((bp, n) :: live) h) (E : (base, 0) :: F = L ++ P :: R) (HP : P.1 < bp) (HPe : bend P <= bp).
Context (Hn1 : n <= n1) (Hlen : (length R1 <= length R)%nat) (Ht : n1 + total R1 = n + total R) (HlR : linked (h_mem h) R1 base) (HsR : StronglySorted before R1).
Context (HR1 : forall f, f ∈ R1 -> f ∈ R /\ before (bp, n1) f) (Ho : owned h (bp, n1)) (Ha : forall b, b ∈ live -> apart b (bp, n1)).
Abbreviation h1 := (put_hdr h bp (first R1 base) n1).

Lemma placed_ring f : f ∈ L ++ P :: R -> f.1 <> base -> f ∈ F.
Proof using All. intros Hf Hne. rewrite <- E in Hf. by apply elem_of_cons in Hf as [->|]. Qed.
Lemma placed_rest f : f ∈ R1 -> bp < f.1 /\ f ∈ F.
Proof using All.
  intros Hf. destruct (HR1 f Hf) as [HfR Hb]. pose proof Ho as (Ho1 & Ho2 & _). unfold before, bend, HDR in *. cbn in *.
  split; [lia|]. apply placed_ring; [rewrite elem_of_app; right; by right|lia].
Qed.
Lemma placed_keys a : a <= bp -> a ∉ R1.*1.
Proof using All. intros Hle Hin. apply list_elem_of_fmap in Hin as (f & -> & Hf). destruct (placed_rest f Hf). lia. Qed.
Lemma placed_before a : a ∈ L.*1 -> a < P.1.
Proof using All.
  intros Hin. apply list_elem_of_fmap in Hin as (f & -> & Hf). pose proof (ho_sorted _ _ _ Hh) as Hs. rewrite E in Hs.
  apply StronglySorted_app in Hs as (HsL & _ & _). specialize (HsL f P Hf ltac:(by left)).
  destruct (ring_size F _ h f Hh) as (Hf0 & _); [rewrite E, elem_of_app; by left|]. unfold before, bend, HDR in HsL. lia.
Qed.
Lemma placed_live b : b ∈ live -> b.1 <> bp /\ b.1 <> P.1.
Proof using All.
  intros Hb. destruct (ho_live _ _ _ Hh b) as [(Hb1 & Hb2 & _) _]; [by right|]. pose proof (Ha b Hb) as Hab. pose proof Ho as [Ho1 _].
  split; [unfold apart, bend, HDR in Hab; cbn in Hab, Ho1; lia|]. intros Eb. destruct (decide (P.1 = base)) as [Eq|Ne]; [unfold HDR in *; lia|].
  assert (HPF : P ∈ F) by (apply placed_ring; [rewrite elem_of_app; right; by left|done]).
  pose proof (ho_apart _ _ _ Hh b P ltac:(by right) HPF) as Hap. destruct (ho_free _ _ _ Hh P HPF) as [HPp _].
  unfold apart, bend, HDR in Hap. lia.
Qed.
Lemma placed_frame a x : (a ∈ L.*1 \/ exists b, b ∈ live /\ b.1 = a) -> <[P.1 := x]> (h_mem h1) !! a = h_mem h !! a.
Proof using All.
  intros H. assert (a <> bp /\ a <> P.1) as [? ?].
  { destruct H as [Hin|(b & Hb & <-)]; [|by apply placed_live]. specialize (placed_before a Hin). lia. }
  cbn [put_hdr h_mem]. by rewrite !lookup_insert_ne by done.
Qed.

Lemma placed_length M F' : (length M <= S (S (length R)))%nat -> (base, 0) :: F' = L ++ M -> (length F' <= S (length F))%nat.
Proof using All. intros HM EF. apply (f_equal length) in EF, E. rewrite length_app in EF, E. cbn in EF, E. lia. Qed.

Lemma lower_joined : P.1 + HDR * P.2 = bp ->
  exists F', heap_ok F' live (mkHeap (<[P.1 := (first R1 base, P.2 + n1)]> (h_mem h1)) P.1 (h_brk h)) /\ (length F' <= S (length F))%nat /\ exists f, f ∈ F' /\ n <= f.2.
Proof using All.
  intros Ej. destruct (ring_size F _ h P Hh) as (_ & _ & HPbase & _); [rewrite E, elem_of_app; right; by left|].
  assert (Hne : P.1 <> base) by (intros Eb; rewrite (HPbase Eb) in Ej, HP; cbn in Ej, HP; lia).
  assert (HPF : P ∈ F) by (apply placed_ring; [rewrite elem_of_app; right; by left|done]). destruct (ho_free _ _ _ Hh P HPF) as (HP1 & HP2 & HP3).
  destruct (relink F live h bp n L P R ((P.1, P.2 + n1) :: R1) (<[P.1 := (first R1 base, P.2 + n1)]> (h_mem h1))) as (F' & EF & Hh'); auto.
  - split; [done|]. intros ->. cbn in E. injection E as <- _. done.
  - split; [by rewrite lookup_insert_eq|]. do 2 (apply linked_insert; [apply placed_keys; lia|]). exact HlR.
  - intros a Hin. apply placed_frame. by left.
  - intros b Hb. apply placed_frame. right. by exists b.
  - apply StronglySorted_cons. split; [|done]. apply Forall_forall. intros f Hf. destruct (HR1 f Hf) as [_ Hb].
    unfold before, bend, HDR in *. cbn [fst snd] in *. lia.
  - intros y Hy. apply elem_of_cons in Hy as [->|Hy]; [cbn; lia|]. destruct (placed_rest y Hy). lia.
  - intros y Hy. right. apply elem_of_cons in Hy as [->|Hy].
    + split; [unfold owned, bend, HDR in *; cbn in *; lia|]. intros b Hb. pose proof (Ha b Hb) as Hab.
      pose proof (ho_apart _ _ _ Hh b P ltac:(by right) HPF) as Hap. destruct (ho_live _ _ _ Hh b) as [(Hb1 & _ & _) _]; [by right|].
      unfold owned, apart, bend, HDR in *. cbn [fst snd] in *. lia.
    + destruct (placed_rest y Hy) as [_ HyF]. split; [by apply Hh|]. intros b Hb. apply Hh; [by right|done].
  - rewrite total_cons. cbn [snd]. lia.
  - exists F'. split; [done|]. split; [by apply (placed_length ((P.1, P.2 + n1) :: R1)); [cbn; lia|]|]. exists (P.1, P.2 + n1). split; [|cbn; lia].
    assert (Hin : (P.1, P.2 + n1) ∈ (base, 0) :: F') by (rewrite EF, elem_of_app; right; by left).
    apply elem_of_cons in Hin as [Eq|]; [|done]. by injection Eq.
Qed.

Lemma lower_apart : P.1 + HDR * P.2 <> bp ->
  exists F', heap_ok F' live (mkHeap (<[P.1 := (bp, P.2)]> (h_mem h1)) P.1 (h_brk h)) /\ (length F' <= S (length F))%nat /\ exists f, f ∈ F' /\ n <= f.2.
Proof using All.
  intros Nj. destruct (ring_size F _ h P Hh) as (HP0 & _ & HPbase & _); [rewrite E, elem_of_app; right; by left|].
  assert (Hbp : base < bp) by (pose proof Ho as (_ & Ho2 & _); unfold HDR in *; cbn in Ho2; lia).
  destruct (relink F live h bp n L P R (P :: (bp, n1) :: R1) (<[P.1 := (bp, P.2)]> (h_mem h1))) as (F' & EF & Hh'); auto.
  - split; [done|]. intros ->. cbn in E. by injection E as <- _.
  - split; [by rewrite lookup_insert_eq|]. split; [cbn [fst snd put_hdr h_mem]; rewrite lookup_insert_ne by lia; by rewrite lookup_insert_eq|].
    do 2 (apply linked_insert; [apply placed_keys; lia|]). exact HlR.
  - intros a Hin. apply placed_frame. by left.
  - intros b Hb. apply placed_frame. right. by exists b.
  - apply StronglySorted_cons. split; [apply Forall_cons; split|apply StronglySorted_cons; split; [|done]].
    + unfold before, bend, HDR in *. cbn [fst snd]. lia.
    + apply Forall_forall. intros f Hf. destruct (placed_rest f Hf). unfold before, bend, HDR in *. lia.
    + apply Forall_forall. intros f Hf. by destruct (HR1 f Hf).
  - intros y Hy. rewrite !elem_of_cons in Hy. destruct Hy as [->|[->|Hy]]; [lia|cbn; lia|]. destruct (placed_rest y Hy). lia.
  - intros y Hy. rewrite !elem_of_cons in Hy. destruct Hy as [->|[->|Hy]]; [|by right|].
    + destruct (decide (P.1 = base)) as [Eq|Ne]; [left; auto|right]. assert (HPF : P ∈ F) by (apply placed_ring; [rewrite elem_of_app; right; by left|done]).
      split; [by apply Hh|]. intros b Hb. apply Hh; [by right|done].
    + right. destruct (placed_rest y Hy) as [_ HyF]. split; [by apply Hh|]. intros b Hb. apply Hh; [by right|done].
  - rewrite !total_cons. cbn [snd]. lia.
  - exists F'. split; [done|]. split; [by apply (placed_length (P :: (bp, n1) :: R1)); [cbn; lia|]|]. exists (bp, n1). split; [|cbn; lia].
    assert (Hin : (bp, n1) ∈ (base, 0) :: F') by (rewrite EF, elem_of_app; right; right; by left).
    apply elem_of_cons in Hin as [Eq|]; [|done]. injection Eq as Eq _. lia.
Qed.
End placed.

(** free puts the block among the free ones, joined with its neighbours. *)
Lemma free_ok F live h bp n : heap_ok F ((bp, n) :: live) h ->
  exists F' h', free (bp + HDR) h = Some h' /\ heap_ok F' live h' /\ h_brk h' = h_brk h /\ (length F' <= S (length F))%nat /\ exists f, f ∈ F' /\ n <= f.2.
Proof.
  intros Hh. destruct (ho_live _ _ _ Hh (bp, n)) as [(Hn & Hbp & He) Hsz]; [by left|]. cbn [fst snd] in *.
  destruct (place bp n (base, 0) F) as (L & P & R & E & HP & HPe & HR); auto.
  { unfold bend, HDR in *. cbn. lia. } { cbn. lia. } { unfold HDR in *. cbn. lia. } { apply Hh. }
  { intros f Hf. split; [by destruct (ho_free _ _ _ Hh f Hf)|]. apply Hh; [by left|done]. }
  unfold free. replace (bp + HDR - HDR) with bp by lia. rewrite (search_place F _ h bp n L P R Hh E) by (auto; unfold HDR in *; lia).
  destruct (join_upper_ok F live h bp n L P R Hh E HR) as (R1 & n1 & -> & Hn1 & Hlen & Ht & HlR & HsR & HR1 & Ho & Ha).
  pose proof (ho_linked _ _ _ Hh) as Hl. rewrite E in Hl. destruct (linked_hdr _ _ _ _ _ Hl) as [_ HPs].
  destruct (hdr_eq h bp (first R1 base) n1) as [E1 E2]. destruct (hdr_ne h bp P.1 (first R1 base) n1) as [_ E3]; [lia|].
  unfold join_lower. rewrite E1, E2, E3, HPs. assert (Hlim := ho_limit _ _ _ Hh).
  destruct (ring_size F _ h P Hh) as (HP0 & HPb & _); [rewrite E, elem_of_app; right; by left|].
  destruct (Z.eqb_spec (P.1 + HDR * P.2) bp) as [Ej|Nj].
  - rewrite u32_small by (unfold owned, bend, HDR in *; cbn in *; lia).
    destruct (lower_joined F live h bp n n1 L P R R1) as (F' & Hh' & Hf); auto. by exists F', (mkHeap (<[P.1 := (first R1 base, P.2 + n1)]> (h_mem (put_hdr h bp (first R1 base) n1))) P.1 (h_brk h)).
  - destruct (lower_apart F live h bp n n1 L P R R1) as (F' & Hh' & Hf); auto. by exists F', (mkHeap (<[P.1 := (bp, P.2)]> (h_mem (put_hdr h bp (first R1 base) n1))) P.1 (h_brk h)).
Qed.

(** ** malloc *)

(** Taking a block of [nu] units from the free block [b] behind [Q] *)
Section take.
Context (F live : list blk) (h : uheap) (nu : Z) (X : list blk) (Q b : blk) (R : list blk).
Context (Hh : heap_ok F live h) (E : (base, 0) :: F = X ++ Q :: b :: R) (Hnu : 1 <= nu <= b.2).

Lemma take_facts : Q.1 < b.1 /\ b ∈ F /\ owned h b /\ 0 <= Q.2 /\ before Q b /\ StronglySorted before (b :: R) /\ (forall f, f ∈ R -> before Q f /\ before b f /\ f ∈ F) /\
  hptr h b.1 = first R base /\ hsize h b.1 = b.2 /\ hsize h Q.1 = Q.2 /\ linked (h_mem h) R base /\ base <= Q.1 /\ (Q.1 = base -> Q = (base, 0)).
Proof using All.
  pose proof (ho_linked _ _ _ Hh) as Hl. pose proof (ho_sorted _ _ _ Hh) as Hs. rewrite E in Hl, Hs.
  apply StronglySorted_app in Hs as (_ & _ & Hs). apply StronglySorted_cons in Hs as [HsQ Hs]. pose proof Hs as HsbR. apply StronglySorted_cons in Hs as [Hsb _].
  rewrite Forall_forall in HsQ, Hsb. destruct (ring_size F live h Q Hh) as (HQ0 & HQb & HQe & _); [rewrite E, elem_of_app; right; by left|].
  assert (HQbef : before Q b) by (apply HsQ; by left). assert (HQlt : Q.1 < b.1) by (unfold before, bend, HDR in HQbef; lia).
  assert (Hin : forall f, f ∈ b :: R -> f ∈ F).
  { intros f Hf. assert (Hf' : f ∈ (base, 0) :: F) by (rewrite E, elem_of_app; right; by right). apply elem_of_cons in Hf' as [->|]; [|done].
    apply elem_of_cons in Hf as [<-|Hf]; [cbn in *; lia|]. specialize (Hsb _ Hf). unfold before, bend, HDR in Hsb. cbn in Hsb. lia. }
  destruct (linked_hdr _ _ _ _ _ Hl) as [_ HQs]. replace (X ++ Q :: b :: R) with ((X ++ [Q]) ++ b :: R) in Hl by (by rewrite <- app_assoc).
  destruct (linked_hdr _ _ _ _ _ Hl) as [Hbp Hbs]. apply linked_app in Hl as [_ [_ Hl]].
  assert (HbF : b ∈ F) by (apply Hin; by left). split_and!; auto; [by apply Hh|].
  intros f Hf. split_and!; [apply HsQ; by right|by apply Hsb|apply Hin; by right].
Qed.

Lemma take_live b' : b' ∈ live -> b'.1 <> Q.1 /\ b'.1 <> b.1 /\ apart b' b.
Proof using All.
  destruct take_facts as (HQb & HbF & Hbo & HQ0 & _ & _ & _ & _ & _ & _ & _ & _ & HQe). intros Hb. pose proof (ho_apart _ _ _ Hh b' b Hb HbF) as Ha.
  destruct (ho_live _ _ _ Hh b' Hb) as [(H1 & H2 & _) _]. split_and!; [|unfold owned, apart, bend, HDR in *; lia|done].
  intros Eq. destruct (decide (Q.1 = base)) as [|Ne]; [unfold HDR in *; lia|].
  assert (HQF : Q ∈ F) by (assert (Hin : Q ∈ (base, 0) :: F) by (rewrite E, elem_of_app; right; by left); apply elem_of_cons in Hin as [->|]; done).
  pose proof (ho_apart _ _ _ Hh b' Q Hb HQF) as Hap. destruct (ho_free _ _ _ Hh Q HQF) as (HQp & _). unfold apart, bend, HDR in Hap. lia.
Qed.

Lemma take_prev_ok c : c ∈ live \/ (b.1 <= c.1 /\ bend c <= bend b /\ 0 < c.2) ->
  Q = (base, 0) \/ owned h Q /\ apart c Q.
Proof using All.
  intros Hc. destruct take_facts as (HQb & HbF & Hbo & HQ0 & HQbef & _ & _ & _ & _ & _ & _ & _ & HQe).
  destruct (decide (Q.1 = base)) as [|Ne]; [left; auto|right].
  assert (HQF : Q ∈ F) by (assert (Hin : Q ∈ (base, 0) :: F) by (rewrite E, elem_of_app; right; by left); apply elem_of_cons in Hin as [->|]; done).
  split; [by apply Hh|]. destruct Hc as [Hc|(H1 & H2 & H3)]; [by apply Hh|]. unfold apart, before, bend, HDR in *. lia.
Qed.

(** The part [c] of [b] is handed out. *)
Lemma part_apart c f : b.1 <= c.1 /\ bend c <= bend b /\ 0 < c.2 -> f ∈ F -> f ∈ X \/ f ∈ R -> apart c f.
Proof using All.
  intros (H1 & H2 & H3) HfF Hf. destruct take_facts as (HQb & _ & Hbo & HQ0 & HQbef & _ & HR & _). destruct Hf as [Hf|Hf].
  - pose proof (ho_sorted _ _ _ Hh) as Hs. rewrite E in Hs. apply StronglySorted_app in Hs as (Hs & _ & _). specialize (Hs f b Hf ltac:(right; by left)).
    unfold before, apart, bend, HDR in *. lia.
  - destruct (HR f Hf) as (_ & Hb & _). unfold before, apart, bend, HDR in *. lia.
Qed.

Lemma take_keys a : a ∈ X.*1 -> a < Q.1.
Proof using All.
  intros Hin. apply list_elem_of_fmap in Hin as (f & -> & Hf). pose proof (ho_sorted _ _ _ Hh) as Hs. rewrite E in Hs.
  apply StronglySorted_app in Hs as (Hs & _ & _). specialize (Hs f Q Hf ltac:(by left)).
  destruct (ring_size F _ h f Hh) as (Hf0 & _); [rewrite E, elem_of_app; by left|]. unfold before, bend, HDR in Hs. lia.
Qed.
Lemma take_rest_keys a : a <= bend b -> a ∉ R.*1.
Proof using All.
  intros Hle Hin. apply list_elem_of_fmap in Hin as (f & -> & Hf). destruct take_facts as (_ & _ & _ & _ & _ & _ & HR & _).
  destruct (HR f Hf) as (_ & Hb & _). unfold before in Hb. lia.
Qed.
Lemma part_disjoint c : b.1 <= c.1 /\ bend c <= bend b /\ 0 < c.2 -> ForallOrdPairs apart (c :: live).
Proof using All.
  intros Hc. constructor; [|apply Hh]. apply List.Forall_forall. intros b' Hb'. apply list_elem_of_In in Hb'. destruct (take_live b' Hb') as (_ & _ & Ha).
  destruct (ho_live _ _ _ Hh b' Hb') as [(H1 & _) _]. unfold apart, bend, HDR in *. lia.
Qed.

(** What stays of the ring behind [Q] keeps its distance. *)
Lemma part_ring c y : b.1 <= c.1 /\ bend c <= bend b /\ 0 < c.2 -> y = Q \/ y ∈ R ->
  y = (base, 0) \/ owned h y /\ forall b', b' ∈ c :: live -> apart b' y.
Proof using All.
  intros Hc [->|Hy].
  - destruct (take_prev_ok c (or_intror Hc)) as [|[Ho Ha]]; [by left|right]. split; [done|]. intros b' Hin.
    apply elem_of_cons in Hin as [->|Hin]; [done|]. destruct (take_prev_ok b' (or_introl Hin)) as [Eq|[_ ?]]; [|done].
    destruct Ho as (_ & Ho & _). rewrite Eq in Ho. unfold HDR in *. cbn in Ho. lia.
  - right. destruct take_facts as (_ & _ & _ & _ & _ & _ & HR & _). destruct (HR y Hy) as (_ & _ & HyF). split; [by apply Hh|].
    intros b' Hin. apply elem_of_cons in Hin as [->|Hin]; [|by apply Hh]. apply part_apart; auto.
Qed.
Lemma part_live c m' fp : b.1 <= c.1 /\ bend c <= bend b /\ 0 < c.2 -> snd <$> m' !! c.1 = Some c.2 -> (forall b', b' ∈ live -> m' !! b'.1 = h_mem h !! b'.1) ->
  forall b', b' ∈ c :: live -> owned h b' /\ hsize (mkHeap m' fp (h_brk h)) b'.1 = b'.2 /\ forall f, f ∈ F -> f ∈ X -> apart b' f.
Proof using All.
  intros Hc Hm Hml b' Hin. apply elem_of_cons in Hin as [->|Hin].
  - destruct take_facts as (_ & _ & Hbo & _). split_and!; [unfold owned in *; lia| |intros f Hf HfX; apply part_apart; auto].
    unfold hsize. cbn [h_mem]. destruct (m' !! c.1); [|done]. by injection Hm.
  - destruct (ho_live _ _ _ Hh b' Hin) as [Ho Hsz]. split_and!; [done| |intros f Hf _; by apply Hh].
    revert Hsz. unfold hsize. cbn [h_mem]. by rewrite Hml.
Qed.

Lemma take_whole : b.2 = nu ->
  exists F', heap_ok F' ((b.1, nu) :: live) (mkHeap (<[Q.1 := (first R base, Q.2)]> (h_mem h)) Q.1 (h_brk h)).
Proof using All.
  intros Eb. destruct take_facts as (HQb & HbF & Hbo & HQ0 & HQbef & HsbR & HR & Hbp & Hbs & HQs & HlR & _).
  assert (Hc : b.1 <= (b.1, nu).1 /\ bend (b.1, nu) <= bend b /\ 0 < (b.1, nu).2) by (unfold bend; cbn; lia).
  destruct (rering F live ((b.1, nu) :: live) h X Q (b :: R) (Q :: R) (<[Q.1 := (first R base, Q.2)]> (h_mem h)) Q.1) as (F' & _ & Hh'); auto.
  - split; [done|]. intros ->. cbn in E. by injection E as <- _.
  - cbn. split; [by rewrite lookup_insert_eq|]. apply linked_insert; [|done]. apply take_rest_keys. unfold bend, HDR. lia.
  - intros a Ha. rewrite lookup_insert_ne; [done|]. specialize (take_keys a Ha). lia.
  - apply StronglySorted_cons. split; [|by apply StronglySorted_cons in HsbR as [_ ?]]. apply Forall_forall. intros f Hf. apply (HR f Hf).
  - intros y Hy. apply elem_of_cons in Hy as [->|Hy]; [lia|]. destruct (HR y Hy) as (Hy1 & _). unfold before, bend, HDR in Hy1. lia.
  - intros y Hy. apply elem_of_cons in Hy. by apply part_ring.
  - apply part_live; [done| |].
    + cbn [fst snd]. rewrite lookup_insert_ne by lia. revert Hbs. unfold hsize. destruct (h_mem h !! b.1) as [[? ?]|]; cbn; [congruence|lia].
    + intros b' Hb'. destruct (take_live b' Hb'). by rewrite lookup_insert_ne by done.
  - by apply part_disjoint.
  - rewrite !total_cons. cbn [snd]. lia.
  - exists Q. split; [rewrite elem_of_app; right; by left|done].
  - by exists F'.
Qed.

Lemma take_tail : nu < b.2 -> let q := b.1 + HDR * (b.2 - nu) in
  exists F', forall ptr, heap_ok F' ((q, nu) :: live)
    (mkHeap (<[q := (ptr, nu)]> (<[b.1 := (first R base, b.2 - nu)]> (h_mem h))) Q.1 (h_brk h)).
Proof using All.
  intros Hlt q. destruct take_facts as (HQb & HbF & Hbo & HQ0 & HQbef & HsbR & HR & Hbp & Hbs & HQs & HlR & _).
  assert (Hc : b.1 <= (q, nu).1 /\ bend (q, nu) <= bend b /\ 0 < (q, nu).2) by (unfold q, bend, HDR; cbn; lia).
  assert (Hq : b.1 < q /\ q <= bend b) by (unfold q, bend, HDR; lia).
  assert (HF : exists F', (base, 0) :: F' = X ++ Q :: (b.1, b.2 - nu) :: R).
  { destruct X as [|x X']; cbn in E |- *; injection E as <- _; by eexists. }
  destruct HF as [F' EF]. exists F'. intros ptr.
  destruct (rering F live ((q, nu) :: live) h X Q (b :: R) (Q :: (b.1, b.2 - nu) :: R)
      (<[q := (ptr, nu)]> (<[b.1 := (first R base, b.2 - nu)]> (h_mem h))) Q.1) as (F'' & EF' & Hh'); auto.
  - split; [done|]. intros ->. cbn in E. by injection E as <- _.
  - pose proof (ho_linked _ _ _ Hh) as Hl. rewrite E, linked_app in Hl. destruct Hl as [_ [HlQ _]]. cbn [linked first fst snd] in HlQ |- *. split_and!.
    + rewrite !lookup_insert_ne by lia. done.
    + rewrite lookup_insert_ne by lia. by rewrite lookup_insert_eq.
    + do 2 (apply linked_insert; [apply take_rest_keys; lia|]). done.
  - intros a Ha. specialize (take_keys a Ha). intros ?. by rewrite !lookup_insert_ne by lia.
  - apply StronglySorted_cons. split; [apply Forall_cons; split|apply StronglySorted_cons; split; [|by apply StronglySorted_cons in HsbR as [_ ?]]].
    + done.
    + apply Forall_forall. intros f Hf. apply (HR f Hf).
    + apply Forall_forall. intros f Hf. destruct (HR f Hf) as (_ & Hb & _). unfold before, bend, HDR in *. cbn [fst snd]. lia.
  - intros y Hy. rewrite !elem_of_cons in Hy. destruct Hy as [->|[->|Hy]]; [lia|cbn; lia|]. destruct (HR y Hy) as (Hy1 & _). unfold before, bend, HDR in Hy1. lia.
  - intros y Hy. rewrite !elem_of_cons in Hy. destruct Hy as [->|[->|Hy]]; [apply part_ring; auto| |apply part_ring; auto]. right.
    split; [unfold owned, bend, HDR in *; cbn; lia|]. intros b' Hb'. apply elem_of_cons in Hb' as [->|Hb'].
    + right. unfold q, bend, HDR. cbn. lia.
    + destruct (take_live b' Hb') as (_ & _ & Ha). unfold apart, bend, HDR in *. cbn [fst snd]. destruct (ho_live _ _ _ Hh b' Hb') as [(H1 & _) _]. lia.
  - apply part_live; [done|by rewrite lookup_insert_eq|]. intros b' Hb'. destruct (take_live b' Hb') as (_ & Hn & Ha).
    destruct (ho_live _ _ _ Hh b' Hb') as [(H1 & _) _]. rewrite !lookup_insert_ne; [done|done|]. unfold apart, bend, HDR in *. lia.
  - by apply part_disjoint.
  - rewrite !total_cons. cbn [snd]. lia.
  - exists Q. split; [rewrite elem_of_app; right; by left|done].
  - rewrite <- EF in EF'. by injection EF' as ->.
Qed.

Lemma take_ok : exists F' h' a, take_block nu Q.1 b.1 h = (a + HDR, h') /\ heap_ok F' ((a, nu) :: live) h' /\ h_brk h' = h_brk h.
Proof using All.
  destruct take_facts as (HQb & HbF & Hbo & HQ0 & HQbef & HsbR & HR & Hbp & Hbs & HQs & HlR & _). unfold take_block. rewrite Hbs, Hbp, HQs.
  destruct (Z.eqb_spec b.2 nu) as [Eb|Nb].
  - destruct (take_whole Eb) as [F' Hh']. exists F', (mkHeap (<[Q.1 := (first R base, Q.2)]> (h_mem h)) Q.1 (h_brk h)), b.1. by split_and!.
  - destruct take_tail as [F' Hh']; [lia|]. assert (Hlim := ho_limit _ _ _ Hh). rewrite u32_small by (unfold owned, bend, HDR in *; lia).
    eexists F', _, (b.1 + HDR * (b.2 - nu)). split_and!; [reflexivity|apply Hh'|done].
Qed.
End take.

Section run.
Context (sbrk : Z -> Z -> option Z).
(** What the kernel promises of sbrk: memory beyond the break, or a refusal.
    The machine has less than 4 GB. *)
Context (Hsbrk : forall brk n brk', 0 <= n -> sbrk brk n = Some brk' -> brk' = brk + n /\ brk' <= 2 ^ 32).

Lemma morecore_ok F live h nu : heap_ok F live h -> 1 <= nu -> HDR * nu < 2 ^ 31 ->
  (morecore sbrk nu h = Some None /\ sbrk (h_brk h) (HDR * Z.max nu 4096) = None) \/
  exists F' h', morecore sbrk nu h = Some (Some h') /\ heap_ok F' live h' /\ (length F' <= S (length F))%nat /\ exists f, f ∈ F' /\ nu <= f.2.
Proof.
  intros Hh Hnu Hlim. unfold morecore. set (n := if nu <? 4096 then 4096 else nu).
  assert (Hn : n = Z.max nu 4096) by (unfold n; destruct (Z.ltb_spec nu 4096); lia). clearbody n.
  assert (Hs : s32 (n * HDR) = HDR * Z.max nu 4096) by (rewrite s32_small by (unfold HDR in *; lia); lia). rewrite Hs.
  destruct (sbrk (h_brk h) (HDR * Z.max nu 4096)) as [brk|] eqn:Eb; [right|left; done].
  apply Hsbrk in Eb as [-> Hb]; [|unfold HDR; lia]. set (h1 := put_hdr _ _ _ _).
  assert (Hbrk : brk0 <= h_brk h).
  { rewrite (ho_total _ _ _ Hh). enough (0 <= total F /\ 0 <= total live) by (unfold HDR; lia).
    assert (Hpos : forall l : list blk, (forall b, b ∈ l -> 0 < b.2) -> 0 <= total l).
    { clear. intros l. induction l as [|b l IH]; intros H; [done|]. rewrite total_cons. specialize (IH ltac:(intros x Hx; apply H; by right)). specialize (H b ltac:(by left)). lia. }
    split; apply Hpos; intros b Hb'; [apply (ho_free _ _ _ Hh b Hb')|apply (ho_live _ _ _ Hh b Hb')]. }
  assert (Hown : forall b, owned h b -> owned h1 b /\ b.1 < h_brk h) by (intros b (H1 & H2 & H3); unfold owned, bend in *; cbn [h1 put_hdr h_brk]; unfold HDR in *; lia).
  destruct (free_ok F live h1 (h_brk h) n) as (F' & h' & -> & Hh' & _ & Hlen & f & Hf & Hfn); [|exists F', h'; split_and!; auto; exists f; split; [done|lia]].
  constructor.
  - cbn [h1 put_hdr h_mem]. apply linked_insert; [|apply Hh]. intros Hin. apply list_elem_of_fmap in Hin as (f & Ef & Hf).
    destruct (ring_size _ _ _ f Hh Hf) as (_ & _ & Hfb & _). apply elem_of_cons in Hf as [->|Hf]; [unfold HDR in *; cbn in Ef; lia|].
    destruct (Hown f) as [_ ?]; [by apply Hh|]. lia.
  - apply Hh.
  - apply Hh.
  - intros f Hf. apply Hown. by apply Hh.
  - intros b Hin. apply elem_of_cons in Hin as [->|Hin].
    + split; [unfold owned, bend; cbn [fst snd h1 put_hdr h_brk]; unfold HDR in *; lia|]. apply hdr_eq.
    + destruct (ho_live _ _ _ Hh b Hin) as [Ho Hsz]. destruct (Hown b Ho) as [Ho' Hlt]. split; [done|]. unfold h1.
      destruct (hdr_ne (mkHeap (h_mem h) (h_freep h) (h_brk h + HDR * Z.max nu 4096)) (h_brk h) b.1 (hptr (mkHeap (h_mem h) (h_freep h) (h_brk h + HDR * Z.max nu 4096)) (h_brk h)) n) as [_ ->]; [lia|done].
  - intros b f Hin Hf. apply elem_of_cons in Hin as [->|Hin]; [|by apply Hh]. right. cbn [fst]. by destruct (ho_free _ _ _ Hh f Hf) as (_ & _ & ?).
  - constructor; [|apply Hh]. apply List.Forall_forall. intros b Hb'. apply list_elem_of_In in Hb'. right. cbn [fst].
    by destruct (ho_live _ _ _ Hh b Hb') as [(_ & _ & ?) _].
  - cbn [h1 put_hdr h_brk]. rewrite total_cons. cbn [snd]. pose proof (ho_total _ _ _ Hh). unfold HDR in *. lia.
  - exact Hb.
Qed.

(** The loop of malloc over the blocks [Y] behind [Q]: it takes one that fits,
    or gets behind them. *)
Definition finds (F : list blk) (nu : Z) (h : uheap) (r : option (Z * uheap)) : Prop :=
  exists X Q b R, (base, 0) :: F = X ++ Q :: b :: R /\ nu <= b.2 /\ r = Some (take_block nu Q.1 b.1 h).

Lemma walk F live h nu X Q Y T fuel : heap_ok F live h -> (base, 0) :: F = X ++ Q :: Y ++ T ->
  (forall y, y ∈ Y -> y.1 <> h_freep h) -> (length Y <= fuel)%nat ->
  finds F nu h (malloc_loop sbrk fuel nu Q.1 (first (Y ++ T) base) h) \/
  (forall y, y ∈ Y -> y.2 < nu) /\ exists X' Q', X ++ Q :: Y = X' ++ [Q'] /\
    malloc_loop sbrk fuel nu Q.1 (first (Y ++ T) base) h = malloc_loop sbrk (fuel - length Y) nu Q'.1 (first T base) h.
Proof.
  intros Hh. revert X Q fuel. induction Y as [|y Y IH]; intros X Q fuel E Hne Hf.
  - right. split; [intros y Hy; by apply not_elem_of_nil in Hy|]. exists X, Q. split; [done|]. cbn [app length]. by rewrite Nat.sub_0_r.
  - cbn [length] in Hf. destruct fuel as [|fuel]; [lia|]. change ((y :: Y) ++ T) with (y :: (Y ++ T)) in *. cbn [first malloc_loop].
    pose proof (ho_linked _ _ _ Hh) as Hl. rewrite E in Hl. replace (X ++ Q :: y :: Y ++ T) with ((X ++ [Q]) ++ y :: (Y ++ T)) in Hl by (by rewrite <- app_assoc).
    destruct (linked_hdr _ _ _ _ _ Hl) as [Hp Hs]. rewrite Hs, Hp. destruct (Z.leb_spec nu y.2) as [Hle|Hgt].
    + left. by exists X, Q, y, (Y ++ T).
    + rewrite (proj2 (Z.eqb_neq _ _) (Hne y ltac:(by left))).
      destruct (IH (X ++ [Q]) y fuel) as [Hfind|[Hall (X' & Q' & EX & EL)]].
      * by rewrite <- app_assoc.
      * intros z Hz. apply Hne. by right.
      * lia.
      * by left.
      * right. split; [intros z Hz; apply elem_of_cons in Hz as [->|Hz]; auto|]. exists X', Q'. split; [by rewrite <- EX, <- app_assoc|]. exact EL.
Qed.

(** One turn round the ring *)
Lemma scan F live h nu fuel : heap_ok F live h -> 1 <= nu -> (S (length F) < fuel)%nat ->
  finds F nu h (malloc_loop sbrk fuel nu (h_freep h) (hptr h (h_freep h)) h) \/
  (forall f, f ∈ F -> f.2 < nu) /\ exists fuel', (fuel <= fuel' + S (length F))%nat /\
    malloc_loop sbrk fuel nu (h_freep h) (hptr h (h_freep h)) h =
      match morecore sbrk nu h with
      | None => None
      | Some None => Some (0, h)
      | Some (Some h) => malloc_loop sbrk fuel' nu (h_freep h) (hptr h (h_freep h)) h
      end.
Proof.
  intros Hh Hnu Hf. destruct (ho_freep _ _ _ Hh) as (fb & Hin & Efb). apply list_elem_of_split in Hin as (A & Y & E).
  pose proof (ho_linked _ _ _ Hh) as Hl. pose proof (ho_sorted _ _ _ Hh) as Hs. rewrite E in Hl, Hs. pose proof (linked_hdr _ _ _ _ _ Hl) as [Hp Hsz].
  pose proof (f_equal length E) as EL. rewrite length_app in EL. cbn in EL. rewrite <- Efb, Hp.
  apply StronglySorted_app in Hs as (HsA & _ & Hs). apply StronglySorted_cons in Hs as [HsY _]. rewrite Forall_forall in HsY.
  assert (Hpos : forall f, f ∈ (base, 0) :: F -> 0 <= f.2) by (intros f Hf'; by destruct (ring_size _ _ _ f Hh Hf')).
  destruct (walk F live h nu A fb Y [] fuel Hh) as [Hfind|[HY (X' & Q' & _ & E1)]].
  { by rewrite app_nil_r. } { intros y Hy. specialize (HsY y Hy). specialize (Hpos fb ltac:(rewrite E, elem_of_app; right; by left)). unfold before, bend, HDR in HsY. lia. } { lia. }
  { left. by rewrite app_nil_r in Hfind. }
  rewrite app_nil_r in E1. cbn [first] in E1. rewrite E1. destruct A as [|a A].
  - cbn in E. injection E as <- ->. right. split; [done|]. destruct (fuel - length Y)%nat as [|fuel'] eqn:Efu; [lia|]. exists fuel'. split; [lia|].
    cbn [malloc_loop]. cbn [fst snd] in Hsz, Efb. rewrite Hsz. destruct (Z.leb_spec nu 0) as [|_]; [lia|]. by rewrite Efb, Z.eqb_refl.
  - cbn in E. injection E as <- EF. destruct (fuel - length Y)%nat as [|fuel'] eqn:Efu; [lia|]. cbn [malloc_loop].
    assert (Hb : hptr h base = first (A ++ fb :: Y) base /\ hsize h base = 0) by (apply (linked_hdr h [] (A ++ fb :: Y) (base, 0) base); exact Hl).
    destruct Hb as [-> ->]. destruct (Z.leb_spec nu 0) as [|_]; [lia|].
    assert (Hbf : before (base, 0) fb) by (apply HsA; by left). destruct (Z.eqb_spec base (h_freep h)) as [Eb|_]; [unfold before, bend, HDR in Hbf; cbn in Hbf; lia|].
    cbn [length] in EL. destruct (walk F live h nu [] (base, 0) A (fb :: Y) fuel' Hh) as [Hfind|[HA (X2 & Q2 & EX2 & E2)]].
    { cbn. by rewrite EF. } { intros y Hy. specialize (HsA y fb ltac:(by right) ltac:(by left)). specialize (Hpos y ltac:(rewrite EF; right; rewrite elem_of_app; by left)). unfold before, bend, HDR in HsA. lia. } { lia. }
    { by left. }
    cbn [fst] in E2. rewrite E2. cbn [first]. destruct (fuel' - length A)%nat as [|fuel2] eqn:Efu2; [lia|]. cbn [malloc_loop]. rewrite Hsz.
    destruct (Z.leb_spec nu fb.2) as [Hle|Hgt].
    + left. exists X2, Q2, fb, Y. split_and!; [|done|done]. cbn in EX2. rewrite EF. change ((base, 0) :: A ++ fb :: Y) with (((base, 0) :: A) ++ fb :: Y).
      rewrite EX2. by rewrite <- app_assoc.
    + right. split; [|exists fuel2; split; [lia|by rewrite Efb, Z.eqb_refl]].
      intros f Hf'. rewrite EF, elem_of_app, elem_of_cons in Hf'. destruct Hf' as [Hf'|[->|Hf']]; auto.
Qed.

Lemma malloc_ok F live h nbytes : heap_ok F live h -> 0 <= nbytes < 2 ^ 31 - 32 -> 0 < h_freep h ->
  (malloc base sbrk nbytes h = Some (0, h) /\ sbrk (h_brk h) (HDR * Z.max (units nbytes) 4096) = None) \/
  exists F' h' a, malloc base sbrk nbytes h = Some (a + HDR, h') /\ heap_ok F' ((a, units nbytes) :: live) h'.
Proof.
  intros Hh Hb Hfp. assert (Hu : units nbytes = (nbytes + 15) / 16 + 1) by (unfold units, HDR; rewrite u32_small by zsolve; f_equal; f_equal; lia).
  assert (Hu1 : 1 <= units nbytes /\ HDR * units nbytes < 2 ^ 31) by (rewrite Hu; unfold HDR; zsolve). destruct Hu1 as [Hu1 Hu2].
  unfold malloc, init_heap. destruct (Z.eqb_spec (h_freep h) 0) as [|_]; [lia|]. pose proof (ring_length _ _ _ Hh) as Hlen.
  assert (Hfound : forall F1 live1 h1 r, heap_ok F1 live1 h1 -> finds F1 (units nbytes) h1 r ->
            exists F' h' a, r = Some (a + HDR, h') /\ heap_ok F' ((a, units nbytes) :: live1) h').
  { intros F1 live1 h1 r Hh1 (X & Q & b & R & E & Hle & ->). destruct (take_ok F1 live1 h1 (units nbytes) X Q b R Hh1 E) as (F' & h' & a & -> & Hh' & _); [lia|]. by exists F', h', a. }
  destruct (scan F live h (units nbytes) (2 * size (h_mem h) + 8) Hh Hu1) as [Hfind|[Hall (fuel' & Hf' & ->)]]; [lia|right; by eapply Hfound|].
  destruct (morecore_ok F live h (units nbytes) Hh Hu1 Hu2) as [[-> Hno]|(F1 & h1 & -> & Hh1 & Hlen1 & f & Hf & Hfu)]; [by left|right].
  destruct (scan F1 live h1 (units nbytes) fuel' Hh1 Hu1) as [Hfind|[Hall1 _]]; [lia|by eapply Hfound|]. specialize (Hall1 f Hf). lia.
Qed.
End run.
End heap.

(** ** Any sequence of calls *)
Inductive uop := OMalloc (nbytes : Z) | OFree (i : nat).

(** The program frees only blocks it holds: the [i]-th of [live]. *)
Definition ustep (base : Z) (sbrk : Z -> Z -> option Z) (op : uop) (s : uheap * list blk) : option (uheap * list blk) :=
  let '(h, live) := s in
  match op with
  | OMalloc nbytes =>
      match malloc base sbrk nbytes h with
      | Some (r, h) => Some (h, if r =? 0 then live else (r - HDR, units nbytes) :: live)
      | None => None
      end
  | OFree i =>
      match live !! i with
      | Some b => match free (b.1 + HDR) h with Some h => Some (h, delete i live) | None => None end
      | None => Some (h, live)
      end
  end.
Definition urun (base : Z) (sbrk : Z -> Z -> option Z) (ops : list uop) (s : uheap * list blk) : option (uheap * list blk) :=
  foldl (fun r op => match r with Some s => ustep base sbrk op s | None => None end) (Some s) ops.

Definition request_ok (n : Z) : Prop := 0 <= n < 2 ^ 31 - 32.
Definition uop_ok (op : uop) : Prop := match op with OMalloc n => request_ok n | OFree _ => True end.

Lemma total_perm l l' : l ≡ₚ l' -> total l = total l'.
Proof. induction 1; rewrite ?total_cons; lia. Qed.
Lemma apart_perm l l' : l ≡ₚ l' -> ForallOrdPairs apart l -> ForallOrdPairs apart l'.
Proof.
  induction 1 as [|x l l' Hp IH|x y l|l l1 l2 _ IH1 _ IH2]; intros H; auto.
  - inversion H as [|? ? Hx Hr]; subst. constructor; [|auto]. rewrite List.Forall_forall in *. intros z Hz. apply Hx.
    apply list_elem_of_In. rewrite Hp. by apply list_elem_of_In.
  - inversion H as [|? ? Hy Hr]; subst. inversion Hr as [|? ? Hx Hr']; subst. inversion Hy as [|? ? Hyx Hy']; subst.
    constructor; [constructor; [unfold apart in *; tauto|done]|by constructor].
Qed.

Section calls.
Context (base brk0 : Z) (sbrk : Z -> Z -> option Z) (Hbase : 0 < base) (Hbrk0 : base + HDR <= brk0) (Hlim : brk0 <= 2 ^ 32).
Context (Hsbrk : forall brk n brk', 0 <= n -> sbrk brk n = Some brk' -> brk' = brk + n /\ brk' <= 2 ^ 32).

Lemma heap_ok_perm F live live' h : live ≡ₚ live' -> heap_ok base brk0 F live h -> heap_ok base brk0 F live' h.
Proof.
  intros Hp []. constructor; auto.
  - intros b Hb. rewrite <- Hp in Hb. auto.
  - intros b f Hb Hf. rewrite <- Hp in Hb. auto.
  - by eapply apart_perm.
  - by rewrite <- (total_perm _ _ Hp).
Qed.

(** Before the first malloc, or with the invariant *)
Definition heap_inv (h : uheap) (live : list blk) : Prop :=
  (live = [] /\ h = mkHeap ∅ 0 brk0) \/ exists F, heap_ok base brk0 F live h.

Lemma init_heap_ok h live : heap_inv h live -> (exists F, heap_ok base brk0 F live (init_heap base h)) /\ init_heap base (init_heap base h) = init_heap base h /\ h_brk (init_heap base h) = h_brk h /\ 0 < h_freep (init_heap base h).
Proof.
  assert (Hidem : forall x, 0 < h_freep x -> init_heap base x = x) by (intros x Hx; unfold init_heap; by rewrite (proj2 (Z.eqb_neq _ _)) by lia).
  intros [[-> ->]|[F Hh]].
  - assert (Hok : heap_ok base brk0 [] [] (init_heap base (mkHeap ∅ 0 brk0))).
    { constructor; try (intros b Hb; by apply not_elem_of_nil in Hb).
      - cbn. split; [by rewrite lookup_insert_eq|done].
      - repeat constructor.
      - exists (base, 0). split; [by left|done].
      - intros b f Hb. by apply not_elem_of_nil in Hb.
      - constructor.
      - unfold HDR. cbn. lia.
      - exact Hlim. }
    split_and!; [by eexists|by apply Hidem|done|done].
  - assert (Hfp : 0 < h_freep h) by (destruct (ho_freep _ _ _ _ _ Hh) as (b & Hb & <-); destruct (ring_size base brk0 Hbrk0 F live h b Hh Hb); lia).
    rewrite !Hidem by done. split_and!; auto. by exists F.
Qed.

Lemma malloc_outcome h live n : heap_inv h live -> request_ok n ->
  exists r h', malloc base sbrk n h = Some (r, h') /\
   ((r = 0 /\ heap_inv h' live /\ sbrk (h_brk h) (HDR * Z.max (units n) 4096) = None) \/
    (r <> 0 /\ exists F, heap_ok base brk0 F ((r - HDR, units n) :: live) h')).
Proof.
  intros Hi Hn. destruct (init_heap_ok h live Hi) as ([F Hh] & Ei & Eb & Hfp).
  assert (Em : malloc base sbrk n h = malloc base sbrk n (init_heap base h)) by (unfold malloc; by rewrite Ei). rewrite Em, <- Eb.
  destruct (malloc_ok base brk0 Hbase Hbrk0 sbrk Hsbrk F live _ n Hh Hn Hfp) as [[-> Hno]|(F' & h' & a & -> & Hh')].
  - exists 0, (init_heap base h). split; [done|]. left. split_and!; [done|right; by exists F|done].
  - exists (a + HDR), h'. split; [done|]. right. replace (a + HDR - HDR) with a by lia. split; [|by exists F'].
    destruct (ho_live _ _ _ _ _ Hh' (a, units n)) as [(_ & Ha & _) _]; [by left|]. cbn in Ha. unfold HDR in *. lia.
Qed.

Lemma ustep_inv op h live : heap_inv h live -> uop_ok op -> exists h' live', ustep base sbrk op (h, live) = Some (h', live') /\ heap_inv h' live'.
Proof.
  intros Hi Hop. destruct op as [n|i]; cbn [ustep].
  - destruct (malloc_outcome h live n Hi Hop) as (r & h' & -> & [(-> & Hi' & _)|(Hr & F & Hh')]).
    + by exists h', live.
    + rewrite (proj2 (Z.eqb_neq _ _) Hr). exists h', ((r - HDR, units n) :: live). split; [done|]. right. by exists F.
  - destruct (live !! i) as [b|] eqn:Eb; [|by exists h, live]. destruct Hi as [[-> _]|[F Hh]]; [done|].
    apply (heap_ok_perm _ _ _ _ (delete_Permutation _ _ _ Eb)) in Hh. destruct b as [a m]. cbn [fst].
    destruct (free_ok base brk0 Hbase Hbrk0 F (delete i live) h a m Hh) as (F' & h' & -> & Hh' & _). exists h', (delete i live). split; [done|]. right. by exists F'.
Qed.
End calls.

(** C13: the allocator is safe under any sequence of calls in which the program
    frees only blocks it holds.  No call gets stuck; the blocks held are
    disjoint, lie in the memory that sbrk gave and do not touch the free list,
    and together with the free blocks they are all of that memory.  In every
    such state malloc returns 0 only when the kernel refuses memory, and
    otherwise a block of at least the size asked for, apart from all others. *)
Theorem malloc_free_safe base brk0 sbrk ops :
  0 < base -> base + HDR <= brk0 -> brk0 <= 2 ^ 32 ->
  (forall brk n brk', 0 <= n -> sbrk brk n = Some brk' -> brk' = brk + n /\ brk' <= 2 ^ 32) -> Forall uop_ok ops ->
  exists h live, urun base sbrk ops (mkHeap ∅ 0 brk0, []) = Some (h, live) /\ heap_inv base brk0 h live /\
    forall n, request_ok n -> exists r h', malloc base sbrk n h = Some (r, h') /\
      (if r =? 0 then sbrk (h_brk h) (HDR * Z.max (units n) 4096) = None
       else n <= HDR * (units n - 1) /\ ForallOrdPairs apart ((r - HDR, units n) :: live) /\ exists F, heap_ok base brk0 F ((r - HDR, units n) :: live) h').
Proof.
  intros Hb Hb0 Hl Hs Hops.
  assert (Hrun : forall h live, heap_inv base brk0 h live -> exists h' live', urun base sbrk ops (h, live) = Some (h', live') /\ heap_inv base brk0 h' live').
  { induction Hops as [|op ops Hop _ IH]; intros h live Hi; [by exists h, live|]. unfold urun. cbn [foldl].
    destruct (ustep_inv base brk0 sbrk Hb Hb0 Hl Hs op h live Hi Hop) as (h1 & live1 & -> & Hi1). by apply IH. }
  destruct (Hrun (mkHeap ∅ 0 brk0) []) as (h & live & Er & Hi); [by left|]. exists h, live. split_and!; [done|done|]. intros n Hn.
  destruct (malloc_outcome base brk0 sbrk Hb Hb0 Hl Hs h live n Hi Hn) as (r & h' & Em & [(-> & _ & Hno)|(Hr & F & Hh')]).
  - by exists 0, h'.
  - exists r, h'. split; [done|]. rewrite (proj2 (Z.eqb_neq _ _) Hr). split_and!; [|apply Hh'|by exists F].
    unfold request_ok in Hn. unfold units, HDR. rewrite u32_small by zsolve. zsolve.
Qed.

(** Three blocks, the middle one freed, another one of the same size *)
Definition demo_sbrk (brk n : Z) : option Z := if brk + n <=? 2 ^ 20 then Some (brk + n) else None.
Abbreviation demo_ops := [OMalloc 100; OMalloc 40; OMalloc 100; OFree 1; OMalloc 40].
Lemma malloc_free_safe_witness :
  exists h, urun 4000 demo_sbrk demo_ops (mkHeap ∅ 0 8192, []) = Some (h, [(73536, 4); (73408, 8); (73600, 8)]) /\
    heap_inv 4000 8192 h [(73536, 4); (73408, 8); (73600, 8)].
Proof.
  destruct (malloc_free_safe 4000 8192 demo_sbrk demo_ops) as (h & live & E & Hi & _); [lia|unfold HDR; lia|lia| | |].
  - intros brk n brk' _. unfold demo_sbrk. destruct (Z.leb_spec (brk + n) (2 ^ 20)); [intros [= <-]; lia|done].
  - repeat constructor; cbn; lia.
  - assert (El : (snd <$> urun 4000 demo_sbrk demo_ops (mkHeap ∅ 0 8192, [])) = Some [(73536, 4); (73408, 8); (73600, 8)]) by (vm_compute; reflexivity).
    exists h. rewrite E in El. injection El as ->. split; [exact E|exact Hi].
Defined.
