(* ===== verification/Printf.v ===== *)
(** * Formatted output: kernel/printf.c and user/printf.c, and atoi of user/ulib.c

    Both printers convert a number into a local array of 16 bytes, last digit
    first, and send it backwards.  The arguments are the words that va_arg
    reads one after the other; strings in memory are an argument.  A write
    behind the array has no result here ([None]).  Proved: the user printer
    never does that and atoi reads back what %d prints; when the kernel's does;
    and how many arguments a format takes. *)

From S2P Require Import Prelude Console.

(** ** Digits *)
Definition kdigits : list Z := [48; 49; 50; 51; 52; 53; 54; 55; 56; 57; 97; 98; 99; 100; 101; 102].
Definition udigits : list Z := [48; 49; 50; 51; 52; 53; 54; 55; 56; 57; 65; 66; 67; 68; 69; 70].
Definition minus : Z := 45.
Definition percent : Z := 37.
Definition BUFSIZE : nat := 16.

(** do { buf[i++] = digits[x % base]; } while((x /= base) != 0); *)
Fixpoint digits_loop (fuel : nat) (digits : list Z) (base x : Z) : list Z :=
  match fuel with
  | O => []
  | S fuel' =>
      nthZ digits (x mod base) :: (if x / base =? 0 then [] else digits_loop fuel' digits base (x / base))
  end.

(** The array after the loop and the sign, sent backwards *)
Definition send_number (digits : list Z) (base x : Z) (neg : bool) : option (list Z) :=
  let buf := digits_loop 64 digits base x ++ (if neg then [minus] else []) in
  if (length buf <=? BUFSIZE)%nat then Some (rev buf) else None.

(** printint of the kernel works on 64 bits, that of user space on 32 *)
Definition kprintint (xx base : Z) (sign : bool) : option (list Z) :=
  let neg := sign && (xx <? 0) in
  send_number kdigits base (if neg then u64 (- xx) else u64 xx) neg.
Definition uprintint (xx base : Z) (sgn : bool) : option (list Z) :=
  let neg := sgn && (xx <? 0) in
  send_number udigits base (if neg then u32 (- xx) else u32 xx) neg.

(** printptr: 16 hexadecimal digits, from the top *)
Fixpoint printptr_loop (k : nat) (digits : list Z) (x : Z) : list Z :=
  match k with
  | O => []
  | S k' => nthZ digits (Z.shiftr x 60) :: printptr_loop k' digits (u64 (Z.shiftl x 4))
  end.
Definition printptr (digits : list Z) (x : Z) : list Z := [48; 120] ++ printptr_loop 16 digits x.

(** ** Formats *)

(** What the characters behind a % ask for, and how many of them belong to it
    beside the first: the chain of tests in both printers *)
Inductive conv := Num (wide : bool) (base : Z) (sign : bool) | Ptr | Str | Percent | Unknown.
Definition chr_d : Z := 100.
Definition chr_l : Z := 108.
Definition chr_u : Z := 117.
Definition chr_x : Z := 120.
Definition chr_p : Z := 112.
Definition chr_s : Z := 115.
Definition conversion (c0 c1 c2 : Z) : conv * nat :=
  if c0 =? chr_d then (Num false 10 true, 0%nat)
  else if (c0 =? chr_l) && (c1 =? chr_d) then (Num true 10 true, 1%nat)
  else if (c0 =? chr_l) && (c1 =? chr_l) && (c2 =? chr_d) then (Num true 10 true, 2%nat)
  else if c0 =? chr_u then (Num false 10 false, 0%nat)
  else if (c0 =? chr_l) && (c1 =? chr_u) then (Num true 10 false, 1%nat)
  else if (c0 =? chr_l) && (c1 =? chr_l) && (c2 =? chr_u) then (Num true 10 false, 2%nat)
  else if c0 =? chr_x then (Num false 16 false, 0%nat)
  else if (c0 =? chr_l) && (c1 =? chr_x) then (Num true 16 false, 1%nat)
  else if (c0 =? chr_l) && (c1 =? chr_l) && (c2 =? chr_x) then (Num true 16 false, 2%nat)
  else if c0 =? chr_p then (Ptr, 0%nat)
  else if c0 =? chr_s then (Str, 0%nat)
  else if c0 =? percent then (Percent, 0%nat)
  else (Unknown, 0%nat).

Definition null_text : list Z := [40; 110; 117; 108; 108; 41].

(** One conversion, with the next argument [a]: whether it takes it, and the
    bytes.  [str a] is the C string at address [a]. *)
Definition takes (c : conv) : bool := match c with Num _ _ _ | Ptr | Str => true | _ => false end.
Definition kconv (str : Z -> list Z) (c : conv) (c0 a : Z) : option (list Z) :=
  match c with
  | Num wide base sign => kprintint (if wide then s64 a else s32 a) base sign
  | Ptr => Some (printptr kdigits (u64 a))
  | Str => Some (if a =? 0 then null_text else str a)
  | Percent => Some [percent]
  | Unknown => Some [percent; c0]
  end.
(** The parameter of the user printint is an int: of a long the low half. *)
Definition uconv (str : Z -> list Z) (c : conv) (c0 a : Z) : option (list Z) :=
  match c with
  | Num wide base sgn => uprintint (s32 a) base sgn
  | Ptr => Some (printptr udigits (u64 a))
  | Str => Some (if a =? 0 then null_text else str a)
  | Percent => Some [percent]
  | Unknown => Some [percent; c0]
  end.

Section format.
Context (one : conv -> Z -> Z -> option (list Z)) (ap : nat -> Z).

(** The loop over the format, with [k] arguments read so far: the bytes sent
    and how many arguments have been read.  A % at the end ends it. *)
Fixpoint format_loop (fuel : nat) (fmt : list Z) (k : nat) : option (list Z * nat) :=
  match fuel with
  | O => Some ([], k)
  | S fuel' =>
      match fmt with
      | [] => Some ([], k)
      | cx :: fmt =>
          if negb (cx =? percent) then
            match format_loop fuel' fmt k with Some (out, k) => Some (cx :: out, k) | None => None end
          else
            match fmt with
            | [] => Some ([], k)
            | c0 :: fmt =>
                let '(c, more) := conversion c0 (nthZ fmt 0) (nthZ fmt 1) in
                match one c c0 (ap k) with
                | None => None
                | Some out =>
                    match format_loop fuel' (drop more fmt) (if takes c then S k else k) with
                    | Some (out', k) => Some (out ++ out', k)
                    | None => None
                    end
                end
            end
      end
  end.
End format.

(** The kernel's printf sends every byte through consputc. *)
Definition printf (str : Z -> list Z) (fmt : list Z) (ap : nat -> Z) : option (list Z) :=
  match format_loop (kconv str) ap (length fmt) fmt 0 with
  | Some (out, _) => Some (concat (map consputc out))
  | None => None
  end.
Definition vprintf (str : Z -> list Z) (fmt : list Z) (ap : nat -> Z) : option (list Z) :=
  fst <$> format_loop (uconv str) ap (length fmt) fmt 0.

(** panic(s): what it prints before the loop *)
Definition panic_text (str : Z -> list Z) (s : Z) : option (list Z) :=
  match printf str [112; 97; 110; 105; 99; 58; 32] (fun _ => 0), printf str [percent; chr_s; 10] (fun _ => s) with
  | Some a, Some b => Some (a ++ b)
  | _, _ => None
  end.

(** ** atoi *)
Fixpoint atoi_loop (s : list Z) (n : Z) : Z :=
  match s with
  | c :: s' => if (48 <=? c) && (c <=? 57) then atoi_loop s' (s32 (n * 10 + c - 48)) else n
  | [] => n
  end.
Definition atoi (s : list Z) : Z := atoi_loop s 0.

(** ** How many digits *)
Lemma digits_loop_short fuel digits base x n : 2 <= base -> 0 <= x < base ^ Z.of_nat (S n) ->
  (length (digits_loop fuel digits base x) <= S n)%nat.
Proof.
  intros Hb. revert x n. induction fuel as [|fuel IH]; intros x n Hx; [cbn; lia|]. cbn [digits_loop length].
  destruct (Z.eqb_spec (x / base) 0) as [|Hq]; [cbn; lia|].
  destruct n as [|n]; [rewrite Z.pow_1_r in Hx; rewrite Z.div_small in Hq by lia; lia|].
  assert (Hx' : 0 <= x / base < base ^ Z.of_nat (S n)).
  { rewrite (Nat2Z.inj_succ (S n)), Z.pow_succ_r in Hx by lia. split; [apply Z.div_pos; lia|apply Z.div_lt_upper_bound; lia]. }
  specialize (IH (x / base) n Hx'). lia.
Qed.

Lemma digits_loop_long fuel digits base x n : 2 <= base -> (n < fuel)%nat -> base ^ Z.of_nat n <= x ->
  (n < length (digits_loop fuel digits base x))%nat.
Proof.
  intros Hb. revert x n. induction fuel as [|fuel IH]; intros x n Hf Hx; [lia|]. cbn [digits_loop length].
  destruct n as [|n]; [lia|]. rewrite Nat2Z.inj_succ, Z.pow_succ_r in Hx by lia.
  assert (Hx' : base ^ Z.of_nat n <= x / base) by (apply Z.div_le_lower_bound; lia).
  pose proof (Z.pow_pos_nonneg base (Z.of_nat n)) as Hp. destruct (Z.eqb_spec (x / base) 0) as [|_]; [lia|]. specialize (IH (x / base) n). lia.
Qed.

Lemma send_number_fits digits base x neg : 2 <= base -> 0 <= x ->
  send_number digits base x neg = None <-> base ^ (16 - b2z neg) <= x.
Proof.
  intros Hb Hx. unfold send_number. rewrite length_app. destruct (Z.leb_spec (base ^ (16 - b2z neg)) x) as [Hl|Hl].
  - split; [done|]. intros _. destruct neg; cbn [b2z length] in *.
    + pose proof (digits_loop_long 64 digits base x 15 Hb ltac:(lia) Hl). by rewrite (proj2 (Nat.leb_gt _ _)) by (unfold BUFSIZE; lia).
    + pose proof (digits_loop_long 64 digits base x 16 Hb ltac:(lia) Hl). by rewrite (proj2 (Nat.leb_gt _ _)) by (unfold BUFSIZE; lia).
  - split; [|lia]. destruct neg; cbn [b2z length] in *.
    + pose proof (digits_loop_short 64 digits base x 14 Hb (conj Hx Hl)). by rewrite (proj2 (Nat.leb_le _ _)) by (unfold BUFSIZE; lia).
    + pose proof (digits_loop_short 64 digits base x 15 Hb (conj Hx Hl)). by rewrite (proj2 (Nat.leb_le _ _)) by (unfold BUFSIZE; lia).
Qed.

(** When the kernel's printint writes behind its array of 16 bytes: for a
    number whose digits and sign do not fit, which are those of at least
    base^16, or base^15 after a minus sign.  The numbers %d and %x take always
    fit; %u of a negative int, sign-extended to 64 bits, does not. *)
Theorem kprintint_overflow xx base sign : 2 <= base -> - 2 ^ 63 <= xx < 2 ^ 63 ->
  let neg := sign && (xx <? 0) in
  (kprintint xx base sign = None <-> base ^ (16 - b2z neg) <= (if neg then - xx else u64 xx)) /\
  (base = 10 /\ sign = true /\ - 2 ^ 31 <= xx < 2 ^ 31 \/ base = 16 /\ sign = false -> kprintint xx base sign <> None) /\
  (base = 10 -> sign = false -> - 2 ^ 31 <= xx < 0 -> kprintint xx base sign = None).
Proof.
  intros Hb Hx neg. set (mag := if neg then - xx else u64 xx). assert (Hiff : kprintint xx base sign = None <-> base ^ (16 - b2z neg) <= mag).
  { unfold kprintint. fold neg. replace (if neg then u64 (- xx) else u64 xx) with mag; [apply send_number_fits; [done|]|].
    - pose proof (u64_range xx). unfold mag, neg. destruct sign, (Z.ltb_spec xx 0); cbn [andb]; lia.
    - unfold mag. destruct neg eqn:En; [|done]. unfold neg in En. destruct sign, (Z.ltb_spec xx 0); try done. symmetry. apply u64_small. lia. }
  split; [exact Hiff|]. split.
  - intros Hc Hn. apply Hiff in Hn. unfold mag, neg in Hn. destruct Hc as [(-> & -> & Hi)|[-> ->]].
    + destruct (Z.ltb_spec xx 0) as [|]; cbn [andb b2z] in Hn.
      * change (10 ^ (16 - 1)) with 1000000000000000 in Hn. lia.
      * change (10 ^ (16 - 0)) with 10000000000000000 in Hn. rewrite u64_small in Hn by lia. lia.
    + cbn [andb b2z] in Hn. change (16 ^ (16 - 0)) with (2 ^ 64) in Hn. pose proof (u64_range xx). lia.
  - intros -> -> Hi. apply Hiff. unfold mag, neg. cbn [andb b2z]. change (10 ^ (16 - 0)) with 10000000000000000.
    replace (u64 xx) with (xx + 2 ^ 64); [lia|]. unfold u64. rewrite <- (Z_mod_plus_full xx 1 (2 ^ 64)). symmetry. rewrite Z.mul_1_l. apply Z.mod_small. lia.
Qed.

(** ** Reading back *)
Lemma atoi_loop_snoc l c n : Forall (fun x => 48 <= x <= 57) l -> 48 <= c <= 57 ->
  atoi_loop (l ++ [c]) n = s32 (atoi_loop l n * 10 + c - 48).
Proof.
  intros Hl Hc. revert n. induction Hl as [|x l Hx _ IH]; intros n; cbn [app atoi_loop].
  - by rewrite (proj2 (Z.leb_le _ _)), (proj2 (Z.leb_le c _)) by lia.
  - rewrite (proj2 (Z.leb_le 48 x)), (proj2 (Z.leb_le x 57)) by lia. cbn [andb]. apply IH.
Qed.

Lemma digit_char d : 0 <= d < 10 -> nthZ udigits d = 48 + d.
Proof.
  intros Hd. assert (Hc : d = 0 \/ d = 1 \/ d = 2 \/ d = 3 \/ d = 4 \/ d = 5 \/ d = 6 \/ d = 7 \/ d = 8 \/ d = 9) by lia.
  destruct Hc as [->|[->|[->|[->|[->|[->|[->|[->|[->| ->]]]]]]]]]; reflexivity.
Qed.

Lemma digits_read fuel x : 0 <= x < 10 ^ Z.of_nat fuel -> x < 2 ^ 31 ->
  Forall (fun c => 48 <= c <= 57) (digits_loop fuel udigits 10 x) /\ atoi (rev (digits_loop fuel udigits 10 x)) = x.
Proof.
  revert x. induction fuel as [|fuel IH]; intros x Hx Hl; [change (10 ^ Z.of_nat 0) with 1 in Hx; split; [constructor|change (0 = x); lia]|]. cbn [digits_loop].
  rewrite digit_char by zsolve. rewrite Nat2Z.inj_succ, Z.pow_succ_r in Hx by lia. destruct (Z.eqb_spec (x / 10) 0) as [Hq|Hq].
  - assert (Hm : x mod 10 = x) by zsolve. rewrite Hm. split; [repeat constructor; zsolve|]. unfold atoi. cbn [rev app atoi_loop].
    rewrite (proj2 (Z.leb_le _ _)), (proj2 (Z.leb_le (48 + x) _)) by zsolve. cbn [andb]. rewrite s32_small; zsolve.
  - destruct (IH (x / 10)) as [Hf Hr]; [zsolve|zsolve|]. split; [constructor; [zsolve|done]|]. cbn [rev]. unfold atoi in *.
    rewrite atoi_loop_snoc; [|by apply Forall_rev|zsolve]. rewrite Hr, s32_small; zsolve.
Qed.

(** %d and atoi.  The user printint never leaves its array; what it prints
    for a nonnegative int is read back by atoi, and for a negative one it is a
    minus sign before what it prints for the absolute value. *)
Theorem atoi_reads_printint xx : - 2 ^ 31 < xx < 2 ^ 31 ->
  exists out, uprintint xx 10 true = Some out /\
    if 0 <=? xx then atoi out = xx else exists out', out = minus :: out' /\ atoi out' = - xx.
Proof.
  intros Hx. unfold uprintint. cbn [andb]. set (neg := xx <? 0). set (x := if neg then u32 (- xx) else u32 xx).
  assert (Hx' : x = Z.abs xx) by (unfold x, neg; destruct (Z.ltb_spec xx 0); rewrite u32_small; lia).
  assert (Hsome : send_number udigits 10 x neg <> None).
  { intros Hn. apply send_number_fits in Hn; [|lia|lia]. assert (10 ^ 15 <= 10 ^ (16 - b2z neg)) by (apply Z.pow_le_mono_r; [lia|]; unfold b2z; destruct neg; lia).
    change (10 ^ 15) with 1000000000000000 in *. lia. }
  destruct (digits_read 64 x) as [_ Hr]; [change (Z.of_nat 64) with 64; assert (2 ^ 31 < 10 ^ 64) by reflexivity; lia|lia|].
  unfold send_number in *. destruct (_ <=? _)%nat; [|done]. eexists. split; [reflexivity|]. unfold neg in *. destruct (Z.leb_spec 0 xx) as [Hp|Hn].
  - destruct (Z.ltb_spec xx 0) as [|_]; [lia|]. rewrite app_nil_r, Hr. lia.
  - destruct (Z.ltb_spec xx 0) as [_|]; [|lia]. rewrite rev_app_distr. exists (rev (digits_loop 64 udigits 10 x)). split; [done|]. lia.
Qed.

(** ** The arguments a format takes *)
Fixpoint arity_loop (fuel : nat) (fmt : list Z) : nat :=
  match fuel with
  | O => O
  | S fuel' =>
      match fmt with
      | [] => O
      | cx :: fmt =>
          if negb (cx =? percent) then arity_loop fuel' fmt
          else match fmt with
               | [] => O
               | c0 :: fmt => let '(c, more) := conversion c0 (nthZ fmt 0) (nthZ fmt 1) in ((if takes c then 1 else 0) + arity_loop fuel' (drop more fmt))%nat
               end
      end
  end.
Definition arity (fmt : list Z) : nat := arity_loop (length fmt) fmt.

Lemma format_arity one ap ap' fuel fmt k : (forall c c0 a a', takes c = false -> one c c0 a = one c c0 a') ->
  (forall i, (k <= i < k + arity_loop fuel fmt)%nat -> ap i = ap' i) ->
  format_loop one ap fuel fmt k = format_loop one ap' fuel fmt k /\
  (forall out k', format_loop one ap fuel fmt k = Some (out, k') -> k' = (k + arity_loop fuel fmt)%nat).
Proof.
  intros Hone. revert fmt k. induction fuel as [|fuel IH]; intros fmt k Hap; [split; [done|intros out k' [= <- <-]; cbn; lia]|].
  cbn [format_loop arity_loop] in *. destruct fmt as [|cx fmt]; [split; [done|intros out k' [= <- <-]; lia]|]. destruct (negb (cx =? percent)).
  - destruct (IH fmt k Hap) as [-> Hk]. split; [done|]. destruct (format_loop one ap' fuel fmt k) as [[out' k1]|]; [|done].
    intros out k' [= <- <-]. by apply (Hk out').
  - destruct fmt as [|c0 fmt]; [split; [done|intros out k' [= <- <-]; lia]|]. destruct (conversion _ _ _) as [c more].
    assert (E1 : one c c0 (ap k) = one c c0 (ap' k)) by (destruct (takes c) eqn:Et; [rewrite Hap by lia; done|by apply Hone]). rewrite E1.
    destruct (one c c0 (ap' k)) as [out1|]; [|done]. destruct (IH (drop more fmt) (if takes c then S k else k)) as [E2 Hk].
    { intros i Hi. apply Hap. destruct (takes c); lia. }
    rewrite E2 in *. destruct (format_loop one ap' fuel (drop more fmt) _) as [[out2 k2]|]; [|done]. split; [done|].
    intros out k' [= <- <-]. rewrite (Hk out2 k2 eq_refl). destruct (takes c); lia.
Qed.

(** The format alone says how many arguments a printer reads: one for each
    conversion other than %% and unknown ones.  The output depends on no others. *)
Theorem printf_arity str fmt ap ap' :
  (forall i, (i < arity fmt)%nat -> ap i = ap' i) ->
  printf str fmt ap = printf str fmt ap' /\ vprintf str fmt ap = vprintf str fmt ap'.
Proof.
  intros Hap. unfold printf, vprintf.
  destruct (format_arity (kconv str) ap ap' (length fmt) fmt 0) as [-> _]; [by intros []|intros i Hi; apply Hap; unfold arity; lia|].
  destruct (format_arity (uconv str) ap ap' (length fmt) fmt 0) as [-> _]; [by intros []|intros i Hi; apply Hap; unfold arity; lia|]. done.
Qed.

Lemma kprintint_overflow_witness : kprintint (-1) 10 false = None /\ kprintint (-5) 10 true = Some [minus; 53].
Proof.
  destruct (kprintint_overflow (-1) 10 false) as (_ & _ & H); [lia|lia|]. split; [apply H; reflexivity || lia|reflexivity].
Defined.

Lemma atoi_reads_printint_witness : exists out, uprintint 407 10 true = Some out /\ atoi out = 407.
Proof. exact (atoi_reads_printint 407 ltac:(lia)). Defined.

(** "%d %%%s": two arguments *)
Lemma printf_arity_witness :
  vprintf (fun _ => [120]) [37; 100; 32; 37; 37; 37; 115] (fun i => Z.of_nat i) = vprintf (fun _ => [120]) [37; 100; 32; 37; 37; 37; 115] (fun i => Z.of_nat (i `min` 1)).
Proof. apply printf_arity. change (arity [37; 100; 32; 37; 37; 37; 115]) with 2%nat. intros i Hi. f_equal. lia. Defined.
