(* ===== verification/Ulib.v ===== *)
(** * The user library: user/ulib.c

    Strings are NUL-terminated bytes of the process's memory.  The loops that
    run to a NUL take fuel, and the theorems show how much is enough: one step
    more than the string is long.  The system calls of gets and stat are
    arguments.  atoi is in Printf. *)

From S2P Require Import Prelude Mem.

(** strcpy: while(( *s++ = *t++ ) != 0); *)
Fixpoint strcpy (fuel : nat) (m : mem) (s t : Z) : option mem :=
  match fuel with
  | O => None
  | S fuel' => let c := rd m t in let m := wr m s c in if c =? 0 then Some m else strcpy fuel' m (s + 1) (t + 1)
  end.

Fixpoint strcmp (fuel : nat) (m : mem) (p q : Z) : option Z :=
  match fuel with
  | O => None
  | S fuel' =>
      if negb (rd m p =? 0) && (rd m p =? rd m q) then strcmp fuel' m (p + 1) (q + 1)
      else Some (u8 (rd m p) - u8 (rd m q))
  end.

(** The counter n is an int and the result a uint. *)
Fixpoint ustrlen_loop (fuel : nat) (m : mem) (s n : Z) : option Z :=
  match fuel with
  | O => None
  | S fuel' => if rd m (s + n) =? 0 then Some (u32 n) else ustrlen_loop fuel' m s (n + 1)
  end.
Definition ustrlen (fuel : nat) (m : mem) (s : Z) : option Z := ustrlen_loop fuel m s 0.

(** memset: the loop of the kernel's *)
Definition umemset (m : mem) (dst c n : Z) : mem := memset_loop (Z.to_nat n) 0 m dst c.

Fixpoint strchr (fuel : nat) (m : mem) (s c : Z) : option Z :=
  match fuel with
  | O => None
  | S fuel' => if rd m s =? 0 then Some 0 else if rd m s =? u8 c then Some s else strchr fuel' m (s + 1) c
  end.

(** memmove: forwards when src > dst, else backwards from the ends *)
Definition umemmove (m : mem) (vdst vsrc n : Z) : mem :=
  if vdst <? vsrc then copy_forward (Z.to_nat n) m vdst vsrc
  else copy_backward (Z.to_nat n) m (vdst + n) (vsrc + n).
Definition umemcpy (m : mem) (dst src n : Z) : mem := umemmove m dst src (s32 n).

(** memcmp: plain char is unsigned on RISC-V *)
Fixpoint umemcmp_loop (n : nat) (m : mem) (p1 p2 : Z) : Z :=
  match n with
  | O => 0
  | S n' => if negb (rd m p1 =? rd m p2) then rd m p1 - rd m p2 else umemcmp_loop n' m (p1 + 1) (p2 + 1)
  end.
Definition umemcmp (m : mem) (s1 s2 n : Z) : Z := umemcmp_loop (Z.to_nat n) m s1 s2.

(** gets: [read] is read(0, &c, 1), [None] when it returns less than 1.
    [n] counts the rounds i+1 < max allows. *)
Section gets.
Context {I : Type} (read : I -> option (Z * I)).

Fixpoint gets_loop (n : nat) (m : mem) (buf i : Z) (inp : I) : mem * Z * I :=
  match n with
  | O => (m, i, inp)
  | S n' =>
      match read inp with
      | None => (m, i, inp)
      | Some (c, inp) =>
          let m := wr m (buf + i) c in
          if (c =? 10) || (c =? 13) then (m, i + 1, inp) else gets_loop n' m buf (i + 1) inp
      end
  end.
Definition gets (m : mem) (buf max : Z) (inp : I) : mem * I :=
  let '(m, i, inp) := gets_loop (Z.to_nat (max - 1)) m buf 0 inp in (wr m (buf + i) 0, inp).
End gets.

(** stat: [open], [fstat] and [close] act on the kernel's state [K]. *)
Section ustat.
Context {K : Type} (open : list Z -> Z -> K -> Z * K) (fstat : Z -> Z -> K -> Z * K) (close : Z -> K -> K).

Definition ustat (n : list Z) (st : Z) (k : K) : Z * K :=
  let '(fd, k) := open n 0 k in
  if fd <? 0 then (-1, k) else
  let '(r, k) := fstat fd st k in (r, close fd k).
End ustat.

(** start: main's own return value is dropped, exit gets 0. *)
Definition ustart {K} (main : K -> Z * K) (exit : Z -> K -> K) (k : K) : K := let '(_, k) := main k in exit 0 k.

(** ** Strings in memory *)
Definition cstring_at (m : mem) (a : Z) (l : list Z) : Prop :=
  Forall (fun c => 0 < c < 256) l /\ (forall i c, l !! i = Some c -> rd m (a + Z.of_nat i) = c) /\ rd m (a + Z.of_nat (length l)) = 0.

Lemma cstring_at_nil m a : cstring_at m a [] <-> rd m a = 0.
Proof.
  unfold cstring_at. cbn [length]. replace (a + Z.of_nat 0) with a by lia. split; [tauto|].
  intros H. split_and!; [constructor|by intros i c Hi|done].
Qed.

Lemma cstring_at_cons m a c l : cstring_at m a (c :: l) <-> 0 < c < 256 /\ rd m a = c /\ cstring_at m (a + 1) l.
Proof.
  unfold cstring_at. rewrite Forall_cons. split.
  - intros ((Hc & Hl) & Hi & H0). split; [done|]. split.
    { specialize (Hi 0%nat c eq_refl). by rewrite Z.add_0_r in Hi. }
    split_and!; [done| |].
    + intros i x Hx. rewrite <- (Hi (S i) x Hx). f_equal. lia.
    + rewrite <- H0. f_equal. cbn [length]. lia.
  - intros (Hc & Ha & Hl & Hi & H0). split; [done|]. split.
    + intros [|i] x Hx; [cbn in Hx; simplify_eq; by rewrite Z.add_0_r|]. rewrite <- (Hi i x Hx). f_equal. lia.
    + rewrite <- H0. f_equal. cbn [length]. lia.
Qed.

(** Writes outside a string keep it. *)
Lemma cstring_at_wr m a l x c : cstring_at m a l -> ~ (a <= x <= a + Z.of_nat (length l)) -> cstring_at (wr m x c) a l.
Proof.
  intros (H1 & H2 & H3) Hx. unfold cstring_at. split_and!; [done| |].
  - intros i y Hy. pose proof (lookup_lt_Some _ _ _ Hy). rewrite rd_wr. bcase; [lia|auto].
  - rewrite rd_wr. bcase; [lia|done].
Qed.

Lemma ustrlen_loop_spec l : forall fuel m s n, cstring_at m (s + n) l -> (length l < fuel)%nat ->
  ustrlen_loop fuel m s n = Some (u32 (n + Z.of_nat (length l))).
Proof.
  induction l as [|c l IH]; intros [|fuel] m s n H Hf; cbn [length] in Hf; try lia; cbn [ustrlen_loop].
  - apply cstring_at_nil in H. rewrite H. cbn. do 2 f_equal. lia.
  - apply cstring_at_cons in H as (Hc & Ha & H). rewrite Ha. bcase; [lia|].
    rewrite IH; [|by rewrite Z.add_assoc|lia]. cbn [length]. do 2 f_equal. lia.
Qed.

(** strlen ends and counts the bytes before the NUL. *)
Lemma ustrlen_spec m s l : cstring_at m s l -> Z.of_nat (length l) < 2 ^ 31 -> ustrlen (S (length l)) m s = Some (Z.of_nat (length l)).
Proof.
  intros H Hl. unfold ustrlen. rewrite (ustrlen_loop_spec l); [|by rewrite Z.add_0_r|lia]. f_equal. apply u32_small. lia.
Qed.

(** strcpy copies a string to memory that does not overlap it. *)
Lemma strcpy_spec l : forall m s t fuel, cstring_at m t l -> s + Z.of_nat (length l) < t \/ t + Z.of_nat (length l) < s -> (length l < fuel)%nat ->
  exists m', strcpy fuel m s t = Some m' /\ cstring_at m' s l /\
    (forall a, ~ (s <= a <= s + Z.of_nat (length l)) -> rd m' a = rd m a).
Proof.
  induction l as [|c l IH]; intros m s t [|fuel] H Hd Hf; cbn [length] in Hf; try lia; cbn [strcpy].
  - apply cstring_at_nil in H. rewrite H. cbn [Z.eqb]. eexists. split_and!; [done|apply cstring_at_nil|].
    + rewrite rd_wr. bcase; [done|lia].
    + intros a Ha. rewrite rd_wr. cbn [length] in Ha. bcase; [lia|done].
  - apply cstring_at_cons in H as (Hc & Ha & H). cbn [length] in Hd. rewrite Ha. bcase; [lia|].
    destruct (IH (wr m s c) (s + 1) (t + 1) fuel) as (m' & E & Hs & Hk); [apply cstring_at_wr; [done|lia]|lia|lia|].
    exists m'. split_and!; [done|apply cstring_at_cons; split_and!; [lia|lia| |done]|].
    + rewrite Hk by lia. rewrite rd_wr. bcase; [done|lia].
    + intros a Hn. cbn [length] in Hn. rewrite Hk by lia. rewrite rd_wr. bcase; [lia|done].
Qed.

(** The order of the strings as byte sequences *)
Fixpoint lex_lt (l k : list Z) : Prop :=
  match l, k with
  | _, [] => False
  | [], _ :: _ => True
  | c :: l, d :: k => c < d \/ (c = d /\ lex_lt l k)
  end.

(** strcmp ends and its sign is the order of the strings. *)
Lemma strcmp_spec l : forall k m p q fuel, cstring_at m p l -> cstring_at m q k -> (length l < fuel)%nat ->
  exists d, strcmp fuel m p q = Some d /\ (d = 0 <-> l = k) /\ (d < 0 <-> lex_lt l k).
Proof.
  induction l as [|c l IH]; intros k m p q [|fuel] Hp Hq Hf; cbn [length] in Hf; try lia; cbn [strcmp].
  - apply cstring_at_nil in Hp. rewrite Hp. cbn [Z.eqb negb andb]. eexists. split; [done|]. destruct k as [|d k].
    + apply cstring_at_nil in Hq. rewrite Hq. cbn [lex_lt]. change (u8 0 - u8 0) with 0. split; split; intros; try done; lia.
    + apply cstring_at_cons in Hq as (Hd & -> & _). rewrite !u8_small by lia. cbn [lex_lt].
      split; split; intros; try done; lia.
  - apply cstring_at_cons in Hp as (Hc & Ha & Hp). rewrite Ha. bcase; [lia|]. cbn [negb andb].
    destruct k as [|d k].
    + apply cstring_at_nil in Hq. rewrite Hq. bcase; [lia|]. eexists. split; [done|]. rewrite !u8_small by lia.
      cbn [lex_lt]. split; split; intros; try done; lia.
    + apply cstring_at_cons in Hq as (Hd & Hb & Hq). rewrite Hb. bcase.
      * destruct (IH k m (p + 1) (q + 1) fuel Hp Hq ltac:(lia)) as (x & E & H1 & H2). exists x. rewrite H1, H2. cbn [lex_lt]. subst d.
        split; [done|]. split; split.
        -- intros ->. by rewrite <- e.
        -- by intros [= _ ->].
        -- intros Hl. right. done.
        -- intros [Hl|[_ Hl]]; [lia|done].
      * eexists. split; [done|]. rewrite !u8_small by lia. cbn [lex_lt]. split; split; try lia. intros [=]. lia.
Qed.

(** strchr ends with the address of the first such byte, or 0. *)
Lemma strchr_spec l : forall m s c fuel, cstring_at m s l -> 0 < c < 256 -> (length l < fuel)%nat ->
  strchr fuel m s c = Some (match find_index (Z.eqb c) l with Some i => s + Z.of_nat i | None => 0 end).
Proof.
  induction l as [|x l IH]; intros m s c [|fuel] H Hc Hf; cbn [length] in Hf; try lia; cbn [strchr].
  - apply cstring_at_nil in H. by rewrite H.
  - apply cstring_at_cons in H as (Hx & Ha & H). rewrite Ha. bcase; [lia|]. rewrite u8_small by lia. cbn [find_index].
    destruct (Z.eqb_spec c x) as [->|Hn]; [rewrite Z.eqb_refl; f_equal; lia|].
    bcase; [lia|]. rewrite IH by (done || lia). destruct (find_index _ l); cbn; f_equal; lia.
Qed.

(** ** memmove and memcmp *)

(** The library's memmove, which picks its direction by comparing the two
    pointers alone, leaves the same memory as the kernel's, which copies
    backwards only when the ranges overlap: both move the bytes the source
    held before the call. *)
Theorem memmove_agrees m dst src n : 0 <= n -> mem_eq (umemmove m dst src n) (memmove m dst src n).
Proof.
  intros Hn a. rewrite rd_memmove by done. unfold umemmove. bcase.
  - rewrite rd_copy_forward, Z2Nat.id by lia. done.
  - rewrite rd_copy_backward, Z2Nat.id by lia. replace (dst + n - n) with dst by lia.
    by replace (a - (dst + n) + (src + n)) with (a - dst + src) by lia.
Qed.

(** Three bytes moved up by one *)
Lemma memmove_agrees_witness : let m := wr (wr (wr ∅ 8 1) 9 2) 10 3 in
  mem_eq (umemmove m 9 8 3) (memmove m 9 8 3) /\ rd (umemmove m 9 8 3) 11 = 3.
Proof. split; [apply (memmove_agrees _ 9 8 3); lia|reflexivity]. Defined.

Lemma umemcmp_loop_zero k m : forall s1 s2,
  umemcmp_loop k m s1 s2 = 0 <-> (forall i, 0 <= i < Z.of_nat k -> rd m (s1 + i) = rd m (s2 + i)).
Proof.
  induction k as [|k IH]; intros s1 s2; cbn [umemcmp_loop]; [split; [intros _ i Hi; lia|done]|].
  destruct (Z.eqb_spec (rd m s1) (rd m s2)) as [E|E]; cbn [negb].
  - rewrite IH. split; intros H i Hi.
    + destruct (decide (i = 0)) as [->|]; [by rewrite !Z.add_0_r|]. specialize (H (i - 1) ltac:(lia)).
      replace (s1 + i) with (s1 + 1 + (i - 1)) by lia. by replace (s2 + i) with (s2 + 1 + (i - 1)) by lia.
    + rewrite <- !Z.add_assoc. apply H. lia.
  - split; [lia|]. intros H. specialize (H 0 ltac:(lia)). rewrite !Z.add_0_r in H. lia.
Qed.

(** memcmp is zero exactly on equal ranges. *)
Lemma umemcmp_zero m s1 s2 n : 0 <= n -> umemcmp m s1 s2 n = 0 <-> (forall i, 0 <= i < n -> rd m (s1 + i) = rd m (s2 + i)).
Proof. intros Hn. unfold umemcmp. rewrite umemcmp_loop_zero. by rewrite Z2Nat.id. Qed.

(** ** gets *)

(** A descriptor that gives the bytes of a list, then end of file *)
Definition read1 (inp : list Z) : option (Z * list Z) := match inp with c :: inp => Some (c, inp) | [] => None end.
Definition eol (c : Z) : Prop := c = 10 \/ c = 13.

(** [l] is the next line of the input, cut at [n] bytes. *)
Inductive next_line : nat -> list Z -> list Z -> list Z -> Prop :=
  | line_full inp : next_line 0 inp [] inp
  | line_eof n : next_line (S n) [] [] []
  | line_end n c inp : eol c -> next_line (S n) (c :: inp) [c] inp
  | line_more n c inp l rest : ~ eol c -> next_line n inp l rest -> next_line (S n) (c :: inp) (c :: l) rest.

Lemma next_line_app n inp l rest : next_line n inp l rest -> inp = l ++ rest /\ (length l <= n)%nat.
Proof. induction 1 as [| | |n c inp l rest Hc _ [-> IH]]; cbn [length app]; split; auto; lia. Qed.

Lemma gets_loop_spec n : forall m buf i inp, exists l rest,
  next_line n inp l rest /\ gets_loop read1 n m buf i inp = (wr_bytes m (buf + i) l, i + Z.of_nat (length l), rest).
Proof.
  induction n as [|n IH]; intros m buf i inp; cbn [gets_loop].
  { exists [], inp. split; [constructor|]. cbn. f_equal. f_equal. lia. }
  destruct inp as [|c inp]; cbn [read1].
  { exists [], []. split; [constructor|]. cbn. f_equal. f_equal. lia. }
  destruct ((c =? 10) || (c =? 13)) eqn:Ec.
  - exists [c], inp. split; [|done]. constructor. unfold eol. apply orb_true_iff in Ec. rewrite !Z.eqb_eq in Ec. tauto.
  - destruct (IH (wr m (buf + i) c) buf (i + 1) inp) as (l & rest & Hl & E). exists (c :: l), rest. rewrite E. split.
    + constructor; [|done]. unfold eol. apply orb_false_iff in Ec. rewrite !Z.eqb_neq in Ec. tauto.
    + cbn [wr_bytes length]. replace (buf + i + 1) with (buf + (i + 1)) by lia. f_equal. f_equal. lia.
Qed.

(** Gets(buf, max) stores the next line of the input, its newline
    included, or the part of it that fits in max - 1 bytes, or what is left at
    end of file; puts a NUL after it; leaves the rest of the input unread; and
    writes nothing outside buf[0..max). *)
Theorem gets_reads_line m buf max inp : 0 < max -> exists l rest m',
  gets read1 m buf max inp = (m', rest) /\ next_line (Z.to_nat (max - 1)) inp l rest /\
  (forall i c, l !! i = Some c -> rd m' (buf + Z.of_nat i) = c) /\ rd m' (buf + Z.of_nat (length l)) = 0 /\
  Z.of_nat (length l) < max /\ (forall a, ~ (buf <= a < buf + max) -> rd m' a = rd m a).
Proof.
  intros Hm. unfold gets. destruct (gets_loop_spec (Z.to_nat (max - 1)) m buf 0 inp) as (l & rest & Hl & E). rewrite E.
  pose proof (next_line_app _ _ _ _ Hl) as [_ Hn]. exists l, rest, (wr (wr_bytes m (buf + 0) l) (buf + (0 + Z.of_nat (length l))) 0).
  split_and!; [done|done| | |lia|].
  - intros i c Hi. pose proof (lookup_lt_Some _ _ _ Hi). rewrite rd_wr. bcase; [lia|]. rewrite rd_wr_bytes.
    repeat bcase; cbn [andb]; try lia. unfold nthZ. replace (Z.to_nat _) with i by lia. by rewrite Hi.
  - rewrite rd_wr. bcase; [done|lia].
  - intros a Ha. rewrite rd_wr. bcase; [lia|]. rewrite rd_wr_bytes. repeat bcase; cbn [andb]; try lia; done.
Qed.

(** The input ls, newline, x through a buffer of 8 bytes *)
Lemma gets_reads_line_witness : exists l rest m', gets read1 ∅ 64 8 [108; 115; 10; 120] = (m', rest) /\
  next_line 7 [108; 115; 10; 120] l rest /\ rest = [120].
Proof.
  destruct (gets_reads_line ∅ 64 8 [108; 115; 10; 120] ltac:(lia)) as (l & rest & m' & E & Hl & _).
  exists l, rest, m'. split_and!; [exact E|exact Hl|]. vm_compute in E. congruence.
Defined.
