(* ===== verification/Boot.v ===== *)
(** * From reset to the scheduler: start.c, main.c, plic.c

    A hart leaves entry.S (Asm.v) in machine mode; start sets its control
    registers and returns into main in supervisor mode.  Hart 0 initialises
    the kernel, one call after the other, and publishes [started]; the others
    wait for it.  Writes to device registers are kept as a list; initlock has
    no effect here, since critical sections are single steps. *)

From S2P Require Import Prelude Riscv Mem Cstring Kalloc Vm Sleeplock Block Bio BioProps Log Fs File Sysfile Proc ProcLife Console Virtio Printf Asm.

(** ** riscv.h: control and status registers *)
Definition MSTATUS_MPP_MASK : Z := Z.shiftl 3 11.
Definition MSTATUS_MPP_S : Z := Z.shiftl 1 11.
Definition SIE_SEIE : Z := Z.shiftl 1 9.
Definition SIE_STIE : Z := Z.shiftl 1 5.
Definition SIE_SSIE : Z := Z.shiftl 1 1.
Definition MIE_STIE : Z := Z.shiftl 1 5.

Definition r_mhartid (x : hart) : Z := x_csr x C_mhartid.
Definition r_mstatus (x : hart) : Z := x_csr x C_mstatus.
Definition w_mstatus (v : Z) (x : hart) : hart := setc x C_mstatus v.
Definition w_mepc (v : Z) (x : hart) : hart := setc x C_mepc v.
Definition r_sie (x : hart) : Z := x_csr x C_sie.
Definition w_sie (v : Z) (x : hart) : hart := setc x C_sie v.
Definition r_mie (x : hart) : Z := x_csr x C_mie.
Definition w_mie (v : Z) (x : hart) : hart := setc x C_mie v.
Definition w_medeleg (v : Z) (x : hart) : hart := setc x C_medeleg v.
Definition w_mideleg (v : Z) (x : hart) : hart := setc x C_mideleg v.
Definition w_stvec (v : Z) (x : hart) : hart := setc x C_stvec v.
Definition w_stimecmp (v : Z) (x : hart) : hart := setc x C_stimecmp v.
Definition r_menvcfg (x : hart) : Z := x_csr x C_menvcfg.
Definition w_menvcfg (v : Z) (x : hart) : hart := setc x C_menvcfg v.
Definition w_pmpcfg0 (v : Z) (x : hart) : hart := setc x C_pmpcfg0 v.
Definition w_pmpaddr0 (v : Z) (x : hart) : hart := setc x C_pmpaddr0 v.
Definition w_satp (v : Z) (x : hart) : hart := setc x C_satp v.
Definition r_mcounteren (x : hart) : Z := x_csr x C_mcounteren.
Definition w_mcounteren (v : Z) (x : hart) : hart := setc x C_mcounteren v.
Definition r_time (x : hart) : Z := x_csr x C_time.
Definition r_tp (x : hart) : Z := x_regs x TP.
Definition w_tp (v : Z) (x : hart) : hart := setr x TP v.
Definition sfence_vma (x : hart) : hart := x.

(** ** start.c *)
Inductive mode := Machine | Supervisor | User.

(** mret: to the mode in mstatus.MPP, at mepc; MIE from MPIE, MPIE set, MPP
    cleared *)
Definition mret (x : hart) : option mode * hart :=
  let s := r_mstatus x in
  let m := match Z.testbit s 12, Z.testbit s 11 with
           | false, false => Some User | false, true => Some Supervisor | true, true => Some Machine | true, false => None end in
  let s' := Z.lor (Z.land s (Z.lnot (Z.lor MSTATUS_MPP_MASK (Z.shiftl 1 3)))) (Z.lor (Z.shiftl 1 7) (if Z.testbit s 7 then Z.shiftl 1 3 else 0)) in
  (m, mkHart (x_csr x C_mepc) (x_regs x) (x_csr (w_mstatus s' x)) (x_mem x)).

Definition timerinit (x : hart) : hart :=
  let x := w_mie (Z.lor (r_mie x) MIE_STIE) x in
  let x := w_menvcfg (Z.lor (r_menvcfg x) (Z.shiftl 1 63)) x in
  let x := w_mcounteren (Z.lor (r_mcounteren x) 2) x in
  w_stimecmp (u64 (r_time x + 1000000)) x.

Definition start (main : Z) (x : hart) : option mode * hart :=
  let v := r_mstatus x in
  let v := Z.land v (Z.lnot MSTATUS_MPP_MASK) in
  let v := Z.lor v MSTATUS_MPP_S in
  let x := w_mstatus v x in
  let x := w_mepc main x in
  let x := w_satp 0 x in
  let x := w_medeleg 0xffff x in
  let x := w_mideleg 0xffff x in
  let x := w_sie (Z.lor (Z.lor (Z.lor (r_sie x) SIE_SEIE) SIE_STIE) SIE_SSIE) x in
  let x := w_pmpaddr0 0x3fffffffffffff x in
  let x := w_pmpcfg0 0xf x in
  let x := timerinit x in
  let id := s32 (r_mhartid x) in
  let x := w_tp (u64 id) x in
  mret x.

(** ** plic.c *)
Definition PLIC_SENABLE (hart : Z) : Z := PLIC + 0x2080 + hart * 0x100.
Definition PLIC_SPRIORITY (hart : Z) : Z := PLIC + 0x201000 + hart * 0x2000.
Definition PLIC_SCLAIM (hart : Z) : Z := PLIC + 0x201004 + hart * 0x2000.
Definition cpuid (x : hart) : Z := s32 (r_tp x).

Abbreviation mmio := (gmap Z Z).
Definition plicinit (d : mmio) : mmio :=
  let d := <[PLIC + UART0_IRQ * 4 := 1]> d in
  <[PLIC + VIRTIO0_IRQ * 4 := 1]> d.
Definition plicinithart (x : hart) (d : mmio) : mmio :=
  let hart := cpuid x in
  let d := <[PLIC_SENABLE hart := Z.lor (Z.shiftl 1 UART0_IRQ) (Z.shiftl 1 VIRTIO0_IRQ)]> d in
  <[PLIC_SPRIORITY hart := 0]> d.
(** [read]: what the device answers *)
Definition plic_claim (read : Z -> Z) (x : hart) : Z :=
  let hart := cpuid x in
  let irq := s32 (u32 (read (PLIC_SCLAIM hart))) in
  irq.
Definition plic_complete (irq : Z) (x : hart) (d : mmio) : mmio :=
  let hart := cpuid x in
  <[PLIC_SCLAIM hart := u32 irq]> d.

(** ** uart.c: uartinit *)
Definition RHR : Z := 0.
Definition IER : Z := 1.
Definition FCR : Z := 2.
Definition LCR : Z := 3.
Definition WriteReg (reg v : Z) : Z * Z := (UART0 + reg, v).
Definition uartinit : list (Z * Z) := [
  WriteReg IER 0x00;
  WriteReg LCR (Z.shiftl 1 7);
  WriteReg 0 0x03;
  WriteReg 1 0x00;
  WriteReg LCR (Z.shiftl 3 0);
  WriteReg FCR (Z.lor (Z.shiftl 1 0) (Z.shiftl 3 1));
  WriteReg IER (Z.lor (Z.shiftl 1 1) (Z.shiftl 1 0))].

(** ** main.c *)
Section main.
Context (kernel_end etext trampoline kernelvec forkret initcode : Z) (disk_reg : Z -> Z) (sb : superblock).
Context (bufops : BufOps bcache).

(** What main initialises: the processes, memory and files; the kernel page
    table; the disk driver; the registers of the interrupt controller; writes
    to the UART and the disk in order; whether devsw[CONSOLE] and pr.locking
    are set; what was printed *)
Record world := mkW {
  w_y : ksys (C := bcache); w_kpgtbl : Z; w_disk : option vdisk; w_plic : mmio; w_regs : list (Z * Z);
  w_devsw : bool; w_locking : bool; w_out : list Z;
}.
Definition put_y (w : world) (y : ksys) : world := mkW y (w_kpgtbl w) (w_disk w) (w_plic w) (w_regs w) (w_devsw w) (w_locking w) (w_out w).
Definition put_kmem (w : world) (km : kmem) : world := put_y w (mkKs (put_mem (y_p (w_y w)) km) (y_k (w_y w))).
Definition put_kpgtbl (w : world) (pt : Z) : world := mkW (w_y w) pt (w_disk w) (w_plic w) (w_regs w) (w_devsw w) (w_locking w) (w_out w).
Definition put_plic (w : world) (d : mmio) : world := mkW (w_y w) (w_kpgtbl w) (w_disk w) d (w_regs w) (w_devsw w) (w_locking w) (w_out w).

Definition call : Type := world -> hart -> res (world * hart).
Definition glob (f : world -> res world) : call := fun w x => let* w := f w in Ok (w, x).

Definition consoleinit (w : world) : res world :=
  Ok (mkW (w_y w) (w_kpgtbl w) (w_disk w) (w_plic w) (w_regs w ++ uartinit) true (w_locking w) (w_out w)).
Definition printfinit (w : world) : res world :=
  Ok (mkW (w_y w) (w_kpgtbl w) (w_disk w) (w_plic w) (w_regs w) (w_devsw w) true (w_out w)).
Definition say (fmt : list Z) (arg : hart -> Z) : call := fun w x =>
  match printf (fun _ => []) fmt (fun _ => arg x) with
  | Some out => Ok (mkW (w_y w) (w_kpgtbl w) (w_disk w) (w_plic w) (w_regs w) (w_devsw w) (w_locking w) (w_out w ++ out), x)
  | None => Panic "printf"
  end.

Definition kinit (w : world) : res world :=
  let* km := Kalloc.kinit kernel_end (ps_mem (y_p (w_y w))) in Ok (put_kmem w km).
Definition kvminit (w : world) : res world :=
  let* (pt, km) := kvmmake etext trampoline (ps_mem (y_p (w_y w))) in Ok (put_kpgtbl (put_kmem w km) pt).
Definition kvminithart : call := fun w x => Ok (w, sfence_vma (w_satp (MAKE_SATP (w_kpgtbl w)) (sfence_vma x))).
Definition procinit (w : world) : res world :=
  let y := w_y w in Ok (put_y w (mkKs (put_procs (y_p y) (Proc.procinit (ps_procs (y_p y)))) (y_k y))).
Definition trapinit (w : world) : res world := Ok w.
Definition trapinithart : call := fun w x => Ok (w, w_stvec kernelvec x).
Definition plic_init (w : world) : res world := Ok (put_plic w (plicinit (w_plic w))).
Definition plic_inithart : call := fun w x => Ok (put_plic w (plicinithart x (w_plic w)), x).
Definition on_fs (f : fs (log * bcache) -> fs (log * bcache)) (w : world) : world :=
  put_y w (mkKs (y_p (w_y w)) (set_fs (y_k (w_y w)) (f (k_fs (y_k (w_y w)))))).
Definition binit (w : world) : res world :=
  Ok (on_fs (fun s => set_t s (fst (fs_t s), Bio.binit (snd (fs_t s)))) w).
Definition iinit (w : world) : res world := Ok (on_fs Fs.iinit w).
Definition fileinit (w : world) : res world := Ok w.
Definition virtio_disk_init (w : world) : res world :=
  let* (ws, v, km) := Virtio.virtio_disk_init disk_reg (ps_mem (y_p (w_y w))) in
  let w := put_kmem w km in
  Ok (mkW (w_y w) (w_kpgtbl w) (Some v) (w_plic w) (w_regs w ++ ws) (w_devsw w) (w_locking w) (w_out w)).
Definition userinit (w : world) : res world :=
  let* y := ProcLife.userinit (BO := bufops) kernel_end trampoline forkret sb initcode (w_y w) in Ok (put_y w y).

(** "xv6 kernel is booting" and "hart %d starting" *)
Definition booting : list Z := [120; 118; 54; 32; 107; 101; 114; 110; 101; 108; 32; 105; 115; 32; 98; 111; 111; 116; 105; 110; 103; 10].
Definition starting : list Z := [104; 97; 114; 116; 32; 37; 100; 32; 115; 116; 97; 114; 116; 105; 110; 103; 10].

Definition main_first : list call := [
  glob consoleinit; glob printfinit; say [10] (fun _ => 0); say booting (fun _ => 0); say [10] (fun _ => 0);
  glob kinit; glob kvminit; kvminithart; glob procinit; glob trapinit; trapinithart; glob plic_init; plic_inithart;
  glob binit; glob iinit; glob fileinit; glob virtio_disk_init; glob userinit].
Definition main_other : list call := [say starting cpuid; kvminithart; trapinithart; plic_inithart].

Fixpoint calls (l : list call) (w : world) (x : hart) : res (world * hart) :=
  match l with
  | [] => Ok (w, x)
  | f :: l => let* (w, x) := f w x in calls l w x
  end.

(** Where a hart is in main *)
Inductive mpc := Enter | First (k : nat) | Spin | Other (k : nat) | Scheduler.
Record machine := mkMain { m_world : world; m_started : Z; m_harts : list (mpc * hart) }.
Definition put_hart (m : machine) (i : nat) (pc : mpc) (x : hart) : list (mpc * hart) := <[i := (pc, x)]> (m_harts m).

Inductive main_step : machine -> machine -> Prop :=
| ms_first m i x : m_harts m !! i = Some (Enter, x) -> cpuid x = 0 ->
    main_step m (mkMain (m_world m) (m_started m) (put_hart m i (First 0) x))
| ms_other m i x : m_harts m !! i = Some (Enter, x) -> cpuid x <> 0 ->
    main_step m (mkMain (m_world m) (m_started m) (put_hart m i Spin x))
| ms_call m i k x f w x' : m_harts m !! i = Some (First k, x) -> main_first !! k = Some f -> f (m_world m) x = Ok (w, x') ->
    main_step m (mkMain w (m_started m) (put_hart m i (First (S k)) x'))
| ms_publish m i k x : m_harts m !! i = Some (First k, x) -> k = length main_first ->
    main_step m (mkMain (m_world m) 1 (put_hart m i Scheduler x))
| ms_wait m i x : m_harts m !! i = Some (Spin, x) -> m_started m = 0 -> main_step m m
| ms_go m i x : m_harts m !! i = Some (Spin, x) -> m_started m <> 0 ->
    main_step m (mkMain (m_world m) (m_started m) (put_hart m i (Other 0) x))
| ms_other_call m i k x f w x' : m_harts m !! i = Some (Other k, x) -> main_other !! k = Some f -> f (m_world m) x = Ok (w, x') ->
    main_step m (mkMain w (m_started m) (put_hart m i (Other (S k)) x'))
| ms_done m i k x : m_harts m !! i = Some (Other k, x) -> k = length main_other ->
    main_step m (mkMain (m_world m) (m_started m) (put_hart m i Scheduler x)).
End main.
