(* ===== verification/BootProps.v ===== *)
(** * How the harts come up: theorems about entry.S, start.c and main.c *)

From S2P Require Import Prelude Riscv Mem Cstring Kalloc Vm Sleeplock Block Bio BioProps Log Fs File Sysfile Proc ProcLife Console Virtio Printf Asm Boot.

(** ** start *)
Lemma mpp_supervisor v : let s := Z.lor (Z.land v (Z.lnot MSTATUS_MPP_MASK)) MSTATUS_MPP_S in Z.testbit s 12 = false /\ Z.testbit s 11 = true.
Proof.
  cbv zeta. rewrite !Z.lor_spec, !Z.land_spec. change (Z.testbit (Z.lnot MSTATUS_MPP_MASK) 12) with false. change (Z.testbit (Z.lnot MSTATUS_MPP_MASK) 11) with false.
  change (Z.testbit MSTATUS_MPP_S 12) with false. change (Z.testbit MSTATUS_MPP_S 11) with true. by rewrite !andb_false_r.
Qed.

(** The state start leaves a hart in. *)
Record started_hart (h main : Z) (x x' : hart) : Prop := {
  sh_pc : x_pc x' = main;
  sh_tp : x_regs x' TP = h;
  sh_regs : forall r, r <> TP -> x_regs x' r = x_regs x r;
  sh_satp : x_csr x' C_satp = 0;
  sh_deleg : x_csr x' C_medeleg = 0xffff /\ x_csr x' C_mideleg = 0xffff;
  sh_sie : Z.testbit (x_csr x' C_sie) 9 = true /\ Z.testbit (x_csr x' C_sie) 5 = true /\ Z.testbit (x_csr x' C_sie) 1 = true;
  sh_timer : Z.testbit (x_csr x' C_mie) 5 = true /\ Z.testbit (x_csr x' C_menvcfg) 63 = true /\ Z.testbit (x_csr x' C_mcounteren) 1 = true /\
             x_csr x' C_stimecmp = u64 (x_csr x C_time + 1000000);
  sh_mem : x_mem x' = x_mem x;
}.

Lemma start_ready h main x : 0 <= h < NCPU -> x_csr x C_mhartid = h ->
  exists x', start main x = (Some Supervisor, x') /\ started_hart h main x x'.
Proof.
  intros Hh Eh. destruct (mpp_supervisor (x_csr x C_mstatus)) as [H12 H11]. cbv zeta in H12, H11.
  unfold start, mret. set (y := w_tp _ _).
  assert (Em : r_mstatus y = Z.lor (Z.land (x_csr x C_mstatus) (Z.lnot MSTATUS_MPP_MASK)) MSTATUS_MPP_S) by reflexivity.
  rewrite Em, H12, H11. eexists. split; [reflexivity|].
  split; cbn [x_pc x_csr x_regs x_mem]; try reflexivity.
  - transitivity (u64 (s32 (x_csr x C_mhartid))); [reflexivity|]. rewrite Eh. change NCPU with 8 in Hh. rewrite s32_small, u64_small; lia.
  - intros r Hr. destruct r; done.
  - by split.
  - change (x_csr (w_mstatus _ y) C_sie) with (Z.lor (Z.lor (Z.lor (x_csr x C_sie) SIE_SEIE) SIE_STIE) SIE_SSIE). rewrite !Z.lor_spec.
    change (Z.testbit SIE_SEIE 9) with true. change (Z.testbit SIE_STIE 5) with true. change (Z.testbit SIE_SSIE 1) with true.
    by rewrite !orb_true_r.
  - change (x_csr (w_mstatus _ y) C_mie) with (Z.lor (x_csr x C_mie) MIE_STIE).
    change (x_csr (w_mstatus _ y) C_menvcfg) with (Z.lor (x_csr x C_menvcfg) (Z.shiftl 1 63)).
    change (x_csr (w_mstatus _ y) C_mcounteren) with (Z.lor (x_csr x C_mcounteren) 2).
    rewrite !Z.lor_spec. change (Z.testbit MIE_STIE 5) with true. change (Z.testbit (Z.shiftl 1 63) 63) with true. change (Z.testbit 2 1) with true.
    by rewrite !orb_true_r.
Qed.

(** ** entry.S *)
Lemma entry_stack translate stack0 start_at back x h :
  0 <= h < NCPU -> x_csr x C_mhartid = h -> 0 <= stack0 -> stack0 + 4096 * NCPU < 2 ^ 64 ->
  exists rest x', exec translate (Asm.entry stack0 start_at back) x = Some (Called start_at, rest, x') /\
    x_regs x' SP = stack0 + 4096 * (h + 1) /\ x_csr x' = x_csr x /\ x_mem x' = x_mem x.
Proof.
  intros Hh Eh H0 H1. change NCPU with 8 in *. unfold Asm.entry. eexists _, _. split; [reflexivity|].
  split_and!; [|done|done]. transitivity (u64 (u64 stack0 + u64 (u64 (1024 * 4) * u64 (x_csr x C_mhartid + 1)))); [reflexivity|]. rewrite Eh.
  rewrite (u64_small stack0), (u64_small (h + 1)), (u64_small (1024 * 4)), (u64_small (1024 * 4 * (h + 1))), u64_small; lia.
Qed.


Definition reset_hart (h : Z) : hart := mkHart 0 (fun _ => 0) (fun c => match c with C_mhartid => h | C_time => 77 | _ => 0 end) ∅.

(** ** main: nobody runs ahead of hart 0 *)
Section order.
Context (kernel_end etext trampoline kernelvec forkret initcode : Z) (disk_reg : Z -> Z) (sb : superblock) (bufops : BufOps bcache).
Abbreviation main_first := (main_first kernel_end etext trampoline kernelvec forkret initcode disk_reg sb bufops).
Abbreviation main_other := (main_other kernelvec).
Abbreviation main_step := (main_step kernel_end etext trampoline kernelvec forkret initcode disk_reg sb bufops).

Definition same_kernel (w w' : world) : Prop := w_y w' = w_y w /\ w_kpgtbl w' = w_kpgtbl w /\ w_disk w' = w_disk w.

(** The interrupt controller delivers the UART's and the disk's interrupts to
    hart [h]: both are enabled and their priority is above the threshold. *)
Definition plic_ready (h : Z) (d : mmio) : Prop :=
  d !! PLIC_SENABLE h = Some (Z.lor (Z.shiftl 1 UART0_IRQ) (Z.shiftl 1 VIRTIO0_IRQ)) /\ d !! PLIC_SPRIORITY h = Some 0.

(** The hart can take part in scheduling: kernel page table, kernel trap
    vector, device interrupts. *)
Definition hart_ready (h : Z) (w : world) (x : hart) : Prop :=
  x_csr x C_satp = MAKE_SATP (w_kpgtbl w) /\ x_csr x C_stvec = kernelvec /\ plic_ready h (w_plic w).

Lemma plicinithart_ready h x d : cpuid x = h -> plic_ready h (plicinithart x d).
Proof.
  intros <-. unfold plicinithart, plic_ready. rewrite lookup_insert_eq. split; [|done].
  rewrite lookup_insert_ne by (unfold PLIC_SENABLE, PLIC_SPRIORITY; lia). apply lookup_insert_eq.
Qed.
Lemma plicinithart_other h x d : 0 <= h < NCPU -> 0 <= cpuid x < NCPU -> h <> cpuid x -> plic_ready h d -> plic_ready h (plicinithart x d).
Proof.
  intros H1 H2 Hne [H3 H4]. change NCPU with 8 in *. unfold plicinithart, plic_ready.
  rewrite !lookup_insert_ne by (unfold PLIC_SENABLE, PLIC_SPRIORITY; lia). done.
Qed.

Lemma calls_app l1 l2 w x : calls (l1 ++ l2) w x = let* (w, x) := calls l1 w x in calls l2 w x.
Proof. revert w x. induction l1 as [|f l1 IH]; intros w x; [done|]. cbn [calls app]. destruct (f w x) as [[w' x']| |]; cbn [rbind]; [apply IH|done|done]. Qed.

(** No call of main touches tp. *)
Definition keeps_regs (f : call) : Prop := forall w x w' x', f w x = Ok (w', x') -> x_regs x' = x_regs x.
Lemma glob_keeps f : keeps_regs (glob f).
Proof. intros w x w' x' H. unfold glob in H. apply rbind_Ok in H as (w1 & _ & H). by injection H as <- <-. Qed.
Lemma first_keeps : Forall keeps_regs main_first.
Proof.
  repeat (constructor; [first [apply glob_keeps|intros w x w' x' H; unfold say in H; (try destruct (printf _ _ _); [|discriminate]); by injection H as <- <-
    |intros w x w' x' H; injection H as <- <-; done]|]); constructor.
Qed.

Lemma other_step k f w x w' x' : main_other !! k = Some f -> f w x = Ok (w', x') ->
  same_kernel w w' /\ x_regs x' = x_regs x /\
  match k with
  | 0%nat => x' = x /\ w_plic w' = w_plic w
  | 1%nat => x_csr x' C_satp = MAKE_SATP (w_kpgtbl w) /\ w' = w
  | 2%nat => x_csr x' C_satp = x_csr x C_satp /\ x_csr x' C_stvec = kernelvec /\ w' = w
  | _ => x' = x /\ w_plic w' = plicinithart x (w_plic w)
  end.
Proof.
  intros Hk H. destruct k as [|[|[|[|k]]]]; [injection Hk as <-..|done].
  - unfold say in H. destruct (printf _ _ _); [|discriminate]. by injection H as <- <-.
  - by injection H as <- <-.
  - by injection H as <- <-.
  - by injection H as <- <-.
Qed.

(** What the calls leave, for hart 0. *)
Lemma first_ready w0 x0 w x : calls main_first w0 x0 = Ok (w, x) -> hart_ready (cpuid x0) w x.
Proof.
  unfold main_first. cbn [calls]. intros H. repeat (apply rbind_Ok in H as ([? ?] & ? & H)). injection H as <- <-.
  unfold glob, userinit, virtio_disk_init, fileinit, iinit, binit, plic_inithart, plic_init, trapinithart, trapinit, procinit, kvminithart in *.
  repeat match goal with
    | E : (let* _ := _ in _) = Ok _ |- _ => apply rbind_Ok in E as (? & ? & E)
    | E : Ok _ = Ok _ |- _ => injection E; clear E; intros; subst
    | E : say _ _ _ _ = Ok _ |- _ => unfold say in E; destruct (printf _ _ _); [|discriminate E]
    | p : _ * _ |- _ => destruct p
    end.
  split; [reflexivity|]. split; [reflexivity|]. cbn [w_plic put_y put_plic put_kmem on_fs]. by apply plicinithart_ready.
Qed.

(** The invariant, for harts that start main with [xs] and a kernel [w0]. *)
Context (w0 : world) (xs : list hart).
Context (Hxs : forall i x, xs !! i = Some x -> cpuid x = Z.of_nat i) (Hn : Z.of_nat (length xs) <= NCPU).

Definition other_ok (i : nat) (w : world) (st : Z) (pc : mpc) (x : hart) : Prop :=
  match pc with
  | Enter | Spin => True
  | First _ => False
  | Other k => st = 1 /\ (2 <= k -> x_csr x C_satp = MAKE_SATP (w_kpgtbl w))%nat /\ (3 <= k -> x_csr x C_stvec = kernelvec)%nat /\
               (4 <= k -> plic_ready (Z.of_nat i) (w_plic w))%nat
  | Scheduler => st = 1 /\ hart_ready (Z.of_nat i) w x
  end.
Definition zero_ok (w : world) (st : Z) (pc : mpc) (x : hart) : Prop :=
  exists x0, xs !! 0%nat = Some x0 /\
  match pc with
  | Enter => w = w0 /\ x = x0 /\ st = 0
  | First k => calls (take k main_first) w0 x0 = Ok (w, x) /\ st = 0
  | Scheduler => st = 1 /\ plic_ready 0 (w_plic w) /\ exists w1, calls main_first w0 x0 = Ok (w1, x) /\ same_kernel w1 w
  | _ => False
  end.
Record main_inv (m : machine) : Prop := {
  mi_len : length (m_harts m) = length xs;
  mi_id : forall i pc x, m_harts m !! i = Some (pc, x) -> cpuid x = Z.of_nat i;
  mi_zero : forall pc x, m_harts m !! 0%nat = Some (pc, x) -> zero_ok (m_world m) (m_started m) pc x;
  mi_other : forall i pc x, i <> 0%nat -> m_harts m !! i = Some (pc, x) -> other_ok i (m_world m) (m_started m) pc x;
}.

Lemma main_inv_init : main_inv (mkMain w0 0 (pair Enter <$> xs)).
Proof.
  split; cbn [m_harts m_world m_started].
  - by rewrite length_fmap.
  - intros i pc x H. rewrite list_lookup_fmap in H. destruct (xs !! i) as [x'|] eqn:E; [|done]. injection H as <- <-. by apply Hxs.
  - intros pc x H. rewrite list_lookup_fmap in H. destruct (xs !! 0%nat) as [x'|] eqn:E; [|done]. injection H as <- <-. by exists x'.
  - intros i pc x _ H. rewrite list_lookup_fmap in H. destruct (xs !! i) as [x'|]; [|done]. by injection H as <- <-.
Qed.

(** A step of hart [i]: the rest of the machine must not notice. *)
Lemma main_inv_put m i pc x w st pc' x' :
  main_inv m -> m_harts m !! i = Some (pc, x) -> cpuid x' = cpuid x ->
  (i = 0%nat -> zero_ok w st pc' x') -> (i <> 0%nat -> other_ok i w st pc' x') ->
  (forall q y, i <> 0%nat -> zero_ok (m_world m) (m_started m) q y -> zero_ok w st q y) ->
  (forall j q y, j <> i -> j <> 0%nat -> (j < length xs)%nat -> other_ok j (m_world m) (m_started m) q y -> other_ok j w st q y) ->
  main_inv (mkMain w st (put_hart m i pc' x')).
Proof.
  intros [H1 H2 H3 H4] Hi Hc Hz Ho Kz Ko. unfold put_hart. split; cbn [m_harts m_world m_started].
  - by rewrite length_insert.
  - intros j q y Hj. destruct (decide (j = i)) as [->|Hne]; [|rewrite list_lookup_insert_ne in Hj by done; eauto].
    rewrite list_lookup_insert_eq in Hj by (by eapply lookup_lt_Some). injection Hj as <- <-. rewrite Hc. eauto.
  - intros q y Hj. destruct (decide (i = 0%nat)) as [->|Hne].
    + rewrite list_lookup_insert_eq in Hj by (by eapply lookup_lt_Some). injection Hj as <- <-. auto.
    + rewrite list_lookup_insert_ne in Hj by done. auto.
  - intros j q y Hj0 Hj. destruct (decide (j = i)) as [->|Hne].
    + rewrite list_lookup_insert_eq in Hj by (by eapply lookup_lt_Some). injection Hj as <- <-. auto.
    + rewrite list_lookup_insert_ne in Hj by done. apply Ko; auto. rewrite <- H1. by eapply lookup_lt_Some.
Qed.

Lemma zero_hart m i e : main_inv m -> m_harts m !! i = Some e -> exists pc x, m_harts m !! 0%nat = Some (pc, x) /\ zero_ok (m_world m) (m_started m) pc x.
Proof.
  intros Hi He. apply lookup_lt_Some in He. destruct (lookup_lt_is_Some_2 (m_harts m) 0) as [[pc x] Hx]; [lia|].
  exists pc, x. split; [done|]. by apply (mi_zero _ Hi).
Qed.

Lemma other_frame j w w' st q y : (j < length xs)%nat -> same_kernel w w' -> (plic_ready (Z.of_nat j) (w_plic w) -> plic_ready (Z.of_nat j) (w_plic w')) ->
  other_ok j w st q y -> other_ok j w' st q y.
Proof. intros Hj (_ & E & _) Hp. unfold other_ok, hart_ready. destruct q; rewrite ?E; naive_solver. Qed.

Lemma main_first_step m i k x f w x' : main_inv m -> m_harts m !! i = Some (First k, x) -> main_first !! k = Some f -> f (m_world m) x = Ok (w, x') ->
  main_inv (mkMain w (m_started m) (put_hart m i (First (S k)) x')).
Proof.
  intros Hi Hx Hf E. destruct (decide (i = 0%nat)) as [->|Hne]; [|by destruct (mi_other _ Hi _ _ _ Hne Hx)].
  destruct (mi_zero _ Hi _ _ Hx) as (x0 & H0 & Hc & Hs). eapply main_inv_put; [exact Hi|exact Hx| |intros _|done|done|].
  - unfold cpuid, r_tp. pose proof first_keeps as Hk. rewrite Forall_forall in Hk. by rewrite (Hk f (list_elem_of_lookup_2 _ _ _ Hf) _ _ _ _ E).
  - assert (Hc' : calls (take (S k) main_first) w0 x0 = Ok (w, x')) by (erewrite take_S_r by exact Hf; rewrite calls_app, Hc; cbn [rbind calls]; by rewrite E).
    exists x0. split; [exact H0|]. exact (conj Hc' Hs).
  - intros j q y _ _ _. rewrite Hs. unfold other_ok. destruct q; naive_solver.
Qed.

Lemma main_other_step m i k x f w x' : main_inv m -> m_harts m !! i = Some (Other k, x) -> main_other !! k = Some f -> f (m_world m) x = Ok (w, x') ->
  main_inv (mkMain w (m_started m) (put_hart m i (Other (S k)) x')).
Proof.
  intros Hi Hx Hf E. destruct (decide (i = 0%nat)) as [->|Hne]; [by destruct (mi_zero _ Hi _ _ Hx) as (x0 & _ & [])|].
  destruct (mi_other _ Hi _ _ _ Hne Hx) as (Hs & H2 & H3 & H4). destruct (other_step _ _ _ _ _ _ Hf E) as (Hk & Hr & Hst).
  assert (Hid : cpuid x = Z.of_nat i) by (by eapply mi_id). pose proof (lookup_lt_Some _ _ _ Hx) as Hlt. rewrite (mi_len _ Hi) in Hlt.
  assert (Hp : forall h, 0 <= h < NCPU -> h <> Z.of_nat i -> plic_ready h (w_plic (m_world m)) -> plic_ready h (w_plic w)).
  { intros h Hh Hhi Hp. destruct k as [|[|[|k]]]; [by destruct Hst as [_ ->]|by destruct Hst as [_ ->]|by destruct Hst as (_ & _ & ->)|].
    destruct Hst as [_ ->]. apply plicinithart_other; rewrite ?Hid; auto. lia. }
  eapply main_inv_put; [exact Hi|exact Hx| |done|intros _| |].
  - unfold cpuid, r_tp. by rewrite Hr.
  - unfold other_ok. destruct Hk as (_ & Ek & _). rewrite Ek. split; [done|]. destruct k as [|[|[|k]]].
    + split_and!; intros; lia.
    + destruct Hst as [Hst _]. split_and!; intros; [done|lia|lia].
    + destruct Hst as (Es & Ev & _). rewrite Es. split_and!; intros; [apply H2; lia|done|lia].
    + destruct Hst as [-> ->]. split_and!; intros; [apply H2; lia|apply H3; lia|by apply plicinithart_ready].
  - intros q y _ (x0 & H0 & Hz). exists x0. split; [done|]. destruct q; try (destruct Hz as (_ & _ & Hz); congruence); try (destruct Hz as (_ & Hz); congruence); try done.
    destruct Hz as (_ & Hz & w1 & Hw1 & Hk1). split; [done|]. split; [apply Hp; [change NCPU with 8; lia|lia|done]|]. exists w1. split; [done|].
    destruct Hk1 as (K1 & K2 & K3), Hk as (L1 & L2 & L3). split_and!; congruence.
  - intros j q y Hj Hj0 Hlj Ho. eapply other_frame; [done|exact Hk| |exact Ho]. apply Hp; lia.
Qed.

Lemma main_step_inv m m' : main_inv m -> main_step m m' -> main_inv m'.
Proof.
  intros Hi Hstep. destruct Hstep as [m i x Hx Hc|m i x Hx Hc|m i k x f w x' Hx Hf E|m i k x Hx ->|m i x Hx Hs|m i x Hx Hs|m i k x f w x' Hx Hf E|m i k x Hx ->].
  - assert (i = 0%nat) as -> by (pose proof (mi_id _ Hi _ _ _ Hx); lia). destruct (mi_zero _ Hi _ _ Hx) as (x0 & H0 & Hw & -> & Hs).
    eapply main_inv_put; [exact Hi|exact Hx|done|intros _|done|done|done]. exists x0. split; [done|]. split; [by rewrite Hw|done].
  - assert (i <> 0%nat) by (intros ->; by rewrite (mi_id _ Hi _ _ _ Hx) in Hc). by eapply main_inv_put.
  - by eapply main_first_step.
  - destruct (decide (i = 0%nat)) as [->|Hne]; [|by destruct (mi_other _ Hi _ _ _ Hne Hx)].
    destruct (mi_zero _ Hi _ _ Hx) as (x0 & H0 & Hc & Hs). rewrite take_ge in Hc by done.
    eapply main_inv_put; [exact Hi|exact Hx|done|intros _|done|done|].
    + exists x0. split; [done|]. split; [done|]. destruct (first_ready _ _ _ _ Hc) as (_ & _ & Hp). rewrite (Hxs _ _ H0) in Hp.
      split; [done|]. exists (m_world m). by split_and!.
    + intros j q y _ _ _. rewrite Hs. unfold other_ok. destruct q; naive_solver.
  - done.
  - destruct (decide (i = 0%nat)) as [->|Hne]; [by destruct (mi_zero _ Hi _ _ Hx) as (x0 & _ & [])|].
    eapply main_inv_put; [exact Hi|exact Hx|done|done|intros _|done|done]. split; [|split_and!; intros; lia].
    destruct (zero_hart _ _ _ Hi Hx) as (pc & y & _ & x0 & _ & Hz). destruct pc; naive_solver.
  - by eapply main_other_step.
  - destruct (decide (i = 0%nat)) as [->|Hne]; [by destruct (mi_zero _ Hi _ _ Hx) as (x0 & _ & [])|].
    destruct (mi_other _ Hi _ _ _ Hne Hx) as (Hs & H2 & H3 & H4). cbn [Boot.main_other length] in *.
    eapply main_inv_put; [exact Hi|exact Hx|done|done|intros _|done|done]. split; [done|]. split_and!; [apply H2|apply H3|apply H4]; lia.
Qed.

Lemma main_reach_inv m : rtc main_step (mkMain w0 0 (pair Enter <$> xs)) m -> main_inv m.
Proof.
  intros H. remember (mkMain w0 0 (pair Enter <$> xs)) as m0 eqn:E. assert (Hi : main_inv m0) by (rewrite E; apply main_inv_init). clear E.
  induction H; [done|]. apply IHrtc. by eapply main_step_inv.
Qed.
End order.

