(* ===== verification/Bootstrap.v ===== *)
(** * What main leaves behind

    The calls of main on hart 0, run one after the other on the zeroed data of
    the kernel, all succeed, and establish the invariants that the theorems
    about the parts of the kernel start from. *)

From S2P Require Import Prelude Riscv Mem Cstring Kalloc Vm VmFacts VmProps Kvm Sleeplock Block Bio BioFacts BioProps Log Txn Fs FsProps File Sysfile Proc ProcLife ProcTree Userinit Console Virtio Printf Asm Boot BootProps.

(** ** kinit *)
Lemma freerange_low kend n p e s s' : kend <= p -> freerange_loop kend n p e s = Ok s' -> forall x, x < kend -> rd (kmem_mem s') x = rd (kmem_mem s) x.
Proof.
  revert p s. induction n as [|n IH]; intros p s Hp H x Hx; cbn [freerange_loop] in H; destruct (_ <=? _); try discriminate; try (by injection H as <-).
  apply rbind_Ok in H as (s1 & E & H). apply (IH (p + PGSIZE)) with (x := x) in H; [|unfold PGSIZE; lia|done]. rewrite H.
  apply (kfree_frame kend p s s1 E). unfold in_page. lia.
Qed.

(** The last [n] pages of memory *)
Definition top_pages (n : nat) : list Z := (fun i => PHYSTOP - (i + 1) * PGSIZE) <$> seqZ 0 (Z.of_nat n).

Lemma kinit_pages kend m n : 0 < kend -> kend + Z.of_nat n * PGSIZE <= PHYSTOP -> mem_bytes m ->
  exists s l, Kalloc.kinit kend (mkKmem m 0) = Ok s /\ kmem_inv kend s l /\ (n <= length l)%nat /\ (forall x, x < kend -> rd (kmem_mem s) x = rd m x).
Proof.
  intros Hk Hn Hm. change PGSIZE with 4096 in Hn. destruct (kinit_frees_all kend m ltac:(lia) Hm) as (s & l & E & Hi & Hl). exists s, l. split; [done|]. split; [done|]. split.
  - assert (Hsub : top_pages n ⊆+ l).
    { apply NoDup_submseteq.
      - unfold top_pages. apply NoDup_fmap_2_strong; [|apply NoDup_seqZ]. intros x y _ _ E'. unfold PGSIZE in E'. lia.
      - intros q Hq. unfold top_pages in Hq. apply list_elem_of_fmap in Hq as (i & -> & Hi'). apply elem_of_seqZ in Hi'. apply Hl.
        change PHYSTOP with 2281701376 in *. change PGSIZE with 4096. zsolve. }
    apply submseteq_length in Hsub. unfold top_pages in Hsub. rewrite length_fmap, length_seqZ in Hsub. lia.
  - intros x Hx. unfold Kalloc.kinit, freerange in E. eapply freerange_low in E; [exact E| |done]. change PHYSTOP with 2281701376 in Hn. destruct (PGROUNDUP_spec kend ltac:(lia)) as [_ ?]; lia.
Qed.

(** ** virtio_disk_init *)
Record disk_answers (reg : Z -> Z) : Prop := {
  da_id : reg VIRTIO_MMIO_MAGIC_VALUE = 0x74726976 /\ reg VIRTIO_MMIO_VERSION = 2 /\ reg VIRTIO_MMIO_DEVICE_ID = 2 /\ reg VIRTIO_MMIO_VENDOR_ID = 0x554d4551;
  da_features : Z.land (reg VIRTIO_MMIO_STATUS) VIRTIO_CONFIG_S_FEATURES_OK <> 0;
  da_queue : reg VIRTIO_MMIO_QUEUE_READY = 0 /\ Z.of_nat NUM <= reg VIRTIO_MMIO_QUEUE_NUM_MAX;
}.

Lemma memset_page_same q m c : same_except q m (memset m q c PGSIZE).
Proof. intros a Ha. unfold in_page in Ha. rewrite rd_memset. repeat bcase; cbn [andb]; try lia; reflexivity. Qed.

Lemma virtio_init_inv kend reg nodes m0 l0 root rs st T s l N : 0 < kend -> disk_answers reg ->
  kvm_inv kend nodes m0 l0 root rs st T s l N -> (length nodes + 3 < T)%nat ->
  exists ws s' l' a b c, Virtio.virtio_disk_init reg s = Ok (ws, vdisk0, s') /\ kvm_inv kend nodes m0 l0 root rs (st ++ [a; b; c]) (T - 3) s' l' N.
Proof.
  intros Hk [(D1 & D2 & D3 & D4) D5 [D6 D7]] Hi HT. unfold Virtio.virtio_disk_init. rewrite D1, D2, D3, D4, D6. cbn [Z.eqb andb negb].
  change ((1953655158 =? 1953655158) && (2 =? 2) && (2 =? 2) && (1431127377 =? 1431127377)) with true. cbn [negb].
  rewrite (proj2 (Z.eqb_neq _ _) D5). change (Z.of_nat NUM) with 8 in *.
  rewrite (proj2 (Z.eqb_neq (reg VIRTIO_MMIO_QUEUE_NUM_MAX) 0)), (proj2 (Z.ltb_ge (reg VIRTIO_MMIO_QUEUE_NUM_MAX) 8)) by lia.
  destruct (kvm_kalloc kend Hk nodes _ _ _ _ _ _ _ _ _ Hi ltac:(lia)) as (a & s1 & l1 & E1 & El1 & _ & Ha & _ & _ & H1).
  destruct (kvm_kalloc kend Hk nodes _ _ _ _ _ _ _ _ _ H1 ltac:(lia)) as (b & s2 & l2 & E2 & El2 & _ & Hb & _ & _ & H2).
  destruct (kvm_kalloc kend Hk nodes _ _ _ _ _ _ _ _ _ H2 ltac:(lia)) as (c & s3 & l3 & E3 & El3 & _ & Hc & _ & _ & H3).
  rewrite E1, E2, E3. rewrite (proj2 (Z.eqb_neq a 0) Ha), (proj2 (Z.eqb_neq b 0) Hb), (proj2 (Z.eqb_neq c 0) Hc). cbn [orb].
  rewrite <- !app_assoc in H3. cbn [app] in H3. replace (T - 1 - 1 - 1)%nat with (T - 3)%nat in H3 by lia.
  destruct (kv_free _ _ _ _ _ _ _ _ _ _ _ Hi) as [c0 Hc0].
  assert (Hin : forall q, q ∈ [a; b; c] -> q ∈ st ++ [a; b; c] /\ q ∈ l0) by (intros q Hq; rewrite Hc0, El1, El2, El3; set_solver).
  assert (Hbytes : forall s, kvm_inv kend nodes m0 l0 root rs (st ++ [a; b; c]) (T - 3) s l3 N -> mem_bytes (kmem_mem s)).
  { intros s' H'. apply (ki_bytes kend s' l3), (pw_kmem _ _ _ _ _ (kv_wf _ _ _ _ _ _ _ _ _ _ _ H')). }
  assert (Hset : forall s q, q ∈ [a; b; c] -> kvm_inv kend nodes m0 l0 root rs (st ++ [a; b; c]) (T - 3) s l3 N ->
            kvm_inv kend nodes m0 l0 root rs (st ++ [a; b; c]) (T - 3) (set_mem s (memset (kmem_mem s) q 0 PGSIZE)) l3 N).
  { intros s' q Hq H'. destruct (Hin q Hq) as [Hq1 Hq2]. apply (kvm_write kend nodes m0 l0 root rs _ _ s' l3 N q); auto; [apply memset_page_same|by apply memset_mem_bytes, Hbytes]. }
  eexists _, _, l3, a, b, c. split; [reflexivity|].
  assert (Ha' : a ∈ [a; b; c]) by left. assert (Hb' : b ∈ [a; b; c]) by (right; left). assert (Hc' : c ∈ [a; b; c]) by (right; right; left).
  exact (Hset _ c Hc' (Hset _ b Hb' (Hset _ a Ha' H3))).
Qed.

(** ** The first process's table *)
Record init_map (q tf trampoline : Z) (E : Z -> Z) : Prop := {
  im_page : forall o, 0 <= o < PGSIZE -> uaddr E o = q + o /\ PTE_FLAGS (E o) = Z.lor (Z.lor (Z.lor (Z.lor PTE_W PTE_R) PTE_X) PTE_U) PTE_V;
  im_trapframe : forall o, 0 <= o < PGSIZE -> uaddr E (TRAPFRAME + o) = tf + o /\ PTE_FLAGS (E (TRAPFRAME + o)) = Z.lor (Z.lor PTE_R PTE_W) PTE_V;
  im_trampoline : forall o, 0 <= o < PGSIZE ->
    uaddr E (TRAMPOLINE + o) = trampoline + o /\ PTE_FLAGS (E (TRAMPOLINE + o)) = Z.lor (Z.lor PTE_R PTE_X) PTE_V;
  im_nothing : forall v, PGSIZE <= v < TRAPFRAME -> E v = 0;
}.

Lemma init_map_regions q tf trampoline E :
  0 <= q < 2 ^ 55 -> q mod PGSIZE = 0 -> 0 <= tf < 2 ^ 55 -> tf mod PGSIZE = 0 -> 0 <= trampoline < 2 ^ 55 -> trampoline mod PGSIZE = 0 ->
  (forall v, 0 <= v < MAXVA -> E v = table [init_r q; trapframe_r tf; utramp_r trampoline] v) -> init_map q tf trampoline E.
Proof.
  intros Q1 Q2 T1 T2 P1 P2 Ht. set (rs := [init_r q; trapframe_r tf; utramp_r trampoline]) in *.
  assert (Hok : forall r, r ∈ rs -> region_ok r).
  { intros r Hr. unfold rs in Hr. repeat (apply elem_of_cons in Hr as [->|Hr]); [..|by apply not_elem_of_nil in Hr];
      (apply low_region_ok; [by vm_compute..|done|done|by vm_compute]). }
  assert (Hap : forall r r' v, r ∈ rs -> r' ∈ rs -> in_region r v -> in_region r' v -> r' = r).
  { intros r r' v H H' Hv Hv'. unfold rs, in_region in *. repeat (apply elem_of_cons in H as [->|H]); [..|by apply not_elem_of_nil in H];
      (repeat (apply elem_of_cons in H' as [->|H']); [..|by apply not_elem_of_nil in H']; first [done|exfalso];
       cbn [init_r trapframe_r utramp_r r_va r_size] in Hv, Hv'; uconst; lia). }
  assert (Hin : forall k r v, rs !! k = Some r -> in_region r v -> 0 <= v < MAXVA -> uaddr E v = r_pa r + (v - r_va r) /\ PTE_FLAGS (E v) = Z.lor (r_perm r) PTE_V).
  { intros k r v Hk Hv Hm. apply list_elem_of_lookup_2 in Hk. unfold uaddr. rewrite Ht by done.
    rewrite (table_in rs r v Hk Hv) by (intros r' Hr' Hv'; by apply (Hap r r' v)). by destruct (region_pte_facts r v (Hok r Hk) Hv) as (A & B & _). }
  split; intros o Ho.
  - destruct (Hin 0%nat (init_r q) o) as [-> ->]; [done|unfold in_region; cbn [init_r r_va r_size]; uconst; lia|uconst; lia|]. cbn [init_r r_pa r_va]. split; [lia|done].
  - destruct (Hin 1%nat (trapframe_r tf) (TRAPFRAME + o)) as [-> ->]; [done|unfold in_region; cbn [trapframe_r r_va r_size]; uconst; lia|uconst; lia|].
    cbn [trapframe_r r_pa r_va]. split; [lia|done].
  - destruct (Hin 2%nat (utramp_r trampoline) (TRAMPOLINE + o)) as [-> ->]; [done|unfold in_region; cbn [utramp_r r_va r_size]; uconst; lia|uconst; lia|].
    cbn [utramp_r r_pa r_va]. split; [lia|done].
  - rewrite Ht by (uconst; lia). apply table_out. intros r Hr. unfold rs, in_region in *. repeat (apply elem_of_cons in Hr as [->|Hr]); [..|by apply not_elem_of_nil in Hr];
      cbn [init_r trapframe_r utramp_r r_va r_size]; uconst; lia.
Qed.

(** ** All of main on hart 0 *)
Section boot.
Context (kend etext trampoline kernelvec forkret initcode : Z) (disk_reg : Z -> Z) (sb : superblock) (bufops : BufOps bcache).
Abbreviation main_first := (main_first kend etext trampoline kernelvec forkret initcode disk_reg sb bufops).

(** The layout of the kernel image and of memory, and what the disk says *)
Record machine_ok : Prop := {
  mo_kend : 0 < kend /\ kend + 200 * PGSIZE <= PHYSTOP;
  mo_etext : KERNBASE < etext < PHYSTOP /\ etext mod PGSIZE = 0;
  mo_trampoline : KERNBASE <= trampoline < etext /\ trampoline mod PGSIZE = 0;
  mo_initcode : initcode + 52 <= kend;
  mo_disk : disk_answers disk_reg;
}.

(** The data of the kernel before main: zeroed, but for nextpid *)
Record bss (w : world) : Prop := {
  bs_procs : ps_procs (y_p (w_y w)) = replicate 64 proc0;
  bs_pid : ps_nextpid (y_p (w_y w)) = 1;
  bs_mem : kmem_freelist (ps_mem (y_p (w_y w))) = 0 /\ mem_bytes (kmem_mem (ps_mem (y_p (w_y w))));
  bs_bufs : bc_buf (snd (fs_t (k_fs (y_k (w_y w))))) = replicate 31 buf0;
  bs_inodes : fs_itable (k_fs (y_k (w_y w))) = replicate 50 inode0;
}.

(** What main leaves: both page tables, the free list behind them, the
    first process with its program in memory, an idle disk driver and an
    empty buffer cache *)
Definition booted (w0 w : world) : Prop :=
  let km := ps_mem (y_p (w_y w)) in let m0 := kmem_mem (ps_mem (y_p (w_y w0))) in
  exists l KN st tf root q N,
    pt_wf kend km l (w_kpgtbl w) KN /\ kernel_map etext trampoline st (VmFacts.entry (kmem_mem km) KN) /\ length st = 64%nat /\ NoDup st /\
    pt_wf kend km l root N /\ init_map q tf trampoline (VmFacts.entry (kmem_mem km) N) /\
    (forall p p' a, KN !! p = Some a -> N !! p' <> Some a) /\
    (forall i, 0 <= i < PGSIZE -> rd (kmem_mem km) (q + i) = if i <? 52 then rd m0 (initcode + i) else 0) /\
    ps_procs (y_p (w_y w)) = init_procs forkret tf root /\ psys_ok (y_p (w_y w)) /\ ps_init (y_p (w_y w)) = Some 0%nat /\
    get_tf (y_p (w_y w)) tf = <[TF_sp := PGSIZE]> (<[TF_epc := 0]> junk_tf) /\
    w_disk w = Some vdisk0 /\ snd (fs_t (k_fs (y_k (w_y w)))) = Bio.binit (snd (fs_t (k_fs (y_k (w_y w0))))) /\
    w_devsw w = true /\ w_locking w = true.

(** The calls, when the memory is there *)
Lemma main_first_steps procs ini nt ticks tfs (km km1 km2 km3 : kmem) k kp d pl rg dv lk out x ws v pt y :
  Kalloc.kinit kend km = Ok km1 -> kvmmake etext trampoline km1 = Ok (pt, km2) -> Virtio.virtio_disk_init disk_reg km2 = Ok (ws, v, km3) ->
  ProcLife.userinit (BO := bufops) kend trampoline forkret sb initcode
    (mkKs (mkPs (Proc.procinit procs) ini 1 nt ticks tfs km3)
          (set_fs k (Fs.iinit (set_t (k_fs k) (fst (fs_t (k_fs k)), Bio.binit (snd (fs_t (k_fs k)))))))) = Ok y ->
  exists w x', calls main_first (mkW (mkKs (mkPs procs ini 1 nt ticks tfs km) k) kp d pl rg dv lk out) x = Ok (w, x') /\
    w_y w = y /\ w_kpgtbl w = pt /\ w_disk w = Some v /\ w_devsw w = true /\ w_locking w = true.
Proof.
  intros E1 E2 E3 E4. unfold main_first. cbn [calls].
  unfold glob at 1. cbn [rbind consoleinit]. unfold glob at 1. cbn [rbind printfinit].
  unfold say at 1. change (printf (fun _ => []) [10] _) with (Some [10]). cbn [rbind].
  unfold say at 1. change (printf (fun _ => []) booting _) with (Some booting). cbn [rbind].
  unfold say at 1. change (printf (fun _ => []) [10] _) with (Some [10]). cbn [rbind].
  cbn [w_y w_kpgtbl w_disk w_plic w_regs w_devsw w_locking w_out].
  unfold glob at 1. unfold kinit. cbn [w_y y_p ps_mem]. rewrite E1. cbn [rbind]. unfold put_kmem, put_y, put_mem.
  cbn [w_y y_p y_k ps_mem w_kpgtbl w_disk w_plic w_regs w_devsw w_locking w_out ps_procs ps_init ps_nextpid ps_nexttid ps_ticks ps_tf].
  unfold glob at 1. unfold kvminit. cbn [w_y y_p ps_mem]. rewrite E2. cbn [rbind]. unfold put_kmem, put_y, put_mem, put_kpgtbl.
  cbn [w_y y_p y_k ps_mem w_kpgtbl w_disk w_plic w_regs w_devsw w_locking w_out ps_procs ps_init ps_nextpid ps_nexttid ps_ticks ps_tf].
  unfold kvminithart at 1. cbn [rbind].
  unfold glob at 1. cbn [rbind procinit]. unfold put_y, put_procs.
  cbn [w_y y_p y_k ps_mem w_kpgtbl w_disk w_plic w_regs w_devsw w_locking w_out ps_procs ps_init ps_nextpid ps_nexttid ps_ticks ps_tf].
  unfold glob at 1. cbn [rbind trapinit]. unfold trapinithart at 1. cbn [rbind].
  unfold glob at 1. cbn [rbind plic_init]. unfold put_plic. cbn [w_y w_kpgtbl w_disk w_plic w_regs w_devsw w_locking w_out].
  unfold plic_inithart at 1. cbn [rbind]. unfold put_plic. cbn [w_y w_kpgtbl w_disk w_plic w_regs w_devsw w_locking w_out].
  unfold glob at 1. cbn [rbind binit]. unfold on_fs, put_y.
  cbn [w_y y_p y_k w_kpgtbl w_disk w_plic w_regs w_devsw w_locking w_out].
  unfold glob at 1. cbn [rbind iinit]. unfold on_fs, put_y.
  cbn [w_y y_p y_k w_kpgtbl w_disk w_plic w_regs w_devsw w_locking w_out].
  unfold glob at 1. cbn [rbind fileinit].
  unfold glob at 1. unfold virtio_disk_init. cbn [w_y y_p ps_mem]. rewrite E3. cbn [rbind]. unfold put_kmem, put_y, put_mem.
  cbn [w_y y_p y_k ps_mem w_kpgtbl w_disk w_plic w_regs w_devsw w_locking w_out ps_procs ps_init ps_nextpid ps_nexttid ps_ticks ps_tf].
  unfold glob at 1. unfold userinit. cbn [w_y].
  match goal with |- context [ProcLife.userinit kend trampoline forkret sb initcode ?a] =>
    change a with (mkKs (mkPs (Proc.procinit procs) ini 1 nt ticks tfs km3)
          (set_fs k (Fs.iinit (set_t (k_fs k) (fst (fs_t (k_fs k)), Bio.binit (snd (fs_t (k_fs k)))))))) end.
  rewrite E4. cbn [rbind]. eexists _, _. split; [reflexivity|]. by split_and!.
Qed.

Lemma iinit_same (x : fs (log * bcache)) : fs_itable x = replicate 50 inode0 -> Fs.iinit x = x.
Proof. destruct x as [t it]. cbn [fs_itable]. intros ->. reflexivity. Qed.

Lemma boot_runs w0 x0 : machine_ok -> bss w0 -> exists w x, calls main_first w0 x0 = Ok (w, x) /\ booted w0 w.
Proof.
  intros [[K1 K2] [T1 T2] [P1 P2] Hic Hdisk] [B1 B2 [B3 B4] B5 B6].
  destruct w0 as [[[procs ini np nt ticks tfs [m fl]] k] kp d pl rg dv lk out]. cbn [w_y y_p y_k ps_procs ps_nextpid ps_mem kmem_freelist kmem_mem] in *. subst procs np fl.
  destruct (kinit_pages kend m 200 K1 K2 B4) as (s1 & l1 & E1 & I1 & L1 & F1).
  destruct (kvmmake_inv kend K1 etext trampoline T1 T2 P1 P2 s1 l1 I1) as (kroot & s2 & l2 & KN & st & E2 & Hst & H2); [lia|].
  destruct (virtio_init_inv kend disk_reg _ _ _ _ _ _ _ _ _ _ K1 Hdisk H2) as (ws & s3 & l3 & a & b & c & E3 & H3); [change (length knodes) with 102%nat; lia|].
  destruct H3 as [Hwf3 Ht3 Hn3 Hc3 [Hf3 Hd3] _ Hlow3 _].
  assert (Hl3 : (9 <= length l3)%nat) by (pose proof (nodes_size knodes KN Hn3) as Hsz; change (length knodes) with 102%nat in Hsz; lia).
  set (k' := set_fs k (Fs.iinit (set_t (k_fs k) (fst (fs_t (k_fs k)), Bio.binit (snd (fs_t (k_fs k))))))).
  assert (Hk' : Fs.iinit (set_t (k_fs k) (fst (fs_t (k_fs k)), Bio.binit (snd (fs_t (k_fs k))))) =
                set_t (k_fs k) (fst (fs_t (k_fs k)), Bio.binit (snd (fs_t (k_fs k))))) by (by apply iinit_same).
  assert (HtP : 0 <= trampoline < PHYSTOP) by (change KERNBASE with 2147483648 in *; lia).
  destruct (userinit_first kend K1 trampoline HtP P2 forkret (BO := bufops) sb (mkKs (mkPs (Proc.procinit (replicate 64 proc0)) ini 1 nt ticks tfs s3) k') l3 initcode)
    as (y & tf & root & l4 & m4 & q & l5 & N & E4 & El3 & Htf & Hs4 & H5 & Hb & Hp & Hini & Hnp & Htfr & Hyk);
    [apply (pw_kmem _ _ _ _ _ Hwf3)|exact Hl3|exact Hic|reflexivity|reflexivity|unfold k'; rewrite Hk'; exact B6|].
  destruct (main_first_steps _ ini nt ticks tfs _ _ _ _ k kp d pl rg dv lk out x0 ws vdisk0 kroot y E1 E2 E3 E4) as (w & x & E & Ew & Ekp & Ed & Edv & Elk).
  exists w, x. split; [exact E|]. unfold booted. rewrite Ew, Ekp, Ed, Edv, Elk. cbn [w_y y_p y_k ps_mem kmem_mem] in *.
  destruct H5 as [Hwf5 Ht5 Hn5 Hc5 [Hf5 Hd5] [c5 Hc5'] Hlow5 Hkept5].
  assert (Hnode : forall p a, KN !! p = Some a -> valid_page kend a /\ (a ∉ l4) /\ a <> tf).
  { intros p a' Ha. destruct (pw_node _ _ _ _ _ Hwf3 p a' Ha) as (_ & Hv & Hl). rewrite El3 in Hl. apply not_elem_of_cons in Hl as [? ?]. split_and!; assumption. }
  destruct (pt_wf_other kend s3 l3 kroot KN (ps_mem (y_p y)) l5 Hwf3) as [HwfK HeK].
  { apply (pw_kmem _ _ _ _ _ Hwf5). }
  { intros r Hr. rewrite El3, Hc5'. right. apply elem_of_app. right. exact Hr. }
  { intros p a' Ha. destruct (Hnode p a' Ha) as (Hv & Hl & Hne). destruct (Hkept5 a' Hv Hl) as [_ Hpe]. intros z Hz. rewrite (Hpe z Hz).
    apply Hs4. exact (valid_pages_disjoint a' tf z (proj1 Hv) (proj1 Htf) Hne Hz). }
  exists l5, KN, st, tf, root, q, N. split; [exact HwfK|]. split.
  { apply kernel_map_regions; [exact T1|exact T2|exact P1|exact P2|apply Forall_app in Hf3 as [Hf3 _]; exact (foreign_small _ _ _ _ K1 Hf3)|exact Hst|]. intros v Hv. rewrite HeK, Ht3 by exact Hv. reflexivity. }
  split; [exact Hst|]. split; [apply NoDup_app in Hd3 as (Hd3 & _); exact Hd3|]. split; [exact Hwf5|].
  assert (Hq : 0 <= q < 2 ^ 55 /\ q mod PGSIZE = 0) by (pose proof (foreign_small _ _ _ _ K1 Hf5) as Hq; inversion_clear Hq; assumption).
  destruct (page_small kend K1 tf Htf) as [Htf1 Htf2].
  split. { apply init_map_regions; [apply Hq|apply Hq|exact Htf1|exact Htf2|change PHYSTOP with 2281701376 in HtP; pow2; lia|exact P2|exact Ht5]. }
  split. { intros p p' a' Ha. destruct (Hnode p a' Ha) as (Hv & Hl & _). destruct (Hkept5 a' Hv Hl) as [(_ & _ & Hnn) _]. apply Hnn. }
  split. { intros i Hi. rewrite (Hb i Hi). destruct (Z.ltb_spec i 52); [|reflexivity]. rewrite Hlow3, F1 by lia. reflexivity. }
  split; [exact Hp|]. split. { unfold psys_ok. rewrite Hini, Hnp, (init_view forkret tf root _ Hp). split; [apply init_tree|lia]. }
  split; [exact Hini|]. split; [exact Htfr|]. split; [reflexivity|]. split; [rewrite Hyk; unfold k'; rewrite Hk'; reflexivity|]. split; reflexivity.
Qed.
End boot.

(** C17: main on hart 0 brings the kernel up.  On a machine with 200 pages of
    free memory whose disk answers as a virtio disk, every call returns.
    Afterwards the kernel page table maps the kernel as it should, with a
    stack for every process, the free list and the two page tables do not
    share pages, and there is one process, runnable, with process id 1, whose
    first page holds the bytes of initcode and whose registers start at
    address 0 with the stack pointer at the end of that page; the other slots
    are free.  The disk driver is idle and the buffer cache empty, the states
    their invariants start from. *)
Theorem main_boots kend etext trampoline kernelvec forkret initcode disk_reg sb bufops (w0 : world) (x0 : hart) dev me :
  machine_ok kend etext trampoline initcode disk_reg -> bss w0 -> dev <> 0 ->
  exists w x, calls (main_first kend etext trampoline kernelvec forkret initcode disk_reg sb bufops) w0 x0 = Ok (w, x) /\
    booted kend etext trampoline forkret initcode w0 w /\ hart_ready kernelvec (cpuid x0) w x /\
    bio_rel me dev (snd (fs_t (k_fs (y_k (w_y w))))) (mkA (bc_disk (snd (fs_t (k_fs (y_k (w_y w0)))))) ∅ (bc_trace (snd (fs_t (k_fs (y_k (w_y w0))))))) /\
    vinv [] [] [] 0 0 vsys0 /\ w_disk w = Some (s_v vsys0).
Proof.
  intros Hm Hb Hd. destruct (boot_runs kend etext trampoline kernelvec forkret initcode disk_reg sb bufops w0 x0 Hm Hb) as (w & x & E & Hw).
  exists w, x. split; [exact E|]. split; [exact Hw|]. split; [by eapply first_ready|]. destruct Hw as (l & KN & st & tf & root & q & N & Hw).
  destruct Hw as (_ & _ & _ & _ & _ & _ & _ & _ & _ & _ & _ & _ & Hdisk & Hbuf & _).
  split; [|split; [apply vinv_init|exact Hdisk]]. rewrite Hbuf. pose proof (bs_bufs _ Hb) as Hbb. destruct (snd (fs_t (k_fs (y_k (w_y w0))))) as [bufs D T].
  cbn [bc_buf bc_disk bc_trace] in *. rewrite Hbb. by apply (binit_rel me dev D T).
Qed.

(** ** A machine *)
Definition demo_reg (r : Z) : Z :=
  if r =? VIRTIO_MMIO_MAGIC_VALUE then 0x74726976 else if r =? VIRTIO_MMIO_VENDOR_ID then 0x554d4551
  else if r =? VIRTIO_MMIO_STATUS then 11 else if r =? VIRTIO_MMIO_QUEUE_READY then 0 else if r =? VIRTIO_MMIO_QUEUE_NUM_MAX then 1024 else 2.
Definition demo_world : world :=
  mkW (mkKs (mkPs (replicate 64 proc0) None 1 1 0 ∅ (mkKmem ∅ 0))
            (mkK (mkFs (mkLog 0 0 0 0 0 0 (replicate 30 0), bcache0 ∅ []) (replicate 50 inode0)) (replicate 100 file0) (replicate 100 file0) ∅ (mkKmem ∅ 0) [] 0%nat))
      0 None ∅ [] false false [].
Definition demo_hart (h : Z) : hart := mkHart 0 (fun r => match r with TP => h | _ => 0 end) (fun _ => 0) ∅.
Abbreviation demo_etext := (KERNBASE + 65536).
Abbreviation demo_tramp := (KERNBASE + 28672).
Abbreviation demo_code := (KERNBASE + 40000).

Lemma demo_machine_ok : machine_ok small_kend demo_etext demo_tramp demo_code demo_reg.
Proof. split; [split..| |split]; try (by vm_compute); split; by vm_compute. Qed.
Lemma demo_bss : bss demo_world.
Proof. split; try reflexivity. split; [reflexivity|apply mem_bytes_empty]. Qed.

Lemma main_boots_witness : exists w x,
  calls (main_first small_kend demo_etext demo_tramp 4096 8192 demo_code demo_reg demo_sb (bio_ops 1 1)) demo_world (demo_hart 0) = Ok (w, x) /\
  ps_init (y_p (w_y w)) = Some 0%nat.
Proof.
  destruct (main_boots small_kend demo_etext demo_tramp 4096 8192 demo_code demo_reg demo_sb (bio_ops 1 1) demo_world (demo_hart 0) 1 1 demo_machine_ok demo_bss)
    as (w & x & E & Hw & _); [discriminate|]. exists w, x. split; [exact E|].
  destruct Hw as (l & KN & st & tf & root & q & N & Hw). destruct Hw as (_ & _ & _ & _ & _ & _ & _ & _ & _ & _ & Hi & _). exact Hi.
Defined.

(** ** Two harts through main *)
Section run.
Context (kend etext trampoline kernelvec forkret initcode : Z) (disk_reg : Z -> Z) (sb : superblock) (bufops : BufOps bcache).
Abbreviation main_first := (main_first kend etext trampoline kernelvec forkret initcode disk_reg sb bufops).
Abbreviation main_step := (main_step kend etext trampoline kernelvec forkret initcode disk_reg sb bufops).

Lemma first_reaches pre l w x w' x' rest : main_first = pre ++ l -> calls l w x = Ok (w', x') ->
  rtc main_step (mkMain w 0 ((First (length pre), x) :: rest)) (mkMain w' 0 ((First (length main_first), x') :: rest)).
Proof.
  revert pre w x. induction l as [|f l IH]; intros pre w x Hl H; cbn [calls] in H.
  - injection H as <- <-. rewrite Hl, app_nil_r. apply rtc_refl.
  - apply rbind_Ok in H as ([w1 x1] & E & H). eapply rtc_l; [|apply (IH (pre ++ [f])); [by rewrite Hl, <- app_assoc|exact H]].
    rewrite length_app. cbn [length]. rewrite Nat.add_1_r.
    apply (ms_call kend etext trampoline kernelvec forkret initcode disk_reg sb bufops (mkMain w 0 ((First (length pre), x) :: rest)) 0 (length pre) x f); [done| |exact E].
    rewrite Hl. apply list_lookup_middle. done.
Qed.

Lemma other_reaches l pre w x w' x' h : main_other kernelvec = pre ++ l -> calls l w x = Ok (w', x') ->
  rtc main_step (mkMain w 1 [h; (Other (length pre), x)]) (mkMain w' 1 [h; (Other (length (main_other kernelvec)), x')]).
Proof.
  revert pre w x. induction l as [|f l IH]; intros pre w x Hl H; cbn [calls] in H.
  - injection H as <- <-. rewrite Hl, app_nil_r. apply rtc_refl.
  - apply rbind_Ok in H as ([w1 x1] & E & H). eapply rtc_l; [|apply (IH (pre ++ [f])); [by rewrite Hl, <- app_assoc|exact H]].
    rewrite length_app. cbn [length]. rewrite Nat.add_1_r.
    apply (ms_other_call kend etext trampoline kernelvec forkret initcode disk_reg sb bufops (mkMain w 1 [h; (Other (length pre), x)]) 1 (length pre) x f); [done| |exact E].
    rewrite Hl. apply list_lookup_middle. done.
Qed.

Lemma two_harts w0 x0 y0 w x : calls main_first w0 x0 = Ok (w, x) -> cpuid x0 = 0 -> cpuid y0 = 1 ->
  exists w' y, rtc main_step (mkMain w0 0 (pair Enter <$> [x0; y0])) (mkMain w' 1 [(Scheduler, x); (Scheduler, y)]).
Proof.
  intros E H0 H1. cbn [fmap list_fmap].
  assert (Hc : exists w' y, calls (main_other kernelvec) w y0 = Ok (w', y)).
  { unfold main_other, say. cbn [calls]. rewrite H1. change (printf (fun _ => []) starting (fun _ => 1)) with (Some [104; 97; 114; 116; 32; 49; 32; 115; 116; 97; 114; 116; 105; 110; 103; 10]).
    by eexists _, _. }
  destruct Hc as (w' & y & Ey). exists w', y.
  eapply rtc_l; [apply (ms_first _ _ _ _ _ _ _ _ _ _ 0 x0); [reflexivity|exact H0]|].
  eapply rtc_l; [apply (ms_other _ _ _ _ _ _ _ _ _ _ 1 y0); [reflexivity|by rewrite H1]|]. cbn [put_hart m_harts m_world m_started].
  etransitivity; [apply (first_reaches [] main_first w0 x0 w x [(Spin, y0)]); [reflexivity|exact E]|].
  eapply rtc_l; [apply (ms_publish _ _ _ _ _ _ _ _ _ _ 0 (length main_first) x); reflexivity|].
  eapply rtc_l; [apply (ms_go _ _ _ _ _ _ _ _ _ _ 1 y0); [reflexivity|done]|]. cbn [put_hart m_harts m_world m_started].
  etransitivity; [apply (other_reaches (main_other kernelvec) [] w y0 w' y (Scheduler, x)); [reflexivity|exact Ey]|].
  eapply rtc_l; [apply (ms_done _ _ _ _ _ _ _ _ _ _ 1 (length (main_other kernelvec)) y); reflexivity|]. apply rtc_refl.
Qed.
End run.

