(* ===== verification/Sh.v ===== *)
(** * The command parser of the shell: user/sh.c

    The parser works on a NUL-terminated line in place: a pointer into the
    line is the list of the bytes from there to the NUL, so that *s at the end
    is the NUL.  A parsed command points to its words, by their beginning and
    end; nulterminate then writes a NUL behind each word.  panic is an error
    value.  Proved: parsing always ends, and a printed command is parsed to
    itself, with every word a C string in the line. *)

From S2P Require Import Prelude Sysfile.

(** ** Commands, with words of type [W] *)
Definition MAXARGS : nat := 10.
Inductive cmd (W : Type) :=
| EXEC (argv : list W)
| REDIR (c : cmd W) (file : W) (mode fd : Z)
| PIPE (l r : cmd W)
| LIST (l r : cmd W)
| BACK (c : cmd W).
Arguments EXEC {W} _.
Arguments REDIR {W} _ _ _ _.
Arguments PIPE {W} _ _.
Arguments LIST {W} _ _.
Arguments BACK {W} _.

Definition whitespace : list Z := [32; 9; 13; 10; 11].
Definition symbols : list Z := [60; 124; 62; 38; 59; 40; 41].
(** | ( ) ; & < > and what gettoken returns for >> and for a word *)
Definition c_pipe : Z := 124.
Definition c_open : Z := 40.
Definition c_close : Z := 41.
Definition c_semi : Z := 59.
Definition c_amp : Z := 38.
Definition c_lt : Z := 60.
Definition c_gt : Z := 62.
Definition c_plus : Z := 43.
Definition c_word : Z := 97.

Definition is_in (l : list Z) (c : Z) : bool := existsb (Z.eqb c) l.
Definition word_char (c : Z) : bool := negb (is_in whitespace c) && negb (is_in symbols c).

(** ** Tokens *)
Fixpoint skip (f : Z -> bool) (s : list Z) : list Z :=
  match s with c :: s' => if f c then skip f s' else s | [] => [] end.
Definition skip_ws : list Z -> list Z := skip (is_in whitespace).

(** *s *)
Definition cur (s : list Z) : Z := match s with c :: _ => c | [] => 0 end.

(** The token, where it begins, where it ends, and *ps *)
Definition gettoken (s : list Z) : Z * list Z * list Z * list Z :=
  let q := skip_ws s in
  let '(ret, eq) :=
    match q with
    | [] => (0, q)
    | c :: s' =>
        if is_in [c_pipe; c_open; c_close; c_semi; c_amp; c_lt] c then (c, s')
        else if c =? c_gt then (if cur s' =? c_gt then (c_plus, tail s') else (c, s'))
        else (c_word, skip word_char q)
    end in
  (ret, q, eq, skip_ws eq).

Definition peek (s toks : list Z) : bool * list Z :=
  let s := skip_ws s in (negb (cur s =? 0) && is_in toks (cur s), s).

(** ** The parser *)
(** A word of the line: where it begins and where it ends *)
Abbreviation span := (list Z * list Z)%type.
Abbreviation redir := (span * Z * Z)%type.

Definition redir_of (tok : Z) (file : span) : option redir :=
  if tok =? c_lt then Some (file, O_RDONLY, 0)
  else if tok =? c_gt then Some (file, Z.lor O_WRONLY (Z.lor O_CREATE O_TRUNC), 1)
  else if tok =? c_plus then Some (file, Z.lor O_WRONLY O_CREATE, 1)
  else None.
Definition add_redirs {W} (c : cmd W) (rs : list (W * Z * Z)) : cmd W := fold_left (fun c '(f, m, d) => REDIR c f m d) rs c.

(** parseredirs: the redirections, to be put round the command in order *)
Fixpoint parseredirs (fuel : nat) (s : list Z) : res (list redir * list Z) :=
  match fuel with
  | O => Block
  | S fuel' =>
      let '(more, s) := peek s [c_lt; c_gt] in
      if more then
        let '(tok, _, _, s) := gettoken s in
        let '(tok2, q, eq, s) := gettoken s in
        if negb (tok2 =? c_word) then Panic "missing file for redirection"
        else
          let* (rs, s) := parseredirs fuel' s in
          Ok (match redir_of tok (q, eq) with Some r => r :: rs | None => rs end, s)
      else Ok ([], s)
  end.

(** The loop of parseexec.  The execcmd is filled in while redirections are
    put round it, so arguments and redirections are collected apart. *)
Fixpoint parseargs (fuel : nat) (argc : nat) (s : list Z) : res (list span * list redir * list Z) :=
  match fuel with
  | O => Block
  | S fuel' =>
      let '(stop, s) := peek s [c_pipe; c_close; c_amp; c_semi] in
      if stop then Ok ([], [], s)
      else
        let '(tok, q, eq, s) := gettoken s in
        if tok =? 0 then Ok ([], [], s)
        else if negb (tok =? c_word) then Panic "syntax"
        else if (MAXARGS <=? S argc)%nat then Panic "too many args"
        else
          let* (rs, s) := parseredirs fuel' s in
          let* (args, rs', s) := parseargs fuel' (S argc) s in
          Ok ((q, eq) :: args, rs ++ rs', s)
  end.

(** while(peek(ps, es, "&")) *)
Fixpoint parseback (fuel : nat) (c : cmd span) (s : list Z) : res (cmd span * list Z) :=
  match fuel with
  | O => Block
  | S fuel' =>
      let '(amp, s) := peek s [c_amp] in
      if amp then let '(_, _, _, s) := gettoken s in parseback fuel' (BACK c) s else Ok (c, s)
  end.

Fixpoint parseline (fuel : nat) (s : list Z) : res (cmd span * list Z) :=
  match fuel with
  | O => Block
  | S fuel' =>
      let* (c, s) := parsepipe fuel' s in
      let* (c, s) := parseback (S (length s)) c s in
      let '(semi, s) := peek s [c_semi] in
      if semi then
        let '(_, _, _, s) := gettoken s in
        let* (r, s) := parseline fuel' s in Ok (LIST c r, s)
      else Ok (c, s)
  end
with parsepipe (fuel : nat) (s : list Z) : res (cmd span * list Z) :=
  match fuel with
  | O => Block
  | S fuel' =>
      let* (c, s) := parseexec fuel' s in
      let '(bar, s) := peek s [c_pipe] in
      if bar then
        let '(_, _, _, s) := gettoken s in
        let* (r, s) := parsepipe fuel' s in Ok (PIPE c r, s)
      else Ok (c, s)
  end
with parseexec (fuel : nat) (s : list Z) : res (cmd span * list Z) :=
  match fuel with
  | O => Block
  | S fuel' =>
      let '(paren, s) := peek s [c_open] in
      if paren then parseblock fuel' s
      else
        let* (rs, s) := parseredirs (S (length s)) s in
        let* (args, rs', s) := parseargs (S (length s)) 0 s in
        Ok (add_redirs (EXEC args) (rs ++ rs'), s)
  end
with parseblock (fuel : nat) (s : list Z) : res (cmd span * list Z) :=
  match fuel with
  | O => Block
  | S fuel' =>
      let '(paren, s) := peek s [c_open] in
      if negb paren then Panic "parseblock"
      else
        let '(_, _, _, s) := gettoken s in
        let* (c, s) := parseline fuel' s in
        let '(paren, s) := peek s [c_close] in
        if negb paren then Panic "syntax - missing )"
        else
          let '(_, _, _, s) := gettoken s in
          let* (rs, s) := parseredirs (S (length s)) s in
          Ok (add_redirs c rs, s)
  end.

(** ** nulterminate: the line with a NUL at the end of each word *)
Definition terminate (line : list Z) (w : span) : list Z := <[(length line - 1 - length w.2)%nat := 0]> line.
Fixpoint nulterminate (c : cmd span) (line : list Z) : list Z :=
  match c with
  | EXEC argv => fold_left terminate argv line
  | REDIR c file _ _ => terminate (nulterminate c line) file
  | PIPE l r => nulterminate r (nulterminate l line)
  | LIST l r => nulterminate r (nulterminate l line)
  | BACK c => nulterminate c line
  end.

(** The command and the line, with its NUL, after it *)
Definition parsecmd (s : list Z) : res (cmd span * list Z) :=
  let* (c, rest) := parseline (S (4 * S (length s))) s in
  let '(_, rest) := peek rest [] in
  match rest with
  | [] => Ok (c, nulterminate c (s ++ [0]))
  | _ => Panic "syntax"
  end.

(** ** The parser ends *)

(** It does not run out of fuel and leaves no more than it was given. *)
Definition ends {A} (n : nat) (r : res (A * list Z)) : Prop :=
  match r with Ok (_, s) => (length s <= n)%nat | Panic _ => True | Block => False end.

Lemma parse_ends_bind {A B} n m (r : res (A * list Z)) (k : A * list Z -> res (B * list Z)) :
  ends n r -> (forall x s, (length s <= n)%nat -> ends m (k (x, s))) -> ends m (rbind r k).
Proof. destruct r as [[x s]| |]; cbn; auto. Qed.
Lemma ends_mono {A} n m (r : res (A * list Z)) : (n <= m)%nat -> ends n r -> ends m r.
Proof. destruct r as [[x s]| |]; cbn; [lia|done|done]. Qed.

Lemma skip_le f s : (length (skip f s) <= length s)%nat.
Proof. induction s as [|c s IH]; cbn; [lia|]. destruct (f c); cbn; lia. Qed.
Lemma skip_idem f s : skip f (skip f s) = skip f s.
Proof. induction s as [|c s IH]; cbn; [done|]. destruct (f c) eqn:E; [done|]. cbn. by rewrite E. Qed.
Lemma peek_le s toks b s' : peek s toks = (b, s') -> s' = skip_ws s /\ (length s' <= length s)%nat /\ (b = true -> s' <> []).
Proof.
  unfold peek. intros [= <- <-]. split_and!; [done|apply skip_le|]. intros Hb. by destruct (skip_ws s).
Qed.

Lemma skip_head f s c w : skip f s = c :: w -> f c = false.
Proof. induction s as [|x s IH]; cbn; [done|]. destruct (f x) eqn:E; [done|]. by intros [= <- <-]. Qed.
Lemma word_char_case c : is_in whitespace c = false -> is_in [c_pipe; c_open; c_close; c_semi; c_amp; c_lt] c = false -> (c =? c_gt) = false -> word_char c = true.
Proof.
  intros Hw Hs Hg. unfold word_char. rewrite Hw. cbn [negb andb]. revert Hs Hg. unfold is_in, symbols. cbn [existsb]. unfold c_pipe, c_open, c_close, c_semi, c_amp, c_lt, c_gt.
  destruct (c =? 60), (c =? 124), (c =? 62), (c =? 38), (c =? 59), (c =? 40), (c =? 41); done.
Qed.

Lemma gettoken_le s tok q eq s' : gettoken s = (tok, q, eq, s') ->
  (length s' <= length s)%nat /\ (skip_ws s <> [] -> length s' < length s)%nat /\ (tok <> 0 -> skip_ws s <> []).
Proof.
  unfold gettoken. pose proof (skip_le (is_in whitespace) s) as Hq. fold (skip_ws s) in Hq. destruct (skip_ws s) as [|c w] eqn:Es.
  - intros [= <- <- <- <-]. split_and!; [cbn; lia|done|done].
  - intros H. enough (Hl : (length s' <= length w)%nat) by (cbn in Hq; split_and!; [lia|intros _; lia|done]).
    destruct (is_in _ c) eqn:E1; [injection H as <- <- <- <-; apply skip_le|]. destruct (c =? c_gt) eqn:E2.
    + destruct (cur w =? c_gt); injection H as <- <- <- <-; [|apply skip_le].
      etransitivity; [apply skip_le|]. destruct w; cbn; lia.
    + injection H as <- <- <- <-. etransitivity; [apply skip_le|]. cbn [skip].
      rewrite word_char_case; [apply skip_le|by eapply skip_head|done|done].
Qed.

(** One token behind a successful peek *)
Lemma peek_token s toks s1 tok q eq s2 : peek s toks = (true, s1) -> gettoken s1 = (tok, q, eq, s2) -> (length s2 < length s)%nat.
Proof.
  intros Hp Hg. apply peek_le in Hp as (-> & Hle & Hne). apply gettoken_le in Hg as (_ & Hlt & _). unfold skip_ws in *. rewrite skip_idem in Hlt.
  specialize (Hlt (Hne eq_refl)). lia.
Qed.

Lemma parseredirs_ends fuel s : (length s < fuel)%nat -> ends (length s) (parseredirs fuel s).
Proof.
  revert s. induction fuel as [|fuel IH]; intros s Hf; [lia|]. cbn [parseredirs]. destruct (peek s _) as [more s1] eqn:Ep.
  destruct more; [|apply peek_le in Ep as (_ & Hle & _); exact Hle]. destruct (gettoken s1) as [[[tok q0] e0] s2] eqn:Eg.
  pose proof (peek_token _ _ _ _ _ _ _ Ep Eg) as H2. destruct (gettoken s2) as [[[tok2 q] eq] s3] eqn:Eg2. apply gettoken_le in Eg2 as (H3 & _).
  destruct (negb _); [done|]. eapply parse_ends_bind; [apply IH; lia|]. intros rs s4 H4. cbn. lia.
Qed.

Lemma parseargs_ends fuel argc s : (length s < fuel)%nat -> ends (length s) (parseargs fuel argc s).
Proof.
  revert argc s. induction fuel as [|fuel IH]; intros argc s Hf; [lia|]. cbn [parseargs]. destruct (peek s _) as [stop s1] eqn:Ep.
  apply peek_le in Ep as (-> & H1 & _). destruct stop; [exact H1|]. destruct (gettoken (skip_ws s)) as [[[tok q] eq] s2] eqn:Eg.
  apply gettoken_le in Eg as (H2 & H2' & H2''). destruct (Z.eqb_spec tok 0) as [|Hn]; [cbn; lia|]. specialize (H2' (H2'' Hn)).
  destruct (negb _); [done|]. destruct (_ <=? _)%nat; [done|]. eapply parse_ends_bind; [apply parseredirs_ends; lia|]. intros rs s3 H3.
  assert (H4 : ends (length s3) (parseargs fuel (S argc) s3)) by (apply IH; lia). destruct (parseargs fuel (S argc) s3) as [[[args rs'] s4]| |]; cbn in *; [lia|done|done].
Qed.

Lemma parseback_ends fuel c s : (length s < fuel)%nat -> ends (length s) (parseback fuel c s).
Proof.
  revert c s. induction fuel as [|fuel IH]; intros c s Hf; [lia|]. cbn [parseback]. destruct (peek s _) as [amp s1] eqn:Ep.
  destruct amp; [|apply peek_le in Ep as (_ & Hle & _); exact Hle]. destruct (gettoken s1) as [[[tok q] e] s2] eqn:Eg.
  pose proof (peek_token _ _ _ _ _ _ _ Ep Eg) as H2. eapply ends_mono; [|apply IH]; lia.
Qed.

Lemma parse_ends fuel : forall s,
  ((4 * length s + 4 <= fuel)%nat -> ends (length s) (parseline fuel s)) /\ ((4 * length s + 3 <= fuel)%nat -> ends (length s) (parsepipe fuel s)) /\
  ((4 * length s + 2 <= fuel)%nat -> ends (length s) (parseexec fuel s)) /\ ((4 * length s + 1 <= fuel)%nat -> ends (length s) (parseblock fuel s)).
Proof.
  induction fuel as [|fuel IH]; intros s; [split_and!; lia|]. split_and!; intros Hf; cbn [parseline parsepipe parseexec parseblock].
  - eapply parse_ends_bind; [apply IH; lia|]. intros c s1 H1. eapply parse_ends_bind; [apply parseback_ends; lia|]. intros c' s2 H2.
    destruct (peek s2 _) as [semi s3] eqn:Ep. destruct semi; [|apply peek_le in Ep as (_ & Hle & _); cbn; lia].
    destruct (gettoken s3) as [[[tok q] e] s4] eqn:Eg. pose proof (peek_token _ _ _ _ _ _ _ Ep Eg) as H4.
    eapply parse_ends_bind; [apply IH; lia|]. intros r s5 H5. cbn. lia.
  - eapply parse_ends_bind; [apply IH; lia|]. intros c s1 H1. destruct (peek s1 _) as [bar s3] eqn:Ep.
    destruct bar; [|apply peek_le in Ep as (_ & Hle & _); cbn; lia]. destruct (gettoken s3) as [[[tok q] e] s4] eqn:Eg.
    pose proof (peek_token _ _ _ _ _ _ _ Ep Eg) as H4. eapply parse_ends_bind; [apply IH; lia|]. intros r s5 H5. cbn. lia.
  - destruct (peek s _) as [paren s1] eqn:Ep. apply peek_le in Ep as (_ & H1 & _). destruct paren; [eapply ends_mono; [|apply IH]; lia|].
    eapply parse_ends_bind; [apply parseredirs_ends; lia|]. intros rs s2 H2.
    assert (H3 : ends (length s2) (parseargs (S (length s2)) 0 s2)) by (apply parseargs_ends; lia).
    destruct (parseargs (S (length s2)) 0 s2) as [[[args rs'] s3]| |]; cbn in *; [lia|done|done].
  - destruct (peek s _) as [paren s1] eqn:Ep. destruct paren; cbn [negb]; [|done]. destruct (gettoken s1) as [[[tok q] e] s2] eqn:Eg.
    pose proof (peek_token _ _ _ _ _ _ _ Ep Eg) as H2. eapply parse_ends_bind; [apply IH; lia|]. intros c s3 H3.
    destruct (peek s3 _) as [close s4] eqn:Ep2. destruct close; cbn [negb]; [|done]. destruct (gettoken s4) as [[[tok2 q2] e2] s5] eqn:Eg2.
    pose proof (peek_token _ _ _ _ _ _ _ Ep2 Eg2) as H5. eapply parse_ends_bind; [apply parseredirs_ends; lia|]. intros rs s6 H6. cbn. lia.
Qed.

(** The shell's parser ends on every line: with a command, or with one of
    its error messages. *)
Theorem parsecmd_ends s : parsecmd s <> Block.
Proof.
  unfold parsecmd. pose proof (proj1 (parse_ends (S (4 * S (length s))) s)) as H. destruct (parseline (S (4 * S (length s))) s) as [[c rest]| |]; cbn [rbind].
  - destruct (peek rest []) as [b rest']. by destruct rest'.
  - done.
  - exfalso. apply H. lia.
Qed.

(** ** Printing *)

(** Every token is followed by a blank.  The levels are those of the grammar:
    0 for a simple command or a block, 1 for pipes, 2 for &, 3 for lists. *)
Definition sym (c : Z) : list Z := [c; 32].
Definition pr_word (w : list Z) : list Z := w ++ [32].
Definition pr_redir (r : list Z * Z * Z) : list Z :=
  let '(f, m, d) := r in
  (if d =? 0 then sym c_lt else if Z.testbit m 10 then sym c_gt else c_gt :: sym c_gt) ++ pr_word f.
Definition pr_words (ws : list (list Z)) : list Z := concat (map pr_word ws).
Definition pr_redirs (rs : list (list Z * Z * Z)) : list Z := concat (map pr_redir rs).
Definition pr_paren (b : bool) (s : list Z) : list Z := if b then sym c_open ++ s ++ sym c_close else s.
Fixpoint pr (lvl : nat) (c : cmd (list Z)) : list Z :=
  match c with
  | EXEC argv => pr_words argv
  | REDIR c f m d => pr 0 c ++ pr_redir (f, m, d)
  | PIPE l r => pr_paren (lvl <? 1)%nat (pr 0 l ++ sym c_pipe ++ pr 1 r)
  | BACK c => pr_paren (lvl <? 2)%nat (pr 2 c ++ sym c_amp)
  | LIST l r => pr_paren (lvl <? 3)%nat (pr 2 l ++ sym c_semi ++ pr 3 r)
  end.

Definition word_ok (w : list Z) : Prop := w <> [] /\ Forall (fun c => word_char c = true /\ c <> 0) w.
Definition redir_ok (r : list Z * Z * Z) : Prop :=
  let '(f, m, d) := r in
  word_ok f /\ ((m = O_RDONLY /\ d = 0) \/ (m = Z.lor O_WRONLY (Z.lor O_CREATE O_TRUNC) /\ d = 1) \/ (m = Z.lor O_WRONLY O_CREATE /\ d = 1)).
Fixpoint cmd_ok (c : cmd (list Z)) : Prop :=
  match c with
  | EXEC argv => Forall word_ok argv /\ (length argv < MAXARGS)%nat
  | REDIR c f m d => cmd_ok c /\ redir_ok (f, m, d)
  | PIPE l r | LIST l r => cmd_ok l /\ cmd_ok r
  | BACK c => cmd_ok c
  end.

(** ** Tokens of a printed command *)
Lemma word_not_ws c : word_char c = true -> is_in whitespace c = false /\ is_in symbols c = false.
Proof. unfold word_char. destruct (is_in whitespace c), (is_in symbols c); done. Qed.
Lemma skip_app f w s : Forall (fun c => f c = true) w -> skip f (w ++ s) = skip f s.
Proof. induction 1 as [|c w Hc _ IH]; cbn; [done|]. by rewrite Hc. Qed.
Lemma skip_ws_word w s : word_ok w -> skip_ws (w ++ s) = w ++ s.
Proof. intros [Hne Hw]. destruct w as [|c w]; [done|]. apply Forall_cons in Hw as [[Hc _] _]. unfold skip_ws. cbn [app skip]. by rewrite (proj1 (word_not_ws c Hc)). Qed.

Lemma gettoken_word w s : word_ok w -> gettoken (w ++ 32 :: s) = (c_word, w ++ 32 :: s, 32 :: s, skip_ws s).
Proof.
  intros Hw. unfold gettoken. rewrite skip_ws_word by done. destruct Hw as [Hne Hw]. destruct w as [|c w]; [done|]. cbn [app].
  pose proof Hw as Hw'. apply Forall_cons in Hw' as [[Hc _] _]. destruct (word_not_ws c Hc) as [_ Hs]. unfold symbols, is_in in Hs. cbn [existsb] in Hs.
  assert (E1 : is_in [c_pipe; c_open; c_close; c_semi; c_amp; c_lt] c = false /\ (c =? c_gt) = false).
  { unfold is_in, c_pipe, c_open, c_close, c_semi, c_amp, c_lt, c_gt. cbn [existsb].
    revert Hs. destruct (c =? 60), (c =? 124), (c =? 62), (c =? 38), (c =? 59), (c =? 40), (c =? 41); done. }
  destruct E1 as [-> ->]. change (c :: w ++ 32 :: s) with ((c :: w) ++ 32 :: s). rewrite skip_app; [done|].
  eapply Forall_impl; [exact Hw|]. by intros x [? _].
Qed.
Lemma gettoken_sym c s : is_in [c_pipe; c_open; c_close; c_semi; c_amp; c_lt] c = true -> gettoken (c :: 32 :: s) = (c, c :: 32 :: s, 32 :: s, skip_ws s).
Proof.
  intros Hc. unfold gettoken. assert (Hw : is_in whitespace c = false).
  { revert Hc. unfold is_in, whitespace, c_pipe, c_open, c_close, c_semi, c_amp, c_lt. cbn [existsb]. rewrite !orb_true_iff, !orb_false_iff, !Z.eqb_eq, !Z.eqb_neq. lia. }
  assert (E : skip_ws (c :: 32 :: s) = c :: 32 :: s) by (unfold skip_ws; cbn [skip]; by rewrite Hw). by rewrite E, Hc.
Qed.
Lemma gettoken_gt s : gettoken (c_gt :: 32 :: s) = (c_gt, c_gt :: 32 :: s, 32 :: s, skip_ws s).
Proof. done. Qed.
Lemma gettoken_gtgt s : gettoken (c_gt :: c_gt :: 32 :: s) = (c_plus, c_gt :: c_gt :: 32 :: s, 32 :: s, skip_ws s).
Proof. done. Qed.

Lemma peek_ws s toks : peek (skip_ws s) toks = peek s toks.
Proof. unfold peek, skip_ws. by rewrite skip_idem. Qed.
Lemma gettoken_ws s : gettoken (skip_ws s) = gettoken s.
Proof. unfold gettoken, skip_ws. by rewrite skip_idem. Qed.
Lemma peek_word w s toks : word_ok w -> forallb (is_in symbols) toks = true -> peek (w ++ s) toks = (false, w ++ s).
Proof.
  intros Hw Ht. unfold peek. rewrite skip_ws_word by done. f_equal. destruct Hw as [Hne Hw]. destruct w as [|c w]; [done|]. cbn [app cur].
  apply Forall_cons in Hw as [[Hc _] _]. destruct (word_not_ws c Hc) as [_ Hs]. apply andb_false_intro2. apply not_true_is_false. intros Hin.
  apply existsb_exists in Hin as (x & Hx & Hxc). apply Z.eqb_eq in Hxc as ->. rewrite forallb_forall in Ht. specialize (Ht x Hx). congruence.
Qed.

(** What comes next is the end of the line or one of [l]. *)
Definition follow (l : list Z) (s : list Z) : Prop := skip_ws s = [] \/ is_in l (cur (skip_ws s)) = true.
Lemma peek_follow l s toks : follow l s -> forallb (fun c => negb (is_in toks c)) l = true -> peek s toks = (false, skip_ws s).
Proof.
  intros Hf Ht. unfold peek. f_equal. destruct Hf as [->|Hin]; [done|]. apply andb_false_intro2.
  apply existsb_exists in Hin as (x & Hx & Hxc). apply Z.eqb_eq in Hxc as ->. rewrite forallb_forall in Ht. specialize (Ht x Hx). by destruct (is_in toks x).
Qed.
Lemma peek_sym c s toks : is_in symbols c = true -> is_in toks c = true -> peek (c :: s) toks = (true, c :: s).
Proof.
  intros Hs Ht. assert (Hw : is_in whitespace c = false /\ c <> 0).
  { revert Hs. unfold is_in, whitespace, symbols. cbn [existsb]. rewrite !orb_true_iff, !orb_false_iff, !Z.eqb_eq, !Z.eqb_neq. lia. }
  destruct Hw as [Hw Hn]. unfold peek, skip_ws. cbn [skip]. rewrite Hw. cbn [cur]. by rewrite (proj2 (Z.eqb_neq _ _) Hn), Ht.
Qed.
Lemma follow_sym l c s : is_in symbols c = true -> is_in l c = true -> follow l (c :: s).
Proof.
  intros Hs Hl. right. assert (Hw : is_in whitespace c = false).
  { revert Hs. unfold is_in, whitespace, symbols. cbn [existsb]. rewrite !orb_true_iff, !orb_false_iff, !Z.eqb_eq, !Z.eqb_neq. lia. }
  unfold skip_ws. cbn [skip]. by rewrite Hw.
Qed.
Lemma follow_weaken l l' s : forallb (is_in l') l = true -> follow l s -> follow l' s.
Proof.
  intros Hl [H|H]; [by left|right]. apply existsb_exists in H as (x & Hx & Hxc). apply Z.eqb_eq in Hxc as ->. rewrite forallb_forall in Hl. by apply Hl.
Qed.

(** ** What is printed is parsed *)

(** A span of the line [line] that spells [w], with a blank behind it *)
Definition spells (line w : list Z) (x : span) : Prop :=
  x.1 = w ++ x.2 /\ (exists pre, line = pre ++ x.1) /\ exists t, x.2 = 32 :: t.
Definition redir_spells (line : list Z) (r : list Z * Z * Z) (x : redir) : Prop :=
  spells line r.1.1 x.1.1 /\ r.1.2 = x.1.2 /\ r.2 = x.2.
Fixpoint cmd_spells (line : list Z) (c : cmd (list Z)) (x : cmd span) : Prop :=
  match c, x with
  | EXEC argv, EXEC argv' => Forall2 (spells line) argv argv'
  | REDIR c f m d, REDIR c' f' m' d' => cmd_spells line c c' /\ redir_spells line (f, m, d) (f', m', d')
  | PIPE l r, PIPE l' r' => cmd_spells line l l' /\ cmd_spells line r r'
  | LIST l r, LIST l' r' => cmd_spells line l l' /\ cmd_spells line r r'
  | BACK c, BACK c' => cmd_spells line c c'
  | _, _ => False
  end.

Lemma add_redirs_spells line c c' rs rs' : cmd_spells line c c' -> Forall2 (redir_spells line) rs rs' ->
  cmd_spells line (add_redirs c rs) (add_redirs c' rs').
Proof.
  intros Hc Hr. revert c c' Hc. induction Hr as [|r x rs rs' Hrx _ IH]; intros c c' Hc; [done|]. unfold add_redirs. cbn [fold_left].
  destruct r as [[f m] d], x as [[f' m'] d']. by apply IH.
Qed.

Definition F0 : list Z := [c_pipe; c_close; c_amp; c_semi].
Definition F1 : list Z := [c_close; c_amp; c_semi].
Definition F2 : list Z := [c_close; c_semi].
Definition F3 : list Z := [c_close].

Lemma parseredirs_ws fuel s : parseredirs fuel (skip_ws s) = parseredirs fuel s.
Proof. destruct fuel; [done|]. cbn [parseredirs]. by rewrite peek_ws. Qed.

Lemma parse_redirs line pre rs rest fuel : Forall redir_ok rs -> peek rest [c_lt; c_gt] = (false, skip_ws rest) ->
  line = pre ++ pr_redirs rs ++ rest -> (length (pr_redirs rs ++ rest) < fuel)%nat ->
  exists rs', parseredirs fuel (pr_redirs rs ++ rest) = Ok (rs', skip_ws rest) /\ Forall2 (redir_spells line) rs rs'.
Proof.
  intros Hok Hrest. revert pre fuel. induction Hok as [|r rs Hr Hok IH]; intros pre fuel El Hf; (destruct fuel as [|fuel]; [lia|]).
  - cbn [pr_redirs map concat app parseredirs]. rewrite Hrest. exists []. split; [done|constructor].
  - destruct r as [[f m] d]. destruct Hr as [Hw Hmd]. set (tl := pr_redirs rs ++ rest) in *.
    assert (Eop : exists op tok, pr_redirs ((f, m, d) :: rs) ++ rest = op ++ 32 :: f ++ 32 :: tl /\
              gettoken (op ++ 32 :: f ++ 32 :: tl) = (tok, op ++ 32 :: f ++ 32 :: tl, 32 :: f ++ 32 :: tl, skip_ws (f ++ 32 :: tl)) /\
              peek (op ++ 32 :: f ++ 32 :: tl) [c_lt; c_gt] = (true, op ++ 32 :: f ++ 32 :: tl) /\ forall x, redir_of tok x = Some (x, m, d)).
    { unfold tl, pr_redirs. cbn [map concat pr_redir]. unfold pr_word, sym.
      destruct Hmd as [[-> ->]|[[-> ->]|[-> ->]]]; [exists [c_lt], c_lt|exists [c_gt], c_gt|exists [c_gt; c_gt], c_plus];
        (split_and!; [cbn; by rewrite <- !app_assoc|done|done|done]). }
    destruct Eop as (op & tok & Es & Eg & Ep & Er). rewrite Es in *. cbn [parseredirs]. rewrite Ep, Eg, gettoken_ws, gettoken_word by done.
    cbn [Z.eqb negb]. rewrite Z.eqb_refl. cbn [negb]. rewrite parseredirs_ws.
    destruct (IH (pre ++ op ++ 32 :: f ++ [32]) fuel) as (rs' & -> & Hrs).
    { rewrite El. unfold tl. rewrite <- !app_assoc. cbn. by rewrite <- !app_assoc. }
    { revert Hf. rewrite !length_app. cbn. rewrite !length_app. cbn. lia. }
    cbn [rbind]. rewrite Er. exists ((f ++ 32 :: tl, 32 :: tl, m, d) :: rs'). split; [done|]. constructor; [|done].
    split_and!; [|done|done]. cbn [fst snd]. split_and!; [done| |by eexists]. exists (pre ++ op ++ [32]). rewrite El. by rewrite <- !app_assoc.
Qed.

Lemma parseargs_stop fuel argc rest : follow F0 rest -> parseargs (S fuel) argc rest = Ok ([], [], skip_ws rest).
Proof.
  intros Hf. cbn [parseargs]. unfold peek. destruct Hf as [E|E].
  - rewrite E. cbn [cur]. done.
  - assert (Hn : cur (skip_ws rest) <> 0).
    { intros H0. rewrite H0 in E. discriminate E. }
    fold F0. by rewrite E, (proj2 (Z.eqb_neq _ _) Hn).
Qed.
Lemma parseargs_ws fuel argc s : parseargs fuel argc (skip_ws s) = parseargs fuel argc s.
Proof. destruct fuel; [done|]. cbn [parseargs]. by rewrite peek_ws. Qed.

Lemma parse_args line pre w ws rs rest fuel argc : word_ok w -> Forall word_ok ws -> Forall redir_ok rs -> follow F0 rest -> (argc + S (length ws) < MAXARGS)%nat ->
  line = pre ++ pr_words (w :: ws) ++ pr_redirs rs ++ rest -> (length (pr_words (w :: ws) ++ pr_redirs rs ++ rest) < fuel)%nat ->
  exists ws' rs', parseargs fuel argc (pr_words (w :: ws) ++ pr_redirs rs ++ rest) = Ok (ws', rs', skip_ws rest) /\
    Forall2 (spells line) (w :: ws) ws' /\ Forall2 (redir_spells line) rs rs'.
Proof.
  intros Hw Hws Hrs Hrest. revert pre w Hw fuel argc. induction Hws as [|v ws Hv Hws IH]; intros pre w Hw fuel argc Ha El Hf; (destruct fuel as [|fuel]; [lia|]).
  - unfold pr_words in *. cbn [map concat] in *. rewrite app_nil_r in *. unfold pr_word in *. rewrite <- !app_assoc in *. cbn [app] in *. set (tl := pr_redirs rs ++ rest) in *.
    cbn [parseargs]. rewrite peek_word, gettoken_word by done. cbn [Z.eqb]. rewrite Z.eqb_refl. cbn [negb]. rewrite (proj2 (Nat.leb_gt _ _)) by (cbn in Ha; lia).
    rewrite parseredirs_ws. rewrite length_app in Hf. cbn [length] in Hf. destruct (parse_redirs line (pre ++ w ++ [32]) rs rest fuel) as (rs' & Er & Hr); [done| | |fold tl; lia|].
    + by apply (peek_follow F0).
    + rewrite El. by rewrite <- !app_assoc.
    + fold tl in Er. rewrite Er. cbn [rbind]. rewrite parseargs_ws. destruct fuel as [|fuel]; [lia|]. rewrite parseargs_stop by done. cbn [rbind]. exists [(w ++ 32 :: tl, 32 :: tl)], rs'.
      rewrite app_nil_r. split_and!; [done| |done]. constructor; [|constructor]. split_and!; [done|by exists pre|by eexists].
  - assert (Eq : pr_words (w :: v :: ws) ++ pr_redirs rs ++ rest = w ++ 32 :: (pr_words (v :: ws) ++ pr_redirs rs ++ rest)) by (unfold pr_words; cbn [map concat]; unfold pr_word; by rewrite <- !app_assoc).
    rewrite Eq in *. set (tl := pr_words (v :: ws) ++ pr_redirs rs ++ rest) in *. cbn [parseargs]. rewrite peek_word, gettoken_word by done.
    cbn [Z.eqb]. rewrite Z.eqb_refl. cbn [negb]. rewrite (proj2 (Nat.leb_gt _ _)) by (cbn in Ha; lia). rewrite parseredirs_ws.
    rewrite length_app in Hf. cbn [length] in Hf. assert (Etl : exists t, tl = v ++ t) by (unfold tl, pr_words; cbn [map concat]; unfold pr_word; eexists; by rewrite <- !app_assoc).
    assert (Hno : parseredirs fuel tl = Ok ([], tl)).
    { destruct fuel as [|fuel]; [lia|]. destruct Etl as [t ->]. cbn [parseredirs]. by rewrite peek_word. }
    rewrite Hno. cbn [rbind]. destruct (IH (pre ++ w ++ [32]) v Hv fuel (S argc)) as (ws' & rs' & Ea & Hws' & Hrs').
    { cbn in Ha. lia. } { rewrite El. by rewrite <- !app_assoc. } { fold tl. lia. }
    fold tl in Ea. rewrite Ea. cbn [rbind app]. exists ((w ++ 32 :: tl, 32 :: tl) :: ws'), rs'. split_and!; [done| |done]. constructor; [|done]. split_and!; [done|by exists pre|by eexists].
Qed.

Lemma parseexec_ws fuel s : parseexec fuel (skip_ws s) = parseexec fuel s.
Proof. destruct fuel; [done|]. cbn [parseexec]. by rewrite peek_ws. Qed.
Lemma parsepipe_ws fuel s : parsepipe fuel (skip_ws s) = parsepipe fuel s.
Proof. destruct fuel; [done|]. cbn [parsepipe]. by rewrite parseexec_ws. Qed.
Lemma parseline_ws fuel s : parseline fuel (skip_ws s) = parseline fuel s.
Proof. destruct fuel; [done|]. cbn [parseline]. by rewrite parsepipe_ws. Qed.

(** The redirections behind a command, as parseexec and parseblock read them *)
Lemma redirs_head rs rest : Forall redir_ok rs -> rs <> [] -> exists c t, pr_redirs rs ++ rest = c :: t /\ (c = c_lt \/ c = c_gt).
Proof.
  intros Hok Hne. destruct rs as [|[[f m] d] rs]; [done|]. unfold pr_redirs. cbn [map concat pr_redir]. unfold sym.
  destruct (d =? 0); [eexists c_lt, _; split; [reflexivity|by left]|]. destruct (Z.testbit m 10); eexists c_gt, _; (split; [reflexivity|by right]).
Qed.
Lemma parse_redirs_all line pre rs rest : Forall redir_ok rs -> follow F0 rest -> line = pre ++ pr_redirs rs ++ rest ->
  exists rs', (let t := skip_ws (pr_redirs rs ++ rest) in parseredirs (S (length t)) t) = Ok (rs', skip_ws rest) /\ Forall2 (redir_spells line) rs rs'.
Proof.
  intros Hok Hf El. cbv zeta. destruct (decide (rs = [])) as [->|Hne].
  - exists []. split; [|constructor]. cbn [pr_redirs map concat app parseredirs]. rewrite peek_ws. by rewrite (peek_follow F0 rest).
  - destruct (redirs_head rs rest Hok Hne) as (c & t & E & Hc). assert (Es : skip_ws (pr_redirs rs ++ rest) = pr_redirs rs ++ rest) by (rewrite E; by destruct Hc as [-> | ->]).
    rewrite Es. apply (parse_redirs line pre); auto. by apply (peek_follow F0).
Qed.
Lemma peek_redirs rs rest toks : Forall redir_ok rs -> follow F0 rest -> forallb (fun c => negb (is_in toks c)) (c_lt :: c_gt :: F0) = true ->
  peek (pr_redirs rs ++ rest) toks = (false, skip_ws (pr_redirs rs ++ rest)).
Proof.
  intros Hok Hf Ht. destruct (decide (rs = [])) as [->|Hne].
  - apply (peek_follow F0); [done|]. cbn [forallb] in Ht. by apply andb_prop in Ht as [_ [_ ?]%andb_prop].
  - destruct (redirs_head rs rest Hok Hne) as (c & t & -> & Hc). apply (peek_follow [c_lt; c_gt]).
    + right. by destruct Hc as [-> | ->].
    + cbn [forallb] in Ht |- *. apply andb_prop in Ht as [-> [-> _]%andb_prop]. done.
Qed.

Definition claimE (c : cmd (list Z)) : Prop := forall line pre rs rest fuel, Forall redir_ok rs -> follow F0 rest ->
  line = pre ++ pr 0 c ++ pr_redirs rs ++ rest -> (4 * length (pr 0 c ++ pr_redirs rs ++ rest) + 2 <= fuel)%nat ->
  exists x, parseexec fuel (pr 0 c ++ pr_redirs rs ++ rest) = Ok (x, skip_ws rest) /\ cmd_spells line (add_redirs c rs) x.
Definition claimP (c : cmd (list Z)) : Prop := forall line pre rest fuel, follow F1 rest ->
  line = pre ++ pr 1 c ++ rest -> (4 * length (pr 1 c ++ rest) + 3 <= fuel)%nat ->
  exists x, parsepipe fuel (pr 1 c ++ rest) = Ok (x, skip_ws rest) /\ cmd_spells line c x.
Definition amps (n : nat) : list Z := concat (replicate n (sym c_amp)).
Definition claimB (c : cmd (list Z)) : Prop := forall line pre n rest fuel, follow F2 rest ->
  line = pre ++ pr 2 c ++ amps n ++ rest -> (4 * length (pr 2 c ++ amps n ++ rest) + 3 <= fuel)%nat ->
  exists x, rbind (parsepipe fuel (pr 2 c ++ amps n ++ rest)) (fun '(c, s) => parseback (S (length s)) c s) = Ok (x, skip_ws rest) /\
    cmd_spells line (Nat.iter n BACK c) x.
Definition claimL (c : cmd (list Z)) : Prop := forall line pre rest fuel, follow F3 rest ->
  line = pre ++ pr 3 c ++ rest -> (4 * length (pr 3 c ++ rest) + 4 <= fuel)%nat ->
  exists x, parseline fuel (pr 3 c ++ rest) = Ok (x, skip_ws rest) /\ cmd_spells line c x.

Lemma claimE_exec argv : Forall word_ok argv -> (length argv < MAXARGS)%nat -> claimE (EXEC argv).
Proof.
  intros Hok Hn line pre rs rest fuel Hrs Hf El Hfuel. destruct fuel as [|fuel]; [lia|]. clear Hfuel. cbn [parseexec pr]. destruct argv as [|w ws].
  - cbn [pr pr_words map concat app] in *. rewrite peek_redirs by done. destruct (parse_redirs_all line pre rs rest Hrs Hf El) as (rs' & Er & Hr). cbv zeta in Er. rewrite Er.
    cbn [rbind]. rewrite parseargs_ws, parseargs_stop by done. cbn [rbind]. rewrite app_nil_r. eexists. split; [done|]. apply add_redirs_spells; [constructor|done].
  - apply Forall_cons in Hok as [Hw Hws]. cbn [pr] in El. set (s := pr_words (w :: ws) ++ pr_redirs rs ++ rest) in *.
    assert (Es : exists t, s = w ++ t) by (unfold s, pr_words; cbn [map concat]; unfold pr_word; eexists; by rewrite <- !app_assoc).
    assert (Ep : forall toks, forallb (is_in symbols) toks = true -> peek s toks = (false, s)) by (destruct Es as [t ->]; intros toks Ht; by apply peek_word).
    rewrite Ep by done. cbn [parseredirs]. rewrite Ep by done. cbn [rbind app].
    destruct (parse_args line pre w ws rs rest (S (length s)) 0 Hw Hws Hrs Hf) as (ws' & rs' & Ea & Hw' & Hr'); [done|done|fold s; lia|].
    fold s in Ea. rewrite Ea. cbn [rbind]. eexists. split; [done|]. apply add_redirs_spells; [exact Hw'|exact Hr'].
Qed.

Lemma claimE_block c : pr 0 c = sym c_open ++ pr 3 c ++ sym c_close -> claimL c -> claimE c.
Proof.
  intros E0 HL line pre rs rest fuel Hrs Hf El Hfuel. rewrite E0 in *. unfold sym in *. rewrite <- !app_assoc in *. cbn [app] in *.
  set (tl := c_close :: 32 :: pr_redirs rs ++ rest) in *. set (body := pr 3 c ++ tl) in *. cbn [length] in Hfuel.
  destruct fuel as [|[|fuel]]; [lia|lia|]. cbn [parseexec]. rewrite peek_sym by done. cbn [parseblock]. rewrite peek_sym by done. cbn [negb].
  rewrite gettoken_sym by done. rewrite parseline_ws.
  destruct (HL line (pre ++ [c_open; 32]) tl fuel) as (x & Ex & Hx); [by apply follow_sym|by rewrite El, <- app_assoc|fold body; lia|].
  fold body in Ex. rewrite Ex. cbn [rbind]. rewrite peek_ws. unfold tl at 1. rewrite peek_sym by done. cbn [negb]. rewrite gettoken_sym by done.
  destruct (parse_redirs_all line (pre ++ [c_open; 32] ++ pr 3 c ++ [c_close; 32]) rs rest Hrs Hf) as (rs' & Er & Hr).
  { rewrite El. unfold body, tl. rewrite <- !app_assoc. cbn [app]. by rewrite <- ?app_assoc. }
  cbv zeta in Er. rewrite Er. cbn [rbind]. eexists. split; [done|]. by apply add_redirs_spells.
Qed.

Lemma claimP_exec c : pr 1 c = pr 0 c -> claimE c -> claimP c.
Proof.
  intros E HE line pre rest fuel Hf El Hfuel. rewrite E in *. destruct fuel as [|fuel]; [lia|]. cbn [parsepipe].
  destruct (HE line pre [] rest fuel) as (x & Ex & Hx); [constructor|by apply (follow_weaken F1)|done|cbn [pr_redirs map concat app]; lia|].
  cbn [pr_redirs map concat app] in Ex. rewrite Ex. cbn [rbind]. rewrite peek_ws, (peek_follow F1) by done. by exists x.
Qed.
Lemma claimP_pipe a b : claimE a -> claimP b -> claimP (PIPE a b).
Proof.
  intros HE HP line pre rest fuel Hf El Hfuel. cbn [pr pr_paren Nat.ltb Nat.leb] in *. rewrite <- !app_assoc in *. unfold sym in *. cbn [app] in *.
  set (tl := pr 1 b ++ rest) in *. destruct fuel as [|fuel]; [lia|]. rewrite length_app in Hfuel. cbn [length] in Hfuel. cbn [parsepipe].
  destruct (HE line pre [] (c_pipe :: 32 :: tl) fuel) as (x & Ex & Hx); [constructor|by apply follow_sym|done|cbn [pr_redirs map concat app]; rewrite length_app; cbn [length]; lia|].
  cbn [pr_redirs map concat app] in Ex. rewrite Ex. cbn [rbind]. rewrite peek_ws, peek_sym, gettoken_sym by done. rewrite parsepipe_ws.
  destruct (HP line (pre ++ pr 0 a ++ [c_pipe; 32]) rest fuel Hf) as (y & Ey & Hy); [rewrite El; by rewrite <- !app_assoc|fold tl; lia|].
  fold tl in Ey. rewrite Ey. cbn [rbind]. by exists (PIPE x y).
Qed.

Lemma parseback_ws fuel c s : parseback fuel c (skip_ws s) = parseback fuel c s.
Proof. destruct fuel; [done|]. cbn [parseback]. by rewrite peek_ws. Qed.

Lemma parse_back line n rest c x fuel : follow F2 rest -> cmd_spells line c x -> (length (amps n ++ rest) < fuel)%nat ->
  exists y, parseback fuel x (amps n ++ rest) = Ok (y, skip_ws rest) /\ cmd_spells line (Nat.iter n BACK c) y.
Proof.
  intros Hf. revert c x fuel. induction n as [|n IH]; intros c x fuel Hx Hfuel; (destruct fuel as [|fuel]; [lia|]).
  - cbn [amps replicate concat app parseback Nat.iter]. rewrite (peek_follow F2) by done. by exists x.
  - change (amps (S n)) with (sym c_amp ++ amps n) in *. unfold sym in *. cbn [app] in *. cbn [length] in Hfuel. cbn [parseback].
    rewrite peek_sym, gettoken_sym by done. rewrite parseback_ws. destruct (IH (BACK c) (BACK x) fuel) as (y & -> & Hy); [done|lia|].
    exists y. split; [done|]. by rewrite Nat.iter_succ_r.
Qed.

Lemma claimB_pipe c : pr 2 c = pr 1 c -> claimP c -> claimB c.
Proof.
  intros E HP line pre n rest fuel Hf El Hfuel. rewrite E in *.
  assert (Hf1 : follow F1 (amps n ++ rest)) by (destruct n; [by apply (follow_weaken F2)|by apply follow_sym]).
  destruct (HP line pre (amps n ++ rest) fuel Hf1 El Hfuel) as (x & Ex & Hx). rewrite Ex. cbn [rbind]. rewrite parseback_ws.
  destruct n as [|n].
  - cbn [amps replicate concat app parseback Nat.iter]. rewrite (peek_follow F2) by done. by exists x.
  - apply parse_back; [done|done|]. change (skip_ws (amps (S n) ++ rest)) with (amps (S n) ++ rest). lia.
Qed.
Lemma claimB_back c : claimB c -> claimB (BACK c).
Proof.
  intros HB line pre n rest fuel Hf El Hfuel. cbn [pr pr_paren Nat.ltb Nat.leb] in *. rewrite <- app_assoc in *.
  change (sym c_amp ++ amps n ++ rest) with (amps (S n) ++ rest) in *. destruct (HB line pre (S n) rest fuel Hf El Hfuel) as (x & Ex & Hx).
  exists x. split; [done|]. by rewrite <- Nat.iter_succ_r.
Qed.

Lemma claimL_back c : pr 3 c = pr 2 c -> claimB c -> claimL c.
Proof.
  intros E HB line pre rest fuel Hf El Hfuel. rewrite E in *. destruct fuel as [|fuel]; [lia|]. cbn [parseline].
  destruct (HB line pre 0%nat rest fuel) as (x & Ex & Hx); [by apply (follow_weaken F3)|done|cbn [amps replicate concat app]; lia|].
  cbn [amps replicate concat app] in Ex. apply rbind_Ok in Ex as ([c1 s1] & -> & Ex). cbn [rbind]. rewrite Ex. cbn [rbind].
  rewrite peek_ws, (peek_follow F3) by done. by exists x.
Qed.
Lemma claimL_list a b : claimB a -> claimL b -> claimL (LIST a b).
Proof.
  intros HB HL line pre rest fuel Hf El Hfuel. cbn [pr pr_paren Nat.ltb Nat.leb] in *. rewrite <- !app_assoc in *. unfold sym in *. cbn [app] in *.
  set (tl := pr 3 b ++ rest) in *. destruct fuel as [|fuel]; [lia|]. rewrite length_app in Hfuel. cbn [length] in Hfuel. cbn [parseline].
  destruct (HB line pre 0%nat (c_semi :: 32 :: tl) fuel) as (x & Ex & Hx); [by apply follow_sym|done|cbn [amps replicate concat app]; rewrite length_app; cbn [length]; lia|].
  cbn [amps replicate concat app] in Ex. apply rbind_Ok in Ex as ([c1 s1] & -> & Ex). cbn [rbind]. rewrite Ex. cbn [rbind].
  rewrite peek_ws, peek_sym, gettoken_sym by done. rewrite parseline_ws.
  destruct (HL line (pre ++ pr 2 a ++ [c_semi; 32]) rest fuel Hf) as (y & Ey & Hy); [rewrite El; by rewrite <- !app_assoc|fold tl; lia|].
  fold tl in Ey. rewrite Ey. cbn [rbind]. by exists (LIST x y).
Qed.

Lemma parse_printed c : cmd_ok c -> claimE c /\ claimP c /\ claimB c /\ claimL c.
Proof.
  induction c as [argv|c IH f m d|a IHa b IHb|a IHa b IHb|c IH]; cbn [cmd_ok]; intros Hok.
  - destruct Hok as [Hw Hn]. pose proof (claimE_exec argv Hw Hn) as HE. pose proof (claimP_exec (EXEC argv) eq_refl HE) as HP. pose proof (claimB_pipe (EXEC argv) eq_refl HP) as HB.
    pose proof (claimL_back (EXEC argv) eq_refl HB). auto.
  - destruct Hok as [Hc Hr]. destruct (IH Hc) as (HE & _).
    assert (HE' : claimE (REDIR c f m d)).
    { intros line pre rs rest fuel Hrs Hf El Hfuel. cbn [pr] in *. rewrite <- app_assoc in *. rewrite (app_assoc (pr_redir (f, m, d))) in *.
      change (pr_redir (f, m, d) ++ pr_redirs rs) with (pr_redirs ((f, m, d) :: rs)) in *. apply (HE line pre ((f, m, d) :: rs)); auto. }
    pose proof (claimP_exec (REDIR c f m d) eq_refl HE') as HP. pose proof (claimB_pipe (REDIR c f m d) eq_refl HP) as HB. pose proof (claimL_back (REDIR c f m d) eq_refl HB). auto.
  - destruct Hok as [Ha Hb]. destruct (IHa Ha) as (HEa & _), (IHb Hb) as (_ & HPb & _). pose proof (claimP_pipe a b HEa HPb) as HP.
    pose proof (claimB_pipe (PIPE a b) eq_refl HP) as HB. pose proof (claimL_back (PIPE a b) eq_refl HB) as HL. pose proof (claimE_block (PIPE a b) eq_refl HL). auto.
  - destruct Hok as [Ha Hb]. destruct (IHa Ha) as (_ & _ & HBa & _), (IHb Hb) as (_ & _ & _ & HLb). pose proof (claimL_list a b HBa HLb) as HL.
    pose proof (claimE_block (LIST a b) eq_refl HL) as HE. pose proof (claimP_exec (LIST a b) eq_refl HE) as HP. pose proof (claimB_pipe (LIST a b) eq_refl HP). auto.
  - destruct (IH Hok) as (_ & _ & HBc & _). pose proof (claimB_back c HBc) as HB. pose proof (claimL_back (BACK c) eq_refl HB) as HL.
    pose proof (claimE_block (BACK c) eq_refl HL) as HE. pose proof (claimP_exec (BACK c) eq_refl HE). auto.
Qed.

(** ** The words are C strings in the line *)
Fixpoint until_nul (l : list Z) : list Z :=
  match l with c :: l' => if c =? 0 then [] else c :: until_nul l' | [] => [] end.
(** The string a pointer into the line points to *)
Definition word_at (line : list Z) (x : span) : list Z := until_nul (drop (length line - 1 - length x.1) line).
Fixpoint cmd_map {V W} (f : V -> W) (c : cmd V) : cmd W :=
  match c with
  | EXEC argv => EXEC (map f argv)
  | REDIR c file m d => REDIR (cmd_map f c) (f file) m d
  | PIPE l r => PIPE (cmd_map f l) (cmd_map f r)
  | LIST l r => LIST (cmd_map f l) (cmd_map f r)
  | BACK c => BACK (cmd_map f c)
  end.
Fixpoint spans (c : cmd span) : list span :=
  match c with
  | EXEC argv => argv
  | REDIR c file _ _ => spans c ++ [file]
  | PIPE l r | LIST l r => spans l ++ spans r
  | BACK c => spans c
  end.

Lemma nulterminate_spans c line : nulterminate c line = fold_left terminate (spans c) line.
Proof.
  revert line. induction c as [argv|c IH f m d|a IHa b IHb|a IHa b IHb|c IH]; intros line; cbn [nulterminate spans]; rewrite ?fold_left_app; cbn [fold_left]; congruence.
Qed.

(** The positions of the ends of words in a line of [n] bytes and its NUL *)
Definition ends_at (n : nat) (ws : list span) : list nat := (fun x => n - length x.2)%nat <$> ws.

Lemma terminated_lookup ws line i : (i < length line)%nat ->
  length (fold_left terminate ws line) = length line /\
  fold_left terminate ws line !! i = if decide (i ∈ ends_at (length line - 1) ws) then Some 0 else line !! i.
Proof.
  revert line. induction ws as [|x ws IH]; intros line Hi; cbn [fold_left].
  - split; [done|]. rewrite decide_False; [done|]. apply not_elem_of_nil.
  - assert (Hlen : length (terminate line x) = length line) by (unfold terminate; by rewrite length_insert).
    destruct (IH (terminate line x)) as [Hl Hi']; [lia|]. rewrite Hlen in Hl, Hi'. split; [done|]. rewrite Hi'. unfold ends_at. cbn [fmap list_fmap].
    destruct (decide (i ∈ _)) as [Hex|Hno]; [by rewrite decide_True by (by right)|]. unfold terminate.
    destruct (decide (i = length line - 1 - length x.2)%nat) as [->|Hne].
    + rewrite list_lookup_insert_eq by lia. by rewrite decide_True by (by left).
    + rewrite list_lookup_insert_ne by done. rewrite decide_False; [done|]. rewrite elem_of_cons. tauto.
Qed.

Lemma until_nul_spec w l : Forall (fun c => c <> 0) w -> (forall j c, w !! j = Some c -> l !! j = Some c) -> l !! length w = Some 0 -> until_nul l = w.
Proof.
  revert l. induction w as [|c w IH]; intros l Hw Hj Hn.
  - destruct l as [|x l]; [done|]. cbn in Hn. by injection Hn as ->.
  - apply Forall_cons in Hw as [Hc Hw]. pose proof (Hj 0%nat c eq_refl) as H0. destruct l as [|x l]; [done|]. injection H0 as ->. cbn [until_nul].
    rewrite (proj2 (Z.eqb_neq _ _) Hc). f_equal. apply IH; [done| |done]. intros j y Hy. by apply (Hj (S j)).
Qed.

Lemma spells_pos s w x : spells s w x ->
  (forall j c, w !! j = Some c -> s !! (length s - length x.1 + j)%nat = Some c) /\ s !! (length s - length x.2)%nat = Some 32 /\
  (length s - length x.2 = length s - length x.1 + length w)%nat /\ (length x.1 <= length s)%nat.
Proof.
  intros (E1 & [pre E2] & t & E3). assert (Hl : (length s = length pre + length x.1)%nat) by (rewrite E2, length_app; lia).
  assert (Hl1 : (length x.1 = length w + length x.2)%nat) by (rewrite E1, length_app; lia). split_and!; [|  |lia|lia].
  - intros j c Hj. replace (length s - length x.1 + j)%nat with (length pre + j)%nat by lia. rewrite E2, lookup_app_r by lia.
    replace (length pre + j - length pre)%nat with j by lia. rewrite E1. by apply lookup_app_l_Some.
  - replace (length s - length x.2)%nat with (length pre + length w)%nat by lia. rewrite E2, lookup_app_r by lia.
    replace (length pre + length w - length pre)%nat with (length w) by lia. rewrite E1, lookup_app_r, Nat.sub_diag by lia. by rewrite E3.
Qed.

(** After all ends are overwritten every pointer points to its word. *)
Lemma terminated_word s ws xs w x : Forall2 (spells s) ws xs -> Forall word_ok ws -> spells s w x -> x ∈ xs -> word_ok w ->
  word_at (fold_left terminate xs (s ++ [0])) x = w.
Proof.
  intros Hf Hok Hx Hin [Hne Hw]. destruct (spells_pos s w x Hx) as (Hj & H32 & Hend & Hle).
  assert (Hlook : forall i, (i <= length s)%nat -> length (fold_left terminate xs (s ++ [0])) = S (length s) /\
            fold_left terminate xs (s ++ [0]) !! i = if decide (i ∈ ends_at (length s) xs) then Some 0 else (s ++ [0]) !! i).
  { intros i Hi. destruct (terminated_lookup xs (s ++ [0]) i) as [H1 H2]; [rewrite length_app; cbn; lia|]. rewrite length_app in H1, H2. cbn [length] in H1, H2.
    split; [lia|]. rewrite H2. replace (length s + 1 - 1)%nat with (length s) by lia. done. }
  unfold word_at. destruct (Hlook 0%nat ltac:(lia)) as [-> _]. replace (S (length s) - 1 - length x.1)%nat with (length s - length x.1)%nat by lia.
  apply until_nul_spec.
  - eapply Forall_impl; [exact Hw|]. by intros c [_ ?].
  - intros j c Hc. rewrite lookup_drop. pose proof (lookup_lt_Some _ _ _ Hc) as Hlt. specialize (Hj j c Hc).
    destruct (Hlook (length s - length x.1 + j)%nat ltac:(lia)) as [_ ->]. rewrite decide_False; [by apply lookup_app_l_Some|].
    intros Hy. apply list_elem_of_fmap in Hy as (y & Ey & Hy). apply list_elem_of_lookup in Hy as [k Hk]. destruct (Forall2_lookup_r _ _ _ _ _ Hf Hk) as (v & _ & Hv).
    destruct (spells_pos s v y Hv) as (_ & H32' & _). rewrite <- Ey, Hj in H32'. injection H32' as ->.
    rewrite Forall_forall in Hw. destruct (Hw 32) as [Hbad _]; [by eapply list_elem_of_lookup_2|done].
  - rewrite lookup_drop, <- Hend. destruct (Hlook (length s - length x.2)%nat ltac:(lia)) as [_ ->]. rewrite decide_True; [done|]. by apply (list_elem_of_fmap_2 (fun x => length s - length x.2)%nat).
Qed.

Fixpoint words_of (c : cmd (list Z)) : list (list Z) :=
  match c with
  | EXEC argv => argv
  | REDIR c file _ _ => words_of c ++ [file]
  | PIPE l r | LIST l r => words_of l ++ words_of r
  | BACK c => words_of c
  end.
Lemma cmd_spells_words s c x : cmd_spells s c x -> Forall2 (spells s) (words_of c) (spans x).
Proof.
  revert x. induction c as [argv|c IH f m d|a IHa b IHb|a IHa b IHb|c IH]; intros [argv'|c' f' m' d'|a' b'|a' b'|c']; cbn; try done.
  - intros [H1 H2]. apply Forall2_app; [auto|]. constructor; [apply H2|constructor].
  - intros [H1 H2]. apply Forall2_app; auto.
  - intros [H1 H2]. apply Forall2_app; auto.
  - auto.
Qed.
Lemma cmd_ok_words c : cmd_ok c -> Forall word_ok (words_of c).
Proof.
  induction c as [argv|c IH f m d|a IHa b IHb|a IHa b IHb|c IH]; cbn; rewrite ?Forall_app; try tauto.
  intros [H1 [H2 _]]. split; [auto|]. by apply Forall_singleton.
Qed.
Lemma cmd_map_spells s g c x : cmd_spells s c x -> (forall w y, spells s w y -> y ∈ spans x -> w ∈ words_of c -> g y = w) -> cmd_map g x = c.
Proof.
  revert x. induction c as [argv|c IH f m d|a IHa b IHb|a IHa b IHb|c IH]; intros [argv'|c' f' m' d'|a' b'|a' b'|c']; cbn [cmd_spells cmd_map spans words_of]; try done.
  - intros H Hg. f_equal. induction H as [|w y ws ys Hwy H IH]; [done|]. cbn [map]. f_equal; [apply Hg; [done|by left|by left]|].
    apply IH. intros w' y' Hs Hy Hw. apply Hg; [done|by right|by right].
  - intros [H1 (H2 & H3 & H4)] Hg. cbn in H2, H3, H4. subst. f_equal; [apply IH; [done|]|].
    + intros w y Hs Hy Hw. apply Hg; [done|rewrite elem_of_app; by left|rewrite elem_of_app; by left].
    + apply Hg; [done|rewrite elem_of_app; right; by left|rewrite elem_of_app; right; by left].
  - intros [H1 H2] Hg. f_equal; [apply IHa|apply IHb]; auto; intros w y Hs Hy Hw; apply Hg; rewrite ?elem_of_app; auto.
  - intros [H1 H2] Hg. f_equal; [apply IHa|apply IHb]; auto; intros w y Hs Hy Hw; apply Hg; rewrite ?elem_of_app; auto.
  - intros H Hg. f_equal. by apply IH.
Qed.

(** C12: parsing is the inverse of printing.  Any command that is written out,
    with parentheses where the grammar needs them, is parsed to the command it
    was, and after nulterminate every argument and file name of it is a C
    string in the line that spells the word. *)
Theorem parse_print_roundtrip c : cmd_ok c ->
  exists x line, parsecmd (pr 3 c) = Ok (x, line) /\ cmd_map (word_at line) x = c.
Proof.
  intros Hok. destruct (parse_printed c Hok) as (_ & _ & _ & HL).
  destruct (HL (pr 3 c) [] [] (S (4 * S (length (pr 3 c))))) as (x & Ex & Hx); [by left|by rewrite app_nil_r|rewrite app_nil_r; lia|].
  rewrite app_nil_r in Ex. unfold parsecmd. rewrite Ex. cbn [rbind peek skip_ws skip]. exists x, (nulterminate x (pr 3 c ++ [0])). split; [done|].
  pose proof (cmd_spells_words _ _ _ Hx) as Hws. pose proof (cmd_ok_words c Hok) as Hwo.
  apply (cmd_map_spells (pr 3 c)); [done|]. intros w y Hy Hin Hw. rewrite nulterminate_spans. eapply terminated_word; eauto.
  rewrite Forall_forall in Hwo. auto.
Qed.

(** ( a b ; c ) > d | e & *)
Abbreviation demo_cmd := (BACK (PIPE (REDIR (LIST (EXEC [[97]; [98]]) (EXEC [[99]])) [100] (Z.lor O_WRONLY (Z.lor O_CREATE O_TRUNC)) 1) (EXEC [[101]]))).
Lemma parse_print_roundtrip_witness :
  pr 3 demo_cmd = [40; 32; 97; 32; 98; 32; 59; 32; 99; 32; 41; 32; 62; 32; 100; 32; 124; 32; 101; 32; 38; 32] /\
  exists x line, parsecmd (pr 3 demo_cmd) = Ok (x, line) /\ cmd_map (word_at line) x = demo_cmd.
Proof.
  split; [vm_compute; reflexivity|]. apply parse_print_roundtrip. cbn [cmd_ok redir_ok]. unfold word_ok.
  split_and!; try (repeat constructor; vm_compute; congruence); cbn; unfold MAXARGS; lia.
Defined.
