(* ===== verification/Usys.v ===== *)
(** * User programs as the system calls they make

    A program is the tree of the system calls it may make: every call is
    followed by what the program does with its result.  Processes run
    programs in a pool, one system call at a time in any order; their
    descriptors are the table sys_open, sys_close, sys_dup, sys_pipe and fork
    of the kernel keep (fdalloc takes the lowest free slot).  A call that the
    kernel may refuse has both outcomes.

    [safe W] is the weakest precondition of a program for "every exec it or a
    process it forks ever makes is in [W]"; [safe_programs] lifts it to every
    pool that can be reached. *)

From stdpp Require Import relations.
From S2P Require Import Prelude Sysfile.

Inductive prog :=
  | PExit (status : Z)
  | PExec (path : list Z) (argv : list (list Z)) (k : prog)
  | POpen (path : list Z) (mode : Z) (k : Z -> prog)
  | PClose (fd : Z) (k : prog)
  | PDup (fd : Z) (k : prog)
  | PPipe (k : option (Z * Z) -> prog)
  | PFork (child : prog) (k : Z -> prog)
  | PWait (k : Z -> prog)
  | PRead (k : option Z -> prog)
  | PWrite (fd : Z) (bytes : list Z) (k : prog)
  | PMknod (path : list Z) (major minor : Z) (k : prog)
  | PChdir (path : list Z) (k : Z -> prog).

(** What a descriptor stands for.  Pipes are named by the process that made
    them and the number of its calls that made something before. *)
Inductive obj :=
  | Inherited (fd : nat)
  | Opened (path : list Z) (mode : Z)
  | PipeRead (pipe : list nat)
  | PipeWrite (pipe : list nat).
Abbreviation fdtable := (list (option obj)).

Definition closefd (fd : Z) (fds : fdtable) : fdtable := if fd <? 0 then fds else <[Z.to_nat fd := None]> fds.
Definition dupfd (fd : Z) (fds : fdtable) : fdtable :=
  match (if fd <? 0 then None else mjoin (fds !! Z.to_nat fd)) with
  | Some o => match fdalloc o fds with Some (_, fds) => fds | None => fds end
  | None => fds
  end.
Definition pipefds (p : list nat) (fds : fdtable) : option (nat * nat * fdtable) :=
  match fdalloc (PipeRead p) fds with
  | Some (r, fds) => match fdalloc (PipeWrite p) fds with Some (w, fds) => Some (r, w, fds) | None => None end
  | None => None
  end.

Inductive status := Running (p : prog) | Program (path : list Z) (argv : list (list Z)) | Exited (code : Z).
(** A process: its name, how many pipes and children it has made, its
    descriptors, what it does *)
Record process := mkP { pr_name : list nat; pr_next : nat; pr_fds : fdtable; pr_st : status }.
Abbreviation fresh name n := (name ++ [n]) (only parsing).

(** One system call of a process: the process after it, and its new child *)
Inductive sys_call (name : list nat) (n : nat) (fds : fdtable) : prog -> process -> option process -> Prop :=
  | c_exit c : sys_call name n fds (PExit c) (mkP name n (replicate (length fds) None) (Exited c)) None
  | c_exec path argv k : sys_call name n fds (PExec path argv k) (mkP name n fds (Program path argv)) None
  | c_exec_fails path argv k : sys_call name n fds (PExec path argv k) (mkP name n fds (Running k)) None
  | c_open path mode k fd fds' : fdalloc (Opened path mode) fds = Some (fd, fds') ->
      sys_call name n fds (POpen path mode k) (mkP name n fds' (Running (k (Z.of_nat fd)))) None
  | c_open_fails path mode k : sys_call name n fds (POpen path mode k) (mkP name n fds (Running (k (-1)))) None
  | c_close fd k : sys_call name n fds (PClose fd k) (mkP name n (closefd fd fds) (Running k)) None
  | c_dup fd k : sys_call name n fds (PDup fd k) (mkP name n (dupfd fd fds) (Running k)) None
  | c_pipe k r w fds' : pipefds (fresh name n) fds = Some (r, w, fds') ->
      sys_call name n fds (PPipe k) (mkP name (S n) fds' (Running (k (Some (Z.of_nat r, Z.of_nat w))))) None
  | c_pipe_fails k : sys_call name n fds (PPipe k) (mkP name n fds (Running (k None))) None
  | c_fork child k pid : 0 < pid ->
      sys_call name n fds (PFork child k) (mkP name (S n) fds (Running (k pid))) (Some (mkP (fresh name n) 0 fds (Running child)))
  | c_fork_fails child k : sys_call name n fds (PFork child k) (mkP name n fds (Running (k (-1)))) None
  | c_wait k r : sys_call name n fds (PWait k) (mkP name n fds (Running (k r))) None
  | c_read k r : sys_call name n fds (PRead k) (mkP name n fds (Running (k r))) None
  | c_write fd bytes k : sys_call name n fds (PWrite fd bytes k) (mkP name n fds (Running k)) None
  | c_mknod path major minor k : sys_call name n fds (PMknod path major minor k) (mkP name n fds (Running k)) None
  | c_chdir path k r : sys_call name n fds (PChdir path k) (mkP name n fds (Running (k r))) None.

Inductive pool_step : list process -> list process -> Prop :=
  | pool_call ps i name n fds p q child :
      ps !! i = Some (mkP name n fds (Running p)) -> sys_call name n fds p q child ->
      pool_step ps (<[i := q]> ps ++ option_list child).

(** ** Every exec is allowed *)
Section safe.
Context (W : list Z -> list (list Z) -> fdtable -> Prop).

Fixpoint safe (p : prog) (name : list nat) (n : nat) (fds : fdtable) : Prop :=
  match p with
  | PExit _ => True
  | PExec path argv k => W path argv fds /\ safe k name n fds
  | POpen path mode k =>
      (forall fd fds', fdalloc (Opened path mode) fds = Some (fd, fds') -> safe (k (Z.of_nat fd)) name n fds') /\ safe (k (-1)) name n fds
  | PClose fd k => safe k name n (closefd fd fds)
  | PDup fd k => safe k name n (dupfd fd fds)
  | PPipe k =>
      (forall r w fds', pipefds (fresh name n) fds = Some (r, w, fds') -> safe (k (Some (Z.of_nat r, Z.of_nat w))) name (S n) fds') /\
      safe (k None) name n fds
  | PFork child k => safe child (fresh name n) 0 fds /\ (forall pid, 0 < pid -> safe (k pid) name (S n) fds) /\ safe (k (-1)) name n fds
  | PWait k => forall r, safe (k r) name n fds
  | PRead k => forall r, safe (k r) name n fds
  | PWrite _ _ k | PMknod _ _ _ k => safe k name n fds
  | PChdir _ k => forall r, safe (k r) name n fds
  end.

Definition proc_safe (p : process) : Prop :=
  match pr_st p with
  | Running k => safe k (pr_name p) (pr_next p) (pr_fds p)
  | Program path argv => W path argv (pr_fds p)
  | Exited _ => True
  end.

Lemma call_safe name n fds p q child : sys_call name n fds p q child -> safe p name n fds -> proc_safe q /\ Forall proc_safe (option_list child).
Proof.
  unfold proc_safe. intros Hc. destruct Hc; cbn [safe pr_st pr_name pr_next pr_fds option_list]; intros Hs;
    split; try constructor; cbn [safe pr_st pr_name pr_next pr_fds]; try tauto; try (by constructor); try (by apply Hs); try (apply Hs; assumption).
Qed.

Lemma pool_safe ps qs : pool_step ps qs -> Forall proc_safe ps -> Forall proc_safe qs.
Proof.
  intros [ps' i name n fds p q child Hi Hc] H.
  pose proof (Forall_lookup_1 _ _ _ _ H Hi) as Hp. destruct (call_safe _ _ _ _ _ _ Hc Hp) as [Hq Hch].
  apply Forall_app. split; [by apply Forall_insert|done].
Qed.

(** Whatever the order of the calls and whichever of them fail, a program
    that runs has been allowed. *)
Lemma safe_programs ps qs i name n fds path argv : Forall proc_safe ps -> rtc pool_step ps qs ->
  qs !! i = Some (mkP name n fds (Program path argv)) -> W path argv fds.
Proof.
  intros H Hr Hi. assert (Hq : Forall proc_safe qs) by (induction Hr; eauto using pool_safe).
  apply (Forall_lookup_1 _ _ _ _ Hq Hi).
Qed.
End safe.

Lemma safe_weaken (W W' : list Z -> list (list Z) -> fdtable -> Prop) p : (forall path argv fds, W path argv fds -> W' path argv fds) ->
  forall name n fds, safe W p name n fds -> safe W' p name n fds.
Proof. intros HW. induction p; cbn [safe]; intros; naive_solver. Qed.

(** ** The run in which every call succeeds *)

(** The programs such a run executes: argument list and descriptors *)
Fixpoint execs (p : prog) (name : list nat) (n : nat) (fds : fdtable) : list (list (list Z) * fdtable) :=
  match p with
  | PExit _ => []
  | PExec _ argv _ => [(argv, fds)]
  | POpen path mode k => match fdalloc (Opened path mode) fds with Some (fd, fds) => execs (k (Z.of_nat fd)) name n fds | None => execs (k (-1)) name n fds end
  | PClose fd k => execs k name n (closefd fd fds)
  | PDup fd k => execs k name n (dupfd fd fds)
  | PPipe k => match pipefds (fresh name n) fds with Some (r, w, fds) => execs (k (Some (Z.of_nat r, Z.of_nat w))) name (S n) fds | None => execs (k None) name n fds end
  | PFork child k => execs child (fresh name n) 0 fds ++ execs (k 1) name (S n) fds
  | PWait k => execs (k 1) name n fds
  | PRead k => execs (k None) name n fds
  | PWrite _ _ k | PMknod _ _ _ k => execs k name n fds
  | PChdir _ k => execs (k 0) name n fds
  end.

Definition finished (p : process) : Prop := match pr_st p with Running _ => False | _ => True end.
Definition programs : list process -> list (list (list Z) * fdtable) :=
  omap (fun p => match pr_st p with Program _ argv => Some (argv, pr_fds p) | _ => None end).

(** Process [i] can be run to its end, with the children it makes. *)
Definition completes (ps : list process) (i : nat) (out : list (list (list Z) * fdtable)) : Prop :=
  exists q qs, rtc pool_step ps (<[i := q]> ps ++ qs) /\ Forall finished (q :: qs) /\ programs (q :: qs) ≡ₚ out.

Lemma completes_end ps i name n fds p q out : ps !! i = Some (mkP name n fds (Running p)) ->
  sys_call name n fds p q None -> finished q -> programs [q] = out -> completes ps i out.
Proof.
  intros Hi Hc Hq Ho. exists q, []. split_and!; [|by constructor|by rewrite Ho].
  apply rtc_once. change [] with (option_list (@None process)). by econstructor.
Qed.

Lemma completes_step ps i name n fds p q out : ps !! i = Some (mkP name n fds (Running p)) ->
  sys_call name n fds p q None -> completes (<[i := q]> ps) i out -> completes ps i out.
Proof.
  intros Hi Hc (q' & qs & Hr & Hf & Hp). exists q', qs. split_and!; [|done|done].
  eapply rtc_l; [by eapply pool_call|]. cbn [option_list]. rewrite app_nil_r. by rewrite list_insert_insert_eq in Hr.
Qed.

Lemma completes_fork ps i name n fds child k out out' : ps !! i = Some (mkP name n fds (Running (PFork child k))) ->
  (forall qs j, qs !! j = Some (mkP (fresh name n) 0 fds (Running child)) -> completes qs j out) ->
  (forall qs, qs !! i = Some (mkP name (S n) fds (Running (k 1))) -> completes qs i out') ->
  completes ps i (out ++ out').
Proof.
  intros Hi Hc Hk. pose proof (lookup_lt_Some _ _ _ Hi) as Hlt.
  set (q1 := mkP name (S n) fds (Running (k 1))). set (ps1 := <[i := q1]> ps). set (ch := mkP (fresh name n) 0 fds (Running child)).
  destruct (Hc (ps1 ++ [ch]) (length ps1)) as (qc & qcs & Hr1 & Hf1 & Hp1); [by rewrite list_lookup_middle|].
  rewrite insert_app_r_alt, Nat.sub_diag in Hr1 by lia. cbn [insert list_insert] in Hr1.
  destruct (Hk ((ps1 ++ [qc]) ++ qcs)) as (qp & qps & Hr2 & Hf2 & Hp2).
  { rewrite !lookup_app_l by (rewrite ?length_app; unfold ps1; rewrite ?length_insert; cbn; lia). unfold ps1. by apply list_lookup_insert_eq. }
  exists qp, (qc :: qcs ++ qps). split_and!.
  - eapply rtc_l; [eapply pool_call; [exact Hi|apply (c_fork _ _ _ _ _ 1); lia]|]. etransitivity; [exact Hr1|].
    assert (E : <[i := qp]> ((ps1 ++ [qc]) ++ qcs) ++ qps = <[i := qp]> ps ++ qc :: qcs ++ qps); [|by rewrite <- E].
    rewrite !insert_app_l by (rewrite ?length_app; unfold ps1; rewrite ?length_insert; cbn; lia).
    unfold ps1. by rewrite list_insert_insert_eq, <- !app_assoc.
  - inversion Hf2; subst. inversion Hf1; subst. repeat constructor; auto. by apply Forall_app.
  - rewrite <- Hp1, <- Hp2. unfold programs. change (qc :: qcs ++ qps) with ((qc :: qcs) ++ qps). change (qp :: (qc :: qcs) ++ qps) with ([qp] ++ (qc :: qcs) ++ qps). change (qp :: qps) with ([qp] ++ qps).
    rewrite !omap_app. solve_Permutation.
Qed.

(** The run exists and executes exactly the programs of [execs]. *)
Lemma execs_run p : forall name n fds ps i, ps !! i = Some (mkP name n fds (Running p)) -> completes ps i (execs p name n fds).
Proof.
  induction p as [c|path argv k IH|path mode k IH|fd k IH|fd k IH|k IH|child IHc k IH|k IH|k IH|fd bytes k IH|path ma mi k IH|path k IH];
    intros name n fds ps i Hi; cbn [execs]; pose proof (lookup_lt_Some _ _ _ Hi) as Hlt.
  - eapply completes_end; [exact Hi|constructor|done|done].
  - eapply completes_end; [exact Hi|constructor|done|done].
  - destruct (fdalloc _ fds) as [[fd fds']|] eqn:E; (eapply completes_step; [exact Hi|by constructor|apply IH, list_lookup_insert_eq; done]).
  - eapply completes_step; [exact Hi|by constructor|apply IH, list_lookup_insert_eq; done].
  - eapply completes_step; [exact Hi|by constructor|apply IH, list_lookup_insert_eq; done].
  - destruct (pipefds _ fds) as [[[r w] fds']|] eqn:E; (eapply completes_step; [exact Hi|by constructor|apply IH, list_lookup_insert_eq; done]).
  - eapply completes_fork; [exact Hi|intros; by apply IHc|intros; by apply IH].
  - eapply completes_step; [exact Hi|by constructor|apply IH, list_lookup_insert_eq; done].
  - eapply completes_step; [exact Hi|by constructor|apply IH, list_lookup_insert_eq; done].
  - eapply completes_step; [exact Hi|by constructor|apply IH, list_lookup_insert_eq; done].
  - eapply completes_step; [exact Hi|by constructor|apply IH, list_lookup_insert_eq; done].
  - eapply completes_step; [exact Hi|by constructor|apply IH, list_lookup_insert_eq; done].
Qed.

(** ** Strings of the source and writing them *)
Definition bytes (s : string) : list Z := map (fun c => Z.of_N (Stdlib.Strings.Ascii.N_of_ascii c)) (Stdlib.Strings.String.list_ascii_of_string s).
(** fprintf(fd, ...): putc of printf.c writes one byte at a time. *)
Definition fput (fd : Z) (s : list Z) (k : prog) : prog := foldr (fun c k => PWrite fd [c] k) k s.

Lemma fput_safe W fd s k name n fds : safe W k name n fds -> safe W (fput fd s k) name n fds.
Proof. intros H. induction s as [|c s IH]; [done|exact IH]. Qed.
Lemma fput_execs fd s k name n fds : execs (fput fd s k) name n fds = execs k name n fds.
Proof. induction s as [|c s IH]; [done|exact IH]. Qed.
