(* ===== verification/Shrun.v ===== *)
(** * The shell at work: runcmd, getcmd and main of user/sh.c, and init

    What the shell does with a parsed command is a tree of system calls
    (Usys).  [wiring] says which programs a command runs and what each of them
    has for its standard input, output and error; the theorems show that
    runcmd, with its close, dup, pipe and fork, sets up exactly that, in every
    interleaving of the processes and whichever of the calls fail, and that
    no program is given a descriptor more. *)

From stdpp Require Import relations.
From S2P Require Import Prelude Riscv Sysfile Sh Usys.

(** ** The code *)
Definition panic (s : list Z) : prog := fput 2 (s ++ [10]) (PExit 1).
(** fork1() == 0 in the child, the other branch in the parent *)
Definition fork1 (child parent : prog) : prog := PFork child (fun pid => if pid =? -1 then panic (bytes "fork") else parent).

(** A parsed command is never a null pointer. *)
Fixpoint runcmd (c : cmd (list Z)) : prog :=
  match c with
  | EXEC [] => PExit 1
  | EXEC (path :: args) => PExec path (path :: args) (fput 2 (bytes "exec " ++ path ++ bytes " failed" ++ [10]) (PExit 0))
  | REDIR c file mode fd =>
      PClose fd (POpen file mode (fun r =>
        if r <? 0 then fput 2 (bytes "open " ++ file ++ bytes " failed" ++ [10]) (PExit 1) else runcmd c))
  | LIST l r => fork1 (runcmd l) (PWait (fun _ => runcmd r))
  | PIPE l r =>
      PPipe (fun p =>
        match p with
        | None => panic (bytes "pipe")
        | Some (p0, p1) =>
            fork1 (PClose 1 (PDup p1 (PClose p0 (PClose p1 (runcmd l)))))
           (fork1 (PClose 0 (PDup p0 (PClose p0 (PClose p1 (runcmd r)))))
           (PClose p0 (PClose p1 (PWait (fun _ => PWait (fun _ => PExit 0))))))
        end)
  | BACK c => fork1 (runcmd c) (PExit 0)
  end.

(** gets of ulib.c, one read of descriptor 0 per byte *)
Fixpoint gets_calls (n : nat) (buf : list Z) (k : list Z -> prog) : prog :=
  match n with
  | O => k buf
  | S n' => PRead (fun r =>
      match r with
      | None => k buf
      | Some c => if (c =? 10) || (c =? 13) then k (buf ++ [c]) else gets_calls n' (buf ++ [c]) k
      end)
  end.
Definition nbuf : nat := 100.
Definition getcmd (eof : prog) (k : list Z -> prog) : prog :=
  PWrite 2 (bytes "$ ") (gets_calls (nbuf - 1) [] (fun buf => if nthZ buf 0 =? 0 then eof else k buf)).

(** parsecmd in the child: its panics end the child. *)
Definition run_line (buf : list Z) : prog :=
  match parsecmd (until_nul buf) with
  | Ok (c, line) => runcmd (cmd_map (word_at line) c)
  | Panic m => panic (bytes m)
  | Block => PExit 1
  end.
Definition is_cd (buf : list Z) : bool := (nthZ buf 0 =? 99) && (nthZ buf 1 =? 100) && (nthZ buf 2 =? 32).
(** buf[strlen(buf)-1] = 0, then buf+3 *)
Definition cd_path (buf : list Z) : list Z := drop 3 (removelast (until_nul buf)).

(** The first [fuel] commands of the loop *)
Fixpoint sh_loop (fuel : nat) : prog :=
  match fuel with
  | O => PExit 0
  | S fuel' => getcmd (PExit 0) (fun buf =>
      if is_cd buf then
        PChdir (cd_path buf) (fun r => if r <? 0 then fput 2 (bytes "cannot cd " ++ cd_path buf ++ [10]) (sh_loop fuel') else sh_loop fuel')
      else fork1 (run_line buf) (PWait (fun _ => sh_loop fuel')))
  end.
(** while((fd = open("console", O_RDWR)) >= 0) *)
Fixpoint three_fds (fuel : nat) (k : prog) : prog :=
  match fuel with
  | O => k
  | S fuel' => POpen (bytes "console") O_RDWR (fun fd => if fd <? 0 then k else if 3 <=? fd then PClose fd k else three_fds fuel' k)
  end.
Definition sh_main (fuel : nat) : prog := three_fds 4 (sh_loop fuel).

(** init.c: the first [fuel] rounds of its two loops; [pid] is the shell it
    waits for. *)
Definition sh_name : list Z := bytes "sh".
Fixpoint init_loop (fuel : nat) (pid : option Z) : prog :=
  match fuel with
  | O => PExit 0
  | S fuel' =>
      match pid with
      | None =>
          fput 1 (bytes "init: starting sh" ++ [10])
            (PFork (PExec sh_name [sh_name] (fput 1 (bytes "init: exec sh failed" ++ [10]) (PExit 1)))
               (fun pid => if pid <? 0 then fput 1 (bytes "init: fork failed" ++ [10]) (PExit 1) else init_loop fuel' (Some pid)))
      | Some pid =>
          PWait (fun wpid =>
            if wpid =? pid then init_loop fuel' None
            else if wpid <? 0 then fput 1 (bytes "init: wait returned an error" ++ [10]) (PExit 1)
            else init_loop fuel' (Some pid))
      end
  end.
Definition CONSOLE_major : Z := 1.
Definition init_main (fuel : nat) : prog :=
  let go := PDup 0 (PDup 0 (init_loop fuel None)) in
  POpen (bytes "console") O_RDWR (fun fd =>
    if fd <? 0 then PMknod (bytes "console") CONSOLE_major 0 (POpen (bytes "console") O_RDWR (fun _ => go)) else go).

(** ** What a command asks for *)
Record stdio := mkStdio { s_in : obj; s_out : obj; s_err : obj }.
(** A process with these three descriptors and no other *)
Definition std (t : stdio) : fdtable := Some (s_in t) :: Some (s_out t) :: Some (s_err t) :: replicate 13 None.
Definition redirect (fd : Z) (o : obj) (t : stdio) : stdio :=
  if fd =? 0 then mkStdio o (s_out t) (s_err t) else mkStdio (s_in t) o (s_err t).

(** The programs of a command run by process [name], which has made [n]
    children and pipes before, with their standard input, output and error *)
Fixpoint wiring (c : cmd (list Z)) (name : list nat) (n : nat) (t : stdio) : list (list (list Z) * stdio) :=
  match c with
  | EXEC [] => []
  | EXEC argv => [(argv, t)]
  | REDIR c file mode fd => wiring c name n (redirect fd (Opened file mode) t)
  | LIST l r => wiring l (fresh name n) 0 t ++ wiring r name (S n) t
  | PIPE l r =>
      wiring l (fresh name (S n)) 0 (redirect 1 (PipeWrite (fresh name n)) t) ++
      wiring r (fresh name (S (S n))) 0 (redirect 0 (PipeRead (fresh name n)) t)
  | BACK c => wiring c (fresh name n) 0 t
  end.

(** Redirections are of descriptor 0 or 1. *)
Fixpoint redirs_std {W} (c : cmd W) : Prop :=
  match c with
  | EXEC _ => True
  | REDIR c _ _ fd => (fd = 0 \/ fd = 1) /\ redirs_std c
  | PIPE l r | LIST l r => redirs_std l /\ redirs_std r
  | BACK c => redirs_std c
  end.

(** ** The plumbing *)
Lemma std_redirect fd o t : fd = 0 \/ fd = 1 -> fdalloc o (closefd fd (std t)) = Some (Z.to_nat fd, std (redirect fd o t)).
Proof. by intros [->| ->]. Qed.
Lemma std_open o t : fdalloc o (std t) = Some (3%nat, Some (s_in t) :: Some (s_out t) :: Some (s_err t) :: Some o :: replicate 12 None).
Proof. done. Qed.
Definition piped (p : list nat) (t : stdio) : fdtable :=
  Some (s_in t) :: Some (s_out t) :: Some (s_err t) :: Some (PipeRead p) :: Some (PipeWrite p) :: replicate 11 None.
Lemma std_pipe p t : pipefds p (std t) = Some (3%nat, 4%nat, piped p t).
Proof. done. Qed.
Lemma piped_left p t : closefd 4 (closefd 3 (dupfd 4 (closefd 1 (piped p t)))) = std (redirect 1 (PipeWrite p) t).
Proof. done. Qed.
Lemma piped_right p t : closefd 4 (closefd 3 (dupfd 3 (closefd 0 (piped p t)))) = std (redirect 0 (PipeRead p) t).
Proof. done. Qed.

(** Every exec of the command is in [W]. *)
Section runcmd.
Context (W : list Z -> list (list Z) -> fdtable -> Prop).

Lemma panic_safe s name n fds : safe W (panic s) name n fds.
Proof. by apply fput_safe. Qed.
Lemma fork1_safe child parent name n fds : safe W child (fresh name n) 0 fds -> safe W parent name (S n) fds -> safe W (fork1 child parent) name n fds.
Proof.
  intros Hc Hp. cbn [fork1 safe]. split_and!; [done| |apply panic_safe]. intros pid Hpid. bcase; [lia|done].
Qed.

Lemma runcmd_safe c : redirs_std c -> forall name n t,
  (forall path args t', (path :: args, t') ∈ wiring c name n t -> W path (path :: args) (std t')) ->
  safe W (runcmd c) name n (std t).
Proof.
  induction c as [argv|c IH f m fd|l IHl r IHr|l IHl r IHr|c IH]; cbn [redirs_std]; intros Hr name n t Hw.
  - destruct argv as [|path args]; cbn [runcmd safe]; [done|]. split; [|by apply fput_safe].
    apply Hw. cbn [wiring]. apply list_elem_of_singleton. done.
  - destruct Hr as [Hfd Hr]. cbn [runcmd safe]. split; [|apply fput_safe; done].
    intros fd' fds' E. rewrite std_redirect in E by done. simplify_eq. bcase; [lia|]. by apply IH.
  - destruct Hr as [Hl Hr]. cbn [runcmd safe]. split; [|apply panic_safe].
    intros p0 p1 fds' E. rewrite std_pipe in E. simplify_eq. apply fork1_safe; [|apply fork1_safe; [|done]].
    + cbn [safe]. rewrite piped_left. apply IHl; [done|]. intros. apply Hw. cbn [wiring]. apply elem_of_app. by left.
    + cbn [safe]. rewrite piped_right. apply IHr; [done|]. intros. apply Hw. cbn [wiring]. apply elem_of_app. by right.
  - destruct Hr as [Hl Hr]. cbn [runcmd]. apply fork1_safe; [apply IHl|cbn [safe]; intros _; apply IHr]; try done;
      intros; apply Hw; cbn [wiring]; apply elem_of_app; auto.
  - cbn [runcmd]. apply fork1_safe; [by apply IH|done].
Qed.
End runcmd.

(** ... and when nothing fails it makes all of them. *)
Lemma fork1_execs child parent name n fds :
  execs (fork1 child parent) name n fds = execs child (fresh name n) 0 fds ++ execs parent name (S n) fds.
Proof. done. Qed.
Lemma runcmd_execs c : redirs_std c -> forall name n t,
  execs (runcmd c) name n (std t) = map (fun x => (x.1, std x.2)) (wiring c name n t).
Proof.
  induction c as [argv|c IH f m fd|l IHl r IHr|l IHl r IHr|c IH]; cbn [redirs_std]; intros Hr name n t.
  - by destruct argv.
  - destruct Hr as [Hfd Hr]. cbn [runcmd execs wiring]. rewrite std_redirect by done. bcase; [lia|]. by apply IH.
  - destruct Hr as [Hl Hr]. cbn [runcmd execs wiring]. rewrite std_pipe, !fork1_execs. cbn [execs].
    change (Z.of_nat 3) with 3. change (Z.of_nat 4) with 4. rewrite piped_left, piped_right, IHl, IHr by done.
    by rewrite app_nil_r, map_app.
  - destruct Hr as [Hl Hr]. cbn [runcmd wiring]. rewrite fork1_execs. cbn [execs]. by rewrite IHl, IHr, map_app.
  - cbn [runcmd wiring]. rewrite fork1_execs, IH by done. cbn [execs]. by rewrite app_nil_r.
Qed.

(** ** Parsed commands redirect descriptors 0 and 1 only *)
Definition parses_std {W} (r : res (cmd W * list Z)) : Prop := forall c s, r = Ok (c, s) -> redirs_std c.
Definition redir_std (r : redir) : Prop := r.2 = 0 \/ r.2 = 1.

Lemma add_redirs_std rs : Forall redir_std rs -> forall c : cmd span, redirs_std c -> redirs_std (add_redirs c rs).
Proof.
  unfold add_redirs. induction 1 as [|[[f m] d] rs Hr _ IH]; intros c Hc; cbn [fold_left]; [done|]. apply IH. by split.
Qed.

Lemma redir_of_std tok f r : redir_of tok f = Some r -> redir_std r.
Proof. unfold redir_of, redir_std. repeat case_match; intros; simplify_eq; cbn; auto. Qed.

Lemma parseredirs_std fuel : forall s rs s', parseredirs fuel s = Ok (rs, s') -> Forall redir_std rs.
Proof.
  induction fuel as [|fuel IH]; intros s rs s' E; cbn [parseredirs] in E; [done|].
  destruct (peek s _) as [more s1]. destruct more; [|by simplify_eq; constructor].
  destruct (gettoken s1) as [[[tok q0] e0] s2], (gettoken s2) as [[[tok2 q] e] s3]. destruct (negb _); [done|].
  apply rbind_Ok in E as ([rs1 s4] & E1 & E). apply IH in E1.
  destruct (redir_of _ _) eqn:Er; simplify_eq; [constructor; [by eapply redir_of_std|done]|done].
Qed.

Lemma parseargs_std fuel : forall argc s args rs s', parseargs fuel argc s = Ok (args, rs, s') -> Forall redir_std rs.
Proof.
  induction fuel as [|fuel IH]; intros argc s args rs s' E; cbn [parseargs] in E; [done|].
  destruct (peek s _) as [stop s1]. destruct stop; [by simplify_eq; constructor|].
  destruct (gettoken s1) as [[[tok q] e] s2]. destruct (tok =? 0); [by simplify_eq; constructor|].
  destruct (negb _); [done|]. destruct (_ <=? _)%nat; [done|].
  apply rbind_Ok in E as ([rs1 s3] & E1 & E). apply rbind_Ok in E as ([[args1 rs2] s4] & E2 & E). simplify_eq.
  apply Forall_app. split; [by eapply parseredirs_std|by eapply IH].
Qed.

Lemma parseback_std fuel : forall c s, redirs_std c -> parses_std (parseback fuel c s).
Proof.
  induction fuel as [|fuel IH]; intros c s Hc x s' E; cbn [parseback] in E; [done|].
  destruct (peek s _) as [amp s1]. destruct amp; [|by simplify_eq].
  destruct (gettoken s1) as [[[tok q] e] s2]. eapply (IH (BACK c)); [exact Hc|exact E].
Qed.

Lemma parse_std fuel : forall s, parses_std (parseline fuel s) /\ parses_std (parsepipe fuel s) /\
  parses_std (parseexec fuel s) /\ parses_std (parseblock fuel s).
Proof.
  induction fuel as [|fuel IH]; intros s; [by repeat split|]. split_and!; intros x s' E; cbn [parseline parsepipe parseexec parseblock] in E.
  - apply rbind_Ok in E as ([c s1] & E1 & E). apply rbind_Ok in E as ([c2 s2] & E2 & E).
    apply (IH s) in E1. apply (parseback_std _ _ _ E1) in E2.
    destruct (peek s2 _) as [semi s3]. destruct semi; [|by simplify_eq]. destruct (gettoken s3) as [[[tok q] e] s4].
    apply rbind_Ok in E as ([r s5] & E3 & E). simplify_eq. split; [done|]. by apply (IH s4) in E3.
  - apply rbind_Ok in E as ([c s1] & E1 & E). apply (IH s) in E1.
    destruct (peek s1 _) as [bar s3]. destruct bar; [|by simplify_eq]. destruct (gettoken s3) as [[[tok q] e] s4].
    apply rbind_Ok in E as ([r s5] & E3 & E). simplify_eq. split; [done|]. by apply (IH s4) in E3.
  - destruct (peek s _) as [paren s1]. destruct paren; [by apply (IH s1) in E|].
    apply rbind_Ok in E as ([rs s2] & E1 & E). apply rbind_Ok in E as ([[args rs2] s3] & E2 & E). simplify_eq.
    apply add_redirs_std; [|done]. apply Forall_app. split; [by eapply parseredirs_std|by eapply parseargs_std].
  - destruct (peek s _) as [paren s1]. destruct (negb paren); [done|]. destruct (gettoken s1) as [[[tok q] e] s2].
    apply rbind_Ok in E as ([c s3] & E1 & E). apply (IH s2) in E1. destruct (peek s3 _) as [paren2 s4]. destruct (negb paren2); [done|].
    destruct (gettoken s4) as [[[tok2 q2] e2] s5]. apply rbind_Ok in E as ([rs s6] & E2 & E). simplify_eq.
    apply add_redirs_std; [by eapply parseredirs_std|done].
Qed.

Lemma parsecmd_std s c line : parsecmd s = Ok (c, line) -> redirs_std c.
Proof.
  unfold parsecmd. intros E. apply rbind_Ok in E as ([x rest] & E1 & E). destruct (parse_std (S (4 * S (length s))) s) as [HL _].
  apply HL in E1. destruct (peek rest []) as [b r]. destruct r; by simplify_eq.
Qed.

Lemma cmd_map_std {V W} (f : V -> W) c : redirs_std c -> redirs_std (cmd_map f c).
Proof. induction c; cbn [redirs_std cmd_map]; naive_solver. Qed.

(** ** The shell *)

(** What the shell may run: a program of some command of one of its lines,
    wired to the shell's own descriptors as that command says. *)
Definition typed (t : stdio) (path : list Z) (argv : list (list Z)) (fds : fdtable) : Prop :=
  exists buf x line k t', (length buf < nbuf)%nat /\ parsecmd (until_nul buf) = Ok (x, line) /\
    (argv, t') ∈ wiring (cmd_map (word_at line) x) [k] 0 t /\ fds = std t' /\ head argv = Some path.

Lemma gets_calls_safe W n : forall buf k name m fds,
  (forall b, (length b <= length buf + n)%nat -> safe W (k b) name m fds) -> safe W (gets_calls n buf k) name m fds.
Proof.
  induction n as [|n IH]; intros buf k name m fds Hk; cbn [gets_calls safe]; [apply Hk; lia|].
  intros [c|]; [|apply Hk; lia]. destruct (_ || _); [apply Hk; rewrite length_app; cbn; lia|].
  apply IH. intros b Hb. apply Hk. rewrite length_app in Hb. cbn in Hb. lia.
Qed.

Lemma run_line_safe t buf k : (length buf < nbuf)%nat -> safe (typed t) (run_line buf) [k] 0 (std t).
Proof.
  intros Hb. unfold run_line. destruct (parsecmd (until_nul buf)) as [[x line]|m|] eqn:E; [|apply panic_safe|done].
  apply runcmd_safe; [by eapply cmd_map_std, parsecmd_std|]. intros path args t' Ht.
  by exists buf, x, line, k, t'.
Qed.

Lemma sh_loop_safe t fuel : forall n, safe (typed t) (sh_loop fuel) [] n (std t).
Proof.
  induction fuel as [|fuel IH]; intros n; cbn [sh_loop]; [done|]. unfold getcmd. cbn [safe]. apply gets_calls_safe.
  intros buf Hb. cbn [length] in Hb. destruct (nthZ buf 0 =? 0); [done|]. destruct (is_cd buf).
  - cbn [safe]. intros r. destruct (r <? 0); [apply fput_safe|]; apply IH.
  - apply fork1_safe; [apply run_line_safe; unfold nbuf in *; lia|]. cbn [safe]. intros _. apply IH.
Qed.

Lemma sh_main_safe t fuel : safe (typed t) (sh_main fuel) [] 0 (std t).
Proof.
  unfold sh_main. cbn [three_fds safe]. split; [|apply sh_loop_safe]. intros fd fds E. rewrite std_open in E. simplify_eq.
  cbn [Z.of_nat Z.ltb Z.leb Z.compare safe]. apply sh_loop_safe.
Qed.

(** ** A pipeline sees its end of file *)

(** No program reads a pipe it could also write. *)
Definition no_loop (t : stdio) : Prop := forall p, s_in t = PipeRead p -> s_out t <> PipeWrite p /\ s_err t <> PipeWrite p.
(** The pipes in [t] are none that process [name] or a child of it can still make. *)
Definition old (name : list nat) (n : nat) (t : stdio) : Prop :=
  forall p j rest, In p [s_in t; s_out t; s_err t] -> (n <= j)%nat -> p <> PipeRead (name ++ j :: rest) /\ p <> PipeWrite (name ++ j :: rest).

Lemma old_child name n m t : old name n t -> (n <= m)%nat -> old (fresh name m) 0 t.
Proof. intros H Hm p j rest Hp _. rewrite <- app_assoc. by apply H. Qed.
Lemma old_later name n m t : old name n t -> (n <= m)%nat -> old name m t.
Proof. intros H Hm p j rest Hp Hj. apply H; [done|lia]. Qed.
Lemma old_redirect name n t fd o : old name n t ->
  (forall j rest, (n <= j)%nat -> o <> PipeRead (name ++ j :: rest) /\ o <> PipeWrite (name ++ j :: rest)) -> old name n (redirect fd o t).
Proof.
  intros H Ho p j rest Hp Hj. unfold redirect in Hp. destruct (fd =? 0); cbn [s_in s_out s_err In] in Hp;
    destruct Hp as [<-|[<-|[<-|[]]]]; auto; apply H; cbn [In]; auto.
Qed.
Lemma label_other (name : list nat) n m j rest : n <> m -> (fresh name n) <> (fresh name m) ++ j :: rest.
Proof. intros Hn E. rewrite <- app_assoc in E. apply app_inv_head in E. cbn in E. congruence. Qed.

Lemma no_loop_file fd path mode t : no_loop t -> no_loop (redirect fd (Opened path mode) t).
Proof. intros H p. unfold redirect. destruct (fd =? 0); cbn [s_in s_out s_err]; [done|]. intros E. by destruct (H p E). Qed.

Lemma wiring_no_loop c : redirs_std c -> forall name n t, no_loop t -> old name n t -> forall x, x ∈ wiring c name n t -> no_loop x.2.
Proof.
  induction c as [argv|c IH f m fd|l IHl r IHr|l IHl r IHr|c IH]; cbn [redirs_std wiring]; intros Hr name n t Ht Ho x Hx.
  - destruct argv; [by apply not_elem_of_nil in Hx|]. apply list_elem_of_singleton in Hx. by subst x.
  - destruct Hr as [Hfd Hr]. eapply (IH Hr); [| |exact Hx]; [by apply no_loop_file|by apply old_redirect].
  - destruct Hr as [Hl Hr]. apply elem_of_app in Hx as [Hx|Hx]; [eapply (IHl Hl); [| |exact Hx]|eapply (IHr Hr); [| |exact Hx]].
    + intros p E. cbn [redirect s_in s_out s_err Z.eqb] in *. split; [|by destruct (Ht p E)].
      intros [= <-]. destruct (Ho (s_in t) n []) as [H1 _]; [by left|lia|]. done.
    + apply old_redirect; [apply (old_child _ n); [done|lia]|]. intros j rest _. split; [done|].
      intros [= E]. apply label_other in E; [done|lia].
    + intros p E. cbn [redirect s_in s_out s_err Z.eqb] in *. injection E as <-.
      split; [destruct (Ho (s_out t) n [])|destruct (Ho (s_err t) n [])]; cbn [In]; auto; lia.
    + apply old_redirect; [apply (old_child _ n); [done|lia]|]. intros j rest _. split; [|done].
      intros [= E]. apply label_other in E; [done|lia].
  - destruct Hr as [Hl Hr]. apply elem_of_app in Hx as [Hx|Hx]; [eapply (IHl Hl); [| |exact Hx]|eapply (IHr Hr); [| |exact Hx]]; try done.
    + by apply (old_child _ n).
    + apply (old_later _ n); [done|lia].
  - eapply (IH Hr); [| |exact Hx]; [done|by apply (old_child _ n)].
Qed.

(** ** The theorems *)
Definition no_pipes (t : stdio) : Prop := forall o, In o [s_in t; s_out t; s_err t] -> match o with PipeRead _ | PipeWrite _ => False | _ => True end.


(** C38: a command is carried out: there is a run of runcmd in which every
    process ends or becomes a program, and the programs are exactly those of
    the command, each once, with the descriptors the command gives it. *)
Theorem command_runs c name n t : redirs_std c -> exists ps,
  rtc pool_step [mkP name n (std t) (Running (runcmd c))] ps /\ Forall finished ps /\
  programs ps ≡ₚ map (fun x => (x.1, std x.2)) (wiring c name n t).
Proof.
  intros Hc. destruct (execs_run (runcmd c) name n (std t) [mkP name n (std t) (Running (runcmd c))] 0%nat eq_refl) as (q & qs & Hr & Hf & Hp).
  exists (q :: qs). split_and!; [done|done|]. by rewrite Hp, runcmd_execs.
Qed.

(** a < f | b > g : a reads f and writes the pipe, b reads the pipe and writes g *)
Abbreviation tty := (mkStdio (Inherited 0) (Inherited 1) (Inherited 2)).
Abbreviation demo_pipe := (PIPE (REDIR (EXEC [[97]]) [102] 0 0) (REDIR (EXEC [[98]]) [103] 1 1)).
Lemma command_runs_witness : exists ps,
  rtc pool_step [mkP [0%nat] 0 (std tty) (Running (runcmd demo_pipe))] ps /\ Forall finished ps /\
  programs ps ≡ₚ [([[97]], std (mkStdio (Opened [102] 0) (PipeWrite [0%nat; 0%nat]) (Inherited 2)));
                  ([[98]], std (mkStdio (PipeRead [0%nat; 0%nat]) (Opened [103] 1) (Inherited 2)))].
Proof. apply (command_runs demo_pipe [0%nat] 0 tty). cbn. tauto. Defined.

(** The shell reads the line a, and its child becomes the program a. *)
Lemma one_call name n fds p q child rest ps : sys_call name n fds p q child ->
  rtc pool_step (q :: rest ++ option_list child) ps -> rtc pool_step (mkP name n fds (Running p) :: rest) ps.
Proof. intros Hc Hr. eapply rtc_l; [|exact Hr]. by apply (pool_call (mkP name n fds (Running p) :: rest) 0 name n fds p q child). Qed.
Lemma child_exec q name n fds path argv k : rtc pool_step [q; mkP name n fds (Running (PExec path argv k))] [q; mkP name n fds (Program path argv)].
Proof. eapply rtc_l; [apply (pool_call [q; mkP name n fds (Running (PExec path argv k))] 1 name n fds (PExec path argv k) (mkP name n fds (Program path argv)) None); [done|apply c_exec]|]. apply rtc_refl. Qed.


(** ** init *)
Abbreviation console := (Opened (bytes "console") O_RDWR).
Definition closed : fdtable := replicate (Z.to_nat NOFILE) None.
Definition init_execs (path : list Z) (argv : list (list Z)) (fds : fdtable) : Prop :=
  path = sh_name /\ argv = [sh_name] /\ (fds = std (mkStdio console console console) \/ fds = closed).

Lemma init_loop_safe fds : (fds = std (mkStdio console console console) \/ fds = closed) ->
  forall fuel pid name n, safe init_execs (init_loop fuel pid) name n fds.
Proof.
  intros Hf fuel. induction fuel as [|fuel IH]; intros pid name n; [done|]. cbn [init_loop]. destruct pid as [pid|].
  - cbn [safe]. intros r. destruct (r =? pid); [apply IH|]. destruct (r <? 0); [by apply fput_safe|apply IH].
  - apply fput_safe. cbn [safe]. split_and!; [done|by apply fput_safe| |by apply fput_safe].
    intros pid Hp. destruct (pid <? 0); [by apply fput_safe|apply IH].
Qed.

(** Init, started with no descriptor open, runs nothing but the shell, and
    runs it with the console as its standard input, output and error and
    nothing else open, the descriptors the shell's theorems start from; only
    when the console cannot be opened even after mknod has the shell no
    descriptor at all. *)
Theorem init_starts_shell fuel ps i name n fds path argv :
  rtc pool_step [mkP [] 0 closed (Running (init_main fuel))] ps ->
  ps !! i = Some (mkP name n fds (Program path argv)) ->
  path = sh_name /\ argv = [sh_name] /\ (fds = std (mkStdio console console console) \/ fds = closed).
Proof.
  intros Hr Hi. apply (safe_programs init_execs _ _ _ _ _ _ _ _) with (2 := Hr) (3 := Hi). apply Forall_singleton.
  unfold init_main. change (safe init_execs (init_main fuel) [] 0 closed). unfold init_main. cbn [safe]. split.
  - intros fd fds' E. vm_compute in E. injection E as <- <-. apply init_loop_safe. by left.
  - change (-1 <? 0) with true. cbn [safe]. split.
    + intros fd fds' E. vm_compute in E. injection E as <- <-. apply init_loop_safe. by left.
    + apply init_loop_safe. by right.
Qed.

Lemma init_starts_shell_witness : exists ps i name n fds path,
  rtc pool_step [mkP [] 0 closed (Running (init_main 1))] ps /\ ps !! i = Some (mkP name n fds (Program path [sh_name])) /\ path = sh_name.
Proof.
  destruct (execs_run (init_main 1) [] 0 closed [mkP [] 0 closed (Running (init_main 1))] 0%nat eq_refl) as (q & qs & Hr & _ & Hp).
  cbn [insert list_insert app] in Hr.
  assert (Hin : ([sh_name], std (mkStdio console console console)) ∈ programs (q :: qs)) by (rewrite Hp; vm_compute; left).
  apply list_elem_of_omap in Hin as ([name n fds st] & Hq & Hs). apply list_elem_of_lookup_1 in Hq as [i Hi]. cbn [pr_st pr_fds] in Hs.
  destruct st as [p|path argv|c]; try discriminate Hs. injection Hs as -> ->.
  exists (q :: qs), i, name, n, (std (mkStdio console console console)), path. split; [exact Hr|]. split; [exact Hi|].
  apply (proj1 (init_starts_shell 1 (q :: qs) i name n _ path _ Hr Hi)).
Defined.
