(* ===== verification/Coreutils.v ===== *)
(** * Small user programs: cat.c, wc.c, echo.c, fmtname of ls.c, util.c, top.c and children.c;
    and procdump, the listing the kernel prints itself

    read and write are arguments.  A read of [want] bytes gives the next bytes
    of the input, no bytes at its end, or fails ([None]); a write may take
    only part of what it is given.  Loops run on fuel, one step more than the
    input is long; [Block] is a loop cut short, which the theorems exclude. *)

From S2P Require Import Prelude Fs Proc ProcInfo Console Printf Sh Usys.

(** ** cat *)
Definition bufsz : nat := 512.
Fixpoint cat_loop {O} (fuel : nat) (read : nat -> list Z -> option (list Z * list Z)) (write : list Z -> O -> Z * O) (inp : list Z) (out : O) : res unit * O :=
  match fuel with
  | O => (Block, out)
  | S fuel' =>
      match read bufsz inp with
      | None => (Panic "cat: read error", out)
      | Some ([], _) => (Ok tt, out)
      | Some (chunk, inp) =>
          let '(r, out) := write chunk out in
          if r =? Z.of_nat (length chunk) then cat_loop fuel' read write inp out else (Panic "cat: write error", out)
      end
  end.
Definition cat {O} read (write : list Z -> O -> Z * O) (inp : list Z) (out : O) : res unit * O := cat_loop (S (length inp)) read write inp out.

(** ** wc *)
Record counts := mkCounts { w_l : Z; w_w : Z; w_c : Z; w_in : bool }.
Definition spaces : list Z := [32; 13; 9; 10; 11].
(** strchr(" \r\t\n\v", c) does not find a NUL. *)
Definition is_space (c : Z) : bool := existsb (Z.eqb c) spaces.
Definition wc_byte (s : counts) (b : Z) : counts :=
  let c := s32 (w_c s + 1) in
  let l := if b =? 10 then s32 (w_l s + 1) else w_l s in
  if is_space b then mkCounts l (w_w s) c false
  else if negb (w_in s) then mkCounts l (s32 (w_w s + 1)) c true
  else mkCounts l (w_w s) c (w_in s).
Fixpoint wc_loop (fuel : nat) (read : nat -> list Z -> option (list Z * list Z)) (inp : list Z) (s : counts) : res counts :=
  match fuel with
  | O => Block
  | S fuel' =>
      match read bufsz inp with
      | None => Panic "wc: read error"
      | Some ([], _) => Ok s
      | Some (chunk, inp) => wc_loop fuel' read inp (fold_left wc_byte chunk s)
      end
  end.
(** The three numbers it prints *)
Definition wc read (inp : list Z) : res (Z * Z * Z) :=
  let* s := wc_loop (S (length inp)) read inp (mkCounts 0 0 0 false) in Ok (w_l s, w_w s, w_c s).

(** ** echo: the arguments after argv[0] *)
Fixpoint echo (args : list (list Z)) : list Z :=
  match args with
  | [] => []
  | [a] => a ++ [10]
  | a :: args => a ++ [32] ++ echo args
  end.

(** ** fmtname of ls.c *)

(** for(p=path+strlen(path); p >= path && *p != '/'; p--); p++; *)
Fixpoint last_slash (path : list Z) (p : nat) : nat :=
  if nthZ path (Z.of_nat p) =? 47 then S p else match p with O => O | S p' => last_slash path p' end.
Definition fmtname (path : list Z) : list Z :=
  let p := drop (last_slash path (length path)) path in
  if DIRSIZ <=? Z.of_nat (length p) then p else p ++ replicate (Z.to_nat DIRSIZ - length p) 32.

(** ** util.c: the spaces behind a field *)
Definition p_state_name (s : procstate) : list Z :=
  bytes match s with
        | UNUSED => "UNUSED" | USED => "USED" | RUNNING => "RUNNING" | SLEEPING => "SLEEPING" | RUNNABLE => "RUNNABLE" | ZOMBIE => "ZOMBIE"
        end.
Definition blanks (n : Z) : list Z := replicate (Z.to_nat n) 32.
Definition adjust_str (str : list Z) (limit_size : Z) : list Z := blanks (limit_size - Z.of_nat (length str)).
(** while (n > 0) { n /= 10; num_len++; } ends after at most ten rounds. *)
Fixpoint num_len_loop (fuel : nat) (n : Z) : Z :=
  match fuel with
  | O => 0
  | S fuel' => if 0 <? n then num_len_loop fuel' (n / 10) + 1 else 0
  end.
Definition num_len (n : Z) : Z := (if n =? 0 then 1 else 0) + num_len_loop 32 n.
Definition adjust_int (n limit_size : Z) : list Z := blanks (limit_size - num_len n).
Definition adjust_hex (n limit_size : Z) : list Z := blanks (limit_size - num_len n - 2).

(** ** top.c and children.c: a line of the table *)
Definition put_d (n : Z) : list Z := default [] (uprintint (s32 n) 10 true).
Definition top_row (x : proc_info) : list Z :=
  let name := until_nul (pi_name x) in
  put_d (pi_pid x) ++ adjust_int (pi_pid x) 11 ++
  put_d (pi_ppid x) ++ adjust_int (pi_ppid x) 12 ++
  p_state_name (pi_state x) ++ adjust_str (p_state_name (pi_state x)) 13 ++
  name ++ adjust_str name 12 ++
  put_d (start_tick (pi_usage x)) ++ adjust_int (start_tick (pi_usage x)) 13 ++
  put_d (sum_of_ticks (pi_usage x)) ++ [10].
Definition top_print (t : listing) : list Z :=
  bytes "number of processes: " ++ put_d (ls_count t) ++ [10] ++
  bytes "PID        PPID        STATE        NAME        START        USAGE" ++ [10] ++
  concat (map top_row (take (Z.to_nat (ls_count t)) (ls_processes t))).
Definition child_row (x : proc_info) : list Z :=
  put_d (pi_pid x) ++ adjust_int (pi_pid x) 11 ++
  put_d (pi_ppid x) ++ adjust_int (pi_ppid x) 12 ++
  p_state_name (pi_state x) ++ adjust_str (p_state_name (pi_state x)) 13 ++
  until_nul (pi_name x) ++ [10].
Definition children_print (t : listing) : list Z :=
  bytes "number of children: " ++ put_d (ls_count t) ++ [10] ++ bytes "PID        PPID        STATE        NAME" ++ [10] ++
  concat (map child_row (take (Z.to_nat (ls_count t)) (ls_processes t))).

(** ** cat copies *)

(** A read gives the next bytes, none only at the end of the input, or fails. *)
Definition reads_next (read : nat -> list Z -> option (list Z * list Z)) : Prop :=
  forall want inp c r, read want inp = Some (c, r) -> inp = c ++ r /\ ((0 < want)%nat -> inp <> [] -> c <> []).
(** A write appends the first bytes and returns how many, or fails. *)
Definition writes_prefix (write : list Z -> list Z -> Z * list Z) : Prop :=
  forall b out, exists n, (n <= length b)%nat /\ (write b out).2 = out ++ take n b /\ ((write b out).1 = Z.of_nat n \/ (write b out).1 = -1).

Lemma cat_loop_spec read write fuel : reads_next read -> writes_prefix write -> forall inp out, (length inp < fuel)%nat ->
  let '(r, o) := cat_loop fuel read write inp out in
  exists n, o = out ++ take n inp /\ r <> Block /\ (r = Ok tt -> o = out ++ inp) /\
    ((forall want i, read want i <> None) -> (forall b o, (write b o).1 = Z.of_nat (length b)) -> r = Ok tt).
Proof.
  intros Hr Hw. induction fuel as [|fuel IH]; intros inp out Hf; [lia|]. cbn [cat_loop].
  destruct (read bufsz inp) as [[c inp']|] eqn:E.
  2: { exists 0%nat. rewrite take_0, app_nil_r. split_and!; try done. intros Hn. by destruct (Hn bufsz inp). }
  destruct (Hr _ _ _ _ E) as [-> Hne]. destruct c as [|x c].
  { destruct inp' as [|y inp']; [|exfalso; by apply Hne; [unfold bufsz; lia|..]]. exists 0%nat. cbn [app]. by rewrite take_0, !app_nil_r. }
  destruct (Hw (x :: c) out) as (n & Hn & Ho & Hcase). destruct (write (x :: c) out) as [r out1] eqn:Ew. cbn [fst snd] in *. subst out1.
  destruct (Z.eqb_spec r (Z.of_nat (length (x :: c)))) as [Hall|Hpart].
  - assert (Hn' : n = length (x :: c)) by (destruct Hcase; cbn [length] in *; lia). rewrite Hn', take_ge by lia.
    specialize (IH inp' (out ++ x :: c)). rewrite length_app in Hf. cbn [length] in Hf.
    destruct (cat_loop fuel read write inp' _) as [r' o']. destruct (IH ltac:(lia)) as (k & -> & Hb & Hok & Hsucc).
    exists (length (x :: c) + k)%nat. rewrite take_app_add, app_assoc. split_and!; try done. intros Hr'. rewrite Hok by done. by rewrite app_assoc.
  - exists n. rewrite take_app_le by done. split_and!; try done. intros _ Hfull. specialize (Hfull (x :: c) out). rewrite Ew in Hfull. done.
Qed.

(** Cat always ends.  What it has written is a beginning of its input,
    all of it when it reports no error, and it reports none unless a read
    fails or a write falls short. *)
Theorem cat_copies read write inp out : reads_next read -> writes_prefix write ->
  let '(r, o) := cat read write inp out in
  exists n, o = out ++ take n inp /\ r <> Block /\ (r = Ok tt -> o = out ++ inp) /\
    ((forall want i, read want i <> None) -> (forall b o, (write b o).1 = Z.of_nat (length b)) -> r = Ok tt).
Proof. intros Hr Hw. by apply cat_loop_spec; [..|lia]. Qed.

(** Reads of at most three bytes, writes that take everything *)
Definition short_read (want : nat) (inp : list Z) : option (list Z * list Z) := Some (take (want `min` 3) inp, drop (want `min` 3) inp).
Lemma short_reads : reads_next short_read.
Proof.
  intros want inp c r [= <- <-]. split; [by rewrite take_drop|]. intros Hw Hi H. apply (f_equal length) in H.
  rewrite length_take in H. destruct inp; [done|]. cbn in H. lia.
Qed.
Definition full_write (b out : list Z) : Z * list Z := (Z.of_nat (length b), out ++ b).
Lemma cat_copies_witness : cat short_read full_write [1; 2; 3; 4; 5] [9] = (Ok tt, [9; 1; 2; 3; 4; 5]).
Proof.
  pose proof (cat_copies short_read full_write [1; 2; 3; 4; 5] [9] short_reads) as H.
  assert (Hw : writes_prefix full_write) by (intros b out; exists (length b); split_and!; [lia|by rewrite take_ge|by left]).
  specialize (H Hw). destruct (cat short_read full_write [1; 2; 3; 4; 5] [9]) as [r o]. destruct H as (n & _ & _ & Hok & Hs).
  assert (r = Ok tt) as -> by (apply Hs; [by intros want i|done]). by rewrite Hok.
Defined.

(** ** wc counts *)

(** A word starts where a byte that is no space follows a space or nothing. *)
Definition starts_word (inp : list Z) (i : nat) : bool :=
  negb (is_space (nth i inp 0)) && match i with O => true | S j => is_space (nth j inp 0) end.
Definition count_words (inp : list Z) : Z := Z.of_nat (length (List.filter (starts_word inp) (seq 0 (length inp)))).
Definition newlines (inp : list Z) : Z := Z.of_nat (length (List.filter (Z.eqb 10) inp)).

Lemma count_words_snoc inp b : count_words (inp ++ [b]) =
  count_words inp + if negb (is_space b) && match last inp with Some c => is_space c | None => true end then 1 else 0.
Proof.
  unfold count_words. rewrite length_app. cbn [length]. rewrite Nat.add_1_r, seq_S, List.filter_app, length_app, Nat2Z.inj_add.
  f_equal.
  - f_equal. f_equal. apply List.filter_ext_in. intros i Hi%in_seq. unfold starts_word.
    rewrite app_nth1 by lia. destruct i as [|j]; [done|]. by rewrite app_nth1 by lia.
  - cbn [List.filter Nat.add]. unfold starts_word. rewrite app_nth2, Nat.sub_diag by lia. cbn [nth].
    destruct inp as [|x inp _] using rev_ind; [by destruct (negb _)|]. rewrite last_snoc, length_app. cbn [length].
    rewrite Nat.add_1_r. rewrite app_nth1 by (rewrite length_app; cbn; lia). rewrite app_nth2, Nat.sub_diag by lia. cbn [nth].
    by destruct (_ && _).
Qed.

Lemma newlines_snoc inp b : newlines (inp ++ [b]) = newlines inp + if b =? 10 then 1 else 0.
Proof.
  unfold newlines. rewrite List.filter_app, length_app, Nat2Z.inj_add. f_equal. cbn [List.filter]. rewrite Z.eqb_sym. by destruct (b =? 10).
Qed.

Lemma count_words_le inp : count_words inp <= Z.of_nat (length inp).
Proof. unfold count_words. pose proof (List.filter_length_le (starts_word inp) (seq 0 (length inp))). rewrite length_seq in *. lia. Qed.
Lemma newlines_le inp : newlines inp <= Z.of_nat (length inp).
Proof. unfold newlines. pose proof (List.filter_length_le (Z.eqb 10) inp). lia. Qed.

Lemma wc_fold inp : Z.of_nat (length inp) < 2 ^ 31 -> fold_left wc_byte inp (mkCounts 0 0 0 false) =
  mkCounts (newlines inp) (count_words inp) (Z.of_nat (length inp)) (match last inp with Some c => negb (is_space c) | None => false end).
Proof.
  induction inp as [|b inp IH] using rev_ind; intros Hl; [done|]. rewrite length_app in Hl. cbn [length] in Hl.
  rewrite fold_left_app, IH by lia. cbn [fold_left]. unfold wc_byte. cbn [w_l w_w w_c w_in].
  pose proof (count_words_le inp). pose proof (newlines_le inp).
  assert (0 <= count_words inp) by (unfold count_words; lia). assert (0 <= newlines inp) by (unfold newlines; lia).
  rewrite count_words_snoc, newlines_snoc, length_app, last_snoc, Nat2Z.inj_add. cbn [length]. rewrite !s32_small by lia.
  destruct (is_space b); cbn [negb andb].
  - f_equal; try lia. destruct (b =? 10); lia.
  - destruct (last inp) as [c|]; [destruct (is_space c)|]; cbn [negb andb]; f_equal; try lia; destruct (b =? 10); lia.
Qed.

Lemma wc_loop_spec read fuel : reads_next read -> (forall want i, read want i <> None) -> forall inp s, (length inp < fuel)%nat ->
  wc_loop fuel read inp s = Ok (fold_left wc_byte inp s).
Proof.
  intros Hr Hn. induction fuel as [|fuel IH]; intros inp s Hf; [lia|]. cbn [wc_loop].
  destruct (read bufsz inp) as [[c r]|] eqn:E; [|by destruct (Hn bufsz inp)]. destruct (Hr _ _ _ _ E) as [-> Hne].
  destruct c as [|x c]; [destruct r as [|y r]; [done|exfalso; by apply Hne; [unfold bufsz; lia|..]]|].
  rewrite length_app in Hf. cbn [length] in Hf. rewrite IH by lia. by rewrite fold_left_app.
Qed.

(** Wc ends, and whatever sizes read returns, also in the middle of a word,
    it prints the number of newlines, of words and of bytes of the input. *)
Theorem wc_counts read inp : reads_next read -> (forall want i, read want i <> None) -> Z.of_nat (length inp) < 2 ^ 31 ->
  wc read inp = Ok (newlines inp, count_words inp, Z.of_nat (length inp)).
Proof. intros Hr Hn Hl. unfold wc. rewrite wc_loop_spec by (done || lia). cbn [rbind]. by rewrite wc_fold. Qed.

(** The input ab cd, newline, e *)
Lemma wc_counts_witness : wc short_read [97; 98; 32; 99; 100; 10; 101] = Ok (1, 3, 7).
Proof. apply (wc_counts short_read [97; 98; 32; 99; 100; 10; 101] short_reads); [by intros want i|reflexivity]. Defined.

(** ** Names and tables *)
Lemma echo_joins a args : echo (a :: args) = a ++ concat (map (cons 32) args) ++ [10].
Proof.
  revert a. induction args as [|b args IH]; intros a; [done|]. change (echo (a :: b :: args)) with (a ++ [32] ++ echo (b :: args)).
  rewrite IH. cbn [map concat app]. by rewrite <- !app_assoc.
Qed.

(** The name begins behind the last slash, or at the beginning. *)
Lemma last_slash_spec path k : (k <= length path)%nat -> let p := last_slash path k in
  (p <= S k)%nat /\ (forall i, (p <= i <= k)%nat -> nthZ path (Z.of_nat i) <> 47) /\ (p = 0%nat \/ nthZ path (Z.of_nat (p - 1)) = 47).
Proof.
  induction k as [|k IH]; intros Hk; cbn [last_slash]; match goal with |- context [?a =? 47] => destruct (Z.eqb_spec a 47) as [E|E] end.
  - split_and!; [lia|intros i Hi; lia|by right].
  - split_and!; [lia|intros i Hi; by replace i with 0%nat by lia|by left].
  - split_and!; [lia|intros i Hi; lia|right]. by replace (S (S k) - 1)%nat with (S k) by lia.
  - destruct IH as (H1 & H2 & H3); [lia|]. split_and!; [lia| |done]. intros i Hi. destruct (decide (i = S k)) as [->|]; [done|]. apply H2. lia.
Qed.

Lemma fmtname_spec path : exists dir name, path = dir ++ name /\ ~ (47 ∈ name) /\ (dir = [] \/ last dir = Some 47) /\
  fmtname path = name ++ replicate (Z.to_nat DIRSIZ - length name) 32.
Proof.
  destruct (last_slash_spec path (length path)) as (H1 & H2 & H3); [lia|]. set (p := last_slash path (length path)) in *.
  assert (Hp : (p <= length path)%nat).
  { destruct H3 as [->|H3]; [lia|]. destruct (decide (p <= length path)%nat); [done|]. exfalso. revert H3.
    unfold nthZ. rewrite lookup_ge_None_2 by lia. done. }
  exists (take p path), (drop p path). split_and!; [by rewrite take_drop| | |].
  - intros Hin. apply list_elem_of_lookup_1 in Hin as [i Hi]. rewrite lookup_drop in Hi. pose proof (lookup_lt_Some _ _ _ Hi).
    apply (H2 (p + i)%nat); [lia|]. unfold nthZ. rewrite Nat2Z.id, Hi. done.
  - destruct H3 as [->|H3]; [by left|]. destruct (decide (p = 0%nat)) as [->|Hp0]; [by left|right].
    rewrite last_lookup, length_take. replace (Init.Nat.pred (p `min` length path)) with (p - 1)%nat by lia.
    rewrite lookup_take_lt by lia. unfold nthZ in H3. rewrite Nat2Z.id in H3. destruct (path !! (p - 1)%nat) eqn:E; [cbn in H3; congruence|done].
  - unfold fmtname. fold p. bcase; [|done]. rewrite (proj2 (Nat.sub_0_le _ _)) by lia. by rewrite app_nil_r.
Qed.

(** [pad w s]: a field of width [w] *)
Definition pad (w : nat) (s : list Z) : list Z := s ++ replicate (w - length s) 32.

Lemma num_len_digits fuel n : 0 < n -> num_len_loop fuel n = Z.of_nat (length (digits_loop fuel udigits 10 n)).
Proof.
  revert n. induction fuel as [|fuel IH]; intros n Hn; [done|]. cbn [num_len_loop digits_loop length]. bcase; [|lia].
  destruct (Z.eqb_spec (n / 10) 0) as [E|E]; [|rewrite IH by zsolve; lia].
  rewrite E. by destruct fuel.
Qed.

Lemma digits_fuel f g n : 0 <= n < 10 ^ Z.of_nat f -> (f <= g)%nat -> (0 < f)%nat -> digits_loop g udigits 10 n = digits_loop f udigits 10 n.
Proof.
  revert g n. induction f as [|f IH]; intros [|g] n Hn Hfg H0; try lia. cbn [digits_loop]. f_equal.
  destruct (Z.eqb_spec (n / 10) 0) as [|E]; [done|]. rewrite Nat2Z.inj_succ, Z.pow_succ_r in Hn by lia.
  destruct f as [|f]; [change (10 ^ Z.of_nat 0) with 1 in Hn; zsolve|]. apply IH; [zsolve|lia|lia].
Qed.

Lemma digits_len f n : (length (digits_loop f udigits 10 n) <= f)%nat.
Proof.
  revert n. induction f as [|f IH]; intros n; cbn [digits_loop length]; [lia|].
  destruct (_ =? 0); cbn [length]; [lia|]. specialize (IH (n / 10)). lia.
Qed.

(** A number of at most 31 bits and the spaces behind it fill the field. *)
Lemma adjust_int_pads n w : 0 <= n < 2 ^ 31 -> put_d n ++ adjust_int n (Z.of_nat w) = pad w (put_d n).
Proof.
  intros Hn. assert (E : put_d n = rev (digits_loop 32 udigits 10 n)).
  { unfold put_d, uprintint. rewrite s32_small by lia. bcase; [lia|]. cbn [andb]. rewrite u32_small by lia. unfold send_number.
    rewrite app_nil_r, (digits_fuel 10 64), (digits_fuel 10 32) by (change (10 ^ Z.of_nat 10) with 10000000000; lia).
    pose proof (digits_len 10 n). by rewrite (proj2 (Nat.leb_le _ _)) by (unfold BUFSIZE; lia). }
  unfold pad, adjust_int, blanks. f_equal. rewrite E, length_rev. f_equal. unfold num_len.
  destruct (Z.eqb_spec n 0) as [->|Hn0].
  { change (num_len_loop 32 0) with 0. change (length (digits_loop 32 udigits 10 0)) with 1%nat. lia. }
  rewrite num_len_digits by lia. lia.
Qed.

Lemma adjust_str_pads s w : s ++ adjust_str s (Z.of_nat w) = pad w s.
Proof. unfold adjust_str, blanks, pad. f_equal. f_equal. lia. Qed.

(** A line of top is its fields, each padded to the width of the heading. *)
Lemma top_row_columns x : 0 <= pi_pid x < 2 ^ 31 -> 0 <= pi_ppid x < 2 ^ 31 -> 0 <= start_tick (pi_usage x) < 2 ^ 31 ->
  top_row x = pad 11 (put_d (pi_pid x)) ++ pad 12 (put_d (pi_ppid x)) ++ pad 13 (p_state_name (pi_state x)) ++
    pad 12 (until_nul (pi_name x)) ++ pad 13 (put_d (start_tick (pi_usage x))) ++ put_d (sum_of_ticks (pi_usage x)) ++ [10].
Proof.
  intros. unfold top_row. rewrite <- !adjust_int_pads, <- !adjust_str_pads by done. by rewrite <- !app_assoc.
Qed.

(** adjust_hex counts decimal digits: 255 is 0xFF, four characters, but gets
    five spaces in a field of ten. *)
Lemma adjust_hex_255 : uprintint 255 16 false = Some [70; 70] /\ length (adjust_hex 255 10) = 5%nat.
Proof. done. Qed.

(** ** procdump of kernel/proc.c, through the kernel's printf *)
Definition state_text (s : procstate) : list Z :=
  bytes match s with
        | UNUSED => "unused" | USED => "used" | SLEEPING => "sleep " | RUNNABLE => "runble" | RUNNING => "run   " | ZOMBIE => "zombie"
        end.
(** printf("%d %s %s", p->pid, state, p->name): the strings are at 1 and 2. *)
Definition dump_line (p : proc) : option (list Z) :=
  printf (fun a => if a =? 1 then state_text (p_state p) else until_nul (p_name p)) (bytes "%d %s %s")
    (fun k => match k with O => p_pid p | S O => 1 | _ => 2 end).
Definition newline : option (list Z) := printf (fun _ => []) [10] (fun _ => 0).
Fixpoint procdump_loop (ps : list proc) : option (list Z) :=
  match ps with
  | [] => Some []
  | p :: ps =>
      if is_state p UNUSED then procdump_loop ps
      else match dump_line p, newline, procdump_loop ps with Some a, Some b, Some c => Some (a ++ b ++ c) | _, _, _ => None end
  end.
Definition procdump (ps : list proc) : option (list Z) :=
  match newline, procdump_loop ps with Some a, Some b => Some (a ++ b) | _, _ => None end.

(** What reaches the console for a process *)
Definition dumped (p : proc) : list Z :=
  concat (map consputc (default [] (kprintint (s32 (p_pid p)) 10 true) ++ [32] ++ state_text (p_state p) ++ [32] ++ until_nul (p_name p) ++ [10])).

Lemma dump_line_text p : - 2 ^ 31 <= p_pid p < 2 ^ 31 -> exists a, dump_line p = Some a /\ a ++ concat (map consputc [10]) = dumped p.
Proof.
  intros Hp. destruct (kprintint (s32 (p_pid p)) 10 true) as [d|] eqn:Ed.
  2: { rewrite s32_small in Ed by lia. destruct (kprintint_overflow (p_pid p) 10 true) as (_ & Hfit & _); [lia|lia|]. exfalso. apply Hfit; [left; lia|exact Ed]. }
  eexists. split.
  - unfold dump_line, printf. change (bytes "%d %s %s") with [37; 100; 32; 37; 115; 32; 37; 115]. cbn -[kprintint s32 consputc state_text until_nul]. rewrite Ed. reflexivity.
  - unfold dumped. rewrite Ed. cbn [default]. rewrite <- concat_app, <- map_app. f_equal. f_equal. cbn [app]. rewrite <- app_assoc. cbn [app]. by rewrite <- app_assoc, app_nil_r.
Qed.

(** procdump prints a line for each slot in use and for no other, and the
    buffer of printint holds every pid. *)
Lemma procdump_lines ps : Forall (fun p => - 2 ^ 31 <= p_pid p < 2 ^ 31) ps ->
  procdump ps = Some (concat (map consputc [10]) ++ concat (map dumped (List.filter (fun p => negb (is_state p UNUSED)) ps))).
Proof.
  intros Hps. unfold procdump. change newline with (Some (concat (map consputc [10]))).
  assert (E : procdump_loop ps = Some (concat (map dumped (List.filter (fun p => negb (is_state p UNUSED)) ps)))); [|by rewrite E].
  induction Hps as [|p ps Hp _ IH]; [done|]. cbn [procdump_loop List.filter]. destruct (is_state p UNUSED); cbn [negb]; [done|].
  destruct (dump_line_text p Hp) as (a & -> & Ha). change newline with (Some (concat (map consputc [10]))). rewrite IH. f_equal. rewrite app_assoc, Ha. done.
Qed.
