(* ===== verification/Mkfs.v ===== *)
(** * The image builder: mkfs/mkfs.c

    mkfs runs on the build host and writes the disk image the kernel boots
    from.  The image file is the list of its blocks: every write is one block
    long and block aligned, writing behind the end extends the file, and
    reading there is a short read, on which mkfs dies.  A file of the command
    line is its path and what read returned for it, chunk by chunk ([None] when
    it cannot be opened).  The host is little endian, as the direct uses of sb
    in mkfs.c assume.  [Panic] stands for a failed assert and for die. *)

From S2P Require Import Prelude Riscv Cstring Sleeplock Block Log Txn Fs.

Definition NINODES : Z := 200.
Definition nbitmap : Z := FSSIZE / BPB + 1.
Definition ninodeblocks : Z := NINODES / IPB + 1.
Definition nlog : Z := LOGSIZE.
Definition nmeta : Z := 2 + nlog + ninodeblocks + nbitmap.
Definition nblocks : Z := FSSIZE - nmeta.

(** convert to riscv byte order *)
Definition xshort (x : Z) : Z := le_decode (le_encode 2 (u16 x)).
Definition xint (x : Z) : Z := le_decode (le_encode 4 (u32 x)).

(** The super block, and its bytes. *)
Definition mkfs_sb : superblock :=
  mkSb FSMAGIC (xint FSSIZE) (xint nblocks) (xint NINODES) (xint nlog) (xint 2) (xint (2 + nlog)) (xint (2 + nlog + ninodeblocks)).
Definition sb_bytes (sb : superblock) : list Z :=
  concat (le_encode 4 <$> [sb_magic sb; sb_size sb; sb_nblocks sb; sb_ninodes sb; sb_nlog sb; sb_logstart sb; sb_inodestart sb; sb_bmapstart sb]).

(** fsfd, freeinode and freeblock *)
Record image := mkImage { im_file : list block; freeinode : Z; freeblock : Z }.
Definition set_file (im : image) (f : list block) : image := mkImage f (freeinode im) (freeblock im).
Definition bump_inode (im : image) : image := mkImage (im_file im) (u32 (freeinode im + 1)) (freeblock im).
Definition bump_block (im : image) : image := mkImage (im_file im) (freeinode im) (u32 (freeblock im + 1)).

(** ** Sectors *)

(** lseek(fsfd, sec * BSIZE, 0), in blocks; the product is a uint. *)
Definition sector (sec : Z) : nat := Z.to_nat (u32 (sec * BSIZE) / BSIZE).

Definition wsect (sec : Z) (buf : block) (im : image) : image :=
  let f := im_file im in
  set_file im (if decide (sector sec < length f)%nat then <[sector sec := buf]> f
               else f ++ replicate (sector sec - length f) zero_block ++ [buf]).

Definition rsect (sec : Z) (im : image) : res block :=
  match im_file im !! sector sec with Some d => Ok d | None => Panic "read" end.

(** ** Inodes *)

(** struct dinode *)
Record dinode := mkD { d_type : Z; d_major : Z; d_minor : Z; d_nlink : Z; d_size : Z; d_addrs : list Z }.
Definition set_daddrs (d : dinode) (a : list Z) : dinode := mkD (d_type d) (d_major d) (d_minor d) (d_nlink d) (d_size d) a.
Definition set_dsize (d : dinode) (n : Z) : dinode := mkD (d_type d) (d_major d) (d_minor d) (d_nlink d) n (d_addrs d).

(** The fields stored by *dip = *ip and loaded by *ip = *dip. *)
Definition as_inode (inum : Z) (d : dinode) : inode :=
  mkInode 0 inum 0 initsleeplock false (d_type d) (d_major d) (d_minor d) (d_nlink d) (d_size d) (d_addrs d).
Definition dinode_get (buf : block) (inum : Z) : dinode :=
  let o := dip inum in
  mkD (get16 buf o) (get16 buf (o + 2)) (get16 buf (o + 4)) (get16 buf (o + 6)) (getu32 buf (o + 8)) (get_addrs buf o).

Definition winode (inum : Z) (ip : dinode) (im : image) : res image :=
  let bn := IBLOCK inum mkfs_sb in
  let* buf := rsect bn im in
  Ok (wsect bn (dinode_put buf (as_inode inum ip)) im).

Definition rinode (inum : Z) (im : image) : res dinode :=
  let bn := IBLOCK inum mkfs_sb in
  let* buf := rsect bn im in
  Ok (dinode_get buf inum).

Definition mkfs_ialloc (type : Z) (im : image) : res (Z * image) :=
  let inum := freeinode im in
  let im := bump_inode im in
  let din := mkD (s16 (xshort type)) 0 0 (s16 (xshort 1)) (xint 0) (replicate 13 0) in
  let* im := winode inum din im in
  Ok (inum, im).

(** ** The bitmap *)

(** for(i = 0; i < used; i++) *)
Fixpoint fill_bits (k : nat) (i : Z) (buf : block) : block :=
  match k with
  | O => buf
  | S k' => fill_bits k' (i + 1) (bit_set buf i)
  end.

Definition mkfs_balloc (used : Z) (im : image) : res image :=
  if negb (used <? BPB) then Panic "assert used < BPB"
  else Ok (wsect (sb_bmapstart mkfs_sb) (fill_bits (Z.to_nat used) 0 zero_block) im).

(** ** Appending to a file *)

(** The entry of the indirect block for block [fbn], allocated when missing. *)
Definition indirect_entry (fbn : Z) (din : dinode) (im : image) : res (Z * dinode * image) :=
  let ind := xint (nthZ (d_addrs din) NDIRECT) in
  let* indirect := rsect ind im in
  let '(indirect, im) :=
    if getu32 indirect (4 * (fbn - NDIRECT)) =? 0
    then let indirect := put32 indirect (4 * (fbn - NDIRECT)) (xint (freeblock im)) in
         (indirect, wsect ind indirect (bump_block im))
    else (indirect, im) in
  Ok (xint (getu32 indirect (4 * (fbn - NDIRECT))), din, im).

(** The block of the file that holds block [fbn], allocated when missing. *)
Definition iappend_block (fbn : Z) (din : dinode) (im : image) : res (Z * dinode * image) :=
  if fbn <? NDIRECT then
    let '(din, im) :=
      if xint (nthZ (d_addrs din) fbn) =? 0
      then (set_daddrs din (setZ (d_addrs din) fbn (xint (freeblock im))), bump_block im)
      else (din, im) in
    Ok (xint (nthZ (d_addrs din) fbn), din, im)
  else
    let '(din, im) :=
      if xint (nthZ (d_addrs din) NDIRECT) =? 0
      then (set_daddrs din (setZ (d_addrs din) NDIRECT (xint (freeblock im))), bump_block im)
      else (din, im) in
    indirect_entry fbn din im.

(** while(n > 0), with [p] the bytes left *)
Fixpoint iappend_loop (k : nat) (off : Z) (p : list Z) (din : dinode) (im : image) : res (Z * dinode * image) :=
  match p with
  | [] => Ok (off, din, im)
  | _ =>
      match k with
      | O => Block
      | S k' =>
          let fbn := off / BSIZE in
          if negb (fbn <? MAXFILE) then Panic "assert fbn < MAXFILE"
          else
            let* (x, din, im) := iappend_block fbn din im in
            let n1 := Z.min (Z.of_nat (length p)) ((fbn + 1) * BSIZE - off) in
            let* buf := rsect x im in
            let im := wsect x (splice (Z.to_nat (off - fbn * BSIZE)) (take (Z.to_nat n1) p) buf) im in
            iappend_loop k' (u32 (off + n1)) (drop (Z.to_nat n1) p) din im
      end
  end.

Definition iappend (inum : Z) (p : list Z) (im : image) : res image :=
  let* din := rinode inum im in
  let* (off, din, im) := iappend_loop (length p) (xint (d_size din)) p din im in
  winode inum (set_dsize din (xint off)) im.

(** ** main *)
Record hostfile := mkHost { h_path : list Z; h_reads : option (list (list Z)) }.

(** bzero(&de); de.inum = xshort(inum); strncpy(de.name, name, DIRSIZ) *)
Definition mkfs_dirent (inum : Z) (name : list Z) : list Z := fill_dirent dirent0 name (xshort inum).

Definition user_slash : list Z := [117; 115; 101; 114; 47].
(** get rid of user/ *)
Definition shortname (path : list Z) : list Z :=
  if strncmp (arr path) (arr user_slash) 5 =? 0 then drop 5 path else path.
(** Skip leading _ in name. *)
Definition skip_underscore (name : list Z) : list Z :=
  if nthZ name 0 =? 95 then drop 1 name else name.

(** while((cc = read(fd, buf, sizeof(buf))) > 0) *)
Fixpoint append_reads (inum : Z) (reads : list (list Z)) (im : image) : res image :=
  match reads with
  | [] => Ok im
  | buf :: reads' => let* im := iappend inum buf im in append_reads inum reads' im
  end.

(** One file of the command line. *)
Definition add_file (rootino : Z) (h : hostfile) (im : image) : res image :=
  let name := shortname (h_path h) in
  if negb (forallb (fun c => negb (c =? 47)) name) then Panic "assert index(shortname, '/') == 0"
  else
    match h_reads h with
    | None => Panic "open"
    | Some reads =>
        let name := skip_underscore name in
        if negb (Z.of_nat (length name) <=? DIRSIZ) then Panic "assert strlen(shortname) <= DIRSIZ"
        else
          let* (inum, im) := mkfs_ialloc T_FILE im in
          let* im := iappend rootino (mkfs_dirent inum name) im in
          append_reads inum reads im
    end.

Fixpoint add_files (rootino : Z) (hs : list hostfile) (im : image) : res image :=
  match hs with
  | [] => Ok im
  | h :: hs' => let* im := add_file rootino h im in add_files rootino hs' im
  end.

(** for(i = 0; i < FSSIZE; i++) wsect(i, zeroes); *)
Fixpoint zero_disk (k : nat) (i : Z) (im : image) : image :=
  match k with
  | O => im
  | S k' => zero_disk k' (i + 1) (wsect i zero_block im)
  end.

(** fix size of root inode dir *)
Definition fix_root (rootino : Z) (im : image) : res image :=
  let* din := rinode rootino im in
  let off := u32 ((xint (d_size din) / BSIZE + 1) * BSIZE) in
  winode rootino (set_dsize din (xint off)) im.

(** main, from the creation of the image file on; [hs] is argv[2..]. *)
Definition mkfs_main (hs : list hostfile) : res image :=
  let im := zero_disk (Z.to_nat FSSIZE) 0 (mkImage [] 1 nmeta) in
  let im := wsect 1 (splice 0 (sb_bytes mkfs_sb) zero_block) im in
  let* (rootino, im) := mkfs_ialloc T_DIR im in
  if negb (rootino =? ROOTINO) then Panic "assert rootino == ROOTINO"
  else
    let* im := iappend rootino (mkfs_dirent rootino [46]) im in
    let* im := iappend rootino (mkfs_dirent rootino [46; 46]) im in
    let* im := add_files rootino hs im in
    let* im := fix_root rootino im in
    mkfs_balloc (freeblock im) im.
