(* ===== verification/MkfsAppend.v ===== *)
(** * Appending to a file of the image

    While mkfs runs, the bitmap block of the image is still blank: the blocks
    in use are those below freeblock.  [st_ok im V] relates the image file to
    the disk [V] the kernel would see if balloc ran now, so that the lemmas on
    allocation and file contents proved for the kernel apply to the loop of
    iappend as well. *)

From S2P Require Import Prelude Riscv Cstring Sleeplock Block Log Txn Fs FsBlocks FsFile FsIO FsInode FsDir Mkfs.

Lemma mkfs_sb_eq : mkfs_sb = mkSb FSMAGIC 2000 1954 200 30 2 32 45.
Proof. vm_compute. reflexivity. Qed.
Lemma mkfs_sb_ok : sb_ok mkfs_sb.
Proof. rewrite mkfs_sb_eq. split; zcompute. Qed.
Lemma mkfs_datastart : datastart mkfs_sb = 46.
Proof. vm_compute. reflexivity. Qed.
Lemma mkfs_size : sb_size mkfs_sb = 2000.
Proof. vm_compute. reflexivity. Qed.
Lemma mkfs_bmapstart : sb_bmapstart mkfs_sb = 45.
Proof. vm_compute. reflexivity. Qed.
Lemma mkfs_ninodes : sb_ninodes mkfs_sb = 200.
Proof. vm_compute. reflexivity. Qed.
Lemma mkfs_is_bmap b : is_bmap mkfs_sb b <-> b = 45.
Proof. unfold is_bmap. rewrite mkfs_datastart, mkfs_bmapstart. lia. Qed.
Lemma mkfs_BBLOCK b : 0 <= b < 2000 -> BBLOCK b mkfs_sb = 45 /\ b mod BPB = b.
Proof. intros. unfold BBLOCK. rewrite mkfs_bmapstart. change BPB with 8192. zsolve. Qed.

Lemma xint_small x : 0 <= x < 2 ^ 32 -> xint x = x.
Proof. intros. unfold xint. rewrite le_decode_encode by apply u32_range. by apply u32_small. Qed.

(** ** The bitmap *)
Definition bitmap (n : Z) : block := fill_bits (Z.to_nat n) 0 zero_block.

Lemma fill_bits_S k i buf : fill_bits (S k) i buf = bit_set (fill_bits k i buf) (i + Z.of_nat k).
Proof.
  revert i buf. induction k as [|k IH]; intros i buf; [cbn; f_equal; lia|].
  change (fill_bits (S (S k)) i buf) with (fill_bits (S k) (i + 1) (bit_set buf i)). rewrite IH. cbn [fill_bits]. f_equal. lia.
Qed.

Lemma bitmap_S n : 0 <= n -> bitmap (n + 1) = bit_set (bitmap n) n.
Proof.
  intros Hn. unfold bitmap. replace (Z.to_nat (n + 1)) with (S (Z.to_nat n)) by lia. rewrite fill_bits_S. f_equal. lia.
Qed.

Lemma bitmap_ok n : 0 <= n -> is_block (bitmap n) /\ Forall is_byte (bitmap n).
Proof.
  intros Hn. pattern n. apply natlike_ind; [exact zero_block_ok| |done]. clear. intros n Hn [H1 H2].
  change (Z.succ n) with (n + 1). rewrite bitmap_S by done. split; [|by apply bit_set_byte].
  unfold is_block, bit_set. by rewrite length_setZ.
Qed.

Lemma bitmap_clear n b : 0 <= n <= BPB -> 0 <= b -> bit_clear (bitmap n) b = (n <=? b).
Proof.
  intros [Hn Hb]. revert b Hb. pattern n. apply natlike_ind; [| |done]; clear.
  - intros b _ Hb. rewrite bit_clear_testbit. destruct (Z.leb_spec 0 b); [|lia].
    assert (nthZ (bitmap 0) (b / 8) = 0) as ->; [|by rewrite Z.testbit_0_l].
    unfold nthZ, bitmap. cbn [Z.to_nat fill_bits]. unfold zero_block. destruct (_ !! _) eqn:E; [|done].
    by apply lookup_replicate in E as [-> _].
  - intros n Hn IH b Hb1 Hb. change (Z.succ n) with (n + 1) in *. rewrite bitmap_S by done.
    destruct (bitmap_ok n Hn) as [Hl _]. unfold is_block in Hl.
    rewrite bit_clear_set, IH by (change BPB with 8192 in *; lia). destruct (decide (b = n)); repeat bcase; done || lia.
Qed.

(** ** The image file and the disk it stands for *)
Record st_ok (im : image) (V : Z -> block) : Prop := {
  st_len : length (im_file im) = 2000%nat;
  st_file : forall b, 0 <= b < 2000 -> b <> 45 -> im_file im !! Z.to_nat b = Some (V b);
  st_bmap : V 45 = bitmap (freeblock im);
  st_disk : disk_ok V;
  st_fb : 46 <= freeblock im <= 2000;
  st_zero : forall b, freeblock im <= b < 2000 -> V b = zero_block;
}.

Lemma st_used im V b : st_ok im V -> 0 <= b < 2000 -> used mkfs_sb V b = (b <? freeblock im).
Proof.
  intros Hs Hb. unfold used. destruct (mkfs_BBLOCK b Hb) as [-> ->]. destruct (st_fb _ _ Hs).
  rewrite (st_bmap _ _ Hs), bitmap_clear by (change BPB with 8192; lia). repeat bcase; done || lia.
Qed.

Lemma st_fs_disk im V : st_ok im V -> fs_disk mkfs_sb V.
Proof.
  intros Hs. split; [apply Hs|]. intros b Hb. rewrite mkfs_datastart in Hb. destruct (st_fb _ _ Hs).
  rewrite (st_used im) by (done || lia). bcase; done || lia.
Qed.

Lemma sector_small b : 0 <= b < 2000 -> sector b = Z.to_nat b.
Proof. intros. unfold sector. rewrite u32_small by (change BSIZE with 1024; lia). by rewrite Z.div_mul. Qed.

Lemma rsect_ok im V b : st_ok im V -> 0 <= b < 2000 -> b <> 45 -> rsect b im = Ok (V b).
Proof. intros Hs Hb Hne. unfold rsect. by rewrite sector_small, (st_file _ _ Hs). Qed.

Lemma wsect_ok im V b d :
  st_ok im V -> 0 <= b < freeblock im -> b <> 45 -> is_block d -> Forall is_byte d ->
  st_ok (wsect b d im) (fupd V b d) /\ freeinode (wsect b d im) = freeinode im /\ freeblock (wsect b d im) = freeblock im.
Proof.
  intros [S1 S2 S3 S4 S5 S6] Hb Hne Hd1 Hd2. split; [|done].
  unfold wsect. rewrite sector_small, decide_True by lia. split; cbn [set_file im_file freeblock].
  - by rewrite length_insert.
  - intros x Hx Hx45. destruct (decide (x = b)) as [->|Hxb].
    + rewrite fupd_eq. apply list_lookup_insert_eq. lia.
    + rewrite fupd_ne by done. rewrite list_lookup_insert_ne by lia. auto.
  - by rewrite fupd_ne by done.
  - by apply disk_ok_fupd.
  - done.
  - intros x Hx. rewrite fupd_ne by lia. auto.
Qed.

(** freeblock++ allocates a block as the kernel's balloc does. *)
Lemma bump_ok im V :
  st_ok im V -> freeblock im < 2000 ->
  let V' := fupd V 45 (bitmap (freeblock im + 1)) in
  st_ok (bump_block im) V' /\ alloc_step mkfs_sb V (freeblock im) V' /\ freeblock (bump_block im) = freeblock im + 1.
Proof.
  intros Hs Hlt V'. pose proof Hs as [S1 S2 S3 S4 S5 S6]. destruct (bitmap_ok (freeblock im + 1) ltac:(lia)) as [B1 B2].
  assert (Hf : freeblock (bump_block im) = freeblock im + 1) by (cbn; apply u32_small; lia).
  assert (Hok : st_ok (bump_block im) V').
  { split; rewrite ?Hf; unfold V'; auto.
    - intros b Hb Hne. rewrite fupd_ne by done. auto.
    - by apply disk_ok_fupd.
    - lia.
    - intros b Hb. rewrite fupd_ne by lia. apply S6. lia. }
  split; [done|]. split; [|done]. split.
  - rewrite mkfs_datastart, mkfs_size. lia.
  - rewrite (st_used im) by (done || lia). bcase; done || lia.
  - intros b Hb. rewrite mkfs_size in Hb. rewrite (st_used _ _ b Hok Hb), (st_used _ _ b Hs Hb), Hf.
    destruct (decide _); repeat bcase; done || lia.
  - unfold V'. rewrite fupd_ne by lia. apply S6. lia.
  - intros b Hb1 Hb2. rewrite mkfs_is_bmap in Hb2. unfold V'. by rewrite fupd_ne.
  - apply Hok.
Qed.

(** ** The block map during an append *)

(** Disk blocks of a file of [n] bytes, the indirect block included. *)
Definition nb (n : Z) : Z := (n + BSIZE - 1) / BSIZE + (if NDIRECT * BSIZE <? n then 1 else 0).

Lemma nb_step off : 0 <= off ->
  nb (off + 1) - nb off = (if off mod BSIZE =? 0 then 1 else 0) + (if off =? NDIRECT * BSIZE then 1 else 0).
Proof. intros Ho. unfold nb. change BSIZE with 1024. change NDIRECT with 12. repeat bcase; zsolve. Qed.

Lemma nb_mono m n : 0 <= m <= n -> 0 <= nb m <= nb n.
Proof. intros Ho. unfold nb. change BSIZE with 1024. change NDIRECT with 12. repeat bcase; zsolve. Qed.

(** A file of [off] bytes: it has exactly the blocks it needs, and the rest of
    its last block is zero. *)
Record app_ok (V : Z -> block) (a : list Z) (off : Z) : Prop := {
  ao_file : file_ok mkfs_sb V a;
  ao_blk : forall bn, 0 <= bn < MAXFILE -> blk V a bn <> 0 <-> bn * BSIZE < off;
  ao_ind : nthZ a NDIRECT <> 0 <-> NDIRECT * BSIZE < off;
  ao_tail : forall o, off <= o < MAXFILE * BSIZE -> blk V a (o / BSIZE) <> 0 -> fbyte V a o = 0;
}.

Lemma slot_xint V a i : file_ok mkfs_sb V a -> 0 <= i < NSLOT -> xint (slot V a i) = slot V a i.
Proof.
  intros Hf Hi. apply xint_small. destruct (decide (slot V a i = 0)) as [->|Hn]; [lia|].
  destruct (fo_slot _ _ _ Hf i Hi Hn) as [Hr _]. rewrite mkfs_datastart, mkfs_size in Hr. lia.
Qed.

Lemma bmap_in_45 : bmap_in mkfs_sb {[45]}.
Proof. intros x Hx. apply mkfs_is_bmap in Hx as ->. set_solver. Qed.

Abbreviation mk_post := (bmap_post mkfs_sb {[45]}).
Definition logged (r : Z) : gset Z := {[r]} ∪ ({[BBLOCK r mkfs_sb]} ∪ ∅).

Lemma direct_ok im V din bn :
  st_ok im V -> file_ok mkfs_sb V (d_addrs din) -> 0 <= bn < NDIRECT ->
  freeblock im + (if blk V (d_addrs din) bn =? 0 then 1 else 0) <= 2000 ->
  exists x a' im' V' P', iappend_block bn din im = Ok (x, set_daddrs din a', im') /\ st_ok im' V' /\
    freeinode im' = freeinode im /\ freeblock im' = freeblock im + (if blk V (d_addrs din) bn =? 0 then 1 else 0) /\ x <> 0 /\
    mk_post V (d_addrs din) ∅ bn x V' a' P' /\ nthZ a' NDIRECT = nthZ (d_addrs din) NDIRECT.
Proof.
  intros Hs Hf Hbn Hfb. set (a := d_addrs din) in *. assert (Hbs : bslot bn = bn) by (unfold bslot; bcase; lia).
  assert (Hblk : blk V a bn = nthZ a bn) by (unfold blk; rewrite Hbs; apply slot_low; lia).
  assert (Hsl : 0 <= bn < NSLOT) by (change NSLOT with 269; change NDIRECT with 12 in Hbn; lia).
  assert (Hx : xint (nthZ a bn) = nthZ a bn) by (rewrite <- (slot_low V a bn) by lia; by apply slot_xint).
  unfold iappend_block. destruct (Z.ltb_spec bn NDIRECT); [|lia]. fold a. rewrite Hx, Hblk in *.
  destruct (Z.eqb_spec (nthZ a bn) 0) as [E0|E0].
  - destruct (bump_ok im V Hs ltac:(lia)) as (Hs' & Ha & Hfb'). set (r := freeblock im) in *. destruct (st_fb _ _ Hs) as [Hr1 Hr2]. fold r in Hr1, Hr2.
    destruct (fill_low mkfs_sb V a r (fupd V 45 (bitmap (r + 1))) bn) as (Hf' & Hg & Hsr & Ho); auto using mkfs_sb_ok; [lia|].
    rewrite (xint_small r) by lia.
    assert (Hn : nthZ (setZ a bn r) bn = r) by (apply nthZ_setZ_eq; rewrite (fo_len _ _ _ Hf); change NDIRECT with 12 in *; lia).
    exists r, (setZ a bn r), (bump_block im), (fupd V 45 (bitmap (r + 1))), (logged r). cbn [set_daddrs d_addrs]. rewrite Hn, xint_small by lia.
    split; [done|]. do 3 (split; [done|]). split; [lia|]. split; [|apply nthZ_setZ_ne; change NDIRECT with 12 in *; lia].
    apply bmap_filled; rewrite ?Hbs; auto; try apply Ha; try congruence.
    + change MAXFILE with 268. change NDIRECT with 12 in *. lia.
    + lia.
    + intros x Hx0 Hu Hb _. by eapply alloc_frame.
    + set_solver.
    + unfold logged. rewrite (proj1 (mkfs_BBLOCK r ltac:(lia))). set_solver.
  - exists (nthZ a bn), a, im, V, ∅. fold a. rewrite Hx. split; [by destruct din|]. do 2 (split; [done|]). split; [lia|]. split; [done|].
    split; [|done]. rewrite <- Hblk. apply bmap_same; [done|apply Hs|congruence].
Qed.

Lemma indirect_ok im V din bn :
  st_ok im V -> file_ok mkfs_sb V (d_addrs din) -> NDIRECT <= bn < MAXFILE -> nthZ (d_addrs din) NDIRECT <> 0 ->
  freeblock im + (if blk V (d_addrs din) bn =? 0 then 1 else 0) <= 2000 ->
  exists x im' V' P', indirect_entry bn din im = Ok (x, din, im') /\ st_ok im' V' /\
    freeinode im' = freeinode im /\ freeblock im' = freeblock im + (if blk V (d_addrs din) bn =? 0 then 1 else 0) /\ x <> 0 /\
    forall P, mk_post V (d_addrs din) P bn x V' (d_addrs din) (P ∪ P').
Proof.
  intros Hs Hf Hbn Hn0 Hfb. unfold indirect_entry. set (a := d_addrs din) in *. set (ind := nthZ a NDIRECT) in *.
  set (j := bn - NDIRECT) in *. change MAXFILE with (NDIRECT + 256) in Hbn. assert (Hj : 0 <= j < 256) by lia.
  assert (Hbs : bslot bn = NDIRECT + 1 + j) by (unfold bslot; bcase; lia).
  assert (Hsi : ind = slot V a NDIRECT) by (by rewrite slot_low).
  assert (Hblk : blk V a bn = getu32 (V ind) (4 * j)).
  { unfold blk. rewrite Hbs, slot_high by lia || done. fold ind. f_equal. lia. }
  assert (Hxb : xint (blk V a bn) = blk V a bn) by (apply slot_xint; [done|]; apply bslot_range; change MAXFILE with (NDIRECT + 256); change NDIRECT with 12 in *; lia).
  destruct (fo_slot _ _ _ Hf NDIRECT) as [Hir Hiu]; [done|by rewrite <- Hsi|]. rewrite <- Hsi in Hir, Hiu. rewrite mkfs_datastart, mkfs_size in Hir.
  rewrite (st_used im) in Hiu by (done || lia). apply Z.ltb_lt in Hiu. destruct (st_fb _ _ Hs) as [Hr1 Hr2].
  rewrite (xint_small ind) by lia. rewrite (rsect_ok im V) by (done || lia). cbn [rbind]. rewrite <- Hblk.
  destruct (Z.eqb_spec (blk V a bn) 0) as [E0|E0].
  2: { exists (blk V a bn), im, V, ∅. rewrite Hblk in Hxb |- *. rewrite Hxb. split; [done|]. do 2 (split; [done|]). split; [lia|]. split; [by rewrite <- Hblk|].
       intros P. rewrite union_empty_r_L, <- Hblk. apply bmap_same; [done|apply Hs|congruence]. }
  destruct (bump_ok im V Hs ltac:(lia)) as (Hs' & Ha & Hfb'). set (r := freeblock im) in *. rewrite (xint_small r) by lia.
  set (V1 := fupd V 45 (bitmap (r + 1))) in *.
  destruct (fill_high mkfs_sb V a r V1 j) as (Hf' & Hg & HL' & Hsr & Ho); auto using mkfs_sb_ok; [apply Hs|unfold blk in E0; by rewrite Hbs in E0|].
  fold ind in Hf', Hg, HL', Hsr, Ho. destruct (HL' ind) as [D1 D2]. rewrite fupd_eq in D1, D2.
  assert (HV1 : V1 ind = V ind) by (unfold V1; apply fupd_ne; lia). rewrite HV1 in *. set (d := put32 (V ind) (4 * j) r) in *.
  destruct (wsect_ok (bump_block im) V1 ind d) as (Hs2 & Hi2 & Hb2); auto; [lia|lia|].
  assert (Hd : getu32 d (4 * j) = r).
  { destruct (st_disk _ _ Hs ind) as [Hl _]. unfold is_block in Hl. apply getu32_put32_eq; lia. }
  rewrite Hd, xint_small by lia. exists r, (wsect ind d (bump_block im)), (fupd V1 ind d), (logged r). split; [done|]. split; [done|].
  rewrite Hi2, Hb2. do 2 (split; [done|]). split; [lia|]. intros P. unfold logged. rewrite (proj1 (mkfs_BBLOCK r ltac:(lia))). apply bmap_filled; auto.
  - change MAXFILE with (NDIRECT + 256). change NDIRECT with 12 in *. lia.
  - lia.
  - by rewrite Hbs.
  - rewrite Hbs. auto.
  - intros x Hx Hu Hb Hne. rewrite fupd_ne by done. by eapply alloc_frame.
  - rewrite fupd_ne by lia. apply Ha.
  - set_solver.
  - set_solver.
Qed.

Lemma block_ok im V din off :
  st_ok im V -> app_ok V (d_addrs din) off -> 0 <= off < MAXFILE * BSIZE ->
  freeblock im + (nb (off + 1) - nb off) <= 2000 ->
  exists x a' im' V' P', iappend_block (off / BSIZE) din im = Ok (x, set_daddrs din a', im') /\ st_ok im' V' /\
    freeinode im' = freeinode im /\ freeblock im' = freeblock im + (nb (off + 1) - nb off) /\ x <> 0 /\
    mk_post V (d_addrs din) ∅ (off / BSIZE) x V' a' P' /\ (nthZ a' NDIRECT <> 0 <-> NDIRECT * BSIZE < off + 1).
Proof.
  intros Hs [A1 A2 A3 A4] Ho Hfb. pose proof (div_file off Ho) as Hbn. set (bn := off / BSIZE) in *. rewrite nb_step in * by lia.
  assert (Hz : (blk V (d_addrs din) bn =? 0) = (off mod BSIZE =? 0)).
  { specialize (A2 bn Hbn). apply eq_bool_prop_intro. rewrite !Is_true_true, !Z.eqb_eq. unfold bn in *. change BSIZE with 1024 in *. 
    destruct (decide (blk V (d_addrs din) (off / 1024) = 0)) as [E|E]; [rewrite E in A2|apply A2 in E]; zsolve. }
  destruct (Z.ltb_spec bn NDIRECT) as [Hlt|Hge].
  { destruct (Z.eqb_spec off (NDIRECT * BSIZE)) as [->|Hne]; [done|]. rewrite Z.add_0_r, <- Hz in *.
    destruct (direct_ok im V din bn Hs A1 ltac:(lia) Hfb) as (x & a' & im' & V' & P' & E & H1 & H2 & H3 & H4 & H5 & H6).
    exists x, a', im', V', P'. split_and!; auto; rewrite H6, A3; unfold bn in *; change BSIZE with 1024 in *; change NDIRECT with 12 in *; zsolve. }
  unfold iappend_block. destruct (Z.ltb_spec bn NDIRECT); [lia|].
  assert (Hxi : xint (nthZ (d_addrs din) NDIRECT) = nthZ (d_addrs din) NDIRECT) by (rewrite <- (slot_low V) by done; by apply slot_xint).
  rewrite Hxi. destruct (Z.eqb_spec (nthZ (d_addrs din) NDIRECT) 0) as [E0|E0].
  - assert (off = NDIRECT * BSIZE) as Eo by (rewrite E0 in A3; unfold bn in *; change BSIZE with 1024 in *; change NDIRECT with 12 in *; zsolve).
    rewrite Eo in Hfb. change (NDIRECT * BSIZE =? NDIRECT * BSIZE) with true in Hfb. change (NDIRECT * BSIZE mod BSIZE =? 0) with true in Hfb. cbn iota in Hfb.
    destruct (bump_ok im V Hs ltac:(lia)) as (Hs1 & Ha & Hfb1). destruct (st_fb _ _ Hs) as [Hr1 Hr2]. set (r := freeblock im) in *. rewrite (xint_small r) by lia.
    set (V1 := fupd V 45 (bitmap (r + 1))) in *. set (a := d_addrs din) in *.
    destruct (fill_low mkfs_sb V a r V1 NDIRECT) as (Hf1 & Hg1 & Hs1' & Ho1); auto using mkfs_sb_ok; [done|].
    assert (E12 : nthZ (setZ a NDIRECT r) NDIRECT = r) by (apply nthZ_setZ_eq; by rewrite (fo_len _ _ _ A1)).
    assert (Hz1 : blk V1 (setZ a NDIRECT r) bn = 0).
    { unfold blk. rewrite Ho1 by (by apply bslot_range). apply Z.eqb_eq. transitivity (off mod BSIZE =? 0); [exact Hz|by rewrite Eo]. }
    destruct (indirect_ok (bump_block im) V1 (set_daddrs din (setZ a NDIRECT r)) bn) as (x & im' & V' & P' & E & H1 & H2 & H3 & H4 & H5);
      cbn [set_daddrs d_addrs]; rewrite ?E12, ?Hz1, ?Hfb1; auto; try (cbn; lia).
    cbn [set_daddrs d_addrs] in *. rewrite Hz1, Hfb1 in H3. cbn [Z.eqb] in H3.
    exists x, (setZ a NDIRECT r), im', V', (logged r ∪ P'). rewrite E. split; [done|]. do 2 (split; [done|]). split.
    { rewrite H3, Eo. change (NDIRECT * BSIZE =? NDIRECT * BSIZE) with true. change (NDIRECT * BSIZE mod BSIZE =? 0) with true. cbv iota. lia. }
    split; [done|]. split; [|rewrite E12, Eo; lia].
    apply (bmap_after_ind mkfs_sb {[45]} V a ∅ V1 r (logged r)); auto using mkfs_sb_ok, bmap_in_45. lia.
  - assert (Eo : off <> NDIRECT * BSIZE) by (intros ->; apply A3 in E0; lia). destruct (Z.eqb_spec off (NDIRECT * BSIZE)); [done|].
    rewrite Z.add_0_r, <- Hz in *.
    destruct (indirect_ok im V din bn) as (x & im' & V' & P' & E & H1 & H2 & H3 & H4 & H5); auto; [lia|].
    exists x, (d_addrs din), im', V', (∅ ∪ P'). rewrite E. split; [by destruct din|]. split_and!; auto; rewrite A3; apply A3 in E0; lia.
Qed.

Lemma nthZ_zero_block i : nthZ zero_block i = 0.
Proof. unfold nthZ, zero_block. destruct (_ !! _) eqn:E; [|done]. by apply lookup_replicate in E as [-> _]. Qed.

(** The bytes of one block are appended. *)
Lemma chunk_ok V a off x V' a' P' bs :
  app_ok V a off -> mk_post V a ∅ (off / BSIZE) x V' a' P' -> x <> 0 -> (nthZ a' NDIRECT <> 0 <-> NDIRECT * BSIZE < off + 1) ->
  let m := Z.of_nat (length bs) in let V2 := fupd V' x (splice (Z.to_nat (off mod BSIZE)) bs (V' x)) in
  0 <= off -> 0 < m -> off mod BSIZE + m <= BSIZE -> off / BSIZE < MAXFILE -> Forall is_byte bs ->
  wrote mkfs_sb V a V2 a' (nthZ bs) off (off + m) /\ app_ok V2 a' (off + m) /\ disk_ok V2.
Proof.
  intros [A1 A2 A3 A4] Hb Hx Hi m V2 Ho Hm Hfit Hmax Hbs. pose proof mkfs_sb_ok as Hsb.
  pose proof (bp_addr _ _ _ _ _ _ _ _ _ _ Hb) as Ex. assert (Hbn : 0 <= off / BSIZE < MAXFILE) by (split; [apply Z.div_pos; done || lia|done]).
  assert (Hend : off + m <= MAXFILE * BSIZE) by (change BSIZE with 1024 in *; change MAXFILE with 268 in *; zsolve).
  pose proof (bmap_wrote mkfs_sb _ _ _ _ _ _ _ _ _ (nthZ bs) off Hsb A1 Hb) as W0.
  assert (W1 : wrote mkfs_sb V' a' V2 a' (nthZ bs) off (off + m)).
  { unfold V2. rewrite <- Ex. apply data_wrote; auto; try apply Hb; try lia. }
  assert (W : wrote mkfs_sb V a V2 a' (nthZ bs) off (off + m)).
  { eapply wrote_app; [done|exact W0| |lia..]. eapply wrote_ext; [exact W1|]. intros k. f_equal. lia. }
  split; [done|]. split; [|apply W].
  assert (Hblk : forall bn, 0 <= bn < MAXFILE -> blk V2 a' bn = if decide (bn = off / BSIZE) then x else blk V a bn).
  { intros bn Hbn'. assert (E : blk V2 a' bn = blk V' a' bn).
    { apply slot_ext. intros Hn0. apply fupd_ne. intros E. destruct (bslot_range _ Hbn) as [R1 R2]. apply R2. symmetry.
      apply (fo_inj _ _ _ (bp_ok _ _ _ _ _ _ _ _ _ _ Hb)); [done|done|by rewrite slot_low|]. rewrite slot_low by done. rewrite E. exact (eq_sym Ex). }
    rewrite E. destruct (decide _) as [->|Hne]; [done|]. by apply (bp_other _ _ _ _ _ _ _ _ _ _ Hb). }
  split; [apply W| | |].
  - intros bn Hbn'. rewrite Hblk by done. specialize (A2 bn Hbn'). destruct (decide _) as [->|Hne].
    + split; [intros _; change BSIZE with 1024 in *; zsolve|done].
    + rewrite A2. change BSIZE with 1024 in *. zsolve.
  - rewrite Hi. change BSIZE with 1024 in *. change NDIRECT with 12. zsolve.
  - intros o Hor Hnz. pose proof (div_file o ltac:(lia)) as Hd. rewrite Hblk in Hnz by done.
    assert (Eo : o / BSIZE = off / BSIZE).
    { destruct (decide (o / BSIZE = off / BSIZE)) as [|Hne]; [done|]. apply A2 in Hnz; [|done]. change BSIZE with 1024 in *. zsolve. }
    unfold fbyte. rewrite Hblk, decide_True by done. unfold V2. rewrite fupd_eq.
    destruct (bp_disk _ _ _ _ _ _ _ _ _ _ Hb x) as [Hl _]. unfold is_block in Hl. pose proof (Z.mod_pos_bound off BSIZE ltac:(done)).
    rewrite nthZ_splice by (change BSIZE with 1024 in *; lia || (apply Z.mod_pos_bound; lia)).
    assert (Hout : off mod BSIZE + m <= o mod BSIZE) by (change BSIZE with 1024 in *; zsolve).
    destruct (Z.ltb_spec (o mod BSIZE) (Z.of_nat (Z.to_nat (off mod BSIZE) + length bs))); [lia|]. rewrite andb_false_r.
    destruct (decide (blk V a (off / BSIZE) = 0)) as [E0|E0].
    + rewrite (bp_zero _ _ _ _ _ _ _ _ _ _ Hb E0 Hx). apply nthZ_zero_block.
    + destruct (bp_hit _ _ _ _ _ _ _ _ _ _ Hb E0) as (-> & -> & _). rewrite <- Ex, <- Eo. apply (A4 o); [lia|by rewrite Eo].
Qed.

Lemma wrote_gb sb L a L' a' gb gb' lo hi :
  wrote sb L a L' a' gb lo hi -> (forall k, 0 <= k < hi - lo -> gb k = gb' k) -> wrote sb L a L' a' gb' lo hi.
Proof. intros [] Hg. split; auto. intros o Ho. rewrite <- Hg by lia. auto. Qed.

(** The loop of iappend. *)
Lemma iappend_loop_step k off p din im :
  p <> [] -> off / BSIZE < MAXFILE ->
  iappend_loop (S k) off p din im =
    let* (x, din, im) := iappend_block (off / BSIZE) din im in
    let n1 := Z.min (Z.of_nat (length p)) ((off / BSIZE + 1) * BSIZE - off) in
    let* buf := rsect x im in
    iappend_loop k (u32 (off + n1)) (drop (Z.to_nat n1) p) din
      (wsect x (splice (Z.to_nat (off - off / BSIZE * BSIZE)) (take (Z.to_nat n1) p) buf) im).
Proof. intros Hp Hb. destruct p as [|y p]; [done|]. cbn [iappend_loop]. by destruct (Z.ltb_spec (off / BSIZE) MAXFILE); [|lia]. Qed.

Lemma append_loop_ok k off p din im V :
  st_ok im V -> app_ok V (d_addrs din) off -> (length p <= k)%nat -> 0 <= off -> Forall is_byte p ->
  let n := Z.of_nat (length p) in off + n <= MAXFILE * BSIZE -> freeblock im + (nb (off + n) - nb off) <= 2000 ->
  exists a' im' V', iappend_loop k off p din im = Ok (off + n, set_daddrs din a', im') /\ st_ok im' V' /\ app_ok V' a' (off + n) /\
    freeinode im' = freeinode im /\ freeblock im' = freeblock im + (nb (off + n) - nb off) /\
    wrote mkfs_sb V (d_addrs din) V' a' (nthZ p) off (off + n).
Proof.
  revert off p din im V. induction k as [|k IH]; intros off p din im V Hs Ha Hk Ho Hp n Hmax Hfb.
  all: destruct (decide (p = [])) as [->|Hne];
    [exists (d_addrs din), im, V; unfold n; cbn [length Z.of_nat iappend_loop]; rewrite Z.add_0_r; split_and!; auto; try lia;
      [by destruct din|apply wrote_nil; [apply Ha|apply Hs]]|].
  { destruct p; [done|cbn in Hk; lia]. }
  assert (Hn : 0 < n) by (destruct p; [done|unfold n; cbn; lia]).
  assert (Hbn : off / BSIZE < MAXFILE) by (apply Z.div_lt_upper_bound; [done|lia]).
  rewrite iappend_loop_step by done. set (n1 := Z.min (Z.of_nat (length p)) ((off / BSIZE + 1) * BSIZE - off)).
  replace (off - off / BSIZE * BSIZE) with (off mod BSIZE) by (change BSIZE with 1024; zsolve).
  assert (Hn1 : 0 < n1 <= n /\ off mod BSIZE + n1 <= BSIZE) by (unfold n1; fold n; change BSIZE with 1024 in *; zsolve).
  set (bs := take (Z.to_nat n1) p). assert (Hbs : Z.of_nat (length bs) = n1) by (unfold bs; rewrite length_take; lia).
  assert (Hnb1 : nb (off + 1) = nb (off + n1)) by (unfold nb; change BSIZE with 1024 in *; change NDIRECT with 12; repeat bcase; zsolve).
  pose proof (nb_mono (off + n1) (off + n) ltac:(lia)) as Hmono.
  destruct (block_ok im V din off) as (x & a1 & im1 & V1 & P1 & E1 & Hs1 & Hi1 & Hf1 & Hx & Hb & Hind); auto; [lia|lia|].
  rewrite E1. cbn [rbind]. pose proof (bp_ok _ _ _ _ _ _ _ _ _ _ Hb) as Hfo.
  pose proof (bslot_range (off / BSIZE) ltac:(split; [apply Z.div_pos; done|done])) as [Hsl _].
  destruct (fo_slot _ _ _ Hfo _ Hsl) as [Hxr Hxu]; [change (slot V1 a1 (bslot (off / BSIZE))) with (blk V1 a1 (off / BSIZE)); by rewrite (bp_addr _ _ _ _ _ _ _ _ _ _ Hb)|].
  change (slot V1 a1 (bslot (off / BSIZE))) with (blk V1 a1 (off / BSIZE)) in Hxr, Hxu. rewrite (bp_addr _ _ _ _ _ _ _ _ _ _ Hb), mkfs_datastart, mkfs_size in *.
  rewrite (st_used im1) in Hxu by (done || lia). apply Z.ltb_lt in Hxu.
  rewrite (rsect_ok im1 V1) by (done || lia). cbn [rbind].
  destruct (chunk_ok V (d_addrs din) off x V1 a1 P1 bs) as (W & Ha2 & Hd2); auto; [lia|lia|by apply Forall_take|]. rewrite Hbs in *.
  set (d := splice _ bs (V1 x)) in *. destruct (Hd2 x) as [Hd3 Hd4]. rewrite fupd_eq in Hd3, Hd4.
  destruct (wsect_ok im1 V1 x d) as (Hs2 & Hi2 & Hf2); auto; [lia|lia|]. rewrite u32_small by (change (MAXFILE * BSIZE) with 274432 in Hmax; lia).
  assert (Hlq : Z.of_nat (length (drop (Z.to_nat n1) p)) = n - n1) by (rewrite length_drop; lia).
  destruct (IH (off + n1) (drop (Z.to_nat n1) p) (set_daddrs din a1) (wsect x d im1) (fupd V1 x d)) as (a' & im' & V' & E & R1 & R2 & R3 & R4 & R5);
    rewrite ?Hlq; auto; try lia; [by apply Forall_drop|replace (off + n1 + (n - n1)) with (off + n) by lia; lia|].
  rewrite Hlq in *. replace (off + n1 + (n - n1)) with (off + n) in * by lia. exists a', im', V'. fold bs. fold d. rewrite E. split; [done|]. split_and!; auto; [congruence|lia|].
  eapply (wrote_app mkfs_sb _ _ _ _ _ _ _ off (off + n1) (off + n)); [apply mkfs_sb_ok| | |lia..].
  - eapply (wrote_gb _ _ _ _ _ (nthZ bs)); [exact W|]. intros j Hj. unfold bs, nthZ. by rewrite lookup_take_lt by lia.
  - eapply (wrote_gb _ _ _ _ _ (nthZ (drop (Z.to_nat n1) p))); [exact R5|]. intros j Hj. unfold nthZ. rewrite lookup_drop. do 2 f_equal. lia.
Qed.
