(* ===== verification/MkfsProps.v ===== *)
(** * Properties of mkfs

    The invariant of the whole image ([fs_ok]), what each step of main does to
    it, and the main theorem: the finished image is a well-formed file system
    whose files hold the bytes of the files of the command line. *)

From S2P Require Import Prelude Riscv Cstring Sleeplock Block Log Txn Fs FsBlocks FsFile FsIO FsInode FsDir Mkfs MkfsAppend.

(** ** Files that keep their blocks *)
Section keep.
Context (V V' : Z -> block) (a : list Z) (Hk : forall x, own V a x -> V' x = V x).

Lemma keep_slot i : slot V' a i = slot V a i.
Proof using Hk. apply slot_ext. intros Hn. apply Hk. exists NDIRECT. split; [done|]. split; [by rewrite slot_low|done]. Qed.

Lemma keep_own x : own V' a x <-> own V a x.
Proof using Hk. unfold own. by setoid_rewrite keep_slot. Qed.

Lemma keep_fbyte o : 0 <= o < MAXFILE * BSIZE -> blk V a (o / BSIZE) <> 0 -> fbyte V' a o = fbyte V a o.
Proof using Hk.
  intros Ho Hn. unfold fbyte, blk. rewrite keep_slot. f_equal. apply Hk. exists (bslot (o / BSIZE)).
  split; [apply bslot_range, div_file; done|done].
Qed.

Lemma keep_app s : 0 <= s -> app_ok V a s -> (forall x, own V a x -> used mkfs_sb V' x = true) -> app_ok V' a s.
Proof using Hk.
  intros Hs [A1 A2 A3 A4] Hu. split; auto.
  - split; [apply A1| |].
    + intros i Hi. rewrite keep_slot. intros Hn. split; [by apply A1|]. apply Hu. by exists i.
    + intros i j Hi Hj. rewrite !keep_slot. by apply A1.
  - intros bn Hbn. unfold blk. rewrite keep_slot. by apply A2.
  - intros o Ho. unfold blk. rewrite keep_slot. intros Hn. rewrite keep_fbyte by (done || lia). by apply A4.
Qed.

Lemma keep_bytes s : app_ok V a s -> s <= MAXFILE * BSIZE -> fbytes V' a 0 s = fbytes V a 0 s.
Proof using Hk.
  intros Ha Hs. apply list_fmap_ext. intros i o Ho. apply lookup_seqZ in Ho as [-> Hi]. apply keep_fbyte; [lia|].
  apply (ao_blk _ _ _ Ha); [apply div_file; lia|]. pose proof (Z.mul_div_le (0 + Z.of_nat i) BSIZE ltac:(done)). lia.
Qed.
End keep.

(** ** All files of the image *)
Definition blocks (I : list inode) : Z := foldr (fun ip s => nb (i_size ip) + s) 0 I.

Lemma blocks_app I J : blocks (I ++ J) = blocks I + blocks J.
Proof. unfold blocks. induction I as [|ip I IH]; cbn [app foldr]; [done|]. rewrite IH. lia. Qed.

Lemma blocks_insert I i ip ip' : I !! i = Some ip -> blocks (<[i := ip']> I) = blocks I + (nb (i_size ip') - nb (i_size ip)).
Proof.
  revert i. induction I as [|jp I IH]; intros i Hi; [done|]. destruct i as [|i].
  - injection Hi as ->. cbn. lia.
  - change (nb (i_size jp) + blocks (<[i := ip']> I) = nb (i_size jp) + blocks I + (nb (i_size ip') - nb (i_size ip))). rewrite (IH i Hi). lia.
Qed.

Record file_in (V : Z -> block) (ip : inode) : Prop := {
  fi_app : app_ok V (i_addrs ip) (i_size ip);
  fi_size : 0 <= i_size ip <= MAXFILE * BSIZE;
}.

Record files_ok (im : image) (V : Z -> block) (I : list inode) : Prop := {
  fs_st : st_ok im V;
  fs_file : forall i ip, I !! i = Some ip -> file_in V ip;
  fs_once : forall i j ip jp x, I !! i = Some ip -> I !! j = Some jp -> own V (i_addrs ip) x -> own V (i_addrs jp) x -> i = j;
  fs_owner : forall x, 46 <= x < freeblock im -> exists i ip, I !! i = Some ip /\ own V (i_addrs ip) x;
  fs_count : freeblock im = 46 + blocks I;
}.

Lemma own_used im V ip x : st_ok im V -> file_in V ip -> own V (i_addrs ip) x ->
  46 <= x < 2000 /\ used mkfs_sb V x = true.
Proof.
  intros Hs Hf (i & Hi & <- & Hn). destruct (fo_slot _ _ _ (ao_file _ _ _ (fi_app _ _ Hf)) i Hi Hn) as [Hr Hu].
  by rewrite mkfs_datastart, mkfs_size in Hr.
Qed.

Lemma file_in_keep im V im' V' ip :
  st_ok im V -> st_ok im' V' -> freeblock im <= freeblock im' -> file_in V ip -> (forall x, own V (i_addrs ip) x -> V' x = V x) ->
  file_in V' ip /\ fcontent V' ip = fcontent V ip.
Proof.
  intros Hs Hs' Hfb Hf Hk. destruct Hf as [F1 F2]. split; [|by apply keep_bytes; try lia]. split; [|done]. apply (keep_app V); auto; [lia|].
  intros x Hx. destruct (own_used im V ip x) as [Hr Hu]; auto; [done|]. rewrite (st_used im) in Hu by (done || lia). rewrite (st_used im') by (done || lia). repeat bcase; done || lia.
Qed.

(** Another disk with the same data area. *)
Lemma files_keep im V im' V' I :
  files_ok im V I -> st_ok im' V' -> freeblock im' = freeblock im -> (forall x, 46 <= x < 2000 -> V' x = V x) ->
  files_ok im' V' I /\ (forall i ip, I !! i = Some ip -> fcontent V' ip = fcontent V ip).
Proof.
  intros [F1 F2 F3 F4 F5] Hs Hf Hsame.
  assert (Hk : forall i ip x, I !! i = Some ip -> own V (i_addrs ip) x -> V' x = V x).
  { intros i ip x Hi Hx. apply Hsame. destruct (own_used im V ip x); eauto. }
  assert (Ho : forall i ip x, I !! i = Some ip -> own V' (i_addrs ip) x <-> own V (i_addrs ip) x).
  { intros i ip x Hi. apply keep_own. intros y. by apply (Hk i). }
  split; [split; rewrite ?Hf; auto|].
  - intros i ip Hi. eapply (file_in_keep im V im'); eauto. lia.
  - intros i j ip jp x Hi Hj. rewrite (Ho i), (Ho j) by done. eauto.
  - intros x Hx. destruct (F4 x Hx) as (i & ip & Hi & Hx'). exists i, ip. split; [done|]. by rewrite (Ho i).
  - intros i ip Hi. eapply (file_in_keep im V im'); eauto. lia.
Qed.

(** Writing a block below the data area. *)
Lemma files_meta im V I b d :
  files_ok im V I -> 0 <= b < 45 -> is_block d -> Forall is_byte d ->
  files_ok (wsect b d im) (fupd V b d) I /\ (forall i ip, I !! i = Some ip -> fcontent (fupd V b d) ip = fcontent V ip).
Proof.
  intros HF Hb Hd1 Hd2. pose proof (fs_st _ _ _ HF) as Hs. destruct (st_fb _ _ Hs). destruct (wsect_ok im V b d) as (Hs' & _ & Hf); auto; [lia|lia|].
  apply (files_keep im V); auto. intros x Hx. apply fupd_ne. lia.
Qed.

Lemma content_append V ip V' ip' p :
  i_size ip' = i_size ip + Z.of_nat (length p) -> 0 <= i_size ip -> i_size ip' <= MAXFILE * BSIZE -> file_in V ip ->
  wrote mkfs_sb V (i_addrs ip) V' (i_addrs ip') (nthZ p) (i_size ip) (i_size ip') -> fcontent V' ip' = fcontent V ip ++ p.
Proof.
  intros Es Hs Hmax Hf W. rewrite (fcontent_splice V ip V' ip' (nthZ p) (i_size ip) (Z.of_nat (length p))); try lia.
  - rewrite <- slice_seqZ by lia. rewrite drop_0, take_ge by lia. unfold splice.
    pose proof (length_fcontent V ip Hs). rewrite take_ge, drop_ge, app_nil_r by lia. done.
  - intros o Ho. apply (wr_in _ _ _ _ _ _ _ _ W). lia.
  - intros o Ho Hno. apply (wr_out _ _ _ _ _ _ _ _ W); [lia|lia|]. apply (ao_blk _ _ _ (fi_app _ _ Hf)); [apply div_file; lia|].
    pose proof (Z.mul_div_le o BSIZE ltac:(done)). lia.
Qed.

(** An append grows one file and keeps the others. *)
Lemma files_grow im V I i ip im' V' a' s :
  files_ok im V I -> I !! i = Some ip -> st_ok im' V' -> app_ok V' a' s -> i_size ip <= s <= MAXFILE * BSIZE ->
  freeblock im' = freeblock im + (nb s - nb (i_size ip)) -> grow mkfs_sb V (i_addrs ip) V' a' ->
  files_ok im' V' (<[i := set_size (set_addrs ip a') s]> I) /\
  (forall j jp, j <> i -> I !! j = Some jp -> fcontent V' jp = fcontent V jp).
Proof.
  intros [F1 F2 F3 F4 F5] Hi Hs' Ha' Hs Hfb Hg. set (ip' := set_size (set_addrs ip a') s). destruct (F2 i ip Hi) as [G1 G2].
  assert (Hmono : freeblock im <= freeblock im') by (pose proof (nb_mono (i_size ip) s ltac:(lia)); lia).
  assert (Hk : forall j jp x, j <> i -> I !! j = Some jp -> own V (i_addrs jp) x -> V' x = V x).
  { intros j jp x Hne Hj Hx. destruct (own_used im V jp x) as [Hr Hu]; eauto. apply Hg; [rewrite mkfs_size; lia|done|rewrite mkfs_is_bmap; lia|].
    intros Hx'. apply Hne. eauto. }
  assert (Ho : forall j jp x, j <> i -> I !! j = Some jp -> own V' (i_addrs jp) x <-> own V (i_addrs jp) x).
  { intros j jp x Hne Hj. apply keep_own. intros y. by apply (Hk j). }
  assert (Hkeep : forall j jp, j <> i -> I !! j = Some jp -> file_in V' jp /\ fcontent V' jp = fcontent V jp).
  { intros j jp Hne Hj. eapply (file_in_keep im V im'); eauto. }
  assert (Hcross : forall j jp x, j <> i -> I !! j = Some jp -> own V' (i_addrs jp) x -> own V' a' x -> False).
  { intros j jp x Hne Hj Hx Hx'. rewrite (Ho j) in Hx by done. destruct (own_used im V jp x) as [Hr Hu]; eauto.
    apply Hne. eapply (F3 j i); eauto. by eapply grow_own_inv. }
  assert (Hlook : forall j jp, <[i := ip']> I !! j = Some jp -> (j = i /\ jp = ip') \/ (j <> i /\ I !! j = Some jp)).
  { intros j jp Hj. apply list_lookup_insert_Some in Hj as [(<- & -> & _)|[Hne Hj]]; [by left|right; by split]. }
  assert (Hii : <[i := ip']> I !! i = Some ip') by (apply list_lookup_insert_eq; by eapply lookup_lt_Some).
  split; [split; auto|intros j jp Hne Hj; by apply (Hkeep j)].
  - intros j jp Hj. destruct (Hlook j jp Hj) as [[-> ->]|[Hne Hj']]; [split; cbn; [done|lia]|]. by apply (Hkeep j).
  - intros j k jp kp x Hj Hk'. destruct (Hlook j jp Hj) as [[-> ->]|[Hne Hj']], (Hlook k kp Hk') as [[-> ->]|[Hne' Hk'']]; auto; intros Hx Hx'; cbn in *.
    + exfalso. by eapply (Hcross k).
    + exfalso. by eapply (Hcross j).
    + rewrite (Ho j) in Hx by done. rewrite (Ho k) in Hx' by done. eauto.
  - intros x Hx. pose proof (st_fb _ _ Hs'). assert (Hu : used mkfs_sb V' x = true) by (rewrite (st_used im') by (done || lia); bcase; done || lia).
    apply (gr_new _ _ _ _ _ Hg) in Hu as [Hu|Hown]; [|by exists i, ip'|rewrite mkfs_size; lia].
    rewrite (st_used im) in Hu by (done || lia). apply Z.ltb_lt in Hu. destruct (F4 x ltac:(lia)) as (j & jp & Hj & Hown).
    destruct (decide (j = i)) as [->|Hne].
    + exists i, ip'. split; [done|]. rewrite Hi in Hj. injection Hj as <-. by eapply grow_own.
    + exists j, jp. rewrite list_lookup_insert_ne by done. split; [done|]. by rewrite (Ho j).
  - rewrite (blocks_insert _ _ ip) by done. cbn [ip' set_size i_size]. lia.
Qed.

Lemma files_append im V I i ip din p :
  files_ok im V I -> I !! i = Some ip -> d_addrs din = i_addrs ip -> Forall is_byte p ->
  let n := Z.of_nat (length p) in i_size ip + n <= MAXFILE * BSIZE -> 46 + blocks I + (nb (i_size ip + n) - nb (i_size ip)) <= 2000 ->
  exists a' im' V', iappend_loop (length p) (i_size ip) p din im = Ok (i_size ip + n, set_daddrs din a', im') /\
    let ip' := set_size (set_addrs ip a') (i_size ip + n) in
    files_ok im' V' (<[i := ip']> I) /\ fcontent V' ip' = fcontent V ip ++ p /\
    (forall j jp, j <> i -> I !! j = Some jp -> fcontent V' jp = fcontent V jp) /\
    freeinode im' = freeinode im /\ (forall b, 0 <= b < 45 -> V' b = V b) /\ Forall is_u32 a' /\ length a' = 13%nat.
Proof.
  intros HF Hi Hd Hp n Hmax Hfb. destruct (fs_file _ _ _ HF i ip Hi) as [G1 G2]. pose proof (fs_st _ _ _ HF) as Hs.
  destruct (append_loop_ok (length p) (i_size ip) p din im V) as (a' & im' & V' & E & R1 & R2 & R3 & R4 & R5); auto; rewrite ?Hd; auto; [lia| |].
  { rewrite (fs_count _ _ _ HF). fold n. lia. }
  fold n in E, R2, R4, R5. exists a', im', V'. split; [done|]. intros ip'. pose proof (wr_grow _ _ _ _ _ _ _ _ R5) as Hg. rewrite Hd in Hg.
  destruct (files_grow im V I i ip im' V' a' (i_size ip + n)) as [HF' Hoth]; auto; [lia|]. fold ip' in HF'.
  split; [done|]. split; [|split; [done|]; split; [done|]; split].
  - apply content_append; cbn [ip' i_size i_addrs set_size set_addrs]; auto; try lia; [by split|by rewrite <- Hd].
  - intros b Hb. eapply (grow_meta mkfs_sb V (i_addrs ip)); eauto using mkfs_sb_ok; [apply G1|by apply (st_fs_disk im)].
  - pose proof (ao_file _ _ _ R2) as Hf. split; [by eapply file_ok_u32; [apply mkfs_sb_ok|]|apply Hf].
Qed.

(** ** The inodes *)
Definition super_block : block := splice 0 (sb_bytes mkfs_sb) zero_block.
Definition din_of (ip : inode) : dinode := mkD (i_type ip) (i_major ip) (i_minor ip) (i_nlink ip) (i_size ip) (i_addrs ip).

Record fs_ok (im : image) (V : Z -> block) (I : list inode) : Prop := {
  mk_files : files_ok im V I;
  mk_next : freeinode im = 1 + Z.of_nat (length I) /\ Z.of_nat (length I) < 200;
  mk_ino : forall i ip, I !! i = Some ip -> i_inum ip = 1 + Z.of_nat i /\ dinode_on mkfs_sb V (i_inum ip) = dinode_of ip /\ meta_ok ip;
  mk_free : forall inum, freeinode im <= inum < 200 -> dinode_on mkfs_sb V inum = dinode_of inode0;
  mk_low : forall b, 0 <= b < 32 -> V b = if b =? 1 then super_block else zero_block;
}.

Lemma mkfs_iblock inum : 0 <= inum < 200 -> 32 <= IBLOCK inum mkfs_sb < 45.
Proof. intros Hi. unfold IBLOCK. rewrite mkfs_sb_eq. cbn [sb_inodestart]. change IPB with 16. zsolve. Qed.

Lemma rinode_ok im V ip : st_ok im V -> 0 <= i_inum ip < 200 -> dinode_on mkfs_sb V (i_inum ip) = dinode_of ip ->
  rinode (i_inum ip) im = Ok (din_of ip).
Proof.
  intros Hs Hi E. pose proof (mkfs_iblock _ Hi). unfold rinode. rewrite (rsect_ok im V) by (done || lia). cbn [rbind].
  unfold dinode_get, din_of. unfold dinode_on, dinode_at, dinode_of in E. by injection E as -> -> -> -> -> ->.
Qed.

(** Writing an inode back. *)
Lemma winode_ok im V I ip :
  files_ok im V I -> 0 <= i_inum ip < 200 -> meta_ok ip ->
  let V' := fupd V (IBLOCK (i_inum ip) mkfs_sb) (dinode_put (V (IBLOCK (i_inum ip) mkfs_sb)) ip) in
  exists im', winode (i_inum ip) (din_of ip) im = Ok im' /\ files_ok im' V' I /\ freeinode im' = freeinode im /\ freeblock im' = freeblock im /\
    (forall i jp, I !! i = Some jp -> fcontent V' jp = fcontent V jp) /\
    (forall j, 0 <= j -> dinode_on mkfs_sb V' j = if decide (j = i_inum ip) then dinode_of ip else dinode_on mkfs_sb V j) /\
    (forall b, 0 <= b < 32 -> V' b = V b).
Proof.
  intros HF Hi Hm V'. pose proof (mkfs_iblock _ Hi) as Hb. pose proof (fs_st _ _ _ HF) as Hs. pose proof (st_disk _ _ Hs) as HD. set (IB := IBLOCK (i_inum ip) mkfs_sb) in *.
  destruct (HD IB) as [D1 D2]. destruct (dinode_put_ok (V IB) ip D1 D2 (mo_len _ Hm)) as [D3 D4].
  destruct (files_meta im V I IB (dinode_put (V IB) ip)) as [HF' Hc]; auto; [lia|].
  exists (wsect IB (dinode_put (V IB) ip) im). unfold winode. fold IB. rewrite (rsect_ok im V) by (done || lia). cbn [rbind].
  split; [done|]. split; [done|]. do 2 (split; [done|]). split; [done|]. split.
  - intros j Hj. apply dinode_on_put; auto. lia.
  - intros b Hb'. apply fupd_ne. lia.
Qed.

Lemma dinode_on_low V V' inum : 0 <= inum < 200 -> (forall b, 0 <= b < 45 -> V' b = V b) -> dinode_on mkfs_sb V' inum = dinode_on mkfs_sb V inum.
Proof. intros Hi H. unfold dinode_on. pose proof (mkfs_iblock _ Hi). by rewrite H by lia. Qed.

Lemma iappend_ok im V I i ip p :
  fs_ok im V I -> I !! i = Some ip -> Forall is_byte p ->
  let n := Z.of_nat (length p) in i_size ip + n <= MAXFILE * BSIZE -> 46 + blocks I + (nb (i_size ip + n) - nb (i_size ip)) <= 2000 ->
  exists im' V' a', let ip' := set_size (set_addrs ip a') (i_size ip + n) in
    iappend (i_inum ip) p im = Ok im' /\ fs_ok im' V' (<[i := ip']> I) /\ fcontent V' ip' = fcontent V ip ++ p /\
    (forall j jp, j <> i -> I !! j = Some jp -> fcontent V' jp = fcontent V jp).
Proof.
  intros [M1 M2 M3 M4 M5] Hi Hp n Hmax Hfb. destruct (M3 i ip Hi) as (I1 & I2 & I3). destruct M2 as [M2 M2']. apply lookup_lt_Some in Hi as Hlt.
  destruct (fs_file _ _ _ M1 i ip Hi) as [G1 G2]. change (MAXFILE * BSIZE) with 274432 in *.
  unfold iappend. rewrite (rinode_ok im V) by (done || apply M1 || lia). cbn [rbind din_of d_size]. rewrite (xint_small (i_size ip)) by lia.
  destruct (files_append im V I i ip (din_of ip) p) as (a' & im1 & V1 & E1 & HF1 & Hc1 & Ho1 & Hn1 & Hl1 & Ha1 & Ha2); auto. fold n in E1, HF1, Hc1.
  rewrite E1. cbn [rbind]. rewrite (xint_small (i_size ip + n)) by lia. set (ip' := set_size (set_addrs ip a') (i_size ip + n)) in *.
  assert (Hm' : meta_ok ip') by (destruct I3; split; cbn; auto; unfold is_u32; lia).
  destruct (winode_ok im1 V1 (<[i := ip']> I) ip') as (im2 & E2 & HF2 & Hn2 & Hb2 & Hc2 & Hd2 & Hl2); auto; [cbn; lia|].
  change (set_dsize (set_daddrs (din_of ip) a') (i_size ip + n)) with (din_of ip'). change (i_inum ip) with (i_inum ip').
  set (V2 := fupd V1 _ _) in *. exists im2, V2, a'. fold ip'. split; [exact E2|]. pose proof (list_lookup_insert_eq I i ip' Hlt) as Hii.
  split; [split; auto|split].
  - rewrite length_insert, Hn2, Hn1. done.
  - intros j jp Hj. apply list_lookup_insert_Some in Hj as [(<- & <- & _)|[Hne Hj]].
    + split; [exact I1|]. split; [|done]. rewrite Hd2, decide_True by (cbn; lia || done). done.
    + destruct (M3 j jp Hj) as (J1 & J2 & J3). split; [done|]. split; [|done]. apply lookup_lt_Some in Hj.
      rewrite Hd2, decide_False by (cbn; lia). rewrite (dinode_on_low V) by (auto || lia). done.
  - intros inum Hin. rewrite Hn2, Hn1 in Hin. rewrite Hd2, decide_False by (cbn; lia). rewrite (dinode_on_low V) by (auto || lia). auto.
  - intros b Hb. rewrite Hl2, Hl1 by lia. auto.
  - rewrite (Hc2 i) by done. done.
  - intros j jp Hne Hj. rewrite (Hc2 j) by (by rewrite list_lookup_insert_ne). by apply (Ho1 j).
Qed.

Definition new_inode (inum ty : Z) : inode := mkInode 0 inum 0 initsleeplock false ty 0 0 1 0 (replicate 13 0).

Lemma slot_zeros V i : slot V (replicate 13 0) i = 0.
Proof.
  assert (Hz : forall j, nthZ (replicate 13 0) j = 0).
  { intros j. unfold nthZ. destruct (replicate 13 0 !! Z.to_nat j) eqn:E; [|done]. by apply lookup_replicate in E as [-> _]. }
  unfold slot. rewrite !Hz. by destruct (i <? NDIRECT + 1).
Qed.

Lemma own_zeros V x : ~ own V (replicate 13 0) x.
Proof. intros (i & _ & E & Hn). rewrite slot_zeros in E. congruence. Qed.

Lemma file_in_new V inum ty : file_in V (new_inode inum ty).
Proof.
  split; [|done]. cbn. split.
  - split; [done| |]; intros i; by rewrite slot_zeros.
  - intros bn Hbn. unfold blk. rewrite slot_zeros. change BSIZE with 1024. split; [done|lia].
  - done.
  - intros o _. unfold blk. by rewrite slot_zeros.
Qed.

Lemma files_snoc im V I inum ty : files_ok im V I -> files_ok im V (I ++ [new_inode inum ty]).
Proof.
  intros [F1 F2 F3 F4 F5]. split; auto.
  - intros i ip Hi. apply lookup_snoc_Some in Hi as [[_ Hi]|[_ <-]]; [eauto|apply file_in_new].
  - intros i j ip jp x Hi Hj. apply lookup_snoc_Some in Hi as [[_ Hi]|[_ <-]]; [|by intros Hx%own_zeros].
    apply lookup_snoc_Some in Hj as [[_ Hj]|[_ <-]]; [eauto|by intros _ Hx%own_zeros].
  - intros x Hx. destruct (F4 x Hx) as (i & ip & Hi & Ho). exists i, ip. split; [by apply lookup_app_l_Some|done].
  - rewrite blocks_app, F5. change (blocks [new_inode inum ty]) with (nb 0 + 0). change (nb 0) with 0. lia.
Qed.

Lemma files_same im im' V I : files_ok im V I -> im_file im' = im_file im -> freeblock im' = freeblock im -> files_ok im' V I.
Proof. intros [[] F2 F3 F4 F5] E1 E2. split; rewrite ?E2; auto. split; rewrite ?E1, ?E2; auto. Qed.

Lemma ialloc_ok im V I ty :
  fs_ok im V I -> Z.of_nat (length I) < 199 -> 0 < ty < 2 ^ 15 ->
  let inum := 1 + Z.of_nat (length I) in
  exists im' V', mkfs_ialloc ty im = Ok (inum, im') /\ fs_ok im' V' (I ++ [new_inode inum ty]) /\
    fcontent V' (new_inode inum ty) = [] /\ (forall j jp, I !! j = Some jp -> fcontent V' jp = fcontent V jp).
Proof.
  intros [M1 [M2 M2'] M3 M4 M5] Hroom Hty inum. unfold mkfs_ialloc. rewrite M2. fold inum.
  assert (Et : s16 (xshort ty) = ty) by (apply s16_u16; unfold is_s16; lia). rewrite Et. change (s16 (xshort 1)) with 1. change (xint 0) with 0.
  set (ip := new_inode inum ty). change (mkD ty 0 0 1 0 (replicate 13 0)) with (din_of ip).
  assert (Hfi : freeinode (bump_inode im) = inum + 1) by (cbn; rewrite M2; apply u32_small; lia).
  assert (Hm : meta_ok ip) by (split; cbn; unfold is_s16, is_u32; try lia; repeat constructor; lia).
  destruct (winode_ok (bump_inode im) V (I ++ [ip]) ip) as (im2 & E2 & HF2 & Hn2 & Hb2 & Hc2 & Hd2 & Hl2); auto; [by apply files_snoc, (files_same im)|cbn; lia|].
  change (i_inum ip) with inum in E2, Hd2. rewrite E2. cbn [rbind]. set (V2 := fupd V _ _) in *. exists im2, V2. split; [done|].
  split; [split; auto|split; [done|]].
  - rewrite Hn2, Hfi, length_app. cbn [length]. lia.
  - intros j jp Hj. apply lookup_snoc_Some in Hj as [[Hlt Hj]|[-> <-]].
    + destruct (M3 j jp Hj) as (J1 & J2 & J3). rewrite Hd2, decide_False by (cbn; lia). done.
    + split; [done|]. split; [|done]. change (i_inum ip) with inum. by rewrite Hd2, decide_True by lia.
  - intros j Hj. rewrite Hn2, Hfi in Hj. rewrite Hd2, decide_False by lia. apply M4. lia.
  - intros b Hb. rewrite Hl2 by done. auto.
  - intros j jp Hj. rewrite (Hc2 j); [done|]. by apply lookup_app_l_Some.
Qed.

(** ** The files of the command line *)
Definition host_name (h : hostfile) : list Z := skip_underscore (shortname (h_path h)).
Definition host_bytes (h : hostfile) : list Z := concat (default [] (h_reads h)).

(** What mkfs asserts of a file, and that it is small enough. *)
Record host_ok (h : hostfile) : Prop := {
  ho_slash : forallb (fun c => negb (c =? 47)) (shortname (h_path h)) = true;
  ho_open : is_Some (h_reads h);
  ho_name : (length (host_name h) <= 14)%nat;
  ho_chars : is_name (host_name h);
  ho_bytes : Forall is_byte (host_bytes h);
  ho_size : Z.of_nat (length (host_bytes h)) <= MAXFILE * BSIZE;
}.

Definition root_entries (names : list (list Z)) : list (list Z) :=
  [mkfs_dirent 1 [46]; mkfs_dirent 1 [46; 46]] ++ imap (fun k name => mkfs_dirent (2 + Z.of_nat k) name) names.
Definition root_bytes (names : list (list Z)) : list Z := concat (root_entries names).

Record is_file (V : Z -> block) (h : hostfile) (ip : inode) : Prop := {
  if_type : i_type ip = T_FILE; if_nlink : i_nlink ip = 1; if_bytes : fcontent V ip = host_bytes h;
}.
Record is_root (V : Z -> block) (hs : list hostfile) (root : inode) : Prop := {
  ir_type : i_type root = T_DIR; ir_nlink : i_nlink root = 1; ir_bytes : fcontent V root = root_bytes (host_name <$> hs);
}.

(** The blocks the root directory and the files need. *)
Definition demand (hs : list hostfile) : Z :=
  nb (16 * (2 + Z.of_nat (length hs))) + foldr (fun h s => nb (Z.of_nat (length (host_bytes h))) + s) 0 hs.

Lemma length_mkfs_dirent inum name : length (mkfs_dirent inum name) = 16%nat.
Proof. by apply length_fill_dirent. Qed.

Lemma root_bytes_snoc names name : root_bytes (names ++ [name]) = root_bytes names ++ mkfs_dirent (2 + Z.of_nat (length names)) name.
Proof. unfold root_bytes, root_entries. rewrite imap_app, app_assoc, concat_app. cbn [imap concat compose]. by rewrite Nat.add_0_r, app_nil_r. Qed.

Lemma length_root_bytes names : Z.of_nat (length (root_bytes names)) = 16 * (2 + Z.of_nat (length names)).
Proof.
  induction names as [|name names IH] using rev_ind; [done|]. rewrite root_bytes_snoc, !length_app, length_mkfs_dirent. cbn [length]. lia.
Qed.

Lemma foldr_sum_snoc {A} (f : A -> Z) l x : foldr (fun y s => f y + s) 0 (l ++ [x]) = foldr (fun y s => f y + s) 0 l + f x.
Proof. induction l as [|y l IH]; cbn [app foldr]; [lia|]. rewrite IH. lia. Qed.

Lemma foldr_sum_pos {A} (f : A -> Z) l : (forall x, 0 <= f x) -> 0 <= foldr (fun y s => f y + s) 0 l.
Proof. intros Hf. induction l as [|x l IH]; cbn [foldr]; [done|]. specialize (Hf x). lia. Qed.

Lemma nb_pos n : 0 <= n -> 0 <= nb n.
Proof. intros Hn. pose proof (nb_mono 0 n). lia. Qed.

Lemma demand_prefix hs hs' : demand hs <= demand (hs ++ hs').
Proof.
  induction hs' as [|h hs' IH] using rev_ind; [by rewrite app_nil_r|]. etransitivity; [exact IH|]. rewrite app_assoc. set (l := hs ++ hs').
  unfold demand. rewrite foldr_sum_snoc, length_app. cbn [length].
  pose proof (nb_mono (16 * (2 + Z.of_nat (length l))) (16 * (2 + Z.of_nat (length l + 1)))). pose proof (nb_pos (Z.of_nat (length (host_bytes h)))). lia.
Qed.

Lemma size_of_content im V I i ip c : files_ok im V I -> I !! i = Some ip -> fcontent V ip = c -> i_size ip = Z.of_nat (length c).
Proof. intros HF Hi <-. symmetry. apply length_fcontent. apply (fi_size _ _ (fs_file _ _ _ HF i ip Hi)). Qed.

Lemma built_blocks im V root rest hs :
  files_ok im V (root :: rest) -> is_root V hs root -> Forall2 (is_file V) hs rest -> blocks (root :: rest) = demand hs.
Proof.
  intros HF Hr Hrest. change (blocks (root :: rest)) with (nb (i_size root) + blocks rest). unfold demand. f_equal.
  { f_equal. rewrite (size_of_content im V _ 0 root _ HF eq_refl (ir_bytes _ _ _ Hr)), length_root_bytes. by rewrite length_fmap. }
  assert (Hsz : forall i ip c, rest !! i = Some ip -> fcontent V ip = c -> i_size ip = Z.of_nat (length c)).
  { intros i ip c Hi. by apply (size_of_content im V (root :: rest) (S i)). }
  clear HF Hr. induction Hrest as [|h ip hs rest Hh Hrest IH]; [done|]. cbn [blocks foldr].
  change (foldr (fun ip s => nb (i_size ip) + s) 0 rest) with (blocks rest). rewrite IH by (intros i ip' c Hi; by apply (Hsz (S i))).
  f_equal. f_equal. apply (Hsz 0%nat ip); [done|apply Hh].
Qed.

Lemma append_reads_ok reads im V I i ip :
  fs_ok im V I -> I !! i = Some ip -> Forall is_byte (concat reads) ->
  let n := Z.of_nat (length (concat reads)) in i_size ip + n <= MAXFILE * BSIZE -> 46 + blocks I + (nb (i_size ip + n) - nb (i_size ip)) <= 2000 ->
  exists im' V' a', let ip' := set_size (set_addrs ip a') (i_size ip + n) in
    append_reads (i_inum ip) reads im = Ok im' /\ fs_ok im' V' (<[i := ip']> I) /\ fcontent V' ip' = fcontent V ip ++ concat reads /\
    (forall j jp, j <> i -> I !! j = Some jp -> fcontent V' jp = fcontent V jp).
Proof.
  revert im V I ip. induction reads as [|buf reads IH]; intros im V I ip HF Hi Hp n Hmax Hfb.
  - exists im, V, (i_addrs ip). unfold n. cbn [concat length Z.of_nat append_reads]. rewrite Z.add_0_r.
    assert (set_size (set_addrs ip (i_addrs ip)) (i_size ip) = ip) as -> by by destruct ip. rewrite list_insert_id, app_nil_r by done. done.
  - cbn [concat] in *. apply Forall_app in Hp as [Hp1 Hp2]. set (m := Z.of_nat (length buf)).
    assert (En : n = m + Z.of_nat (length (concat reads))) by (unfold n, m; rewrite length_app; lia). destruct (fs_file _ _ _ (mk_files _ _ _ HF) i ip Hi) as [_ Hsz].
    pose proof (nb_mono (i_size ip) (i_size ip + m) ltac:(lia)). pose proof (nb_mono (i_size ip + m) (i_size ip + n) ltac:(lia)).
    destruct (iappend_ok im V I i ip buf) as (im1 & V1 & a1 & E1 & HF1 & Hc1 & Ho1); auto; [lia|fold m; lia|]. fold m in HF1, Hc1.
    set (ip1 := set_size (set_addrs ip a1) (i_size ip + m)) in *. cbn [append_reads]. rewrite E1. cbn [rbind].
    apply lookup_lt_Some in Hi as Hlt. pose proof (blocks_insert I i ip ip1 Hi) as Hbl. change (i_size ip1) with (i_size ip + m) in Hbl.
    destruct (IH im1 V1 (<[i := ip1]> I) ip1) as (im2 & V2 & a2 & E2 & HF2 & Hc2 & Ho2); auto;
      [by apply list_lookup_insert_eq|change (i_size ip1) with (i_size ip + m); lia| |].
    { change (i_size ip1) with (i_size ip + m). replace (i_size ip + m + Z.of_nat (length (concat reads))) with (i_size ip + n) by lia. lia. }
    change (i_inum ip1) with (i_inum ip) in E2. change (i_size ip1) with (i_size ip + m) in HF2, Hc2. replace (i_size ip + m + Z.of_nat (length (concat reads))) with (i_size ip + n) in HF2, Hc2 by lia.
    exists im2, V2, a2. change (set_size (set_addrs ip1 a2) (i_size ip + n)) with (set_size (set_addrs ip a2) (i_size ip + n)) in HF2, Hc2.
    split; [done|]. rewrite list_insert_insert_eq in HF2. split; [done|]. split; [by rewrite Hc2, Hc1, app_assoc|].
    intros j jp Hne Hj. rewrite (Ho2 j), (Ho1 j); auto. by rewrite list_lookup_insert_ne.
Qed.

Lemma is_file_keep V V' hs rest :
  (forall j ip, rest !! j = Some ip -> fcontent V' ip = fcontent V ip) -> Forall2 (is_file V) hs rest -> Forall2 (is_file V') hs rest.
Proof.
  intros Hk Hf. apply Forall2_same_length_lookup. split; [by eapply Forall2_length|]. intros i h ip Hh Hip.
  destruct (Forall2_lookup_lr _ _ _ _ _ _ Hf Hh Hip) as [T1 T2 T3]. split; auto. by rewrite (Hk i).
Qed.

Lemma mkfs_dirent_bytes inum name : is_name name -> Forall is_byte (mkfs_dirent inum name).
Proof. intros Hn. by apply fill_dirent_bytes. Qed.

Lemma demand_snoc hs h :
  demand (hs ++ [h]) = demand hs + (nb (16 * (2 + Z.of_nat (length hs)) + 16) - nb (16 * (2 + Z.of_nat (length hs)))) + nb (Z.of_nat (length (host_bytes h))).
Proof.
  unfold demand. rewrite foldr_sum_snoc, length_app. cbn [length].
  replace (16 * (2 + Z.of_nat (length hs + 1))) with (16 * (2 + Z.of_nat (length hs)) + 16) by lia. lia.
Qed.

Lemma add_file_ok im V root rest hs h :
  fs_ok im V (root :: rest) -> is_root V hs root -> Forall2 (is_file V) hs rest -> host_ok h ->
  Z.of_nat (length hs) < 198 -> 46 + demand (hs ++ [h]) <= 2000 ->
  exists im' V' root' rest', add_file 1 h im = Ok im' /\ fs_ok im' V' (root' :: rest') /\
    is_root V' (hs ++ [h]) root' /\ Forall2 (is_file V') (hs ++ [h]) rest'.
Proof.
  intros HF Hr Hrest [H1 [reads H2] H3 H4 H5 H6] Hlen Hdem. pose proof (Forall2_length _ _ _ Hrest) as El.
  pose proof (built_blocks im V root rest hs (mk_files _ _ _ HF) Hr Hrest) as Hbl. rewrite demand_snoc in Hdem.
  unfold host_bytes in H5, H6, Hdem. rewrite H2 in H5, H6, Hdem. cbn [default] in H5, H6, Hdem. unfold id in H5, H6, Hdem.
  unfold add_file. rewrite H1, H2. cbn [negb]. fold (host_name h). destruct (Z.leb_spec (Z.of_nat (length (host_name h))) DIRSIZ) as [_|Hx]; [|change DIRSIZ with 14 in Hx; lia].
  cbn [negb]. pose proof (size_of_content im V _ 0 root _ (mk_files _ _ _ HF) eq_refl (ir_bytes _ _ _ Hr)) as Hsr. rewrite length_root_bytes, length_fmap in Hsr.
  destruct (ialloc_ok im V (root :: rest) T_FILE) as (im1 & V1 & E1 & HF1 & Hn1 & Hc1); auto; [cbn; lia|done|].
  rewrite E1. cbn [rbind]. set (inum := 1 + Z.of_nat (length (root :: rest))) in *. assert (Ei : inum = 2 + Z.of_nat (length hs)) by (unfold inum; cbn; lia).
  pose proof (blocks_app (root :: rest) [new_inode inum T_FILE]) as Hb1. change (blocks [new_inode inum T_FILE]) with (nb 0 + 0) in Hb1. change (nb 0) with 0 in Hb1.
  pose proof (nb_pos (Z.of_nat (length (concat reads)))) as Hnb.
  destruct (mk_ino _ _ _ HF 0%nat root eq_refl) as (Eroot & _). change (1 + Z.of_nat 0) with 1 in Eroot.
  destruct (iappend_ok im1 V1 ((root :: rest) ++ [new_inode inum T_FILE]) 0 root (mkfs_dirent inum (host_name h))) as (im2 & V2 & a2 & E2 & HF2 & Hc2 & Ho2);
    auto using mkfs_dirent_bytes; [rewrite length_mkfs_dirent; change (MAXFILE * BSIZE) with 274432; lia|rewrite length_mkfs_dirent, Hb1, Hbl, Hsr; change (Z.of_nat 16) with 16; lia|].
  rewrite Eroot in E2. rewrite E2. cbn [rbind]. rewrite length_mkfs_dirent in *. change (Z.of_nat 16) with 16 in *.
  set (root2 := set_size (set_addrs root a2) (i_size root + 16)) in *. cbn [app insert list_insert] in HF2.
  set (new := new_inode inum T_FILE) in *. 
  assert (Hlk : forall x, (x :: rest ++ [new]) !! S (length hs) = Some new).
  { intros x. change ((rest ++ [new]) !! length hs = Some new). by rewrite lookup_app_r, El, Nat.sub_diag by lia. }
  assert (Hb2 : blocks (root2 :: rest ++ [new]) = demand hs + (nb (i_size root + 16) - nb (i_size root))).
  { change (blocks (root2 :: rest ++ [new])) with (nb (i_size root + 16) + blocks (rest ++ [new])).
    change (blocks ((root :: rest) ++ [new])) with (nb (i_size root) + blocks (rest ++ [new])) in Hb1. lia. }
  destruct (append_reads_ok reads im2 V2 (root2 :: rest ++ [new]) (S (length hs)) new) as (im3 & V3 & a3 & E3 & HF3 & Hc3 & Ho3); auto.
  { change (i_size new) with 0. rewrite Hb2, Hsr, Z.add_0_l. change (nb 0) with 0. lia. }
  change (i_inum new) with inum in E3. set (new3 := set_size (set_addrs new a3) _) in *.
  exists im3, V3, root2, (rest ++ [new3]). split; [done|].
  assert (El3 : <[S (length hs) := new3]> (root2 :: rest ++ [new]) = root2 :: rest ++ [new3]).
  { change (root2 :: <[length hs := new3]> (rest ++ [new]) = root2 :: rest ++ [new3]). f_equal. rewrite El, <- (Nat.add_0_r (length rest)), insert_app_r. done. }
  rewrite El3 in HF3. split; [done|]. split.
  - split; [apply Hr|apply Hr|]. rewrite (Ho3 0%nat) by done. rewrite Hc2, (Hc1 0%nat) by done. rewrite (ir_bytes _ _ _ Hr).
    rewrite fmap_app. cbn [fmap list_fmap]. rewrite root_bytes_snoc, length_fmap, Ei. done.
  - apply Forall2_app; [|constructor; [|constructor]].
    + eapply is_file_keep; [|exact Hrest]. intros j ip Hj. apply lookup_lt_Some in Hj as Hjl.
      rewrite (Ho3 (S j)), (Ho2 (S j)), (Hc1 (S j)); auto; try (by apply (lookup_app_l_Some (_ :: rest) [new] (S j))). lia.
    + split; [done|done|]. rewrite Hc3, (Ho2 (S (length hs))), Hn1 by (done || exact (Hlk root)).
      unfold host_bytes. by rewrite H2.
Qed.

Lemma add_files_ok hs' : forall im V root rest hs,
  fs_ok im V (root :: rest) -> is_root V hs root -> Forall2 (is_file V) hs rest -> Forall host_ok hs' ->
  Z.of_nat (length (hs ++ hs')) <= 198 -> 46 + demand (hs ++ hs') <= 2000 ->
  exists im' V' root' rest', add_files 1 hs' im = Ok im' /\ fs_ok im' V' (root' :: rest') /\
    is_root V' (hs ++ hs') root' /\ Forall2 (is_file V') (hs ++ hs') rest'.
Proof.
  induction hs' as [|h hs' IH]; intros im V root rest hs HF Hr Hrest Hh Hlen Hdem.
  - rewrite app_nil_r in *. by exists im, V, root, rest.
  - inversion_clear Hh. rewrite (app_assoc hs [h] hs') in * || rewrite (cons_middle h hs hs'), (app_assoc hs [h] hs') in *. cbn [add_files].
    destruct (add_file_ok im V root rest hs h) as (im1 & V1 & root1 & rest1 & E1 & HF1 & Hr1 & Hrest1); auto.
    + rewrite !length_app in Hlen. cbn in Hlen. lia.
    + pose proof (demand_prefix (hs ++ [h]) hs'). lia.
    + rewrite E1. cbn [rbind]. by apply (IH im1 V1 root1 rest1).
Qed.

(** ** The blank image *)
Lemma zero_disk_ok k : forall i im, im_file im = replicate (Z.to_nat i) zero_block -> 0 <= i -> i + Z.of_nat k <= 2000 ->
  zero_disk k i im = mkImage (replicate (Z.to_nat i + k) zero_block) (freeinode im) (freeblock im).
Proof.
  induction k as [|k IH]; intros i im Hf Hi Hk; cbn [zero_disk].
  - rewrite Nat.add_0_r, <- Hf. by destruct im.
  - rewrite IH; [unfold wsect; cbn; do 2 f_equal; lia| |lia|lia].
    unfold wsect. cbn [set_file im_file]. rewrite sector_small, Hf, length_replicate, decide_False, Nat.sub_diag by lia. cbn [replicate app].
    replace (Z.to_nat (i + 1)) with (Z.to_nat i + 1)%nat by lia. by rewrite replicate_add.
Qed.

Definition blank (b : Z) : block := if b =? 45 then bitmap 46 else if b =? 1 then super_block else zero_block.
Definition blank_image : image := wsect 1 super_block (zero_disk (Z.to_nat FSSIZE) 0 (mkImage [] 1 nmeta)).

Lemma super_block_ok : is_block super_block /\ Forall is_byte super_block.
Proof.
  split; [done|]. apply splice_bytes; [|apply zero_block_ok]. unfold sb_bytes. cbn [fmap list_fmap concat].
  repeat (apply Forall_app; split; [apply le_encode_bytes|]). constructor.
Qed.

Lemma dinode_zero inum : dinode_at zero_block inum = dinode_of inode0.
Proof.
  assert (Hz : forall n off, le_decode (take n (drop off zero_block)) = 0).
  { intros n off. unfold zero_block. rewrite drop_replicate, take_replicate. generalize (n `min` (Z.to_nat BSIZE - off))%nat. intros k. induction k; simpl; lia. }
  unfold dinode_at, get16, getu16, get_addrs, getu32. rewrite !Hz. unfold dinode_of. f_equal.
  apply list_eq. intros i. rewrite list_lookup_fmap. destruct (decide (i < 13)%nat) as [Hi|Hi].
  - rewrite lookup_seqZ_lt by (change NDIRECT with 12; lia). cbn [fmap option_fmap option_map]. rewrite Hz. symmetry. by apply lookup_replicate_2.
  - rewrite lookup_seqZ_ge by (change NDIRECT with 12; lia). symmetry. apply lookup_ge_None_2. cbn. lia.
Qed.

Lemma blank_image_eq : blank_image = mkImage (<[1%nat := super_block]> (replicate (Z.to_nat 2000) zero_block)) 1 46.
Proof.
  unfold blank_image. change FSSIZE with 2000. rewrite zero_disk_ok; [|reflexivity|lia|lia]. unfold wsect. cbn [im_file set_file freeinode freeblock].
  rewrite length_replicate, sector_small, decide_True by lia. f_equal.
Qed.

Lemma blank_file b : 0 <= b < 2000 -> b <> 45 -> im_file blank_image !! Z.to_nat b = Some (blank b).
Proof.
  intros Hb Hne. rewrite blank_image_eq. cbn [im_file]. unfold blank. destruct (Z.eqb_spec b 45); [done|]. destruct (Z.eqb_spec b 1) as [->|H1].
  - apply list_lookup_insert_eq. rewrite length_replicate. lia.
  - rewrite list_lookup_insert_ne by lia. apply lookup_replicate_2. lia.
Qed.

Lemma blank_disk : disk_ok blank.
Proof.
  intros b. unfold blank. destruct (b =? 45); [apply bitmap_ok; lia|]. destruct (b =? 1); [apply super_block_ok|apply zero_block_ok].
Qed.

Lemma blank_fs f :
  length f = 2000%nat -> (forall b, 0 <= b < 2000 -> b <> 45 -> f !! Z.to_nat b = Some (blank b)) -> fs_ok (mkImage f 1 46) blank [].
Proof.
  intros Hlen Hfile. split.
  - split; [| | | |reflexivity].
    + split; cbn [im_file freeblock]; auto using blank_disk; [lia|]. intros b Hb. unfold blank. repeat (bcase; [lia|]). reflexivity.
    + intros i ip Hi. by rewrite lookup_nil in Hi.
    + intros i j ip jp x Hi. by rewrite lookup_nil in Hi.
    + intros x Hx. cbn in Hx. lia.
  - split; [reflexivity|cbn; lia].
  - intros i ip Hi. by rewrite lookup_nil in Hi.
  - intros inum Hi. cbn [freeinode] in Hi. pose proof (mkfs_iblock inum ltac:(lia)). unfold dinode_on, blank. repeat (bcase; [lia|]). apply dinode_zero.
  - intros b Hb. unfold blank. bcase; [lia|reflexivity].
Qed.

Lemma blank_ok : fs_ok blank_image blank [].
Proof.
  pose proof blank_file as Hfile. rewrite blank_image_eq in *. apply blank_fs; [|exact Hfile]. rewrite length_insert, length_replicate. lia.
Qed.

(** ** The finished image *)

(** The disk that holds the image. *)
Definition image_disk (im : image) : disk := map_seqZ 0 (im_file im).

Lemma dget_image f n m b d : f !! Z.to_nat b = Some d -> 0 <= b -> dget (image_disk (mkImage f n m)) b = d.
Proof.
  intros Hf Hb. unfold dget, image_disk. cbn [im_file].
  assert (E : map_seqZ (M := disk) 0 f !! b = Some d); [|by rewrite E].
  apply lookup_map_seqZ_Some. split; [done|]. by replace (b - 0) with b by lia.
Qed.

Lemma dget_outside im b : length (im_file im) = 2000%nat -> ~ (0 <= b < 2000) -> dget (image_disk im) b = zero_block.
Proof.
  intros Hl Hb. unfold dget, image_disk. destruct (map_seqZ (M := disk) 0 (im_file im) !! b) as [d|] eqn:E; [|done].
  apply lookup_map_seqZ_Some in E as [H0 E]. apply lookup_lt_Some in E. lia.
Qed.

(** balloc puts the bitmap in its place. *)
Lemma balloc_ok im V :
  st_ok im V ->
  exists im', mkfs_balloc (freeblock im) im = Ok im' /\ st_ok im' (dget (image_disk im')) /\ freeblock im' = freeblock im /\
    (forall b, 0 <= b < 2000 -> dget (image_disk im') b = V b) /\ freeinode im' = freeinode im /\ length (im_file im') = 2000%nat.
Proof.
  intros [S1 S2 S3 S4 S5 S6]. unfold mkfs_balloc. destruct (Z.ltb_spec (freeblock im) BPB) as [_|Hx]; [|change BPB with 8192 in Hx; lia]. cbn [negb].
  rewrite mkfs_bmapstart. fold (bitmap (freeblock im)). set (f := <[Z.to_nat 45 := bitmap (freeblock im)]> (im_file im)).
  assert (Hw : wsect 45 (bitmap (freeblock im)) im = mkImage f (freeinode im) (freeblock im)).
  { unfold wsect. rewrite sector_small, decide_True by lia. done. }
  assert (Hl : length f = 2000%nat) by (unfold f; by rewrite length_insert).
  assert (Hf : forall b, 0 <= b < 2000 -> f !! Z.to_nat b = Some (V b)).
  { intros b Hb. unfold f. destruct (decide (b = 45)) as [->|Hne].
    - rewrite list_lookup_insert_eq by lia. by rewrite S3.
    - rewrite list_lookup_insert_ne by lia. auto. }
  rewrite Hw. set (im' := mkImage f (freeinode im) (freeblock im)). exists im'.
  assert (Hd : forall b, 0 <= b < 2000 -> dget (image_disk im') b = V b) by (intros b Hb; apply dget_image; [auto|lia]).
  split; [done|]. split; [|done]. split; cbn [im_file freeblock im']; auto.
  - intros b Hb _. rewrite Hd by done. auto.
  - rewrite Hd by lia. done.
  - intros b. destruct (decide (0 <= b < 2000)) as [Hb|Hb]; [rewrite Hd by done; apply S4|]. rewrite dget_outside by done. apply zero_block_ok.
  - intros b Hb. rewrite Hd by lia. auto.
Qed.

Lemma file_ip_ok V ip : file_in V ip -> meta_ok ip -> 0 <= i_inum ip < 200 -> ip_ok mkfs_sb V ip.
Proof.
  intros [[A1 A2 A3 A4] F2] Hm Hi. split; auto.
  intros bn H0 Hlt. apply A2; [|done]. change (MAXFILE * BSIZE) with (268 * 1024) in F2. change MAXFILE with 268. change BSIZE with 1024 in Hlt. lia.
Qed.

(** The root directory with its size rounded up. *)
Definition round_up (n : Z) : Z := (n / BSIZE + 1) * BSIZE.

Lemma round_up_range n : 0 <= n -> n mod BSIZE <> 0 -> n < round_up n <= n + BSIZE /\ round_up n mod 16 = 0.
Proof. unfold round_up. change BSIZE with 1024. intros. zsolve. Qed.

Lemma rounded_ok V root :
  file_in V root -> meta_ok root -> 0 <= i_inum root < 200 -> i_size root + BSIZE <= MAXFILE * BSIZE -> i_size root mod BSIZE <> 0 ->
  let root' := set_size root (round_up (i_size root)) in
  ip_ok mkfs_sb V root' /\ fcontent V root' = fcontent V root ++ replicate (Z.to_nat (round_up (i_size root) - i_size root)) 0.
Proof.
  intros [A F] Hm Hi Hmax Hmod root'. destruct (round_up_range (i_size root) ltac:(lia) Hmod) as [Hr _]. set (s := i_size root) in *.
  assert (Hblk : forall bn, 0 <= bn -> bn * BSIZE < round_up s -> bn < MAXFILE /\ blk V (i_addrs root) bn <> 0).
  { intros bn H0 Hlt. assert (bn * BSIZE < s) by (unfold round_up in Hlt; change BSIZE with 1024 in *; zsolve).
    assert (bn < MAXFILE) by (change MAXFILE with 268 in *; change BSIZE with 1024 in *; lia). split; [done|]. by apply (ao_blk _ _ _ A). }
  change (MAXFILE * BSIZE) with 274432 in *. change BSIZE with 1024 in Hmax, Hr. split.
  - split; cbn [root' i_addrs i_size i_inum set_size]; [apply A|change (MAXFILE * BSIZE) with 274432; lia|intros bn H0 Hlt; by apply Hblk| |by rewrite mkfs_ninodes].
    destruct Hm. split; cbn; auto. unfold is_u32. lia.
  - unfold fcontent. cbn [root' i_addrs i_size set_size]. fold s. rewrite (fbytes_split _ _ 0 s (round_up s)) by lia. f_equal.
    apply list_eq. intros k. unfold fbytes. rewrite list_lookup_fmap. destruct (decide (Z.of_nat k < round_up s - s)) as [Hk|Hk].
    + rewrite lookup_seqZ_lt, lookup_replicate_2 by lia. cbn. f_equal. apply (ao_tail _ _ _ A); fold s; [change (MAXFILE * BSIZE) with 274432; lia|].
      apply Hblk; [apply Z.div_pos; [lia|done]|]. pose proof (Z.mul_div_le (0 + s + Z.of_nat k) BSIZE ltac:(done)). lia.
    + rewrite lookup_seqZ_ge by lia. symmetry. apply lookup_ge_None_2. rewrite length_replicate. lia.
Qed.

(** ** Looking files up in the root directory *)
Lemma concat_entry (ds : list (list Z)) t j d :
  Forall (fun d => length d = 16%nat) ds -> ds !! j = Some d -> take 16 (drop (16 * j) (concat ds ++ t)) = d.
Proof.
  intros Hds. revert j. induction Hds as [|d' ds Hd' Hds IH]; intros j Hj; [done|]. cbn [concat]. rewrite <- app_assoc. destruct j as [|j].
  - injection Hj as <-. rewrite Nat.mul_0_r, drop_0, <- Hd'. apply take_app_length.
  - rewrite drop_app_ge by lia. rewrite Hd'. replace (16 * S j - 16)%nat with (16 * j)%nat by lia. by apply IH.
Qed.

Lemma entries_concat (ds : list (list Z)) t j d :
  Forall (fun d => length d = 16%nat) ds -> ds !! j = Some d -> entries (concat ds ++ t) !! j = Some d.
Proof.
  intros Hds Hj. assert (Hl : length (concat ds) = (16 * length ds)%nat).
  { clear Hj. induction Hds as [|d' ds Hd Hds IH]; [done|]. cbn [concat length]. rewrite length_app, IH, Hd. lia. }
  apply lookup_lt_Some in Hj as Hlt. rewrite lookup_entries; [by rewrite (concat_entry ds t j d)|].
  rewrite length_app, Hl. apply Nat.div_le_lower_bound; lia.
Qed.

(** The names in the root directory and their inodes. *)
Definition all_names (hs : list hostfile) : list (list Z) := [46] :: [46; 46] :: (host_name <$> hs).
Definition entry_inum (k : nat) : Z := if (k <? 2)%nat then 1 else Z.of_nat k.

Lemma root_entries_lookup hs k n :
  all_names hs !! k = Some n -> root_entries (host_name <$> hs) !! k = Some (mkfs_dirent (entry_inum k) n).
Proof.
  intros Hk. destruct k as [|[|k]]; [by injection Hk as <-..|]. change ((host_name <$> hs) !! k = Some n) in Hk.
  change (imap (fun k name => mkfs_dirent (2 + Z.of_nat k) name) (host_name <$> hs) !! k = Some (mkfs_dirent (entry_inum (S (S k))) n)).
  rewrite list_lookup_imap, Hk. cbn. do 2 f_equal. lia.
Qed.

Lemma entry_inum_ok k : (k < 200)%nat -> 0 < entry_inum k < 200 /\ xshort (entry_inum k) = entry_inum k.
Proof.
  intros Hk. assert (Hi : 0 < entry_inum k < 200) by (unfold entry_inum; destruct (Nat.ltb_spec k 2); lia). split; [done|].
  unfold xshort. rewrite le_decode_encode by apply u16_range. apply Z.mod_small. lia.
Qed.

Lemma dirent_match k n n2 : (k < 200)%nat -> is_name n -> is_name n2 -> de_match n2 (mkfs_dirent (entry_inum k) n) = (namecmp n2 n =? 0).
Proof.
  intros Hk Hn Hn2. destruct (entry_inum_ok k Hk) as [Hi Ex]. unfold de_match, mkfs_dirent. rewrite Ex, fill_dirent_inum by (done || lia). destruct (Z.eqb_spec (entry_inum k) 0); [lia|]. cbn [negb andb].
  apply eq_bool_prop_intro. rewrite !Is_true_true, !Z.eqb_eq. by apply fill_dirent_name.
Qed.

Lemma root_lookup hs t k n :
  Forall host_ok hs -> (length hs <= 198)%nat -> all_names hs !! k = Some n ->
  (forall j n', (j < k)%nat -> all_names hs !! j = Some n' -> namecmp n n' <> 0) ->
  dir_lookup (root_bytes (host_name <$> hs) ++ t) n = Some (16 * Z.of_nat k, entry_inum k).
Proof.
  intros Hok Hlen Hk Hfirst. assert (Hall : Forall is_name (all_names hs)).
  { unfold all_names. repeat (apply Forall_cons; split; [repeat constructor; done|]). apply Forall_fmap. eapply Forall_impl; [exact Hok|]. by intros h []. }
  assert (Hl : length (all_names hs) = (2 + length hs)%nat) by (unfold all_names; cbn [length]; by rewrite length_fmap).
  assert (Hds : Forall (fun d => length d = 16%nat) (root_entries (host_name <$> hs))).
  { unfold root_entries. apply Forall_app. split; [repeat constructor|]. apply Forall_lookup. intros i d Hd.
    rewrite list_lookup_imap in Hd. apply fmap_Some in Hd as (n' & _ & ->). apply length_mkfs_dirent. }
  assert (He : forall j n', all_names hs !! j = Some n' -> entries (root_bytes (host_name <$> hs) ++ t) !! j = Some (mkfs_dirent (entry_inum j) n')).
  { intros j n' Hj. apply entries_concat; [done|]. by apply root_entries_lookup. }
  assert (Hn : is_name n) by (by eapply Forall_lookup in Hall). apply lookup_lt_Some in Hk as Hklt.
  unfold dir_lookup. assert (find_index (de_match n) (entries (root_bytes (host_name <$> hs) ++ t)) = Some k) as ->.
  { apply find_index_Some. split.
    - eexists. split; [by apply He|]. rewrite dirent_match by (done || lia). by rewrite namecmp_refl.
    - intros j d Hj Hd. destruct (lookup_lt_is_Some_2 (all_names hs) j ltac:(lia)) as [n' Hn']. rewrite (He j n') in Hd by done. injection Hd as <-.
      rewrite dirent_match; [|lia|by eapply Forall_lookup in Hall|done]. apply Z.eqb_neq. eauto. }
  rewrite (He k n) by done. cbn [default]. unfold id. do 2 f_equal. unfold mkfs_dirent. destruct (entry_inum_ok k ltac:(lia)) as [Hi Ex].
  rewrite Ex. apply fill_dirent_inum; [done|lia].
Qed.

(** ** The image as a whole *)

(** What mkfs needs of its arguments: at most 198 files, within the limits of
    the format, with different names, that fit on the disk; and a root
    directory that does not end at a block boundary. *)
Record mkfs_input (hs : list hostfile) : Prop := {
  mi_ok : Forall host_ok hs;
  mi_count : (length hs <= 198)%nat;
  mi_space : 46 + demand hs <= 2000;
  mi_names : forall j k n n', all_names hs !! j = Some n -> all_names hs !! k = Some n' -> (j < k)%nat -> namecmp n' n <> 0;
  mi_round : (16 * (2 + Z.of_nat (length hs))) mod BSIZE <> 0;
}.

(** A file system [V] with the inodes [J] that holds exactly the files [hs]. *)
Record image_ok (hs : list hostfile) (V : Z -> block) (J : list inode) : Prop := {
  ik_disk : fs_disk mkfs_sb V;
  ik_log : forall b, 2 <= b < 32 -> V b = zero_block;
  ik_inode : forall i ip, J !! i = Some ip -> i_inum ip = 1 + Z.of_nat i /\ dinode_on mkfs_sb V (i_inum ip) = dinode_of ip /\ ip_ok mkfs_sb V ip;
  ik_free : forall inum, 1 + Z.of_nat (length J) <= inum < 200 -> dinode_on mkfs_sb V inum = dinode_of inode0;
  ik_once : forall i j ip jp x, J !! i = Some ip -> J !! j = Some jp -> own V (i_addrs ip) x -> own V (i_addrs jp) x -> i = j;
  ik_used : forall x, 46 <= x < 2000 -> used mkfs_sb V x = true <-> exists i ip, J !! i = Some ip /\ own V (i_addrs ip) x;
  ik_root : exists root, J !! 0%nat = Some root /\ i_type root = T_DIR /\
    forall k n, all_names hs !! k = Some n -> dir_lookup (fcontent V root) n = Some (16 * Z.of_nat k, entry_inum k);
  ik_files : Forall2 (is_file V) hs (tail J);
}.

(** What fix_root and balloc make of the file system after the last append. *)
Lemma image_finished im V root rest hs :
  fs_ok im V (root :: rest) -> is_root V hs root -> Forall2 (is_file V) hs rest -> mkfs_input hs ->
  exists im1 im2, fix_root 1 im = Ok im1 /\ mkfs_balloc (freeblock im1) im1 = Ok im2 /\ length (im_file im2) = 2000%nat /\ dget (image_disk im2) 1 = super_block /\
    image_ok hs (dget (image_disk im2)) (set_size root (round_up (i_size root)) :: rest).
Proof.
  intros HF Hr Hrest Hin. pose proof HF as [M1 [M2 M2'] M3 M4 M5]. destruct (M3 0%nat root eq_refl) as (I1 & I2 & I3). change (1 + Z.of_nat 0) with 1 in I1.
  destruct (fs_file _ _ _ M1 0%nat root eq_refl) as [G1 G2]. pose proof (size_of_content im V _ 0 root _ M1 eq_refl (ir_bytes _ _ _ Hr)) as Hsr.
  rewrite length_root_bytes, length_fmap in Hsr. pose proof (mi_count _ Hin) as Hcnt. pose proof (mi_round _ Hin) as Hmod. rewrite <- Hsr in Hmod.
  destruct (round_up_range (i_size root) ltac:(lia) Hmod) as [Hru _]. set (root' := set_size root (round_up (i_size root))).
  assert (Hm' : meta_ok root') by (destruct I3; split; cbn; auto; unfold is_u32; change BSIZE with 1024 in *; lia).
  destruct (winode_ok im V (root :: rest) root') as (im1 & E1 & HF1 & Hn1 & Hb1 & Hc1 & Hd1 & Hl1); auto; [cbn; lia|]. set (V1 := fupd V _ _) in *.
  destruct (balloc_ok im1 V1 (fs_st _ _ _ HF1)) as (im2 & E2 & Hs2 & Hb2 & Hv2 & Hn2 & Hlen2). set (W := dget (image_disk im2)) in *.
  destruct (files_keep im1 V1 im2 W (root :: rest)) as [HF2 Hc2]; auto; [intros x Hx; apply Hv2; lia|].
  assert (Hcon : forall i ip, (root :: rest) !! i = Some ip -> fcontent W ip = fcontent V ip) by (intros i ip Hi; rewrite (Hc2 i), (Hc1 i) by done; done).
  assert (Hdin : forall j, 0 <= j < 200 -> dinode_on mkfs_sb W j = if decide (j = 1) then dinode_of root' else dinode_on mkfs_sb V j).
  { intros j Hj. rewrite <- I1. change (i_inum root) with (i_inum root'). rewrite <- Hd1 by lia. apply dinode_on_low; [done|]. intros b Hb. apply Hv2. lia. }
  exists im1, im2. fold W. split.
  { pose proof (rinode_ok im V root (fs_st _ _ _ M1) ltac:(lia) I2) as Er. change (i_inum root') with (i_inum root) in E1. rewrite I1 in Er, E1.
    unfold fix_root. rewrite Er. cbn [rbind din_of d_size].
    cbv zeta. rewrite (xint_small (i_size root)) by lia. fold (round_up (i_size root)). change BSIZE with 1024 in Hru.
    rewrite (u32_small (round_up (i_size root))), (xint_small (round_up (i_size root))) by lia. exact E1. }
  split; [done|]. split; [done|]. split; [rewrite Hv2, Hl1, M5 by lia; done|].
  destruct (fs_file _ _ _ HF2 0%nat root eq_refl) as [K1 K2].
  destruct (rounded_ok W root (Build_file_in _ _ K1 K2) I3) as [Hip Hcr]; auto; [lia|change (MAXFILE * BSIZE) with 274432; change BSIZE with 1024; lia|]. fold root' in Hip, Hcr.
  assert (Hcases : forall i ip, (root' :: rest) !! i = Some ip -> (i = 0%nat /\ ip = root') \/ (i <> 0%nat /\ (root :: rest) !! i = Some ip)).
  { intros [|i] ip Hi; [left; by injection Hi as <-|by right]. }
  assert (Hown : forall i ip, (root' :: rest) !! i = Some ip -> exists jp, (root :: rest) !! i = Some jp /\ i_addrs ip = i_addrs jp).
  { intros [|i] ip Hi; [injection Hi as <-; by exists root|by exists ip]. }
  split.
  - by apply (st_fs_disk im2).
  - intros b Hb. rewrite Hv2, Hl1, M5 by lia. bcase; [lia|done].
  - intros i ip Hi. destruct (Hcases i ip Hi) as [[-> ->]|[Hne Hi']].
    + split; [exact I1|]. split; [|done]. change (i_inum root') with (i_inum root). rewrite I1, Hdin by lia. done.
    + destruct (M3 i ip Hi') as (J1 & J2 & J3). apply lookup_lt_Some in Hi' as Hlt. split; [done|]. split; [rewrite Hdin, decide_False by lia; done|].
      apply file_ip_ok; [by apply (fs_file _ _ _ HF2 i)|done|lia].
  - intros inum Hinum. change (length (root' :: rest)) with (length (root :: rest)) in Hinum. cbn [length] in *. rewrite Hdin, decide_False by lia. apply M4. lia.
  - intros i j ip jp x Hi Hj. destruct (Hown i ip Hi) as (ip' & Hi' & ->), (Hown j jp Hj) as (jp' & Hj' & ->). by apply (fs_once _ _ _ HF2).
  - intros x Hx. rewrite (st_used im2) by (done || lia). split.
    + intros Hlt%Z.ltb_lt. destruct (fs_owner _ _ _ HF2 x ltac:(lia)) as (i & ip & Hi & Ho).
      destruct i as [|i]; [exists 0%nat, root'; injection Hi as <-; done|by exists (S i), ip].
    + intros (i & ip & Hi & Ho). destruct (Hown i ip Hi) as (jp & Hj & Ea). rewrite Ea in Ho.
      destruct (own_used im2 W jp x) as [_ Hu]; auto; [by apply (fs_file _ _ _ HF2 i)|]. by rewrite (st_used im2) in Hu by (done || lia).
  - exists root'. split; [done|]. split; [apply Hr|]. intros k n Hk. rewrite Hcr, (Hcon 0%nat) by done. rewrite (ir_bytes _ _ _ Hr).
    apply root_lookup; auto using mi_ok. intros j n' Hj Hn'. by eapply (mi_names _ Hin).
  - eapply is_file_keep; [|exact Hrest]. intros j ip Hj. by apply (Hcon (S j)).
Qed.

Lemma readsb_ok D : dget D 1 = super_block -> exists c, readsb (mkA D ∅ []) = Ok (mkfs_sb, c).
Proof.
  intros HD. unfold readsb. cbn [buf_read acache_ops a_read a_refs]. unfold a_read. cbn [a_refs]. rewrite lookup_empty, decide_True by (rewrite map_size_empty; done).
  cbn [rbind buf_data buf_relse acache_ops]. unfold a_data, a_relse. cbn [set_refs a_refs]. rewrite lookup_insert_eq. cbn [r_held r_data a_disk].
  unfold a_unref. cbn [r_cnt r_data set_refs a_disk]. rewrite decide_True by done. cbn [rbind]. eexists. rewrite HD, mkfs_sb_eq. reflexivity.
Qed.

(** The root directory with its two first entries. *)
Lemma root_made hs : mkfs_input hs ->
  exists im V root, fs_ok im V [root] /\ is_root V [] root /\
    mkfs_main hs = (let* im := add_files 1 hs im in let* im := fix_root 1 im in mkfs_balloc (freeblock im) im).
Proof.
  intros _. destruct (ialloc_ok blank_image blank [] T_DIR blank_ok) as (im1 & V1 & E1 & HF1 & Hc1 & _); [done|done|].
  change (1 + Z.of_nat (length [])) with 1 in *. cbn [app] in HF1. set (r1 := new_inode 1 T_DIR) in *.
  destruct (iappend_ok im1 V1 [r1] 0 r1 (mkfs_dirent 1 [46])) as (im2 & V2 & a2 & E2 & HF2 & Hc2 & _); auto;
    [apply mkfs_dirent_bytes; repeat constructor; done|done|done|].
  set (r2 := set_size _ _) in *. change (<[0%nat := r2]> [r1]) with [r2] in HF2. change (i_inum r1) with 1 in E2.
  destruct (iappend_ok im2 V2 [r2] 0 r2 (mkfs_dirent 1 [46; 46])) as (im3 & V3 & a3 & E3 & HF3 & Hc3 & _); auto;
    [apply mkfs_dirent_bytes; repeat constructor; done|done|done|].
  set (r3 := set_size (set_addrs r2 a3) _) in *. change (<[0%nat := r3]> [r2]) with [r3] in HF3. change (i_inum r2) with 1 in E3.
  exists im3, V3, r3. split; [done|]. split; [split; [done|done|by rewrite Hc3, Hc2, Hc1]|].
  unfold mkfs_main. fold super_block. fold blank_image. rewrite E1. cbn [rbind]. change (negb (1 =? ROOTINO)) with false. cbn iota. rewrite E2. cbn [rbind]. rewrite E3. done.
Qed.

Lemma mkfs_builds hs :
  mkfs_input hs ->
  exists im J, mkfs_main hs = Ok im /\ length (im_file im) = 2000%nat /\ image_ok hs (dget (image_disk im)) J /\ dget (image_disk im) 1 = super_block.
Proof.
  intros Hin. destruct (root_made hs Hin) as (im0 & V0 & root & HF0 & Hr0 & ->).
  destruct (add_files_ok hs im0 V0 root [] []) as (im1 & V1 & root1 & rest1 & E1 & HF1 & Hr1 & Hrest1); auto; try apply Hin; [cbn [app]; destruct Hin; lia|].
  destruct (image_finished im1 V1 root1 rest1 hs) as (im2 & im3 & E2 & E3 & Hlen & Hsup & Hok); auto.
  rewrite E1. cbn [rbind]. rewrite E2. cbn [rbind]. by eexists im3, _.
Qed.

(** C6: mkfs, given at most 198 files with different short names that fit on
    the disk, ends with an image of 2000 blocks that is a well-formed file
    system: the kernel's readsb accepts it, the log is empty, every inode is
    the root directory or one of the files, no block belongs to two inodes,
    the bitmap marks exactly the blocks in use, the kernel's directory lookup
    finds every file (and . and ..) under its name, and the bytes of each
    inode are those of the file on the host. *)
Theorem mkfs_image hs :
  mkfs_input hs ->
  exists im J, mkfs_main hs = Ok im /\ length (im_file im) = 2000%nat /\ image_ok hs (dget (image_disk im)) J /\
    exists c, readsb (mkA (image_disk im) ∅ []) = Ok (mkfs_sb, c).
Proof.
  intros Hin. destruct (mkfs_builds hs Hin) as (im & J & E & Hlen & Hok & Hsup). exists im, J. split_and!; [done..|]. by apply readsb_ok.
Qed.

(** A file of 1124 bytes from user/_a and one of 13 blocks from b. *)
Abbreviation demo_hosts :=
  [mkHost [117; 115; 101; 114; 47; 95; 97] (Some [replicate 1024 7; replicate 100 8]); mkHost [98] (Some (replicate 13 (replicate 1024 9)))].

Definition bytesb (l : list Z) : bool := forallb (fun b => (0 <=? b) && (b <? 256)) l.

Lemma bytesb_ok l : bytesb l = true -> Forall is_byte l.
Proof.
  intros H. unfold bytesb in H. rewrite forallb_forall in H. apply Forall_forall. intros b Hb. specialize (H b ltac:(by apply list_elem_of_In)).
  apply andb_true_iff in H as [H1%Z.leb_le H2%Z.ltb_lt]. by split.
Qed.

Lemma host_check path reads :
  forallb (fun c => negb (c =? 47)) (shortname path) && (Nat.leb (length (skip_underscore (shortname path))) 14) && bytesb (skip_underscore (shortname path)) &&
    bytesb (concat reads) && (Z.of_nat (length (concat reads)) <=? MAXFILE * BSIZE) = true ->
  host_ok (mkHost path (Some reads)).
Proof.
  intros H. apply andb_true_iff in H as [H H5%Z.leb_le]. apply andb_true_iff in H as [H H4%bytesb_ok]. apply andb_true_iff in H as [H H3%bytesb_ok].
  apply andb_true_iff in H as [H1 H2%Nat.leb_le]. split; auto.
Qed.

Lemma mkfs_image_witness : exists im J, mkfs_main demo_hosts = Ok im /\ image_ok demo_hosts (dget (image_disk im)) J.
Proof.
  destruct (mkfs_image demo_hosts) as (im & J & E & _ & Hok & _); [|exists im, J; split; [exact E|exact Hok]]. split.
  - apply Forall_cons; split; [apply host_check; vm_compute; reflexivity|]. apply Forall_cons; split; [apply host_check; vm_compute; reflexivity|constructor].
  - cbn [length]. lia.
  - vm_compute. discriminate.
  - intros j k n n' Hj Hk Hlt. destruct j as [|[|[|[|j]]]], k as [|[|[|[|k]]]]; try lia; try discriminate Hj; try discriminate Hk;
      injection Hj as <-; injection Hk as <-; vm_compute; discriminate.
  - vm_compute. discriminate.
Defined.
