(* ===== verification/Mount.v ===== *)
(** * The first process: forkret of kernel/proc.c, and what it finds on the disk

    The first process to be dispatched mounts the file system (fsinit: the
    super block, then recovery of the log) and goes to user space.  Proved,
    for any buffer cache that keeps the laws of Block: after a crash at any
    point of a commit the next boot mounts the file system with the
    transaction done completely or not at all, and enters user space; and the
    image of mkfs is mounted as it is. *)

From S2P Require Import Prelude Riscv Mem Kalloc Vm Sleeplock Block Log LogFacts LogExec LogProps Txn Fs FsBlocks File Sysfile Proc ProcLife Syscall Console Virtio Trap Mkfs MkfsAppend MkfsProps.

Section forkret.
Context (trampoline uservec userret usertrap_at : Z) {C : Type} `{BO : BufOps C}.

Definition set_mount (lg : log) (c : C) (t : kernel (C := C)) : kernel :=
  let y := m_y (t_m t) in
  set_m t (set_y (t_m t) (mkKs (y_p y) (set_fs (y_k y) (set_t (k_fs (y_k y)) (lg, c))))).

(** [first] is the static variable, [sb] the super block in memory.  The lock
    of the process, held since the scheduler, is released. *)
Definition forkret (i : nat) (sstatus satp : Z) (first : bool) (sb : superblock) (t : kernel (C := C)) : res (bool * superblock * uret * kernel) :=
  let* (sb, t) := (if first then
                     let '(lg, c) := fs_t (k_fs (y_k (m_y (t_m t)))) in
                     let* (sb, lg, c) := fsinit ROOTDEV lg c in
                     Ok (sb, set_mount lg c t)
                   else Ok (sb, t)) in
  let '(u, t) := usertrapret trampoline uservec userret usertrap_at i sstatus satp t in
  Ok (false, sb, u, t).
End forkret.

(** ** The super block *)
Definition sb_at (d : block) : superblock :=
  mkSb (getu32 d 0) (getu32 d 4) (getu32 d 8) (getu32 d 12) (getu32 d 16) (getu32 d 20) (getu32 d 24) (getu32 d 28).

Lemma readsb_reads {S : Type} `{BufLaws S} (s : S) D T : buf_rel s (mkA D ∅ T) ->
  exists s', readsb s = Ok (sb_at (dget D 1), s') /\ buf_rel s' (mkA D ∅ T).
Proof.
  intros R. assert (E0 : a_read 1 (mkA D ∅ T) = Ok (mkA D {[ 1 := mkR 1 true (dget D 1) ]} T)) by (apply (read_new D ∅ T 1); done).
  destruct (bl_read _ _ _ _ R E0) as (s1 & E1 & R1). assert (E2 : a_relse 1 (mkA D {[ 1 := mkR 1 true (dget D 1) ]} T) = Ok (mkA D ∅ T)).
  { rewrite (relse_last D _ T 1 (dget D 1)) by (done || by simplify_map_eq). by rewrite delete_singleton_eq. }
  destruct (bl_relse _ _ _ _ R1 E2) as (s2 & E3 & R2). exists s2. split; [|done].
  unfold readsb. rewrite E1. cbn [rbind]. rewrite E3. cbn [rbind]. by erewrite bl_data by (done || by simplify_map_eq).
Qed.

(** fsinit on a disk with a super block and a usable log header *)
Lemma fsinit_recovers {S : Type} `{BufLaws S} (s : S) (lg : log) dev D T sb : buf_rel s (mkA D ∅ T) ->
  sb_at (dget D 1) = sb -> sb_magic sb = FSMAGIC -> length (lh_block lg) = Z.to_nat LOGSIZE -> hdr_ok (sb_logstart sb) (sb_nlog sb) D -> 0 < sb_nlog sb ->
  exists lg' s' a', fsinit dev lg s = Ok (sb, lg', s') /\ buf_rel s' a' /\ lh_n lg' = 0 /\ lg_start lg' = sb_logstart sb /\ lg_size lg' = sb_nlog sb /\
    (forall b, ~ log_area (sb_logstart sb) (sb_nlog sb) b -> dget (a_disk a') b = log_view (sb_logstart sb) D b).
Proof.
  intros R Hsb Hm Hl Hok Hn. destruct (readsb_reads s D T R) as (s1 & E1 & R1). unfold fsinit. rewrite E1, Hsb. cbn [rbind].
  rewrite Hm, Z.eqb_refl. cbn [negb]. unfold initlog. set (lg0 := mkLog _ _ _ _ _ _ _).
  destruct (recover_run lg0 D T Hl Hok) as (bs & h2 & E0 & _ & Hh2 & Hb2). destruct (recover_follows lg0 s1 _ _ _ R1 E0) as (s2 & E2 & R2).
  rewrite E2. cbn [rbind]. eexists _, s2, _. split; [done|]. split; [exact R2|]. split_and!; try done.
  intros b Hb. cbn [a_disk]. by apply (recover_content (sb_logstart sb) (sb_nlog sb)).
Qed.

(** A crash in commit does not touch the super block. *)
Lemma crash_keeps lg a k b : commit_ready lg a -> ~ log_area (lg_start lg) (lg_size lg) b -> b ∉ take (Z.to_nat (lh_n lg)) (lh_block lg) ->
  dget (dapply (a_disk a) (take k (ctrace lg a))) b = dget (a_disk a) b.
Proof.
  intros Hcr Hb Hn. apply dget_dapply_ne. intros Hin%elem_of_take_fst. pose proof (length_B lg a Hcr) as Hlen. destruct (cr_n _ _ Hcr) as [Hc1 Hc2].
  unfold ctrace, commit_trace in Hin. rewrite !fmap_app, !elem_of_app in Hin. destruct Hin as [Hin|Hin].
  - apply log_writes_fst in Hin. apply Hb. unfold log_area. lia.
  - revert Hin. cbn. rewrite ?fmap_app, ?elem_of_cons, ?elem_of_app, ?home_writes_fst. unfold log_area in Hb. set_solver by lia.
Qed.

(** The machine after a restart: its log structure and its cache *)
Definition fresh_log {C} (t : kernel (C := C)) : log := (fs_t (k_fs (y_k (m_y (t_m t))))).1.
Definition cache_of {C} (t : kernel (C := C)) : C := (fs_t (k_fs (y_k (m_y (t_m t))))).2.

(** forkret of the first process mounts what the disk holds. *)
Lemma forkret_mounts {C : Type} `{BL : BufLaws C} trampoline uservec userret usertrap_at i sstatus satp sb0 sb (t : kernel (C := C)) D T :
  buf_rel (cache_of t) (mkA D ∅ T) -> sb_at (dget D 1) = sb -> sb_magic sb = FSMAGIC -> length (lh_block (fresh_log t)) = Z.to_nat LOGSIZE ->
  hdr_ok (sb_logstart sb) (sb_nlog sb) D -> 0 < sb_nlog sb ->
  exists u t' a', forkret trampoline uservec userret usertrap_at i sstatus satp true sb0 t = Ok (false, sb, u, t') /\
    user_ready usertrap_at (TRAMPOLINE + (uservec - trampoline)) (TRAMPOLINE + (userret - trampoline)) satp i u (t_m t') /\
    buf_rel (cache_of t') a' /\ lh_n (fresh_log t') = 0 /\
    forall b, ~ log_area (sb_logstart sb) (sb_nlog sb) b -> dget (a_disk a') b = log_view (sb_logstart sb) D b.
Proof.
  intros R Hsb Hm Hl Hok Hn. destruct (fsinit_recovers (cache_of t) (fresh_log t) ROOTDEV D T sb R Hsb Hm Hl Hok Hn) as (lg' & c' & a' & E & R' & H0 & _ & _ & Hv).
  unfold forkret, fresh_log, cache_of in *. destruct (fs_t (k_fs (y_k (m_y (t_m t))))) as [lg c]. cbn [fst snd] in *. rewrite E. cbn [rbind].
  destruct (back trampoline uservec userret usertrap_at i sstatus satp (set_mount lg' c' t)) as [[e t']| |] eqn:Eb; unfold back in Eb;
    destruct (usertrapret _ _ _ _ _ _ _ _) as [u t1] eqn:Eu; try done. injection Eb as <- <-.
  destruct (back_ready trampoline uservec userret usertrap_at i sstatus satp (set_mount lg' c' t) t1 (UReturn u)) as (u' & [= <-] & Hr & _); [unfold back; by rewrite Eu|].
  exists u, t1, a'. split; [done|]. split; [exact Hr|]. unfold usertrapret in Eu. injection Eu as _ <-. done.
Qed.

(** C16: the machine survives a crash.  If it stops after any number of the
    disk writes of a commit, then at the next boot the first process, in
    forkret, finds the file system's super block, recovers the log and enters
    user space, and every block outside the log is as before the transaction
    or, if the header had been written, as the transaction left it. *)
Theorem reboot_after_crash {C : Type} `{BL : BufLaws C} trampoline uservec userret usertrap_at i sstatus satp sb0 sb (t : kernel (C := C)) lg a k T :
  commit_ready lg a -> lg_start lg = sb_logstart sb -> lg_size lg = sb_nlog sb -> sb_at (dget (a_disk a) 1) = sb -> sb_magic sb = FSMAGIC ->
  ~ log_area (lg_start lg) (lg_size lg) 1 -> 1 ∉ take (Z.to_nat (lh_n lg)) (lh_block lg) ->
  buf_rel (cache_of t) (mkA (dapply (a_disk a) (take k (ctrace lg a))) ∅ T) -> length (lh_block (fresh_log t)) = Z.to_nat LOGSIZE ->
  exists u t' a', forkret trampoline uservec userret usertrap_at i sstatus satp true sb0 t = Ok (false, sb, u, t') /\
    user_ready usertrap_at (TRAMPOLINE + (uservec - trampoline)) (TRAMPOLINE + (userret - trampoline)) satp i u (t_m t') /\
    buf_rel (cache_of t') a' /\ lh_n (fresh_log t') = 0 /\
    forall b, ~ log_area (lg_start lg) (lg_size lg) b ->
      dget (a_disk a') b = if decide (k <= Z.to_nat (lh_n lg))%nat then dget (a_disk a) b else txn_data lg a b.
Proof.
  intros Hcr Hst Hsz Hsb Hm H1 H1B R Hl. destruct (cr_n _ _ Hcr) as [Hn Hfit].
  destruct (forkret_mounts trampoline uservec userret usertrap_at i sstatus satp sb0 sb t (dapply (a_disk a) (take k (ctrace lg a))) T R) as (u & t' & a' & E & Hu & R' & H0 & Hv);
    rewrite <- ?Hst, <- ?Hsz; auto; [by rewrite crash_keeps|by apply (commit_crash lg a k 1)|lia|].
  rewrite <- Hst, <- Hsz in Hv. exists u, t', a'. split_and!; try done. intros b Hb. rewrite Hv by done. by apply commit_crash.
Qed.

(** A new image is mounted as mkfs left it. *)
Lemma mkfs_mounts hs : mkfs_input hs -> exists im J, mkfs_main hs = Ok im /\ image_ok hs (dget (image_disk im)) J /\
  forall (C : Type) (BO : BufOps C) (BL : BufLaws C) trampoline uservec userret usertrap_at i sstatus satp sb0 (t : kernel (C := C)) T,
    buf_rel (cache_of t) (mkA (image_disk im) ∅ T) -> length (lh_block (fresh_log t)) = Z.to_nat LOGSIZE ->
    exists u t' a', forkret trampoline uservec userret usertrap_at i sstatus satp true sb0 t = Ok (false, mkfs_sb, u, t') /\
      buf_rel (cache_of t') a' /\ forall b, ~ (2 <= b < 32) -> dget (a_disk a') b = dget (image_disk im) b.
Proof.
  intros Hin. destruct (mkfs_builds hs Hin) as (im & J & E & _ & Hok & Hsup). exists im, J. split; [done|]. split; [done|].
  intros C BO BL trampoline uservec userret usertrap_at i sstatus satp sb0 t T R Hl.
  assert (Hz : dget (image_disk im) 2 = zero_block) by (apply (ik_log _ _ _ Hok); lia).
  assert (Hg : get32 zero_block 0 = 0) by (vm_compute; reflexivity). assert (Hh : hdr_blocks zero_block = []) by (unfold hdr_blocks; by rewrite Hg).
  assert (Hst : sb_logstart mkfs_sb = 2) by (by rewrite mkfs_sb_eq). assert (Hn : sb_nlog mkfs_sb = 30) by (by rewrite mkfs_sb_eq).
  assert (Hsb : sb_at super_block = mkfs_sb) by (vm_compute; reflexivity).
  destruct (forkret_mounts trampoline uservec userret usertrap_at i sstatus satp sb0 mkfs_sb t (image_disk im) T R) as (u & t' & a' & E' & _ & R' & _ & Hv).
  - by rewrite Hsup.
  - by rewrite mkfs_sb_eq.
  - exact Hl.
  - rewrite Hst, Hn. split; rewrite Hz, ?Hg, ?Hh.
    + apply zero_block_ok.
    + change LOGSIZE with 30. lia.
    + lia.
    + constructor.
    + intros b Hb. destruct (not_elem_of_nil b Hb).
  - rewrite Hn. lia.
  - exists u, t', a'. split_and!; [exact E'|exact R'|]. intros b Hb. rewrite Hst, Hn in Hv.
    rewrite Hv by (unfold log_area; lia). apply log_view_clear. by rewrite Hz.
Qed.

(** A commit of block 100 on a new file system, cut off after the header *)
Definition demo_before : acache := mkA {[ 1 := super_block ]} {[ 100 := mkR 1 false (replicate 1024 7) ]} [].
Lemma demo_before_ready : commit_ready (demo_log 1) demo_before.
Proof.
  split; [zcompute|reflexivity| | | | |zcompute|split; zcompute].
  - apply NoDup_singleton.
  - intros b Hb. change (b ∈ [100]) in Hb. apply list_elem_of_singleton in Hb as ->. unfold log_area. simpl. pow2. lia.
  - intros b Hb. change (b ∈ [100]) in Hb. apply list_elem_of_singleton in Hb as ->.
    exists 0%nat. unfold a_data. simpl. by rewrite lookup_singleton_eq.
  - intros b Hb. unfold log_area in Hb. simpl in *. apply lookup_singleton_ne. lia.
Qed.
Definition demo_crash : kernel (C := acache) :=
  set_mount (demo_log 0) (mkA (dapply (a_disk demo_before) (take 2 (ctrace (demo_log 1) demo_before))) ∅ []) demo_kernel.

Lemma reboot_after_crash_witness : exists u t',
  forkret (BO := acache_ops) 0 0 16 512 1 0 99 true (mkSb 0 0 0 0 0 0 0 0) demo_crash = Ok (false, mkfs_sb, u, t') /\ dget (a_disk (cache_of t')) 100 = replicate 1024 7.
Proof.
  destruct (reboot_after_crash 0 0 16 512 1 0 99 (mkSb 0 0 0 0 0 0 0 0) mkfs_sb demo_crash (demo_log 1) demo_before 2 [] demo_before_ready) as (u & t' & a' & E & _ & R & _ & Hv).
  - reflexivity.
  - reflexivity.
  - vm_compute. reflexivity.
  - reflexivity.
  - unfold log_area. cbn. lia.
  - change (1 ∉ [100]). rewrite list_elem_of_singleton. lia.
  - reflexivity.
  - reflexivity.
  - exists u, t'. split; [exact E|]. simpl in R. rewrite R, Hv by (unfold log_area; cbn; lia). reflexivity.
Defined.
